(* ===== verification/_CoqProject ===== *)
-Q . S2P
Prelude.v
NgxNumber.v
Base64.v
HttpRequestLine.v
HttpHeaderLine.v
HttpComplexUri.v
HttpChunked.v
RoundRobin.v
Vnswrr.v
Escape.v
Utf8.v
Crc32.v
Locks.v
HuffmanTables.v
HttpHuffman.v
HpackInt.v
HpackTable.v
NgxPrint.v
NgxTimes.v
RbTree.v
RbTreeShape.v
RbTreeInsert.v
RbTreeDelete.v
RbTreeSpec.v
EventTimer.v
RadixTree.v
Inet.v
Inet6.v
Cidr.v
Pool.v
HttpStatusLine.v
HttpUri.v
HttpParams.v
Digest.v
Md5.v
Sha1.v
Queue.v
LimitReq.v
LimitReqRate.v
LimitReqHandler.v
Slab.v
SlabPages.v
SlabRuns.v
SlabBits.v
SlabChunks.v
SlabSpec.v
SlabPool.v
SlabClients.v
