(* ===== verification/Prelude.v ===== *)
(** * A verification development for the core of Tengine

    Tengine is a web server and proxy derived from nginx.  A request passes through
    hand-written state machines (request line, headers, path normalisation, chunked
    bodies, HPACK for HTTP/2), through string and number utilities that everything
    else uses, and is sent to an upstream peer chosen by a load balancer; worker
    processes share memory under home-made locks.  This library translates those parts
    of the C sources into executable definitions, keeping names, states, branch order
    and machine widths, and proves what makes them correct.  Paths below are relative
    to src/.

    ** Files

    - [Prelude]: notations for character literals, return codes, wrap-around at a
      width, finite checks by evaluation, tactics, shared lemmas.
    - [NgxNumber] (core/ngx_string.c: ngx_atoi, ngx_atosz, ngx_atoof, ngx_atotm,
      ngx_atoll, ngx_atofp, ngx_hextoi): each reader returns the value of a numeral
      that fits its type, and NGX_ERROR otherwise; no intermediate overflow.
    - [NgxPrint] (core/ngx_string.c: ngx_vslprintf, ngx_sprintf_num, ngx_sprintf_str):
      never past the end of the buffer, truncation is a prefix, and printed numbers
      are read back by [NgxNumber].
    - [NgxTimes] (core/ngx_times.c: ngx_gmtime, ngx_http_time, ngx_http_cookie_time;
      core/ngx_parse_time.c): Gauss' formula against a calendar that steps day by day,
      round trip of header dates, memory safety of the parser.
    - [Base64] (core/ngx_string.c): round trip and exact sizes for both alphabets.
    - [Escape] (core/ngx_string.c: ngx_escape_uri, ngx_unescape_uri, ngx_escape_html,
      ngx_escape_json): round trips, contents of the bit tables, size passes.
    - [Utf8] (core/ngx_string.c: ngx_utf8_decode, ngx_utf8_length, ngx_utf8_cpystrn):
      inverse of the UTF-8 encoding, and what else is accepted.
    - [Crc32] (core/ngx_crc32.c, ngx_crc32.h): the tables and loops against the
      bitwise shift register; detection of short bursts.
    - [HttpRequestLine], [HttpHeaderLine] (http/ngx_http_parse.c): the state machines
      byte by byte over a buffer, with the marks they set; what is accepted, that
      well-formed lines are accepted, and independence of fragmentation.
    - [HttpStatusLine] (http/ngx_http_parse.c: ngx_http_parse_status_line): exactly the
      status lines, in any fragmentation; errors at the first byte that rules them out.
    - [HttpUri] (http/ngx_http_parse.c: ngx_http_parse_uri, ngx_http_parse_unsafe_uri,
      ngx_http_split_args): agreement with the request line parser; parent references.
    - [HttpParams] (http/ngx_http_parse.c: ngx_http_arg and the lookups in repeated headers,
      Cookie and Set-Cookie; core/ngx_string.c: ngx_strncasecmp, ngx_strlcasestrn).
    - [HttpComplexUri] (http/ngx_http_parse.c: ngx_http_parse_complex_uri): refinement
      of decode, split, dot-segment removal; an accepted path cannot climb.
    - [HttpChunked] (http/ngx_http_parse.c: ngx_http_parse_chunked;
      http/ngx_http_request_body.c: the chunked filter, with the bytes it moves inside
      the buffer): decodes every chunked body, and nothing else.
    - [HuffmanTables], [HttpHuffman] (http/ngx_http_huff_decode.c,
      ngx_http_huff_encode.c): the decoder's automaton and the encoder's bit buffer
      against the concatenation of the codes.
    - [HpackInt] (http/v2/ngx_http_v2.c: ngx_http_v2_parse_int; ngx_http_v2_encode.c:
      ngx_http_v2_write_int): round trip and limits.
    - [HpackTable] (http/v2/ngx_http_v2_table.c): the dynamic table, with its two
      rings and recycled entries, refines the table of RFC 7541.
    - [RbTree], [RbTreeShape], [RbTreeInsert], [RbTreeDelete], [RbTreeSpec]
      (core/ngx_rbtree.c, ngx_rbtree.h): the code on nodes in memory; the links as a
      zipper; balance and the two re-balancing loops; insertion, deletion, minimum and
      successor refine an ordered list.
    - [EventTimer] (event/ngx_event_timer.c, ngx_event_timer.h): timers and events stay
      consistent, across the wrap-around of the clock.  The client is proved against
      the class [TimerTree] with [TimerTreeLaws], which the red-black tree implements.
    - [RadixTree] (core/ngx_radix_tree.c, ngx_radix_tree.h): insertion, deletion with
      recycled nodes, and longest-prefix search, for both address families.
    - [Queue] (core/ngx_queue.h, ngx_queue.c): the intrusive queues on nodes in memory;
      every operation against the list of nodes; the merge sort is stable and ends.
    - [Digest], [Md5], [Sha1] (core/ngx_md5.c, ngx_sha1.c): buffering and padding, proved
      once against the class [BlockDigest]; the unrolled steps against RFC 1321 and FIPS 180.
    - [Pool] (core/ngx_palloc.c, ngx_palloc.h): pools over an allocator of the system that
      is given by the class [AllocatorLaws], with the cleanup entries in the memory of the
      pool; pieces never overlap, everything is freed once, all registered handlers run
      unless the pool was reset in between.
    - [Slab] (core/ngx_slab.c, ngx_slab.h): the code on descriptors in memory; [SlabPages],
      [SlabRuns]: the pages as a partition into runs and pages of chunks, the lists through
      them, splitting and joining; [SlabBits], [SlabChunks]: the three kinds of bitmaps;
      [SlabSpec], [SlabPool]: pieces in use, histories of a pool; [SlabClients]: the
      allocator as an instance of the class of [LimitReq].
    - [Inet], [Inet6], [Cidr] (core/ngx_inet.c): IPv4, IPv6 and socket addresses as text,
      what is read back of what is printed, with the exceptions; networks and access lists.
    - [RoundRobin] (http/ngx_http_upstream_round_robin.c): smooth weighted selection,
      fairness over a period, failure accounting.
    - [Vnswrr] (modules/ngx_http_upstream_vnswrr_module): selection along a ring of
      virtual peers that is filled in batches; fairness, bounds of the array.
    - [LimitReq], [LimitReqRate], [LimitReqHandler]
      (http/modules/ngx_http_limit_req_module.c): zones of leaky buckets on [RbTree],
      [Queue] and a slab allocator given by the class [SlabLaws] (implemented in [SlabClients]); safety for workers in
      any order; how many requests are let through in a time, evictions from a full zone
      counted; the handler over several limits charges all of them or none, with the two
      exceptions that the source has.
    - [Locks] (core/ngx_rwlock.c, core/ngx_shmtx.c): step relations over any number of
      workers interleaving between atomic operations; exclusion, and no lost wake-up,
      with workers that die while they own the mutex.

    ** Conventions

    A byte, and an integer of any width, is a [Z]; [u8], [u32], [u64] reduce it to the
    width where the source's type does and the value could leave it, [i64] reads a
    64-bit word as signed.  A pointer into a buffer is an offset or the list of the
    bytes from it on.  NGX_ERROR and the other return codes are the C values, or the
    empty side of an option when the result carries data.  Reads outside a buffer and
    of uninitialised slots have no result ([None]), and the theorems show that they do
    not happen.  Platform: 64 bits, little-endian, POSIX.

    Loops over a list are structural.  The others take fuel: the scan of [RoundRobin]
    (twice the number of peers), eviction in [HpackTable] (the number of live entries),
    the loops of [RbTree] (the number of nodes
    in memory), of [Queue] (the length and one), of [RadixTree] (the length of the key and two), of [Vnswrr] (the total
    weight; the gcd's argument), of [EventTimer] (an argument; one more than the timers concerned),
    the walk of [LimitReq] (the nodes in memory and one), its expiry (4), the loop of [LimitReqHandler] (the limits and one),
    the search of [Slab] (the number of pages and one), the walk of the cleanup list in [Pool] (the entries in memory and one), the loops of [HttpParams] (the length of the string and one), digit loops in [NgxPrint] (64) and [HpackInt] (10), the format loop of [NgxPrint]
    (the length of the format).  Each theorem that concludes with a result shows that
    this fuel suffices, as running out of it is [None].

    ** What the theorems show

    Every theorem whose comment starts with a number is a property of the program; the
    others are lemmas.  Round trips: base64, URI, HTML and JSON escaping, Huffman,
    HPACK integers, numbers, dates, addresses.  Refinement of a specification: path
    normalisation, HPACK table, red-black tree, lookup of arguments and cookies.  Equivalence with a reference: CRC, MD5, SHA-1, calendar,
    fragmentation of request lines.  The merge sort of queues.  Functional descriptions of accepted input: request
    line, status line, header line, unsafe URI, chunked body, Huffman decoder, number readers.  Safety and
    invariants over all interleavings: locks, zones of the rate limit; over all sequences of operations: memory pools, the slab allocator.  Termination of the expiry of timers under
    handlers that start and stop timers.  Bounds: buffers of the encoders, the
    formatter and the chunked parser's length hint, the rate of requests.  Error paths: the rate limit's handler, wrong addresses
    given to the slab allocator.

    ** Not modelled

    Allocation failure outside [Pool], [Slab], [RadixTree], [LimitReq] and [HttpUri] (allocations succeed), logging, configuration, the event loop,
    TLS, files, upstream connections and caches, HTTP/2 frames and streams, the Lua
    and other add-on modules: they are dominated by calls into the kernel, OpenSSL and
    LuaJIT, or have no state of their own.  Hash tables and the other containers, buffers, JSON parsing and the other load balancers are
    next in the plan. *)

From stdpp Require Export base tactics list gmap strings numbers option.
From Stdlib Require Export ZArith Lia.
From Stdlib Require Import Ascii.
From Stdlib Require Strings.String.

#[global] Open Scope Z_scope.

(** ** Notations: character and string literals as byte values *)

Declare Scope ngx_scope.
Delimit Scope ngx_scope with ngx.

(** The bytes of an ASCII literal. *)
Definition bytes_of_string (s : string) : list Z :=
  map (fun a => Z.of_N (N_of_ascii a)) (String.list_ascii_of_string s).

(** [ch("A")] is the number 65, so that [lia] sees C character constants. *)
Notation "'ch' ( a )" :=
  (ltac:(let v := eval vm_compute in (List.hd 0 (bytes_of_string a%string)) in exact v))
  (at level 0, a at level 200, only parsing) : ngx_scope.

(** [str("GET")] is the list of the bytes of the literal. *)
Notation "'str' ( a )" :=
  (ltac:(let v := eval vm_compute in (bytes_of_string a%string) in exact v))
  (at level 0, a at level 200, only parsing) : ngx_scope.

#[global] Open Scope ngx_scope.

(** ** Return codes of ngx_core.h *)

Definition NGX_OK : Z := 0.
Definition NGX_ERROR : Z := -1.
Definition NGX_AGAIN : Z := -2.
Definition NGX_BUSY : Z := -3.
Definition NGX_DONE : Z := -4.
Definition NGX_DECLINED : Z := -5.
Definition NGX_ABORT : Z := -6.

(** ** Machine-width integers (64-bit platform) *)

Definition wrap (w z : Z) : Z := z mod 2 ^ w.
Abbreviation u8 := (wrap 8).
Abbreviation u16 := (wrap 16).
Abbreviation u32 := (wrap 32).
Abbreviation u64 := (wrap 64).

(** Two's complement reading of a 64-bit pattern: the conversion to ngx_int_t. *)
Definition i64 (z : Z) : Z :=
  let u := u64 z in if u <? 2 ^ 63 then u else u - 2 ^ 64.

Definition NGX_MAX_INT_T_VALUE : Z := 9223372036854775807.

Definition ngx_abs (value : Z) : Z := if value >=? 0 then value else - value.

Definition in_u (w z : Z) : Prop := 0 <= z < 2 ^ w.

Lemma wrap_small w z : in_u w z -> wrap w z = z.
Proof. intros H. apply Z.mod_small, H. Qed.

Lemma wrap_range w z : 0 <= w -> in_u w (wrap w z).
Proof. intros H. apply Z.mod_pos_bound. apply Z.pow_pos_nonneg; lia. Qed.

Lemma i64_small z : - 2 ^ 63 <= z < 2 ^ 63 -> i64 z = z.
Proof.
  intros H. unfold i64, wrap. destruct (decide (0 <= z)).
  - rewrite Z.mod_small by lia. destruct (Z.ltb_spec z (2 ^ 63)); lia.
  - replace (z mod 2 ^ 64) with (z + 2 ^ 64)
      by (apply Z.mod_unique with (-1); lia).
    destruct (Z.ltb_spec (z + 2 ^ 64) (2 ^ 63)); lia.
Qed.

(** ** Bytes *)

Definition is_byte (c : Z) : Prop := 0 <= c < 256.
#[global] Instance is_byte_dec c : Decision (is_byte c).
Proof. unfold is_byte. apply _. Defined.

Abbreviation bytes_ok := (Forall is_byte).

(** Array read with C's unsigned index; out of the array there is no value. *)
Definition arr (d : Z) (l : list Z) (i : Z) : Z := nth (Z.to_nat i) l d.

(** ** Finite checks: a property of every number below a bound, by evaluation *)

Fixpoint all_below (n : nat) (p : Z -> bool) : bool :=
  match n with
  | O => true
  | S k => p (Z.of_nat k) && all_below k p
  end.

Lemma all_below_spec n p :
  all_below n p = true -> forall c, 0 <= c < Z.of_nat n -> p c = true.
Proof.
  induction n as [|n IH]; intros H c Hc; [lia|].
  cbn in H. apply andb_prop in H as [H1 H2].
  destruct (decide (c = Z.of_nat n)) as [->|]; [done|]. apply IH; [done|lia].
Qed.

Lemma all_bytes_spec (p : Z -> bool) :
  all_below 256 p = true -> forall c, is_byte c -> p c = true.
Proof. intros H c Hc. by apply (all_below_spec 256 p H). Qed.

(** ** Automation *)

(** Turn boolean comparisons on [Z] into arithmetic facts. *)
Ltac zbool :=
  repeat match goal with
  | H : _ && _ = true |- _ => apply andb_prop in H as [? ?]
  | H : _ || _ = false |- _ => apply orb_false_elim in H as [? ?]
  | H : negb _ = true |- _ => apply negb_true_iff in H
  | H : negb _ = false |- _ => apply negb_false_iff in H
  | H : (_ <=? _) = true |- _ => apply Z.leb_le in H
  | H : (_ <=? _) = false |- _ => apply Z.leb_gt in H
  | H : (_ <? _) = true |- _ => apply Z.ltb_lt in H
  | H : (_ <? _) = false |- _ => apply Z.ltb_ge in H
  | H : (_ =? _) = true |- _ => apply Z.eqb_eq in H
  | H : (_ =? _) = false |- _ => apply Z.eqb_neq in H
  end.

(** [lia] for goals with quotients and remainders. *)
Ltac zlia := Z.to_euclidean_division_equations; lia.

(** Split the first conditional of the goal, keeping its equation. *)
Ltac case_if :=
  match goal with
  | |- context [if ?b then _ else _] =>
      let E := fresh "E" in destruct b eqn:E
  end.

(** Same on a hypothesis. *)
Ltac case_if_in H :=
  match type of H with
  | context [if ?b then _ else _] =>
      let E := fresh "E" in destruct b eqn:E
  end.

(** Open the byte-range facts of an explicit prefix. *)
Ltac bytes_inv :=
  repeat match goal with
  | H : Forall _ (_ :: _) |- _ => apply Forall_cons_1 in H as [? H]
  end; unfold is_byte in *.

(** A property of a literal, by evaluating its decision procedure. *)
Ltac by_evaluation := apply (bool_decide_unpack _); vm_compute; exact I.

Create HintDb ngx.
#[export] Hint Resolve wrap_range : ngx.

(** ** Lists *)

Lemma Forall_app_inv {A} (P : A -> Prop) l1 l2 :
  Forall P (l1 ++ l2) -> Forall P l1 /\ Forall P l2.
Proof. apply Forall_app. Qed.

Lemma byte_of_ascii a : is_byte (Z.of_N (N_of_ascii a)).
Proof. destruct a as [[] [] [] [] [] [] [] []]; vm_compute; split; congruence. Qed.

Lemma bytes_of_string_ok s : bytes_ok (bytes_of_string s).
Proof.
  unfold bytes_of_string.
  induction (String.list_ascii_of_string s); constructor; auto using byte_of_ascii.
Qed.

(** Induction three or four elements at a time. *)
Lemma list_ind3 {A} (P : list A -> Prop) :
  P [] -> (forall a, P [a]) -> (forall a b, P [a; b]) ->
  (forall a b c l, P l -> P (a :: b :: c :: l)) -> forall l, P l.
Proof.
  intros H0 H1 H2 H3. fix IH 1. intros [|a [|b [|c l]]];
    [exact H0|exact (H1 a)|exact (H2 a b)|exact (H3 a b c l (IH l))].
Qed.

Lemma list_ind4 {A} (P : list A -> Prop) :
  P [] -> (forall a, P [a]) -> (forall a b, P [a; b]) -> (forall a b c, P [a; b; c]) ->
  (forall a b c d l, P l -> P (a :: b :: c :: d :: l)) -> forall l, P l.
Proof.
  intros H0 H1 H2 H3 H4. fix IH 1. intros [|a [|b [|c [|d l]]]];
    [exact H0|exact (H1 a)|exact (H2 a b)|exact (H3 a b c)|exact (H4 a b c d l (IH l))].
Qed.

(** ** Bit operations as arithmetic *)

Lemma lor_shiftl_add a b n :
  0 <= n -> 0 <= b < 2 ^ n -> Z.lor (Z.shiftl a n) b = a * 2 ^ n + b.
Proof.
  intros Hn Hb. rewrite <- Z.shiftl_mul_pow2 by done. rewrite <- Z.lxor_lor, <- Z.add_nocarry_lxor; [done| |].
  all: apply Z.bits_inj'; intros i Hi; rewrite Z.land_spec, Z.bits_0.
  all: destruct (decide (i < n)); [rewrite Z.shiftl_spec_low by lia; done|].
  all: rewrite <- (Z.mod_small b (2 ^ n)), Z.mod_pow2_bits_high by lia; apply andb_false_r.
Qed.

Lemma land_mask a n : 0 <= n -> Z.land a (2 ^ n - 1) = a mod 2 ^ n.
Proof. intros H. rewrite <- Z.land_ones by done. by rewrite Z.ones_equiv. Qed.

Lemma land_lt_pow2 a b n : 0 <= n -> 0 <= a -> 0 <= b < 2 ^ n -> 0 <= Z.land a b < 2 ^ n.
Proof.
  intros Hn Ha Hb. rewrite <- (Z.mod_small b (2 ^ n)) by done.
  rewrite <- Z.land_ones, Z.land_assoc, Z.land_ones by lia.
  apply Z.mod_pos_bound. lia.
Qed.

(** The masks and shifts by literals that the sources use, as [mod] and [/]. *)
Ltac bits_to_arith :=
  repeat match goal with
  | |- context [Z.shiftr ?a ?n] =>
      let v := eval compute in (2 ^ n) in
      replace (Z.shiftr a n) with (a / v) by (symmetry; apply (Z.shiftr_div_pow2 a n); lia)
  | |- context [Z.shiftl ?a ?n] =>
      let v := eval compute in (2 ^ n) in
      replace (Z.shiftl a n) with (a * v) by (symmetry; apply (Z.shiftl_mul_pow2 a n); lia)
  | |- context [Z.land ?a ?m] =>
      let n := eval compute in (Z.log2 (m + 1)) in
      let v := eval compute in (m + 1) in
      replace (Z.land a m) with (a mod v) by (symmetry; apply (land_mask a n); lia)
  end.
