(* ===== verification/NgxNumber.v ===== *)
(** * Number parsing of src/core/ngx_string.c

    The decimal, fixed-point and hexadecimal readers.  A C pair
    [(u_char *line, size_t n)] is the list of the [n] bytes at [line]; the
    result is the C integer returned, [NGX_ERROR] included.  The cut-off tests
    that guard the multiplications are translated as they are written, and the
    theorems compare each reader with the value of the numeral in [Z], so they
    also say that no signed overflow happens. *)

From S2P Require Import Prelude.

(** The maximum of ssize_t, off_t and time_t on a 64-bit platform
    (auto/types/sizeof). *)
Definition NGX_MAX_SIZE_T_VALUE : Z := 9223372036854775807.
Definition NGX_MAX_OFF_T_VALUE : Z := 9223372036854775807.
Definition NGX_MAX_TIME_T_VALUE : Z := 9223372036854775807.

Definition is_digit (c : Z) : bool := (ch("0") <=? c) && (c <=? ch("9")).

(** ** The readers *)

(** The loop shared by the decimal readers: [value], then the rest of the line. *)
Fixpoint ato_loop (cutoff cutlim value : Z) (line : list Z) : Z :=
  match line with
  | [] => value
  | c :: line' =>
      if (c <? ch("0")) || (ch("9") <? c) then NGX_ERROR
      else if (cutoff <=? value) && ((cutoff <? value) || (cutlim <? c - ch("0")))
      then NGX_ERROR
      else ato_loop cutoff cutlim (value * 10 + (c - ch("0"))) line'
  end.

Definition ngx_atoi (line : list Z) : Z :=
  if bool_decide (line = []) then NGX_ERROR
  else ato_loop (NGX_MAX_INT_T_VALUE / 10) (NGX_MAX_INT_T_VALUE mod 10) 0 line.

Definition ngx_atosz (line : list Z) : Z :=
  if bool_decide (line = []) then NGX_ERROR
  else ato_loop (NGX_MAX_SIZE_T_VALUE / 10) (NGX_MAX_SIZE_T_VALUE mod 10) 0 line.

Definition ngx_atoof (line : list Z) : Z :=
  if bool_decide (line = []) then NGX_ERROR
  else ato_loop (NGX_MAX_OFF_T_VALUE / 10) (NGX_MAX_OFF_T_VALUE mod 10) 0 line.

Definition ngx_atotm (line : list Z) : Z :=
  if bool_decide (line = []) then NGX_ERROR
  else ato_loop (NGX_MAX_TIME_T_VALUE / 10) (NGX_MAX_TIME_T_VALUE mod 10) 0 line.

(** ngx_atoll has no cut-off: the accumulator wraps, and only the sign of the
    final value is tested. *)
Fixpoint atoll_loop (value : Z) (line : list Z) : Z :=
  match line with
  | [] => if value <? 0 then NGX_ERROR else value
  | c :: line' =>
      if (c <? ch("0")) || (ch("9") <? c) then NGX_ERROR
      else atoll_loop (i64 (value * 10 + (c - ch("0")))) line'
  end.

Definition ngx_atoll (line : list Z) : Z :=
  if bool_decide (line = []) then NGX_ERROR else atoll_loop 0 line.

(** The scaling loop [while (point--)] of ngx_atofp. *)
Fixpoint atofp_scale (cutoff value : Z) (point : nat) : Z :=
  match point with
  | O => value
  | S point' =>
      if cutoff <? value then NGX_ERROR
      else atofp_scale cutoff (value * 10) point'
  end.

Fixpoint atofp_loop (cutoff cutlim value : Z) (dot : bool) (point : nat)
    (line : list Z) : Z :=
  match line with
  | [] => atofp_scale cutoff value point
  | c :: line' =>
      if (point =? 0)%nat then NGX_ERROR
      else if c =? ch(".") then
        if dot then NGX_ERROR
        else atofp_loop cutoff cutlim value true point line'
      else if (c <? ch("0")) || (ch("9") <? c) then NGX_ERROR
      else if (cutoff <=? value) && ((cutoff <? value) || (cutlim <? c - ch("0")))
      then NGX_ERROR
      else atofp_loop cutoff cutlim (value * 10 + (c - ch("0"))) dot
             (if dot then Nat.pred point else point) line'
  end.

Definition ngx_atofp (line : list Z) (point : nat) : Z :=
  if bool_decide (line = []) then NGX_ERROR
  else atofp_loop (NGX_MAX_INT_T_VALUE / 10) (NGX_MAX_INT_T_VALUE mod 10) 0
         false point line.

Fixpoint hextoi_loop (cutoff value : Z) (line : list Z) : Z :=
  match line with
  | [] => value
  | cc :: line' =>
      if cutoff <? value then NGX_ERROR
      else if (ch("0") <=? cc) && (cc <=? ch("9")) then
        hextoi_loop cutoff (value * 16 + (cc - ch("0"))) line'
      else
        let c := u8 (Z.lor cc 0x20) in
        if (ch("a") <=? c) && (c <=? ch("f")) then
          hextoi_loop cutoff (value * 16 + (c - ch("a") + 10)) line'
        else NGX_ERROR
  end.

Definition ngx_hextoi (line : list Z) : Z :=
  if bool_decide (line = []) then NGX_ERROR
  else hextoi_loop (NGX_MAX_INT_T_VALUE / 16) 0 line.

(** ** Reference semantics: the value of a numeral *)

Fixpoint dec_value (acc : Z) (line : list Z) : Z :=
  match line with
  | [] => acc
  | c :: line' => dec_value (acc * 10 + (c - ch("0"))) line'
  end.

(** The value of a hexadecimal digit of either case. *)
Definition hex_digit (c : Z) : option Z :=
  if (ch("0") <=? c) && (c <=? ch("9")) then Some (c - ch("0"))
  else if (ch("a") <=? c) && (c <=? ch("f")) then Some (c - ch("a") + 10)
  else if (ch("A") <=? c) && (c <=? ch("F")) then Some (c - ch("A") + 10)
  else None.

Fixpoint hex_value (acc : Z) (line : list Z) : option Z :=
  match line with
  | [] => Some acc
  | c :: line' => d ← hex_digit c; hex_value (acc * 16 + d) line'
  end.

(** What a decimal reader with a given maximum promises. *)
Definition decimal_spec (max : Z) (line : list Z) : Z :=
  if negb (bool_decide (line = [])) && forallb is_digit line
     && (dec_value 0 line <=? max)
  then dec_value 0 line else NGX_ERROR.

(** ** Lemmas *)

Lemma dec_value_mono acc line :
  0 <= acc -> forallb is_digit line = true -> acc <= dec_value acc line.
Proof.
  revert acc. induction line as [|c line IH]; intros acc Ha Hd; cbn in *; [lia|].
  apply andb_prop in Hd as [Hc Hd]. unfold is_digit in Hc. zbool.
  etrans; [|apply IH; [lia|done]]. lia.
Qed.

Lemma dec_value_le a b line : a <= b -> dec_value a line <= dec_value b line.
Proof. revert a b. induction line as [|c line IH]; intros a b H; cbn; [lia|]. apply IH. lia. Qed.

Lemma dec_value_app acc l1 l2 : dec_value acc (l1 ++ l2) = dec_value (dec_value acc l1) l2.
Proof. revert acc. induction l1; intros; cbn; auto. Qed.

Lemma dec_value_scale acc line :
  dec_value acc line = acc * 10 ^ Z.of_nat (length line) + dec_value 0 line.
Proof.
  revert acc. induction line as [|c line IH]; intros acc; [cbn; lia|].
  cbn [dec_value length]. rewrite IH, (IH (0 * 10 + _)), Nat2Z.inj_succ, Z.pow_succ_r by lia. lia.
Qed.

(** The guard of the loop is exactly "one more digit would pass [max]". *)
Lemma cutoff_spec max value d :
  0 <= max -> 0 <= d < 10 ->
  (max / 10 <=? value) && ((max / 10 <? value) || (max mod 10 <? d))
  = (max <? value * 10 + d).
Proof.
  intros Hm Hd. pose proof (Z.div_mod max 10 ltac:(lia)).
  pose proof (Z.mod_pos_bound max 10 ltac:(lia)).
  destruct (Z.leb_spec (max / 10) value), (Z.ltb_spec (max / 10) value),
    (Z.ltb_spec (max mod 10) d), (Z.ltb_spec max (value * 10 + d)); cbn; lia.
Qed.

Lemma ato_loop_spec max value line :
  0 <= max -> 0 <= value <= max ->
  ato_loop (max / 10) (max mod 10) value line
  = if forallb is_digit line && (dec_value value line <=? max)
    then dec_value value line else NGX_ERROR.
Proof.
  intros Hm. revert value. induction line as [|c line IH]; intros value Hv; cbn [ato_loop forallb dec_value].
  - cbn. destruct (Z.leb_spec value max); [done|lia].
  - unfold is_digit at 1.
    destruct (Z.ltb_spec c 48); [destruct (Z.leb_spec 48 c); [lia|done]|].
    destruct (Z.ltb_spec 57 c); [destruct (Z.leb_spec c 57); [lia|by rewrite andb_false_r]|].
    destruct (Z.leb_spec 48 c), (Z.leb_spec c 57); try lia. cbn [orb andb].
    rewrite cutoff_spec by lia.
    destruct (Z.ltb_spec max (value * 10 + (c - 48))); [|by rewrite IH by lia].
    destruct (forallb is_digit line) eqn:E; [cbn|done].
    destruct (Z.leb_spec (dec_value (value * 10 + (c - 48)) line) max); [|done].
    pose proof (dec_value_mono (value * 10 + (c - 48)) line ltac:(lia) E). lia.
Qed.

Lemma ato_spec max line :
  0 <= max ->
  (if bool_decide (line = []) then NGX_ERROR
   else ato_loop (max / 10) (max mod 10) 0 line) = decimal_spec max line.
Proof.
  intros Hm. unfold decimal_spec. destruct (bool_decide (line = [])); [done|].
  rewrite ato_loop_spec by lia. done.
Qed.

Lemma hex_digit_range c d : hex_digit c = Some d -> 0 <= d < 16.
Proof. unfold hex_digit. repeat case_if; intros; simplify_eq; zbool; lia. Qed.

(** Folding the case bit of a byte: the test of the source accepts exactly the
    hexadecimal letters. *)
Lemma hex_letter_fold c :
  is_byte c -> ((ch("0") <=? c) && (c <=? ch("9"))) = false ->
  (if (ch("a") <=? u8 (Z.lor c 0x20)) && (u8 (Z.lor c 0x20) <=? ch("f"))
   then Some (u8 (Z.lor c 0x20) - ch("a") + 10) else None) = hex_digit c.
Proof.
  intros Hc Hd.
  assert (Hall : forall c, is_byte c ->
    bool_decide ((ch("0") <=? c) && (c <=? ch("9")) = true \/
      (if (ch("a") <=? u8 (Z.lor c 0x20)) && (u8 (Z.lor c 0x20) <=? ch("f"))
       then Some (u8 (Z.lor c 0x20) - ch("a") + 10) else None) = hex_digit c) = true)
    by (apply all_bytes_spec; vm_compute; reflexivity).
  specialize (Hall c Hc). apply bool_decide_eq_true in Hall as [?|?]; congruence.
Qed.

Lemma hex_value_mono acc line v : 0 <= acc -> hex_value acc line = Some v -> acc <= v.
Proof.
  revert acc. induction line as [|c line IH]; cbn; intros acc Ha Hv; [simplify_eq; lia|].
  destruct (hex_digit c) as [d|] eqn:E; cbn in Hv; [|done].
  apply hex_digit_range in E. apply IH in Hv; lia.
Qed.

Lemma hextoi_loop_spec value line :
  bytes_ok line -> 0 <= value <= NGX_MAX_INT_T_VALUE ->
  hextoi_loop (NGX_MAX_INT_T_VALUE / 16) value line
  = match hex_value value line with
    | Some v => if v <=? NGX_MAX_INT_T_VALUE then v else NGX_ERROR
    | None => NGX_ERROR
    end.
Proof.
  intros Hb. revert value. induction Hb as [|c line Hc Hb IH]; intros value Hv; cbn [hextoi_loop hex_value].
  - destruct (Z.leb_spec value NGX_MAX_INT_T_VALUE); [done|lia].
  - change (NGX_MAX_INT_T_VALUE / 16) with 576460752303423487 in *.
    unfold NGX_MAX_INT_T_VALUE in *.
    destruct (Z.ltb_spec 576460752303423487 value) as [Hgt|Hle].
    + destruct (hex_digit c) as [d|] eqn:E; [cbn|done].
      destruct (hex_value (value * 16 + d) line) as [v|] eqn:Ev; [|done].
      apply hex_digit_range in E. apply hex_value_mono in Ev; [|lia].
      destruct (Z.leb_spec v 9223372036854775807); [lia|done].
    + destruct ((48 <=? c) && (c <=? 57)) eqn:Ed.
      * unfold hex_digit. rewrite Ed. cbn. zbool. apply IH. lia.
      * rewrite <- (hex_letter_fold c Hc Ed).
        destruct ((97 <=? u8 (Z.lor c 32)) && (u8 (Z.lor c 32) <=? 102)) eqn:El; [|done].
        cbn. zbool. apply IH. lia.
Qed.

(** The reading of a fixed-point numeral: its digits as an integer and the
    number of digits after the point. *)
Fixpoint fixed_value (acc : Z) (dot : bool) (line : list Z) : option (Z * nat) :=
  match line with
  | [] => Some (acc, 0%nat)
  | c :: line' =>
      if c =? ch(".") then if dot then None else fixed_value acc true line'
      else if is_digit c then
        '(v, k) ← fixed_value (acc * 10 + (c - ch("0"))) dot line';
        Some (v, if dot then S k else k)
      else None
  end.

Definition fixed_spec (point : nat) (r : option (Z * nat)) : Z :=
  match r with
  | Some (v, k) =>
      if (k <=? point)%nat && (v * 10 ^ Z.of_nat (point - k) <=? NGX_MAX_INT_T_VALUE)
      then v * 10 ^ Z.of_nat (point - k) else NGX_ERROR
  | None => NGX_ERROR
  end.

Lemma atofp_scale_spec value point :
  0 <= value <= NGX_MAX_INT_T_VALUE ->
  atofp_scale (NGX_MAX_INT_T_VALUE / 10) value point
  = if value * 10 ^ Z.of_nat point <=? NGX_MAX_INT_T_VALUE
    then value * 10 ^ Z.of_nat point else NGX_ERROR.
Proof.
  revert value. induction point as [|point IH]; intros value Hv; cbn [atofp_scale].
  - change (10 ^ Z.of_nat 0) with 1. rewrite Z.mul_1_r.
    destruct (Z.leb_spec value NGX_MAX_INT_T_VALUE); [done|lia].
  - rewrite Nat2Z.inj_succ, Z.pow_succ_r, Z.mul_assoc by lia.
    pose proof (Z.pow_pos_nonneg 10 (Z.of_nat point) ltac:(lia) ltac:(lia)).
    change (NGX_MAX_INT_T_VALUE / 10) with 922337203685477580 in *.
    unfold NGX_MAX_INT_T_VALUE in *.
    destruct (Z.ltb_spec 922337203685477580 value).
    + destruct (Z.leb_spec (value * 10 * 10 ^ Z.of_nat point) 9223372036854775807); [nia|done].
    + rewrite IH by lia. done.
Qed.

Lemma fixed_value_mono acc dot line v k :
  0 <= acc -> fixed_value acc dot line = Some (v, k) -> acc <= v.
Proof.
  revert acc dot v k. induction line as [|c line IH]; cbn; intros acc dot v k Ha Hv; [simplify_eq; lia|].
  destruct (c =? 46); [destruct dot; [done|by eapply IH]|].
  destruct (is_digit c) eqn:Ed; [|done]. unfold is_digit in Ed. zbool.
  destruct (fixed_value _ dot line) as [[v' k']|] eqn:E; cbn in Hv; [|done].
  simplify_eq. apply IH in E; lia.
Qed.

Lemma atofp_loop_spec value dot point line :
  0 <= value <= NGX_MAX_INT_T_VALUE -> dot = true \/ (0 < point)%nat ->
  atofp_loop (NGX_MAX_INT_T_VALUE / 10) (NGX_MAX_INT_T_VALUE mod 10) value dot point line
  = fixed_spec point (fixed_value value dot line).
Proof.
  revert value dot point. induction line as [|c line IH]; intros value dot point Hv Hp.
  - cbn. rewrite atofp_scale_spec by done. by rewrite Nat.sub_0_r.
  - cbn [atofp_loop fixed_value].
    destruct (Nat.eqb_spec point 0) as [->|Hp0].
    { destruct dot; [|lia]. cbn. destruct (c =? 46); [done|]. destruct (is_digit c); [|done].
      by destruct (fixed_value _ true line) as [[v k]|]. }
    destruct (c =? 46) eqn:Edot; [destruct dot; [done|]; rewrite IH by auto; done|].
    unfold is_digit. destruct (Z.ltb_spec c 48).
    { destruct (Z.leb_spec 48 c); [lia|done]. }
    destruct (Z.ltb_spec 57 c).
    { destruct (Z.leb_spec c 57); [lia|by rewrite andb_false_r]. }
    destruct (Z.leb_spec 48 c), (Z.leb_spec c 57); try lia. cbn [orb andb].
    rewrite cutoff_spec by (unfold NGX_MAX_INT_T_VALUE; lia).
    destruct (Z.ltb_spec NGX_MAX_INT_T_VALUE (value * 10 + (c - 48))).
    + destruct (fixed_value _ dot line) as [[v k]|] eqn:E; [|done].
      apply fixed_value_mono in E; [|lia]. cbn.
      set (k' := if dot then S k else k).
      pose proof (Z.pow_pos_nonneg 10 (Z.of_nat (point - k')) ltac:(lia) ltac:(lia)).
      destruct (Z.leb_spec (v * 10 ^ Z.of_nat (point - k')) NGX_MAX_INT_T_VALUE); [nia|].
      by rewrite andb_false_r.
    + rewrite IH by (destruct dot; auto with lia).
      destruct (fixed_value _ dot line) as [[v k]|] eqn:E; [|done]. cbn.
      destruct dot; [|done]. destruct point as [|point]; [lia|]. done.
Qed.

(** ** The theorems *)

(** ngx_atoi, ngx_atosz, ngx_atoof and ngx_atotm accept exactly the
    non-empty strings of decimal digits whose value fits the type, and return
    that value; every other string gives NGX_ERROR. *)
Theorem decimal_readers_correct (line : list Z) :
  ngx_atoi line = decimal_spec NGX_MAX_INT_T_VALUE line
  /\ ngx_atosz line = decimal_spec NGX_MAX_SIZE_T_VALUE line
  /\ ngx_atoof line = decimal_spec NGX_MAX_OFF_T_VALUE line
  /\ ngx_atotm line = decimal_spec NGX_MAX_TIME_T_VALUE line.
Proof. repeat split; apply ato_spec; done. Qed.

(** ngx_hextoi accepts exactly the non-empty strings of hexadecimal digits
    of either case whose value fits ngx_int_t. *)
Theorem hextoi_correct (line : list Z) (Hb : bytes_ok line) :
  ngx_hextoi line
  = match line, hex_value 0 line with
    | _ :: _, Some v => if v <=? NGX_MAX_INT_T_VALUE then v else NGX_ERROR
    | _, _ => NGX_ERROR
    end.
Proof.
  unfold ngx_hextoi. destruct line as [|c line]; [done|].
  rewrite bool_decide_false by done. by rewrite hextoi_loop_spec by done.
Qed.

Lemma hextoi_correct_witness :
  ngx_hextoi str("7fFFffFFffFFffFF") = NGX_MAX_INT_T_VALUE
  /\ ngx_hextoi str("8000000000000000") = NGX_ERROR.
Proof.
  split; [rewrite (hextoi_correct str("7fFFffFFffFFffFF"))
         | rewrite (hextoi_correct str("8000000000000000"))];
    solve [reflexivity | repeat constructor; unfold is_byte; lia].
Defined.

(** ngx_atofp reads a decimal numeral with at most [point] digits after an
    optional point, and returns its value scaled by 10^point when that fits
    ngx_int_t, NGX_ERROR otherwise. *)
Theorem atofp_correct (line : list Z) (point : nat) :
  ngx_atofp line point
  = if bool_decide (line = []) || (point =? 0)%nat then NGX_ERROR
    else fixed_spec point (fixed_value 0 false line).
Proof.
  unfold ngx_atofp. destruct line as [|c line]; [done|].
  rewrite bool_decide_false by done. cbn [orb].
  destruct (Nat.eqb_spec point 0) as [->|Hp]; [done|].
  apply atofp_loop_spec; [unfold NGX_MAX_INT_T_VALUE|]; lia.
Qed.
