(* ===== verification/Base64.v ===== *)
(** * Base64 of src/core/ngx_string.c

    ngx_encode_base64, ngx_encode_base64url and their decoders, with the two
    alphabets and the two 256-entry decoding tables.  A string is the list of
    its bytes; the destination buffer is the list of the bytes written. *)

From S2P Require Import Prelude.

(** ** Tables *)

Definition basis64 : list Z :=
  str("ABCDEFGHIJKLMNOPQRSTUVWXYZabcdefghijklmnopqrstuvwxyz0123456789+/").

Definition basis64url : list Z :=
  str("ABCDEFGHIJKLMNOPQRSTUVWXYZabcdefghijklmnopqrstuvwxyz0123456789-_").

Definition decode_basis64 : list Z := [
  77; 77; 77; 77; 77; 77; 77; 77; 77; 77; 77; 77; 77; 77; 77; 77;
  77; 77; 77; 77; 77; 77; 77; 77; 77; 77; 77; 77; 77; 77; 77; 77;
  77; 77; 77; 77; 77; 77; 77; 77; 77; 77; 77; 62; 77; 77; 77; 63;
  52; 53; 54; 55; 56; 57; 58; 59; 60; 61; 77; 77; 77; 77; 77; 77;
  77;  0;  1;  2;  3;  4;  5;  6;  7;  8;  9; 10; 11; 12; 13; 14;
  15; 16; 17; 18; 19; 20; 21; 22; 23; 24; 25; 77; 77; 77; 77; 77;
  77; 26; 27; 28; 29; 30; 31; 32; 33; 34; 35; 36; 37; 38; 39; 40;
  41; 42; 43; 44; 45; 46; 47; 48; 49; 50; 51; 77; 77; 77; 77; 77;

  77; 77; 77; 77; 77; 77; 77; 77; 77; 77; 77; 77; 77; 77; 77; 77;
  77; 77; 77; 77; 77; 77; 77; 77; 77; 77; 77; 77; 77; 77; 77; 77;
  77; 77; 77; 77; 77; 77; 77; 77; 77; 77; 77; 77; 77; 77; 77; 77;
  77; 77; 77; 77; 77; 77; 77; 77; 77; 77; 77; 77; 77; 77; 77; 77;
  77; 77; 77; 77; 77; 77; 77; 77; 77; 77; 77; 77; 77; 77; 77; 77;
  77; 77; 77; 77; 77; 77; 77; 77; 77; 77; 77; 77; 77; 77; 77; 77;
  77; 77; 77; 77; 77; 77; 77; 77; 77; 77; 77; 77; 77; 77; 77; 77;
  77; 77; 77; 77; 77; 77; 77; 77; 77; 77; 77; 77; 77; 77; 77; 77
].

Definition decode_basis64url : list Z := [
  77; 77; 77; 77; 77; 77; 77; 77; 77; 77; 77; 77; 77; 77; 77; 77;
  77; 77; 77; 77; 77; 77; 77; 77; 77; 77; 77; 77; 77; 77; 77; 77;
  77; 77; 77; 77; 77; 77; 77; 77; 77; 77; 77; 77; 77; 62; 77; 77;
  52; 53; 54; 55; 56; 57; 58; 59; 60; 61; 77; 77; 77; 77; 77; 77;
  77;  0;  1;  2;  3;  4;  5;  6;  7;  8;  9; 10; 11; 12; 13; 14;
  15; 16; 17; 18; 19; 20; 21; 22; 23; 24; 25; 77; 77; 77; 77; 63;
  77; 26; 27; 28; 29; 30; 31; 32; 33; 34; 35; 36; 37; 38; 39; 40;
  41; 42; 43; 44; 45; 46; 47; 48; 49; 50; 51; 77; 77; 77; 77; 77;

  77; 77; 77; 77; 77; 77; 77; 77; 77; 77; 77; 77; 77; 77; 77; 77;
  77; 77; 77; 77; 77; 77; 77; 77; 77; 77; 77; 77; 77; 77; 77; 77;
  77; 77; 77; 77; 77; 77; 77; 77; 77; 77; 77; 77; 77; 77; 77; 77;
  77; 77; 77; 77; 77; 77; 77; 77; 77; 77; 77; 77; 77; 77; 77; 77;
  77; 77; 77; 77; 77; 77; 77; 77; 77; 77; 77; 77; 77; 77; 77; 77;
  77; 77; 77; 77; 77; 77; 77; 77; 77; 77; 77; 77; 77; 77; 77; 77;
  77; 77; 77; 77; 77; 77; 77; 77; 77; 77; 77; 77; 77; 77; 77; 77;
  77; 77; 77; 77; 77; 77; 77; 77; 77; 77; 77; 77; 77; 77; 77; 77
].

(** ** Encoding *)

(** The [while (len > 2)] loop, then the [if (len)] tail. *)
Fixpoint ngx_encode_base64_internal (basis : list Z) (padding : bool)
    (s : list Z) : list Z :=
  match s with
  | s0 :: s1 :: s2 :: s' =>
      arr 0 basis (Z.land (Z.shiftr s0 2) 0x3f)
      :: arr 0 basis (Z.lor (Z.shiftl (Z.land s0 3) 4) (Z.shiftr s1 4))
      :: arr 0 basis (Z.lor (Z.shiftl (Z.land s1 0x0f) 2) (Z.shiftr s2 6))
      :: arr 0 basis (Z.land s2 0x3f)
      :: ngx_encode_base64_internal basis padding s'
  | [s0; s1] =>
      [ arr 0 basis (Z.land (Z.shiftr s0 2) 0x3f);
        arr 0 basis (Z.lor (Z.shiftl (Z.land s0 3) 4) (Z.shiftr s1 4));
        arr 0 basis (Z.shiftl (Z.land s1 0x0f) 2) ]
      ++ (if padding then [ch("=")] else [])
  | [s0] =>
      [ arr 0 basis (Z.land (Z.shiftr s0 2) 0x3f);
        arr 0 basis (Z.shiftl (Z.land s0 3) 4) ]
      ++ (if padding then [ch("=")] else [])
      ++ (if padding then [ch("=")] else [])
  | [] => []
  end.

Definition ngx_encode_base64 (s : list Z) : list Z :=
  ngx_encode_base64_internal basis64 true s.

Definition ngx_encode_base64url (s : list Z) : list Z :=
  ngx_encode_base64_internal basis64url false s.

(** The macros ngx_base64_encoded_length and ngx_base64_decoded_length, with
    which every caller sizes the destination buffer. *)
Definition ngx_base64_encoded_length (len : Z) : Z := (len + 2) / 3 * 4.
Definition ngx_base64_decoded_length (len : Z) : Z := (len + 3) / 4 * 3.

(** ** Decoding *)

(** The validation loop: the first [len] bytes of the source, before any '='. *)
Fixpoint decode_base64_scan (basis s : list Z) : option (list Z) :=
  match s with
  | [] => Some []
  | c :: s' =>
      if c =? ch("=") then Some []
      else if arr 77 basis c =? 77 then None
      else r ← decode_base64_scan basis s'; Some (c :: r)
  end.

(** The [while (len > 3)] loop and the two [if]s that follow it. *)
Fixpoint decode_base64_loop (basis s : list Z) : list Z :=
  match s with
  | s0 :: s1 :: s2 :: s3 :: s' =>
      u8 (Z.lor (Z.shiftl (arr 77 basis s0) 2) (Z.shiftr (arr 77 basis s1) 4))
      :: u8 (Z.lor (Z.shiftl (arr 77 basis s1) 4) (Z.shiftr (arr 77 basis s2) 2))
      :: u8 (Z.lor (Z.shiftl (arr 77 basis s2) 6) (arr 77 basis s3))
      :: decode_base64_loop basis s'
  | [s0; s1; s2] =>
      [ u8 (Z.lor (Z.shiftl (arr 77 basis s0) 2) (Z.shiftr (arr 77 basis s1) 4));
        u8 (Z.lor (Z.shiftl (arr 77 basis s1) 4) (Z.shiftr (arr 77 basis s2) 2)) ]
  | [s0; s1] =>
      [ u8 (Z.lor (Z.shiftl (arr 77 basis s0) 2) (Z.shiftr (arr 77 basis s1) 4)) ]
  | _ => []
  end.

(** [None] is NGX_ERROR, [Some d] is NGX_OK with [d] in the destination. *)
Definition ngx_decode_base64_internal (basis s : list Z) : option (list Z) :=
  p ← decode_base64_scan basis s;
  if (length p mod 4 =? 1)%nat then None else Some (decode_base64_loop basis p).

Definition ngx_decode_base64 (s : list Z) : option (list Z) :=
  ngx_decode_base64_internal decode_basis64 s.

Definition ngx_decode_base64url (s : list Z) : option (list Z) :=
  ngx_decode_base64_internal decode_basis64url s.

(** ** Proofs *)

(** What the round trip needs of an alphabet and its decoding table. *)
Class Base64Basis (enc dec : list Z) : Prop := {
  basis_decode v : 0 <= v < 64 -> arr 77 dec (arr 0 enc v) = v;
  basis_not_pad v : 0 <= v < 64 -> arr 0 enc v <> ch("=");
}.

Definition basis_check (enc dec : list Z) : bool :=
  all_below 64 (fun v => (arr 77 dec (arr 0 enc v) =? v) && negb (arr 0 enc v =? ch("="))).

Lemma basis_check_ok enc dec : basis_check enc dec = true -> Base64Basis enc dec.
Proof.
  intros H. split; intros v Hv; pose proof (all_below_spec _ _ H v Hv) as Hc; cbv beta in Hc; zbool; done.
Qed.

#[export] Instance basis64_ok : Base64Basis basis64 decode_basis64.
Proof. apply basis_check_ok. vm_compute. reflexivity. Qed.

#[export] Instance basis64url_ok : Base64Basis basis64url decode_basis64url.
Proof. apply basis_check_ok. vm_compute. reflexivity. Qed.

(** Bit packing as arithmetic: the sextets are in range and recombine. *)
Ltac sextet :=
  repeat match goal with
  | |- context [Z.lor (Z.shiftl ?a ?n) ?b] =>
      rewrite (lor_shiftl_add a b n) by (bits_to_arith; zlia)
  end; bits_to_arith; zlia.

Section RoundTrip.
Context {enc dec : list Z} `{!Base64Basis enc dec}.

Lemma scan_cons v s :
  0 <= v < 64 ->
  decode_base64_scan dec (arr 0 enc v :: s)
  = r ← decode_base64_scan dec s; Some (arr 0 enc v :: r).
Proof.
  intros Hv. cbn [decode_base64_scan].
  rewrite (proj2 (Z.eqb_neq _ _) (basis_not_pad v Hv)), (basis_decode v Hv).
  destruct (Z.eqb_spec v 77); [lia|done].
Qed.

Definition encode_unpadded (s : list Z) : list Z :=
  ngx_encode_base64_internal enc false s.

Lemma scan_encode padding s :
  bytes_ok s ->
  decode_base64_scan dec (ngx_encode_base64_internal enc padding s)
  = Some (encode_unpadded s).
Proof.
  unfold encode_unpadded. induction s as [|a|a b|a b c s IH] using list_ind3; intros Hs.
  - done.
  - bytes_inv.
    cbn [ngx_encode_base64_internal app]. destruct padding; cbn [app];
    rewrite !scan_cons by sextet; done.
  - bytes_inv.
    cbn [ngx_encode_base64_internal app]. destruct padding; cbn [app];
    rewrite !scan_cons by sextet; done.
  - bytes_inv.
    cbn [ngx_encode_base64_internal]. rewrite !scan_cons by sextet.
    by rewrite IH.
Qed.

Lemma loop_encode s :
  bytes_ok s -> decode_base64_loop dec (encode_unpadded s) = s.
Proof.
  unfold encode_unpadded. induction s as [|a|a b|a b c s IH] using list_ind3; intros Hs.
  1: done. all: bytes_inv.
  all: cbn [ngx_encode_base64_internal decode_base64_loop app].
  all: rewrite ?IH by done; repeat (rewrite basis_decode by sextet).
  all: repeat f_equal; try done; unfold wrap; sextet.
Qed.

Lemma encode_unpadded_length s : (length (encode_unpadded s) mod 4 <> 1)%nat.
Proof.
  unfold encode_unpadded. induction s as [|a|a b|a b c s IH] using list_ind3; try done.
  cbn [ngx_encode_base64_internal length].
  set (n := length (ngx_encode_base64_internal enc false s)) in *.
  replace (S (S (S (S n)))) with (n + 1 * 4)%nat by lia. by rewrite Nat.Div0.mod_add.
Qed.

Lemma decode_encode padding s :
  bytes_ok s ->
  ngx_decode_base64_internal dec (ngx_encode_base64_internal enc padding s) = Some s.
Proof.
  intros Hs. unfold ngx_decode_base64_internal. rewrite scan_encode by done. cbn [mbind option_bind].
  destruct (Nat.eqb_spec (length (encode_unpadded s) mod 4) 1) as [H|_];
    [by apply encode_unpadded_length in H|].
  by rewrite loop_encode.
Qed.
End RoundTrip.

(** ** Sizes *)

Lemma encode_length enc padding s :
  Z.of_nat (length (ngx_encode_base64_internal enc padding s))
  <= ngx_base64_encoded_length (Z.of_nat (length s))
  /\ (padding = true ->
      Z.of_nat (length (ngx_encode_base64_internal enc padding s))
      = ngx_base64_encoded_length (Z.of_nat (length s))).
Proof.
  unfold ngx_base64_encoded_length.
  induction s as [|a|a b|a b c s IH] using list_ind3;
    cbn [ngx_encode_base64_internal]; destruct padding; cbn; zlia.
Qed.

Lemma scan_length dec s p :
  decode_base64_scan dec s = Some p -> (length p <= length s)%nat.
Proof.
  revert p. induction s as [|c s IH]; cbn; intros p H; [by simplify_eq|].
  destruct (c =? 61); [simplify_eq; cbn; lia|].
  destruct (arr 77 dec c =? 77); [done|].
  destruct (decode_base64_scan dec s) as [r|]; cbn in H; [|done].
  simplify_eq. cbn. specialize (IH r eq_refl). lia.
Qed.

Lemma decode_loop_length dec p :
  Z.of_nat (length (decode_base64_loop dec p)) <= ngx_base64_decoded_length (Z.of_nat (length p))
  /\ bytes_ok (decode_base64_loop dec p).
Proof.
  unfold ngx_base64_decoded_length.
  induction p as [|a|a b|a b c|a b c d p IH] using list_ind4; cbn [decode_base64_loop length];
    (split; [zlia|repeat constructor; try (apply (wrap_range 8); lia)]).
  apply IH.
Qed.

(** ** The theorems *)

(** Decoding inverts encoding, for both alphabets and for every byte string:
    the padded standard form and the unpadded URL form. *)
Theorem base64_roundtrip (s : list Z) (Hs : bytes_ok s) :
  ngx_decode_base64 (ngx_encode_base64 s) = Some s
  /\ ngx_decode_base64url (ngx_encode_base64url s) = Some s.
Proof. split; by apply decode_encode. Qed.

Lemma base64_roundtrip_witness :
  ngx_encode_base64 str("tengine") = str("dGVuZ2luZQ==")
  /\ ngx_decode_base64 (ngx_encode_base64 str("tengine")) = Some str("tengine").
Proof.
  split; [reflexivity|]. apply (base64_roundtrip str("tengine")).
  repeat constructor; unfold is_byte; lia.
Defined.

(** Buffer sizes: the encoders write at most, and the padded encoder exactly,
    ngx_base64_encoded_length bytes; a successful decode writes bytes only and at
    most ngx_base64_decoded_length of the source length. *)
Theorem base64_sizes (s d : list Z) :
  Z.of_nat (length (ngx_encode_base64 s)) = ngx_base64_encoded_length (Z.of_nat (length s))
  /\ Z.of_nat (length (ngx_encode_base64url s)) <= ngx_base64_encoded_length (Z.of_nat (length s))
  /\ (ngx_decode_base64 s = Some d \/ ngx_decode_base64url s = Some d ->
      Z.of_nat (length d) <= ngx_base64_decoded_length (Z.of_nat (length s)) /\ bytes_ok d).
Proof.
  split; [by apply encode_length|]. split; [apply encode_length|].
  assert (Hdec : forall dec, ngx_decode_base64_internal dec s = Some d ->
    Z.of_nat (length d) <= ngx_base64_decoded_length (Z.of_nat (length s)) /\ bytes_ok d).
  { intros dec H. unfold ngx_decode_base64_internal in H.
    destruct (decode_base64_scan dec s) as [p|] eqn:E; cbn in H; [|done].
    case_match; simplify_eq. apply scan_length in E.
    destruct (decode_loop_length dec p) as [Hl Hb]. split; [|done].
    unfold ngx_base64_decoded_length in *. zlia. }
  intros [H|H]; by eapply Hdec.
Qed.
