(* ===== verification/HttpRequestLine.v ===== *)
(** * The request line parser: ngx_http_parse_request_line of
    src/http/ngx_http_parse.c

    The parser is a state machine over the bytes of the client header buffer.
    Every [case] of its switch is one definition; [rl_step] is the switch,
    [rl_loop] the loop over [b->pos .. b->last], and
    [ngx_http_parse_request_line] the whole function with its two exits.  The
    buffer is the list of its bytes and a [u_char *] into it is an offset
    ([None] is NULL).  [proxy_connect] is the build option NGX_HTTP_PROXY_CONNECT;
    the Win32 branches are not built. *)

From S2P Require Import Prelude.

(** ** Constants of ngx_http_request.h *)

Definition NGX_HTTP_PARSE_INVALID_METHOD : Z := 10.
Definition NGX_HTTP_PARSE_INVALID_REQUEST : Z := 11.
Definition NGX_HTTP_PARSE_INVALID_VERSION : Z := 12.
Definition NGX_HTTP_PARSE_INVALID_09_METHOD : Z := 13.

Definition NGX_HTTP_UNKNOWN : Z := 0x00000001.
Definition NGX_HTTP_GET : Z := 0x00000002.
Definition NGX_HTTP_HEAD : Z := 0x00000004.
Definition NGX_HTTP_POST : Z := 0x00000008.
Definition NGX_HTTP_PUT : Z := 0x00000010.
Definition NGX_HTTP_DELETE : Z := 0x00000020.
Definition NGX_HTTP_MKCOL : Z := 0x00000040.
Definition NGX_HTTP_COPY : Z := 0x00000080.
Definition NGX_HTTP_MOVE : Z := 0x00000100.
Definition NGX_HTTP_OPTIONS : Z := 0x00000200.
Definition NGX_HTTP_PROPFIND : Z := 0x00000400.
Definition NGX_HTTP_PROPPATCH : Z := 0x00000800.
Definition NGX_HTTP_LOCK : Z := 0x00001000.
Definition NGX_HTTP_UNLOCK : Z := 0x00002000.
Definition NGX_HTTP_PATCH : Z := 0x00004000.
Definition NGX_HTTP_TRACE : Z := 0x00008000.
Definition NGX_HTTP_CONNECT : Z := 0x00010000.

Definition CR : Z := 13.
Definition LF : Z := 10.

(** The bitmap [usual]: bytes that need no attention inside a URI. *)
Definition usual : list Z :=
  [ 0x00000000; 0x7fff37d6; 0xffffffff; 0x7fffffff;
    0xffffffff; 0xffffffff; 0xffffffff; 0xffffffff ].

Definition is_usual (c : Z) : bool :=
  negb (Z.land (arr 0 usual (Z.shiftr c 5)) (Z.shiftl 1 (Z.land c 0x1f)) =? 0).

(** ** The request fields the parser writes *)

Abbreviation ptr := (option Z).

Record request := MkReq {
  method : Z;
  http_minor : Z;
  http_major : Z;
  http_version : Z;
  complex_uri : bool;
  quoted_uri : bool;
  plus_in_uri : bool;
  empty_path_in_uri : bool;
  request_start : ptr;
  method_end : ptr;
  schema_start : ptr;
  schema_end : ptr;
  host_start : ptr;
  host_end : ptr;
  connect_host_start : ptr;
  connect_host_end : ptr;
  connect_port_end : ptr;
  uri_start : ptr;
  uri_end : ptr;
  uri_ext : ptr;
  args_start : ptr;
  http_protocol : ptr;
  request_end : ptr;
}.

Definition set_method (v : Z) (r : request) : request :=
  let '(MkReq _ x1 x2 x3 x4 x5 x6 x7 x8 x9 x10 x11 x12 x13 x14 x15 x16 x17 x18 x19 x20 x21 x22) := r in
  MkReq v x1 x2 x3 x4 x5 x6 x7 x8 x9 x10 x11 x12 x13 x14 x15 x16 x17 x18 x19 x20 x21 x22.
Definition set_http_minor (v : Z) (r : request) : request :=
  let '(MkReq x0 _ x2 x3 x4 x5 x6 x7 x8 x9 x10 x11 x12 x13 x14 x15 x16 x17 x18 x19 x20 x21 x22) := r in
  MkReq x0 v x2 x3 x4 x5 x6 x7 x8 x9 x10 x11 x12 x13 x14 x15 x16 x17 x18 x19 x20 x21 x22.
Definition set_http_major (v : Z) (r : request) : request :=
  let '(MkReq x0 x1 _ x3 x4 x5 x6 x7 x8 x9 x10 x11 x12 x13 x14 x15 x16 x17 x18 x19 x20 x21 x22) := r in
  MkReq x0 x1 v x3 x4 x5 x6 x7 x8 x9 x10 x11 x12 x13 x14 x15 x16 x17 x18 x19 x20 x21 x22.
Definition set_http_version (v : Z) (r : request) : request :=
  let '(MkReq x0 x1 x2 _ x4 x5 x6 x7 x8 x9 x10 x11 x12 x13 x14 x15 x16 x17 x18 x19 x20 x21 x22) := r in
  MkReq x0 x1 x2 v x4 x5 x6 x7 x8 x9 x10 x11 x12 x13 x14 x15 x16 x17 x18 x19 x20 x21 x22.
Definition set_complex_uri (v : bool) (r : request) : request :=
  let '(MkReq x0 x1 x2 x3 _ x5 x6 x7 x8 x9 x10 x11 x12 x13 x14 x15 x16 x17 x18 x19 x20 x21 x22) := r in
  MkReq x0 x1 x2 x3 v x5 x6 x7 x8 x9 x10 x11 x12 x13 x14 x15 x16 x17 x18 x19 x20 x21 x22.
Definition set_quoted_uri (v : bool) (r : request) : request :=
  let '(MkReq x0 x1 x2 x3 x4 _ x6 x7 x8 x9 x10 x11 x12 x13 x14 x15 x16 x17 x18 x19 x20 x21 x22) := r in
  MkReq x0 x1 x2 x3 x4 v x6 x7 x8 x9 x10 x11 x12 x13 x14 x15 x16 x17 x18 x19 x20 x21 x22.
Definition set_plus_in_uri (v : bool) (r : request) : request :=
  let '(MkReq x0 x1 x2 x3 x4 x5 _ x7 x8 x9 x10 x11 x12 x13 x14 x15 x16 x17 x18 x19 x20 x21 x22) := r in
  MkReq x0 x1 x2 x3 x4 x5 v x7 x8 x9 x10 x11 x12 x13 x14 x15 x16 x17 x18 x19 x20 x21 x22.
Definition set_empty_path_in_uri (v : bool) (r : request) : request :=
  let '(MkReq x0 x1 x2 x3 x4 x5 x6 _ x8 x9 x10 x11 x12 x13 x14 x15 x16 x17 x18 x19 x20 x21 x22) := r in
  MkReq x0 x1 x2 x3 x4 x5 x6 v x8 x9 x10 x11 x12 x13 x14 x15 x16 x17 x18 x19 x20 x21 x22.
Definition set_request_start (v : ptr) (r : request) : request :=
  let '(MkReq x0 x1 x2 x3 x4 x5 x6 x7 _ x9 x10 x11 x12 x13 x14 x15 x16 x17 x18 x19 x20 x21 x22) := r in
  MkReq x0 x1 x2 x3 x4 x5 x6 x7 v x9 x10 x11 x12 x13 x14 x15 x16 x17 x18 x19 x20 x21 x22.
Definition set_method_end (v : ptr) (r : request) : request :=
  let '(MkReq x0 x1 x2 x3 x4 x5 x6 x7 x8 _ x10 x11 x12 x13 x14 x15 x16 x17 x18 x19 x20 x21 x22) := r in
  MkReq x0 x1 x2 x3 x4 x5 x6 x7 x8 v x10 x11 x12 x13 x14 x15 x16 x17 x18 x19 x20 x21 x22.
Definition set_schema_start (v : ptr) (r : request) : request :=
  let '(MkReq x0 x1 x2 x3 x4 x5 x6 x7 x8 x9 _ x11 x12 x13 x14 x15 x16 x17 x18 x19 x20 x21 x22) := r in
  MkReq x0 x1 x2 x3 x4 x5 x6 x7 x8 x9 v x11 x12 x13 x14 x15 x16 x17 x18 x19 x20 x21 x22.
Definition set_schema_end (v : ptr) (r : request) : request :=
  let '(MkReq x0 x1 x2 x3 x4 x5 x6 x7 x8 x9 x10 _ x12 x13 x14 x15 x16 x17 x18 x19 x20 x21 x22) := r in
  MkReq x0 x1 x2 x3 x4 x5 x6 x7 x8 x9 x10 v x12 x13 x14 x15 x16 x17 x18 x19 x20 x21 x22.
Definition set_host_start (v : ptr) (r : request) : request :=
  let '(MkReq x0 x1 x2 x3 x4 x5 x6 x7 x8 x9 x10 x11 _ x13 x14 x15 x16 x17 x18 x19 x20 x21 x22) := r in
  MkReq x0 x1 x2 x3 x4 x5 x6 x7 x8 x9 x10 x11 v x13 x14 x15 x16 x17 x18 x19 x20 x21 x22.
Definition set_host_end (v : ptr) (r : request) : request :=
  let '(MkReq x0 x1 x2 x3 x4 x5 x6 x7 x8 x9 x10 x11 x12 _ x14 x15 x16 x17 x18 x19 x20 x21 x22) := r in
  MkReq x0 x1 x2 x3 x4 x5 x6 x7 x8 x9 x10 x11 x12 v x14 x15 x16 x17 x18 x19 x20 x21 x22.
Definition set_connect_host_start (v : ptr) (r : request) : request :=
  let '(MkReq x0 x1 x2 x3 x4 x5 x6 x7 x8 x9 x10 x11 x12 x13 _ x15 x16 x17 x18 x19 x20 x21 x22) := r in
  MkReq x0 x1 x2 x3 x4 x5 x6 x7 x8 x9 x10 x11 x12 x13 v x15 x16 x17 x18 x19 x20 x21 x22.
Definition set_connect_host_end (v : ptr) (r : request) : request :=
  let '(MkReq x0 x1 x2 x3 x4 x5 x6 x7 x8 x9 x10 x11 x12 x13 x14 _ x16 x17 x18 x19 x20 x21 x22) := r in
  MkReq x0 x1 x2 x3 x4 x5 x6 x7 x8 x9 x10 x11 x12 x13 x14 v x16 x17 x18 x19 x20 x21 x22.
Definition set_connect_port_end (v : ptr) (r : request) : request :=
  let '(MkReq x0 x1 x2 x3 x4 x5 x6 x7 x8 x9 x10 x11 x12 x13 x14 x15 _ x17 x18 x19 x20 x21 x22) := r in
  MkReq x0 x1 x2 x3 x4 x5 x6 x7 x8 x9 x10 x11 x12 x13 x14 x15 v x17 x18 x19 x20 x21 x22.
Definition set_uri_start (v : ptr) (r : request) : request :=
  let '(MkReq x0 x1 x2 x3 x4 x5 x6 x7 x8 x9 x10 x11 x12 x13 x14 x15 x16 _ x18 x19 x20 x21 x22) := r in
  MkReq x0 x1 x2 x3 x4 x5 x6 x7 x8 x9 x10 x11 x12 x13 x14 x15 x16 v x18 x19 x20 x21 x22.
Definition set_uri_end (v : ptr) (r : request) : request :=
  let '(MkReq x0 x1 x2 x3 x4 x5 x6 x7 x8 x9 x10 x11 x12 x13 x14 x15 x16 x17 _ x19 x20 x21 x22) := r in
  MkReq x0 x1 x2 x3 x4 x5 x6 x7 x8 x9 x10 x11 x12 x13 x14 x15 x16 x17 v x19 x20 x21 x22.
Definition set_uri_ext (v : ptr) (r : request) : request :=
  let '(MkReq x0 x1 x2 x3 x4 x5 x6 x7 x8 x9 x10 x11 x12 x13 x14 x15 x16 x17 x18 _ x20 x21 x22) := r in
  MkReq x0 x1 x2 x3 x4 x5 x6 x7 x8 x9 x10 x11 x12 x13 x14 x15 x16 x17 x18 v x20 x21 x22.
Definition set_args_start (v : ptr) (r : request) : request :=
  let '(MkReq x0 x1 x2 x3 x4 x5 x6 x7 x8 x9 x10 x11 x12 x13 x14 x15 x16 x17 x18 x19 _ x21 x22) := r in
  MkReq x0 x1 x2 x3 x4 x5 x6 x7 x8 x9 x10 x11 x12 x13 x14 x15 x16 x17 x18 x19 v x21 x22.
Definition set_http_protocol (v : ptr) (r : request) : request :=
  let '(MkReq x0 x1 x2 x3 x4 x5 x6 x7 x8 x9 x10 x11 x12 x13 x14 x15 x16 x17 x18 x19 x20 _ x22) := r in
  MkReq x0 x1 x2 x3 x4 x5 x6 x7 x8 x9 x10 x11 x12 x13 x14 x15 x16 x17 x18 x19 x20 v x22.
Definition set_request_end (v : ptr) (r : request) : request :=
  let '(MkReq x0 x1 x2 x3 x4 x5 x6 x7 x8 x9 x10 x11 x12 x13 x14 x15 x16 x17 x18 x19 x20 x21 _) := r in
  MkReq x0 x1 x2 x3 x4 x5 x6 x7 x8 x9 x10 x11 x12 x13 x14 x15 x16 x17 x18 x19 x20 x21 v.

(** A request as ngx_http_create_request leaves it. *)
Definition new_request : request :=
  MkReq NGX_HTTP_UNKNOWN 0 0 0 false false false false
    None None None None None None None None None None None None None None None.

Inductive rl_state :=
| sw_start | sw_method
| sw_spaces_before_connect_host | sw_connect_host_start | sw_connect_host
| sw_connect_host_end | sw_connect_host_ip_literal | sw_connect_port
| sw_spaces_before_uri | sw_schema | sw_schema_slash | sw_schema_slash_slash
| sw_spaces_before_host | sw_host_start | sw_host | sw_host_end
| sw_host_ip_literal | sw_port_start | sw_port
| sw_after_slash_in_uri | sw_check_uri | sw_uri
| sw_http_09 | sw_http_H | sw_http_HT | sw_http_HTT | sw_http_HTTP
| sw_first_major_digit | sw_major_digit | sw_first_minor_digit | sw_minor_digit
| sw_spaces_after_digit | sw_almost_done.

#[global] Instance rl_state_eq_dec : EqDecision rl_state.
Proof. solve_decision. Defined.

(** What one iteration does: [break] to the next byte in a state, [goto done],
    or [return] an error code. *)
Inductive outcome :=
| Next (s : rl_state) (r : request)
| Done (r : request)
| Return (rc : Z) (r : request).

Definition invalid (r : request) : outcome := Return NGX_HTTP_PARSE_INVALID_REQUEST r.

(** [c = ch | 0x20; c >= 'a' && c <= 'z'] *)
Definition is_alpha (c : Z) : bool :=
  let l := u8 (Z.lor c 0x20) in (ch("a") <=? l) && (l <=? ch("z")).

Definition is_num (c : Z) : bool := (ch("0") <=? c) && (c <=? ch("9")).

Definition is_method_char (c : Z) : bool :=
  negb (((c <? ch("A")) || (ch("Z") <? c)) && negb (c =? ch("_")) && negb (c =? ch("-"))).

Section Parser.
Context (proxy_connect : bool) (buf : list Z).

(** The byte at an offset of the buffer. *)
Definition at_ (p : Z) : Z := if p <? 0 then 0 else arr 0 buf p.

(** [m] starts with the given bytes. *)
Fixpoint ngx_strn_cmp (m : Z) (s : list Z) : bool :=
  match s with
  | [] => true
  | c :: s' => (at_ m =? c) && ngx_strn_cmp (m + 1) s'
  end.

Definition st_start (r : request) (p c : Z) : outcome :=
  let r := set_request_start (Some p) r in
  if (c =? CR) || (c =? LF) then Next sw_start r
  else if ((c <? ch("A")) || (ch("Z") <? c)) && negb (c =? ch("_")) && negb (c =? ch("-"))
  then Return NGX_HTTP_PARSE_INVALID_METHOD r
  else Next sw_method r.

(** The [switch (p - m)] on the method name: the method and the next state. *)
Definition match_method (r : request) (m len : Z) : Z * rl_state :=
  if len =? 3 then
    if ngx_strn_cmp m str("GET") then (NGX_HTTP_GET, sw_spaces_before_uri)
    else if ngx_strn_cmp m str("PUT") then (NGX_HTTP_PUT, sw_spaces_before_uri)
    else (method r, sw_spaces_before_uri)
  else if len =? 4 then
    if at_ (m + 1) =? ch("O") then
      if ngx_strn_cmp m str("POST") then (NGX_HTTP_POST, sw_spaces_before_uri)
      else if ngx_strn_cmp m str("COPY") then (NGX_HTTP_COPY, sw_spaces_before_uri)
      else if ngx_strn_cmp m str("MOVE") then (NGX_HTTP_MOVE, sw_spaces_before_uri)
      else if ngx_strn_cmp m str("LOCK") then (NGX_HTTP_LOCK, sw_spaces_before_uri)
      else (method r, sw_spaces_before_uri)
    else
      if ngx_strn_cmp m str("HEAD") then (NGX_HTTP_HEAD, sw_spaces_before_uri)
      else (method r, sw_spaces_before_uri)
  else if len =? 5 then
    if ngx_strn_cmp m str("MKCOL") then (NGX_HTTP_MKCOL, sw_spaces_before_uri)
    else if ngx_strn_cmp m str("PATCH") then (NGX_HTTP_PATCH, sw_spaces_before_uri)
    else if ngx_strn_cmp m str("TRACE") then (NGX_HTTP_TRACE, sw_spaces_before_uri)
    else (method r, sw_spaces_before_uri)
  else if len =? 6 then
    if ngx_strn_cmp m str("DELETE") then (NGX_HTTP_DELETE, sw_spaces_before_uri)
    else if ngx_strn_cmp m str("UNLOCK") then (NGX_HTTP_UNLOCK, sw_spaces_before_uri)
    else (method r, sw_spaces_before_uri)
  else if len =? 7 then
    let me := if ngx_strn_cmp m str("OPTIONS") then NGX_HTTP_OPTIONS else method r in
    if ngx_strn_cmp m str("CONNECT") then (NGX_HTTP_CONNECT, sw_spaces_before_host)
    else (me, sw_spaces_before_uri)
  else if len =? 8 then
    if ngx_strn_cmp m str("PROPFIND") then (NGX_HTTP_PROPFIND, sw_spaces_before_uri)
    else (method r, sw_spaces_before_uri)
  else if len =? 9 then
    if ngx_strn_cmp m str("PROPPATCH") then (NGX_HTTP_PROPPATCH, sw_spaces_before_uri)
    else (method r, sw_spaces_before_uri)
  else (method r, sw_spaces_before_uri).

Definition st_method (r : request) (p c : Z) : outcome :=
  if c =? ch(" ") then
    let r := set_method_end (Some (p - 1)) r in
    let m := default 0 (request_start r) in
    let '(me, s) := match_method r m (p - m) in
    let r := set_method me r in
    let s := if proxy_connect && (method r =? NGX_HTTP_CONNECT)
             then sw_spaces_before_connect_host else s in
    Next s r
  else if ((c <? ch("A")) || (ch("Z") <? c)) && negb (c =? ch("_")) && negb (c =? ch("-"))
  then Return NGX_HTTP_PARSE_INVALID_METHOD r
  else Next sw_method r.

(** The proxy_connect states. *)
Definition st_connect_host_end (r : request) (p c : Z) : outcome :=
  let r := set_connect_host_end (Some p) r in
  if c =? ch(":") then Next sw_connect_port r else invalid r.

(** The switch falls through from one case to the next. *)
Definition st_connect_host (r : request) (p c : Z) : outcome :=
  if is_alpha c then Next sw_connect_host r
  else if is_num c || (c =? ch(".")) || (c =? ch("-")) then Next sw_connect_host r
  else st_connect_host_end r p c.

Definition st_connect_host_start (r : request) (p c : Z) : outcome :=
  let r := set_connect_host_start (Some p) r in
  if c =? ch("[") then Next sw_connect_host_ip_literal r
  else st_connect_host r p c.

Definition st_spaces_before_connect_host (r : request) (p c : Z) : outcome :=
  if c =? ch(" ") then Next sw_spaces_before_connect_host r
  else st_connect_host_start r p c.

(** The bytes of an IP literal besides letters, digits, ':' and ']':
    the unreserved and sub-delims punctuation. *)
Definition ip_literal_punct (c : Z) : bool :=
  bool_decide (c ∈ str("-._~!$&'()*+,;=")).

Definition st_ip_literal (self after : rl_state) (r : request) (c : Z) : outcome :=
  if is_num c then Next self r
  else if is_alpha c then Next self r
  else if c =? ch(":") then Next self r
  else if c =? ch("]") then Next after r
  else if ip_literal_punct c then Next self r
  else invalid r.

Definition st_connect_port (r : request) (p c : Z) : outcome :=
  if is_num c then Next sw_connect_port r
  else if c =? ch(" ") then Next sw_http_09 (set_connect_port_end (Some p) r)
  else invalid r.

Definition st_spaces_before_uri (r : request) (p c : Z) : outcome :=
  if c =? ch("/") then Next sw_after_slash_in_uri (set_uri_start (Some p) r)
  else if is_alpha c then Next sw_schema (set_schema_start (Some p) r)
  else if c =? ch(" ") then Next sw_spaces_before_uri r
  else invalid r.

Definition st_schema (r : request) (p c : Z) : outcome :=
  if is_alpha c then Next sw_schema r
  else if is_num c || (c =? ch("+")) || (c =? ch("-")) || (c =? ch(".")) then Next sw_schema r
  else if c =? ch(":") then Next sw_schema_slash (set_schema_end (Some p) r)
  else invalid r.

Definition st_schema_slash (r : request) (c : Z) : outcome :=
  if c =? ch("/") then Next sw_schema_slash_slash r else invalid r.

Definition st_schema_slash_slash (r : request) (c : Z) : outcome :=
  if c =? ch("/") then Next sw_host_start r else invalid r.

(** The [switch (ch)] that ends a host, with or without a port. *)
Definition after_authority (r : request) (p c : Z) : outcome :=
  if c =? ch("/") then Next sw_after_slash_in_uri (set_uri_start (Some p) r)
  else if c =? ch("?") then
    Next sw_uri (set_empty_path_in_uri true
                   (set_args_start (Some (p + 1)) (set_uri_start (Some p) r)))
  else if c =? ch(" ") then
    let se := schema_end r in
    Next sw_http_09 (set_uri_end (Z.add 2 <$> se) (set_uri_start (Z.add 1 <$> se) r))
  else invalid r.

Definition st_host_end (r : request) (p c : Z) : outcome :=
  if c =? ch(":") then Next sw_port_start r
  else
    let r := set_host_end (Some p) r in
    if method r =? NGX_HTTP_CONNECT then invalid r
    else after_authority r p c.

Definition st_host (r : request) (p c : Z) : outcome :=
  if is_alpha c then Next sw_host r
  else if is_num c || (c =? ch(".")) || (c =? ch("-")) then Next sw_host r
  else st_host_end r p c.

Definition st_host_start (r : request) (p c : Z) : outcome :=
  let r := set_host_start (Some p) r in
  if c =? ch("[") then Next sw_host_ip_literal r
  else st_host r p c.

Definition st_spaces_before_host (r : request) (p c : Z) : outcome :=
  if c =? ch(" ") then Next sw_spaces_before_host r
  else st_host_start r p c.

Definition st_port (r : request) (p c : Z) : outcome :=
  if is_num c then Next sw_port r
  else
    let r := set_host_end (Some p) r in
    if method r =? NGX_HTTP_CONNECT then
      if c =? ch(" ") then Next sw_http_09 r else invalid r
    else after_authority r p c.

Definition st_port_start (r : request) (p c : Z) : outcome :=
  if is_num c then Next sw_port r
  else if method r =? NGX_HTTP_CONNECT then invalid r
  else st_port r p c.

(** The cases shared by the three URI states. *)
Definition uri_space (r : request) (p : Z) : outcome := Next sw_http_09 (set_uri_end (Some p) r).
Definition uri_cr (r : request) (p : Z) : outcome :=
  Next sw_almost_done (set_http_minor 9 (set_uri_end (Some p) r)).
Definition uri_lf (r : request) (p : Z) : outcome :=
  Done (set_http_minor 9 (set_uri_end (Some p) r)).

(** check "/.", "//", "%" in URI *)
Definition st_after_slash_in_uri (r : request) (p c : Z) : outcome :=
  if is_usual c then Next sw_check_uri r
  else if c =? ch(" ") then uri_space r p
  else if c =? CR then uri_cr r p
  else if c =? LF then uri_lf r p
  else if c =? ch(".") then Next sw_uri (set_complex_uri true r)
  else if c =? ch("%") then Next sw_uri (set_quoted_uri true r)
  else if c =? ch("/") then Next sw_uri (set_complex_uri true r)
  else if c =? ch("?") then Next sw_uri (set_args_start (Some (p + 1)) r)
  else if c =? ch("#") then Next sw_uri (set_complex_uri true r)
  else if c =? ch("+") then Next sw_after_slash_in_uri (set_plus_in_uri true r)
  else if (c <? 0x20) || (c =? 0x7f) then invalid r
  else Next sw_check_uri r.

(** check "/", "%" in URI *)
Definition st_check_uri (r : request) (p c : Z) : outcome :=
  if is_usual c then Next sw_check_uri r
  else if c =? ch("/") then Next sw_after_slash_in_uri (set_uri_ext None r)
  else if c =? ch(".") then Next sw_check_uri (set_uri_ext (Some (p + 1)) r)
  else if c =? ch(" ") then uri_space r p
  else if c =? CR then uri_cr r p
  else if c =? LF then uri_lf r p
  else if c =? ch("%") then Next sw_uri (set_quoted_uri true r)
  else if c =? ch("?") then Next sw_uri (set_args_start (Some (p + 1)) r)
  else if c =? ch("#") then Next sw_uri (set_complex_uri true r)
  else if c =? ch("+") then Next sw_check_uri (set_plus_in_uri true r)
  else if (c <? 0x20) || (c =? 0x7f) then invalid r
  else Next sw_check_uri r.

(** URI *)
Definition st_uri (r : request) (p c : Z) : outcome :=
  if is_usual c then Next sw_uri r
  else if c =? ch(" ") then uri_space r p
  else if c =? CR then uri_cr r p
  else if c =? LF then uri_lf r p
  else if c =? ch("#") then Next sw_uri (set_complex_uri true r)
  else if (c <? 0x20) || (c =? 0x7f) then invalid r
  else Next sw_uri r.

(** space+ after URI *)
Definition st_http_09 (r : request) (p c : Z) : outcome :=
  if c =? ch(" ") then Next sw_http_09 r
  else if c =? CR then Next sw_almost_done (set_http_minor 9 r)
  else if c =? LF then Done (set_http_minor 9 r)
  else if c =? ch("H") then Next sw_http_H (set_http_protocol (Some p) r)
  else invalid r.

Definition st_http_H (r : request) (c : Z) : outcome :=
  if c =? ch("T") then Next sw_http_HT r else invalid r.
Definition st_http_HT (r : request) (c : Z) : outcome :=
  if c =? ch("T") then Next sw_http_HTT r else invalid r.
Definition st_http_HTT (r : request) (c : Z) : outcome :=
  if c =? ch("P") then Next sw_http_HTTP r else invalid r.

Definition st_http_HTTP (r : request) (p c : Z) : outcome :=
  if c =? ch("/") then
    let r := if method r =? NGX_HTTP_CONNECT
             then set_uri_end (Some (p + 1)) (set_uri_start (Some p) r) else r in
    Next sw_first_major_digit r
  else invalid r.

(** first digit of major HTTP version *)
Definition st_first_major_digit (r : request) (c : Z) : outcome :=
  if (c <? ch("1")) || (ch("9") <? c) then invalid r
  else
    let r := set_http_major (c - ch("0")) r in
    if 1 <? http_major r then Return NGX_HTTP_PARSE_INVALID_VERSION r
    else Next sw_major_digit r.

(** major HTTP version or dot *)
Definition st_major_digit (r : request) (c : Z) : outcome :=
  if c =? ch(".") then Next sw_first_minor_digit r
  else if (c <? ch("0")) || (ch("9") <? c) then invalid r
  else
    let r := set_http_major (http_major r * 10 + (c - ch("0"))) r in
    if 1 <? http_major r then Return NGX_HTTP_PARSE_INVALID_VERSION r
    else Next sw_major_digit r.

(** first digit of minor HTTP version *)
Definition st_first_minor_digit (r : request) (c : Z) : outcome :=
  if (c <? ch("0")) || (ch("9") <? c) then invalid r
  else Next sw_minor_digit (set_http_minor (c - ch("0")) r).

(** minor HTTP version or end of request line *)
Definition st_minor_digit (r : request) (c : Z) : outcome :=
  if c =? CR then Next sw_almost_done r
  else if c =? LF then Done r
  else if c =? ch(" ") then Next sw_spaces_after_digit r
  else if (c <? ch("0")) || (ch("9") <? c) then invalid r
  else if 99 <? http_minor r then invalid r
  else Next sw_minor_digit (set_http_minor (http_minor r * 10 + (c - ch("0"))) r).

Definition st_spaces_after_digit (r : request) (c : Z) : outcome :=
  if c =? ch(" ") then Next sw_spaces_after_digit r
  else if c =? CR then Next sw_almost_done r
  else if c =? LF then Done r
  else invalid r.

(** end of request line *)
Definition st_almost_done (r : request) (p c : Z) : outcome :=
  let r := set_request_end (Some (p - 1)) r in
  if c =? LF then Done r else invalid r.

(** The switch. *)
Definition rl_step (s : rl_state) (r : request) (p c : Z) : outcome :=
  match s with
  | sw_start => st_start r p c
  | sw_method => st_method r p c
  | sw_spaces_before_connect_host => st_spaces_before_connect_host r p c
  | sw_connect_host_start => st_connect_host_start r p c
  | sw_connect_host => st_connect_host r p c
  | sw_connect_host_end => st_connect_host_end r p c
  | sw_connect_host_ip_literal =>
      st_ip_literal sw_connect_host_ip_literal sw_connect_host_end r c
  | sw_connect_port => st_connect_port r p c
  | sw_spaces_before_uri => st_spaces_before_uri r p c
  | sw_schema => st_schema r p c
  | sw_schema_slash => st_schema_slash r c
  | sw_schema_slash_slash => st_schema_slash_slash r c
  | sw_spaces_before_host => st_spaces_before_host r p c
  | sw_host_start => st_host_start r p c
  | sw_host => st_host r p c
  | sw_host_end => st_host_end r p c
  | sw_host_ip_literal => st_ip_literal sw_host_ip_literal sw_host_end r c
  | sw_port_start => st_port_start r p c
  | sw_port => st_port r p c
  | sw_after_slash_in_uri => st_after_slash_in_uri r p c
  | sw_check_uri => st_check_uri r p c
  | sw_uri => st_uri r p c
  | sw_http_09 => st_http_09 r p c
  | sw_http_H => st_http_H r c
  | sw_http_HT => st_http_HT r c
  | sw_http_HTT => st_http_HTT r c
  | sw_http_HTTP => st_http_HTTP r p c
  | sw_first_major_digit => st_first_major_digit r c
  | sw_major_digit => st_major_digit r c
  | sw_first_minor_digit => st_first_minor_digit r c
  | sw_minor_digit => st_minor_digit r c
  | sw_spaces_after_digit => st_spaces_after_digit r c
  | sw_almost_done => st_almost_done r p c
  end.

(** The code after the label [done]: [p] is the offset of the last byte. *)
Definition rl_done (r : request) (p : Z) : Z * rl_state * request * Z :=
  let r := if bool_decide (request_end r = None) then set_request_end (Some p) r else r in
  let r := set_http_version (http_major r * 1000 + http_minor r) r in
  if (http_version r =? 9) && negb (method r =? NGX_HTTP_GET)
  then (NGX_HTTP_PARSE_INVALID_09_METHOD, sw_start, r, p + 1)
  else (NGX_OK, sw_start, r, p + 1).

(** The loop from offset [p], over the bytes up to [b->last].  The result is the
    return code, [r->state], the request and [b->pos]; an error return leaves
    [r->state] and [b->pos] as they were on entry ([s0], [p0]). *)
Fixpoint rl_loop (s0 : rl_state) (p0 : Z) (s : rl_state) (r : request) (p : Z)
    (rest : list Z) : Z * rl_state * request * Z :=
  match rest with
  | [] => (NGX_AGAIN, s, r, p)
  | c :: rest' =>
      match rl_step s r p c with
      | Next s' r' => rl_loop s0 p0 s' r' (p + 1) rest'
      | Done r' => rl_done r' p
      | Return rc r' => (rc, s0, r', p0)
      end
  end.

(** One call, with [b->pos = pos] and [b->last = last]. *)
Definition ngx_http_parse_request_line (s : rl_state) (r : request) (pos last : Z)
    : Z * rl_state * request * Z :=
  rl_loop s pos s r pos (drop (Z.to_nat pos) (take (Z.to_nat last) buf)).

End Parser.

Example parse_get :
  let buf := str("GET /a/b.html?x=1 HTTP/1.1") ++ [CR; LF] in
  let '(rc, _, r, pos) := ngx_http_parse_request_line false buf sw_start new_request 0 28 in
  (rc, pos, method r, uri_start r, uri_end r, uri_ext r, args_start r, http_version r,
   request_end r)
  = (NGX_OK, 28, NGX_HTTP_GET, Some 4, Some 17, Some 9, Some 14, 1001, Some 26).
Proof. vm_compute. reflexivity. Qed.

(** ** Automation for the switch *)

Ltac unfold_states :=
  unfold st_start, st_method, st_spaces_before_connect_host, st_connect_host_start,
    st_connect_host, st_connect_host_end, st_ip_literal, st_connect_port, st_spaces_before_uri,
    st_schema, st_schema_slash, st_schema_slash_slash, st_spaces_before_host, st_host_start, st_host,
    st_host_end, st_port_start, st_port, after_authority, st_after_slash_in_uri, st_check_uri, st_uri,
    uri_space, uri_cr, uri_lf, st_http_09, st_http_H, st_http_HT, st_http_HTT, st_http_HTTP,
    st_first_major_digit, st_major_digit, st_first_minor_digit, st_minor_digit,
    st_spaces_after_digit, st_almost_done, invalid in *.

(** ** Fragmentation: the parse does not depend on how the bytes arrive *)

(** The codes with which one iteration returns. *)
Definition is_error (rc : Z) : bool := (10 <=? rc) && (rc <=? 12).

Lemma rl_step_error pc buf s r p c rc r' :
  rl_step pc buf s r p c = Return rc r' -> is_error rc = true.
Proof.
  destruct s; cbn [rl_step]; unfold_states; cbn; repeat case_match; intros; by simplify_eq.
Qed.

Lemma rl_loop_app pc buf s0 p0 s r p l1 l2 s1 r1 p1 :
  rl_loop pc buf s0 p0 s r p l1 = (NGX_AGAIN, s1, r1, p1) ->
  rl_loop pc buf s0 p0 s r p (l1 ++ l2) = rl_loop pc buf s0 p0 s1 r1 p1 l2
  /\ p1 = p + Z.of_nat (length l1).
Proof.
  revert s r p. induction l1 as [|c l1 IH]; intros s r p H; cbn in H |- *.
  - simplify_eq. split; [done|lia].
  - destruct (rl_step pc buf s r p c) as [s' r'|r'|rc r'] eqn:E.
    + apply IH in H as [-> ->]. split; [done|lia].
    + unfold rl_done in H. by case_if_in H.
    + apply rl_step_error in E. by simplify_eq.
Qed.

(** The entry state and position only show in an error return. *)
Lemma rl_loop_entry pc buf s0 p0 s0' p0' s r p l rc s1 r1 p1 :
  rl_loop pc buf s0 p0 s r p l = (rc, s1, r1, p1) ->
  rl_loop pc buf s0' p0' s r p l
  = if is_error rc then (rc, s0', r1, p0') else (rc, s1, r1, p1).
Proof.
  revert s r p. induction l as [|c l IH]; intros s r p H; cbn in H |- *; [by simplify_eq|].
  destruct (rl_step pc buf s r p c) as [s' r'|r'|rc' r'] eqn:E; [by apply IH| |].
  - unfold rl_done in *. by case_if; simplify_eq.
  - apply rl_step_error in E. simplify_eq. by rewrite E.
Qed.

Lemma strn_cmp_agree b1 b2 m p s :
  (forall i, i < p -> at_ b1 i = at_ b2 i) -> m + Z.of_nat (length s) <= p ->
  ngx_strn_cmp b1 m s = ngx_strn_cmp b2 m s.
Proof.
  intros Hag. revert m. induction s as [|c s IH]; intros m Hm; cbn in *; [done|].
  rewrite Hag, IH by lia. done.
Qed.

(** An iteration reads the buffer only before the current byte. *)
Lemma rl_step_agree pc b1 b2 s r p c :
  (forall i, i < p -> at_ b1 i = at_ b2 i) -> rl_step pc b1 s r p c = rl_step pc b2 s r p c.
Proof.
  intros Hag. destruct s; try reflexivity. cbn [rl_step]. unfold st_method.
  destruct (c =? ch(" ")); [|done].
  set (r' := set_method_end _ r). generalize (default 0 (request_start r')) as m. intros m.
  enough (match_method b1 r' m (p - m) = match_method b2 r' m (p - m)) as -> by done.
  unfold match_method.
  repeat match goal with
  | |- (if p - m =? ?n then _ else _) = _ =>
      destruct (Z.eqb_spec (p - m) n);
      [rewrite ?(Hag (m + 1)), ?(strn_cmp_agree b1 b2 m p) by (done || (cbn; lia)); done|]
  end. done.
Qed.

Lemma rl_loop_agree pc b1 b2 s0 p0 s r p l :
  (forall i, i < p + Z.of_nat (length l) -> at_ b1 i = at_ b2 i) ->
  rl_loop pc b1 s0 p0 s r p l = rl_loop pc b2 s0 p0 s r p l.
Proof.
  revert s r p. induction l as [|c l IH]; intros s r p Hag; cbn in *; [done|].
  rewrite (rl_step_agree pc b1 b2) by (intros; apply Hag; lia).
  destruct (rl_step pc b2 s r p c); [|done|done]. apply IH. intros; apply Hag; lia.
Qed.

(** A request line that arrives in two reads is parsed as if it had arrived
    in one: when the parser asks for more bytes after [b1], resuming it on
    [b1 ++ b2] gives the return code and the request of a single call over
    [b1 ++ b2], and the same saved state and position unless the line is
    rejected. *)
Theorem request_line_fragmentation (pc : bool) (b1 b2 : list Z) (s s1 : rl_state)
    (r r1 : request) (pos p1 : Z)
    (Hpos : 0 <= pos <= Z.of_nat (length b1))
    (Hagain : ngx_http_parse_request_line pc b1 s r pos (Z.of_nat (length b1))
              = (NGX_AGAIN, s1, r1, p1)) :
  let last := Z.of_nat (length (b1 ++ b2)) in
  let '(rc, s2, r2, p2) := ngx_http_parse_request_line pc (b1 ++ b2) s r pos last in
  ngx_http_parse_request_line pc (b1 ++ b2) s1 r1 p1 last
  = if is_error rc then (rc, s1, r2, p1) else (rc, s2, r2, p2).
Proof.
  intros last. unfold ngx_http_parse_request_line in *. subst last.
  rewrite Nat2Z.id, take_ge in * by lia.
  rewrite (rl_loop_agree pc b1 (b1 ++ b2)) in Hagain.
  2:{ intros i Hi. unfold at_, arr. rewrite length_drop in Hi.
      destruct (Z.ltb_spec i 0); [done|]. rewrite app_nth1 by lia. done. }
  rewrite drop_app_le by lia.
  destruct (rl_loop pc (b1 ++ b2) s pos s r pos (drop (Z.to_nat pos) b1 ++ b2))
    as [[[rc s2] r2] p2] eqn:E.
  pose proof Hagain as Hag2. apply rl_loop_app with (l2 := b2) in Hagain as [Hl Hp1].
  rewrite length_drop in Hp1. replace p1 with (Z.of_nat (length b1)) in * by lia.
  rewrite Nat2Z.id, drop_app_length. rewrite E in Hl. symmetry in Hl.
  by eapply rl_loop_entry.
Qed.

Lemma request_line_fragmentation_witness :
  let b1 := str("GET /a") in
  let b2 := str("/b HTTP/1.0") ++ [CR; LF] in
  let '(rc, s1, r1, p1) := ngx_http_parse_request_line false b1 sw_start new_request 0 6 in
  rc = NGX_AGAIN /\ ngx_http_parse_request_line false (b1 ++ b2) s1 r1 p1 19
                   = ngx_http_parse_request_line false (b1 ++ b2) sw_start new_request 0 19.
Proof.
  split; [reflexivity|].
  exact (request_line_fragmentation false str("GET /a") (str("/b HTTP/1.0") ++ [CR; LF])
           sw_start _ new_request _ 0 _ ltac:(split; vm_compute; congruence) eq_refl).
Defined.

(** ** Well-formedness of an accepted request line *)

Section Invariant.
Context (buf : list Z) (b0 : Z).

Definition bytes_in (P : Z -> bool) (a b : Z) : Prop :=
  forall i, a <= i < b -> P (at_ buf i) = true.

(** A byte that may stand in a request URI: no control byte and no space. *)
Definition is_uri_char (c : Z) : bool := (0x20 <? c) && negb (c =? 0x7f).

(** The method token is complete and followed by a space. *)
Definition method_ok (r : request) (p : Z) : Prop :=
  exists rs me, request_start r = Some rs /\ method_end r = Some me /\
    b0 <= rs <= me /\ me + 1 < p /\ bytes_in is_method_char rs (me + 1) /\
    at_ buf (me + 1) = ch(" ").

(** Offsets inside the URI: the extension and the arguments, up to [e]. *)
Definition marks_ok (r : request) (us e : Z) : Prop :=
  (forall x, uri_ext r = Some x -> us < x <= e) /\
  (forall a, args_start r = Some a -> us < a <= e /\ at_ buf (a - 1) = ch("?")).

Definition no_uri (r : request) : Prop :=
  uri_start r = None /\ uri_end r = None /\ uri_ext r = None /\ args_start r = None.

Definition in_uri (r : request) (p : Z) : Prop :=
  exists me us, method_end r = Some me /\ uri_start r = Some us /\ me + 1 < us < p /\
    bytes_in is_uri_char us p /\ marks_ok r us p.

Definition uri_ok (r : request) (p : Z) : Prop :=
  exists me us ue, method_end r = Some me /\ uri_start r = Some us /\ uri_end r = Some ue /\
    me + 1 < us /\ us < ue <= p /\ bytes_in is_uri_char us ue /\ marks_ok r us ue.

Definition schema_at (r : request) (p k : Z) : Prop :=
  exists me se, method_end r = Some me /\ schema_end r = Some se /\ me + 1 < se /\
    se + k <= p /\ (2 <= k -> at_ buf (se + 1) = ch("/")).

(** Nothing of the version or of the end of the line has been seen. *)
Definition no_version (r : request) : Prop :=
  http_major r = 0 /\ http_minor r = 0 /\ request_end r = None.

Definition not_connect (r : request) : Prop := method r <> NGX_HTTP_CONNECT.
Definition connect_no_uri (r : request) : Prop := method r = NGX_HTTP_CONNECT /\ no_uri r.

(** A full request target, or a CONNECT request whose target is still to come. *)
Definition target (r : request) (p : Z) : Prop :=
  (not_connect r /\ uri_ok r p) \/ connect_no_uri r.

Definition version_1x (r : request) : Prop := http_major r = 1 /\ 0 <= http_minor r <= 999.
Definition version_09 (r : request) : Prop := http_major r = 0 /\ http_minor r = 9.

(** The invariant of each state, before the byte at [p] is read. *)
Definition rl_inv (s : rl_state) (r : request) (p : Z) : Prop :=
  b0 <= p /\
  match s with
  | sw_start => no_uri r /\ no_version r /\ not_connect r
  | sw_method =>
      no_uri r /\ no_version r /\ not_connect r /\
      exists rs, request_start r = Some rs /\ b0 <= rs < p /\ bytes_in is_method_char rs p
  | sw_spaces_before_uri | sw_schema =>
      no_uri r /\ no_version r /\ not_connect r /\ method_ok r p
  | sw_schema_slash => no_uri r /\ no_version r /\ not_connect r /\ method_ok r p /\
      schema_at r p 1 /\ (forall se, schema_end r = Some se -> se + 1 = p)
  | sw_schema_slash_slash => no_uri r /\ no_version r /\ not_connect r /\ method_ok r p /\
      schema_at r p 2
  | sw_spaces_before_connect_host | sw_connect_host_start | sw_connect_host
  | sw_connect_host_end | sw_connect_host_ip_literal | sw_connect_port
  | sw_spaces_before_host =>
      no_uri r /\ no_version r /\ method r = NGX_HTTP_CONNECT /\ method_ok r p
  | sw_host_start | sw_host | sw_host_end | sw_host_ip_literal | sw_port_start | sw_port =>
      no_uri r /\ no_version r /\ method_ok r p /\
      (method r = NGX_HTTP_CONNECT \/ not_connect r /\ schema_at r p 3)
  | sw_after_slash_in_uri | sw_check_uri | sw_uri =>
      no_version r /\ not_connect r /\ method_ok r p /\ uri_end r = None /\ in_uri r p
  | sw_http_09 | sw_http_H | sw_http_HT | sw_http_HTT | sw_http_HTTP =>
      no_version r /\ method_ok r p /\ target r p
  | sw_first_major_digit => no_version r /\ method_ok r p /\ uri_ok r p
  | sw_major_digit | sw_first_minor_digit =>
      http_major r = 1 /\ request_end r = None /\ method_ok r p /\ uri_ok r p
  | sw_minor_digit | sw_spaces_after_digit =>
      version_1x r /\ request_end r = None /\ method_ok r p /\ uri_ok r p
  | sw_almost_done =>
      request_end r = None /\ method_ok r p /\ at_ buf (p - 1) = CR /\
      (version_1x r /\ uri_ok r (p - 1) \/ version_09 r /\ target r (p - 1))
  end.

(** What holds when the line ends with the LF at [p]; [e] is [request_end], or
    [p] when it is not set yet. *)
Definition rl_final (r : request) (p : Z) : Prop :=
  at_ buf p = LF /\ method_ok r (p + 1) /\
  (request_end r = None \/ request_end r = Some (p - 1) /\ at_ buf (p - 1) = CR) /\
  let e := default p (request_end r) in
  (version_1x r /\ uri_ok r e \/ version_09 r /\ target r e).

Lemma bytes_in_snoc P a p :
  bytes_in P a p -> P (at_ buf p) = true -> bytes_in P a (p + 1).
Proof. intros H Hp i Hi. destruct (decide (i = p)) as [->|]; [done|]. apply H. lia. Qed.

Lemma bytes_in_one P p : P (at_ buf p) = true -> bytes_in P p (p + 1).
Proof. intros Hp i Hi. by replace i with p by lia. Qed.

Lemma usual_is_uri_char c : is_byte c -> is_usual c = true -> is_uri_char c = true.
Proof.
  intros Hc Hu.
  assert (Hall : forall c, is_byte c -> implb (is_usual c) (is_uri_char c) = true)
    by (apply all_bytes_spec; vm_compute; reflexivity).
  specialize (Hall c Hc). by rewrite Hu in Hall.
Qed.

(** The pieces of the invariant only depend on the fields they mention. *)
Lemma method_ok_frame r r' p p' :
  method_ok r p -> request_start r' = request_start r -> method_end r' = method_end r ->
  p <= p' -> method_ok r' p'.
Proof. intros (rs & me & ?) H1 H2 ?. exists rs, me. rewrite H1, H2. destruct_and!; split_and!; solve [done | lia | auto]. Qed.

Lemma uri_ok_frame r r' p p' :
  uri_ok r p -> method_end r' = method_end r -> uri_start r' = uri_start r ->
  uri_end r' = uri_end r -> uri_ext r' = uri_ext r -> args_start r' = args_start r ->
  p <= p' -> uri_ok r' p'.
Proof.
  intros (me & us & ue & ?) H1 H2 H3 H4 H5 ?. exists me, us, ue.
  unfold marks_ok in *. rewrite H1, H2, H3, H4, H5. destruct_and!; split_and!; solve [done | lia | auto].
Qed.

Lemma target_frame r r' p p' :
  target r p -> method r' = method r -> method_end r' = method_end r ->
  uri_start r' = uri_start r -> uri_end r' = uri_end r -> uri_ext r' = uri_ext r ->
  args_start r' = args_start r -> p <= p' -> target r' p'.
Proof.
  intros [[? H]|[? (?&?&?&?)]] ???????.
  - left. split; [unfold not_connect in *; congruence|]. by eapply uri_ok_frame.
  - right. unfold connect_no_uri, no_uri. repeat split; congruence.
Qed.

Lemma schema_at_frame r r' p p' k k' :
  schema_at r p k -> method_end r' = method_end r -> schema_end r' = schema_end r ->
  p <= p' - (k' - k) -> 2 <= k <= k' -> schema_at r' p' k'.
Proof. intros (me & se & ?) H1 H2 ??. exists me, se. rewrite H1, H2. destruct_and!; split_and!; solve [done | lia | auto]. Qed.

(** Reading one more URI byte, which may set a mark just after itself. *)
Lemma in_uri_next r r' p c :
  in_uri r p -> at_ buf p = c -> is_uri_char c = true ->
  method_end r' = method_end r -> uri_start r' = uri_start r ->
  (uri_ext r' = uri_ext r \/ uri_ext r' = None \/ uri_ext r' = Some (p + 1)) ->
  (args_start r' = args_start r \/ args_start r' = Some (p + 1) /\ c = ch("?")) ->
  in_uri r' (p + 1).
Proof.
  intros (me & us & Hm & Hu & Hlt & Hb & He & Ha) Hc Hcc H1 H2 H3 H4. exists me, us.
  rewrite H1, H2. do 3 (split; [done || lia|]).
  split; [apply bytes_in_snoc; [done|by rewrite Hc]|]. split.
  - intros x Hx. destruct H3 as [H3|[H3|H3]]; rewrite H3 in Hx; simplify_eq; [|lia].
    specialize (He x Hx). lia.
  - intros a Hx. destruct H4 as [H4|[H4 ->]]; rewrite H4 in Hx; simplify_eq.
    + destruct (Ha a Hx). split; [lia|done].
    + split; [lia|]. by replace (p + 1 - 1) with p by lia.
Qed.

(** Leaving the URI at [p]. *)
Lemma in_uri_end r r' p p' :
  p <= p' -> in_uri r p -> method_end r' = method_end r -> uri_start r' = uri_start r ->
  uri_end r' = Some p -> uri_ext r' = uri_ext r -> args_start r' = args_start r ->
  uri_ok r' p'.
Proof.
  intros Hp (me & us & Hm & Hu & Hlt & Hb & Hk) H1 H2 H3 H4 H5. exists me, us, p.
  unfold marks_ok in *. rewrite H1, H2, H3, H4, H5. destruct_and!; split_and!; solve [done | lia | auto].
Qed.

(** Entering the URI at its first byte. *)
Lemma in_uri_start r r' p c :
  method_ok r p -> no_uri r -> at_ buf p = c -> is_uri_char c = true ->
  method_end r' = method_end r -> uri_start r' = Some p -> uri_ext r' = uri_ext r ->
  (args_start r' = args_start r \/ args_start r' = Some (p + 1) /\ c = ch("?")) ->
  in_uri r' (p + 1).
Proof.
  intros (rs & me & Hrs & Hm & Hle & Hlt & Hmb) (Hus & Hue & He & Ha) Hc Hcc H1 H2 H3 H4. exists me, p.
  rewrite H1, H2. do 3 (split; [done || lia|]).
  split; [apply bytes_in_one; by rewrite Hc|]. split.
  - intros x Hx. congruence.
  - intros a Hx. destruct H4 as [H4|[H4 ->]]; rewrite H4 in Hx; simplify_eq.
    split; [lia|]. by replace (p + 1 - 1) with p by lia.
Qed.

(** Setting fields and reading them back. *)
Ltac req_simpl :=
  repeat match goal with
  | r : request |- _ => destruct r
  end; cbn in *.

Ltac frame_ok :=
  lazymatch goal with
  | H : method_ok ?r _ |- method_ok _ _ => eapply (method_ok_frame r); [exact H|done|done|lia]
  | H : uri_ok ?r _ |- uri_ok _ _ => eapply (uri_ok_frame r); [exact H|done|done|done|done|done|lia]
  | H : target ?r _ |- target _ _ => eapply (target_frame r); [exact H|done|done|done|done|done|done|lia]
  | H : schema_at ?r _ _ |- schema_at _ _ _ => eapply (schema_at_frame r); [exact H|done|done|lia|lia]
  | H : in_uri ?r _ |- uri_ok _ _ => eapply (in_uri_end r); [|exact H|done|done|done|done|done]; lia
  end.

(** What one iteration must establish. *)
Definition rl_good (p : Z) (o : outcome) : Prop :=
  match o with
  | Next s' r' => rl_inv s' r' (p + 1)
  | Done r' => rl_final r' p
  | Return _ _ => True
  end.

Lemma match_method_spec r m len :
  not_connect r ->
  (match_method buf r m len).2 = sw_spaces_before_host
    /\ (match_method buf r m len).1 = NGX_HTTP_CONNECT
  \/ (match_method buf r m len).2 = sw_spaces_before_uri
    /\ (match_method buf r m len).1 <> NGX_HTTP_CONNECT.
Proof. intros Hn. unfold match_method. repeat case_if; cbn; auto; right; split; done. Qed.

Lemma st_method_good pc r p c :
  rl_inv sw_method r p -> at_ buf p = c -> rl_good p (st_method pc buf r p c).
Proof.
  intros (Hp & Hu & Hv & Hn & rs & Hrs & Hlt & Hm) Hc. unfold st_method.
  destruct (c =? 32) eqn:E.
  - apply Z.eqb_eq in E. subst c.
    assert (Hmok : method_ok (set_method_end (Some (p - 1)) r) (p + 1)).
    { exists rs, (p - 1). req_simpl. replace (p - 1 + 1) with p by lia. split_and!; done || lia. }
    assert (Hn' : not_connect (set_method_end (Some (p - 1)) r)) by (by req_simpl).
    destruct (match_method_spec _ (default 0 (request_start (set_method_end (Some (p - 1)) r)))
                (p - default 0 (request_start (set_method_end (Some (p - 1)) r))) Hn')
      as [[Hs Hme]|[Hs Hme]].
    all: destruct (match_method _ _ _ _) as [me s]; cbn in Hs, Hme; subst s; cbn.
    all: req_simpl.
    + subst me. rewrite Z.eqb_refl, andb_true_r.
      destruct pc; cbn; split_and!; done || lia || frame_ok.
    + rewrite (proj2 (Z.eqb_neq me _) Hme), andb_false_r.
      cbn; split_and!; done || lia || frame_ok.
  - case_if; [done|]. cbn. split_and!; try done; [lia|]. exists rs.
    split_and!; [done|lia|lia|]. apply bytes_in_snoc; [done|].
    rewrite Hc. unfold is_method_char. by rewrite E0.
Qed.

(** The single "/" of "http://host HTTP/1.x" stands for the URI. *)
Lemma schema_uri_ok r r' p :
  schema_at r p 3 -> no_uri r -> method_end r' = method_end r ->
  uri_start r' = (Z.add 1 <$> schema_end r) -> uri_end r' = (Z.add 2 <$> schema_end r) ->
  uri_ext r' = uri_ext r -> args_start r' = args_start r -> uri_ok r' (p + 1).
Proof.
  intros (me & se & Hm & Hse & Hlt & Hle & Hc) (Hus & Hue & He & Ha) H1 H2 H3 H4 H5.
  exists me, (1 + se), (2 + se). rewrite H1, H2, H3, Hse. cbn. split_and!; try done; try lia.
  - intros i Hi. replace i with (se + 1) by lia. rewrite Hc by lia. done.
  - split; intros; congruence.
Qed.

(** The "/" of "HTTP/" stands for the URI of a CONNECT request. *)
Lemma connect_uri_ok r r' p :
  method_ok r p -> target r p -> method r = NGX_HTTP_CONNECT -> at_ buf p = ch("/") ->
  method_end r' = method_end r -> uri_start r' = Some p -> uri_end r' = Some (p + 1) ->
  uri_ext r' = uri_ext r -> args_start r' = args_start r -> uri_ok r' (p + 1).
Proof.
  intros (rs & me & Hrs & Hm & Hle & Hlt & Hmb) [[Hn _]|[_ (Hus & Hue & He & Ha)]] Hmet Hc H1 H2 H3 H4 H5;
    [done|].
  exists me, p, (p + 1). rewrite H1, H2, H3. split_and!; try done; try lia.
  - apply bytes_in_one. by rewrite Hc.
  - split; intros; congruence.
Qed.

Lemma not_control_uri_char c :
  (c =? 32) = false -> (c <? 32) || (c =? 127) = false -> is_uri_char c = true.
Proof.
  intros H1 H2. unfold is_uri_char. zbool.
  destruct (Z.ltb_spec 32 c), (Z.eqb_spec c 127); done || lia.
Qed.

Ltac uri_char :=
  first [ by apply usual_is_uri_char
        | by apply not_control_uri_char
        | by match goal with
          | E : (?c =? _) = true |- is_uri_char ?c = true => apply Z.eqb_eq in E; rewrite E
          end ].

Ltac rl_leaf :=
  lazymatch goal with
  | |- not_connect _ => unfold not_connect in *; cbn in *; zbool; congruence
  | |- _ = None => unfold no_uri, no_version in *; cbn in *; destruct_and?; done
  | H : _ \/ not_connect _ /\ _ |- _ \/ not_connect _ /\ _ =>
      destruct H as [?|[? ?]]; [by left|right; split; [done|frame_ok]]
  | |- _ \/ not_connect _ /\ _ => by left
  | |- in_uri _ _ =>
      first [ match goal with H : in_uri ?r _ |- _ => eapply (in_uri_next r) end;
              [eassumption|eassumption|uri_char|done|done|by auto
              |first [by left | right; split; [done|by apply Z.eqb_eq]]]
            | match goal with H : method_ok ?r _ |- _ => eapply (in_uri_start r) end;
              [eassumption|eassumption|eassumption|uri_char|done|done|done
              |first [by left | right; split; [done|by apply Z.eqb_eq]]] ]
  end.

(** The facts about the end of the line. *)
Ltac rl_end :=
  unfold no_version, version_1x, version_09 in *; cbn in *; destruct_and?; subst; cbn;
  lazymatch goal with
  | |- at_ _ _ = CR => zbool; congruence
  | |- at_ _ _ = LF => zbool; congruence
  | |- target _ _ => left; split; [done|frame_ok]
  | |- None = None \/ _ => by left
  | |- _ \/ Some _ = Some _ /\ _ => by right
  | |- (_ /\ uri_ok _ _) \/ _ =>
      first [ left; split; [zbool; lia|frame_ok]
            | right; split; [done|]; first [frame_ok | left; split; [done|frame_ok]] ]
  end.

Ltac rl_group :=
  unfold_states; repeat case_if; try exact I; cbn [rl_good rl_inv];
  destruct_and?; try (split; [lia|]); req_simpl; split_and?; try done; 
  rewrite ?Z.add_simpl_r; try frame_ok; try rl_leaf; try rl_end.

Lemma st_connect_good pc s r p c :
  s ∈ [sw_start; sw_spaces_before_connect_host; sw_connect_host_start; sw_connect_host;
       sw_connect_host_end; sw_connect_host_ip_literal; sw_connect_port] ->
  rl_inv s r p -> at_ buf p = c -> is_byte c -> rl_good p (rl_step pc buf s r p c).
Proof.
  intros Hs [Hp Hinv] Hc Hb. rewrite !elem_of_cons, elem_of_nil in Hs.
  destruct_or?; try done; subst s; cbn [rl_step rl_inv] in *; rl_group.
  - eexists. split_and!; [done|lia|lia|]. apply bytes_in_one. rewrite Hc.
    unfold is_method_char. by rewrite E0.
  - right. split; done.
Qed.

Lemma st_schema_good pc s r p c :
  s ∈ [sw_spaces_before_uri; sw_schema; sw_schema_slash; sw_schema_slash_slash] ->
  rl_inv s r p -> at_ buf p = c -> is_byte c -> rl_good p (rl_step pc buf s r p c).
Proof.
  intros Hs [Hp Hinv] Hc Hb. rewrite !elem_of_cons, elem_of_nil in Hs.
  destruct_or?; try done; subst s; cbn [rl_step rl_inv] in *; rl_group.
  - select (method_ok _ _) (fun H => destruct H as (rs & me & ? & ? & ? & ? & ?)).
    exists me, p. cbn in *. split_and!; done || lia.
  - intros se [= ->]. done.
  - select (schema_at _ _ _) (fun H => destruct H as (me & se & ? & ? & ? & ? & ?)).
    cbn in *. exists me, se. cbn. split_and!; try done; try lia. intros _. zbool.
    match goal with H : context [_ + 1 = p] |- _ => rewrite (H se) by done end. congruence.
  - right. split; [done|].
    select (schema_at _ _ _) (fun H => destruct H as (me & se & ? & ? & ? & ? & ?)).
    exists me, se. cbn in *. split_and!; done || lia || auto with lia.
Qed.

Lemma st_host_good pc s r p c :
  s ∈ [sw_spaces_before_host; sw_host_start; sw_host; sw_host_end; sw_host_ip_literal;
       sw_port_start; sw_port] ->
  rl_inv s r p -> at_ buf p = c -> is_byte c -> rl_good p (rl_step pc buf s r p c).
Proof.
  intros Hs [Hp Hinv] Hc Hb. rewrite !elem_of_cons, elem_of_nil in Hs.
  destruct_or?; try done; subst s; cbn [rl_step rl_inv] in *; rl_group.
  all: unfold not_connect in *; cbn in *; zbool; try congruence.
  all: try (right; split; done).
  all: left; split; [by unfold not_connect; cbn|].
  all: match goal with H : _ \/ _ /\ schema_at ?r _ _ |- _ =>
         destruct H as [?|[? ?]]; [congruence|by eapply (schema_uri_ok r)] end.
Qed.

Lemma st_uri_good pc s r p c :
  s ∈ [sw_after_slash_in_uri; sw_check_uri; sw_uri] ->
  rl_inv s r p -> at_ buf p = c -> is_byte c -> rl_good p (rl_step pc buf s r p c).
Proof.
  intros Hs [Hp Hinv] Hc Hb. rewrite !elem_of_cons, elem_of_nil in Hs.
  destruct_or?; try done; subst s; cbn [rl_step rl_inv] in *; rl_group.
Qed.

Lemma st_version_good pc s r p c :
  s ∈ [sw_http_09; sw_http_H; sw_http_HT; sw_http_HTT; sw_http_HTTP; sw_first_major_digit;
       sw_major_digit; sw_first_minor_digit; sw_minor_digit; sw_spaces_after_digit;
       sw_almost_done] ->
  rl_inv s r p -> at_ buf p = c -> is_byte c -> rl_good p (rl_step pc buf s r p c).
Proof.
  intros Hs [Hp Hinv] Hc Hb. rewrite !elem_of_cons, elem_of_nil in Hs.
  destruct_or?; try done; subst s; cbn [rl_step rl_inv] in *; rl_group.
  - eapply connect_uri_ok; try done; cbn in *; zbool; congruence.
  - select (target _ _) (fun H => destruct H as [[? ?]|[? ?]]); [frame_ok|].
    cbn in *. zbool. congruence.
  - zbool. lia.
  - zbool. lia.
  - unfold version_1x. cbn. zbool. lia.
  - unfold version_1x in *. cbn in *. zbool. lia.
Qed.

Lemma rl_step_inv pc s r p c :
  rl_inv s r p -> at_ buf p = c -> is_byte c -> rl_good p (rl_step pc buf s r p c).
Proof.
  intros Hinv Hc Hb. destruct (decide (s = sw_method)) as [->|Hne]; [by apply st_method_good|].
  destruct s; try done;
    first [ apply st_connect_good; solve [set_solver | done]
          | apply st_schema_good; solve [set_solver | done]
          | apply st_host_good; solve [set_solver | done]
          | apply st_uri_good; solve [set_solver | done]
          | apply st_version_good; solve [set_solver | done] ].
Qed.

End Invariant.

(** The loop keeps the invariant up to the byte at which it stops. *)
Lemma rl_loop_done pc buf b0 s0 p0 s r p rest s' r' p' :
  rl_inv buf b0 s r p -> 0 <= p -> bytes_ok buf ->
  drop (Z.to_nat p) buf = rest ++ drop (Z.to_nat p + length rest) buf ->
  rl_loop pc buf s0 p0 s r p rest = (NGX_OK, s', r', p') ->
  exists q rq, p <= q < p + Z.of_nat (length rest) /\ rl_final buf b0 rq q
    /\ rl_done rq q = (NGX_OK, s', r', p').
Proof.
  intros Hinv Hp Hb. revert s r p Hp Hinv.
  induction rest as [|c rest IH]; intros s r p Hp Hinv Hrest H; cbn in H; [done|].
  assert (Hl : buf !! Z.to_nat p = Some c).
  { rewrite <- (Nat.add_0_r (Z.to_nat p)), <- lookup_drop, Hrest. done. }
  assert (Hc : at_ buf p = c).
  { unfold at_, arr. destruct (Z.ltb_spec p 0); [lia|]. by apply nth_lookup_Some with (d := 0) in Hl. }
  assert (Hbc : is_byte c) by (by eapply Forall_lookup_1).
  pose proof (rl_step_inv buf b0 pc s r p c Hinv Hc Hbc) as Hg.
  destruct (rl_step pc buf s r p c) as [s1 r1|r1|rc r1] eqn:E; cbn in Hg.
  - apply IH in H as (q & rq & Hq & Hfin & Hd); [|lia|done|].
    + exists q, rq. cbn [length]. split; [lia|done].
    + replace (Z.to_nat (p + 1)) with (Z.to_nat p + 1)%nat by lia.
      rewrite <- drop_drop, Hrest. cbn. f_equal. rewrite <- Nat.add_assoc. done.
  - exists p, r1. cbn [length]. split; [lia|done].
  - apply rl_step_error in E. by simplify_eq.
Qed.

(** A request line the server may act on: a method token, a space, a URI free of
    control bytes and spaces, and the end of the line, in this order inside the
    bytes read; the marks the later phases use point into the URI. *)
Definition well_formed_request_line (buf : list Z) (pos p' : Z) (r : request) : Prop :=
  exists rs me us ue re,
    request_start r = Some rs /\ method_end r = Some me /\ uri_start r = Some us /\
    uri_end r = Some ue /\ request_end r = Some re /\
    pos <= rs <= me /\ me + 1 < us /\ us < ue /\ ue <= re < p' /\
    at_ buf (p' - 1) = LF /\ (re = p' - 1 \/ re = p' - 2 /\ at_ buf re = CR) /\
    bytes_in buf is_method_char rs (me + 1) /\ at_ buf (me + 1) = ch(" ") /\
    bytes_in buf is_uri_char us ue /\
    (forall x, uri_ext r = Some x -> us < x <= ue) /\
    (forall a, args_start r = Some a -> us < a <= ue /\ at_ buf (a - 1) = ch("?")) /\
    (http_version r = 9 /\ method r = NGX_HTTP_GET \/ 1000 <= http_version r <= 1999).

Lemma rl_final_well_formed buf b0 r q s' r' p' :
  rl_final buf b0 r q -> rl_done r q = (NGX_OK, s', r', p') ->
  p' = q + 1 /\ well_formed_request_line buf b0 p' r'.
Proof.
  intros (Hlf & (rs & me & Hrs & Hme & Hle & Hlt & Hmb & Hsp) & Hre & Hv) Hd.
  unfold rl_done in Hd. case_if_in Hd; [done|].
  injection Hd as _ <- <-. split; [done|].
  assert (Huri : uri_ok buf r (default q (request_end r))
    /\ (version_1x r \/ version_09 r /\ method r = NGX_HTTP_GET)).
  { destruct Hv as [[? ?]|[[Hmaj Hmin] Ht]]; [by auto|].
    assert (Hget : method r = NGX_HTTP_GET).
    { revert E. destruct r; cbn in *. subst. case_bool_decide; cbn; intros E;
      apply negb_false_iff in E; by apply Z.eqb_eq in E. }
    split; [|by right]. destruct Ht as [[_ ?]|[Hc _]]; [done|]. by rewrite Hget in Hc. }
  destruct Huri as [(me' & us & ue & Hme' & Hus & Hue & Hlt' & Hle' & Hub & He & Ha) Hver].
  exists rs, me, us, ue, (default q (request_end r)).
  replace (q + 1 - 1) with q by lia. replace (q + 1 - 2) with (q - 1) by lia.
  destruct r; cbn in *. simplify_eq.
  assert (Hvr : (http_major0 * 1000 + http_minor0 = 9 /\ method0 = NGX_HTTP_GET)
    \/ 1000 <= http_major0 * 1000 + http_minor0 <= 1999).
  { unfold version_1x, version_09 in Hver. cbn in Hver. lia. }
  destruct Hre as [->|[-> ?]]; cbn in *; split_and!; auto; lia.
Qed.

Lemma new_request_inv buf pos : rl_inv buf pos sw_start new_request pos.
Proof. split; [lia|]. by unfold no_uri, no_version, not_connect. Qed.

(** C3. Every request line the parser accepts is well formed: the offsets it
    stores are ordered and inside the bytes it consumed, the method is a token,
    the URI has no control byte and no space, and only GET may omit the version
    (HTTP/0.9) while any other version is 1.x. *)
Theorem request_line_accepted (pc : bool) (buf : list Z) (pos last p' : Z)
    (s' : rl_state) (r' : request)
    (Hbytes : bytes_ok buf) (Hpos : 0 <= pos <= last) (Hlast : last <= Z.of_nat (length buf))
    (Hok : ngx_http_parse_request_line pc buf sw_start new_request pos last
           = (NGX_OK, s', r', p')) :
  pos < p' <= last /\ s' = sw_start /\ well_formed_request_line buf pos p' r'.
Proof.
  unfold ngx_http_parse_request_line in Hok.
  set (rest := drop (Z.to_nat pos) (take (Z.to_nat last) buf)) in *.
  assert (Hlen : length rest = (Z.to_nat last - Z.to_nat pos)%nat).
  { unfold rest. rewrite length_drop, length_take. lia. }
  apply rl_loop_done with (b0 := pos) in Hok as (q & rq & Hq & Hfin & Hd);
    [|apply new_request_inv|lia|done|].
  - destruct (rl_final_well_formed _ _ _ _ _ _ _ Hfin Hd) as [-> Hwf].
    split; [lia|]. split; [|done]. unfold rl_done in Hd. case_if_in Hd; by simplify_eq.
  - rewrite Hlen. unfold rest.
    replace (Z.to_nat pos + (Z.to_nat last - Z.to_nat pos))%nat with (Z.to_nat last) by lia.
    rewrite <- (take_drop (Z.to_nat last) buf) at 1.
    rewrite drop_app_le by (rewrite length_take; lia). done.
Qed.

Lemma request_line_accepted_witness :
  let buf := str("GET http://h:80/p?q HTTP/1.1") ++ [CR; LF] in
  let '(rc, _, r, p') := ngx_http_parse_request_line false buf sw_start new_request 0 30 in
  rc = NGX_OK /\ well_formed_request_line buf 0 p' r.
Proof.
  split; [reflexivity|].
  apply (request_line_accepted false (str("GET http://h:80/p?q HTTP/1.1") ++ [CR; LF])
           0 30 30 sw_start); [|lia|cbn; lia|reflexivity].
  repeat constructor; unfold is_byte, CR, LF; lia.
Defined.

(** ** Completeness: origin-form request lines are accepted *)

(** The methods the server knows. *)
Definition method_table : list (list Z * Z) :=
  [ (str("GET"), NGX_HTTP_GET); (str("PUT"), NGX_HTTP_PUT); (str("POST"), NGX_HTTP_POST);
    (str("COPY"), NGX_HTTP_COPY); (str("MOVE"), NGX_HTTP_MOVE); (str("LOCK"), NGX_HTTP_LOCK);
    (str("HEAD"), NGX_HTTP_HEAD); (str("MKCOL"), NGX_HTTP_MKCOL); (str("PATCH"), NGX_HTTP_PATCH);
    (str("TRACE"), NGX_HTTP_TRACE); (str("DELETE"), NGX_HTTP_DELETE);
    (str("UNLOCK"), NGX_HTTP_UNLOCK); (str("OPTIONS"), NGX_HTTP_OPTIONS);
    (str("CONNECT"), NGX_HTTP_CONNECT); (str("PROPFIND"), NGX_HTTP_PROPFIND);
    (str("PROPPATCH"), NGX_HTTP_PROPPATCH) ].

Fixpoint method_lookup (t : list Z) (l : list (list Z * Z)) : Z :=
  match l with
  | [] => NGX_HTTP_UNKNOWN
  | (name, m) :: l' => if bool_decide (t = name) then m else method_lookup t l'
  end.

Definition method_of (t : list Z) : Z := method_lookup t method_table.

Lemma at_app_r pre l i : 0 <= i -> at_ (pre ++ l) (Z.of_nat (length pre) + i) = at_ l i.
Proof.
  intros Hi. unfold at_, arr. destruct (Z.ltb_spec (Z.of_nat (length pre) + i) 0), (Z.ltb_spec i 0); try lia.
  rewrite app_nth2 by lia. f_equal. lia.
Qed.

Lemma strn_cmp_token pre t rest s :
  length s = length t ->
  ngx_strn_cmp (pre ++ t ++ rest) (Z.of_nat (length pre)) s = bool_decide (t = s).
Proof.
  revert pre s. induction t as [|c t IH]; intros pre [|d s] Hl; cbn in Hl; try lia; cbn [ngx_strn_cmp].
  - done.
  - replace (Z.of_nat (length pre) + 1) with (Z.of_nat (length (pre ++ [c])))
      by (rewrite length_app; cbn; lia).
    replace (pre ++ (c :: t) ++ rest) with ((pre ++ [c]) ++ t ++ rest) by (by rewrite <- app_assoc).
    rewrite IH by lia. rewrite <- app_assoc.
    rewrite <- (Z.add_0_r (Z.of_nat (length pre))), at_app_r by lia.
    change (at_ ([c] ++ t ++ rest) 0) with c.
    destruct (Z.eqb_spec c d) as [->|]; cbn; repeat case_bool_decide; congruence.
Qed.

Lemma match_method_token pre t rest r :
  method r = NGX_HTTP_UNKNOWN ->
  (match_method (pre ++ t ++ rest) r (Z.of_nat (length pre)) (Z.of_nat (length t))).1 = method_of t.
Proof.
  intros Hr. unfold match_method, method_of, method_table. rewrite Hr.
  assert (HO : (length t = 4)%nat -> at_ (pre ++ t ++ rest) (Z.of_nat (length pre) + 1)
    = default 0 (t !! 1%nat)).
  { intros. rewrite at_app_r by lia. by destruct t as [|? [|? ?]]. }
  repeat match goal with
  | |- context [Z.of_nat (length t) =? ?n] =>
      destruct (Z.eqb_spec (Z.of_nat (length t)) n) as [Hn|];
      [ rewrite ?HO by lia; rewrite ?strn_cmp_token by (cbn; lia); clear HO | ]
  end.
  all: cbn [method_lookup].
  all: repeat (case_bool_decide; subst; try (cbn in *; lia); try reflexivity).
  all: cbn in *; try lia; repeat case_if; try reflexivity.
Qed.

Lemma rl_loop_method pc buf s0 p0 r p t rest :
  forallb is_method_char t = true ->
  rl_loop pc buf s0 p0 sw_method r p (t ++ rest)
  = rl_loop pc buf s0 p0 sw_method r (p + Z.of_nat (length t)) rest.
Proof.
  revert p. induction t as [|c t IH]; intros p Ht; cbn in Ht |- *; [f_equal; lia|].
  apply andb_prop in Ht as [Hc Ht]. unfold st_method.
  assert (Hsp : c =? ch(" ") = false).
  { unfold is_method_char in Hc. destruct (Z.eqb_spec c 32) as [->|]; done. }
  unfold is_method_char in Hc. apply negb_true_iff in Hc. rewrite Hsp, Hc, IH by done.
  f_equal. lia.
Qed.

(** What the URI states leave alone. *)
Definition rl_core (r : request) :=
  (method r, http_major r, http_minor r, request_start r, method_end r, uri_start r, uri_end r,
   request_end r).

Definition uri_state (s : rl_state) : bool :=
  match s with sw_after_slash_in_uri | sw_check_uri | sw_uri => true | _ => false end.

Lemma uri_step pc buf s r p c :
  uri_state s = true -> is_uri_char c = true ->
  exists s' r', rl_step pc buf s r p c = Next s' r' /\ uri_state s' = true /\ rl_core r' = rl_core r.
Proof.
  intros Hs Hc. unfold is_uri_char in Hc.
  assert (c <> 32 /\ c <> CR /\ c <> LF) as (H1 & H2 & H3) by (unfold CR, LF; zbool; lia).
  apply Z.eqb_neq in H1, H2, H3.
  assert (H4 : (c <? 32) || (c =? 127) = false).
  { zbool. apply orb_false_intro; [apply Z.ltb_ge; lia|by apply Z.eqb_neq]. }
  destruct s; try done; cbn [rl_step]; unfold_states; rewrite H1, H2, H3, H4;
    repeat case_if; do 2 eexists; (split; [reflexivity|]); destruct r; done.
Qed.

Lemma rl_loop_uri pc buf s0 p0 s r p u rest :
  uri_state s = true -> forallb is_uri_char u = true ->
  exists s' r', uri_state s' = true /\ rl_core r' = rl_core r /\
    rl_loop pc buf s0 p0 s r p (u ++ rest)
    = rl_loop pc buf s0 p0 s' r' (p + Z.of_nat (length u)) rest.
Proof.
  revert s r p. induction u as [|c u IH]; intros s r p Hs Hu; cbn in Hu |- *.
  - exists s, r. rewrite Z.add_0_r. done.
  - apply andb_prop in Hu as [Hc Hu].
    destruct (uri_step pc buf s r p c Hs Hc) as (s1 & r1 & -> & Hs1 & Hr1).
    destruct (IH s1 r1 (p + 1) Hs1 Hu) as (s' & r' & Hs' & Hr' & ->).
    exists s', r'. split_and!; [done|congruence|f_equal; lia].
Qed.

Lemma uri_state_space pc buf s r p :
  uri_state s = true -> rl_step pc buf s r p ch(" ") = uri_space r p.
Proof. by destruct s. Qed.

(** " HTTP/1.d" CR LF ends the line. *)
Lemma rl_loop_tail pc buf s0 p0 s r p d rest :
  uri_state s = true -> is_num d = true -> method r <> NGX_HTTP_CONNECT ->
  request_end r = None ->
  rl_loop pc buf s0 p0 s r p (str(" HTTP/1.") ++ [d; CR; LF] ++ rest)
  = rl_done (set_request_end (Some (p + 9)) (set_http_minor (d - ch("0"))
      (set_http_major 1 (set_http_protocol (Some (p + 1)) (set_uri_end (Some p) r))))) (p + 10).
Proof.
  intros Hs Hd Hm Hre. unfold is_num in Hd.
  assert (Hn : (d <? 48) || (57 <? d) = false).
  { zbool. apply orb_false_intro; apply Z.ltb_ge; lia. }
  apply Z.eqb_neq in Hm. cbn [app rl_loop]. rewrite uri_state_space by done.
  destruct r; cbn in Hm, Hre. cbn -[Z.add Z.sub]. rewrite Hm.
  cbn -[Z.add Z.sub]. change (1 <? 49 - 48) with false.
  cbn -[Z.add Z.sub]. unfold st_first_minor_digit. rewrite Hn. cbn -[Z.add Z.sub rl_done].
  f_equal; [|lia]. f_equal. f_equal. lia.
Qed.

Lemma method_of_connect t : method_of t = NGX_HTTP_CONNECT -> t = str("CONNECT").
Proof. unfold method_of, method_table. cbn. repeat (case_bool_decide; [done|]). done. Qed.

(** The space after the method token. *)
Lemma st_method_space pc pre t rest r :
  t <> str("CONNECT") -> method r = NGX_HTTP_UNKNOWN ->
  request_start r = Some (Z.of_nat (length pre)) ->
  let p := Z.of_nat (length pre) + Z.of_nat (length t) in
  rl_step pc (pre ++ t ++ rest) sw_method r p ch(" ")
  = Next sw_spaces_before_uri (set_method (method_of t) (set_method_end (Some (p - 1)) r)).
Proof.
  intros Ht Hm Hrs p. cbn [rl_step]. unfold st_method. rewrite Z.eqb_refl. cbv zeta.
  set (r' := set_method_end (Some (p - 1)) r).
  assert (Hr' : method r' = NGX_HTTP_UNKNOWN /\ request_start r' = Some (Z.of_nat (length pre)))
    by (unfold r'; by destruct r).
  destruct Hr' as [Hm' ->]. cbn [default]. unfold default, id.
  replace (p - Z.of_nat (length pre)) with (Z.of_nat (length t)) by (unfold p; lia).
  pose proof (match_method_token pre t rest r' Hm') as H1.
  pose proof (match_method_spec (pre ++ t ++ rest) r' (Z.of_nat (length pre)) (Z.of_nat (length t))) as H2.
  destruct (match_method _ _ _ _) as [me s]. cbn [fst snd] in H1, H2. subst me.
  assert (Hne : method_of t <> NGX_HTTP_CONNECT) by (intros H; by apply method_of_connect in H).
  destruct H2 as [[_ ?]|[-> _]]; [unfold not_connect; rewrite Hm'; done|done|].
  replace (method (set_method (method_of t) r')) with (method_of t) by (by destruct r').
  rewrite (proj2 (Z.eqb_neq _ _) Hne), andb_false_r. done.
Qed.

(** C4. Every origin-form HTTP/1.x request line is accepted: a method token other
    than CONNECT, a URI that starts with "/" and has no control byte and no space,
    and a one-digit minor version.  The stored method, offsets and version are
    those of the line, whatever precedes it in the buffer and follows it. *)
Theorem request_line_complete (pc : bool) (pre t u rest : list Z) (d : Z)
    (Ht : t <> []) (Htok : forallb is_method_char t = true) (Hconn : t <> str("CONNECT"))
    (Hu : forallb is_uri_char u = true) (Hd : is_num d = true) :
  let line := t ++ [ch(" "); ch("/")] ++ u ++ str(" HTTP/1.") ++ [d; CR; LF] in
  let pos := Z.of_nat (length pre) in
  let us := pos + Z.of_nat (length t) + 1 in
  let ue := us + 1 + Z.of_nat (length u) in
  let '(rc, s', r', p') :=
    ngx_http_parse_request_line pc (pre ++ line ++ rest) sw_start new_request pos
      (Z.of_nat (length (pre ++ line ++ rest))) in
  rc = NGX_OK /\ s' = sw_start /\ p' = pos + Z.of_nat (length line)
  /\ method r' = method_of t /\ request_start r' = Some pos /\ method_end r' = Some (us - 2)
  /\ uri_start r' = Some us /\ uri_end r' = Some ue /\ request_end r' = Some (ue + 9)
  /\ http_version r' = 1000 + (d - ch("0")).
Proof.
  intros line pos us ue. unfold ngx_http_parse_request_line.
  replace (Z.to_nat pos) with (length pre) by (unfold pos; lia).
  rewrite !Nat2Z.id, (take_ge (pre ++ line ++ rest)), drop_app_length by lia.
  unfold line at 2. destruct t as [|c t]; [done|].
  pose proof Htok as Htok'. cbn in Htok'. apply andb_prop in Htok' as [Hc Ht'].
  set (buf := pre ++ line ++ rest). cbn [app rl_loop rl_step]. unfold st_start.
  assert (Hcr : (c =? CR) || (c =? LF) = false).
  { unfold is_method_char, CR, LF in *. destruct (Z.eqb_spec c 13), (Z.eqb_spec c 10); subst; done. }
  unfold is_method_char in Hc. apply negb_true_iff in Hc.
  rewrite Hcr, Hc, <- !app_assoc, rl_loop_method by done. clear Hc Hcr.
  replace (pos + 1 + Z.of_nat (length t)) with (pos + Z.of_nat (length (c :: t))) by (cbn; lia).
  cbn [app]. cbn [rl_loop].
  replace buf with (pre ++ (c :: t) ++ [32; 47] ++ u ++ str(" HTTP/1.") ++ [d; CR; LF] ++ rest)
    by (unfold buf, line; by rewrite <- !app_assoc).
  rewrite st_method_space by done.
  change (rl_step pc ?b sw_spaces_before_uri ?r ?p 47)
    with (Next sw_after_slash_in_uri (set_uri_start (Some p) r)). cbv iota.
  rewrite <- app_assoc.
  match goal with |- context [rl_loop ?a ?b ?e ?f ?g ?h ?k (u ++ ?rr)] =>
    destruct (rl_loop_uri a b e f g h k u rr) as (s' & r' & Hs' & Hr' & ->); [done|done|] end.
  destruct r' as [m1 mi1 ma1 v1 cu1 qu1 pu1 ep1 rs1 me1 ss1 se1 hs1 he1 ch1 ce1 cp1 us1 ue1 ux1 as1 hp1 re1].
  unfold rl_core in Hr'. cbn -[method_of Z.sub] in Hr'. injection Hr' as -> -> -> -> -> -> -> ->.
  change ([32; 72; 84; 84; 80; 47; 49; 46; d; CR; LF] ++ rest)
    with (str(" HTTP/1.") ++ [d; CR; LF] ++ rest).
  rewrite rl_loop_tail;
    [|done|done|intros H; by apply method_of_connect in H|done].
  assert (Hline : Z.of_nat (length line) = Z.of_nat (length (c :: t)) + 2 + Z.of_nat (length u) + 11).
  { unfold line. rewrite !length_app. cbn [length]. lia. }
  unfold rl_done. cbn -[method_of Z.add Z.sub length line].
  assert (Hv : (1 * 1000 + (d - 48) =? 9) = false) by (unfold is_num in Hd; zbool; apply Z.eqb_neq; lia).
  rewrite Hv, Hline. cbn -[method_of Z.add Z.sub length].
  split_and!; try done; try apply (f_equal Some); unfold ue, us, pos; cbn [length]; lia.
Qed.

Lemma request_line_complete_witness :
  let buf := str("xxDELETE /a%20b?c#d HTTP/1.1") ++ [CR; LF] ++ str("Host: h") in
  let '(rc, _, r, p) := ngx_http_parse_request_line true buf sw_start new_request 2 37 in
  rc = NGX_OK /\ p = 30 /\ method r = NGX_HTTP_DELETE /\ uri_start r = Some 9 /\ uri_end r = Some 19.
Proof.
  pose proof (request_line_complete true str("xx") str("DELETE") str("a%20b?c#d") str("Host: h")
    ch("1") ltac:(done) ltac:(reflexivity) ltac:(done) ltac:(reflexivity) ltac:(reflexivity)) as H.
  vm_compute in H |- *. tauto.
Defined.
