(* ===== verification/HttpHeaderLine.v ===== *)
(** * The header line parser: ngx_http_parse_header_line of
    src/http/ngx_http_parse.c

    The same shape as the request line: one definition per [case] of the switch,
    [hl_step] for the switch, [hl_loop] for the loop, and the three exits of
    [ngx_http_parse_header_line].  The locals [hash] and [i] live in the loop and
    are saved into the request at [done] and on NGX_AGAIN, as in the source. *)

From S2P Require Import Prelude HttpRequestLine.

Definition NGX_HTTP_PARSE_HEADER_DONE : Z := 1.
Definition NGX_HTTP_PARSE_INVALID_HEADER : Z := 14.
Definition NGX_HTTP_LC_HEADER_LEN : Z := 32.

(** The macro ngx_hash of ngx_hash.h on ngx_uint_t. *)
Definition ngx_hash (key c : Z) : Z := u64 (key * 31 + c).

(** The static table [lowcase]: the lower-case form of the bytes of a valid
    header name, 0 for every other byte. *)
Definition lowcase : list Z :=
  replicate 32 0
  ++ replicate 13 0 ++ [ch("-")] ++ replicate 2 0 ++ str("0123456789") ++ replicate 6 0
  ++ [0] ++ str("abcdefghijklmnopqrstuvwxyz") ++ replicate 5 0
  ++ [0] ++ str("abcdefghijklmnopqrstuvwxyz") ++ replicate 5 0
  ++ replicate 32 0 ++ replicate 32 0 ++ replicate 32 0 ++ replicate 32 0.

Inductive hl_state :=
| sw_start | sw_name | sw_space_before_value | sw_value | sw_space_after_value
| sw_ignore_line | sw_almost_done | sw_header_almost_done.

#[global] Instance hl_state_eq_dec : EqDecision hl_state.
Proof. solve_decision. Defined.

(** The fields of ngx_http_request_t the parser uses. *)
Record header := MkHdr {
  header_hash : Z;
  lowcase_index : Z;
  lowcase_header : list Z;
  invalid_header : bool;
  header_name_start : ptr;
  header_name_end : ptr;
  header_start : ptr;
  header_end : ptr;
}.

Definition set_hash (h i : Z) (r : header) : header :=
  let '(MkHdr _ _ lc inv ns ne hs he) := r in MkHdr h i lc inv ns ne hs he.
Definition set_lc (i c : Z) (r : header) : header :=
  let '(MkHdr hh li lc inv ns ne hs he) := r in
  MkHdr hh li (<[Z.to_nat i := c]> lc) inv ns ne hs he.
Definition set_invalid (b : bool) (r : header) : header :=
  let '(MkHdr hh li lc _ ns ne hs he) := r in MkHdr hh li lc b ns ne hs he.
Definition set_name_start (p : ptr) (r : header) : header :=
  let '(MkHdr hh li lc inv _ ne hs he) := r in MkHdr hh li lc inv p ne hs he.
Definition set_name_end (p : ptr) (r : header) : header :=
  let '(MkHdr hh li lc inv ns _ hs he) := r in MkHdr hh li lc inv ns p hs he.
Definition set_header_start (p : ptr) (r : header) : header :=
  let '(MkHdr hh li lc inv ns ne _ he) := r in MkHdr hh li lc inv ns ne p he.
Definition set_header_end (p : ptr) (r : header) : header :=
  let '(MkHdr hh li lc inv ns ne hs _) := r in MkHdr hh li lc inv ns ne hs p.

Definition new_header : header := MkHdr 0 0 (replicate 32 0) false None None None None.

(** One iteration: [break], [goto done], [goto header_done] or [return]; the
    first two carry the locals [hash] and [i]. *)
Inductive h_outcome :=
| HNext (s : hl_state) (hash i : Z) (r : header)
| HDone (hash i : Z) (r : header)
| HHeaderDone (r : header)
| HReturn (rc : Z) (r : header).

Section HeaderParser.
Context (upstream allow_underscores : bool) (buf : list Z).

(** first char *)
Definition hst_start (hash i : Z) (r : header) (p c : Z) : h_outcome :=
  let r := set_invalid false (set_name_start (Some p) r) in
  if c =? CR then HNext sw_header_almost_done hash i (set_header_end (Some p) r)
  else if c =? LF then HHeaderDone (set_header_end (Some p) r)
  else
    let lc := arr 0 lowcase c in
    if negb (lc =? 0) then HNext sw_name (ngx_hash 0 lc) 1 (set_lc 0 lc r)
    else if c =? ch("_") then
      if allow_underscores then HNext sw_name (ngx_hash 0 c) 1 (set_lc 0 c r)
      else HNext sw_name 0 0 (set_invalid true r)
    else if (c <=? 0x20) || (c =? 0x7f) || (c =? ch(":")) then
      HReturn NGX_HTTP_PARSE_INVALID_HEADER (set_header_end (Some p) r)
    else HNext sw_name 0 0 (set_invalid true r).

(** header name *)
Definition hst_name (hash i : Z) (r : header) (p c : Z) : h_outcome :=
  let lc := arr 0 lowcase c in
  if negb (lc =? 0) then
    HNext sw_name (ngx_hash hash lc) (Z.land (i + 1) (NGX_HTTP_LC_HEADER_LEN - 1)) (set_lc i lc r)
  else if c =? ch("_") then
    if allow_underscores then
      HNext sw_name (ngx_hash hash c) (Z.land (i + 1) (NGX_HTTP_LC_HEADER_LEN - 1)) (set_lc i c r)
    else HNext sw_name hash i (set_invalid true r)
  else if c =? ch(":") then HNext sw_space_before_value hash i (set_name_end (Some p) r)
  else if c =? CR then
    HNext sw_almost_done hash i
      (set_header_end (Some p) (set_header_start (Some p) (set_name_end (Some p) r)))
  else if c =? LF then
    HDone hash i (set_header_end (Some p) (set_header_start (Some p) (set_name_end (Some p) r)))
  else if (c =? ch("/")) && upstream && (p - default 0 (header_name_start r) =? 4)
          && ngx_strn_cmp buf (default 0 (header_name_start r)) str("HTTP") then
    HNext sw_ignore_line hash i r
  else if (c <=? 0x20) || (c =? 0x7f) then
    HReturn NGX_HTTP_PARSE_INVALID_HEADER (set_header_end (Some p) r)
  else HNext sw_name hash i (set_invalid true r).

(** space* before header value *)
Definition hst_space_before_value (hash i : Z) (r : header) (p c : Z) : h_outcome :=
  if c =? ch(" ") then HNext sw_space_before_value hash i r
  else if c =? CR then
    HNext sw_almost_done hash i (set_header_end (Some p) (set_header_start (Some p) r))
  else if c =? LF then HDone hash i (set_header_end (Some p) (set_header_start (Some p) r))
  else if c =? 0 then HReturn NGX_HTTP_PARSE_INVALID_HEADER (set_header_end (Some p) r)
  else HNext sw_value hash i (set_header_start (Some p) r).

(** header value *)
Definition hst_value (hash i : Z) (r : header) (p c : Z) : h_outcome :=
  if c =? ch(" ") then HNext sw_space_after_value hash i (set_header_end (Some p) r)
  else if c =? CR then HNext sw_almost_done hash i (set_header_end (Some p) r)
  else if c =? LF then HDone hash i (set_header_end (Some p) r)
  else if c =? 0 then HReturn NGX_HTTP_PARSE_INVALID_HEADER (set_header_end (Some p) r)
  else HNext sw_value hash i r.

(** space* before end of header line *)
Definition hst_space_after_value (hash i : Z) (r : header) (p c : Z) : h_outcome :=
  if c =? ch(" ") then HNext sw_space_after_value hash i r
  else if c =? CR then HNext sw_almost_done hash i r
  else if c =? LF then HDone hash i r
  else if c =? 0 then HReturn NGX_HTTP_PARSE_INVALID_HEADER (set_header_end (Some p) r)
  else HNext sw_value hash i r.

(** ignore header line *)
Definition hst_ignore_line (hash i : Z) (r : header) (c : Z) : h_outcome :=
  if c =? LF then HNext sw_start hash i r else HNext sw_ignore_line hash i r.

(** end of header line *)
Definition hst_almost_done (hash i : Z) (r : header) (c : Z) : h_outcome :=
  if c =? LF then HDone hash i r
  else if c =? CR then HNext sw_almost_done hash i r
  else HReturn NGX_HTTP_PARSE_INVALID_HEADER r.

(** end of header *)
Definition hst_header_almost_done (r : header) (c : Z) : h_outcome :=
  if c =? LF then HHeaderDone r else HReturn NGX_HTTP_PARSE_INVALID_HEADER r.

Definition hl_step (s : hl_state) (hash i : Z) (r : header) (p c : Z) : h_outcome :=
  match s with
  | sw_start => hst_start hash i r p c
  | sw_name => hst_name hash i r p c
  | sw_space_before_value => hst_space_before_value hash i r p c
  | sw_value => hst_value hash i r p c
  | sw_space_after_value => hst_space_after_value hash i r p c
  | sw_ignore_line => hst_ignore_line hash i r c
  | sw_almost_done => hst_almost_done hash i r c
  | sw_header_almost_done => hst_header_almost_done r c
  end.

Fixpoint hl_loop (s0 : hl_state) (p0 : Z) (s : hl_state) (hash i : Z) (r : header) (p : Z)
    (rest : list Z) : Z * hl_state * header * Z :=
  match rest with
  | [] => (NGX_AGAIN, s, set_hash hash i r, p)
  | c :: rest' =>
      match hl_step s hash i r p c with
      | HNext s' hash' i' r' => hl_loop s0 p0 s' hash' i' r' (p + 1) rest'
      | HDone hash' i' r' => (NGX_OK, sw_start, set_hash hash' i' r', p + 1)
      | HHeaderDone r' => (NGX_HTTP_PARSE_HEADER_DONE, sw_start, r', p + 1)
      | HReturn rc r' => (rc, s0, r', p0)
      end
  end.

Definition ngx_http_parse_header_line (s : hl_state) (r : header) (pos last : Z)
    : Z * hl_state * header * Z :=
  hl_loop s pos s (header_hash r) (lowcase_index r) r pos
    (drop (Z.to_nat pos) (take (Z.to_nat last) buf)).

End HeaderParser.

Example parse_host :
  let buf := str("Host:  example.org ") ++ [CR; LF] in
  let '(rc, _, r, pos) := ngx_http_parse_header_line false false buf sw_start new_header 0 21 in
  (rc, pos, header_name_start r, header_name_end r, header_start r, header_end r,
   take 4 (lowcase_header r), lowcase_index r)
  = (NGX_OK, 21, Some 0, Some 4, Some 7, Some 18, str("host"), 4).
Proof. vm_compute. reflexivity. Qed.

(** ** Well-formedness of an accepted header line *)

Section HeaderInvariant.
Context (upstream allow_underscores : bool) (buf : list Z) (b0 : Z).

(** The lower-case form of a valid name byte. *)
Definition lc_of (c : Z) : option Z :=
  if negb (arr 0 lowcase c =? 0) then Some (arr 0 lowcase c)
  else if (c =? ch("_")) && allow_underscores then Some c else None.

(** A byte the parser tolerates in a header name. *)
Definition is_name_char (c : Z) : bool := (0x20 <? c) && negb (c =? 0x7f) && negb (c =? ch(":")).

(** A byte allowed in a header value. *)
Definition is_value_char (c : Z) : bool := negb (c =? 0) && negb (c =? CR) && negb (c =? LF).

(** [low] is the lower-case name found at [ns .. ne], and [hash], [i] and the
    array [lowcase_header] hold its hash, its length modulo the array size, and
    its bytes. *)
Definition name_hashed (hash i : Z) (r : header) (ns ne : Z) : Prop :=
  invalid_header r = false ->
  exists low : list Z,
    Z.of_nat (length low) = ne - ns /\
    (forall j x, low !! j = Some x -> lc_of (at_ buf (ns + Z.of_nat j)) = Some x) /\
    hash = fold_left ngx_hash low 0 /\
    i = Z.of_nat (length low) mod NGX_HTTP_LC_HEADER_LEN /\
    (Z.of_nat (length low) <= NGX_HTTP_LC_HEADER_LEN ->
     take (length low) (lowcase_header r) = low).

(** The name starts where the parser started, or, in an upstream response, after
    an ignored line. *)
Definition line_start (p : Z) : Prop :=
  p = b0 \/ upstream = true /\ b0 < p /\ at_ buf (p - 1) = LF.

Definition name_at (hash i : Z) (r : header) (ns ne : Z) : Prop :=
  header_name_start r = Some ns /\ line_start ns /\ ns < ne /\
  bytes_in buf is_name_char ns ne /\ name_hashed hash i r ns ne.

Definition name_ok (hash i : Z) (r : header) (ns ne : Z) : Prop :=
  header_name_end r = Some ne /\ name_at hash i r ns ne.

(** The value starts at [hs], after a colon and spaces. *)
Definition value_at (hash i : Z) (r : header) (p : Z) : Prop :=
  exists ns ne hs, name_ok hash i r ns ne /\ header_start r = Some hs /\ ne < hs < p /\
    at_ buf ne = ch(":") /\ bytes_in buf (Z.eqb ch(" ")) (ne + 1) hs /\
    bytes_in buf is_value_char hs p /\ at_ buf hs <> ch(" ").

(** A header line up to [p], complete but for its end of line: the value at
    [hs .. he] is trimmed, and only spaces lie between it and [p]. *)
Definition line_ok (hash i : Z) (r : header) (p : Z) : Prop :=
  exists ns ne hs he, name_ok hash i r ns ne /\ header_start r = Some hs /\
    header_end r = Some he /\ ne <= hs <= he /\ he <= p /\
    (at_ buf ne = ch(":") /\ ne < hs /\ bytes_in buf (Z.eqb ch(" ")) (ne + 1) hs
     \/ hs = ne /\ he = ne /\ p = ne) /\
    bytes_in buf is_value_char hs he /\
    (hs < he -> at_ buf hs <> ch(" ") /\ at_ buf (he - 1) <> ch(" ")) /\
    bytes_in buf (Z.eqb ch(" ")) he p.

(** The same with the carriage returns of its end up to [p]. *)
Definition line_ended (hash i : Z) (r : header) (p : Z) : Prop :=
  exists e, e <= p /\ line_ok hash i r e /\ bytes_in buf (Z.eqb CR) e p.

Definition hl_inv (s : hl_state) (hash i : Z) (r : header) (p : Z) : Prop :=
  b0 <= p /\ length (lowcase_header r) = Z.to_nat NGX_HTTP_LC_HEADER_LEN /\
  match s with
  | sw_start => line_start p
  | sw_ignore_line => upstream = true
  | sw_header_almost_done => True
  | sw_name => exists ns, name_at hash i r ns p
  | sw_space_before_value => exists ns ne, name_ok hash i r ns ne /\ ne < p /\
      at_ buf ne = ch(":") /\ bytes_in buf (Z.eqb ch(" ")) (ne + 1) p
  | sw_value => value_at hash i r p /\ at_ buf (p - 1) <> ch(" ")
  | sw_space_after_value => value_at hash i r p /\ line_ok hash i r p
  | sw_almost_done => line_ended hash i r p
  end.

Definition hl_good (p : Z) (o : h_outcome) : Prop :=
  match o with
  | HNext s' hash' i' r' => hl_inv s' hash' i' r' (p + 1)
  | HDone hash' i' r' => line_ended hash' i' r' p /\ at_ buf p = LF
  | HHeaderDone r' => True
  | HReturn rc r' => rc = NGX_HTTP_PARSE_INVALID_HEADER
  end.

Lemma lowcase_name_char c : is_byte c -> arr 0 lowcase c <> 0 -> is_name_char c = true.
Proof.
  intros Hc Hl.
  assert (Hall : forall c, is_byte c -> (arr 0 lowcase c =? 0) || is_name_char c = true)
    by (apply all_bytes_spec; vm_compute; reflexivity).
  specialize (Hall c Hc). apply orb_prop in Hall as [H|H]; [|done].
  by apply Z.eqb_eq in H.
Qed.

(** The name grows by a valid byte with lower-case form [x]. *)
Lemma name_hashed_snoc hash i r ns p c x :
  ns < p -> length (lowcase_header r) = Z.to_nat NGX_HTTP_LC_HEADER_LEN ->
  name_hashed hash i r ns p -> at_ buf p = c -> lc_of c = Some x ->
  name_hashed (ngx_hash hash x) (Z.land (i + 1) (NGX_HTTP_LC_HEADER_LEN - 1)) (set_lc i x r)
    ns (p + 1).
Proof.
  intros Hlt Hlen Hn Hc Hx Hinv.
  destruct r as [hh li lc inv ns0 ne0 hs0 he0]. cbn in *. subst inv.
  destruct (Hn eq_refl) as (low & Hll & Hch & -> & -> & Htk). exists (low ++ [x]).
  unfold NGX_HTTP_LC_HEADER_LEN in *. rewrite length_app. cbn [length].
  split_and!.
  - lia.
  - intros j y Hj. rewrite lookup_app in Hj.
    destruct (low !! j) as [z|] eqn:E; [simplify_eq; by apply Hch|].
    apply lookup_ge_None in E. destruct (j - length low)%nat as [|k] eqn:Ek; [|done].
    injection Hj as <-. replace (ns + Z.of_nat j) with p by lia. by rewrite Hc, Hx.
  - by rewrite fold_left_app.
  - change (32 - 1) with (2 ^ 5 - 1). rewrite land_mask by lia. change (2 ^ 5) with 32.
    rewrite Nat2Z.inj_add. change (Z.of_nat 1) with 1. by rewrite Zplus_mod_idemp_l.
  - intros Hle. cbn. rewrite Z.mod_small, Nat2Z.id by lia.
    replace (length low + 1)%nat with (S (length low)) by lia.
    rewrite (take_S_r _ _ x) by (apply list_lookup_insert_eq; lia).
    rewrite take_insert_ge by lia. f_equal. apply Htk. lia.
Qed.

Lemma name_hashed_first r p c x :
  length (lowcase_header r) = Z.to_nat NGX_HTTP_LC_HEADER_LEN ->
  at_ buf p = c -> lc_of c = Some x ->
  name_hashed (ngx_hash 0 x) 1 (set_lc 0 x r) p (p + 1).
Proof.
  intros Hlen Hc Hx Hinv. exists [x]. destruct r as [hh li lc inv ns0 ne0 hs0 he0]. cbn in *.
  split_and!; try done; [lia| |].
  - intros [|j] y Hj; [|done]. injection Hj as <-. by rewrite Z.add_0_r, Hc.
  - intros _. destruct lc; [done|]. done.
Qed.

Lemma name_hashed_invalid hash i r ns ne :
  invalid_header r = true -> name_hashed hash i r ns ne.
Proof. intros H H'. congruence. Qed.

Lemma name_at_frame hash i r r' ns ne :
  name_at hash i r ns ne -> header_name_start r' = header_name_start r ->
  invalid_header r' = invalid_header r -> lowcase_header r' = lowcase_header r ->
  name_at hash i r' ns ne.
Proof.
  intros (H1 & H2 & H3 & H4 & H5) E1 E2 E3. unfold name_at, name_hashed in *.
  rewrite E1, E2, E3. done.
Qed.

Lemma name_ok_frame hash i r r' ns ne :
  name_ok hash i r ns ne -> header_name_end r' = header_name_end r ->
  header_name_start r' = header_name_start r ->
  invalid_header r' = invalid_header r -> lowcase_header r' = lowcase_header r ->
  name_ok hash i r' ns ne.
Proof. intros [H1 H2] E1 E2 E3 E4. split; [congruence|]. by eapply name_at_frame. Qed.

Ltac hdr_simpl :=
  repeat match goal with r : header |- _ => destruct r end; cbn in *.

Lemma hst_start_good hash i r p c :
  hl_inv sw_start hash i r p -> at_ buf p = c -> is_byte c ->
  hl_good p (hst_start allow_underscores hash i r p c).
Proof.
  intros (Hp & Hlen & Hst) Hc Hb. unfold hst_start.
  repeat case_if; try done; cbn [hl_good hl_inv].
  all: split; [lia|]; split; [hdr_simpl; rewrite ?length_insert; done|]; try done.
  all: exists p; (split; [by hdr_simpl|]); (split; [done|]); (split; [lia|]); split.
  all: try (apply bytes_in_one; rewrite Hc).
  all: try (apply name_hashed_invalid; by hdr_simpl).
  - apply negb_true_iff, Z.eqb_neq in E1. by apply lowcase_name_char.
  - apply name_hashed_first with (c := c); [by hdr_simpl|done|]. unfold lc_of. by rewrite E1.
  - apply Z.eqb_eq in E2 as ->. done.
  - apply name_hashed_first with (c := c); [by hdr_simpl|done|]. unfold lc_of. by rewrite E1, E2, E3.
  - apply Z.eqb_eq in E2 as ->. done.
  - unfold is_name_char. zbool. by rewrite (proj2 (Z.ltb_lt _ _)), (proj2 (Z.eqb_neq c 127)),
      (proj2 (Z.eqb_neq c 58)) by lia.
Qed.

Lemma line_ok_ended hash i r p : line_ok hash i r p -> line_ended hash i r p.
Proof. intros H. exists p. split_and!; [lia|done|intros k Hk; lia]. Qed.

Lemma line_ended_cr hash i r p :
  line_ended hash i r p -> at_ buf p = CR -> line_ended hash i r (p + 1).
Proof.
  intros (e & He & Hl & Hcr) Hc. exists e. split_and!; [lia|done|].
  apply bytes_in_snoc; [done|]. by apply Z.eqb_eq.
Qed.

Lemma hst_name_good hash i r p c :
  hl_inv sw_name hash i r p -> at_ buf p = c -> is_byte c ->
  hl_good p (hst_name upstream allow_underscores buf hash i r p c).
Proof.
  intros (Hp & Hlen & ns & Hns & Hle & Hlt & Hb1 & Hh) Hc Hb. unfold hst_name.
  assert (Hname : forall hash' i' r', header_name_start r' = header_name_start r ->
    is_name_char c = true -> name_hashed hash' i' r' ns (p + 1) -> name_at hash' i' r' ns (p + 1)).
  { intros. split_and!; try done; [congruence|lia|]. apply bytes_in_snoc; [done|congruence]. }
  assert (Hend : name_at hash i r ns p) by (by split_and!).
  repeat case_if; try done; cbn [hl_good hl_inv].
  all: try (split; [lia|]; split; [hdr_simpl; rewrite ?length_insert; done|]); try done.
  - exists ns. apply Hname; [by hdr_simpl| |].
    + apply negb_true_iff, Z.eqb_neq in E. by apply lowcase_name_char.
    + apply name_hashed_snoc with (c := c); try done. unfold lc_of. by rewrite E.
  - exists ns. apply Hname; [by hdr_simpl|apply Z.eqb_eq in E0 as ->; done|].
    apply name_hashed_snoc with (c := c); try done. unfold lc_of. by rewrite E, E0, E1.
  - exists ns. apply Hname; [by hdr_simpl|apply Z.eqb_eq in E0 as ->; done|].
    apply name_hashed_invalid. by hdr_simpl.
  - exists ns, p. apply Z.eqb_eq in E1. split_and!; [| lia|congruence|intros k Hk; lia].
    split; [by hdr_simpl|]. eapply name_at_frame; [exact Hend|by hdr_simpl..].
  - apply line_ended_cr; [|apply Z.eqb_eq in E2; congruence]. apply line_ok_ended.
    exists ns, p, p, p. split_and!; try lia; try (by hdr_simpl); intros k Hk; lia.
  - apply Z.eqb_eq in E3. split; [|congruence]. apply line_ok_ended.
    exists ns, p, p, p. split_and!; try lia; try (by hdr_simpl); intros k Hk; lia.
  - zbool. done.
  - exists ns. apply Hname; [by hdr_simpl| |apply name_hashed_invalid; by hdr_simpl].
    unfold is_name_char. zbool. by rewrite (proj2 (Z.ltb_lt _ _)), (proj2 (Z.eqb_neq c 127)),
      (proj2 (Z.eqb_neq c 58)) by lia.
Qed.

(** The spaces before the value, the value and the spaces after it. *)
Lemma value_char_ok c :
  (c =? CR) = false -> (c =? LF) = false -> (c =? 0) = false -> is_value_char c = true.
Proof. intros H1 H2 H3. unfold is_value_char. by rewrite H1, H2, H3. Qed.

Lemma value_at_frame hash i r r' p :
  value_at hash i r p -> header_start r' = header_start r ->
  header_name_end r' = header_name_end r -> header_name_start r' = header_name_start r ->
  invalid_header r' = invalid_header r -> lowcase_header r' = lowcase_header r ->
  value_at hash i r' p.
Proof.
  intros (ns & ne & hs & Hn & Hrest) E1 E2 E3 E4 E5. exists ns, ne, hs.
  rewrite E1. split; [by eapply name_ok_frame|done].
Qed.

Lemma value_at_next hash i r p :
  value_at hash i r p -> is_value_char (at_ buf p) = true -> value_at hash i r (p + 1).
Proof.
  intros (ns & ne & hs & Hn & Hs & Hlt & Hc & Hsp & Hv & Hne) Hp.
  exists ns, ne, hs. split_and!; try done; try lia. by apply bytes_in_snoc.
Qed.

Lemma value_at_end hash i r r' p :
  value_at hash i r p -> at_ buf (p - 1) <> ch(" ") -> header_end r' = Some p ->
  header_start r' = header_start r -> header_name_end r' = header_name_end r ->
  header_name_start r' = header_name_start r -> invalid_header r' = invalid_header r ->
  lowcase_header r' = lowcase_header r -> line_ok hash i r' p.
Proof.
  intros (ns & ne & hs & Hn & Hs & Hlt & Hc & Hsp & Hv & Hne) Hlast E0 E1 E2 E3 E4 E5.
  exists ns, ne, hs, p. rewrite E0, E1.
  split; [by eapply name_ok_frame|]. split_and!; try done; try lia.
  - left. split_and!; done || lia.
  - intros k Hk; lia.
Qed.

Lemma line_ok_space hash i r p :
  line_ok hash i r p -> at_ buf p = ch(" ") -> value_at hash i r p -> line_ok hash i r (p + 1).
Proof.
  intros (ns & ne & hs & he & Hn & Hs & He & Hle & Hp & Hcol & Hv & Htrim & Hsp) Hc
    (ns' & ne' & hs' & [Hn1 _] & Hs' & Hlt' & _).
  destruct Hn as [Hn2 Hn]. simplify_eq.
  exists ns, ne, hs, he. split_and!; try done; try lia.
  - destruct Hcol as [?|?]; [by left|lia].
  - apply bytes_in_snoc; [done|]. by apply Z.eqb_eq.
Qed.

(** The value is empty: the line ends right after the colon and spaces. *)
Lemma empty_value_ok hash i r r' ns ne p :
  name_ok hash i r ns ne -> ne < p -> at_ buf ne = ch(":") ->
  bytes_in buf (Z.eqb ch(" ")) (ne + 1) p ->
  header_start r' = Some p -> header_end r' = Some p -> header_name_end r' = header_name_end r ->
  header_name_start r' = header_name_start r -> invalid_header r' = invalid_header r ->
  lowcase_header r' = lowcase_header r -> line_ok hash i r' p.
Proof.
  intros Hn Hlt Hc Hsp E0 E1 E2 E3 E4 E5. exists ns, ne, p, p. rewrite E0, E1.
  split; [by eapply name_ok_frame|]. split_and!; try done; try lia; [by left|intros k Hk; lia..].
Qed.

Lemma hst_space_before_value_good hash i r p c :
  hl_inv sw_space_before_value hash i r p -> at_ buf p = c -> is_byte c ->
  hl_good p (hst_space_before_value hash i r p c).
Proof.
  intros (Hp & Hlen & ns & ne & Hn & Hlt & Hcol & Hsp) Hc Hb. unfold hst_space_before_value.
  repeat case_if; try done; cbn [hl_good hl_inv].
  all: try (split; [lia|]; split; [by hdr_simpl|]).
  - exists ns, ne. split_and!; try done; [lia|]. apply bytes_in_snoc; [done|].
    apply Z.eqb_eq in E. apply Z.eqb_eq. congruence.
  - apply Z.eqb_eq in E0. apply line_ended_cr; [|congruence].
    apply line_ok_ended. eapply empty_value_ok; try done; by hdr_simpl.
  - apply Z.eqb_eq in E1. split; [|congruence]. apply line_ok_ended. eapply empty_value_ok; try done; by hdr_simpl.
  - apply Z.eqb_neq in E. rewrite Z.add_simpl_r. split; [|congruence].
    exists ns, ne, p. split_and!; try done; try lia; try (by hdr_simpl); try congruence.
    apply bytes_in_one. rewrite Hc. by apply value_char_ok.
Qed.

Lemma hst_value_good hash i r p c :
  hl_inv sw_value hash i r p -> at_ buf p = c -> is_byte c ->
  hl_good p (hst_value hash i r p c).
Proof.
  intros (Hp & Hlen & Hv & Hlast) Hc Hb. unfold hst_value.
  assert (Hend : line_ok hash i (set_header_end (Some p) r) p)
    by (eapply value_at_end; [exact Hv|done|by hdr_simpl..]).
  assert (Hv' : value_at hash i (set_header_end (Some p) r) p)
    by (eapply value_at_frame; [exact Hv|by hdr_simpl..]).
  repeat case_if; try done; cbn [hl_good hl_inv].
  all: try (split; [lia|]; split; [by hdr_simpl|]).
  - apply Z.eqb_eq in E. split.
    + apply value_at_next; [done|]. by rewrite Hc, E.
    + apply line_ok_space; [done|congruence|done].
  - apply Z.eqb_eq in E0. apply line_ended_cr; [by apply line_ok_ended|congruence].
  - apply Z.eqb_eq in E1. split; [by apply line_ok_ended|congruence].
  - rewrite Z.add_simpl_r. split; [|apply Z.eqb_neq in E; congruence].
    apply value_at_next; [done|]. rewrite Hc. by apply value_char_ok.
Qed.

Lemma hst_space_after_value_good hash i r p c :
  hl_inv sw_space_after_value hash i r p -> at_ buf p = c -> is_byte c ->
  hl_good p (hst_space_after_value hash i r p c).
Proof.
  intros (Hp & Hlen & Hv & Hl) Hc Hb. unfold hst_space_after_value.
  repeat case_if; try done; cbn [hl_good hl_inv].
  all: try (split; [lia|]; split; [by hdr_simpl|]).
  - apply Z.eqb_eq in E. split.
    + apply value_at_next; [done|]. by rewrite Hc, E.
    + apply line_ok_space; [done|congruence|done].
  - apply Z.eqb_eq in E0. apply line_ended_cr; [by apply line_ok_ended|congruence].
  - apply Z.eqb_eq in E1. split; [by apply line_ok_ended|congruence].
  - rewrite Z.add_simpl_r. split; [|apply Z.eqb_neq in E; congruence].
    apply value_at_next; [done|]. rewrite Hc. by apply value_char_ok.
Qed.

Lemma hl_step_inv s hash i r p c :
  hl_inv s hash i r p -> at_ buf p = c -> is_byte c ->
  hl_good p (hl_step upstream allow_underscores buf s hash i r p c).
Proof.
  intros Hinv Hc Hb. destruct s; cbn [hl_step].
  - by apply hst_start_good.
  - by apply hst_name_good.
  - by apply hst_space_before_value_good.
  - by apply hst_value_good.
  - by apply hst_space_after_value_good.
  - destruct Hinv as (? & ? & ?). unfold hst_ignore_line. case_if; cbn; split_and!; try (done || lia).
    right. split_and!; [done|lia|]. rewrite Z.add_simpl_r. apply Z.eqb_eq in E. congruence.
  - destruct Hinv as (? & ? & Hl). unfold hst_almost_done. repeat case_if; cbn; try done.
    + apply Z.eqb_eq in E. split; [done|congruence].
    + split_and!; [lia|done|]. apply line_ended_cr; [done|]. apply Z.eqb_eq in E0. congruence.
  - unfold hst_header_almost_done. by case_if.
Qed.

End HeaderInvariant.

(** ** The theorems *)

(** The byte at the head of the unread input, and its byte range. *)
Lemma unread_head buf p c rest tl :
  0 <= p -> bytes_ok buf -> drop (Z.to_nat p) buf = c :: rest ++ tl ->
  at_ buf p = c /\ is_byte c /\ drop (Z.to_nat (p + 1)) buf = rest ++ tl.
Proof.
  intros Hp Hb Hd.
  assert (Hl : buf !! Z.to_nat p = Some c).
  { rewrite <- (Nat.add_0_r (Z.to_nat p)), <- lookup_drop, Hd. done. }
  split_and!.
  - unfold at_, arr. destruct (Z.ltb_spec p 0); [lia|].
    by apply nth_lookup_Some with (d := 0) in Hl.
  - by eapply Forall_lookup_1.
  - replace (Z.to_nat (p + 1)) with (Z.to_nat p + 1)%nat by lia. by rewrite <- drop_drop, Hd.
Qed.

Lemma hl_loop_done up au buf b0 s0 p0 s hash i r p rest tl s' r' p' :
  hl_inv up au buf b0 s hash i r p -> 0 <= p -> bytes_ok buf ->
  drop (Z.to_nat p) buf = rest ++ tl ->
  hl_loop up au buf s0 p0 s hash i r p rest = (NGX_OK, s', r', p') ->
  s' = sw_start /\ p < p' <= p + Z.of_nat (length rest) /\ at_ buf (p' - 1) = LF
  /\ line_ended up au buf b0 (header_hash r') (lowcase_index r') r' (p' - 1).
Proof.
  intros Hinv Hp Hb. revert s hash i r p Hp Hinv.
  induction rest as [|c rest IH]; intros s hash i r p Hp Hinv Hrest H; cbn in H; [done|].
  destruct (unread_head buf p c rest tl Hp Hb Hrest) as (Hc & Hbc & Hrest').
  pose proof (hl_step_inv up au buf b0 s hash i r p c Hinv Hc Hbc) as Hg.
  destruct (hl_step up au buf s hash i r p c) as [s1 h1 i1 r1|h1 i1 r1|r1|rc r1]; cbn in Hg.
  - apply IH in H as (? & ? & ? & ?); [|lia|done|done]. cbn [length]. split_and!; done || lia.
  - destruct Hg as [Hl Hlf]. injection H as <- <- <-. rewrite Z.add_simpl_r. cbn [length].
    split_and!; try done; try lia.
    destruct r1. cbn. destruct Hl as (e & He & Hl & Hcr). exists e. split_and!; try done.
  - done.
  - subst rc. done.
Qed.


