(* ===== verification/HttpComplexUri.v ===== *)
(** * Path normalisation: ngx_http_parse_complex_uri of src/http/ngx_http_parse.c

    The routine decodes "%xx", removes "." and ".." segments, merges slashes and
    cuts the path at "?" or "#".  It writes through [u] into [r->uri.data] and
    sometimes moves [u] back; here the written bytes [uri.data .. u) are the list
    [cu_out] in reverse order, so [*u++ = c] is a cons, [u--] a tail, and
    [u -= 4] followed by the search for the previous slash is [cu_rewind].

    [cu_loop] consumes the bytes [uri_start .. uri_end).  In the state
    [sw_quoted_second] the source stores the decoded byte in [ch] and goes round
    the loop without advancing [p]; the next iteration, in the saved state, always
    advances or leaves, so [cu_quoted_second] runs it at once. *)

From S2P Require Import Prelude NgxNumber HttpRequestLine.

Inductive cu_base := sw_usual | sw_slash | sw_dot | sw_dot_dot.

Inductive cu_state :=
| Base (b : cu_base)
| Quoted (b : cu_base)                      (** [quoted_state] is [b] *)
| QuotedSecond (b : cu_base) (decoded : Z).

Record cu := MkCu {
  cu_st : cu_state;
  cu_out : list Z;
  cu_uri_ext : ptr;
  cu_plus_in_uri : bool;
  cu_quoted_uri : bool;
}.

Definition set_st (st : cu_state) (s : cu) : cu :=
  let '(MkCu _ o e pl q) := s in MkCu st o e pl q.
Definition put (c : Z) (s : cu) : cu :=
  let '(MkCu st o e pl q) := s in MkCu st (c :: o) e pl q.
Definition set_out (o : list Z) (s : cu) : cu :=
  let '(MkCu st _ e pl q) := s in MkCu st o e pl q.
Definition set_ext (e : ptr) (s : cu) : cu :=
  let '(MkCu st o _ pl q) := s in MkCu st o e pl q.
Definition set_plus (s : cu) : cu :=
  let '(MkCu st o e _ q) := s in MkCu st o e true q.
Definition set_quoted (s : cu) : cu :=
  let '(MkCu st o e pl _) := s in MkCu st o e pl true.

(** One iteration: go on, [goto args], [goto done], or return
    NGX_HTTP_PARSE_INVALID_REQUEST. *)
Inductive cu_outcome :=
| CNext (s : cu)
| CArgs (s : cu)
| CDone (s : cu)
| CInvalid.

(** The [for ( ;; )] after [u -= 4]: [o] is the output below the inspected byte,
    its head being [*u]; an empty list is [u < r->uri.data]. *)
Fixpoint cu_find_slash (o : list Z) : option (list Z) :=
  match o with
  | [] => None
  | c :: o' => if c =? ch("/") then Some o else cu_find_slash o'
  end.

Definition cu_rewind (o : list Z) : option (list Z) := cu_find_slash (drop 3 o).

Definition cu_usual (s : cu) (c : Z) : cu_outcome :=
  if is_usual c then CNext (put c s)
  else if c =? ch("/") then CNext (put c (set_st (Base sw_slash) (set_ext None s)))
  else if c =? ch("%") then CNext (set_st (Quoted sw_usual) s)
  else if c =? ch("?") then CArgs s
  else if c =? ch("#") then CDone s
  else if c =? ch(".") then
    CNext (put c (set_ext (Some (Z.of_nat (length (cu_out s)) + 1)) s))
  else if c =? ch("+") then CNext (put c (set_plus s))
  else CNext (put c s).

Definition cu_slash (merge_slashes : bool) (s : cu) (c : Z) : cu_outcome :=
  if is_usual c then CNext (put c (set_st (Base sw_usual) s))
  else if c =? ch("/") then CNext (if merge_slashes then s else put c s)
  else if c =? ch(".") then CNext (put c (set_st (Base sw_dot) s))
  else if c =? ch("%") then CNext (set_st (Quoted sw_slash) s)
  else if c =? ch("?") then CArgs s
  else if c =? ch("#") then CDone s
  else if c =? ch("+") then CNext (put c (set_st (Base sw_usual) (set_plus s)))
  else CNext (put c (set_st (Base sw_usual) s)).

Definition cu_dot (s : cu) (c : Z) : cu_outcome :=
  if is_usual c then CNext (put c (set_st (Base sw_usual) s))
  else if c =? ch("/") then CNext (set_out (tail (cu_out s)) (set_st (Base sw_slash) s))
  else if c =? ch(".") then CNext (put c (set_st (Base sw_dot_dot) s))
  else if c =? ch("%") then CNext (set_st (Quoted sw_dot) s)
  else if c =? ch("?") then CArgs (set_out (tail (cu_out s)) s)
  else if c =? ch("#") then CDone (set_out (tail (cu_out s)) s)
  else if c =? ch("+") then CNext (put c (set_st (Base sw_usual) (set_plus s)))
  else CNext (put c (set_st (Base sw_usual) s)).

Definition cu_dot_dot (s : cu) (c : Z) : cu_outcome :=
  if is_usual c then CNext (put c (set_st (Base sw_usual) s))
  else if (c =? ch("/")) || (c =? ch("?")) || (c =? ch("#")) then
    match cu_rewind (cu_out s) with
    | None => CInvalid
    | Some o =>
        if c =? ch("?") then CArgs (set_out o s)
        else if c =? ch("#") then CDone (set_out o s)
        else CNext (set_out o (set_st (Base sw_slash) s))
    end
  else if c =? ch("%") then CNext (set_st (Quoted sw_dot_dot) s)
  else if c =? ch("+") then CNext (put c (set_st (Base sw_usual) (set_plus s)))
  else CNext (put c (set_st (Base sw_usual) s)).

Definition cu_base_step (merge_slashes : bool) (b : cu_base) (s : cu) (c : Z) : cu_outcome :=
  match b with
  | sw_usual => cu_usual s c
  | sw_slash => cu_slash merge_slashes s c
  | sw_dot => cu_dot s c
  | sw_dot_dot => cu_dot_dot s c
  end.

Definition cu_quoted_step (b : cu_base) (s : cu) (c : Z) : cu_outcome :=
  let s := set_quoted s in
  if (ch("0") <=? c) && (c <=? ch("9")) then CNext (set_st (QuotedSecond b (u8 (c - ch("0")))) s)
  else
    let l := u8 (Z.lor c 0x20) in
    if (ch("a") <=? l) && (l <=? ch("f")) then
      CNext (set_st (QuotedSecond b (u8 (l - ch("a") + 10))) s)
    else CInvalid.

Definition cu_quoted_second (merge_slashes : bool) (b : cu_base) (decoded : Z) (s : cu) (c : Z)
    : cu_outcome :=
  if (ch("0") <=? c) && (c <=? ch("9")) then
    let x := u8 (Z.shiftl decoded 4 + (c - ch("0"))) in
    if (x =? ch("%")) || (x =? ch("#")) then CNext (put x (set_st (Base sw_usual) s))
    else if x =? 0 then CInvalid
    else cu_base_step merge_slashes b (set_st (Base b) s) x
  else
    let l := u8 (Z.lor c 0x20) in
    if (ch("a") <=? l) && (l <=? ch("f")) then
      let x := u8 (Z.shiftl decoded 4 + (l - ch("a")) + 10) in
      if x =? ch("?") then CNext (put x (set_st (Base sw_usual) s))
      else
        let s := if x =? ch("+") then set_plus s else s in
        cu_base_step merge_slashes b (set_st (Base b) s) x
    else CInvalid.

Definition cu_step (merge_slashes : bool) (s : cu) (c : Z) : cu_outcome :=
  match cu_st s with
  | Base b => cu_base_step merge_slashes b s c
  | Quoted b => cu_quoted_step b s c
  | QuotedSecond b d => cu_quoted_second merge_slashes b d s c
  end.

(** The result: the path, the start of the extension in it, and, when the path
    was cut at "?", the arguments with the fragment removed. *)
Record uri_parts := MkParts {
  up_uri : list Z;
  up_exten : option Z;
  up_args : option (list Z);
  up_plus : bool;
  up_quoted : bool;
}.

(** The code after the loop, when the URI is exhausted. *)
Definition cu_finish (s : cu) : option cu :=
  match cu_st s with
  | Quoted _ | QuotedSecond _ _ => None
  | Base sw_dot => Some (set_out (tail (cu_out s)) s)
  | Base sw_dot_dot => o ← cu_rewind (cu_out s); Some (set_out o s)
  | Base _ => Some s
  end.

Definition cu_parts (s : cu) (args : option (list Z)) : uri_parts :=
  MkParts (rev (cu_out s)) (cu_uri_ext s) args (cu_plus_in_uri s) (cu_quoted_uri s).

(** The label [args]: the arguments end at the first "#". *)
Fixpoint cu_cut_fragment (l : list Z) : list Z :=
  match l with
  | [] => []
  | c :: l' => if c =? ch("#") then [] else c :: cu_cut_fragment l'
  end.

(** [None] is NGX_HTTP_PARSE_INVALID_REQUEST. *)
Fixpoint cu_loop (merge_slashes : bool) (s : cu) (rest : list Z) : option uri_parts :=
  match rest with
  | [] => s' ← cu_finish s; Some (cu_parts s' None)
  | c :: rest' =>
      match cu_step merge_slashes s c with
      | CNext s' => cu_loop merge_slashes s' rest'
      | CArgs s' => Some (cu_parts s' (Some (cu_cut_fragment rest')))
      | CDone s' => Some (cu_parts s' None)
      | CInvalid => None
      end
  end.

(** [uri] is the text [uri_start .. uri_end). *)
Definition ngx_http_parse_complex_uri (empty_path_in_uri plus quoted merge_slashes : bool)
    (uri : list Z) : option uri_parts :=
  let out := if empty_path_in_uri then [ch("/")] else [] in
  cu_loop merge_slashes (MkCu (Base sw_usual) out None plus quoted) uri.

Example complex_uri_ex :
  up_uri <$> ngx_http_parse_complex_uri false false false true str("/a/./b//%2e%2E/c%3Fd.txt?x#y")
  = Some str("/a/c?d.txt").
Proof. vm_compute. reflexivity. Qed.

(** ** Specification: decode, split at slashes, remove dot segments *)

(** The decoded path, up to a raw "?" or "#"; [None] when an escape is malformed,
    truncated or "%00". *)
Fixpoint decode_path (l : list Z) : option (list Z) :=
  match l with
  | [] => Some []
  | c :: l' =>
      if c =? ch("%") then
        match l' with
        | h1 :: h2 :: l'' =>
            d1 ← hex_digit h1; d2 ← hex_digit h2;
            if d1 * 16 + d2 =? 0 then None
            else r ← decode_path l''; Some (d1 * 16 + d2 :: r)
        | _ => None
        end
      else if (c =? ch("?")) || (c =? ch("#")) then Some []
      else r ← decode_path l'; Some (c :: r)
  end.

Fixpoint segments (l : list Z) : list Z * list (list Z) :=
  match l with
  | [] => ([], [])
  | c :: l' =>
      let '(s, ss) := segments l' in
      if c =? ch("/") then ([], s :: ss) else (c :: s, ss)
  end.

(** Close a segment that a slash follows; [stack] has the kept segments, the
    last one first. *)
Definition close_segment (merge : bool) (stack : list (list Z)) (s : list Z)
    : option (list (list Z)) :=
  if bool_decide (s = str(".")) then Some stack
  else if bool_decide (s = str("..")) then
    match stack with [] => None | _ :: st => Some st end
  else if merge && bool_decide (s = []) then Some stack
  else Some (s :: stack).

Definition render (stack : list (list Z)) (last : list Z) : list Z :=
  ch("/") :: concat (map (fun s => s ++ [ch("/")]) (rev stack)) ++ last.

(** The last segment: "." and ".." leave a trailing slash. *)
Definition close_last (stack : list (list Z)) (s : list Z) : option (list Z) :=
  if bool_decide (s = str(".")) then Some (render stack [])
  else if bool_decide (s = str("..")) then
    match stack with [] => None | _ :: st => Some (render st []) end
  else Some (render stack s).

Fixpoint normalise (merge : bool) (stack : list (list Z)) (s : list Z) (ss : list (list Z))
    : option (list Z) :=
  match ss with
  | [] => close_last stack s
  | s' :: ss' => st ← close_segment merge stack s; normalise merge st s' ss'
  end.

(** ** Refinement *)

(** The base state is the shape of the current segment. *)
Definition segment_state (s : list Z) : cu_base :=
  if bool_decide (s = []) then sw_slash
  else if bool_decide (s = str(".")) then sw_dot
  else if bool_decide (s = str("..")) then sw_dot_dot
  else sw_usual.

Fixpoint rrender (stack : list (list Z)) : list Z :=
  match stack with
  | [] => [ch("/")]
  | s :: st => ch("/") :: rev s ++ rrender st
  end.

Lemma rrender_rev stack :
  rev (rrender stack) = ch("/") :: concat (map (fun s => s ++ [ch("/")]) (rev stack)).
Proof.
  induction stack as [|s st IH]; [done|].
  cbn [rrender rev]. rewrite rev_app_distr, rev_involutive, IH, map_app, concat_app. cbn.
  by rewrite app_nil_r, <- app_assoc.
Qed.

Lemma rrender_spec stack last : rev (rev last ++ rrender stack) = render stack last.
Proof. by rewrite rev_app_distr, rev_involutive, rrender_rev. Qed.

(** The state [s] has written the kept segments and the current segment [cur]. *)
Definition cu_rel (s : cu) (stack : list (list Z)) (cur : list Z) : Prop :=
  cu_out s = rev cur ++ rrender stack
  /\ Forall (fun seg => ch("/") ∉ seg) stack /\ ch("/") ∉ cur.

Lemma find_slash_segment seg st :
  ch("/") ∉ seg -> cu_find_slash (rev seg ++ rrender st) = Some (rrender st).
Proof.
  intros Hs. assert (Hs' : ch("/") ∉ rev seg) by (by rewrite list_elem_of_In, <- in_rev, <- list_elem_of_In). revert Hs'. clear Hs.
  induction (rev seg) as [|c l IH]; intros Hs; cbn.
  - by destruct st.
  - apply not_elem_of_cons in Hs as [Hc Hs].
    destruct (Z.eqb_spec c 47); [congruence|]. by apply IH.
Qed.

(** Moving back over "/.." and the segment before it. *)
Lemma rewind_spec stack :
  Forall (fun seg => ch("/") ∉ seg) stack ->
  cu_rewind (rev str("..") ++ rrender stack)
  = match stack with [] => None | _ :: st => Some (rrender st) end.
Proof.
  intros Hs. unfold cu_rewind. destruct stack as [|s st]; [done|]. cbn [rrender rev app drop].
  apply Forall_cons_1 in Hs as [Hs _]. by apply find_slash_segment.
Qed.

Lemma segment_state_snoc cur c :
  c <> ch(".") -> segment_state (cur ++ [c]) = sw_usual.
Proof.
  intros Hc. unfold segment_state.
  rewrite !bool_decide_false; [done|..]; destruct cur as [|a [|b [|d cur]]]; cbn; congruence.
Qed.

Lemma segment_state_snoc_dot cur :
  segment_state (cur ++ [ch(".")])
  = match segment_state cur with
    | sw_slash => sw_dot | sw_dot => sw_dot_dot | _ => sw_usual end.
Proof.
  unfold segment_state. destruct cur as [|a [|b [|d cur]]]; cbn; try done;
    repeat case_bool_decide; simplify_eq; done.
Qed.

(** A character that is neither "%", "?" nor "#", in the state of [cur]. *)
Lemma base_step_char merge s stack cur c :
  cu_rel s stack cur -> cu_st s = Base (segment_state cur) ->
  c <> ch("%") -> c <> ch("?") -> c <> ch("#") -> c <> ch("/") ->
  exists s', cu_base_step merge (segment_state cur) s c = CNext s'
    /\ cu_rel s' stack (cur ++ [c]) /\ cu_st s' = Base (segment_state (cur ++ [c])).
Proof.
  intros (Ho & Hst & Hcur) Hs H1 H2 H3 H4.
  assert (Hrel : forall s', cu_out s' = c :: cu_out s -> cu_rel s' stack (cur ++ [c])).
  { intros s' Hs'. split_and!; [|done|].
    - by rewrite Hs', Ho, rev_app_distr.
    - rewrite elem_of_app, elem_of_cons, elem_of_nil. intuition congruence. }
  assert (Hst' : c = ch(".") \/ segment_state (cur ++ [c]) = sw_usual).
  { destruct (decide (c = 46)); [by left|right; by apply segment_state_snoc]. }
  apply Z.eqb_neq in H1, H2, H3, H4.
  destruct (c =? ch(".")) eqn:E.
  - apply Z.eqb_eq in E as ->. rewrite segment_state_snoc_dot.
    destruct (segment_state cur); eexists; (split; [reflexivity|]);
      (split; [apply Hrel|]); destruct s; cbn in *; try done.
  - destruct Hst' as [-> | ->]; [done|].
    destruct (segment_state cur); cbn [cu_base_step]; unfold cu_usual, cu_slash, cu_dot, cu_dot_dot;
      rewrite ?H1, ?H2, ?H3, ?H4, ?E; cbn [orb]; repeat case_if; eexists; (split; [reflexivity|]);
      (split; [apply Hrel|]); destruct s; cbn in *; done.
Qed.

Lemma cu_rel_nil s st :
  cu_out s = rrender st -> Forall (fun seg => ch("/") ∉ seg) st -> cu_rel s st [].
Proof. intros Ho Hst. split_and!; [done|done|apply not_elem_of_nil]. Qed.

(** A slash closes the current segment. *)
Lemma base_step_slash merge s stack cur :
  cu_rel s stack cur -> cu_st s = Base (segment_state cur) ->
  match close_segment merge stack cur with
  | Some st => exists s', cu_base_step merge (segment_state cur) s ch("/") = CNext s'
                 /\ cu_rel s' st [] /\ cu_st s' = Base sw_slash
  | None => cu_base_step merge (segment_state cur) s ch("/") = CInvalid
  end.
Proof.
  intros (Ho & Hst & Hcur) Hs. unfold close_segment, segment_state in *.
  destruct (decide (cur = [])) as [->|Hne].
  { rewrite !(bool_decide_false ([] = _ :: _)), (bool_decide_true ([] = [])) in * by done.
    rewrite andb_true_r. cbn. unfold cu_slash. destruct merge.
    - exists s. by destruct s.
    - eexists. split; [reflexivity|]. destruct s; cbn in *. split; [|done].
      apply cu_rel_nil; [by cbn; rewrite Ho|by constructor]. }
  rewrite (bool_decide_false (cur = [])) in * by done. rewrite andb_false_r.
  destruct (bool_decide_reflect (cur = [46])) as [->|].
  { eexists. split; [reflexivity|]. destruct s; cbn in *. subst.
    split; [by apply cu_rel_nil|done]. }
  destruct (bool_decide_reflect (cur = [46; 46])) as [->|].
  { cbn [cu_base_step]. unfold cu_dot_dot. cbn. rewrite Ho, rewind_spec by done.
    destruct stack as [|s0 st]; [done|]. eexists. split; [reflexivity|].
    apply Forall_cons_1 in Hst as [_ Hst]. destruct s; cbn in *.
    split; [by apply cu_rel_nil|done]. }
  eexists. split; [reflexivity|]. destruct s; cbn in *. split; [|done].
  apply cu_rel_nil; [by cbn; rewrite Ho|by constructor].
Qed.

(** The path ends, at the end of the URI or at a raw "?" or "#". *)
Lemma finish_spec s stack cur :
  cu_rel s stack cur -> cu_st s = Base (segment_state cur) ->
  (fun s' => rev (cu_out s')) <$> cu_finish s = close_last stack cur.
Proof.
  intros (Ho & Hst & Hcur) Hs. unfold cu_finish. rewrite Hs. unfold close_last, segment_state.
  destruct (decide (cur = [])) as [->|Hne].
  { rewrite !(bool_decide_false ([] = _ :: _)), (bool_decide_true ([] = [])) by done.
    cbn. by rewrite Ho, <- rrender_spec. }
  rewrite (bool_decide_false (cur = [])) by done.
  destruct (bool_decide_reflect (cur = [46])) as [->|].
  { destruct s; cbn in *. subst. cbn. by rewrite <- rrender_spec. }
  destruct (bool_decide_reflect (cur = [46; 46])) as [->|].
  { rewrite Ho, rewind_spec by done. destruct stack as [|s0 st]; [done|].
    destruct s; cbn. by rewrite <- rrender_spec. }
  cbn. by rewrite Ho, rrender_spec.
Qed.

Lemma base_step_end merge s stack cur c :
  cu_rel s stack cur -> cu_st s = Base (segment_state cur) -> c = ch("?") \/ c = ch("#") ->
  match close_last stack cur with
  | Some u => exists s', (cu_base_step merge (segment_state cur) s c = CArgs s'
                          \/ cu_base_step merge (segment_state cur) s c = CDone s')
                         /\ rev (cu_out s') = u
  | None => cu_base_step merge (segment_state cur) s c = CInvalid
  end.
Proof.
  intros Hrel Hs Hc. rewrite <- (finish_spec s stack cur Hrel Hs).
  unfold cu_finish. rewrite Hs.
  destruct (segment_state cur); cbn [cu_base_step].
  1,2,3: eexists; (split; [destruct Hc as [-> | ->]; [by left|by right]|]); done.
  destruct Hc as [-> | ->]; unfold cu_dot_dot; cbn; destruct (cu_rewind (cu_out s)); cbn; eauto.
Qed.

(** The two hexadecimal digits of an escape, read in the state of [cur]. *)
Lemma quoted_steps merge s b h1 h2 l :
  is_byte h1 -> is_byte h2 -> cu_st s = Quoted b ->
  match hex_digit h1, hex_digit h2 with
  | Some d1, Some d2 =>
      let x := d1 * 16 + d2 in
      exists s2, cu_out s2 = cu_out s /\ cu_st s2 = Base b /\
        cu_loop merge s (h1 :: h2 :: l)
        = if (x =? ch("%")) || (x =? ch("#")) || (x =? ch("?"))
          then cu_loop merge (put x (set_st (Base sw_usual) s2)) l
          else if x =? 0 then None else
          match cu_base_step merge b s2 x with
          | CNext s' => cu_loop merge s' l
          | CArgs s' => Some (cu_parts s' (Some (cu_cut_fragment l)))
          | CDone s' => Some (cu_parts s' None)
          | CInvalid => None
          end
  | _, _ => cu_loop merge s (h1 :: h2 :: l) = None
  end.
Proof.
  intros Hh1 Hh2 Hs.
  assert (Hq : cu_quoted_step b s h1
    = match hex_digit h1 with
      | Some d => CNext (set_st (QuotedSecond b d) (set_quoted s)) | None => CInvalid end).
  { unfold cu_quoted_step. destruct ((48 <=? h1) && (h1 <=? 57)) eqn:E.
    - unfold hex_digit. rewrite E. zbool. rewrite wrap_small by (unfold in_u; lia). done.
    - rewrite <- (hex_letter_fold h1 Hh1 E). case_if; [|done]. zbool.
      rewrite wrap_small by (unfold in_u; lia). done. }
  cbn [cu_loop]. unfold cu_step. rewrite Hs, !Hq.
  destruct (hex_digit h1) as [d1|] eqn:Ed1; [|done].
  apply hex_digit_range in Ed1. set (s1 := set_st _ _).
  assert (Hs1 : cu_st s1 = QuotedSecond b d1) by (by destruct s).
  rewrite Hs1. unfold cu_quoted_second.
  rewrite !Z.shiftl_mul_pow2 by lia. change (2 ^ 4) with 16.
  destruct ((48 <=? h2) && (h2 <=? 57)) eqn:E.
  - assert (Hd2 : hex_digit h2 = Some (h2 - 48)) by (unfold hex_digit; by rewrite E).
    rewrite Hd2. cbv zeta. set (x := d1 * 16 + (h2 - 48)) in *.
    exists (set_st (Base b) s1). zbool.
    rewrite wrap_small by (unfold in_u; lia). fold x.
    split; [by destruct s|]. split; [by destruct s|].
    assert (Hx : x =? ch("?") = false) by (apply Z.eqb_neq; unfold x; lia).
    rewrite Hx, orb_false_r. unfold s1. repeat case_if; destruct s; done.
  - rewrite <- (hex_letter_fold h2 Hh2 E). case_if; [|done]. zbool.
    set (l2 := u8 (Z.lor h2 32)) in *. rewrite wrap_small by (unfold in_u; lia).
    replace (d1 * 16 + (l2 - 97) + 10) with (d1 * 16 + (l2 - 97 + 10)) by lia.
    cbv zeta. set (x := d1 * 16 + (l2 - 97 + 10)) in *.
    exists (set_st (Base b) (if x =? ch("+") then set_plus s1 else s1)).
    split; [unfold s1; by case_if; destruct s|]. split; [unfold s1; by case_if; destruct s|].
    assert (Hx : (x =? ch("%")) = false /\ (x =? ch("#")) = false /\ (x =? 0) = false)
      by (unfold x; split_and!; apply Z.eqb_neq; lia).
    destruct Hx as (-> & -> & ->). cbn [orb]. unfold s1.
    destruct (Z.eqb_spec x 63), (Z.eqb_spec x 43); try congruence; destruct s; done.
Qed.

Lemma normalise_cons merge stack cur c l s ss :
  segments l = (s, ss) ->
  normalise merge stack (cur ++ (segments (c :: l)).1) (segments (c :: l)).2
  = if c =? ch("/") then st ← close_segment merge stack cur; normalise merge st s ss
    else normalise merge stack ((cur ++ [c]) ++ s) ss.
Proof.
  intros E. cbn. rewrite E. destruct (c =? 47); cbn; [by rewrite app_nil_r|by rewrite <- app_assoc].
Qed.

(** The induction step of the refinement: [IH] is the claim for shorter inputs. *)
Section LoopStep.
Context (merge : bool) (n : nat).
Context (IH : forall l s stack cur,
  (length l <= n)%nat -> bytes_ok l -> cu_rel s stack cur -> cu_st s = Base (segment_state cur) ->
  up_uri <$> cu_loop merge s l
  = p ← decode_path l; normalise merge stack (cur ++ (segments p).1) (segments p).2).
Context (stack : list (list Z)) (cur : list Z).

(** What the rest of the loop makes of an iteration. *)
Definition cu_after (o : cu_outcome) (l : list Z) : option uri_parts :=
  match o with
  | CNext s' => cu_loop merge s' l
  | CArgs s' => Some (cu_parts s' (Some (cu_cut_fragment l)))
  | CDone s' => Some (cu_parts s' None)
  | CInvalid => None
  end.

(** The specification when the decoded path goes on with [c]. *)
Definition spec_after (c : Z) (l : list Z) : option (list Z) :=
  p ← (r ← decode_path l; Some (c :: r));
  normalise merge stack (cur ++ (segments p).1) (segments p).2.

Lemma after_char s c l :
  (length l <= n)%nat -> bytes_ok l -> c <> ch("/") ->
  cu_rel s stack (cur ++ [c]) -> cu_st s = Base (segment_state (cur ++ [c])) ->
  up_uri <$> cu_loop merge s l = spec_after c l.
Proof.
  intros Hl Hb Hc Hr Hs. rewrite (IH _ _ _ _ Hl Hb Hr Hs). unfold spec_after.
  destruct (decode_path l) as [p|]; [cbn [mbind option_bind]|done].
  destruct (segments p) as [sg ss] eqn:E. rewrite (normalise_cons _ _ _ _ _ _ _ E).
  by rewrite (proj2 (Z.eqb_neq c 47) Hc).
Qed.

Lemma after_slash s l :
  (length l <= n)%nat -> bytes_ok l -> cu_rel s stack cur -> cu_st s = Base (segment_state cur) ->
  up_uri <$> cu_after (cu_base_step merge (segment_state cur) s ch("/")) l = spec_after ch("/") l.
Proof.
  intros Hl Hb Hr Hs. pose proof (base_step_slash merge s stack cur Hr Hs) as Hsl.
  unfold spec_after, cu_after.
  assert (Hsp : forall p, normalise merge stack (cur ++ (segments (47 :: p)).1) (segments (47 :: p)).2
    = st ← close_segment merge stack cur; normalise merge st (segments p).1 (segments p).2).
  { intros p. destruct (segments p) as [sg ss] eqn:E. by rewrite (normalise_cons _ _ _ _ _ _ _ E). }
  destruct (close_segment merge stack cur) as [st|].
  - destruct Hsl as (s' & -> & Hr' & Hs'). rewrite (IH _ _ _ _ Hl Hb Hr' Hs').
    destruct (decode_path l) as [p|]; [cbn [mbind option_bind]|done]. by rewrite Hsp.
  - rewrite Hsl. destruct (decode_path l) as [p|]; [cbn [mbind option_bind]|done]. by rewrite Hsp.
Qed.

(** A decoded or raw character that does not end the path. *)
Lemma after_any s c l :
  (length l <= n)%nat -> bytes_ok l -> cu_rel s stack cur -> cu_st s = Base (segment_state cur) ->
  c <> ch("%") -> c <> ch("?") -> c <> ch("#") ->
  up_uri <$> cu_after (cu_base_step merge (segment_state cur) s c) l = spec_after c l.
Proof.
  intros Hl Hb Hr Hs H1 H2 H3.
  destruct (Z.eqb_spec c ch("/")) as [->|Hsl]; [by apply after_slash|].
  destruct (base_step_char merge s stack cur c) as (s' & -> & Hr' & Hs'); try done.
  by apply after_char.
Qed.

(** An escape sequence. *)
Lemma after_escape s h1 h2 l :
  (length l <= n)%nat -> bytes_ok l -> is_byte h1 -> is_byte h2 ->
  cu_out s = rev cur ++ rrender stack -> cu_rel s stack cur ->
  cu_st s = Quoted (segment_state cur) ->
  up_uri <$> cu_loop merge s (h1 :: h2 :: l)
  = d1 ← hex_digit h1; d2 ← hex_digit h2;
    if d1 * 16 + d2 =? 0 then None else spec_after (d1 * 16 + d2) l.
Proof.
  intros Hl Hb H1 H2 Ho Hr Hs.
  pose proof (quoted_steps merge s (segment_state cur) h1 h2 l H1 H2 Hs) as Hqs.
  destruct (hex_digit h1) as [d1|]; [|by rewrite Hqs].
  destruct (hex_digit h2) as [d2|]; [|by rewrite Hqs]. cbv zeta in Hqs.
  destruct Hqs as (s2 & Ho2 & Hs2 & ->). cbn [mbind option_bind].
  set (x := d1 * 16 + d2) in *.
  assert (Hr2 : cu_rel s2 stack cur) by (unfold cu_rel in *; by rewrite Ho2).
  destruct ((x =? 37) || (x =? 35) || (x =? 63)) eqn:Ex.
  - assert (Hx : x = 37 \/ x = 35 \/ x = 63).
    { destruct (Z.eqb_spec x 37), (Z.eqb_spec x 35), (Z.eqb_spec x 63); auto; done. }
    rewrite (proj2 (Z.eqb_neq x 0)) by lia. apply after_char; [done|done|lia| |].
    + destruct Hr2 as (Hr2 & ? & ?). split_and!; [|done|].
      * rewrite rev_app_distr. cbn. rewrite <- Hr2. by destruct s2.
      * rewrite elem_of_app, elem_of_cons, elem_of_nil. intuition lia.
    + rewrite segment_state_snoc by lia. by destruct s2.
  - apply orb_false_elim in Ex as [Ex Ex3]. apply orb_false_elim in Ex as [Ex1 Ex2].
    apply Z.eqb_neq in Ex1, Ex2, Ex3.
    destruct (x =? 0); [done|]. by apply after_any.
Qed.
End LoopStep.

(** The loop, from any point inside a segment, computes the specification. *)
Lemma cu_loop_spec merge n l s stack cur :
  (length l <= n)%nat -> bytes_ok l ->
  cu_rel s stack cur -> cu_st s = Base (segment_state cur) ->
  up_uri <$> cu_loop merge s l
  = p ← decode_path l; normalise merge stack (cur ++ (segments p).1) (segments p).2.
Proof.
  revert l s stack cur. induction n as [|n IH]; intros [|c l] s stack cur Hn Hl Hrel Hs;
    cbn [length] in Hn; try lia.
  1,2: cbn; rewrite app_nil_r, <- (finish_spec s) by done; by destruct (cu_finish s).
  apply Forall_cons_1 in Hl as [Hc Hl].
  destruct (Z.eqb_spec c ch("%")) as [->|Hpct].
  - assert (Hq : cu_loop merge s (37 :: l)
      = cu_loop merge (set_st (Quoted (segment_state cur)) s) l).
    { cbn [cu_loop]. unfold cu_step. rewrite Hs. by destruct (segment_state cur). }
    rewrite Hq. set (sq := set_st _ s).
    assert (Hsq : cu_st sq = Quoted (segment_state cur) /\ cu_rel sq stack cur) by (by destruct s).
    destruct Hsq as [Hsq Hrq].
    destruct l as [|h1 [|h2 l2]].
    + cbn. unfold cu_finish. by rewrite Hsq.
    + cbn [cu_loop decode_path]. unfold cu_step. rewrite Hsq. unfold cu_quoted_step, cu_finish.
      repeat case_if; destruct sq; done.
    + bytes_inv. cbn [length] in Hn.
      rewrite (after_escape merge n IH stack cur) by (done || lia || apply Hrq).
      cbn [decode_path]. change (37 =? 37) with true. cbv iota. unfold spec_after.
      destruct (hex_digit h1); [cbn [mbind option_bind]|done].
      destruct (hex_digit h2); [cbn [mbind option_bind]|done]. by case_if.
  - cbn [cu_loop decode_path]. unfold cu_step. rewrite Hs.
    rewrite (proj2 (Z.eqb_neq c 37) Hpct).
    destruct ((c =? ch("?")) || (c =? ch("#"))) eqn:E.
    + assert (Hc' : c = 63 \/ c = 35).
      { apply orb_prop in E as [E|E]; apply Z.eqb_eq in E; auto. }
      pose proof (base_step_end merge s stack cur c Hrel Hs Hc') as Hend. cbn. rewrite app_nil_r.
      destruct (close_last stack cur); [|by rewrite Hend].
      destruct Hend as (s' & [-> | ->] & <-); done.
    + apply orb_false_elim in E as [E1 E2]. apply Z.eqb_neq in E1, E2.
      apply (after_any merge n IH stack cur s c l); done || lia.
Qed.

Lemma complex_uri_spec plus quoted merge l :
  bytes_ok l ->
  up_uri <$> ngx_http_parse_complex_uri false plus quoted merge (ch("/") :: l)
  = p ← decode_path l; normalise merge [] (segments p).1 (segments p).2.
Proof.
  intros Hl. unfold ngx_http_parse_complex_uri. cbn [cu_loop]. unfold cu_step. cbn.
  apply (cu_loop_spec merge (length l) l _ [] []); [done|done|by apply cu_rel_nil|done].
Qed.

(** ** Safety of the normalised path *)

(** A segment that may stay in the path. *)
Definition safe_segment (s : list Z) : Prop :=
  ch("/") ∉ s /\ 0 ∉ s /\ s <> str(".") /\ s <> str("..").

Definition kept_segment (merge : bool) (s : list Z) : Prop :=
  safe_segment s /\ (merge = true -> s <> []).

Definition seg_weight (ss : list (list Z)) : nat := sum_list_with (fun s => S (length s)) ss.

Lemma decode_path_props n l p :
  (length l <= n)%nat -> 0 ∉ l -> decode_path l = Some p -> 0 ∉ p /\ (length p <= length l)%nat.
Proof.
  revert l p. induction n as [|n IH]; intros [|c l] p Hn H0 Hp; cbn [length] in *; try lia.
  1,2: simplify_eq/=; split; [apply not_elem_of_nil|done].
  apply not_elem_of_cons in H0 as [Hc H0]. cbn [decode_path] in Hp.
  destruct (c =? 37).
  - destruct l as [|h1 [|h2 l]]; [done..|]. cbn [length] in *.
    apply not_elem_of_cons in H0 as [_ H0]. apply not_elem_of_cons in H0 as [_ H0].
    destruct (hex_digit h1) as [d1|]; [|done]. destruct (hex_digit h2) as [d2|]; [|done].
    cbn [mbind option_bind] in Hp. case_if_in Hp; [done|].
    destruct (decode_path l) as [r|] eqn:E'; [|done]. simplify_eq/=. zbool.
    destruct (IH l r ltac:(lia) H0 E'). rewrite not_elem_of_cons. split; [|lia]. split; [lia|done].
  - case_if_in Hp; [simplify_eq/=; split; [apply not_elem_of_nil|lia]|].
    destruct (decode_path l) as [r|] eqn:E'; [|done]. simplify_eq/=.
    destruct (IH l r ltac:(lia) H0 E'). rewrite not_elem_of_cons. split; [done|lia].
Qed.

Lemma segments_props p :
  0 ∉ p ->
  Forall (fun s => ch("/") ∉ s /\ 0 ∉ s) ((segments p).1 :: (segments p).2)
  /\ (length (segments p).1 + seg_weight (segments p).2 = length p)%nat.
Proof.
  induction p as [|c p IH]; intros H0.
  { split; [|done]. repeat constructor; apply not_elem_of_nil. }
  apply not_elem_of_cons in H0 as [Hc H0]. destruct (IH H0) as [IH1 IH2]. cbn [segments].
  destruct (segments p) as [s ss]. cbn [fst snd] in *. destruct (Z.eqb_spec c 47); cbn [fst snd].
  - split; [|cbn; unfold seg_weight in *; lia]. constructor; [|done]. split; apply not_elem_of_nil.
  - apply Forall_cons_1 in IH1 as [[? ?] ?]. split; [|cbn; lia].
    constructor; [|done]. rewrite !not_elem_of_cons. split; split; congruence || done.
Qed.

Lemma render_length stack last :
  length (render stack last) = S (seg_weight stack + length last)%nat.
Proof.
  unfold render. cbn [length]. f_equal. rewrite length_app. f_equal.
  induction stack as [|s st IH]; [done|]. cbn [rev].
  rewrite map_app, concat_app, length_app, IH. cbn. rewrite app_nil_r, length_app. cbn.
  unfold seg_weight. cbn. lia.
Qed.

Lemma close_segment_safe merge stack s st :
  Forall (kept_segment merge) stack -> ch("/") ∉ s -> 0 ∉ s ->
  close_segment merge stack s = Some st ->
  Forall (kept_segment merge) st /\ (seg_weight st <= seg_weight stack + S (length s))%nat.
Proof.
  unfold close_segment. intros Hst Hs H0 H. repeat case_bool_decide; simplify_eq.
  - split; [done|]. lia.
  - destruct stack as [|x stack]; simplify_eq. apply Forall_cons_1 in Hst as [_ ?].
    split; [done|]. unfold seg_weight. cbn. lia.
  - rewrite andb_true_r in H. destruct merge; simplify_eq; (split; [|unfold seg_weight; cbn; lia]); [done|].
    constructor; [|done]. by split.
  - rewrite andb_false_r in H. simplify_eq. split; [|unfold seg_weight; cbn; lia].
    constructor; [|done]. by split.
Qed.

Lemma normalise_safe merge stack s ss u :
  Forall (kept_segment merge) stack -> Forall (fun s => ch("/") ∉ s /\ 0 ∉ s) (s :: ss) ->
  normalise merge stack s ss = Some u ->
  exists st last, u = render st last /\ Forall (kept_segment merge) st /\ safe_segment last
    /\ (length u <= S (seg_weight stack + length s + seg_weight ss))%nat.
Proof.
  revert stack s. induction ss as [|s' ss IH]; intros stack s Hst Hs Hu;
    apply Forall_cons_1 in Hs as [[Hs H0] Hss]; cbn [normalise] in Hu.
  - assert (Hnil : safe_segment []) by (split_and!; done || apply not_elem_of_nil).
    unfold close_last in Hu. repeat case_bool_decide; simplify_eq.
    + exists stack, []. rewrite render_length. split_and!; try done. cbn. lia.
    + destruct stack as [|x stack]; simplify_eq. apply Forall_cons_1 in Hst as [_ ?].
      exists stack, []. rewrite render_length. split_and!; try done. unfold seg_weight. cbn. lia.
    + exists stack, s. rewrite render_length. split_and!; try done. lia.
  - destruct (close_segment merge stack s) as [st|] eqn:E; [|done]. cbn in Hu.
    destruct (close_segment_safe _ _ _ _ Hst Hs H0 E) as [Hst' Hw].
    destruct (IH st s' Hst' Hss Hu) as (st' & last & ? & ? & ? & ?).
    exists st', last. split_and!; try done. unfold seg_weight in *. cbn. lia.
Qed.

(** C2. The path a request is served from stays below the root: whenever
    ngx_http_parse_complex_uri accepts a URI "/..." without a raw NUL byte, the path
    it produces is "/" followed by segments none of which is "." or "..", contains a
    slash or a NUL byte, or (when slashes are merged) is empty before the last one;
    and it is never longer than the URI, so the writes through [u] stay in the
    buffer. *)
Theorem complex_uri_safe (plus quoted merge : bool) (l : list Z) (up : uri_parts)
    (Hl : bytes_ok l) (H0 : 0 ∉ l)
    (Hup : ngx_http_parse_complex_uri false plus quoted merge (ch("/") :: l) = Some up) :
  exists st last, up_uri up = render st last
    /\ Forall (kept_segment merge) st /\ safe_segment last
    /\ (length (up_uri up) <= length (ch("/") :: l))%nat.
Proof.
  pose proof (complex_uri_spec plus quoted merge l Hl) as Hspec. rewrite Hup in Hspec. cbn in Hspec.
  destruct (decode_path l) as [p|] eqn:Ep; [|done]. cbn in Hspec.
  destruct (decode_path_props (length l) l p) as [Hp Hlen]; try done.
  destruct (segments_props p Hp) as [Hs Hw].
  destruct (normalise_safe merge [] _ _ (up_uri up) (List.Forall_nil _) Hs (eq_sym Hspec))
    as (st & last & ? & ? & ? & Hb).
  exists st, last. split_and!; try done. cbn in *. lia.
Qed.

Lemma complex_uri_safe_witness :
  exists up st last,
    ngx_http_parse_complex_uri false false false true str("/a/..//%2e/b") = Some up
    /\ up_uri up = render st last /\ Forall (kept_segment true) st /\ safe_segment last.
Proof.
  destruct (complex_uri_safe false false true str("a/..//%2e/b") (MkParts str("/b") None None false true))
    as (st & last & H1 & H2 & H3 & _).
  - repeat constructor; unfold is_byte; lia.
  - rewrite list_elem_of_In. cbn. intuition discriminate.
  - reflexivity.
  - exists (MkParts str("/b") None None false true), st, last. split_and!; [reflexivity|done|done|done..].
Defined.

(** C1. For every URI that starts with "/", ngx_http_parse_complex_uri computes
    its specification: the path is percent-decoded up to a raw "?" or "#", split
    at slashes (decoded ones included), "." segments are dropped, ".." removes the
    segment before it, and empty segments are dropped when slashes are merged; the
    request is rejected exactly when an escape is malformed or "%00", or when ".."
    climbs above the root. *)
Theorem complex_uri_refines (plus quoted merge : bool) (l : list Z) (Hl : bytes_ok l) :
  up_uri <$> ngx_http_parse_complex_uri false plus quoted merge (ch("/") :: l)
  = p ← decode_path l; normalise merge [] (segments p).1 (segments p).2.
Proof.
  by apply complex_uri_spec.
Qed.

Lemma complex_uri_refines_witness :
  up_uri <$> ngx_http_parse_complex_uri false false false true str("/a/%2e./b%2Fc") = Some str("/b/c")
  /\ ngx_http_parse_complex_uri false false false true str("/../etc/passwd") = None.
Proof.
  pose proof (complex_uri_refines false false true str("a/%2e./b%2Fc")
    ltac:(repeat constructor; unfold is_byte; lia)) as H1.
  pose proof (complex_uri_refines false false true str("../etc/passwd")
    ltac:(repeat constructor; unfold is_byte; lia)) as H2.
  split; [rewrite H1; reflexivity|].
  destruct (ngx_http_parse_complex_uri false false false true str("/../etc/passwd")); [|reflexivity].
  vm_compute in H2. discriminate H2.
Defined.
