(* ===== verification/HttpChunked.v ===== *)
(** * Chunked request bodies: ngx_http_parse_chunked of src/http/ngx_http_parse.c
    and ngx_http_request_body_chunked_filter of src/http/ngx_http_request_body.c

    The parser eats the bytes of a buffer; [b->pos .. b->last) is the list of the
    bytes that are left.  The filter runs it over every buffer of a chain and cuts
    the chunk data out of the buffer memory: short chunks are moved to the end of
    the previous output buffer, so the memory of the buffer is part of the state.
    Allocations succeed, and the chain handed to the next body filter is the
    result. *)

From S2P Require Import Prelude NgxNumber HttpRequestLine.

Definition NGX_MAX_OFF_T_VALUE : Z := 9223372036854775807.

Inductive ck_state :=
| sw_chunk_start | sw_chunk_size | sw_chunk_extension | sw_chunk_extension_almost_done
| sw_chunk_data | sw_after_data | sw_after_data_almost_done
| sw_last_chunk_extension | sw_last_chunk_extension_almost_done
| sw_trailer | sw_trailer_almost_done | sw_trailer_header | sw_trailer_header_almost_done.

#[global] Instance ck_state_eq_dec : EqDecision ck_state.
Proof. solve_decision. Defined.

(** ngx_http_chunked_t *)
Record chunked := MkChunked { ck_st : ck_state; ck_size : Z; ck_length : Z }.

Definition new_chunked : chunked := MkChunked sw_chunk_start 0 0.

(** One byte: go on, [goto data] with NGX_OK, [goto done], or [goto invalid]. *)
Inductive ck_outcome :=
| KNext (st : ck_state) (size : Z)
| KData
| KDone
| KInvalid.

Definition ck_chunk_start (size c : Z) : ck_outcome :=
  if (ch("0") <=? c) && (c <=? ch("9")) then KNext sw_chunk_size (c - ch("0"))
  else
    let l := u8 (Z.lor c 0x20) in
    if (ch("a") <=? l) && (l <=? ch("f")) then KNext sw_chunk_size (l - ch("a") + 10)
    else KInvalid.

(** The byte after the size: [ext] and [almost] are the states of an extension
    and of the line end. *)
Definition ck_size_end (ext almost : ck_state) (size c : Z) : ck_outcome :=
  if c =? CR then KNext almost size
  else if (c =? ch(";")) || (c =? ch(" ")) || (c =? 9) then KNext ext size
  else KInvalid.

Definition ck_chunk_size (size c : Z) : ck_outcome :=
  if NGX_MAX_OFF_T_VALUE / 16 <? size then KInvalid
  else if (ch("0") <=? c) && (c <=? ch("9")) then
    KNext sw_chunk_size (size * 16 + (c - ch("0")))
  else
    let l := u8 (Z.lor c 0x20) in
    if (ch("a") <=? l) && (l <=? ch("f")) then
      KNext sw_chunk_size (size * 16 + (l - ch("a") + 10))
    else if size =? 0 then
      ck_size_end sw_last_chunk_extension sw_last_chunk_extension_almost_done size c
    else ck_size_end sw_chunk_extension sw_chunk_extension_almost_done size c.

(** A line whose CR leads to [almost] and that stays in [self] before it. *)
Definition ck_line (self almost : ck_state) (size c : Z) : ck_outcome :=
  if c =? CR then KNext almost size
  else if c =? LF then KInvalid
  else KNext self size.

Definition ck_expect_lf (next : ck_state) (size c : Z) : ck_outcome :=
  if c =? LF then KNext next size else KInvalid.

Definition ck_after_data (size c : Z) : ck_outcome :=
  if c =? CR then KNext sw_after_data_almost_done size else KInvalid.

Definition ck_last_almost_done (keep_trailers : bool) (size c : Z) : ck_outcome :=
  if c =? LF then if keep_trailers then KDone else KNext sw_trailer size
  else KInvalid.

Definition ck_trailer (size c : Z) : ck_outcome :=
  if c =? CR then KNext sw_trailer_almost_done size
  else if c =? LF then KInvalid
  else KNext sw_trailer_header size.

Definition ck_trailer_almost_done (c : Z) : ck_outcome :=
  if c =? LF then KDone else KInvalid.

Definition ck_step (keep_trailers : bool) (st : ck_state) (size c : Z) : ck_outcome :=
  match st with
  | sw_chunk_start => ck_chunk_start size c
  | sw_chunk_size => ck_chunk_size size c
  | sw_chunk_extension => ck_line sw_chunk_extension sw_chunk_extension_almost_done size c
  | sw_chunk_extension_almost_done => ck_expect_lf sw_chunk_data size c
  | sw_chunk_data => KData
  | sw_after_data => ck_after_data size c
  | sw_after_data_almost_done => ck_expect_lf sw_chunk_start size c
  | sw_last_chunk_extension =>
      ck_line sw_last_chunk_extension sw_last_chunk_extension_almost_done size c
  | sw_last_chunk_extension_almost_done => ck_last_almost_done keep_trailers size c
  | sw_trailer => ck_trailer size c
  | sw_trailer_almost_done => ck_trailer_almost_done c
  | sw_trailer_header => ck_line sw_trailer_header sw_trailer_header_almost_done size c
  | sw_trailer_header_almost_done => ck_expect_lf sw_trailer size c
  end.

(** The switch after the label [data]: the least number of bytes to come. *)
Definition ck_min_length (st : ck_state) (size : Z) : Z :=
  match st with
  | sw_chunk_start => 5
  | sw_chunk_size => 2 + (if size =? 0 then 2 else size + 7)
  | sw_chunk_extension => 2 + size + 7
  | sw_chunk_extension_almost_done => 1 + size + 7
  | sw_chunk_data => size + 7
  | sw_after_data => 7
  | sw_after_data_almost_done => 6
  | sw_last_chunk_extension => 4
  | sw_last_chunk_extension_almost_done => 3
  | sw_trailer => 2
  | sw_trailer_almost_done => 1
  | sw_trailer_header => 4
  | sw_trailer_header_almost_done => 3
  end.

(** The label [data]. *)
Definition ck_data (rc length0 : Z) (st : ck_state) (size : Z)
    (rest : list Z) : Z * chunked * list Z :=
  if NGX_MAX_OFF_T_VALUE - 9 <? size then (NGX_ERROR, MkChunked st size length0, rest)
  else (rc, MkChunked st size (ck_min_length st size), rest).

Fixpoint ck_loop (keep_trailers : bool) (ctx : chunked) (rest0 : list Z)
    (st : ck_state) (size : Z) (rest : list Z) : Z * chunked * list Z :=
  match rest with
  | [] => ck_data NGX_AGAIN (ck_length ctx) st size []
  | c :: rest' =>
      match ck_step keep_trailers st size c with
      | KNext st' size' => ck_loop keep_trailers ctx rest0 st' size' rest'
      | KData => ck_data NGX_OK (ck_length ctx) st size rest
      | KDone => (NGX_DONE, MkChunked sw_chunk_start size (ck_length ctx), rest')
      | KInvalid => (NGX_ERROR, MkChunked (ck_st ctx) size (ck_length ctx), rest0)
      end
  end.

(** The state in which the function starts. *)
Definition ck_enter (st : ck_state) (size : Z) : ck_state :=
  match st with
  | sw_chunk_data => if size =? 0 then sw_after_data else st
  | _ => st
  end.

Definition ngx_http_parse_chunked (ctx : chunked) (rest : list Z) (keep_trailers : bool)
    : Z * chunked * list Z :=
  ck_loop keep_trailers ctx rest (ck_enter (ck_st ctx) (ck_size ctx)) (ck_size ctx) rest.

(** ** The body filter *)

Definition NGX_HTTP_BAD_REQUEST : Z := 400.
Definition NGX_HTTP_REQUEST_ENTITY_TOO_LARGE : Z := 413.

(** The filter inside one input buffer: its memory [fb_mem] ([cl->buf->last] is its
    end), [cl->buf->pos], the parser context, [content_length_n], and the
    output buffers [b->pos .. b->last) cut from it, the latest one first; [b] is the
    head of that list. *)
Record fbuf := MkFbuf {
  fb_mem : list Z;
  fb_pos : nat;
  fb_ctx : chunked;
  fb_len : Z;
  fb_outs : list (nat * nat);
}.

Definition poke (mem : list Z) (i : nat) (v : Z) : list Z := <[i := v]> mem.

(** [while (size) { *b->last++ = *pos++; size--; }] *)
Fixpoint copy_bytes (n : nat) (mem : list Z) (dst src : nat) : list Z :=
  match n with
  | O => mem
  | S n' => copy_bytes n' (poke mem dst (nth src mem 0)) (S dst) (S src)
  end.

Definition ngx_memmove (mem : list Z) (dst src n : nat) : list Z :=
  take dst mem ++ take n (drop src mem) ++ drop (dst + n) mem.

Definition set_ck_size (size : Z) (c : chunked) : chunked :=
  MkChunked (ck_st c) size (ck_length c).

(** The NGX_OK branch: take the data of the chunk at [pos]. *)
Definition take_chunk (f : fbuf) : fbuf :=
  let '(MkFbuf mem pos ctx len outs) := f in
  let size := ck_size ctx in
  let avail := Z.of_nat (length mem) - Z.of_nat pos in
  let n := Z.to_nat size in
  match outs with
  | (s, e) :: outs' =>
      if (size <=? 128) && (size <=? avail) then
        let mem' := if size <? 8 then copy_bytes n mem e pos else ngx_memmove mem e pos n in
        MkFbuf mem' (pos + n) (set_ck_size 0 ctx) (len + size) ((s, e + n)%nat :: outs')
      else if size <? avail then
        MkFbuf mem (pos + n) (set_ck_size 0 ctx) (len + size) ((pos, pos + n)%nat :: outs)
      else
        MkFbuf mem (length mem) (set_ck_size (size - avail) ctx) (len + avail)
          ((pos, length mem) :: outs)
  | [] =>
      if size <? avail then
        MkFbuf mem (pos + n) (set_ck_size 0 ctx) (len + size) [(pos, pos + n)%nat]
      else
        MkFbuf mem (length mem) (set_ck_size (size - avail) ctx) (len + avail)
          [(pos, length mem)]
  end.

(** How the inner loop is left: NGX_DONE, NGX_AGAIN, or the error response. *)
Inductive fb_result :=
| FDone (f : fbuf)
| FAgain (f : fbuf)
| FFail (status : Z).

(** The inner [for ( ;; )]; every NGX_OK turn takes at least one byte, so
    [S (length mem)] turns are enough. *)
Fixpoint filter_buf (max : Z) (fuel : nat) (f : fbuf) : option fb_result :=
  match fuel with
  | O => None
  | S fuel' =>
      let '(rc, ctx, rest) := ngx_http_parse_chunked (fb_ctx f) (drop (fb_pos f) (fb_mem f)) false in
      let f' := MkFbuf (fb_mem f) (length (fb_mem f) - length rest) ctx (fb_len f) (fb_outs f) in
      if rc =? NGX_OK then
        if negb (max =? 0) && (max - fb_len f <? ck_size ctx)
        then Some (FFail NGX_HTTP_REQUEST_ENTITY_TOO_LARGE)
        else filter_buf max fuel' (take_chunk f')
      else if rc =? NGX_DONE then Some (FDone f')
      else if rc =? NGX_AGAIN then Some (FAgain f')
      else Some (FFail NGX_HTTP_BAD_REQUEST)
  end.

(** The bytes of the output buffers, in order. *)
Definition out_data (mem : list Z) (outs : list (nat * nat)) : list Z :=
  concat (map (fun '(s, e) => take (e - s) (drop s mem)) (rev outs)).

(** The request body state between calls, and the bytes handed on. *)
Record body := MkBody {
  bd_ctx : chunked;
  bd_content_length_n : Z;
  bd_rest : Z;
  bd_out : list Z;
  bd_last_buf : bool;          (** a buffer with [last_buf] was handed on *)
  bd_unread : list Z;          (** what is left of the last buffer *)
}.

Definition new_body : body := MkBody new_chunked 0 (-1) [] false [].

(** The loop over the chain; [inr status] is an error response. *)
Fixpoint chunked_filter_loop (max header_size : Z) (r : body) (chain : list (list Z))
    : option (body + Z) :=
  match chain with
  | [] => Some (inl r)
  | mem :: chain' =>
      res ← filter_buf max (S (length mem)) (MkFbuf mem 0 (bd_ctx r) (bd_content_length_n r) []);
      match res with
      | FDone f =>
          chunked_filter_loop max header_size
            (MkBody (fb_ctx f) (fb_len f) 0 (bd_out r ++ out_data (fb_mem f) (fb_outs f)) true
               (drop (fb_pos f) (fb_mem f))) chain'
      | FAgain f =>
          chunked_filter_loop max header_size
            (MkBody (fb_ctx f) (fb_len f) (Z.max (ck_length (fb_ctx f)) header_size)
               (bd_out r ++ out_data (fb_mem f) (fb_outs f)) (bd_last_buf r)
               (drop (fb_pos f) (fb_mem f))) chain'
      | FFail status => Some (inr status)
      end
  end.

Definition ngx_http_request_body_chunked_filter (max header_size : Z) (r : body)
    (chain : list (list Z)) : option (body + Z) :=
  let r := if bd_rest r =? -1
           then MkBody new_chunked 0 header_size (bd_out r) (bd_last_buf r) (bd_unread r) else r in
  chunked_filter_loop max header_size r chain.

Example chunked_ex :
  (fun x => match x with
            | Some (inl r) => Some (bd_out r, bd_last_buf r, bd_unread r, bd_content_length_n r)
            | _ => None end)
    (ngx_http_request_body_chunked_filter 0 1024 new_body
       [ str("5;x") ++ [13;10] ++ str("hel"); str("lo") ++ [13;10] ++ str("3") ++ [13;10] ++ str("abc")
           ++ [13;10] ++ str("2") ++ [13;10] ++ str("de") ++ [13;10] ++ str("0") ++ [13;10;13;10] ++ str("GET") ])
  = Some (str("helloabcde"), true, str("GET"), 10).
Proof. vm_compute. reflexivity. Qed.

(** ** The byte machine

    What the parser and the filter do together to a stream of bytes, one byte at a
    time: the data of a chunk is passed through, every other byte is a step of the
    parser. *)

Inductive crun :=
| RMore (st : ck_state) (size : Z) (data : list Z)
| RDone (data rest : list Z)
| RErr.

Definition add_data (d : list Z) (r : crun) : crun :=
  match r with
  | RMore st size data => RMore st size (d ++ data)
  | RDone data rest => RDone (d ++ data) rest
  | RErr => RErr
  end.

Fixpoint ck_run (st : ck_state) (size : Z) (w : list Z) : crun :=
  match w with
  | [] => if NGX_MAX_OFF_T_VALUE - 9 <? size then RErr else RMore (ck_enter st size) size []
  | c :: w' =>
      match ck_step false (ck_enter st size) size c with
      | KNext st' size' => ck_run st' size' w'
      | KData => add_data [c] (ck_run sw_chunk_data (size - 1) w')
      | KDone => RDone [] w'
      | KInvalid => RErr
      end
  end.

(** The reachable contexts. *)
Definition ck_inv (st : ck_state) (size : Z) : Prop :=
  match st with
  | sw_chunk_size => 0 <= size <= NGX_MAX_OFF_T_VALUE
  | sw_chunk_extension | sw_chunk_extension_almost_done => 0 < size <= NGX_MAX_OFF_T_VALUE / 16
  | sw_chunk_data => 0 <= size <= NGX_MAX_OFF_T_VALUE / 16
  | _ => size = 0
  end.

(** Beyond the entry, [sw_chunk_data] means that data is due. *)
Definition ck_running (st : ck_state) (size : Z) : Prop :=
  ck_inv st size /\ (st = sw_chunk_data -> 0 < size).

Lemma ck_step_running st size c st' size' :
  ck_running st size -> is_byte c -> ck_step false st size c = KNext st' size' ->
  ck_running st' size'.
Proof.
  unfold ck_running, NGX_MAX_OFF_T_VALUE. intros [Hi Hd] Hc H.
  destruct st; cbn [ck_step] in H;
    unfold ck_chunk_start, ck_chunk_size, ck_size_end, ck_line, ck_expect_lf, ck_after_data,
      ck_last_almost_done, ck_trailer, ck_trailer_almost_done, NGX_MAX_OFF_T_VALUE in H;
    cbv zeta in H; unfold ck_inv, NGX_MAX_OFF_T_VALUE in *;
    change (9223372036854775807 / 16) with 576460752303423487 in *;
    repeat case_if_in H; simplify_eq; zbool; (split; [lia|]); intros ?; simplify_eq; lia.
Qed.

Lemma ck_enter_running st size : ck_inv st size -> ck_running (ck_enter st size) size.
Proof.
  unfold ck_running. intros H. destruct st; cbn in *; try (split; [lia|done]).
  destruct (Z.eqb_spec size 0); (split; [cbn; lia|]); intros; lia || done.
Qed.

Lemma ck_running_enter st size : ck_running st size -> ck_enter st size = st.
Proof.
  intros [_ H]. destruct st; try done. cbn. destruct (Z.eqb_spec size 0); [|done].
  specialize (H eq_refl). lia.
Qed.

Lemma ck_enter_idem st size : ck_enter (ck_enter st size) size = ck_enter st size.
Proof. destruct st; try done. cbn. destruct (size =? 0) eqn:E; cbn; by rewrite ?E. Qed.

Lemma ck_run_enter st size w : ck_run (ck_enter st size) size w = ck_run st size w.
Proof. destruct w; cbn [ck_run]; by rewrite ck_enter_idem. Qed.

Lemma ck_step_data st size c : ck_step false st size c = KData -> st = sw_chunk_data.
Proof.
  destruct st; cbn [ck_step]; try done;
    unfold ck_chunk_start, ck_chunk_size, ck_size_end, ck_line, ck_expect_lf, ck_after_data,
      ck_last_almost_done, ck_trailer, ck_trailer_almost_done; cbv zeta; repeat case_if; done.
Qed.

Lemma ck_step_done st size c :
  ck_step false st size c = KDone -> st = sw_trailer_almost_done /\ c = LF.
Proof.
  destruct st; cbn [ck_step]; try done;
    unfold ck_chunk_start, ck_chunk_size, ck_size_end, ck_line, ck_expect_lf, ck_after_data,
      ck_last_almost_done, ck_trailer, ck_trailer_almost_done; cbv zeta; repeat case_if; try done.
  intros _. zbool. done.
Qed.

(** ** The parser against the byte machine *)

Inductive parse_spec (len0 : Z) (rest : list Z) (run : crun) : Z * chunked * list Z -> Prop :=
| parse_ok size rest' :
    rest' <> [] -> (length rest' <= length rest)%nat -> ck_running sw_chunk_data size ->
    run = ck_run sw_chunk_data size rest' -> rest' = drop (length rest - length rest') rest ->
    parse_spec len0 rest run
      (NGX_OK, MkChunked sw_chunk_data size (ck_min_length sw_chunk_data size), rest')
| parse_again st size :
    ck_running st size -> run = RMore st size [] ->
    parse_spec len0 rest run (NGX_AGAIN, MkChunked st size (ck_min_length st size), [])
| parse_done rest' :
    (length rest' <= length rest)%nat -> run = RDone [] rest' ->
    rest' = drop (length rest - length rest') rest ->
    parse_spec len0 rest run (NGX_DONE, MkChunked sw_chunk_start 0 len0, rest')
| parse_error ctx rest' :
    run = RErr -> parse_spec len0 rest run (NGX_ERROR, ctx, rest').

Lemma parse_spec_cons len0 c rest run x :
  parse_spec len0 rest run x -> parse_spec len0 (c :: rest) run x.
Proof.
  assert (Hd : forall rest' : list Z, (length rest' <= length rest)%nat ->
    rest' = drop (length rest - length rest') rest ->
    rest' = drop (length (c :: rest) - length rest') (c :: rest)).
  { intros rest' Hl Hr. cbn [length].
    replace (S (length rest) - length rest')%nat with (S (length rest - length rest')) by lia. done. }
  intros []; econstructor; eauto; cbn [length]; lia.
Qed.

Lemma ck_loop_spec ctx rest0 rest st size :
  bytes_ok rest -> ck_running st size ->
  parse_spec (ck_length ctx) rest (ck_run st size rest) (ck_loop false ctx rest0 st size rest).
Proof.
  revert st size. induction rest as [|c rest IH]; intros st size Hb Hr.
  - cbn. unfold ck_data. rewrite ck_running_enter by done. case_if; by constructor.
  - apply Forall_cons_1 in Hb as [Hc Hb]. cbn [ck_loop ck_run].
    rewrite ck_running_enter by done.
    destruct (ck_step false st size c) as [st' size'| | |] eqn:E.
    + apply parse_spec_cons, IH; [done|]. by eapply ck_step_running.
    + apply ck_step_data in E as ->. unfold ck_data.
      destruct Hr as [Hi Hs]. specialize (Hs eq_refl). cbn in Hi.
      unfold NGX_MAX_OFF_T_VALUE in Hi. change (9223372036854775807 / 16) with 576460752303423487 in Hi.
      case_if; [unfold NGX_MAX_OFF_T_VALUE in *; zbool; lia|].
      constructor; [done|done|by split| |by rewrite Nat.sub_diag].
      cbn [ck_run ck_enter]. by rewrite (proj2 (Z.eqb_neq size 0)) by lia.
    + apply ck_step_done in E as [-> ->]. destruct Hr as [-> _]. constructor; [cbn; lia|done|].
      cbn [length]. by replace (S (length rest) - length rest)%nat with 1%nat by lia.
    + by constructor.
Qed.

Lemma parse_chunked_spec ctx rest :
  bytes_ok rest -> ck_inv (ck_st ctx) (ck_size ctx) ->
  parse_spec (ck_length ctx) rest (ck_run (ck_st ctx) (ck_size ctx) rest)
    (ngx_http_parse_chunked ctx rest false).
Proof.
  intros Hb Hi. unfold ngx_http_parse_chunked. rewrite <- ck_run_enter.
  apply ck_loop_spec; [done|]. by apply ck_enter_running.
Qed.

(** ** Cutting the data out of the buffer *)

Lemma length_copy_bytes n mem dst src : length (copy_bytes n mem dst src) = length mem.
Proof.
  revert mem dst src. induction n as [|n IH]; intros; [done|]. cbn. rewrite IH.
  apply length_insert.
Qed.

(** The forward copy is a move when the destination is not above the source. *)
Lemma copy_bytes_lookup n mem dst src i :
  (dst <= src)%nat -> (src + n <= length mem)%nat ->
  copy_bytes n mem dst src !! i
  = if bool_decide (dst <= i < dst + n)%nat then mem !! (i - dst + src)%nat else mem !! i.
Proof.
  revert mem dst src. induction n as [|n IH]; intros mem dst src Hd Hl; cbn [copy_bytes].
  - rewrite bool_decide_false by lia. done.
  - assert (Hlen : length (poke mem dst (nth src mem 0)) = length mem) by apply length_insert.
    rewrite IH by (rewrite ?Hlen; lia). unfold poke.
    assert (Hsrc : mem !! src = Some (nth src mem 0)).
    { rewrite nth_lookup. destruct (lookup_lt_is_Some_2 mem src) as [x ->]; [lia|done]. }
    destruct (decide (i = dst)) as [->|Hne].
    + rewrite bool_decide_false, bool_decide_true by lia.
      rewrite list_lookup_insert_eq by lia. by rewrite Nat.sub_diag.
    + rewrite (list_lookup_insert_ne mem dst i) by done.
      case_bool_decide as H1; case_bool_decide as H2; try lia; [|done].
      rewrite list_lookup_insert_ne by lia. f_equal. lia.
Qed.

Lemma memmove_lookup n mem dst src i :
  (dst <= src)%nat -> (src + n <= length mem)%nat ->
  ngx_memmove mem dst src n !! i
  = if bool_decide (dst <= i < dst + n)%nat then mem !! (i - dst + src)%nat else mem !! i.
Proof.
  intros Hd Hl. unfold ngx_memmove.
  assert (Ht : length (take dst mem) = dst) by (rewrite length_take; lia).
  assert (Ht2 : length (take n (drop src mem)) = n) by (rewrite length_take, length_drop; lia).
  destruct (decide (i < dst)%nat).
  - rewrite bool_decide_false by lia. rewrite lookup_app_l by lia. by rewrite lookup_take_lt by lia.
  - rewrite lookup_app_r by lia. rewrite Ht. case_bool_decide.
    + rewrite lookup_app_l by lia. rewrite lookup_take_lt, lookup_drop by lia. f_equal. lia.
    + rewrite lookup_app_r by lia. rewrite Ht2, lookup_drop. f_equal. lia.
Qed.

Lemma copy_bytes_memmove n mem dst src :
  (dst <= src)%nat -> (src + n <= length mem)%nat ->
  copy_bytes n mem dst src = ngx_memmove mem dst src n.
Proof. intros. apply list_eq. intros i. by rewrite copy_bytes_lookup, memmove_lookup. Qed.

(** The output buffers lie below [pos], the head being the highest. *)
Definition outs_ok (pos : nat) (outs : list (nat * nat)) : Prop :=
  match outs with
  | [] => True
  | (_, e) :: _ => (e <= pos)%nat /\ Forall (fun '(s', e') => s' <= e' <= e)%nat outs
  end.

Lemma outs_ok_push pos pos' outs :
  (pos <= pos')%nat -> outs_ok pos outs -> outs_ok pos' ((pos, pos') :: outs).
Proof.
  intros Hp. destruct outs as [|[s e] outs]; cbn.
  - intros _. split; [done|]. constructor; [lia|constructor].
  - intros [He Ho]. split; [done|]. constructor; [lia|].
    eapply Forall_impl; [|exact Ho]. intros [? ?]. lia.
Qed.

Lemma out_data_push mem outs s e :
  out_data mem ((s, e) :: outs) = out_data mem outs ++ take (e - s) (drop s mem).
Proof. unfold out_data. cbn [rev]. rewrite map_app, concat_app. cbn. by rewrite app_nil_r. Qed.

Lemma slice_lookup (mem : list Z) s n i :
  take n (drop s mem) !! i = if bool_decide (i < n)%nat then mem !! (s + i)%nat else None.
Proof.
  case_bool_decide.
  - by rewrite lookup_take_lt, lookup_drop by lia.
  - by rewrite lookup_take_ge by lia.
Qed.

Lemma memmove_below mem dst src n outs :
  (dst <= src)%nat -> (src + n <= length mem)%nat ->
  Forall (fun '(s', e') => s' <= e' <= dst)%nat outs ->
  out_data (ngx_memmove mem dst src n) outs = out_data mem outs.
Proof.
  intros Hd Hl. induction outs as [|[s e] outs IH]; intros Ho; [done|].
  apply Forall_cons_1 in Ho as [Hse Ho]. rewrite !out_data_push, IH by done. f_equal.
  apply list_eq. intros i. rewrite !slice_lookup. case_bool_decide; [|done].
  rewrite memmove_lookup by done. by rewrite bool_decide_false by lia.
Qed.

Lemma memmove_append mem dst src n s :
  (s <= dst)%nat -> (dst <= src)%nat -> (src + n <= length mem)%nat ->
  take (dst + n - s) (drop s (ngx_memmove mem dst src n))
  = take (dst - s) (drop s mem) ++ take n (drop src mem).
Proof.
  intros Hs Hd Hl. apply list_eq. intros i. rewrite slice_lookup.
  assert (Hlen : length (take (dst - s) (drop s mem)) = (dst - s)%nat)
    by (rewrite length_take, length_drop; lia).
  destruct (decide (i < dst - s)%nat).
  - rewrite lookup_app_l by lia. rewrite slice_lookup, memmove_lookup by done.
    repeat case_bool_decide; lia || done.
  - rewrite lookup_app_r by lia. rewrite Hlen, slice_lookup, memmove_lookup by done.
    repeat case_bool_decide; try lia; try done. f_equal. lia.
Qed.

Lemma memmove_above mem dst src n :
  (dst <= src)%nat -> (src + n <= length mem)%nat ->
  drop (src + n) (ngx_memmove mem dst src n) = drop (src + n) mem.
Proof.
  intros Hd Hl. apply list_eq. intros i. rewrite !lookup_drop, memmove_lookup by done.
  by rewrite bool_decide_false by lia.
Qed.

Lemma length_memmove mem dst src n :
  (dst <= src)%nat -> (src + n <= length mem)%nat ->
  length (ngx_memmove mem dst src n) = length mem.
Proof.
  intros. unfold ngx_memmove. rewrite !length_app, !length_take, !length_drop. lia.
Qed.

(** What [take_chunk] does, whichever of its branches runs: with [k] bytes of the
    chunk in the buffer, it hands exactly those on. *)
Lemma take_chunk_spec mem pos ctx len outs :
  let rest := drop pos mem in
  let k := Nat.min (Z.to_nat (ck_size ctx)) (length rest) in
  (pos <= length mem)%nat -> 0 < ck_size ctx -> outs_ok pos outs ->
  let f := take_chunk (MkFbuf mem pos ctx len outs) in
  length (fb_mem f) = length mem /\ fb_pos f = (pos + k)%nat
  /\ drop (fb_pos f) (fb_mem f) = drop k rest
  /\ fb_ctx f = set_ck_size (ck_size ctx - Z.of_nat k) ctx
  /\ fb_len f = len + Z.of_nat k
  /\ out_data (fb_mem f) (fb_outs f) = out_data mem outs ++ take k rest
  /\ outs_ok (fb_pos f) (fb_outs f).
Proof.
  intros rest k Hpos Hsz Ho.
  assert (Hrest : length rest = (length mem - pos)%nat) by (unfold rest; apply length_drop).
  assert (Hplain : forall f, f = (if ck_size ctx <? Z.of_nat (length mem) - Z.of_nat pos then
        MkFbuf mem (pos + Z.to_nat (ck_size ctx)) (set_ck_size 0 ctx) (len + ck_size ctx)
          ((pos, pos + Z.to_nat (ck_size ctx))%nat :: outs)
      else MkFbuf mem (length mem) (set_ck_size (ck_size ctx - (Z.of_nat (length mem) - Z.of_nat pos)) ctx)
          (len + (Z.of_nat (length mem) - Z.of_nat pos)) ((pos, length mem) :: outs)) ->
    f = MkFbuf mem (pos + k) (set_ck_size (ck_size ctx - Z.of_nat k) ctx) (len + Z.of_nat k)
          ((pos, pos + k)%nat :: outs)).
  { intros f ->. case_if; zbool; unfold k;
      [replace (Nat.min _ _) with (Z.to_nat (ck_size ctx)) by lia
      |replace (Nat.min _ _) with (length mem - pos)%nat by lia]; f_equal; try f_equal; try f_equal; lia. }
  assert (Hgoal : forall f, f = MkFbuf mem (pos + k) (set_ck_size (ck_size ctx - Z.of_nat k) ctx)
        (len + Z.of_nat k) ((pos, pos + k)%nat :: outs) ->
    length (fb_mem f) = length mem /\ fb_pos f = (pos + k)%nat
    /\ drop (fb_pos f) (fb_mem f) = drop k rest
    /\ fb_ctx f = set_ck_size (ck_size ctx - Z.of_nat k) ctx
    /\ fb_len f = len + Z.of_nat k
    /\ out_data (fb_mem f) (fb_outs f) = out_data mem outs ++ take k rest
    /\ outs_ok (fb_pos f) (fb_outs f)).
  { intros f ->. cbn [fb_mem fb_pos fb_ctx fb_len fb_outs].
    split_and!; try done; [unfold rest; by rewrite drop_drop| |apply outs_ok_push; [lia|done]].
    rewrite out_data_push. by replace (pos + k - pos)%nat with k by lia. }
  destruct outs as [|[s e] outs]; intros f; subst f; cbn [take_chunk].
  { by apply Hgoal, Hplain. }
  destruct ((ck_size ctx <=? 128) && (ck_size ctx <=? Z.of_nat (length mem) - Z.of_nat pos)) eqn:E;
    [|by apply Hgoal, Hplain].
  zbool. assert (Hk : k = Z.to_nat (ck_size ctx)) by (unfold k; lia).
  destruct Ho as [He Ho]. apply Forall_cons_1 in Ho as [Hse Ho].
  rewrite (copy_bytes_memmove _ mem e pos) by lia. rewrite <- Hk.
  replace (if ck_size ctx <? 8 then ngx_memmove mem e pos k else ngx_memmove mem e pos k)
    with (ngx_memmove mem e pos k) by (by case_if).
  cbn [fb_mem fb_pos fb_ctx fb_len fb_outs]. split_and!.
  - apply length_memmove; lia.
  - done.
  - rewrite memmove_above by lia. unfold rest. by rewrite drop_drop.
  - f_equal. lia.
  - lia.
  - rewrite !out_data_push, memmove_below by (done || lia).
    rewrite memmove_append by lia. by rewrite app_assoc.
  - split; [lia|]. constructor; [lia|]. eapply Forall_impl; [|exact Ho]. intros [? ?]. lia.
Qed.

(** A run of data bytes. *)
Lemma ck_run_data k size rest :
  (k <= Z.to_nat size)%nat -> (k <= length rest)%nat ->
  ck_run sw_chunk_data size rest
  = add_data (take k rest) (ck_run sw_chunk_data (size - Z.of_nat k) (drop k rest)).
Proof.
  revert size rest. induction k as [|k IH]; intros size rest Hs Hr.
  - rewrite Z.sub_0_r. unfold drop, take. by destruct (ck_run sw_chunk_data size rest).
  - destruct rest as [|c rest]; [cbn in Hr; lia|]. cbn [ck_run ck_enter take drop length] in *.
    rewrite (proj2 (Z.eqb_neq size 0)) by lia. cbn [ck_step].
    rewrite (IH (size - 1) rest) by lia.
    replace (size - 1 - Z.of_nat k) with (size - Z.of_nat (S k)) by lia.
    by destruct (ck_run _ _ (drop k rest)).
Qed.

(** The size limit is exceeded by the data of the run, or will be. *)
Definition over_limit (max len : Z) (r : crun) : Prop :=
  max <> 0 /\
  match r with
  | RDone d _ => max < len + Z.of_nat (length d)
  | RMore _ size d => max < len + Z.of_nat (length d) + size
  | RErr => True
  end.

Lemma ck_step_size st size c st' size' :
  ck_running st size -> ck_step false st size c = KNext st' size' -> size <= size' .
Proof.
  unfold ck_running, ck_inv. intros [Hi Hd] H.
  destruct st; cbn [ck_step] in H;
    unfold ck_chunk_start, ck_chunk_size, ck_size_end, ck_line, ck_expect_lf, ck_after_data,
      ck_last_almost_done, ck_trailer, ck_trailer_almost_done in H;
    cbv zeta in H; repeat case_if_in H; simplify_eq; zbool; lia.
Qed.

Lemma ck_data_inv size : ck_running sw_chunk_data size -> ck_inv sw_chunk_data (size - 1).
Proof. intros [Hi Hd]. specialize (Hd eq_refl). cbn in *. lia. Qed.

(** The bytes of the current chunk are part of what a complete run delivers. *)
Lemma ck_run_size st size w :
  bytes_ok w -> ck_inv st size ->
  match ck_run st size w with
  | RDone d _ => size <= Z.of_nat (length d)
  | RMore _ size' d => size <= Z.of_nat (length d) + size'
  | RErr => True
  end.
Proof.
  revert st size. induction w as [|c w IH]; intros st size Hb Hi; cbn [ck_run].
  - case_if; cbn; lia || done.
  - apply Forall_cons_1 in Hb as [Hc Hb]. pose proof (ck_enter_running st size Hi) as Hr.
    destruct (ck_step false (ck_enter st size) size c) as [st' size'| | |] eqn:E.
    + pose proof (ck_step_size _ _ _ _ _ Hr E). apply ck_step_running in E as [Hi' _]; [|done..].
      specialize (IH st' size' Hb Hi'). destruct (ck_run st' size' w); lia || done.
    + apply ck_step_data in E. rewrite E in Hr. apply ck_data_inv in Hr.
      specialize (IH _ _ Hb Hr). destruct (ck_run sw_chunk_data (size - 1) w); cbn in *; lia || done.
    + apply ck_step_done in E as [E _]. rewrite E in Hr. destruct Hr as [Hr _]. cbn in *. lia.
    + done.
Qed.

(** ** One buffer *)

(** What the inner loop leaves behind when it is not stopped by the size limit. *)
Definition delivered (max : Z) (f f' : fbuf) (d : list Z) : Prop :=
  fb_len f' = fb_len f + Z.of_nat (length d)
  /\ out_data (fb_mem f') (fb_outs f') = out_data (fb_mem f) (fb_outs f) ++ d
  /\ (max <> 0 -> fb_len f <= max -> fb_len f' <= max).

Definition buf_spec (max : Z) (f : fbuf) (run : crun) (res : fb_result) : Prop :=
  match run with
  | RDone d rest => exists f', res = FDone f' /\ delivered max f f' d
      /\ drop (fb_pos f') (fb_mem f') = rest
      /\ ck_st (fb_ctx f') = sw_chunk_start /\ ck_size (fb_ctx f') = 0
  | RMore st size d => exists f', res = FAgain f' /\ delivered max f f' d
      /\ drop (fb_pos f') (fb_mem f') = [] /\ fb_ctx f' = MkChunked st size (ck_min_length st size)
  | RErr => res = FFail NGX_HTTP_BAD_REQUEST
  end.

Lemma buf_spec_add max f f2 run res d :
  delivered max f f2 d -> buf_spec max f2 run res -> buf_spec max f (add_data d run) res.
Proof.
  intros (H1 & H2 & H3). destruct run; cbn; [| |done]; intros (f' & -> & (H4 & H5 & H6) & Hr);
    exists f'; (split; [done|]); (split; [|done]); split_and!;
    rewrite ?H4, ?H5, ?H1, ?H2, ?length_app, ?Nat2Z.inj_add, <- ?app_assoc; try lia; try done; auto.
Qed.

Lemma over_limit_add max len d run :
  over_limit max (len + Z.of_nat (length d)) run -> over_limit max len (add_data d run).
Proof. unfold over_limit. destruct run; cbn; rewrite ?length_app; intros []; split; lia || done. Qed.

Lemma delivered_nil max f f' :
  fb_len f' = fb_len f -> fb_mem f' = fb_mem f -> fb_outs f' = fb_outs f -> delivered max f f' [].
Proof.
  intros H1 H2 H3. split_and!; rewrite ?H1, ?H2, ?H3, ?app_nil_r; cbn; try lia; done.
Qed.

Definition fbuf_inv (f : fbuf) : Prop :=
  ck_inv (ck_st (fb_ctx f)) (ck_size (fb_ctx f)) /\ bytes_ok (drop (fb_pos f) (fb_mem f))
  /\ (fb_pos f <= length (fb_mem f))%nat /\ outs_ok (fb_pos f) (fb_outs f).

(** Position and remaining bytes after a parser call. *)
Lemma parsed_pos (mem rest' : list Z) pos :
  (pos <= length mem)%nat -> (length rest' <= length (drop pos mem))%nat ->
  rest' = drop (length (drop pos mem) - length rest') (drop pos mem) ->
  (pos <= length mem - length rest')%nat /\ drop (length mem - length rest') mem = rest'.
Proof.
  rewrite !length_drop, drop_drop. intros Hp Hl Hr. split; [lia|].
  rewrite Hr at 2. f_equal. lia.
Qed.

Lemma outs_ok_mono pos pos' outs : (pos <= pos')%nat -> outs_ok pos outs -> outs_ok pos' outs.
Proof. destruct outs as [|[s e] outs]; [done|]. cbn. intros ? [? ?]. split; [lia|done]. Qed.

(** The state after a chunk was taken, relative to the state before. *)
Lemma take_chunk_step max f size :
  fbuf_inv f -> fb_ctx f = MkChunked sw_chunk_data size (ck_min_length sw_chunk_data size) ->
  ck_running sw_chunk_data size -> drop (fb_pos f) (fb_mem f) <> [] ->
  (max <> 0 -> size <= max - fb_len f) ->
  exists d, fbuf_inv (take_chunk f) /\ delivered max f (take_chunk f) d
    /\ ck_run sw_chunk_data size (drop (fb_pos f) (fb_mem f))
       = add_data d (ck_run (ck_st (fb_ctx (take_chunk f))) (ck_size (fb_ctx (take_chunk f)))
                       (drop (fb_pos (take_chunk f)) (fb_mem (take_chunk f))))
    /\ (length (drop (fb_pos (take_chunk f)) (fb_mem (take_chunk f)))
        < length (drop (fb_pos f) (fb_mem f)))%nat.
Proof.
  destruct f as [mem pos ctx len outs]. cbn [fb_ctx fb_mem fb_pos fb_len].
  intros (Hi & Hb & Hp & Ho) -> [Hr Hs] Hne Hmax. cbn [fb_ctx fb_mem fb_pos fb_outs] in *.
  specialize (Hs eq_refl).
  destruct (take_chunk_spec mem pos (MkChunked sw_chunk_data size (ck_min_length sw_chunk_data size))
    len outs Hp) as (H1 & H2 & H3 & H4 & H5 & H6 & H7); [done|done|]. cbn [ck_size] in *.
  set (k := Nat.min (Z.to_nat size) (length (drop pos mem))) in *.
  set (f2 := take_chunk _) in *.
  assert (Hk : (0 < k)%nat) by (destruct (drop pos mem); [done|unfold k; cbn; lia]).
  assert (Hkl : (k <= length mem - pos)%nat) by (unfold k; rewrite length_drop; lia).
  assert (Hlk : length (take k (drop pos mem)) = k) by (rewrite length_take; lia).
  exists (take k (drop pos mem)). rewrite H4. cbn [set_ck_size ck_st ck_size]. split_and!.
  - split_and!; rewrite ?H4.
    + cbn in *. lia.
    + rewrite H3. by apply Forall_drop.
    + rewrite H1, H2. lia.
    + done.
  - split_and!; [by rewrite H5, Hlk|done|]. rewrite H5. cbn [fb_len]. intros Hm Hl.
    specialize (Hmax Hm). lia.
  - rewrite H3. apply ck_run_data; lia.
  - rewrite H3, !length_drop. lia.
Qed.

Lemma filter_buf_spec max fuel f :
  fbuf_inv f -> (length (drop (fb_pos f) (fb_mem f)) < fuel)%nat ->
  let run := ck_run (ck_st (fb_ctx f)) (ck_size (fb_ctx f)) (drop (fb_pos f) (fb_mem f)) in
  exists res, filter_buf max fuel f = Some res
    /\ (buf_spec max f run res
        \/ res = FFail NGX_HTTP_REQUEST_ENTITY_TOO_LARGE /\ over_limit max (fb_len f) run).
Proof.
  revert f. induction fuel as [|fuel IH]; intros f Hf Hfuel run; [lia|].
  destruct Hf as (Hi & Hb & Hp & Ho). cbn [filter_buf].
  pose proof (parse_chunked_spec (fb_ctx f) _ Hb Hi) as Hspec. fold run in Hspec.
  destruct Hspec as [size rest' Hne Hl Hr Hrun Hdrop|st size Hr Hrun|rest' Hl Hrun Hdrop|ctx rest' Hrun].
  - change (NGX_OK =? NGX_OK) with true. cbv iota beta zeta. cbn [ck_size].
    destruct (parsed_pos _ _ _ Hp Hl Hdrop) as [Hp' Hd'].
    set (f1 := MkFbuf _ _ _ _ _).
    case_if.
    + eexists. split; [done|]. right. split; [done|]. zbool. split; [done|]. rewrite Hrun.
      assert (Hb' : bytes_ok rest') by (rewrite Hdrop; by apply Forall_drop).
      pose proof (ck_run_size sw_chunk_data size rest' Hb' (proj1 Hr)).
      destruct (ck_run sw_chunk_data size rest'); lia || done.
    + destruct (take_chunk_step max f1 size) as (d & Hf2 & Hdel & Hrun2 & Hlen).
      * split_and!; cbn; [apply Hr|rewrite Hd', Hdrop; by apply Forall_drop|lia|by eapply outs_ok_mono].
      * done.
      * done.
      * cbn. by rewrite Hd'.
      * intros Hm. cbn. destruct (Z.eqb_spec max 0); [done|]. cbn in E. zbool. lia.
      * cbn [f1 fb_pos fb_mem] in Hrun2, Hlen. rewrite Hd' in Hrun2, Hlen.
        destruct (IH (take_chunk f1) Hf2) as (res & Hres & Hcase); [lia|].
        exists res. split; [done|]. rewrite Hrun, Hrun2.
        assert (Hdel' : delivered max f (take_chunk f1) d) by exact Hdel.
        destruct Hcase as [Hcase|[-> Hcase]].
        -- left. by eapply buf_spec_add.
        -- right. split; [done|]. apply over_limit_add. destruct Hdel' as (<- & _). done.
  - change (NGX_AGAIN =? NGX_OK) with false. change (NGX_AGAIN =? NGX_DONE) with false.
    change (NGX_AGAIN =? NGX_AGAIN) with true. cbv iota beta zeta.
    eexists. split; [done|]. left. rewrite Hrun. eexists. split; [done|].
    split; [by apply delivered_nil|]. cbn. split; [|done]. apply drop_ge. lia.
  - change (NGX_DONE =? NGX_OK) with false. change (NGX_DONE =? NGX_DONE) with true.
    cbv iota beta zeta. destruct (parsed_pos _ _ _ Hp Hl Hdrop) as [Hp' Hd'].
    eexists. split; [done|]. left. rewrite Hrun. eexists. split; [done|].
    split; [by apply delivered_nil|]. cbn. done.
  - change (NGX_ERROR =? NGX_OK) with false. change (NGX_ERROR =? NGX_DONE) with false.
    change (NGX_ERROR =? NGX_AGAIN) with false. cbv iota beta zeta.
    eexists. split; [done|]. left. by rewrite Hrun.
Qed.

(** ** The grammar of chunked bodies *)

Definition not_eol (c : Z) : Prop := c <> CR /\ c <> LF.
Abbreviation CRLF := [CR; LF].

(** A chunk extension: empty, or ";", a space or a tab and the rest of the line. *)
Definition ext_ok (ext : list Z) : Prop :=
  match ext with
  | [] => True
  | c :: ext' => (c = ch(";") \/ c = ch(" ") \/ c = 9) /\ Forall not_eol ext'
  end.

(** Trailer lines up to the empty line. *)
Inductive trailer_section : list Z -> Prop :=
| trailer_end : trailer_section CRLF
| trailer_line c l t :
    not_eol c -> Forall not_eol l -> trailer_section t ->
    trailer_section (c :: l ++ CRLF ++ t).

(** [chunked_body w d]: the bytes [w] are a chunked body that carries [d]. *)
Inductive chunked_body : list Z -> list Z -> Prop :=
| body_last hs ext t :
    hs <> [] -> hex_value 0 hs = Some 0 -> ext_ok ext -> trailer_section t ->
    chunked_body (hs ++ ext ++ CRLF ++ t) []
| body_chunk hs ext data w d :
    hs <> [] -> hex_value 0 hs = Some (Z.of_nat (length data)) -> data <> [] ->
    Z.of_nat (length data) <= NGX_MAX_OFF_T_VALUE / 16 -> ext_ok ext -> chunked_body w d ->
    chunked_body (hs ++ ext ++ CRLF ++ data ++ CRLF ++ w) (data ++ d).

(** What may follow in each state of the parser. *)
Definition after_size (n : Z) (w d : list Z) : Prop :=
  (n = 0 /\ trailer_section w /\ d = [])
  \/ (0 < n /\ exists data w2 d2, Z.of_nat (length data) = n /\ w = data ++ CRLF ++ w2
        /\ d = data ++ d2 /\ chunked_body w2 d2).

Definition lang (st : ck_state) (size : Z) (w d : list Z) : Prop :=
  match st with
  | sw_chunk_start => chunked_body w d
  | sw_chunk_size => exists hs ext t n, w = hs ++ ext ++ CRLF ++ t
      /\ hex_value size hs = Some n /\ n <= NGX_MAX_OFF_T_VALUE / 16 /\ ext_ok ext /\ after_size n t d
  | sw_chunk_extension | sw_last_chunk_extension =>
      exists ext t, w = ext ++ CRLF ++ t /\ Forall not_eol ext /\ after_size size t d
  | sw_chunk_extension_almost_done | sw_last_chunk_extension_almost_done =>
      exists t, w = LF :: t /\ after_size size t d
  | sw_chunk_data | sw_after_data => exists data w2 d2, Z.of_nat (length data) = size
      /\ w = data ++ CRLF ++ w2 /\ d = data ++ d2 /\ chunked_body w2 d2
  | sw_after_data_almost_done => exists w2, w = LF :: w2 /\ chunked_body w2 d
  | sw_trailer => trailer_section w /\ d = []
  | sw_trailer_almost_done => w = [LF] /\ d = []
  | sw_trailer_header => exists l t, w = l ++ CRLF ++ t /\ Forall not_eol l
      /\ trailer_section t /\ d = []
  | sw_trailer_header_almost_done => exists t, w = LF :: t /\ trailer_section t /\ d = []
  end.

Lemma ck_chunk_start_hex size c :
  is_byte c ->
  ck_chunk_start size c = match hex_digit c with Some v => KNext sw_chunk_size v | None => KInvalid end.
Proof.
  intros Hc. unfold ck_chunk_start. destruct ((48 <=? c) && (c <=? 57)) eqn:E.
  - unfold hex_digit. by rewrite E.
  - rewrite <- (hex_letter_fold c Hc E). cbv zeta. by case_if.
Qed.

Lemma ck_chunk_size_hex size c :
  is_byte c -> size <= NGX_MAX_OFF_T_VALUE / 16 ->
  ck_chunk_size size c
  = match hex_digit c with
    | Some v => KNext sw_chunk_size (size * 16 + v)
    | None => if size =? 0
              then ck_size_end sw_last_chunk_extension sw_last_chunk_extension_almost_done size c
              else ck_size_end sw_chunk_extension sw_chunk_extension_almost_done size c
    end.
Proof.
  intros Hc Hs. unfold ck_chunk_size. rewrite (proj2 (Z.ltb_ge _ _) Hs).
  destruct ((48 <=? c) && (c <=? 57)) eqn:E.
  - unfold hex_digit. by rewrite E.
  - rewrite <- (hex_letter_fold c Hc E). cbv zeta. by case_if.
Qed.

(** What a byte does to the language of a state. *)
Definition derived (o : ck_outcome) (size c : Z) (w d : list Z) : Prop :=
  match o with
  | KNext st' size' => lang st' size' w d
  | KData => exists d', d = c :: d' /\ lang sw_chunk_data (size - 1) w d'
  | KDone => w = [] /\ d = []
  | KInvalid => False
  end.

(** A line of non-EOL bytes, one byte at a time. *)
Lemma line_derive (P : list Z -> Prop) c w :
  (exists l t, c :: w = l ++ CRLF ++ t /\ Forall not_eol l /\ P t)
  <-> (c = CR /\ exists t, w = LF :: t /\ P t)
      \/ (not_eol c /\ exists l t, w = l ++ CRLF ++ t /\ Forall not_eol l /\ P t).
Proof.
  split.
  - intros ([|x l] & t & E & Hl & Ht); cbn in E; simplify_eq.
    + left. eauto.
    + apply Forall_cons_1 in Hl as [? ?]. right. eauto 10.
  - intros [(-> & t & -> & Ht)|(Hc & l & t & -> & Hl & Ht)].
    + exists [], t. auto.
    + exists (c :: l), t. split_and!; [done|by constructor|done].
Qed.

Lemma derived_line self almost size c w d (P : list Z -> Prop) :
  (forall w, lang self size w d <-> exists l t, w = l ++ CRLF ++ t /\ Forall not_eol l /\ P t) ->
  (forall w, lang almost size w d <-> exists t, w = LF :: t /\ P t) ->
  lang self size (c :: w) d <-> derived (ck_line self almost size c) size c w d.
Proof.
  intros Hself Halmost. rewrite Hself, line_derive. unfold ck_line, not_eol.
  destruct (Z.eqb_spec c CR) as [->|Hcr]; cbn [derived].
  - rewrite Halmost. intuition congruence.
  - destruct (Z.eqb_spec c LF) as [->|Hlf]; cbn [derived]; [intuition congruence|].
    rewrite Hself. intuition congruence.
Qed.

Lemma derived_lf next size c w d (P : list Z -> Prop) :
  (forall w, lang next size w d <-> P w) ->
  (exists t, c :: w = LF :: t /\ P t) <-> derived (ck_expect_lf next size c) size c w d.
Proof.
  intros Hn. unfold ck_expect_lf. destruct (Z.eqb_spec c LF) as [->|Hlf]; cbn [derived].
  - rewrite Hn. split; [intros (t & E & H); by simplify_eq|eauto].
  - split; [intros (t & E & H); congruence|done].
Qed.

Lemma start_derive c w d :
  chunked_body (c :: w) d <-> exists v, hex_digit c = Some v /\ lang sw_chunk_size v w d.
Proof.
  assert (Hv : forall h hs, hex_value 0 (h :: hs) = (v ← hex_digit h; hex_value v hs)) by done.
  split.
  - intros H. inversion H as [hs ext t Hhs Hval Hext Ht E|hs ext data w2 d2 Hhs Hval Hdata Hmax Hext Hb E];
      subst; (destruct hs as [|h hs]; [done|]); cbn [app] in E; simplify_eq; rewrite Hv in Hval;
      (destruct (hex_digit c) as [v|] eqn:Ec; [|done]); cbn in Hval; exists v; (split; [done|]).
    + exists hs, ext, t, 0. split_and!; try done. by left.
    + exists hs, ext, (data ++ CRLF ++ w2), (Z.of_nat (length data)).
      split_and!; try done. right. split; [destruct data; [done|cbn; lia]|]. by exists data, w2, d2.
  - intros (v & Ec & hs & ext & t & n & -> & Hval & Hmax & Hext & [(-> & Ht & ->)|(Hn & H)]).
    + apply (body_last (c :: hs)); try done. rewrite Hv, Ec. done.
    + destruct H as (data & w2 & d2 & <- & -> & -> & Hb).
      apply (body_chunk (c :: hs)); try done; [rewrite Hv, Ec; done|]. by destruct data.
Qed.

Lemma size_derive size c w d :
  is_byte c -> 0 <= size ->
  lang sw_chunk_size size (c :: w) d <-> derived (ck_chunk_size size c) size c w d.
Proof.
  intros Hc Hs. destruct (decide (size <= NGX_MAX_OFF_T_VALUE / 16)) as [Hle|Hgt]; cycle 1.
  { unfold ck_chunk_size. rewrite (proj2 (Z.ltb_lt _ _)) by lia. split; [|done].
    intros (hs & ext & t & n & _ & Hval & Hmax & _). apply hex_value_mono in Hval; lia. }
  rewrite ck_chunk_size_hex by done. destruct (hex_digit c) as [v|] eqn:Ec.
  - split.
    + intros ([|h hs] & ext & t & n & E & Hval & Hmax & Hext & H).
      * exfalso. destruct ext as [|x ext]; cbn in E; simplify_eq.
        destruct Hext as [[-> | [-> | ->]] _]; by vm_compute in Ec.
      * cbn in E. simplify_eq. exists hs, ext, t, n. split_and!; try done.
        cbn in Hval. by rewrite Ec in Hval.
    + intros (hs & ext & t & n & -> & Hval & Hmax & Hext & H).
      exists (c :: hs), ext, t, n. split_and!; try done. cbn. by rewrite Ec.
  - transitivity (derived (ck_size_end sw_chunk_extension sw_chunk_extension_almost_done size c) size c w d);
      [|unfold ck_size_end; repeat case_if; done].
    unfold ck_size_end. split.
    + intros ([|h hs] & ext & t & n & E & Hval & Hmax & Hext & H).
      * cbn in Hval. simplify_eq. destruct ext as [|x ext]; cbn in E; simplify_eq.
        -- cbn. eauto.
        -- destruct Hext as [Hx Hext].
           assert (Hx' : x =? CR = false /\ (x =? 59) || (x =? 32) || (x =? 9) = true)
             by (destruct Hx as [-> | [-> | ->]]; done).
           destruct Hx' as [-> ->]. cbn. eauto.
      * cbn in E, Hval. simplify_eq. by rewrite Ec in Hval.
    + case_if; [|case_if; [|done]].
      * zbool. subst. intros (t & -> & H). by exists [], [], t, size.
      * intros (ext & t & -> & Hext & H). exists [], (c :: ext), t, size. split_and!; try done.
        split; [|done]. apply orb_prop in E0 as [E0|E0]; [apply orb_prop in E0 as [E0|E0]|];
          apply Z.eqb_eq in E0; auto.
Qed.

Lemma data_derive size c w d :
  0 < size ->
  lang sw_chunk_data size (c :: w) d <-> derived KData size c w d.
Proof.
  intros Hs. cbn [lang derived]. split.
  - intros ([|x data] & w2 & d2 & Hl & E & -> & Hb); cbn in Hl, E; [lia|]. simplify_eq.
    eexists. split; [done|]. exists data, w2, d2. split_and!; lia || done.
  - intros (d' & -> & data & w2 & d2 & Hl & -> & -> & Hb).
    exists (c :: data), w2, d2. split_and!; [cbn; lia|done..].
Qed.

Lemma after_data_derive c w d :
  lang sw_after_data 0 (c :: w) d <-> derived (ck_after_data 0 c) 0 c w d.
Proof.
  cbn [lang]. unfold ck_after_data. split.
  - intros ([|x data] & w2 & d2 & Hl & E & -> & Hb); cbn in Hl, E; [|lia]. simplify_eq. cbn. eauto.
  - destruct (Z.eqb_spec c CR) as [->|]; [|done]. intros (w2 & -> & Hb). by exists [], w2, d.
Qed.

Lemma trailer_derive c w d :
  lang sw_trailer 0 (c :: w) d <-> derived (ck_trailer 0 c) 0 c w d.
Proof.
  cbn [lang]. unfold ck_trailer. split.
  - intros [H ->]. inversion H as [E|x l t Hx Hl Ht E]; subst; [done|].
    destruct Hx as [H1 H2]. rewrite (proj2 (Z.eqb_neq c CR)), (proj2 (Z.eqb_neq c LF)) by done. cbn. eauto 10.
  - destruct (Z.eqb_spec c CR) as [->|]; [intros [-> ->]; split; [constructor|done]|].
    destruct (Z.eqb_spec c LF) as [->|]; [done|]. intros (l & t & -> & Hl & Ht & ->).
    split; [|done]. by constructor.
Qed.

(** The language of a state, one byte at a time. *)
Lemma lang_derive st size c w d :
  ck_running st size -> is_byte c ->
  lang st size (c :: w) d <-> derived (ck_step false st size c) size c w d.
Proof.
  intros [Hi Hd] Hc. destruct st; cbn [ck_step ck_inv] in *.
  - cbn [lang]. rewrite ck_chunk_start_hex, start_derive by done.
    destruct (hex_digit c) as [v|]; [|by split; [intros (? & ? & ?)|]].
    split; [intros (v' & E & H); by simplify_eq|eauto].
  - apply size_derive; [done|lia].
  - by apply derived_line with (P := fun t => after_size size t d).
  - apply derived_lf. intros t. unfold after_size. cbn [lang]. split.
    + intros H. right. split; [lia|done].
    + intros [H|[_ H]]; [lia|done].
  - apply data_derive. auto.
  - subst. apply after_data_derive.
  - subst. by apply derived_lf.
  - by apply derived_line with (P := fun t => after_size size t d).
  - subst. unfold ck_last_almost_done. apply (derived_lf sw_trailer).
    intros t. unfold after_size. cbn [lang]. split; [intros [? ->]; by left|].
    intros [(_ & ? & ->)|[? _]]; [done|lia].
  - subst. apply trailer_derive.
  - unfold ck_trailer_almost_done. cbn [lang]. destruct (Z.eqb_spec c LF) as [->|Hlf]; cbn [derived].
    + split; intros []; simplify_eq; done.
    + split; [intros []; simplify_eq|done].
  - apply derived_line with (P := fun t => trailer_section t /\ d = []); done.
  - apply (derived_lf sw_trailer). done.
Qed.

Lemma lang_nil st size d : ck_running st size -> ~ lang st size [] d.
Proof.
  intros [Hi Hd] H. destruct st; cbn [lang] in H.
  - inversion H as [hs ? ? ? ? ? ? E|hs ? ? ? ? ? ? ? ? ? ? E]; by destruct hs.
  - by destruct H as ([|? ?] & [|? ?] & t & n & E & _).
  - by destruct H as ([|? ?] & t & E & _).
  - by destruct H as (t & E & _).
  - by destruct H as ([|? ?] & w2 & d2 & _ & E & _).
  - by destruct H as ([|? ?] & w2 & d2 & _ & E & _).
  - by destruct H as (t & E & _).
  - by destruct H as ([|? ?] & t & E & _).
  - by destruct H as (t & E & _).
  - destruct H as [H _]. inversion H.
  - by destruct H.
  - by destruct H as ([|? ?] & t & E & _).
  - by destruct H as (t & E & _).
Qed.

Lemma lang_enter st size w d : ck_inv st size -> lang (ck_enter st size) size w d <-> lang st size w d.
Proof. intros _. destruct st; try done. cbn. by case_if. Qed.

(** ** The byte machine accepts exactly the grammar *)

(** A complete run ends at a suffix. *)
Lemma run_done_suffix st size w d rest :
  ck_run st size w = RDone d rest -> exists w', w = w' ++ rest /\ w' <> [].
Proof.
  revert st size d. induction w as [|c w IH]; intros st size d H; cbn [ck_run] in H.
  - by case_if_in H.
  - destruct (ck_step false (ck_enter st size) size c) as [st' size'| | |]; try done.
    + destruct (IH _ _ _ H) as (w' & -> & _). by exists (c :: w').
    + destruct (ck_run sw_chunk_data (size - 1) w) as [|d' r'|] eqn:E; try done. cbn in H. simplify_eq.
      destruct (IH _ _ _ E) as (w' & -> & _). by exists (c :: w').
    + simplify_eq. by exists [c].
Qed.

Lemma add_data_done c d rest r :
  add_data [c] r = RDone d rest <-> exists d', d = c :: d' /\ r = RDone d' rest.
Proof.
  destruct r; cbn; split; try done; try (intros (? & ? & ?); done).
  - intros. simplify_eq. eauto.
  - intros (d' & -> & E). by simplify_eq.
Qed.

Lemma run_lang st size w d rest :
  bytes_ok w -> ck_inv st size ->
  ck_run st size (w ++ rest) = RDone d rest <-> lang st size w d.
Proof.
  revert st size d. induction w as [|c w IH]; intros st size d Hb Hi;
    pose proof (ck_enter_running st size Hi) as Hr; rewrite <- lang_enter by done.
  - split; [|by intros ?%lang_nil]. intros H. exfalso.
    apply run_done_suffix in H as (w' & E & Hne). apply Hne.
    apply (f_equal length) in E. rewrite !length_app in E. destruct w'; [done|cbn in E; lia].
  - apply Forall_cons_1 in Hb as [Hc Hb]. rewrite lang_derive by done. cbn [app ck_run].
    destruct (ck_step false (ck_enter st size) size c) as [st' size'| | |] eqn:E; cbn [derived].
    + apply ck_step_running in E as [Hi' _]; [|done..]. by apply IH.
    + apply ck_step_data in E. rewrite E in Hr. apply ck_data_inv in Hr. rewrite add_data_done.
      split; intros (d' & -> & H); exists d'; (split; [done|]); by apply (IH sw_chunk_data (size - 1) d').
    + split; [|by intros [-> ->]]. intros [= <- H]. split; [|done].
      apply (f_equal length) in H. rewrite length_app in H. destruct w; [done|cbn in H; lia].
    + done.
Qed.

(** ** Streams in pieces *)

Lemma ck_run_app st size w1 w2 st1 size1 d1 :
  bytes_ok w1 -> ck_inv st size -> ck_run st size w1 = RMore st1 size1 d1 ->
  ck_inv st1 size1 /\ ck_run st size (w1 ++ w2) = add_data d1 (ck_run st1 size1 w2).
Proof.
  revert st size d1. induction w1 as [|c w1 IH]; intros st size d1 Hb Hi H; cbn [ck_run app] in *.
  - case_if_in H; [done|]. simplify_eq. rewrite ck_run_enter. split; [by apply ck_enter_running|].
    by destruct (ck_run st size1 w2).
  - apply Forall_cons_1 in Hb as [Hc Hb]. pose proof (ck_enter_running st size Hi) as Hr.
    destruct (ck_step false (ck_enter st size) size c) as [st' size'| | |] eqn:E; try done.
    + apply ck_step_running in E as [Hi' _]; [|done..]. by apply IH.
    + apply ck_step_data in E. rewrite E in Hr. apply ck_data_inv in Hr.
      destruct (ck_run sw_chunk_data (size - 1) w1) as [st2 size2 d2| |] eqn:E2; try done.
      cbn in H. simplify_eq. destruct (IH _ _ _ Hb Hr E2) as [? ->]. split; [done|].
      by destruct (ck_run st1 size1 w2).
Qed.

(** Before the end of a complete run, the parser asks for more. *)
Lemma ck_run_prefix st size w1 w2 d rest :
  bytes_ok (w1 ++ w2) -> ck_inv st size ->
  ck_run st size (w1 ++ w2) = RDone d rest -> (length rest < length w2)%nat ->
  exists st1 size1 d1, ck_run st size w1 = RMore st1 size1 d1.
Proof.
  revert st size d. induction w1 as [|c w1 IH]; intros st size d Hb Hi H Hl; cbn [ck_run app] in *.
  - case_if; [|eauto]. exfalso. zbool. destruct w2 as [|c w2]; [cbn in Hl; lia|]. bytes_inv.
    pose proof (ck_enter_running st size Hi) as [Hi' _]. cbn [ck_run] in H.
    unfold NGX_MAX_OFF_T_VALUE in *.
    destruct (ck_enter st size); cbn [ck_inv] in Hi'; unfold NGX_MAX_OFF_T_VALUE in Hi';
      change (9223372036854775807 / 16) with 576460752303423487 in Hi'; try lia.
    cbn [ck_step] in H. unfold ck_chunk_size, NGX_MAX_OFF_T_VALUE in H.
    rewrite (proj2 (Z.ltb_lt _ _)) in H; [done|].
    change (9223372036854775807 / 16) with 576460752303423487. lia.
  - apply Forall_cons_1 in Hb as [Hc Hb]. pose proof (ck_enter_running st size Hi) as Hr.
    destruct (ck_step false (ck_enter st size) size c) as [st' size'| | |] eqn:E; try done.
    + apply ck_step_running in E as [Hi' _]; [|done..]. by eapply IH.
    + apply ck_step_data in E. rewrite E in Hr. apply ck_data_inv in Hr.
      apply add_data_done in H as (d' & -> & H).
      destruct (IH _ _ _ Hb Hr H Hl) as (st1 & size1 & d1 & ->). cbn. eauto.
    + simplify_eq. rewrite length_app in Hl. lia.
Qed.

Lemma ck_min_length_step st size c st' size' :
  ck_running st size -> is_byte c -> ck_step false st size c = KNext st' size' ->
  ck_min_length st size <= 1 + ck_min_length st' size'.
Proof.
  intros [Hi Hd] Hc H.
  destruct st; cbn [ck_step ck_inv] in *;
    unfold ck_chunk_start, ck_chunk_size, ck_size_end, ck_line, ck_expect_lf, ck_after_data,
      ck_last_almost_done, ck_trailer, ck_trailer_almost_done in H;
    cbv zeta in H; repeat case_if_in H; simplify_eq; zbool; cbn [ck_min_length];
    repeat case_if; zbool; lia.
Qed.

Lemma ck_run_min_length st size w d rest :
  bytes_ok w -> ck_inv st size -> ck_run st size w = RDone d rest ->
  ck_min_length (ck_enter st size) size <= Z.of_nat (length w) - Z.of_nat (length rest).
Proof.
  revert st size d. induction w as [|c w IH]; intros st size d Hb Hi H; cbn [ck_run length] in *.
  - by case_if_in H.
  - apply Forall_cons_1 in Hb as [Hc Hb]. pose proof (ck_enter_running st size Hi) as Hr.
    destruct (ck_step false (ck_enter st size) size c) as [st' size'| | |] eqn:E; try done.
    + pose proof (ck_min_length_step _ _ _ _ _ Hr Hc E). apply ck_step_running in E as Hr'; [|done..].
      specialize (IH _ _ _ Hb (proj1 Hr') H). rewrite (ck_running_enter _ _ Hr') in IH. lia.
    + apply ck_step_data in E. rewrite E in Hr |- *. pose proof (ck_data_inv _ Hr) as Hi'.
      apply add_data_done in H as (d' & -> & H). specialize (IH _ _ _ Hb Hi' H).
      cbn [ck_enter] in IH. destruct (Z.eqb_spec (size - 1) 0); cbn [ck_min_length] in *; lia.
    + apply ck_step_done in E as [-> _]. simplify_eq. cbn [ck_min_length]. lia.
Qed.

Lemma ck_run_more st size w st1 size1 d :
  ck_run st size w = RMore st1 size1 d ->
  size1 <= NGX_MAX_OFF_T_VALUE - 9 /\ ck_enter st1 size1 = st1.
Proof.
  revert st size d. induction w as [|c w IH]; intros st size d H; cbn [ck_run] in H.
  - case_if_in H; [done|]. simplify_eq. zbool. split; [lia|apply ck_enter_idem].
  - destruct (ck_step false (ck_enter st size) size c); try done; [by eapply IH|].
    destruct (ck_run sw_chunk_data (size - 1) w) eqn:E; try done. cbn in H. simplify_eq. by eapply IH.
Qed.

Lemma ck_min_length_range st size :
  ck_inv st size -> size <= NGX_MAX_OFF_T_VALUE - 9 ->
  0 < ck_min_length st size <= NGX_MAX_OFF_T_VALUE.
Proof.
  unfold NGX_MAX_OFF_T_VALUE.
  intros Hi Hs. destruct st; cbn in *; repeat case_if; zbool; lia.
Qed.

(** ** The chain *)

Definition body_inv (r : body) : Prop := ck_inv (ck_st (bd_ctx r)) (ck_size (bd_ctx r)).

Abbreviation body_run r := (ck_run (ck_st (bd_ctx r)) (ck_size (bd_ctx r))).

(** The first buffer of a chain. *)
Lemma chain_first max hsize r mem chain :
  bytes_ok mem -> body_inv r ->
  let run := body_run r mem in
  (over_limit max (bd_content_length_n r) run
   /\ chunked_filter_loop max hsize r (mem :: chain) = Some (inr NGX_HTTP_REQUEST_ENTITY_TOO_LARGE))
  \/ match run with
     | RDone d rest => exists r', chunked_filter_loop max hsize r (mem :: chain)
           = chunked_filter_loop max hsize r' chain
         /\ bd_out r' = bd_out r ++ d /\ bd_last_buf r' = true /\ bd_unread r' = rest
         /\ bd_content_length_n r' = bd_content_length_n r + Z.of_nat (length d) /\ bd_rest r' = 0
         /\ (max <> 0 -> bd_content_length_n r <= max -> bd_content_length_n r' <= max)
     | RMore st size d => exists r', chunked_filter_loop max hsize r (mem :: chain)
           = chunked_filter_loop max hsize r' chain
         /\ bd_out r' = bd_out r ++ d /\ bd_last_buf r' = bd_last_buf r /\ bd_unread r' = []
         /\ bd_content_length_n r' = bd_content_length_n r + Z.of_nat (length d)
         /\ bd_rest r' = Z.max (ck_min_length st size) hsize
         /\ bd_ctx r' = MkChunked st size (ck_min_length st size)
         /\ (max <> 0 -> bd_content_length_n r <= max -> bd_content_length_n r' <= max)
     | RErr => chunked_filter_loop max hsize r (mem :: chain) = Some (inr NGX_HTTP_BAD_REQUEST)
     end.
Proof.
  intros Hb Hi run. cbn [chunked_filter_loop].
  set (f := MkFbuf mem 0 (bd_ctx r) (bd_content_length_n r) []).
  destruct (filter_buf_spec max (S (length mem)) f) as (res & -> & Hres).
  { split_and!; cbn; [done|by rewrite drop_0|lia|done]. }
  { cbn [f fb_pos fb_mem]. rewrite drop_0. lia. }
  cbn [f fb_ctx fb_pos fb_mem fb_len] in Hres. rewrite drop_0 in Hres. fold run in Hres.
  cbn [mbind option_bind]. destruct Hres as [Hres|[-> Hov]]; [right|left; by split].
  destruct run as [st size d|d rest|]; cbn [buf_spec] in Hres; [| |by subst].
  - destruct Hres as (f' & -> & (H1 & H2 & H3) & H4 & H5). eexists. split; [reflexivity|].
    cbn. rewrite H5. cbn. rewrite H2, H4. cbn in *. split_and!; try done.
  - destruct Hres as (f' & -> & (H1 & H2 & H3) & H4 & H5). eexists. split; [reflexivity|].
    cbn. rewrite H2. cbn in *. split_and!; try done.
Qed.

(** A complete body, cut into buffers anywhere, from any point of the stream. *)
Lemma chain_complete max hsize frs l extra r d :
  bytes_ok (concat frs ++ l ++ extra) -> l <> [] -> body_inv r ->
  body_run r (concat frs ++ l ++ extra) = RDone d extra ->
  max = 0 \/ bd_content_length_n r + Z.of_nat (length d) <= max ->
  exists r', chunked_filter_loop max hsize r (frs ++ [l ++ extra]) = Some (inl r')
    /\ bd_out r' = bd_out r ++ d /\ bd_last_buf r' = true /\ bd_unread r' = extra
    /\ bd_content_length_n r' = bd_content_length_n r + Z.of_nat (length d) /\ bd_rest r' = 0.
Proof.
  revert r d. induction frs as [|mem frs IH]; intros r d Hb Hl Hi Hrun Hmax; cbn [concat app] in *.
  - destruct (chain_first max hsize r (l ++ extra) [] Hb Hi) as [[[Hm Hov] _]|H]; rewrite Hrun in *; [lia|].
    destruct H as (r' & -> & H). exists r'. split; [done|]. destruct_and!. by split_and!.
  - rewrite <- app_assoc in Hb, Hrun. pose proof (Forall_app_inv _ _ _ Hb) as [Hb1 Hb2].
    destruct (ck_run_prefix _ _ mem (concat frs ++ l ++ extra) d extra Hb Hi Hrun)
      as (st1 & size1 & d1 & E).
    { rewrite !length_app. destruct l; [done|cbn; lia]. }
    destruct (ck_run_app _ _ mem (concat frs ++ l ++ extra) _ _ _ Hb1 Hi E) as [Hi1 Happ].
    rewrite Hrun in Happ.
    destruct (ck_run st1 size1 (concat frs ++ l ++ extra)) as [|d2 rest2|] eqn:E2; try done.
    cbn in Happ. injection Happ as -> <-.
    assert (Hsz : size1 <= Z.of_nat (length d2)).
    { pose proof (ck_run_size st1 size1 _ Hb2 Hi1) as H. by rewrite E2 in H. }
    rewrite length_app in Hmax.
    destruct (chain_first max hsize r mem (frs ++ [l ++ extra]) Hb1 Hi) as [[[Hm Hov] _]|H];
      rewrite E in *; [lia|].
    destruct H as (r1 & -> & H1 & H2 & H3 & H4 & H5 & H6 & _).
    destruct (IH r1 d2) as (r' & -> & H); try done.
    + unfold body_inv. by rewrite H6.
    + rewrite H6. done.
    + rewrite H4. lia.
    + exists r'. destruct H as (-> & -> & -> & -> & ->). rewrite H1, H4, length_app.
      split_and!; try done; [by rewrite app_assoc|lia].
Qed.

(** C11. Every chunked body is decoded, however it arrives: when the bytes [w] form a
    chunked body carrying [d] (hexadecimal sizes up to NGX_MAX_OFF_T_VALUE / 16,
    extensions, trailers) and reach the server in any sequence of buffers, the last
    one followed by the bytes [extra] of the next request, and [d] does not exceed
    client_max_body_size, then the filter hands on exactly [d], marks the end,
    counts its length, and leaves [extra] unread. *)
Theorem chunked_body_decoded (max hsize : Z) (w d extra : list Z) (frs : list (list Z)) (l : list Z)
    (Hw : chunked_body w d) (Hb : bytes_ok (w ++ extra)) (Hfr : concat frs ++ l = w) (Hl : l <> [])
    (Hmax : max = 0 \/ Z.of_nat (length d) <= max) :
  exists r, ngx_http_request_body_chunked_filter max hsize new_body (frs ++ [l ++ extra]) = Some (inl r)
    /\ bd_out r = d /\ bd_last_buf r = true /\ bd_unread r = extra
    /\ bd_content_length_n r = Z.of_nat (length d) /\ bd_rest r = 0.
Proof.
  unfold ngx_http_request_body_chunked_filter. cbn [bd_rest new_body].
  destruct (chain_complete max hsize frs l extra
    (MkBody new_chunked 0 hsize [] false []) d) as (r & Hr & H); try done.
  - by rewrite app_assoc, Hfr.
  - rewrite app_assoc, Hfr. apply Forall_app_inv in Hb as [Hb _]. by apply run_lang.
  - exists r. by split.
Qed.

Lemma chunked_body_decoded_witness :
  exists r, ngx_http_request_body_chunked_filter 10 1024 new_body
      [str("4;a"); [13; 10] ++ str("dat"); str("a") ++ [13; 10] ++ str("0") ++ [13; 10; 13; 10] ++ str("GET")]
    = Some (inl r) /\ bd_out r = str("data") /\ bd_unread r = str("GET").
Proof.
  destruct (chunked_body_decoded 10 1024
    (str("4") ++ str(";a") ++ CRLF ++ str("data") ++ CRLF ++ str("0") ++ [] ++ CRLF ++ CRLF)
    (str("data") ++ []) str("GET") [str("4;a"); [13; 10] ++ str("dat")]
    (str("a") ++ [13; 10] ++ str("0") ++ [13; 10; 13; 10])) as (r & H & H1 & H2 & H3 & _).
  - apply body_chunk; [done|done|done|done| |].
    + split; [by left|]. repeat constructor; discriminate.
    + apply (body_last str("0")); [done|done|done|constructor].
  - by_evaluation.
  - reflexivity.
  - done.
  - right. cbn. lia.
  - exists r. split; [exact H|]. split; [exact H1|exact H3].
Defined.

(** The state between calls: the bytes so far, none of them the end of the body. *)
Lemma chain_open max hsize frs r r1 :
  bytes_ok (concat frs) -> body_inv r -> 0 <= hsize -> 0 <= bd_rest r ->
  chunked_filter_loop max hsize r frs = Some (inl r1) -> bd_last_buf r1 = false ->
  exists d, bd_out r1 = bd_out r ++ d /\ body_inv r1 /\ 0 <= bd_rest r1 /\
    bd_content_length_n r1 = bd_content_length_n r + Z.of_nat (length d) /\
    (max <> 0 -> bd_content_length_n r <= max -> bd_content_length_n r1 <= max) /\
    forall w, body_run r (concat frs ++ w) = add_data d (body_run r1 w).
Proof.
  revert r. induction frs as [|mem frs IH]; intros r Hb Hi Hh Hrest H Hlast.
  - cbn in H. simplify_eq. exists []. rewrite app_nil_r. cbn [length]. split_and!; try done; [lia|].
    intros w. cbn. by destruct (ck_run _ _ w).
  - cbn [concat] in Hb. apply Forall_app_inv in Hb as [Hb1 Hb2].
    assert (Hmono : forall frs r r1, chunked_filter_loop max hsize r frs = Some (inl r1) ->
      bd_last_buf r = true -> bd_last_buf r1 = true).
    { clear. induction frs as [|m frs IH]; intros r r1 H Hr; cbn [chunked_filter_loop] in H; [by simplify_eq|].
      destruct (filter_buf _ _ _) as [[f|f|st]|]; cbn in H; try done; eapply IH in H; done. }
    destruct (chain_first max hsize r mem frs Hb1 Hi) as [[_ E]|E]; [by rewrite E in H|].
    destruct (body_run r mem) as [st size d| d rest|] eqn:Erun.
    + destruct E as (r2 & E & H1 & H2 & H3 & H4 & H5 & H6 & H7). rewrite E in H.
      destruct (ck_run_app _ _ mem [] _ _ _ Hb1 Hi Erun) as [Hi2 _].
      destruct (IH r2) as (d2 & Ho & Hi1 & Hr1 & Hn & Hmx & Hrun2); try done.
      { unfold body_inv. by rewrite H6. } { rewrite H5. lia. }
      exists (d ++ d2). rewrite Ho, H1, app_assoc, length_app. split_and!; try done; [lia|auto|].
      intros w. cbn [concat].
      rewrite <- app_assoc.
      destruct (ck_run_app _ _ mem (concat frs ++ w) _ _ _ Hb1 Hi Erun) as [_ ->].
      specialize (Hrun2 w). rewrite H6 in Hrun2. cbn in Hrun2. rewrite Hrun2.
      destruct (body_run r1 w); cbn; by rewrite ?app_assoc.
    + destruct E as (r2 & E & H1 & H2 & _). rewrite E in H. by rewrite (Hmono _ _ _ H H2) in Hlast.
    + by rewrite E in H.
Qed.

(** C12. Nothing else is accepted as a chunked body: when the buffers [frs] were
    consumed without reaching the end of the body and the buffer [l] then ends it,
    the bytes received, less the ones left unread, are a chunked body and the bytes
    handed on are the data it carries, within client_max_body_size. *)
Theorem chunked_body_sound (max hsize : Z) (frs : list (list Z)) (l : list Z) (r1 r2 : body)
    (Hh : 0 <= hsize) (Hm : 0 <= max) (Hb : bytes_ok (concat frs ++ l))
    (H1 : ngx_http_request_body_chunked_filter max hsize new_body frs = Some (inl r1))
    (Hopen : bd_last_buf r1 = false)
    (H2 : ngx_http_request_body_chunked_filter max hsize r1 [l] = Some (inl r2))
    (Hend : bd_last_buf r2 = true) :
  exists w, concat frs ++ l = w ++ bd_unread r2 /\ chunked_body w (bd_out r2)
    /\ bd_content_length_n r2 = Z.of_nat (length (bd_out r2))
    /\ (max <> 0 -> Z.of_nat (length (bd_out r2)) <= max).
Proof.
  unfold ngx_http_request_body_chunked_filter in *. cbn [bd_rest new_body] in H1.
  pose proof (Forall_app_inv _ _ _ Hb) as [Hb1 Hb2].
  destruct (chain_open max hsize frs (MkBody new_chunked 0 hsize [] false []) r1 Hb1 eq_refl Hh Hh H1 Hopen)
    as (d & Ho & Hi & Hr & Hn & Hmx & Hrun). cbn [bd_out app bd_content_length_n] in Ho, Hn, Hmx.
  destruct (Z.eqb_spec (bd_rest r1) (-1)) as [Hr'|_]; [cbn in Hr; lia|].
  destruct (chain_first max hsize r1 l [] Hb2 Hi) as [[_ E]|E]; [by rewrite E in H2|].
  destruct (body_run r1 l) as [st size d2| d2 rest|] eqn:Erun; [| |by rewrite E in H2].
  - destruct E as (r' & E & _ & E2 & _). rewrite E in H2. cbn in H2. simplify_eq. congruence.
  - destruct E as (r' & E & E1 & E2 & E3 & E4 & _ & E5). rewrite E in H2. cbn in H2. simplify_eq.
    assert (Hlen : bd_content_length_n r2 = Z.of_nat (length (bd_out r2)))
      by (rewrite E1, E4, Hn, length_app; lia).
    specialize (Hrun l). rewrite Erun in Hrun. cbn [add_data ck_st ck_size bd_ctx new_chunked] in Hrun.
    destruct (run_done_suffix _ _ _ _ _ Hrun) as (w & Hw & _). exists w.
    rewrite Hw in Hrun, Hb. apply Forall_app_inv in Hb as [Hbw _]. apply run_lang in Hrun; [|done..].
    split_and!; [done|by rewrite E1|done|]. intros Hm0. rewrite <- Hlen. auto.
Qed.

Lemma chunked_body_sound_witness :
  exists w d, [str("2") ++ CRLF; str("ok") ++ CRLF ++ str("0") ++ CRLF ++ CRLF ++ str("X")]
      = [str("2") ++ CRLF; skipn 3 w ++ str("X")] /\ chunked_body w d.
Proof.
  destruct (chunked_body_sound 0 8 [str("2") ++ CRLF]
    (str("ok") ++ CRLF ++ str("0") ++ CRLF ++ CRLF ++ str("X"))
    (MkBody (MkChunked sw_chunk_data 2 9) 0 9 [] false [])
    (MkBody (MkChunked sw_chunk_start 0 9) 2 0 str("ok") true str("X"))) as (w & Hw & Hb & _).
  - lia.
  - lia.
  - by_evaluation.
  - vm_compute. reflexivity.
  - reflexivity.
  - vm_compute. reflexivity.
  - reflexivity.
  - exists w, str("ok"). split; [|exact Hb].
    change (concat [str("2") ++ CRLF] ++ str("ok") ++ CRLF ++ str("0") ++ CRLF ++ CRLF ++ str("X"))
      with ((str("2") ++ CRLF ++ str("ok") ++ CRLF ++ str("0") ++ CRLF ++ CRLF) ++ str("X")) in Hw.
    cbn [bd_unread] in Hw. apply app_inv_tail in Hw. rewrite <- Hw. reflexivity.
Defined.

(** While a body is incomplete, [ctx->length] is a lower bound on the bytes
    still to come, so waiting for that many never waits past the end of the body; it
    is positive and computed without overflow. *)
Theorem chunked_length_minimal (max hsize : Z) (w1 w2 d : list Z) (r : body)
    (Hh : 0 <= hsize) (Hb : bytes_ok (w1 ++ w2)) (Hw : chunked_body (w1 ++ w2) d)
    (H : ngx_http_request_body_chunked_filter max hsize new_body [w1] = Some (inl r))
    (Hopen : bd_last_buf r = false) :
  0 < ck_length (bd_ctx r) <= Z.of_nat (length w2)
  /\ ck_length (bd_ctx r) <= NGX_MAX_OFF_T_VALUE
  /\ bd_rest r = Z.max (ck_length (bd_ctx r)) hsize.
Proof.
  unfold ngx_http_request_body_chunked_filter in H. cbn [bd_rest new_body] in H.
  pose proof (Forall_app_inv _ _ _ Hb) as [Hb1 Hb2].
  apply (run_lang sw_chunk_start 0 _ _ []) in Hw; [|done|done]. rewrite app_nil_r in Hw.
  set (r0 := MkBody new_chunked 0 hsize [] false []) in *.
  change (chunked_filter_loop max hsize r0 [w1] = Some (inl r)) in H.
  destruct (chain_first max hsize r0 w1 [] Hb1 eq_refl) as [[_ E]|E]; [by rewrite E in H|].
  destruct (body_run r0 w1) as [st size d1| d1 rest|] eqn:Erun; [| |by rewrite E in H].
  - destruct E as (r' & E & _ & _ & _ & _ & H5 & H6 & _). rewrite E in H. cbn in H. simplify_eq.
    destruct (ck_run_app sw_chunk_start 0 w1 w2 _ _ _ Hb1 eq_refl Erun) as [Hi Happ].
    change (body_run r0 (w1 ++ w2)) with (ck_run sw_chunk_start 0 (w1 ++ w2)) in Happ.
    rewrite Hw in Happ. destruct (ck_run st size w2) as [|d2 rest2|] eqn:E2; try done.
    cbn in Happ. injection Happ as -> <-.
    destruct (ck_run_more _ _ _ _ _ _ Erun) as [Hsz Hent].
    pose proof (ck_run_min_length st size w2 d2 [] Hb2 Hi E2) as Hmin.
    pose proof (ck_min_length_range st size Hi Hsz). rewrite Hent in Hmin. rewrite H5, H6. cbn in *. lia.
  - destruct E as (r' & E & _ & E2 & _). rewrite E in H. cbn in H. simplify_eq. congruence.
Qed.

Lemma chunked_length_minimal_witness :
  exists r, ngx_http_request_body_chunked_filter 0 8 new_body [str("2") ++ CRLF ++ str("o")] = Some (inl r)
    /\ 0 < ck_length (bd_ctx r) <= 8.
Proof.
  destruct (chunked_length_minimal 0 8 (str("2") ++ CRLF ++ str("o"))
    (str("k") ++ CRLF ++ str("0") ++ CRLF ++ CRLF) (str("ok") ++ [])
    (MkBody (MkChunked sw_chunk_data 1 8) 1 8 str("o") false [])) as (H & _).
  - lia.
  - by_evaluation.
  - apply (body_chunk str("2") [] str("ok")); [done|done|done|done|done|].
    apply (body_last str("0") []); [done|done|done|constructor].
  - vm_compute. reflexivity.
  - reflexivity.
  - eexists. split; [vm_compute; reflexivity|exact H].
Defined.
