(* ===== verification/RoundRobin.v ===== *)
(** * Upstream round robin: src/http/ngx_http_upstream_round_robin.c

    Peer selection (ngx_http_upstream_get_round_robin_peer, ngx_http_upstream_get_peer,
    ngx_http_upstream_adapte_rr_peer_weight) and release
    (ngx_http_upstream_free_round_robin_peer_locked), with the build options that
    auto/modules always sets (T_NGX_HTTP_UPSTREAM_RANDOM,
    T_NGX_HTTP_ROUND_ROBIN_OPT_ALI) and NGX_HTTP_UPSTREAM_ZONE; the sticky option
    NGX_HTTP_UPSTREAM_SID is off.

    The linked list of peers is a list, a [peer] pointer an index into it, and
    following [peer->next] past the end is NULL.  Reading through NULL or outside
    [rrp->tried] makes the result [None], so a theorem that gives a result also shows
    that neither happens.  ngx_random() and the verdict of the health checker
    (ngx_http_upstream_check_peer_down, kept by another module in shared memory)
    are arguments. *)

From S2P Require Import Prelude.

Record peer := MkPeer {
  current_weight : Z;
  effective_weight : Z;
  weight : Z;
  conns : Z;
  max_conns : Z;
  fails : Z;
  accessed : Z;
  checked : Z;
  max_fails : Z;
  fail_timeout : Z;
  down : bool;
  check_index : Z;
  refs : Z;
}.

Definition set_weights (cw ew : Z) (p : peer) : peer :=
  let '(MkPeer _ _ w co mc f a c mf ft d ci r) := p in MkPeer cw ew w co mc f a c mf ft d ci r.
Definition set_conns (co : Z) (p : peer) : peer :=
  let '(MkPeer cw ew w _ mc f a c mf ft d ci r) := p in MkPeer cw ew w co mc f a c mf ft d ci r.
Definition set_fails (f a c : Z) (p : peer) : peer :=
  let '(MkPeer cw ew w co mc _ _ _ mf ft d ci r) := p in MkPeer cw ew w co mc f a c mf ft d ci r.
Definition set_refs (r : Z) (p : peer) : peer :=
  let '(MkPeer cw ew w co mc f a c mf ft d ci _) := p in MkPeer cw ew w co mc f a c mf ft d ci r.

(** ngx_http_upstream_rr_peers_t.  [init_number] and [last_number] are [None] for
    NGX_CONF_UNSET_UINT; [last_peer] is set together with [last_number] and is the
    peer at that position as long as the set is intact, so it is not kept apart;
    [config] is [None] when the pointer is NULL. *)
Record peers := MkPeers {
  plist : list peer;
  init_number : option nat;
  last_number : option nat;
  last_config : Z;
  config : option Z;
  weighted : bool;
  single : bool;
}.

Definition number (g : peers) : nat := length (plist g).
Definition set_plist (l : list peer) (g : peers) : peers :=
  let '(MkPeers _ i n lc c w s) := g in MkPeers l i n lc c w s.
Definition set_init (i : option nat) (g : peers) : peers :=
  let '(MkPeers l _ n lc c w s) := g in MkPeers l i n lc c w s.
Definition set_last (n : option nat) (lc : Z) (g : peers) : peers :=
  let '(MkPeers l i _ _ c w s) := g in MkPeers l i n lc c w s.

(** ** The bitmap of tried peers: 64-bit words *)

Definition tried_word (tried : list Z) (i : nat) : option Z := tried !! (i / 64)%nat.
Definition tried_mask (i : nat) : Z := u64 (Z.shiftl 1 (Z.of_nat (i mod 64))).
Definition is_tried (tried : list Z) (i : nat) : option bool :=
  w ← tried_word tried i; Some (negb (Z.land w (tried_mask i) =? 0)).
Definition set_tried (tried : list Z) (i : nat) : option (list Z) :=
  w ← tried_word tried i; Some (<[(i / 64)%nat := Z.lor w (tried_mask i)]> tried).

Section Selection.
Context (check_peer_down : Z -> bool).

(** The guards of the scan, other than the bitmap. *)
Definition peer_available (now : Z) (p : peer) : bool :=
  negb (down p) && negb (check_peer_down (check_index p))
  && negb (negb (max_fails p =? 0) && (max_fails p <=? fails p)
           && (now - checked p <=? fail_timeout p))
  && negb (negb (max_conns p =? 0) && (max_conns p <=? conns p)).

(** The variables of the loop: the peers, [best], [p], [total], and whether the
    unweighted branch recorded [last_peer]. *)
Record scan := MkScan {
  sc_peers : list peer;
  sc_best : option nat;
  sc_p : nat;
  sc_total : Z;
}.

(** The weighted part of the loop body, for the peer at [j], position [i]. *)
Definition account (i j : nat) (p : peer) (s : scan) : scan :=
  let cw := current_weight p + effective_weight p in
  let ew := if effective_weight p <? weight p then effective_weight p + 1 else effective_weight p in
  let l := <[j := set_weights cw ew p]> (sc_peers s) in
  let better :=
    match sc_best s with
    | None => true
    | Some b => match sc_peers s !! b with
                | Some q => current_weight q <? cw
                | None => false
                end
    end in
  MkScan l (if better then Some j else sc_best s) (if better then i else sc_p s)
    (sc_total s + effective_weight p).

(** The ring scan; [flag] is true in the first iteration.  Between iterations
    [i = (i + 1) % number] and [peer = peer->next ? peer->next : first]. *)
Fixpoint scan_loop (fuel : nat) (now : Z) (tried : list Z) (is_weighted : bool)
    (begin i : nat) (flag : bool) (j : nat) (s : scan) : option scan :=
  match fuel with
  | O => None
  | S fuel' =>
      if (i =? begin)%nat && negb flag then Some s
      else
        p ← sc_peers s !! j;
        t ← is_tried tried i;
        let n := length (sc_peers s) in
        let next := scan_loop fuel' now tried is_weighted begin ((i + 1) mod n)%nat false
                      (if (S j <? n)%nat then S j else O) in
        if (t : bool) then next s
        else if negb (peer_available now p) then next s
        else if negb is_weighted then Some (MkScan (sc_peers s) (Some j) i (sc_total s))
        else next (account i j p s)
  end.

(** The position where the scan starts, with its peer. *)
Definition scan_begin (g : peers) (init : nat) : nat * nat :=
  if negb (weighted g) then
    match last_number g with
    | None => (init, init)
    | Some ln =>
        if (ln <? number g)%nat
           && match config g with None => true | Some c => last_config g =? c end
           && (S ln <? number g)%nat
        then (((ln + 1) mod number g)%nat, S ln)
        else (O, O)
    end
  else (init, init).

(** [init_number], drawn or brought back into range. *)
Definition scan_init (rnd : Z) (g : peers) : nat :=
  match init_number g with
  | None => Z.to_nat (rnd mod Z.of_nat (number g))
  | Some i => if (i <? number g)%nat then i else (i mod number g)%nat
  end.

(** What is done to the peer chosen by the scan. *)
Definition best_chosen (now total : Z) (p : peer) : peer :=
  let p := set_weights (current_weight p - total) (effective_weight p) p in
  let p := set_refs (refs p + 1) p in
  if fail_timeout p <? now - checked p then set_fails (fails p) (accessed p) now p else p.

(** ngx_http_upstream_get_peer: the inner [None] is NULL. *)
Definition ngx_http_upstream_get_peer (now rnd : Z) (g : peers) (tried : list Z)
    : option (peers * list Z * option nat) :=
  if (number g =? 0)%nat then Some (g, tried, None)
  else
    let init := scan_init rnd g in
    let g := set_init (Some init) g in
    let '(begin, j) := scan_begin g init in
    s ← scan_loop (S (number g)) now tried (weighted g) begin begin true j
          (MkScan (plist g) None O 0);
    match sc_best s with
    | None => Some (set_plist (sc_peers s) g, tried, None)
    | Some b =>
        let g := if weighted g then g
                 else set_last (Some (sc_p s)) (default 0 (config g)) g in
        p ← sc_peers s !! b;
        tried' ← set_tried tried (sc_p s);
        Some (set_plist (<[b := best_chosen now (sc_total s) p]> (sc_peers s)) g, tried', Some b)
    end.

(** ngx_http_upstream_adapte_rr_peer_weight: one round without a request. *)
Fixpoint adapt_loop (fuel : nat) (begin i : nat) (flag : bool) (j : nat) (s : scan) : option scan :=
  match fuel with
  | O => None
  | S fuel' =>
      if (i =? begin)%nat && negb flag then Some s
      else
        p ← sc_peers s !! j;
        let cw := current_weight p + effective_weight p in
        let l := <[j := set_weights cw (effective_weight p) p]> (sc_peers s) in
        let better :=
          match sc_best s with
          | None => true
          | Some b => match sc_peers s !! b with
                      | Some q => current_weight q <? cw
                      | None => false
                      end
          end in
        let n := length (sc_peers s) in
        adapt_loop fuel' begin ((i + 1) mod n)%nat false (if (S j <? n)%nat then S j else O)
          (MkScan l (if better then Some j else sc_best s) i (sc_total s + effective_weight p))
  end.

Definition ngx_http_upstream_adapte_rr_peer_weight (rnd : Z) (g : peers) : option peers :=
  let init := match init_number g with
              | None => Z.to_nat (rnd mod Z.of_nat (number g)) | Some i => i end in
  let g := set_init (Some init) g in
  let begin := (init mod number g)%nat in
  s ← adapt_loop (S (number g)) begin begin true begin (MkScan (plist g) None O 0);
  match sc_best s with
  | None => Some (set_plist (sc_peers s) g)
  | Some b =>
      p ← sc_peers s !! b;
      Some (set_plist (<[b := set_weights (current_weight p - sc_total s) (effective_weight p) p]>
                         (sc_peers s)) g)
  end.

(** The discarded rounds of the first weighted selection in a worker. *)
Fixpoint discard_rounds (n : nat) (rnd : Z) (g : peers) : option peers :=
  match n with
  | O => Some g
  | S n' => g' ← ngx_http_upstream_adapte_rr_peer_weight rnd g; discard_rounds n' rnd g'
  end.

Definition discarded_number (rnd : Z) (range : option Z) (g : peers) : Z :=
  let range := default (Z.of_nat (number g)) range in
  let d := rnd mod Z.of_nat (number g) in
  if range =? 0 then d else d mod range.

(** The request side: [rrp_groups] is rrp->peers followed by its backups,
    [rrp_config] the configuration number the request started with; [discarded] is
    the worker's ngx_rr_discarded_init. *)
Inductive rr_result :=
| RROk (current : nat)
| RRBusy.

(** Selection in one group: [inl] is [goto failed] or [goto busy]. *)
Definition get_in_group (now : Z) (rnds : Z * Z) (range : option Z) (rrp_config : Z)
    (discarded : bool) (g : peers) (tried : list Z)
    : option (peers * list Z * bool * (bool + nat)) :=
  if match config g with Some c => negb (rrp_config =? c) | None => false end
  then Some (g, tried, discarded, inl false)
  else if single g then
    p ← plist g !! O;
    if down p || (negb (max_conns p =? 0) && (max_conns p <=? conns p))
       || check_peer_down (check_index p)
    then Some (g, tried, discarded, inl true)
    else
      let p := set_conns (conns p + 1) (set_refs (refs p + 1) p) in
      Some (set_plist (<[O := p]> (plist g)) g, tried, discarded, inr O)
  else
    let go := negb discarded && weighted g && negb (number g =? 0)%nat in
    g ← (if go then discard_rounds (S (Z.to_nat (discarded_number (fst rnds) range g))) (snd rnds) g
         else Some g);
    let discarded := discarded || go in
    '(g, tried, best) ← ngx_http_upstream_get_peer now (snd rnds) g tried;
    match best with
    | None => Some (g, tried, discarded, inl true)
    | Some b =>
        p ← plist g !! b;
        Some (set_plist (<[b := set_conns (conns p + 1) p]> (plist g)) g, tried, discarded, inr b)
    end.

(** ngx_http_upstream_get_round_robin_peer over the groups: the result has the
    updated groups and the number of groups rrp->peers has moved past. *)
Fixpoint ngx_http_upstream_get_round_robin_peer (now : Z) (rnds : list (Z * Z)) (range : option Z)
    (rrp_config : Z) (discarded : bool) (groups : list peers) (tried : list Z)
    : option (list peers * list Z * bool * nat * rr_result) :=
  match groups, rnds with
  | g :: rest, rnd :: rnds' =>
      '(g, tried, discarded, r) ← get_in_group now rnd range rrp_config discarded g tried;
      match r with
      | inr b => Some (g :: rest, tried, discarded, O, RROk b)
      | inl false => Some (g :: rest, tried, discarded, O, RRBusy)
      | inl true =>
          match rest with
          | [] => Some ([g], tried, discarded, O, RRBusy)
          | next :: _ =>
              let words := ((number next + 63) / 64)%nat in
              let tried := replicate (Nat.min words (length tried)) 0 ++ drop words tried in
              '(rest, tried, discarded, k, r) ←
                ngx_http_upstream_get_round_robin_peer now rnds' range rrp_config discarded rest tried;
              Some (g :: rest, tried, discarded, S k, r)
          end
      end
  | _, _ => None
  end.
End Selection.

(** The bitmap a request starts with: ngx_http_upstream_init_round_robin_peer. *)
Definition fresh_tried (n : nat) : list Z :=
  if (n <=? 64)%nat then [0] else replicate ((n + 63) / 64) 0.

(** ** Release *)

Definition NGX_PEER_FAILED : Z := 4.

(** ngx_http_upstream_free_round_robin_peer_locked on the current peer; the result
    is the peer and [pc->tries]. *)
Definition ngx_http_upstream_free_round_robin_peer_locked (now : Z) (is_single : bool)
    (state tries : Z) (p : peer) : peer * Z :=
  let release p := set_refs (refs p - 1) (set_conns (u64 (conns p - 1)) p) in
  if is_single then (release (set_fails 0 (accessed p) (checked p) p), 0)
  else
    let p :=
      if negb (Z.land state NGX_PEER_FAILED =? 0) then
        let p := set_fails (fails p + 1) now now p in
        let p := if max_fails p =? 0 then p
                 else set_weights (current_weight p)
                        (effective_weight p - weight p / max_fails p) p in
        if effective_weight p <? 0 then set_weights (current_weight p) 0 p else p
      else if accessed p <? checked p then set_fails 0 (accessed p) (checked p) p
      else p in
    (release p, if tries =? 0 then 0 else tries - 1).

(** ** Example: weights 5, 1, 1 *)

Definition mk_peer (w : Z) : peer := MkPeer 0 w w 0 0 0 0 0 1 10 false 0 0.
Definition mk_group (ws : list Z) : peers :=
  MkPeers (map mk_peer ws) (Some O) None 0 None true false.

Fixpoint pick_seq (n : nat) (g : peers) : list nat :=
  match n with
  | O => []
  | S n' => match ngx_http_upstream_get_peer (fun _ => false) 0 0 g [0] with
            | Some (g', _, Some b) => b :: pick_seq n' g'
            | _ => []
            end
  end.

Example smooth_511 : pick_seq 7 (mk_group [5; 1; 1]) = [0; 0; 1; 0; 2; 0; 0]%nat.
Proof. vm_compute. reflexivity. Qed.

(** ** Sums over the peers *)

Fixpoint sumi (f : nat -> peer -> Z) (k : nat) (l : list peer) : Z :=
  match l with
  | [] => 0
  | p :: l' => f k p + sumi f (S k) l'
  end.

Abbreviation sum_peers f l := (sumi f O l).

Lemma sumi_ext f h k l :
  (forall i p, l !! i = Some p -> f (k + i)%nat p = h (k + i)%nat p) -> sumi f k l = sumi h k l.
Proof.
  revert k. induction l as [|p l IH]; intros k H; [done|]. cbn. f_equal.
  - specialize (H O p eq_refl). by rewrite Nat.add_0_r in H.
  - apply IH. intros i q Hq. specialize (H (S i) q Hq). by rewrite Nat.add_succ_r in H.
Qed.

Lemma sumi_add f h k l : sumi (fun i p => f i p + h i p) k l = sumi f k l + sumi h k l.
Proof. revert k. induction l as [|p l IH]; intros k; cbn; [done|]. rewrite IH. lia. Qed.

Lemma sumi_scale c f k l : sumi (fun i p => c * f i p) k l = c * sumi f k l.
Proof. revert k. induction l as [|p l IH]; intros k; cbn; [lia|]. rewrite IH. lia. Qed.

Lemma sumi_insert f k l i p q :
  l !! i = Some p -> sumi f k (<[i := q]> l) = sumi f k l - f (k + i)%nat p + f (k + i)%nat q.
Proof.
  revert k i. induction l as [|x l IH]; intros k [|i] H; try done.
  - cbn in H. simplify_eq. rewrite Nat.add_0_r. cbn. lia.
  - change (<[S i := q]> (x :: l)) with (x :: <[i := q]> l). cbn [sumi].
    rewrite (IH (S k) i H), Nat.add_succ_r. cbn [Nat.add]. lia.
Qed.

Lemma sumi_le f h k l :
  (forall i p, l !! i = Some p -> f (k + i)%nat p <= h (k + i)%nat p) -> sumi f k l <= sumi h k l.
Proof.
  revert k. induction l as [|p l IH]; intros k H; cbn; [lia|].
  pose proof (H O p eq_refl) as H0. rewrite Nat.add_0_r in H0.
  assert (sumi f (S k) l <= sumi h (S k) l); [|lia].
  apply IH. intros i q Hq. specialize (H (S i) q Hq). by rewrite Nat.add_succ_r in H.
Qed.

(** A sum of terms that are all at most zero is not positive. *)
Lemma sumi_pos f k l : 0 < sumi f k l -> exists i p, l !! i = Some p /\ 0 < f (k + i)%nat p.
Proof.
  revert k. induction l as [|p l IH]; intros k H; cbn in H; [lia|].
  destruct (decide (0 < f k p)).
  - exists O, p. rewrite Nat.add_0_r. done.
  - destruct (IH (S k)) as (i & q & Hq & Hf); [lia|].
    exists (S i), q. rewrite Nat.add_succ_r. done.
Qed.

Lemma sumi_fmap f h k l l' :
  (forall i, l' !! i = h (k + i)%nat <$> l !! i) -> sumi f k l' = sumi (fun i p => f i (h i p)) k l.
Proof.
  revert k l'. induction l as [|p l IH]; intros k l' H.
  - destruct l' as [|x l']; [done|]. specialize (H O). done.
  - destruct l' as [|x l']; [specialize (H O); done|]. cbn [sumi].
    pose proof (H O) as H0. cbn in H0. rewrite Nat.add_0_r in H0. simplify_eq. f_equal.
    apply IH. intros i. specialize (H (S i)). cbn in H. by rewrite Nat.add_succ_r in H.
Qed.

Lemma sumi_zero k l : sumi (fun _ _ => 0) k l = 0.
Proof. revert k. induction l as [|p l IH]; intros k; [done|]. cbn [sumi]. rewrite IH. done. Qed.

Lemma sumi_nonneg_zero f k l i p :
  (forall i p, l !! i = Some p -> 0 <= f (k + i)%nat p) -> sumi f k l = 0 -> l !! i = Some p ->
  f (k + i)%nat p = 0.
Proof.
  revert k i. induction l as [|x l IH]; intros k i Hf Hs Hi; [done|]. cbn [sumi] in Hs.
  pose proof (Hf O x eq_refl) as H0. rewrite Nat.add_0_r in H0.
  assert (Hf' : forall i p, l !! i = Some p -> 0 <= f (S k + i)%nat p).
  { intros j q Hq. specialize (Hf (S j) q Hq). by rewrite Nat.add_succ_r in Hf. }
  assert (Hr : 0 <= sumi f (S k) l).
  { etransitivity; [|apply (sumi_le (fun _ _ => 0) f (S k) l Hf')].
    by rewrite sumi_zero. }
  destruct i as [|i]; cbn in Hi.
  - simplify_eq. rewrite Nat.add_0_r. lia.
  - rewrite Nat.add_succ_r. apply (IH (S k) i); [done|lia|done].
Qed.

Lemma sumi_indicator c k l b p :
  l !! b = Some p -> sumi (fun i _ => if (i =? k + b)%nat then c else 0) k l = c.
Proof.
  revert k b. induction l as [|x l IH]; intros k [|b] H; cbn [sumi]; try done.
  - rewrite Nat.add_0_r, Nat.eqb_refl.
    rewrite (sumi_ext _ (fun _ _ => 0)).
    + rewrite sumi_zero. lia.
    + intros i q _. rewrite (proj2 (Nat.eqb_neq (S k + i) k)); [done|lia].
  - rewrite (proj2 (Nat.eqb_neq k (k + S b))) by lia.
    rewrite Nat.add_succ_r. exact (IH (S k) b H).
Qed.

(** ** The ring scan visits every peer once *)

Section Scan.
Context (check_peer_down : Z -> bool) (now : Z) (tried : list Z).

Abbreviation avail p := (peer_available check_peer_down now p).

(** The scan over an explicit list of positions. *)
Fixpoint scan_list (is_weighted : bool) (l : list nat) (s : scan) : option scan :=
  match l with
  | [] => Some s
  | i :: l' =>
      p ← sc_peers s !! i;
      t ← is_tried tried i;
      if (t : bool) then scan_list is_weighted l' s
      else if negb (avail p) then scan_list is_weighted l' s
      else if negb is_weighted then Some (MkScan (sc_peers s) (Some i) i (sc_total s))
      else scan_list is_weighted l' (account i i p s)
  end.

Definition ring (begin n : nat) : list nat := seq begin (n - begin) ++ seq 0 begin.

Lemma length_account i j p s : length (sc_peers (account i j p s)) = length (sc_peers s).
Proof. unfold account. cbn. apply length_insert. Qed.

(** One iteration. *)
Lemma scan_loop_S fuel is_w begin i flag j s :
  scan_loop check_peer_down (S fuel) now tried is_w begin i flag j s
  = if (i =? begin)%nat && negb flag then Some s
    else
      p ← sc_peers s !! j;
      t ← is_tried tried i;
      let n := length (sc_peers s) in
      let next := scan_loop check_peer_down fuel now tried is_w begin ((i + 1) mod n)%nat false
                    (if (S j <? n)%nat then S j else O) in
      if (t : bool) then next s
      else if negb (avail p) then next s
      else if negb is_w then Some (MkScan (sc_peers s) (Some j) i (sc_total s))
      else next (account i j p s).
Proof. reflexivity. Qed.

(** The second part of the ring, below [begin]. *)
Lemma scan_low is_w begin k s :
  (k <= begin)%nat -> (begin < length (sc_peers s))%nat ->
  scan_loop check_peer_down (S k) now tried is_w begin (begin - k) false (begin - k) s
  = scan_list is_w (seq (begin - k) k) s.
Proof.
  revert s. induction k as [|k IH]; intros s Hk Hn; rewrite scan_loop_S; cbn [seq scan_list].
  - rewrite Nat.sub_0_r, Nat.eqb_refl. done.
  - set (n := length (sc_peers s)) in *.
    rewrite (proj2 (Nat.eqb_neq (begin - S k) begin)) by lia. cbn [andb].
    destruct (sc_peers s !! (begin - S k)%nat) as [p|] eqn:Ep; [cbn [mbind option_bind]|done].
    destruct (is_tried tried (begin - S k)) as [t|] eqn:Et; [cbn [mbind option_bind]; cbv zeta|done].
    rewrite Nat.mod_small by (fold n; lia). rewrite (proj2 (Nat.ltb_lt (S (begin - S k)) n)) by lia.
    replace (begin - S k + 1)%nat with (begin - k)%nat by lia.
    replace (S (begin - S k))%nat with (begin - k)%nat by lia.
    destruct t; [apply IH; lia|]. destruct (negb (avail p)); [apply IH; lia|].
    destruct (negb is_w); [done|]. apply IH; rewrite ?length_account; lia.
Qed.

(** The first part, from [begin] to the last peer. *)
Lemma scan_high is_w begin k flag s :
  (k + begin < length (sc_peers s))%nat ->
  (flag = true \/ 0 < length (sc_peers s) - S k - begin)%nat ->
  scan_loop check_peer_down (S (S k + begin)) now tried is_w begin
    (length (sc_peers s) - S k) flag (length (sc_peers s) - S k) s
  = scan_list is_w (seq (length (sc_peers s) - S k) (S k) ++ seq 0 begin) s.
Proof.
  revert flag s. induction k as [|k IH]; intros flag s Hk Hf.
  all: set (n := length (sc_peers s)) in *.
  all: rewrite scan_loop_S; cbn [seq app scan_list]; cbv zeta.
  all: replace ((_ =? begin)%nat && negb flag) with false
    by (destruct Hf as [-> | Hf]; [by rewrite andb_false_r|
        rewrite (proj2 (Nat.eqb_neq _ begin)) by lia; done]).
  - destruct (sc_peers s !! (n - 1)%nat) as [p|] eqn:Ep; [cbn [mbind option_bind]|done].
    destruct (is_tried tried (n - 1)) as [t|] eqn:Et; [cbn [mbind option_bind]|done].
    replace ((n - 1 + 1) mod length (sc_peers s))%nat with (begin - begin)%nat.
    2:{ replace (n - 1 + 1)%nat with n by lia. fold n. rewrite Nat.Div0.mod_same. lia. }
    fold n. rewrite (proj2 (Nat.ltb_ge (S (n - 1)) n)) by lia.
    replace O with (begin - begin)%nat by lia.
    assert (Hlow : forall s', length (sc_peers s') = n ->
      scan_loop check_peer_down (0 + 1 + begin) now tried is_w begin (begin - begin) false (begin - begin) s'
      = scan_list is_w (seq (begin - begin) begin) s').
    { intros s' Hs'. apply (scan_low is_w begin begin s'); [lia|]. rewrite Hs'. lia. }
    cbn [Nat.add] in Hlow. replace (begin - begin)%nat with O in * by lia.
    destruct t; [apply Hlow; done|]. destruct (negb (avail p)); [apply Hlow; done|].
    destruct (negb is_w); [done|]. apply Hlow. by rewrite length_account.
  - destruct (sc_peers s !! (n - S (S k))%nat) as [p|] eqn:Ep; [cbn [mbind option_bind]|done].
    destruct (is_tried tried (n - S (S k))) as [t|] eqn:Et; [cbn [mbind option_bind]|done].
    rewrite Nat.mod_small by (fold n; lia). fold n.
    rewrite (proj2 (Nat.ltb_lt (S (n - S (S k))) n)) by lia.
    replace (n - S (S k) + 1)%nat with (n - S k)%nat by lia.
    replace (S (n - S (S k)))%nat with (n - S k)%nat by lia.
    assert (Hnext : forall s', length (sc_peers s') = n ->
      scan_loop check_peer_down (S (S k + begin)) now tried is_w begin (n - S k) false (n - S k) s'
      = scan_list is_w (seq (n - S k) (S k) ++ seq 0 begin) s').
    { intros s' Hs'. specialize (IH false s'). rewrite Hs' in IH. apply IH; lia. }
    cbn [Nat.add seq app] in Hnext |- *.
    destruct t; [by rewrite Hnext|]. destruct (negb (avail p)); [by rewrite Hnext|].
    destruct is_w; [|done]. cbn [negb]. by rewrite Hnext by (by rewrite length_account).
Qed.

Lemma scan_loop_ring is_w begin s :
  (begin < length (sc_peers s))%nat ->
  scan_loop check_peer_down (S (length (sc_peers s))) now tried is_w begin begin true begin s
  = scan_list is_w (ring begin (length (sc_peers s))) s.
Proof.
  intros H. unfold ring. pose proof (scan_high is_w begin (length (sc_peers s) - begin - 1) true s) as Hh.
  replace (S (S (length (sc_peers s) - begin - 1) + begin)) with (S (length (sc_peers s))) in Hh by lia.
  replace (length (sc_peers s) - S (length (sc_peers s) - begin - 1))%nat with begin in Hh by lia.
  replace (S (length (sc_peers s) - begin - 1)) with (length (sc_peers s) - begin)%nat in Hh by lia.
  apply Hh; [lia|by left].
Qed.

Lemma ring_elem begin n i : (begin < n)%nat -> i ∈ ring begin n <-> (i < n)%nat.
Proof. intros H. unfold ring. rewrite elem_of_app, !elem_of_seq. lia. Qed.

Lemma ring_nodup begin n : NoDup (ring begin n).
Proof.
  unfold ring. apply list.NoDup_app. split_and!; [apply NoDup_seq| |apply NoDup_seq].
  intros i. rewrite !elem_of_seq. lia.
Qed.

(** ** What the weighted scan computes *)

(** A peer the scan considers. *)
Definition eligible (i : nat) (p : peer) : bool :=
  avail p && match is_tried tried i with Some t => negb t | None => false end.

Definition bump (p : peer) : peer :=
  set_weights (current_weight p + effective_weight p)
    (if effective_weight p <? weight p then effective_weight p + 1 else effective_weight p) p.

Definition bumped (V : list nat) (i : nat) (p : peer) : peer :=
  if bool_decide (i ∈ V) && eligible i p then bump p else p.

Definition gain (V : list nat) (i : nat) (p : peer) : Z :=
  if bool_decide (i ∈ V) && eligible i p then effective_weight p else 0.

(** After the positions [V] were visited. *)
Definition scan_inv (V : list nat) (l0 : list peer) (s : scan) : Prop :=
  (forall i, sc_peers s !! i = bumped V i <$> l0 !! i)
  /\ sc_total s = sum_peers (gain V) l0
  /\ match sc_best s with
     | None => forall i p, i ∈ V -> l0 !! i = Some p -> eligible i p = false
     | Some b => sc_p s = b /\ b ∈ V /\ exists q, l0 !! b = Some q /\ eligible b q = true
         /\ forall i p, i ∈ V -> l0 !! i = Some p -> eligible i p = true ->
            current_weight p + effective_weight p <= current_weight q + effective_weight q
     end.

Lemma bumped_cons_ne V i j p : i <> j -> bumped (i :: V) j p = bumped V j p.
Proof.
  intros Hne. unfold bumped.
  by rewrite (bool_decide_ext (j ∈ i :: V) (j ∈ V)) by (rewrite elem_of_cons; naive_solver).
Qed.

Lemma gain_cons V l0 i p :
  l0 !! i = Some p -> i ∉ V ->
  sum_peers (gain (i :: V)) l0
  = sum_peers (gain V) l0 + (if eligible i p then effective_weight p else 0).
Proof.
  intros Hp Hi.
  rewrite <- (sumi_indicator (if eligible i p then effective_weight p else 0) 0 l0 i p Hp), <- sumi_add.
  apply sumi_ext. intros j q Hq. cbn [Nat.add]. unfold gain.
  destruct (Nat.eqb_spec j i) as [->|Hne].
  - rewrite Hp in Hq. simplify_eq. rewrite bool_decide_true by (apply elem_of_cons; auto).
    rewrite bool_decide_false by done. cbn. by case_if.
  - rewrite (bool_decide_ext (j ∈ i :: V) (j ∈ V)) by (rewrite elem_of_cons; naive_solver). lia.
Qed.

Lemma set_weights_fields cw ew p :
  current_weight (set_weights cw ew p) = cw /\ effective_weight (set_weights cw ew p) = ew.
Proof. by destruct p. Qed.

Lemma scan_inv_skip V l0 s i p :
  scan_inv V l0 s -> l0 !! i = Some p -> i ∉ V -> eligible i p = false -> scan_inv (i :: V) l0 s.
Proof.
  intros (H1 & H2 & H3) Hp Hi He. split_and!.
  - intros j. rewrite H1. destruct (l0 !! j) as [q|] eqn:Hq; [cbn|done]. f_equal.
    destruct (decide (i = j)) as [<-|]; [|by rewrite bumped_cons_ne]. simplify_eq.
    unfold bumped. by rewrite He, !andb_false_r.
  - rewrite (gain_cons _ _ _ _ Hp Hi), He. lia.
  - destruct (sc_best s) as [b|].
    + destruct H3 as (Hb & HbV & q & Hq & Heq & Hmax). split_and!; [done|by right|].
      exists q. split_and!; try done. intros j r [-> | Hj]%elem_of_cons Hr Hel; [congruence|eauto].
    + intros j r [-> | Hj]%elem_of_cons Hr; [congruence|eauto].
Qed.

Lemma scan_inv_account V l0 s i p :
  scan_inv V l0 s -> l0 !! i = Some p -> i ∉ V -> eligible i p = true ->
  scan_inv (i :: V) l0 (account i i p s).
Proof.
  intros (H1 & H2 & H3) Hp Hi He. unfold account. split_and!; cbn [sc_peers sc_total sc_best sc_p].
  - intros j. destruct (decide (i = j)) as [<-|Hne].
    + rewrite list_lookup_insert_eq by (apply lookup_lt_is_Some; rewrite H1, Hp; eauto).
      rewrite Hp. cbn. f_equal. unfold bumped.
      rewrite bool_decide_true by (apply elem_of_cons; auto). by rewrite He.
    + rewrite list_lookup_insert_ne, H1 by done. destruct (l0 !! j); [cbn|done].
      by rewrite bumped_cons_ne.
  - rewrite (gain_cons _ _ _ _ Hp Hi), He. lia.
  - destruct (sc_best s) as [b|].
    + destruct H3 as (Hb & HbV & q & Hq & Heq & Hmax).
      rewrite H1, Hq. cbn [fmap option_fmap option_map]. unfold bumped at 1 2.
      rewrite bool_decide_true, Heq by done. cbn [andb]. unfold bump.
      destruct (set_weights_fields (current_weight q + effective_weight q)
        (if effective_weight q <? weight q then effective_weight q + 1 else effective_weight q) q) as [-> _].
      destruct (Z.ltb_spec (current_weight q + effective_weight q) (current_weight p + effective_weight p)).
      * split_and!; [done|by left|]. exists p. split_and!; try done.
        intros j r [-> | Hj]%elem_of_cons Hr Hel; [by simplify_eq|].
        specialize (Hmax j r Hj Hr Hel). lia.
      * split_and!; [done|by right|]. exists q. split_and!; try done.
        intros j r [-> | Hj]%elem_of_cons Hr Hel; [by simplify_eq|eauto].
    + split_and!; [done|by left|]. exists p. split_and!; try done.
      intros j r [-> | Hj]%elem_of_cons Hr Hel; [by simplify_eq|].
      rewrite (H3 j r Hj Hr) in Hel. done.
Qed.

Lemma scan_list_spec l V l0 s :
  scan_inv V l0 s -> NoDup l ->
  (forall i, i ∈ l -> i ∉ V /\ is_Some (l0 !! i) /\ is_Some (is_tried tried i)) ->
  exists s' V', scan_list true l s = Some s' /\ scan_inv V' l0 s' /\ (forall i, i ∈ V' <-> i ∈ l \/ i ∈ V).
Proof.
  revert V s. induction l as [|i l IH]; intros V s Hinv Hnd Hl; cbn [scan_list].
  - exists s, V. split_and!; try done. intros i. rewrite elem_of_nil. tauto.
  - apply list.NoDup_cons in Hnd as [Hil Hnd].
    destruct (Hl i) as (HiV & [p Hp] & [t Ht]); [by left|].
    assert (Hsp : sc_peers s !! i = Some p).
    { destruct Hinv as (H1 & _). rewrite H1, Hp. cbn. f_equal. unfold bumped.
      by rewrite bool_decide_false. }
    rewrite Hsp, Ht. cbn [mbind option_bind].
    assert (Hnext : forall s2, scan_inv (i :: V) l0 s2 ->
      exists s' V', scan_list true l s2 = Some s' /\ scan_inv V' l0 s'
        /\ (forall j, j ∈ V' <-> j ∈ i :: l \/ j ∈ V)).
    { intros s2 H2. destruct (IH (i :: V) s2 H2 Hnd) as (s' & V' & ? & ? & HV).
      - intros j Hj. destruct (Hl j) as (? & ? & ?); [by right|]. split_and!; try done.
        rewrite elem_of_cons. naive_solver.
      - exists s', V'. split_and!; try done. intros j. rewrite HV, !elem_of_cons. tauto. }
    destruct t.
    { apply Hnext. eapply scan_inv_skip; try done. unfold eligible. by rewrite Ht, andb_false_r. }
    destruct (avail p) eqn:Ea; cbn [negb].
    + apply Hnext. eapply scan_inv_account; try done. unfold eligible. by rewrite Ht, Ea.
    + apply Hnext. eapply scan_inv_skip; try done. unfold eligible. by rewrite Ea.
Qed.
End Scan.

(** ** Selection in a weighted group *)

Lemma fmap_lookup_length {A B} (f : nat -> A -> B) (l : list A) (k : list B) :
  (forall i, k !! i = f i <$> l !! i) -> length k = length l.
Proof.
  intros H. destruct (Nat.lt_trichotomy (length k) (length l)) as [Hlt|[?|Hlt]]; [|done|].
  - destruct (lookup_lt_is_Some_2 l (length k) Hlt) as [x Hx].
    specialize (H (length k)). rewrite Hx in H. cbn in H. apply lookup_lt_Some in H. lia.
  - destruct (lookup_lt_is_Some_2 k (length l) Hlt) as [x Hx].
    specialize (H (length l)). rewrite Hx, (lookup_ge_None_2 l) in H by lia. done.
Qed.

Definition tried_fits (n : nat) (tried : list Z) : Prop := ((n + 63) / 64 <= length tried)%nat.

Lemma tried_fits_some n tried i :
  tried_fits n tried -> (i < n)%nat -> is_Some (is_tried tried i) /\ is_Some (set_tried tried i).
Proof.
  unfold tried_fits. intros Hf Hi.
  assert (Hlt : (i / 64 < length tried)%nat).
  { eapply Nat.lt_le_trans; [|exact Hf]. apply Nat.div_lt_upper_bound; [lia|].
    pose proof (Nat.div_mod (n + 63) 64 ltac:(lia)). pose proof (Nat.mod_upper_bound (n + 63) 64). lia. }
  unfold is_tried, set_tried, tried_word.
  destruct (lookup_lt_is_Some_2 tried (i / 64)%nat Hlt) as [w ->]. cbn. eauto.
Qed.

Lemma fresh_tried_fits n : tried_fits n (fresh_tried n).
Proof.
  unfold tried_fits, fresh_tried. destruct (Nat.leb_spec n 64); [|rewrite length_replicate; lia].
  cbn [length]. apply Nat.lt_succ_r. apply Nat.Div0.div_lt_upper_bound. lia.
Qed.

Lemma fresh_not_tried n i : (i < n)%nat -> is_tried (fresh_tried n) i = Some false.
Proof.
  intros Hi. destruct (tried_fits_some n (fresh_tried n) i (fresh_tried_fits n) Hi) as [[t Ht] _].
  rewrite Ht. f_equal. revert Ht. unfold is_tried, tried_word.
  destruct (fresh_tried n !! (i / 64)%nat) as [w|] eqn:Ew; [|done]. cbn.
  assert (w = 0) as ->.
  { apply list_elem_of_lookup_2 in Ew. unfold fresh_tried in Ew.
    destruct (n <=? 64)%nat; [by apply list_elem_of_singleton in Ew|by apply elem_of_replicate in Ew as [? _]]. }
  intros [= <-]. done.
Qed.

Lemma scan_init_lt rnd g : (0 < number g)%nat -> (scan_init rnd g < number g)%nat.
Proof.
  intros Hn. unfold scan_init. destruct (init_number g) as [i|].
  - destruct (Nat.ltb_spec i (number g)); [done|]. apply Nat.mod_upper_bound. lia.
  - pose proof (Z.mod_pos_bound rnd (Z.of_nat (number g)) ltac:(lia)). lia.
Qed.

Section Weighted.
Context (check_peer_down : Z -> bool) (now : Z).
Abbreviation elig tried := (eligible check_peer_down now tried).
Abbreviation get_peer := (ngx_http_upstream_get_peer check_peer_down now).

(** The sum of the weights in play. *)
Definition total_weight (tried : list Z) (l : list peer) : Z :=
  sum_peers (fun i p => if elig tried i p then effective_weight p else 0) l.

Definition after_pick (tried : list Z) (l : list peer) (b i : nat) (p : peer) : peer :=
  let p' := if elig tried i p then bump p else p in
  if (i =? b)%nat then best_chosen now (total_weight tried l) p' else p'.

Definition same_group (g g' : peers) : Prop :=
  number g' = number g /\ weighted g' = weighted g /\ single g' = single g /\ config g' = config g.

Lemma get_peer_weighted rnd g tried :
  (0 < number g)%nat -> weighted g = true -> tried_fits (number g) tried ->
  exists g' tried' r, get_peer rnd g tried = Some (g', tried', r) /\ same_group g g'
    /\ init_number g' = Some (scan_init rnd g)
    /\ match r with
       | None => (forall i p, plist g !! i = Some p -> elig tried i p = false)
                 /\ plist g' = plist g /\ tried' = tried
       | Some b => set_tried tried b = Some tried'
           /\ (exists q, plist g !! b = Some q /\ elig tried b q = true
                /\ forall i p, plist g !! i = Some p -> elig tried i p = true ->
                   current_weight p + effective_weight p <= current_weight q + effective_weight q)
           /\ forall i, plist g' !! i = after_pick tried (plist g) b i <$> plist g !! i
       end.
Proof.
  intros Hn Hw Hf. unfold ngx_http_upstream_get_peer. rewrite (proj2 (Nat.eqb_neq _ 0)) by lia.
  cbv zeta. pose proof (scan_init_lt rnd g Hn) as Hinit. set (init := scan_init rnd g) in *.
  assert (Hg : plist (set_init (Some init) g) = plist g /\ weighted (set_init (Some init) g) = true
    /\ number (set_init (Some init) g) = number g) by (by destruct g).
  destruct Hg as (Hg1 & Hg2 & Hg3). unfold scan_begin. rewrite Hg1, Hg2, Hg3. cbn [negb].
  pose proof (scan_loop_ring check_peer_down now tried true init (MkScan (plist g) None O 0) Hinit) as Hloop.
  cbn [sc_peers] in Hloop. fold (number g) in Hloop. rewrite Hloop.
  destruct (scan_list_spec check_peer_down now tried (ring init (number g)) [] (plist g)
    (MkScan (plist g) None O 0)) as (s & V & -> & (H1 & H2 & H3) & HV).
  - split_and!; cbn; [|symmetry; apply sumi_zero|by intros i p ?%elem_of_nil].
    intros i. destruct (plist g !! i); [|done]. cbn. done.
  - apply ring_nodup.
  - intros i Hi. apply ring_elem in Hi; [|done]. split_and!; [apply not_elem_of_nil| |].
    + by apply lookup_lt_is_Some.
    + by apply (tried_fits_some (number g)).
  - assert (HV' : forall i p, plist g !! i = Some p -> i ∈ V).
    { intros i p Hp. apply HV. left. apply ring_elem; [done|]. unfold number. eauto using lookup_lt_Some. }
    assert (H1' : forall i, sc_peers s !! i = (fun p => if elig tried i p then bump p else p) <$> plist g !! i).
    { intros i. rewrite H1. destruct (plist g !! i) as [p|] eqn:Hp; [cbn|done]. f_equal. unfold bumped.
      by rewrite bool_decide_true by eauto. }
    assert (Hlen : length (sc_peers s) = number g) by (by eapply fmap_lookup_length).
    assert (Htot : sc_total s = total_weight tried (plist g)).
    { rewrite H2. unfold total_weight. apply sumi_ext. intros i p Hp. unfold gain.
      by rewrite bool_decide_true by eauto. }
    cbn [mbind option_bind]. destruct (sc_best s) as [b|].
    + destruct H3 as (Hb & HbV & q & Hq & Heq & Hmax).
      assert (Hbn : (b < number g)%nat) by eauto using lookup_lt_Some.
      destruct (tried_fits_some (number g) tried b Hf Hbn) as [_ [tried' Ht']].
      rewrite Hb, Ht', H1', Hq. cbn [fmap option_fmap option_map mbind option_bind].
      exists (set_plist (<[b := best_chosen now (sc_total s) (if elig tried b q then bump q else q)]>
        (sc_peers s)) (set_init (Some init) g)), tried', (Some b).
      split; [done|]. split; [|split; [by destruct g|]].
      { destruct g. split_and!; cbn; try done. unfold number. cbn. by rewrite length_insert. }
      split_and!; [done| |].
      * exists q. split_and!; [done|done|]. eauto.
      * intros i. destruct g as [pl ? ? ? ? ? ?]. cbn [plist set_plist set_init] in *. unfold after_pick.
        destruct (Nat.eqb_spec i b) as [->|Hne].
        -- rewrite list_lookup_insert_eq by (rewrite Hlen; done). rewrite Hq, Htot. done.
        -- rewrite list_lookup_insert_ne by done. apply H1'.
    + exists (set_plist (sc_peers s) (set_init (Some init) g)), tried, None.
      split; [done|]. split; [destruct g; split_and!; try done|]. split; [by destruct g|].
      split_and!; [eauto| |done].
      destruct g. cbn [plist set_plist set_init] in *. apply list_eq. intros i. rewrite H1'.
      destruct (plist0 !! i) as [p|] eqn:Hp; [cbn|done]. by rewrite (H3 i p) by eauto.
Qed.

Lemma best_chosen_fields total p :
  let p' := best_chosen now total p in
  current_weight p' = current_weight p - total /\ effective_weight p' = effective_weight p
  /\ weight p' = weight p /\ down p' = down p /\ check_index p' = check_index p
  /\ max_fails p' = max_fails p /\ fails p' = fails p /\ max_conns p' = max_conns p
  /\ conns p' = conns p.
Proof. unfold best_chosen. destruct p. cbn. case_if; done. Qed.

Lemma after_pick_cw tried l b i p :
  current_weight (after_pick tried l b i p)
  = current_weight p + (if elig tried i p then effective_weight p else 0)
    + (if (i =? b)%nat then - total_weight tried l else 0).
Proof.
  unfold after_pick. destruct (i =? b)%nat.
  - destruct (best_chosen_fields (total_weight tried l) (if elig tried i p then bump p else p)) as [-> _].
    destruct (elig tried i p); [destruct p; cbn; lia|lia].
  - destruct (elig tried i p); [destruct p; cbn; lia|lia].
Qed.

Lemma sum_cw_after_pick tried l l' b q :
  l !! b = Some q -> (forall i, l' !! i = after_pick tried l b i <$> l !! i) ->
  sum_peers (fun _ => current_weight) l' = sum_peers (fun _ => current_weight) l.
Proof.
  intros Hq Hl. rewrite (sumi_fmap _ (after_pick tried l b) O l l' Hl).
  rewrite (sumi_ext _ (fun i p => (current_weight p + (if elig tried i p then effective_weight p else 0))
    + (if (i =? 0 + b)%nat then - total_weight tried l else 0)))
    by (intros i p _; cbn [Nat.add]; apply after_pick_cw).
  rewrite sumi_add, (sumi_indicator _ _ _ _ _ Hq), sumi_add. unfold total_weight.
  by rewrite <- Z.add_assoc, Z.add_opp_diag_r, Z.add_0_r.
Qed.

(** One weighted selection: for every group with at least one peer and a bitmap
    that covers it, ngx_http_upstream_get_peer finishes without leaving the peer
    list or the bitmap; it returns NULL only when no peer is eligible (not tried,
    not down, not failed, below max_conns) and then changes no peer; otherwise the
    peer it returns is eligible, has the largest current + effective weight among
    the eligible ones and is marked tried, and the current weights keep their sum. *)
Theorem weighted_selection (rnd : Z) (g : peers) (tried : list Z)
    (Hn : (0 < number g)%nat) (Hw : weighted g = true) (Hf : tried_fits (number g) tried) :
  exists g' tried' r, ngx_http_upstream_get_peer check_peer_down now rnd g tried = Some (g', tried', r)
    /\ match r with
       | None => (forall i p, plist g !! i = Some p -> elig tried i p = false)
                 /\ plist g' = plist g /\ tried' = tried
       | Some b => set_tried tried b = Some tried'
           /\ (exists q, plist g !! b = Some q /\ elig tried b q = true
                /\ forall i p, plist g !! i = Some p -> elig tried i p = true ->
                   current_weight p + effective_weight p <= current_weight q + effective_weight q)
           /\ sum_peers (fun _ => current_weight) (plist g')
              = sum_peers (fun _ => current_weight) (plist g)
       end.
Proof.
  destruct (get_peer_weighted rnd g tried Hn Hw Hf) as (g' & tried' & r & E & _ & _ & Hr).
  exists g', tried', r. split; [done|]. destruct r as [b|]; [|done].
  destruct Hr as (Ht & (q & Hq & He & Hmax) & Hl). split_and!; [done|by exists q|].
  by apply (sum_cw_after_pick tried (plist g) (plist g') b q).
Qed.
End Weighted.

Lemma weighted_selection_witness :
  exists g' tried', ngx_http_upstream_get_peer (fun _ => false) 0 0 (mk_group [1; 3]) [0]
    = Some (g', tried', Some 1%nat)
    /\ sum_peers (fun _ => current_weight) (plist g') = 0.
Proof.
  destruct (weighted_selection (fun _ => false) 0 0 (mk_group [1; 3]) [0]) as (g' & tried' & r & E & H).
  - cbn. lia.
  - reflexivity.
  - unfold tried_fits. cbn. lia.
  - vm_compute in E. injection E as <- <- <-. eexists _, _. split; [vm_compute; reflexivity|].
    destruct H as (_ & _ & H). exact H.
Defined.

(** ** Fairness *)

Section Fairness.
Context (check_peer_down : Z -> bool) (rrp_config : Z).

(** A peer that is available at any time. *)
Definition healthy (p : peer) : Prop :=
  down p = false /\ check_peer_down (check_index p) = false /\ max_conns p = 0
  /\ (max_fails p = 0 \/ fails p < max_fails p).

Lemma healthy_available now p : healthy p -> peer_available check_peer_down now p = true.
Proof.
  intros (H1 & H2 & H3 & H4). unfold peer_available. rewrite H1, H2, H3. cbn [negb andb Z.eqb].
  destruct H4 as [-> | H4]; [done|]. rewrite (proj2 (Z.leb_gt _ _) H4), andb_false_r. done.
Qed.

(** A weighted group of healthy peers at full effective weight. *)
Definition steady (g : peers) : Prop :=
  weighted g = true /\ single g = false /\ (0 < number g)%nat
  /\ match config g with Some c => rrp_config = c | None => True end
  /\ forall i p, plist g !! i = Some p -> healthy p /\ 0 < weight p /\ effective_weight p = weight p.

Definition weight_sum (g : peers) : Z := sum_peers (fun _ => weight) (plist g).

(** Consecutive requests, each with its own bitmap: the time and the value of
    ngx_random() for each; the result lists the peers chosen. *)
Fixpoint serve (reqs : list (Z * Z)) (g : peers) : option (peers * list nat) :=
  match reqs with
  | [] => Some (g, [])
  | (now, rnd) :: reqs' =>
      match ngx_http_upstream_get_round_robin_peer check_peer_down now [(0, rnd)] None rrp_config true
              [g] (fresh_tried (number g)) with
      | Some ([g'], _, _, _, RROk b) => '(g'', bs) ← serve reqs' g'; Some (g'', b :: bs)
      | _ => None
      end
  end.

Definition picked (W : Z) (b i : nat) (p p' : peer) : Prop :=
  weight p' = weight p
  /\ current_weight p' = current_weight p + weight p + (if (i =? b)%nat then - W else 0).

(** One request to a steady group. *)
Lemma round_spec now rnd g :
  steady g ->
  exists g' tried' b q,
    ngx_http_upstream_get_round_robin_peer check_peer_down now [(0, rnd)] None rrp_config true
      [g] (fresh_tried (number g)) = Some ([g'], tried', true, O, RROk b)
    /\ steady g' /\ plist g !! b = Some q
    /\ (forall i p, plist g !! i = Some p ->
          current_weight p + weight p <= current_weight q + weight q
          /\ exists p', plist g' !! i = Some p' /\ picked (weight_sum g) b i p p')
    /\ sum_peers (fun _ => current_weight) (plist g') = sum_peers (fun _ => current_weight) (plist g)
    /\ number g' = number g.
Proof.
  intros (Hw & Hs & Hn & Hc & Hp).
  destruct (get_peer_weighted check_peer_down now rnd g (fresh_tried (number g)) Hn Hw (fresh_tried_fits _))
    as (g1 & tried' & r & E & (Hn1 & Hw1 & Hs1 & Hc1) & _ & Hr).
  assert (Hel : forall i p, plist g !! i = Some p ->
    eligible check_peer_down now (fresh_tried (number g)) i p = true).
  { intros i p Hi. unfold eligible. rewrite healthy_available by (by eapply Hp).
    by rewrite fresh_not_tried by (unfold number; eauto using lookup_lt_Some). }
  assert (HW : total_weight check_peer_down now (fresh_tried (number g)) (plist g) = weight_sum g).
  { unfold total_weight, weight_sum. apply sumi_ext. intros i p Hi. cbn [Nat.add].
    rewrite (Hel i p Hi). by eapply Hp. }
  destruct r as [b|].
  2:{ destruct Hr as [Hr _]. destruct (lookup_lt_is_Some_2 (plist g) O Hn) as [p Hp0].
      specialize (Hr O p Hp0). rewrite (Hel _ _ Hp0) in Hr. done. }
  destruct Hr as (Ht & (q & Hq & _ & Hmax) & Hl).
  set (tr := fresh_tried (number g)) in *.
  assert (Hb1 : plist g1 !! b = Some (after_pick check_peer_down now tr (plist g) b b q))
    by (rewrite Hl, Hq; done).
  set (pb := after_pick check_peer_down now tr (plist g) b b q) in *.
  set (g' := set_plist (<[b := set_conns (conns pb + 1) pb]> (plist g1)) g1).
  assert (Hg' : forall i p, plist g !! i = Some p -> exists p', plist g' !! i = Some p'
    /\ picked (weight_sum g) b i p p' /\ healthy p' /\ effective_weight p' = weight p').
  { intros i p Hi. destruct (Hp i p Hi) as (Hh & Hpos & Hew).
    set (p1 := after_pick check_peer_down now tr (plist g) b i p).
    assert (Hp1 : picked (weight_sum g) b i p p1 /\ healthy p1 /\ effective_weight p1 = weight p1).
    { pose proof (after_pick_cw check_peer_down now tr (plist g) b i p) as Hcw. fold p1 in Hcw.
      rewrite (Hel i p Hi), HW, Hew in Hcw. unfold picked, healthy in *. revert Hcw. unfold p1, after_pick.
      rewrite (Hel i p Hi), HW. unfold bump. rewrite Hew, Z.ltb_irrefl. cbv zeta. intros Hcw.
      destruct (i =? b)%nat; [|destruct p; cbn in *; tauto].
      destruct (best_chosen_fields now (weight_sum g) (set_weights (current_weight p + weight p) (weight p) p))
        as (F1 & F2 & F3 & F4 & F5 & F6 & F7 & F8 & F9).
      rewrite F2, F3, F4, F5, F6, F7, F8, Hcw. destruct p; cbn in *; tauto. }
    assert (Hi1 : plist g1 !! i = Some p1) by (rewrite Hl, Hi; done).
    unfold g'. destruct g1. cbn [plist set_plist] in *.
    destruct (decide (i = b)) as [->|Hne].
    - exists (set_conns (conns pb + 1) pb). rewrite list_lookup_insert_eq by eauto using lookup_lt_Some.
      split; [done|]. rewrite Hb1 in Hi1. injection Hi1 as Hi1. rewrite <- Hi1 in Hp1.
      revert Hp1. unfold picked, healthy. destruct pb. cbn. tauto.
    - exists p1. rewrite list_lookup_insert_ne by done. done. }
  assert (Hnum : number g' = number g).
  { rewrite <- Hn1. unfold g', number. destruct g1. cbn. apply length_insert. }
  exists g', tried', b, q. split_and!.
  - cbn [ngx_http_upstream_get_round_robin_peer]. unfold get_in_group. rewrite Hs.
    replace (match config g with Some c => negb (rrp_config =? c) | None => false end) with false
      by (destruct (config g); [rewrite Hc, Z.eqb_refl|]; done).
    cbn [negb andb orb mbind option_bind snd]. rewrite E. cbn [mbind option_bind]. rewrite Hb1. done.
  - assert (Hg1 : weighted g' = true /\ single g' = false /\ config g' = config g).
    { rewrite <- Hw, <- Hw1, <- Hs, <- Hs1, <- Hc1. unfold g'. by destruct g1. }
    unfold steady. destruct Hg1 as (-> & -> & ->). split_and!; try done; [lia|].
    intros i p Hi. assert (Hlt : (i < number g)%nat) by (rewrite <- Hnum; by eapply lookup_lt_Some).
    destruct (lookup_lt_is_Some_2 (plist g) i Hlt) as [p0 Hp0].
    destruct (Hg' i p0 Hp0) as (p' & Hp' & [Hw' _] & Hh & Hew). rewrite Hi in Hp'. simplify_eq.
    destruct (Hp i p0 Hp0) as (_ & ? & _). split_and!; [done|lia|done].
  - done.
  - intros i p Hi. destruct (Hp i p Hi) as (_ & _ & Hew). destruct (Hp b q Hq) as (_ & _ & Hewq).
    specialize (Hmax i p Hi (Hel i p Hi)). rewrite Hew, Hewq in Hmax. split; [done|].
    destruct (Hg' i p Hi) as (p' & ? & ? & _). eauto.
  - rewrite <- (sum_cw_after_pick check_peer_down now tr (plist g) (plist g1) b q Hq Hl).
    unfold g'. destruct g1. cbn [plist set_plist] in *.
    rewrite (sumi_insert _ _ _ _ pb) by done. destruct pb. cbn. lia.
  - done.
Qed.

(** Deviation of the schedule after some requests, for each peer: its current
    weight is (requests) * weight - (total weight) * (times chosen), and never falls
    to minus the total weight. *)
Definition schedule (g0 g : peers) (bs : list nat) : Prop :=
  steady g /\ number g = number g0 /\ sum_peers (fun _ => current_weight) (plist g) = 0
  /\ Forall (fun b => b < number g0)%nat bs
  /\ forall i p0, plist g0 !! i = Some p0 -> exists p, plist g !! i = Some p /\ weight p = weight p0
     /\ current_weight p = Z.of_nat (length bs) * weight p0
          - weight_sum g0 * Z.of_nat (count_occ Nat.eq_dec bs i)
     /\ - weight_sum g0 < current_weight p.

Lemma schedule_weight_sum g0 g bs : schedule g0 g bs -> weight_sum g = weight_sum g0.
Proof.
  intros (_ & Hn & _ & _ & Hp). unfold weight_sum.
  rewrite (sumi_fmap (fun _ => weight) (fun i _ => default (mk_peer 0) (plist g !! i)) O (plist g0) (plist g)).
  - apply sumi_ext. intros i p0 Hp0. cbn [Nat.add]. destruct (Hp i p0 Hp0) as (p & -> & Hw & _). exact Hw.
  - intros i. cbn [Nat.add]. destruct (plist g0 !! i) as [p0|] eqn:E.
    + destruct (Hp i p0 E) as (p & -> & _). done.
    + apply lookup_ge_None_1 in E. cbn. apply lookup_ge_None_2. unfold number in Hn. lia.
Qed.

Lemma weight_sum_pos g : steady g -> 0 < weight_sum g.
Proof.
  intros (_ & _ & Hn & _ & Hp). unfold weight_sum, number in *.
  assert (H : forall i p, plist g !! i = Some p -> 0 < weight p) by (intros; by eapply Hp).
  destruct (plist g) as [|p l]; [cbn in Hn; lia|]. cbn [sumi].
  pose proof (H O p eq_refl).
  assert (0 <= sumi (fun _ => weight) 1 l); [|lia].
  rewrite <- (sumi_zero 1 l). apply sumi_le. intros i q Hq. specialize (H (S i) q Hq). lia.
Qed.

Lemma schedule_step g0 g bs now rnd :
  schedule g0 g bs ->
  exists g' tried' b,
    ngx_http_upstream_get_round_robin_peer check_peer_down now [(0, rnd)] None rrp_config true
      [g] (fresh_tried (number g)) = Some ([g'], tried', true, O, RROk b)
    /\ schedule g0 g' (b :: bs).
Proof.
  intros H. pose proof (schedule_weight_sum _ _ _ H) as HW. destruct H as (Hst & Hn & Hsum & Hbs & Hp).
  pose proof (weight_sum_pos g Hst) as HWpos. rewrite HW in HWpos.
  destruct (round_spec now rnd g Hst) as (g' & tried' & b & q & E & Hst' & Hq & Hall & Hsum' & Hn').
  exists g', tried', b. split; [done|]. split_and!; [done|lia|lia| |].
  { constructor; [|done]. rewrite <- Hn. by eapply lookup_lt_Some. }
  intros i p0 Hp0. destruct (Hp i p0 Hp0) as (p & Hi & Hwp & Hcw & Hlow).
  destruct (Hall i p Hi) as (Hmax & p' & Hp' & Hw' & Hcw').
  exists p'. rewrite HW in Hcw'. cbn [length count_occ].
  split; [done|]. split; [lia|].
  destruct (Nat.eqb_spec i b) as [->|Hne].
  - destruct (Nat.eq_dec b b); [|done]. split; [lia|]. simplify_eq.
    destruct (sumi_pos (fun _ p => current_weight p + weight p) O (plist g)) as (j & r & Hr & Hpos).
    { rewrite (sumi_add (fun _ => current_weight) (fun _ => weight)). fold (weight_sum g). lia. }
    destruct (Hall j r Hr) as (Hle & _). lia.
  - destruct (Nat.eq_dec b i); [congruence|]. split; [lia|].
    destruct Hst as (_ & _ & _ & _ & Hpp). destruct (Hpp i p Hi) as (_ & ? & _). lia.
Qed.

Lemma serve_schedule reqs g0 g bs :
  schedule g0 g bs ->
  exists g' bs', serve reqs g = Some (g', bs') /\ length bs' = length reqs
    /\ schedule g0 g' (rev bs' ++ bs).
Proof.
  revert g bs. induction reqs as [|[now rnd] reqs IH]; intros g bs H.
  - exists g, []. done.
  - destruct (schedule_step g0 g bs now rnd H) as (g1 & tried' & b & E & H1). cbn [serve]. rewrite E.
    destruct (IH g1 (b :: bs) H1) as (g' & bs' & -> & Hl & H2). exists g', (b :: bs').
    split; [done|]. split; [cbn; lia|]. cbn. by rewrite <- app_assoc.
Qed.

Lemma sum_count (l : list peer) bs :
  Forall (fun b => b < length l)%nat bs ->
  sum_peers (fun i _ => Z.of_nat (count_occ Nat.eq_dec bs i)) l = Z.of_nat (length bs).
Proof.
  induction bs as [|b bs IH]; intros H; [apply sumi_zero|].
  apply Forall_cons_1 in H as [Hb H]. destruct (lookup_lt_is_Some_2 l b Hb) as [p Hp].
  rewrite (sumi_ext _ (fun i p => (if (i =? 0 + b)%nat then 1 else 0)
    + Z.of_nat (count_occ Nat.eq_dec bs i))).
  - rewrite sumi_add, (sumi_indicator _ _ _ _ _ Hp), IH by done. cbn [length]. lia.
  - intros i q _. cbn [Nat.add count_occ]. destruct (Nat.eq_dec b i), (Nat.eqb_spec i b); lia.
Qed.

End Fairness.


(** ** Selection in an unweighted group *)

Section Unweighted.
Context (check_peer_down : Z -> bool).
Abbreviation elig now tried := (eligible check_peer_down now tried).

Definition elig_at now tried (l : list peer) (i : nat) : bool :=
  match l !! i with Some p => elig now tried i p | None => false end.

Lemma scan_list_first now tried l s :
  (forall i, i ∈ l -> is_Some (sc_peers s !! i) /\ is_Some (is_tried tried i)) ->
  scan_list check_peer_down now tried false l s
  = Some (match find (elig_at now tried (sc_peers s)) l with
          | Some i => MkScan (sc_peers s) (Some i) i (sc_total s)
          | None => s
          end).
Proof.
  induction l as [|i l IH]; intros Hl; [done|]. cbn [scan_list find].
  destruct (Hl i) as ([p Hp] & [t Ht]); [by left|]. rewrite Hp, Ht. cbn [mbind option_bind].
  unfold elig_at at 1. rewrite Hp. unfold eligible. rewrite Ht.
  assert (IH' := IH (fun j Hj => Hl j (list_elem_of_further _ _ _ Hj))).
  destruct t; [by rewrite andb_false_r|]. destruct (peer_available check_peer_down now p); done.
Qed.

(** The peer after the last one chosen, in ring order. *)
Definition next_number (rnd : Z) (g : peers) : nat :=
  match last_number g with
  | None => scan_init rnd g
  | Some ln => (S ln mod number g)%nat
  end.

(** The cached position is usable: the set of peers did not change. *)
Definition last_valid (g : peers) : Prop :=
  match last_number g with
  | None => True
  | Some ln => (ln < number g)%nat /\ match config g with None => True | Some c => last_config g = c end
  end.

Lemma scan_begin_unweighted rnd g :
  weighted g = false -> (0 < number g)%nat -> last_valid g ->
  scan_begin (set_init (Some (scan_init rnd g)) g) (scan_init rnd g)
  = (next_number rnd g, next_number rnd g).
Proof.
  intros Hw Hn Hl. unfold scan_begin, next_number, last_valid in *.
  assert (Hg : let g1 := set_init (Some (scan_init rnd g)) g in weighted g1 = weighted g
    /\ last_number g1 = last_number g /\ number g1 = number g /\ config g1 = config g
    /\ last_config g1 = last_config g) by (by destruct g).
  destruct Hg as (-> & -> & -> & -> & ->). rewrite Hw. cbn [negb].
  destruct (last_number g) as [ln|]; [|done]. destruct Hl as [Hln Hc].
  rewrite (proj2 (Nat.ltb_lt _ _) Hln).
  replace (match config g with None => true | Some c => last_config g =? c end) with true
    by (destruct (config g); [rewrite Hc, Z.eqb_refl|]; done).
  cbn [andb]. destruct (Nat.ltb_spec (S ln) (number g)).
  - rewrite Nat.add_1_r, Nat.mod_small by done. done.
  - replace (S ln) with (number g) by lia. by rewrite Nat.Div0.mod_same.
Qed.

(** One selection in an unweighted group: the peer chosen is the first eligible
    one in ring order from the peer after the last choice (from init_number in the
    beginning), it becomes the last choice, and NULL means that none is eligible. *)
Theorem unweighted_selection (now rnd : Z) (g : peers) (tried : list Z)
    (Hn : (0 < number g)%nat) (Hw : weighted g = false) (Hf : tried_fits (number g) tried)
    (Hl : last_valid g) :
  exists g' tried' r, ngx_http_upstream_get_peer check_peer_down now rnd g tried = Some (g', tried', r)
    /\ r = find (elig_at now tried (plist g)) (ring (next_number rnd g) (number g))
    /\ match r with
       | Some b => last_number g' = Some b /\ last_valid g' /\ set_tried tried b = Some tried'
           /\ exists q, plist g !! b = Some q /\ plist g' = <[b := best_chosen now 0 q]> (plist g)
       | None => plist g' = plist g /\ last_number g' = last_number g /\ tried' = tried
       end.
Proof.
  unfold ngx_http_upstream_get_peer. rewrite (proj2 (Nat.eqb_neq _ 0)) by lia. cbv zeta.
  rewrite (scan_begin_unweighted rnd g Hw Hn Hl). set (init := scan_init rnd g).
  assert (Hg : plist (set_init (Some init) g) = plist g /\ weighted (set_init (Some init) g) = false
    /\ number (set_init (Some init) g) = number g) by (by destruct g).
  destruct Hg as (Hg1 & Hg2 & Hg3). rewrite Hg1, Hg2, Hg3.
  assert (Hnext : (next_number rnd g < number g)%nat).
  { unfold next_number. destruct (last_number g); [apply Nat.mod_upper_bound; lia|by apply scan_init_lt]. }
  pose proof (scan_loop_ring check_peer_down now tried false (next_number rnd g)
    (MkScan (plist g) None O 0) Hnext) as Hloop.
  cbn [sc_peers] in Hloop. fold (number g) in Hloop. rewrite Hloop, scan_list_first.
  2:{ intros i Hi. apply ring_elem in Hi; [|done]. split; [by apply lookup_lt_is_Some|].
      by apply (tried_fits_some (number g)). }
  cbn [mbind option_bind sc_peers sc_total].
  destruct (find (elig_at now tried (plist g)) (ring (next_number rnd g) (number g))) as [b|] eqn:E;
    cbn [sc_best sc_p sc_peers sc_total].
  - apply find_some in E as [_ He]. unfold elig_at in He.
    destruct (plist g !! b) as [q|] eqn:Hq; [|done]. cbn [mbind option_bind].
    assert (Hb : (b < number g)%nat) by (unfold number; eauto using lookup_lt_Some).
    destruct (tried_fits_some (number g) tried b Hf Hb) as [_ [tried' Ht]]. rewrite Ht. cbn [mbind option_bind].
    eexists _, tried', (Some b). split; [done|]. split; [done|].
    destruct g as [pl ini ln lc co w sg]. cbn in *. split; [done|]. split; [|split; [exact Ht|eauto]].
    unfold last_valid, number. cbn. rewrite length_insert. split; [done|]. by destruct co.
  - eexists _, tried, None. split; [done|]. split; [done|]. by destruct g.
Qed.

Lemma ring_head begin n : (begin < n)%nat -> exists l, ring begin n = begin :: l.
Proof.
  intros H. unfold ring. destruct (n - begin)%nat as [|k] eqn:E; [lia|]. cbn. eauto.
Qed.
End Unweighted.

Lemma unweighted_selection_witness :
  exists g' tried',
    ngx_http_upstream_get_peer (fun _ => false) 0 0
      (MkPeers (map mk_peer [1; 1; 1]) (Some O) (Some 0%nat) 0 None false false) [2]
    = Some (g', tried', Some 2%nat).
Proof.
  destruct (unweighted_selection (fun _ => false) 0 0
    (MkPeers (map mk_peer [1; 1; 1]) (Some O) (Some 0%nat) 0 None false false) [2])
    as (g' & tried' & r & E & -> & _).
  - cbn. lia.
  - reflexivity.
  - unfold tried_fits. cbn. lia.
  - cbn. lia.
  - exists g', tried'. exact E.
Defined.

(** ** Failure and recovery *)

(** Passive health checking: when a request to a peer fails and reaches
    max_fails, the peer is not eligible during the next fail_timeout seconds; after
    that it may be chosen once, and if that request succeeds the failures are
    forgotten, while its effective weight stays between zero and the configured
    weight throughout. *)
Theorem failed_peer_quarantine (check_peer_down : Z -> bool) (now now' total tries tries' : Z) (p : peer)
    (Hmf : 0 < max_fails p) (Hf : max_fails p <= fails p + 1) (Hw : 0 <= effective_weight p <= weight p) :
  let p1 := fst (ngx_http_upstream_free_round_robin_peer_locked now false NGX_PEER_FAILED tries p) in
  let p2 := best_chosen now' total p1 in
  let p3 := fst (ngx_http_upstream_free_round_robin_peer_locked now' false 0 tries' p2) in
  (now' - now <= fail_timeout p -> peer_available check_peer_down now' p1 = false)
  /\ (0 <= fail_timeout p -> fail_timeout p < now' - now -> fails p3 = 0)
  /\ 0 <= effective_weight p1 <= weight p1
  /\ effective_weight p1 <= effective_weight p
  /\ effective_weight p3 = effective_weight p1 /\ conns p1 = u64 (conns p - 1).
Proof.
  destruct p as [cw ew w co mc f a c mf ft d ci r]. cbn [max_fails fails effective_weight weight fail_timeout] in *.
  unfold ngx_http_upstream_free_round_robin_peer_locked, best_chosen, peer_available.
  change (Z.land NGX_PEER_FAILED NGX_PEER_FAILED =? 0) with false.
  change (Z.land 0 NGX_PEER_FAILED =? 0) with true. cbn.
  rewrite (proj2 (Z.eqb_neq mf 0)) by lia. cbn.
  assert (Hq : 0 <= w / mf) by (apply Z.div_pos; lia).
  assert (Hmf0 : mf =? 0 = false) by (apply Z.eqb_neq; lia).
  assert (Hf1 : mf <=? f + 1 = true) by (apply Z.leb_le; lia).
  destruct (Z.ltb_spec (ew - w / mf) 0); cbn; rewrite ?Hmf0, ?Hf1; cbn; split_and!; try lia.
  all: try done.
  all: try (intros H1; rewrite (proj2 (Z.leb_le _ _) H1); cbn; by rewrite andb_false_r).
  all: destruct (Z.ltb_spec ft (now' - now)); cbn; try (intros; lia).
  all: try (intros _ _; rewrite (proj2 (Z.ltb_lt now now')) by lia; done).
  all: repeat (case_if; cbn); zbool; intros; try done; try lia.
Qed.

Lemma failed_peer_quarantine_witness :
  peer_available (fun _ => false) 105
    (fst (ngx_http_upstream_free_round_robin_peer_locked 100 false NGX_PEER_FAILED 1 (mk_peer 4))) = false.
Proof.
  apply (failed_peer_quarantine (fun _ => false) 100 105 0 1 1 (mk_peer 4)); cbn; lia.
Defined.
