(* ===== verification/Vnswrr.v ===== *)
(** * Virtual node smooth weighted round robin:
    modules/ngx_http_upstream_vnswrr_module/ngx_http_upstream_vnswrr_module.c

    The balancer unrolls a period of smooth weighted round robin into an array of
    virtual peers, a batch at a time, and serves requests by walking along the array.

    Peers, their weights and the bitmap of tried peers are those of [RoundRobin].  A
    pointer to a peer is its position in the list of peers; the array of virtual peers is
    a list of the size allocated, whose entries are [None] until they are written; an
    access outside the array, or through an unwritten entry, has no result.  NGX_CONF_UNSET_UINT
    is [None]; ngx_random() and the health checker are arguments. *)

From S2P Require Import Prelude RoundRobin.

Module Vnswrr.

(** ngx_http_upstream_rr_vpeers_t *)
Record vpeer := VPeer { rindex : nat; vp : nat }.

(** ngx_http_upstream_vnswrr_srv_conf_t *)
Record vconf := VConf {
  vnumber : nat;
  last_number : option nat;
  init_number : option nat;
  max_init : nat;
  gcd : Z;
  last_peer : option nat;
  vpeers : list (option vpeer);
}.

Definition set_vpeers (n : nat) (v : list (option vpeer)) (c : vconf) : vconf :=
  VConf n (last_number c) (init_number c) (max_init c) (gcd c) (last_peer c) v.
Definition set_last_peer (n : nat) (p : option nat) (c : vconf) : vconf :=
  VConf (vnumber c) (Some n) (init_number c) (max_init c) (gcd c) p (vpeers c).
Definition set_init_number (n : nat) (c : vconf) : vconf :=
  VConf (vnumber c) (last_number c) (Some n) (max_init c) (gcd c) (last_peer c) (vpeers c).

(** peers->total_weight *)
Definition weight_total (l : list peer) : Z := sum_peers (fun _ => weight) l.

(** ngx_http_upstream_gcd *)
Fixpoint gcd_loop (fuel : nat) (a b : Z) : option Z :=
  match fuel with
  | O => None
  | S fuel => if b =? 0 then Some a else gcd_loop fuel b (a mod b)
  end.
Definition ngx_http_upstream_gcd (a b : Z) : option Z := gcd_loop (S (Z.to_nat b)) a b.

(** The loop of ngx_http_upstream_get_rr_peer: the peers, [best] with its current weight,
    and [total]. *)
Fixpoint rr_loop (i : nat) (l : list peer) (best : option (nat * Z)) (total : Z)
    : list peer * option (nat * Z) * Z :=
  match l with
  | [] => ([], best, total)
  | p :: l =>
      let cw := current_weight p + effective_weight p in
      let best := match best with
                  | None => Some (i, cw)
                  | Some (_, bw) => if bw <? cw then Some (i, cw) else best
                  end in
      let '(l, best, total) := rr_loop (S i) l best (total + effective_weight p) in
      (set_weights cw (effective_weight p) p :: l, best, total)
  end.

(** ngx_http_upstream_get_rr_peer: [None] is NGX_ERROR. *)
Definition ngx_http_upstream_get_rr_peer (l : list peer) : list peer * option nat :=
  let '(l, best, total) := rr_loop 0 l None 0 in
  match best with
  | None => (l, None)
  | Some (b, _) => (alter (fun p => set_weights (current_weight p - total) (effective_weight p) p) b l, Some b)
  end.

(** ngx_http_upstream_init_virtual_peers from [i] on, with [n] entries to go.  Without
    peers the loop of the code does not end. *)
Fixpoint init_virtual_peers (n i : nat) (l : list peer) (c : vconf) : option (list peer * vconf) :=
  match n with
  | O => Some (l, set_vpeers i (vpeers c) c)
  | S n =>
      let '(l, b) := ngx_http_upstream_get_rr_peer l in
      b ← b;
      if (i <? length (vpeers c))%nat
      then init_virtual_peers n (S i) l (set_vpeers (vnumber c) (<[i := Some (VPeer b b)]> (vpeers c)) c)
      else None
  end.
Definition ngx_http_upstream_init_virtual_peers (l : list peer) (c : vconf) (s e : nat) : option (list peer * vconf) :=
  init_virtual_peers (e - s) s l c.

(** The number of virtual peers that the next batch adds. *)
Definition batch (l : list peer) (c : vconf) : nat :=
  let n := u64 (weight_total l / gcd c - Z.of_nat (vnumber c)) in
  if Z.of_nat (max_init c) <? n then max_init c else Z.to_nat n.

(** ngx_http_upstream_init_vnswrr for one group of peers, with the gcd of its servers. *)
Definition gcd_servers (ws : list Z) : option Z :=
  foldl (fun g w => g ← g; ngx_http_upstream_gcd g w) (Some 0) ws.

Definition init_group (ws : list Z) (conf_max_init : nat) (g : peers) : option (peers * vconf) :=
  d ← gcd_servers ws;
  let d := if d =? 0 then 1 else d in
  let max_init := if (conf_max_init =? 0)%nat then number g
                  else if weight_total (plist g) <? Z.of_nat conf_max_init
                  then Z.to_nat (weight_total (plist g)) else conf_max_init in
  let c := VConf 0 None None max_init d None [] in
  if weighted g then
    let c := set_vpeers 0 (replicate (Z.to_nat (weight_total (plist g) / d)) None) c in
    '(l, c) ← ngx_http_upstream_init_virtual_peers (plist g) c 0 max_init;
    Some (set_plist l g, c)
  else Some (g, c).

(** The servers of an upstream block: backup flag and weight. *)
Definition ngx_http_upstream_init_vnswrr (servers : list (bool * Z)) (conf_max_init : nat)
    (g : peers) (backup : option peers) : option (peers * vconf * option (peers * vconf)) :=
  let ws b := map snd (filter (fun x => fst x = b) servers) in
  '(g, c) ← init_group (ws false) conf_max_init g;
  match backup with
  | None => Some (g, c, None)
  | Some bg => '(bg, bc) ← init_group (ws true) conf_max_init bg; Some (g, c, Some (bg, bc))
  end.

Section Selection.
Context (check_peer_down : Z -> bool).

(** vpeers[i].vpeer, which is then used, and vpeers[i].rindex. *)
Definition vpeer_at (c : vconf) (i : nat) : option nat :=
  match vpeers c !! i with Some (Some v) => Some (vp v) | _ => None end.
Definition rindex_at (c : vconf) (i : nat) : option nat :=
  match vpeers c !! i with Some v => Some (rindex (default (VPeer 0 0) v)) | None => None end.

(** The first request of a worker starts at a random position. *)
Definition start (rnd : Z) (is_weighted : bool) (l : list peer) (c : vconf) : option vconf :=
  match last_number c with
  | Some _ => Some c
  | None =>
      let i := Z.to_nat (rnd mod Z.of_nat (length l)) in
      if is_weighted then
        match vpeers c !! i with
        | Some v => Some (set_last_peer i (vp <$> v) (set_init_number i c))
        | None => None
        end
      else Some (set_last_peer i (Some i) (set_init_number i c))
  end.

(** One more batch, when the end of the array is reached. *)
Definition extend (l : list peer) (c : vconf) : option (list peer * vconf) :=
  if negb (Z.of_nat (vnumber c) =? weight_total l / gcd c)
     && (match last_number c with Some n => S n =? vnumber c | None => false end)%nat
  then ngx_http_upstream_init_virtual_peers l c (vnumber c) (batch l c + vnumber c)
  else Some (l, c).

(** begin_number and the peer there. *)
Definition begin_at (is_weighted : bool) (l : list peer) (c : vconf) : option (nat * nat) :=
  last ← last_number c;
  if is_weighted then
    let i := (S last mod vnumber c)%nat in
    v ← vpeer_at c i; Some (i, v)
  else
    match last_peer c with
    | Some q => if (S q <? length l)%nat then Some ((S last mod length l)%nat, S q) else Some (O, O)
    | None => Some (O, O)
    end.

(** The scan; [flag] is true in the first iteration.  The result is the position and the
    peer that were chosen. *)
Fixpoint vns_loop (fuel : nat) (now : Z) (tried : list Z) (is_weighted : bool) (begin i : nat) (flag : bool) (peer : nat)
    (l : list RoundRobin.peer) (c : vconf) : option (list RoundRobin.peer * vconf * option (nat * nat)) :=
  match fuel with
  | O => None
  | S fuel =>
      if (i =? begin)%nat && negb flag then Some (l, c, None)
      else
        '(l, c) ← (if is_weighted then
                     let n := batch l c in
                     if (0 <? n)%nat then ngx_http_upstream_init_virtual_peers l c (vnumber c) (n + vnumber c)
                     else Some (l, c)
                   else Some (l, c));
        bit ← (if is_weighted then rindex_at c i else Some i);
        t ← is_tried tried bit;
        p ← l !! peer;
        if negb t && peer_available check_peer_down now p
        then Some (l, set_last_peer i (Some peer) c, Some (i, peer))
        else
          let i := (S i mod if is_weighted then vnumber c else length l)%nat in
          peer ← (if is_weighted then vpeer_at c i
                  else Some (if (S peer <? length l)%nat then S peer else O));
          vns_loop fuel now tried is_weighted begin i false peer l c
  end.

(** What is done to the peer chosen. *)
Definition chosen (now : Z) (p : peer) : peer :=
  if fail_timeout p <? now - checked p then set_fails (fails p) (accessed p) now p else p.

(** ngx_http_upstream_get_vnswrr: the inner [None] is NULL. *)
Definition ngx_http_upstream_get_vnswrr (now rnd : Z) (g : peers) (c : vconf) (tried : list Z)
    : option (peers * vconf * list Z * option nat) :=
  if (length (plist g) =? 0)%nat then None
  else
    c ← start rnd (weighted g) (plist g) c;
    '(l, c) ← (if weighted g then extend (plist g) c else Some (plist g, c));
    '(begin, peer) ← begin_at (weighted g) l c;
    '(l, c, best) ← vns_loop (S (Z.to_nat (weight_total l))) now tried (weighted g) begin begin true peer l c;
    match best with
    | None => Some (set_plist l g, c, tried, None)
    | Some (i, b) =>
        bit ← (if weighted g then rindex_at c i else Some i);
        tried ← set_tried tried bit;
        Some (set_plist (alter (chosen now) b l) g, c, tried, Some b)
    end.

(** One group in ngx_http_upstream_get_vnswrr_peer; [None] is "goto failed". *)
Definition get_in_group (now rnd : Z) (g : peers) (c : vconf) (tried : list Z)
    : option (peers * vconf * list Z * option nat) :=
  if single g then
    p ← plist g !! O;
    if down p || (negb (max_conns p =? 0) && (max_conns p <=? conns p)) || check_peer_down (check_index p)
    then Some (g, c, tried, None)
    else Some (set_plist (<[O := set_conns (conns p + 1) p]> (plist g)) g, c, tried, Some O)
  else
    '(g, c, tried, best) ← ngx_http_upstream_get_vnswrr now rnd g c tried;
    match best with
    | None => Some (g, c, tried, None)
    | Some b => Some (set_plist (alter (fun p => set_conns (conns p + 1) p) b (plist g)) g, c, tried, Some b)
    end.

(** ngx_http_upstream_get_vnswrr_peer: the group and then its backup. *)
Fixpoint ngx_http_upstream_get_vnswrr_peer (now : Z) (rnds : list Z) (groups : list (peers * vconf)) (tried : list Z)
    : option (list (peers * vconf) * list Z * nat * rr_result) :=
  match groups, rnds with
  | (g, c) :: rest, rnd :: rnds =>
      '(g, c, tried, r) ← get_in_group now rnd g c tried;
      match r with
      | Some b => Some ((g, c) :: rest, tried, O, RROk b)
      | None =>
          match rest with
          | [] => Some ([(g, c)], tried, O, RRBusy)
          | (next, _) :: _ =>
              let words := ((number next + 63) / 64)%nat in
              let tried := replicate (Nat.min words (length tried)) 0 ++ drop words tried in
              '(rest, tried, k, r) ← ngx_http_upstream_get_vnswrr_peer now rnds rest tried;
              Some ((g, c) :: rest, tried, S k, r)
          end
      end
  | _, _ => None
  end.

End Selection.

(** The ring of three peers with weights 10, 2 and 2, and the choices of 8 requests; one
    batch of three virtual peers at a time. *)
Definition demo : option (list (option nat)) :=
  '(g, c, _) ← ngx_http_upstream_init_vnswrr [(false, 10); (false, 2); (false, 2)] 3 (mk_group [10; 2; 2]) None;
  '(_, _, bs) ← foldl (fun s _ => '(g, c, bs) ← s;
      '(g, c, _, b) ← ngx_http_upstream_get_vnswrr (fun _ => false) 0 2 g c (fresh_tried 3);
      Some (g, c, bs ++ [b])) (Some (g, c, [])) (seq 0 8);
  Some bs.

Example vnswrr_ex : demo = Some (map Some [0; 2; 0; 0; 0; 0; 1; 0]%nat).
Proof. vm_compute. reflexivity. Qed.

(** ** The greatest common divisor *)

Lemma gcd_loop_ok fuel : forall a b, (Z.to_nat b < fuel)%nat -> 0 <= a -> 0 <= b -> gcd_loop fuel a b = Some (Z.gcd a b).
Proof.
  induction fuel as [|fuel IH]; intros a b Hf Ha Hb; [lia|]. cbn. destruct (Z.eqb_spec b 0) as [->|Hne].
  - by rewrite Z.gcd_0_r, Z.abs_eq.
  - pose proof (Z.mod_pos_bound a b ltac:(lia)). rewrite IH by lia. by rewrite Z.gcd_comm, Z.gcd_mod, Z.gcd_comm.
Qed.

Lemma gcd_ok a b : 0 <= a -> 0 <= b -> ngx_http_upstream_gcd a b = Some (Z.gcd a b).
Proof. intros Ha Hb. apply gcd_loop_ok; lia. Qed.

Lemma gcd_servers_ok ws : Forall (fun w => 0 <= w) ws ->
  exists d, gcd_servers ws = Some d /\ 0 <= d /\ (forall w, w ∈ ws -> (d | w)) /\ (forall w, w ∈ ws -> 0 < w -> 0 < d).
Proof.
  intros H. unfold gcd_servers.
  assert (Hg : forall ws d0, 0 <= d0 -> Forall (fun w => 0 <= w) ws -> exists d,
    foldl (fun g w => g ← g; ngx_http_upstream_gcd g w) (Some d0) ws = Some d
    /\ 0 <= d /\ (d | d0) /\ (forall w, w ∈ ws -> (d | w))).
  { clear. induction ws as [|w ws IH]; intros d0 Hd Hw.
    - exists d0. split_and!; [done|done|done|]. intros w Hin. by apply elem_of_nil in Hin.
    - apply list.Forall_cons in Hw as [Hw Hws]. cbn [foldl mbind option_bind]. rewrite gcd_ok by done.
      destruct (IH (Z.gcd d0 w) (Z.gcd_nonneg _ _) Hws) as (d & -> & H1 & H2 & H3). exists d. split_and!; [done|done| |].
      + etransitivity; [exact H2|apply Z.gcd_divide_l].
      + intros x [-> | Hx]%elem_of_cons; [|by apply H3]. etransitivity; [exact H2|apply Z.gcd_divide_r]. }
  destruct (Hg ws 0 ltac:(lia) H) as (d & E & H1 & _ & H2). exists d. split_and!; try done.
  intros w Hin Hw. destruct (H2 w Hin) as [q Hq]. destruct (Z.eq_dec d 0) as [-> | ?]; lia.
Qed.

(** ** One round of smooth weighted round robin *)

Definition total_effective (l : list peer) : Z := sum_peers (fun _ => effective_weight) l.

Lemma rr_loop_spec l : forall i best total,
  let '(l', best', total') := rr_loop i l best total in
  l' = map (fun p => set_weights (current_weight p + effective_weight p) (effective_weight p) p) l
  /\ total' = total + sumi (fun _ => effective_weight) i l
  /\ match best' with
     | None => l = [] /\ best = None
     | Some (b, bw) =>
         (best = Some (b, bw) \/ exists j p, l !! j = Some p /\ b = (i + j)%nat /\ bw = current_weight p + effective_weight p)
         /\ (forall j p, l !! j = Some p -> current_weight p + effective_weight p <= bw)
         /\ (forall b0 bw0, best = Some (b0, bw0) -> bw0 <= bw)
     end.
Proof.
  induction l as [|p l IH]; intros i best total; cbn [rr_loop map sumi].
  - split_and!; [done|lia|]. destruct best as [[b bw]|]; [|done]. split_and!; [by left|done|]. intros b0 bw0 [= <- <-]. lia.
  - set (cw := current_weight p + effective_weight p).
    set (best1 := match best with None => Some (i, cw) | Some (_, bw) => if bw <? cw then Some (i, cw) else best end).
    specialize (IH (S i) best1 (total + effective_weight p)). destruct (rr_loop (S i) l best1 _) as [[l' best'] total'].
    destruct IH as (-> & -> & IH). split_and!; [done|lia|].
    assert (H1 : exists b1 w1, best1 = Some (b1, w1) /\ cw <= w1 /\ (best = Some (b1, w1) \/ (b1 = i /\ w1 = cw))
                 /\ forall b0 bw0, best = Some (b0, bw0) -> bw0 <= w1).
    { unfold best1. destruct best as [[b bw]|]; [destruct (Z.ltb_spec bw cw)|].
      - exists i, cw. split_and!; [done|lia|auto|]. intros ? ? [= <- <-]. lia.
      - exists b, bw. split_and!; [done|lia|auto|]. intros ? ? [= <- <-]. lia.
      - exists i, cw. split_and!; [done|lia|auto|done]. }
    destruct H1 as (b1 & w1 & Hb1 & Hcw & Hor & Hle). rewrite Hb1 in IH. destruct best' as [[b bw]|]; [|by destruct IH].
    destruct IH as (Hsrc & Hmax & Hge). specialize (Hge _ _ eq_refl). split_and!.
    + destruct Hsrc as [[= <- <-] | (j & q & Hj & -> & ->)].
      * destruct Hor as [? | [-> ->]]; [by left|right]. exists O, p. rewrite Nat.add_0_r. done.
      * right. exists (S j), q. split_and!; [done|lia|done].
    + intros [|j] q Hq; [cbn in Hq; simplify_eq; fold cw; lia|by eapply Hmax].
    + intros b0 bw0 Hb0. specialize (Hle _ _ Hb0). lia.
Qed.

(** The weights after a round in which [b] was chosen. *)
Definition after_round (W : Z) (b i : nat) (p : peer) : peer :=
  set_weights (current_weight p + effective_weight p - if (i =? b)%nat then W else 0) (effective_weight p) p.

Lemma get_rr_spec l : l <> [] -> exists l' b q,
  ngx_http_upstream_get_rr_peer l = (l', Some b) /\ l !! b = Some q
  /\ (forall i, l' !! i = after_round (total_effective l) b i <$> l !! i)
  /\ (forall i p, l !! i = Some p -> current_weight p + effective_weight p <= current_weight q + effective_weight q).
Proof.
  intros Hl. unfold ngx_http_upstream_get_rr_peer. pose proof (rr_loop_spec l 0 None 0) as H.
  destruct (rr_loop 0 l None 0) as [[l' best] total]. destruct H as (-> & -> & H).
  destruct best as [[b bw]|]; [|by destruct H]. destruct H as ([H | (j & q & Hq & -> & ->)] & Hmax & _); [done|].
  cbn [Nat.add]. eexists _, j, q. split; [done|]. split_and!; [done| |done].
  intros i. unfold after_round. change (0 + sumi (fun _ => effective_weight) 0 l) with (total_effective l).
  destruct (Nat.eqb_spec i j) as [->|Hne].
  - rewrite list_lookup_alter_eq, list_lookup_fmap, Hq. cbn. by destruct q.
  - rewrite list_lookup_alter_ne, list_lookup_fmap by done. destruct (l !! i) as [p|]; [|done]. cbn. by rewrite Z.sub_0_r.
Qed.

(** ** A period of rounds *)

Fixpoint rounds (n : nat) (l : list peer) : list nat * list peer :=
  match n with
  | O => ([], l)
  | S n =>
      match ngx_http_upstream_get_rr_peer l with
      | (l, Some b) => let '(bs, l) := rounds n l in (b :: bs, l)
      | (l, None) => ([], l)
      end
  end.

(** The peers in their initial state: no current weight, full effective weight. *)
Definition fresh (l : list peer) : Prop :=
  l <> [] /\ forall i p, l !! i = Some p -> current_weight p = 0 /\ effective_weight p = weight p /\ 0 < weight p.

(** The weights after the choices [bs], the last one first. *)
Definition sched (l0 l : list peer) (bs : list nat) : Prop :=
  length l = length l0 /\ Forall (fun b => b < length l0)%nat bs /\ sum_peers (fun _ => current_weight) l = 0
  /\ forall i p0, l0 !! i = Some p0 -> exists p, l !! i = Some p /\ effective_weight p = weight p0
     /\ current_weight p = Z.of_nat (length bs) * weight p0 - weight_total l0 * Z.of_nat (count_occ Nat.eq_dec bs i)
     /\ - weight_total l0 < current_weight p.

Lemma weight_total_pos l : fresh l -> 0 < weight_total l.
Proof.
  intros [Hne H]. unfold weight_total. destruct l as [|p l]; [done|]. cbn [sumi]. pose proof (H O p eq_refl).
  assert (0 <= sumi (fun _ => weight) 1 l); [|lia]. rewrite <- (sumi_zero 1 l). apply sumi_le. intros i q Hq.
  specialize (H (S i) q Hq). lia.
Qed.

Lemma sched_total l0 l bs : sched l0 l bs -> total_effective l = weight_total l0.
Proof.
  intros (Hn & _ & _ & Hp). unfold total_effective, weight_total.
  rewrite (sumi_fmap (fun _ => effective_weight) (fun i _ => default (mk_peer 0) (l !! i)) O l0 l).
  - apply sumi_ext. intros i p0 Hp0. cbn [Nat.add]. by destruct (Hp i p0 Hp0) as (p & -> & ? & _).
  - intros i. cbn [Nat.add]. destruct (l0 !! i) as [p0|] eqn:E.
    + by destruct (Hp i p0 E) as (p & -> & _).
    + apply lookup_ge_None_1 in E. cbn. apply lookup_ge_None_2. lia.
Qed.

Lemma after_round_fields W b i p :
  current_weight (after_round W b i p) = current_weight p + effective_weight p + - 1 * (if (i =? 0 + b)%nat then W else 0)
  /\ effective_weight (after_round W b i p) = effective_weight p.
Proof. unfold after_round. cbn [Nat.add]. destruct (set_weights_fields (current_weight p + effective_weight p - (if (i =? b)%nat then W else 0)) (effective_weight p) p) as [-> ->]. lia. Qed.

Lemma sched_step l0 l bs : fresh l0 -> sched l0 l bs -> exists l' b,
  ngx_http_upstream_get_rr_peer l = (l', Some b) /\ sched l0 l' (b :: bs).
Proof.
  intros Hf H. pose proof (sched_total _ _ _ H) as HT. pose proof (weight_total_pos _ Hf) as HW.
  destruct H as (Hn & Hbs & Hsum & Hp). destruct Hf as [Hne Hw].
  destruct (get_rr_spec l) as (l' & b & q & E & Hq & Hl' & Hmax); [by intros ->; destruct l0|].
  exists l', b. split; [done|]. rewrite HT in Hl'.
  assert (Hlen : length l' = length l).
  { apply Nat.le_antisymm; apply Nat.nlt_ge; intros Hlt.
    - destruct (lookup_lt_is_Some_2 l' (length l) Hlt) as [x Hx]. rewrite Hl', lookup_ge_None_2 in Hx by lia. done.
    - destruct (lookup_lt_is_Some_2 l (length l') Hlt) as [x Hx]. specialize (Hl' (length l')).
      rewrite Hx, lookup_ge_None_2 in Hl' by lia. done. }
  split_and!; [lia|constructor; [rewrite <- Hn; by eapply lookup_lt_Some|done]| |].
  - rewrite (sumi_fmap (fun _ => current_weight) (after_round (weight_total l0) b) O l l' Hl').
    rewrite (sumi_ext _ (fun i p => (current_weight p + effective_weight p) + - 1 * (if (i =? 0 + b)%nat then weight_total l0 else 0)))
      by (intros i p _; apply after_round_fields).
    rewrite sumi_add, sumi_add, sumi_scale, (sumi_indicator _ _ _ _ _ Hq).
    change (sumi (fun _ p => effective_weight p) 0 l) with (total_effective l).
    change (sumi (fun _ p => current_weight p) 0 l) with (sum_peers (fun _ => current_weight) l). lia.
  - intros i p0 Hp0. destruct (Hp i p0 Hp0) as (p & Hi & Hew & Hcw & Hlow). specialize (Hl' i). rewrite Hi in Hl'.
    eexists. split; [exact Hl'|]. destruct (after_round_fields (weight_total l0) b i p) as [-> ->]. cbn [Nat.add length count_occ].
    destruct (Hw i p0 Hp0) as (_ & _ & Hpos). split; [done|]. destruct (Nat.eqb_spec i b) as [->|Hne'].
    + destruct (Nat.eq_dec b b); [|done]. split; [lia|]. simplify_eq.
      destruct (sumi_pos (fun _ p => current_weight p + effective_weight p) O l) as (j & r & Hr & Hjp).
      { rewrite (sumi_add (fun _ => current_weight) (fun _ => effective_weight)). change (sumi (fun _ => effective_weight) 0 l) with (total_effective l). lia. }
      specialize (Hmax j r Hr). cbn in Hjp. lia.
    + destruct (Nat.eq_dec b i); [congruence|]. split; lia.
Qed.

Lemma fresh_sched l : fresh l -> sched l l [].
Proof.
  intros Hf. pose proof (weight_total_pos _ Hf). destruct Hf as [_ Hf]. split_and!; [done|constructor| |].
  - rewrite (sumi_ext _ (fun _ _ => 0)); [apply sumi_zero|]. intros i p Hp. by apply Hf in Hp as (? & _).
  - intros i p Hp. exists p. destruct (Hf i p Hp) as (-> & -> & _). cbn [length count_occ]. split_and!; lia || done.
Qed.

Lemma sched_rounds n : forall l0 l bs, fresh l0 -> sched l0 l bs -> exists bs' l',
  rounds n l = (bs', l') /\ length bs' = n /\ sched l0 l' (rev bs' ++ bs).
Proof.
  induction n as [|n IH]; intros l0 l bs Hf H; cbn [rounds]; [by exists [], l|].
  destruct (sched_step l0 l bs Hf H) as (l1 & b & -> & H1). destruct (IH l0 l1 (b :: bs) Hf H1) as (bs' & l' & -> & Hl & Hs).
  exists (b :: bs'), l'. split_and!; [done|cbn; lia|]. cbn. by rewrite <- app_assoc.
Qed.

(** Each peer gets its share of a period; it is never a full turn ahead of it. *)
Lemma ring_counts l g bs l' :
  fresh l -> 0 < g -> (forall i p, l !! i = Some p -> (g | weight p)) ->
  rounds (Z.to_nat (weight_total l / g)) l = (bs, l') ->
  forall i p, l !! i = Some p -> Z.of_nat (count_occ Nat.eq_dec bs i) = weight p / g.
Proof.
  intros Hf Hg Hdiv E i p Hi. pose proof (weight_total_pos _ Hf) as HW.
  destruct (sched_rounds (Z.to_nat (weight_total l / g)) l l [] Hf (fresh_sched _ Hf)) as (bs0 & l0 & E0 & Hlen & Hs).
  rewrite E in E0. injection E0 as <- <-. rewrite app_nil_r in Hs. destruct Hs as (_ & Hb & _ & Hp).
  assert (Hu : forall j q, l !! j = Some q -> weight q = g * (weight q / g)).
  { intros j q Hq. destruct (Hdiv j q Hq) as [u ->]. rewrite Z.div_mul by lia. lia. }
  assert (HT : weight_total l = g * sum_peers (fun _ q => weight q / g) l).
  { unfold weight_total. rewrite <- sumi_scale. apply sumi_ext. intros j q Hq. by apply (Hu j). }
  assert (HT' : weight_total l / g = sum_peers (fun _ q => weight q / g) l) by (rewrite HT, Z.mul_comm; by apply Z.div_mul; lia).
  assert (Hn : Z.of_nat (length bs) = weight_total l / g) by (rewrite Hlen; apply Z2Nat.id, Z.div_pos; lia).
  rewrite length_rev, Hn in Hp.
  rewrite (proj1 (Permutation_count_occ Nat.eq_dec bs (rev bs)) (Permutation_rev bs) i). symmetry. apply Zminus_eq.
  apply (sumi_nonneg_zero (fun i p => weight p / g - Z.of_nat (count_occ Nat.eq_dec (rev bs) i)) O l i p); [| |done].
  - intros j q Hq. cbn [Nat.add]. destruct (Hp j q Hq) as (q' & _ & _ & Hc & Hlow). pose proof (Hu j q Hq) as Huq. nia.
  - rewrite (sumi_ext _ (fun i p => weight p / g + - 1 * Z.of_nat (count_occ Nat.eq_dec (rev bs) i))) by (intros; lia).
    rewrite sumi_add, sumi_scale, (sum_count _ _ Hb), length_rev. change (sumi (fun _ p => weight p / g) 0 l) with (sum_peers (fun _ q => weight q / g) l). lia.
Qed.

(** ** The array of virtual peers *)

Definition entry (b : nat) : option vpeer := Some (VPeer b b).

(** The first [length bs] of [T] entries are written, with the choices [bs]. *)
Definition ring (T : nat) (c : vconf) (bs : list nat) : Prop :=
  vnumber c = length bs /\ (length bs <= T)%nat /\ vpeers c = map entry bs ++ replicate (T - length bs) None.

Lemma get_rr_length l l' b : ngx_http_upstream_get_rr_peer l = (l', Some b) -> length l' = length l.
Proof.
  unfold ngx_http_upstream_get_rr_peer. pose proof (rr_loop_spec l 0 None 0) as H.
  destruct (rr_loop 0 l None 0) as [[l1 best] total]. destruct H as (-> & _). destruct best as [[b1 w1]|]; [|done].
  intros [= <- <-]. by rewrite length_alter, length_map.
Qed.

Lemma rounds_nonempty n : forall l bs l', l <> [] -> rounds n l = (bs, l') -> length bs = n /\ length l' = length l.
Proof.
  induction n as [|n IH]; intros l bs l' Hl E; cbn in E; [by injection E as <- <-|].
  destruct (get_rr_spec l Hl) as (l1 & b & q & E1 & _). rewrite E1 in E. pose proof (get_rr_length _ _ _ E1) as Hlen.
  destruct (rounds n l1) as [bs1 l2] eqn:E2. injection E as <- <-.
  destruct (IH l1 bs1 l2) as [H1 H2]; [|done|cbn; lia]. intros ->. destruct l; [done|]. cbn in Hlen. lia.
Qed.

Lemma set_vpeers_twice n v n' v' c : set_vpeers n v (set_vpeers n' v' c) = set_vpeers n v c.
Proof. done. Qed.

Lemma init_virtual_ok n : forall l c done rest bs l',
  l <> [] -> vpeers c = map entry done ++ rest -> (n <= length rest)%nat -> rounds n l = (bs, l') ->
  init_virtual_peers n (length done) l c
    = Some (l', set_vpeers (length done + n) (map entry (done ++ bs) ++ drop n rest) c).
Proof.
  induction n as [|n IH]; intros l c done rest bs l' Hl Hv Hn E; cbn [init_virtual_peers rounds] in *.
  - injection E as <- <-. by rewrite Nat.add_0_r, app_nil_r, Hv.
  - destruct (get_rr_spec l Hl) as (l1 & b & q & E1 & _). rewrite E1 in *. pose proof (get_rr_length _ _ _ E1) as Hlen.
    destruct (rounds n l1) as [bs1 l2] eqn:E2. injection E as <- <-. cbn [mbind option_bind].
    destruct rest as [|x rest]; [cbn in Hn; lia|]. rewrite Hv, length_app, length_map. cbn [length].
    rewrite (proj2 (Nat.ltb_lt _ _)) by lia.
    assert (Hv' : <[length done := Some (VPeer b b)]> (map entry done ++ x :: rest) = map entry (done ++ [b]) ++ rest).
    { rewrite map_app, <- app_assoc. cbn. rewrite insert_app_r_alt; rewrite length_map; [|lia]. by rewrite Nat.sub_diag. }
    rewrite Hv'. replace (S (length done)) with (length (done ++ [b])) by (rewrite length_app; cbn; lia).
    rewrite (IH l1 _ _ rest bs1 l2); [|by intros ->; destruct l; cbn in Hlen; [|lia]|done|cbn in Hn; lia|done].
    rewrite set_vpeers_twice, <- app_assoc, length_app. cbn. do 3 f_equal. lia.
Qed.

(** Past the end of the array. *)
Lemma init_virtual_overflow n : forall l c i,
  (length (vpeers c) < i + n)%nat -> (i <= length (vpeers c))%nat -> init_virtual_peers n i l c = None.
Proof.
  induction n as [|n IH]; intros l c i H Hi; [lia|]. cbn [init_virtual_peers].
  destruct (ngx_http_upstream_get_rr_peer l) as [l1 [b|]]; [|done]. cbn [mbind option_bind].
  destruct (Nat.ltb_spec i (length (vpeers c))); [|done]. apply IH; cbn; rewrite length_insert; lia.
Qed.

(** A batch of [n] more. *)
Lemma ring_extend T c done l n bs l' :
  ring T c done -> l <> [] -> (length done + n <= T)%nat -> rounds n l = (bs, l') -> exists c',
  ngx_http_upstream_init_virtual_peers l c (vnumber c) (n + vnumber c) = Some (l', c')
  /\ ring T c' (done ++ bs) /\ gcd c' = gcd c /\ max_init c' = max_init c /\ last_number c' = last_number c
  /\ last_peer c' = last_peer c.
Proof.
  intros (Hv & Hle & Hp) Hl Hn E. destruct (rounds_nonempty _ _ _ _ Hl E) as [Hlen _].
  unfold ngx_http_upstream_init_virtual_peers. rewrite Nat.add_sub, Hv.
  rewrite (init_virtual_ok n l c done _ bs l' Hl Hp) by (rewrite ?length_replicate; lia || done).
  eexists. split; [done|]. split_and!; try done. split_and!; cbn; [rewrite length_app; lia|rewrite length_app; lia|].
  rewrite drop_replicate, length_app. do 2 f_equal. lia.
Qed.

(** ** Initialisation *)

Definition clamped (mi : nat) (g : peers) : nat :=
  if (mi =? 0)%nat then number g
  else if weight_total (plist g) <? Z.of_nat mi then Z.to_nat (weight_total (plist g)) else mi.

(** The weights of the peers are those of the servers, a server may have several peers. *)
Definition configured (ws : list Z) (g : peers) : Prop :=
  fresh (plist g) /\ Forall (fun w => 0 < w) ws /\ forall i p, plist g !! i = Some p -> weight p ∈ ws.

Lemma number_le_total l d : fresh l -> 0 < d -> (forall i p, l !! i = Some p -> (d | weight p)) ->
  (length l <= Z.to_nat (weight_total l / d))%nat.
Proof.
  intros [_ Hf] Hd Hdiv.
  assert (H : Z.of_nat (length l) * d <= sumi (fun _ => weight) 0 l).
  2:{ apply Nat2Z.inj_le. rewrite Z2Nat.id by (apply Z.div_pos; unfold weight_total; lia). apply Z.div_le_lower_bound; unfold weight_total; lia. }
  generalize O as k. induction l as [|p l IH]; intros k; cbn [length sumi]; [lia|].
  assert (IH' : Z.of_nat (length l) * d <= sumi (fun _ => weight) (S k) l).
  { apply IH; intros i q Hq; [apply (Hf (S i) q Hq)|apply (Hdiv (S i) q Hq)]. }
  destruct (Hf O p eq_refl) as (_ & _ & Hpos). pose proof (Z.divide_pos_le _ _ Hpos (Hdiv O p eq_refl)).
  rewrite Nat2Z.inj_succ, Z.mul_succ_l. lia.
Qed.

Lemma configured_gcd ws g : configured ws g -> exists d,
  gcd_servers ws = Some d /\ 0 < d /\ (forall i p, plist g !! i = Some p -> (d | weight p)).
Proof.
  intros ([Hne Hf] & Hws & Hin). destruct (gcd_servers_ok ws) as (d & E & H0 & Hdiv & Hpos).
  { rewrite list.Forall_forall in *. intros w Hw. specialize (Hws w Hw). lia. }
  exists d. split_and!; [done| |intros i p Hp; by eapply Hdiv, Hin].
  destruct (plist g) as [|p l] eqn:El; [done|]. apply (Hpos (weight p)); [by apply (Hin O)|]. by apply (Hf O p).
Qed.

Lemma init_group_weighted ws mi g d : weighted g = true -> gcd_servers ws = Some d -> 0 < d ->
  init_group ws mi g =
    '(l, c) ← ngx_http_upstream_init_virtual_peers (plist g)
                (VConf 0 None None (clamped mi g) d None (replicate (Z.to_nat (weight_total (plist g) / d)) None)) 0 (clamped mi g);
    Some (set_plist l g, c).
Proof.
  intros Hw E Hd. unfold init_group. rewrite E. cbn [mbind option_bind]. rewrite (proj2 (Z.eqb_neq d 0)) by lia. rewrite Hw. done.
Qed.

(** ** Weights and the rest of a peer *)

Definition same_weights (p p' : peer) : Prop :=
  current_weight p' = current_weight p /\ effective_weight p' = effective_weight p.

Lemma rr_loop_weights l l' : Forall2 same_weights l l' -> forall i best total,
  Forall2 same_weights (fst (fst (rr_loop i l best total))) (fst (fst (rr_loop i l' best total)))
  /\ snd (fst (rr_loop i l best total)) = snd (fst (rr_loop i l' best total))
  /\ snd (rr_loop i l best total) = snd (rr_loop i l' best total).
Proof.
  induction 1 as [|p p' l l' [H1 H2] H IH]; intros i best total; cbn [rr_loop]; [done|]. rewrite H1, H2.
  set (best1 := match best with None => _ | Some _ => _ end).
  specialize (IH (S i) best1 (total + effective_weight p)).
  destruct (rr_loop (S i) l best1 _) as [[l1 b1] t1], (rr_loop (S i) l' best1 _) as [[l2 b2] t2]. cbn in *.
  destruct IH as (IH1 & -> & ->). split_and!; try done. constructor; [|done]. split; by rewrite !(proj1 (set_weights_fields _ _ _)) || by rewrite !(proj2 (set_weights_fields _ _ _)).
Qed.

Lemma get_rr_weights l l' : Forall2 same_weights l l' ->
  snd (ngx_http_upstream_get_rr_peer l) = snd (ngx_http_upstream_get_rr_peer l')
  /\ Forall2 same_weights (fst (ngx_http_upstream_get_rr_peer l)) (fst (ngx_http_upstream_get_rr_peer l')).
Proof.
  intros H. unfold ngx_http_upstream_get_rr_peer. pose proof (rr_loop_weights l l' H 0 None 0) as Hr.
  destruct (rr_loop 0 l None 0) as [[l1 b1] t1], (rr_loop 0 l' None 0) as [[l2 b2] t2]. cbn in Hr.
  destruct Hr as (Hr & <- & <-). destruct b1 as [[b w]|]; [|done]. cbn. split; [done|].
  apply Forall2_alter; [done|]. intros p p' Hp Hp' [H1 H2]. split; [rewrite !(proj1 (set_weights_fields _ _ _)); congruence|].
  rewrite !(proj2 (set_weights_fields _ _ _)). done.
Qed.

Lemma rounds_weights n : forall l l', Forall2 same_weights l l' -> fst (rounds n l) = fst (rounds n l').
Proof.
  induction n as [|n IH]; intros l l' H; [done|]. cbn [rounds]. pose proof (get_rr_weights _ _ H) as [H1 H2].
  destruct (ngx_http_upstream_get_rr_peer l) as [l1 b1], (ngx_http_upstream_get_rr_peer l') as [l2 b2]. cbn in H1, H2. subst b2.
  destruct b1 as [b|]; [|done]. specialize (IH _ _ H2). destruct (rounds n l1), (rounds n l2). cbn in *. by subst.
Qed.

(** The balancer changes nothing but weights. *)
Definition same_rest (p p' : peer) : Prop := exists cw ew, p' = set_weights cw ew p.

#[global] Instance same_rest_refl : Reflexive same_rest.
Proof. intros p. exists (current_weight p), (effective_weight p). by destruct p. Qed.
#[global] Instance same_rest_trans : Transitive same_rest.
Proof. intros p q r (a & b & ->) (c & d & ->). exists c, d. by destruct p. Qed.

Lemma same_rest_available check now p p' : same_rest p p' -> peer_available check now p' = peer_available check now p.
Proof. intros (cw & ew & ->). by destruct p. Qed.

Lemma same_rest_weight p p' : same_rest p p' -> weight p' = weight p.
Proof. intros (cw & ew & ->). by destruct p. Qed.

Lemma rounds_rest n : forall l, Forall2 same_rest l (snd (rounds n l)).
Proof.
  induction n as [|n IH]; intros l; [reflexivity|]. cbn [rounds].
  assert (H : Forall2 same_rest l (fst (ngx_http_upstream_get_rr_peer l))).
  { destruct l as [|p0 l0] eqn:El; [constructor|]. rewrite <- El. destruct (get_rr_spec l) as (l' & b & q & E & _ & Hl & _); [by subst|].
    rewrite E. cbn. apply Forall2_same_length_lookup. split; [symmetry; by eapply get_rr_length|]. intros i p p' Hp Hp'.
    rewrite Hl, Hp in Hp'. injection Hp' as <-. unfold after_round. by eexists _, _. }
  destruct (ngx_http_upstream_get_rr_peer l) as [l1 [b|]]; cbn in *; [|done].
  specialize (IH l1). destruct (rounds n l1) as [bs l2]. cbn in *. by etrans.
Qed.

Lemma weight_total_rest l l' : Forall2 same_rest l l' -> weight_total l' = weight_total l.
Proof.
  unfold weight_total. generalize O as k. intros k H. revert k. induction H as [|p p' l l' Hp H IH]; intros k; cbn; [done|].
  by rewrite (same_rest_weight _ _ Hp), IH.
Qed.

(** ** The ring that the array is filled with *)

Lemma rounds_split n m : forall l bs1 l1 bs2 l2, l <> [] -> rounds n l = (bs1, l1) -> rounds m l1 = (bs2, l2) ->
  rounds (n + m) l = (bs1 ++ bs2, l2).
Proof.
  induction n as [|n IH]; intros l bs1 l1 bs2 l2 Hl E1 E2; cbn in *; [by injection E1 as <- <-|].
  destruct (get_rr_spec l Hl) as (l' & b & q & E & _). rewrite E in *. pose proof (get_rr_length _ _ _ E) as Hlen.
  destruct (rounds n l') as [bs l3] eqn:E3. injection E1 as <- <-.
  rewrite (IH l' bs l3 bs2 l2); [done| |done|done]. intros ->. destruct l; [done|]. cbn in Hlen. lia.
Qed.

(** The array belongs to the peers [l]; [full] is what it holds when it is complete. *)
Definition wring (T : nat) (l : list peer) (c : vconf) (full : list nat) : Prop :=
  l <> [] /\ 0 < gcd c /\ Z.of_nat T = weight_total l / gcd c /\ Z.of_nat T < 2 ^ 64 /\ (0 < max_init c)%nat
  /\ Forall (fun b => b < length l)%nat full
  /\ exists done, ring T c done /\ done <> [] /\ full = done ++ fst (rounds (T - length done) l).

Lemma wring_length T l c full : wring T l c full -> length full = T.
Proof.
  intros (Hl & _ & _ & _ & _ & _ & done & (_ & Hle & _) & _ & ->). destruct (rounds (T - length done) l) as [bs l'] eqn:E.
  destruct (rounds_nonempty _ _ _ _ Hl E) as [Hlen _]. cbn. rewrite length_app. lia.
Qed.

Lemma wring_vnumber T l c full : wring T l c full -> (0 < vnumber c <= T)%nat.
Proof. intros (_ & _ & _ & _ & _ & _ & done & (-> & Hle & _) & Hne & _). destruct done; [done|]. cbn in *. lia. Qed.

(** What is written is read back. *)
Lemma wring_lookup T l c full i : wring T l c full -> (i < vnumber c)%nat -> exists b,
  full !! i = Some b /\ vpeer_at c i = Some b /\ rindex_at c i = Some b /\ (b < length l)%nat.
Proof.
  intros (_ & _ & _ & _ & _ & Hb & done & (Hv & Hle & Hp) & _ & ->) Hi. rewrite Hv in Hi.
  destruct (lookup_lt_is_Some_2 done i Hi) as [b Hbi]. exists b. rewrite lookup_app_l by done. unfold vpeer_at, rindex_at.
  rewrite Hp, lookup_app_l by (rewrite length_map; done).
  assert (Hm : map entry done !! i = Some (entry b)) by (by rewrite list_lookup_fmap, Hbi). rewrite Hm.
  split_and!; try done. rewrite list.Forall_forall in Hb. apply Hb, elem_of_app. left. by eapply list_elem_of_lookup_2.
Qed.

Lemma batch_ok T l c full : wring T l c full -> batch l c = Nat.min (T - vnumber c) (max_init c).
Proof.
  intros H. pose proof (wring_vnumber _ _ _ _ H) as Hv. destruct H as (_ & _ & HT & Hw & _). unfold batch.
  rewrite <- HT, wrap_small by (unfold in_u; lia). destruct (Z.ltb_spec (Z.of_nat (max_init c)) (Z.of_nat T - Z.of_nat (vnumber c))); lia.
Qed.

Lemma init_wring T l c full n : wring T l c full -> (vnumber c + n <= T)%nat -> exists l' c',
  ngx_http_upstream_init_virtual_peers l c (vnumber c) (n + vnumber c) = Some (l', c')
  /\ wring T l' c' full /\ Forall2 same_rest l l' /\ vnumber c' = (vnumber c + n)%nat
  /\ last_number c' = last_number c /\ last_peer c' = last_peer c.
Proof.
  intros (Hl & Hg & HT & Hw & Hm & Hb & done & Hr & Hne & Hfull) Hn. pose proof Hr as (Hv & Hle & _). rewrite Hv in Hn.
  destruct (rounds n l) as [bs l'] eqn:E. destruct (rounds_nonempty _ _ _ _ Hl E) as [Hlen Hlen'].
  destruct (ring_extend T c done l n bs l' Hr Hl Hn E) as (c' & E1 & Hr' & Hg' & Hm' & Hln & Hlp).
  pose proof (rounds_rest n l) as Hrest. rewrite E in Hrest. cbn in Hrest.
  exists l', c'. split; [done|]. split_and!; try done; [|by rewrite (proj1 Hr'), length_app, Hv; lia].
  assert (Hl' : l' <> []) by (intros ->; destruct l; [done|]; cbn in Hlen'; lia).
  unfold wring. rewrite Hg', Hm', (weight_total_rest _ _ Hrest), Hlen'. split_and!; try done.
  exists (done ++ bs). split_and!; [done|by destruct done|]. rewrite Hfull, <- app_assoc. f_equal. rewrite length_app, Hlen.
  destruct (rounds (T - (length done + n)) l') as [bs2 l2] eqn:E2.
  replace (T - length done)%nat with (n + (T - (length done + n)))%nat by lia. by rewrite (rounds_split _ _ _ _ _ _ _ Hl E E2).
Qed.

(** The batch at the head of the scan. *)
Lemma scan_batch T l c full : wring T l c full -> exists l' c',
  (if (0 <? batch l c)%nat then ngx_http_upstream_init_virtual_peers l c (vnumber c) (batch l c + vnumber c) else Some (l, c)) = Some (l', c')
  /\ wring T l' c' full /\ Forall2 same_rest l l' /\ (vnumber c <= vnumber c')%nat
  /\ (vnumber c' = T \/ vnumber c < vnumber c')%nat /\ last_number c' = last_number c.
Proof.
  intros H. pose proof (wring_vnumber _ _ _ _ H) as Hv. pose proof (batch_ok _ _ _ _ H) as Hb.
  assert (Hm : (0 < max_init c)%nat) by (by destruct H as (_ & _ & _ & _ & ? & _)).
  destruct (Nat.ltb_spec 0 (batch l c)) as [Hlt|Hge].
  - destruct (init_wring T l c full (batch l c) H ltac:(lia)) as (l' & c' & E & H' & Hr & Hv' & Hln & _).
    exists l', c'. split_and!; try done; lia.
  - exists l, c. split_and!; try done. left. lia.
Qed.

(** ** The scan *)

Lemma ring_lookup b n k : (b < n)%nat -> (k < n)%nat -> RoundRobin.ring b n !! k = Some ((b + k) mod n)%nat.
Proof.
  intros Hb Hk. unfold RoundRobin.ring. destruct (decide (k < n - b)%nat).
  - rewrite lookup_app_l by (rewrite length_seq; lia). rewrite lookup_seq_lt by lia. by rewrite Nat.mod_small by lia.
  - rewrite lookup_app_r by (rewrite length_seq; lia). rewrite length_seq, lookup_seq_lt by lia. f_equal. cbn.
    replace (b + k)%nat with (k - (n - b) + 1 * n)%nat by lia. rewrite Nat.Div0.mod_add, Nat.mod_small; lia.
Qed.

Lemma ring_length b n : (b < n)%nat -> length (RoundRobin.ring b n) = n.
Proof. intros H. unfold RoundRobin.ring. rewrite length_app, !length_seq. lia. Qed.

(** The successor of a position in the walk around the ring. *)
Lemma ring_next b n pre i post : (b < n)%nat -> RoundRobin.ring b n = pre ++ i :: post ->
  (i < n)%nat /\ (S i mod n)%nat = match post with [] => b | j :: _ => j end.
Proof.
  intros Hb E. pose proof (ring_length _ _ Hb) as Hlen. rewrite E, length_app in Hlen. cbn in Hlen.
  pose proof (ring_lookup b n (length pre) Hb ltac:(lia)) as Hi. rewrite E, lookup_app_r, Nat.sub_diag in Hi by lia.
  cbn in Hi. injection Hi as Hi. assert (Hin : (i < n)%nat) by (rewrite Hi; apply Nat.mod_upper_bound; lia). split; [done|].
  assert (HS : (S i mod n = (b + S (length pre)) mod n)%nat).
  { rewrite Hi. rewrite <- Nat.add_1_r, Nat.Div0.add_mod_idemp_l. f_equal. lia. }
  rewrite HS. destruct post as [|j post]; cbn in Hlen.
  - replace (b + S (length pre))%nat with (b + 1 * n)%nat by lia. by rewrite Nat.Div0.mod_add, Nat.mod_small.
  - pose proof (ring_lookup b n (S (length pre)) Hb ltac:(lia)) as Hj. rewrite E, lookup_app_r in Hj by lia.
    replace (S (length pre) - length pre)%nat with 1%nat in Hj by lia. cbn in Hj. by injection Hj as ->.
Qed.

Section Walk.
Context (check_peer_down : Z -> bool) (now : Z) (tried : list Z).

(** The virtual peer at [i] can take the request. *)
Definition free (l : list peer) (full : list nat) (i : nat) : bool :=
  match full !! i with
  | Some b => match is_tried tried b, l !! b with
              | Some t, Some p => negb t && peer_available check_peer_down now p
              | _, _ => false
              end
  | None => false
  end.

Lemma free_rest l l' full i : Forall2 same_rest l l' -> free l' full i = free l full i.
Proof.
  intros H. unfold free. destruct (full !! i) as [b|]; [|done]. destruct (is_tried tried b) as [t|]; [|done].
  pose proof (proj1 (Forall2_lookup _ _ _) H b) as Hb. destruct (l !! b) as [p|], (l' !! b) as [p'|]; inversion Hb; try done.
  simplify_eq. by rewrite (same_rest_available _ _ p p').
Qed.

Lemma find_rest l l' full todo : Forall2 same_rest l l' -> find (free l' full) todo = find (free l full) todo.
Proof. intros H. induction todo as [|i todo IH]; cbn; [done|]. by rewrite (free_rest _ _ _ _ H), IH. Qed.

(** One position: the batch, then the test. *)
Lemma walk_step T l c full begin i flag b fuel :
  wring T l c full -> tried_fits (length l) tried -> (i < vnumber c)%nat -> full !! i = Some b ->
  (i =? begin)%nat && negb flag = false -> exists l' c',
  wring T l' c' full /\ Forall2 same_rest l l' /\ (vnumber c <= vnumber c')%nat
  /\ (vnumber c' = T \/ vnumber c < vnumber c')%nat /\ last_number c' = last_number c
  /\ vns_loop check_peer_down (S fuel) now tried true begin i flag b l c
     = if free l full i then Some (l', set_last_peer i (Some b) c', Some (i, b))
       else peer ← vpeer_at c' (S i mod vnumber c')%nat;
            vns_loop check_peer_down fuel now tried true begin (S i mod vnumber c')%nat false peer l' c'.
Proof.
  intros H Ht Hi Hb Hflag. destruct (scan_batch T l c full H) as (l' & c' & E & H' & Hr & Hv & Hv' & Hln).
  exists l', c'. split_and!; try done. cbn [vns_loop]. rewrite Hflag, E. cbn [mbind option_bind].
  destruct (wring_lookup T l' c' full i H' ltac:(lia)) as (b' & Hb' & _ & -> & Hlt). rewrite Hb in Hb'. injection Hb' as <-.
  cbn [mbind option_bind]. rewrite <- (free_rest _ _ full i Hr). unfold free. rewrite Hb.
  assert (Hlen : length l' = length l) by (symmetry; by eapply Forall2_length).
  destruct (tried_fits_some _ _ b Ht ltac:(lia)) as [[t ->] _]. destruct (lookup_lt_is_Some_2 l' b Hlt) as [p ->]. cbn [mbind option_bind].
  done.
Qed.

Lemma walk_ok T full begin : (begin < T)%nat -> forall todo pre fuel l c i flag b,
  RoundRobin.ring begin T = pre ++ todo -> wring T l c full -> tried_fits (length l) tried -> (length todo < fuel)%nat ->
  i = match todo with [] => begin | i :: _ => i end -> flag = match pre with [] => true | _ => false end ->
  (todo <> [] -> (i < vnumber c)%nat) -> full !! i = Some b -> (pre <> [] \/ todo <> []) -> exists l' c',
  vns_loop check_peer_down fuel now tried true begin i flag b l c
    = Some (l', c', match find (free l full) todo with Some i => Some (i, default O (full !! i)) | None => None end)
  /\ wring T l' c' full /\ Forall2 same_rest l l' /\ (vnumber c <= vnumber c')%nat
  /\ match find (free l full) todo with
     | Some i => last_number c' = Some i /\ (i < vnumber c')%nat
     | None => last_number c' = last_number c
     end.
Proof.
  intros Hbegin. induction todo as [|i0 todo IH]; intros pre fuel l c i flag b Hring H Ht Hf -> -> Hi Hb Hne.
  { destruct fuel as [|fuel]; [cbn in Hf; lia|]. destruct pre as [|x pre]; [by destruct Hne|].
    cbn. rewrite Nat.eqb_refl. exists l, c. by split_and!. }
  destruct fuel as [|fuel]; [cbn in Hf; lia|]. specialize (Hi ltac:(done)).
  destruct (walk_step T l c full begin i0 match pre with [] => true | _ => false end b fuel H Ht Hi Hb) as (l1 & c1 & H1 & Hr & Hv & Hv' & Hln & E).
  { destruct pre as [|x pre]; [by rewrite andb_false_r|]. rewrite andb_true_r. apply Nat.eqb_neq. intros ->.
    pose proof (ring_nodup begin T) as Hnd. pose proof (ring_lookup begin T 0 Hbegin ltac:(lia)) as H0.
    rewrite Nat.add_0_r, Nat.mod_small in H0 by lia. rewrite Hring in Hnd, H0. cbn in H0. injection H0 as ->.
    cbn in Hnd. apply list.NoDup_cons in Hnd as [Hnd _]. apply Hnd, elem_of_app. right. by left. }
  rewrite E. cbn [find]. destruct (free l full i0) eqn:Hfree.
  { exists l1, (set_last_peer i0 (Some b) c1). rewrite Hb. split_and!; try done. cbn. lia. }
  destruct (ring_next _ _ _ _ _ Hbegin Hring) as [Hi0 Hnext].
  assert (Hmod : (S i0 mod vnumber c1)%nat = (S i0 mod T)%nat).
  { destruct Hv' as [-> | Hlt]; [done|]. pose proof (wring_vnumber _ _ _ _ H1). destruct (decide (vnumber c1 = T)) as [-> | Hne']; [done|].
    rewrite !Nat.mod_small; lia. }
  assert (Hlt : (S i0 mod vnumber c1 < vnumber c1)%nat) by (apply Nat.mod_upper_bound; pose proof (wring_vnumber _ _ _ _ H1); lia).
  destruct (wring_lookup T l1 c1 full _ H1 Hlt) as (b1 & Hb1 & -> & _). cbn [mbind option_bind]. rewrite Hmod, Hnext in *.
  assert (Hlen : length l1 = length l) by (symmetry; by eapply Forall2_length).
  destruct (IH (pre ++ [i0]) fuel l1 c1 match todo with [] => begin | j :: _ => j end false b1) as (l2 & c2 & E2 & H2 & Hr2 & Hv2 & Hres); try done.
  - by rewrite <- app_assoc.
  - by rewrite Hlen.
  - cbn in Hf. lia.
  - by destruct pre.
  - left. by destruct pre.
  - rewrite E2, (find_rest _ _ _ _ Hr). rewrite (find_rest _ _ _ _ Hr) in Hres. exists l2, c2.
    split_and!; try done; [by etrans|lia|]. destruct (find (free l full) todo); [done|congruence].
Qed.

End Walk.

(** ** Selection *)

(** Changes to a peer that the weights do not see. *)
Definition touched (p p' : peer) : Prop := same_weights p p' /\ weight p' = weight p.

Lemma wring_touched T l l' c full : wring T l c full -> Forall2 touched l l' -> wring T l' c full.
Proof.
  intros (Hl & Hg & HT & Hw & Hm & Hb & done & Hr & Hne & Hfull) H. pose proof (Forall2_length H) as Hlen.
  assert (Hwt : weight_total l' = weight_total l).
  { unfold weight_total. clear -H. generalize O as k. induction H as [|p p' l l' [_ Hp] H IH]; intros k; cbn; [done|]. by rewrite Hp, IH. }
  unfold wring. rewrite Hwt, <- Hlen. split_and!; try done; [intros ->; by destruct l|].
  exists done. split_and!; try done. rewrite Hfull. f_equal. apply rounds_weights. eapply Forall2_impl; [|exact H]. by intros p p' [? _].
Qed.

Lemma Forall2_alter_r (R : peer -> peer -> Prop) f b l : (forall p, R p p) -> (forall p, R p (f p)) -> Forall2 R l (alter f b l).
Proof.
  intros Hrefl Hf. apply Forall2_same_length_lookup. split; [by rewrite length_alter|]. intros i p p' Hp Hp'.
  destruct (decide (b = i)) as [->|Hne].
  - rewrite list_lookup_alter_eq, Hp in Hp'. injection Hp' as <-. apply Hf.
  - rewrite list_lookup_alter_ne, Hp in Hp' by done. injection Hp' as <-. apply Hrefl.
Qed.

Lemma touched_refl p : touched p p.
Proof. done. Qed.
Lemma chosen_touched now p : touched p (chosen now p).
Proof. unfold chosen. destruct p. cbn. by destruct (_ <? _). Qed.

Lemma wring_last T l c full n q i : wring T l c full -> wring T l (set_last_peer n q (set_init_number i c)) full.
Proof. done. Qed.

(** Where the scan begins. *)
Lemma begin_ok T rnd l c full : wring T l c full -> (length l <= T)%nat -> exists c0 l1 c1 begin b,
  start rnd true l c = Some c0 /\ extend l c0 = Some (l1, c1) /\ begin_at true l1 c1 = Some (begin, b)
  /\ wring T l1 c1 full /\ Forall2 same_rest l l1 /\ (begin < vnumber c1)%nat /\ full !! begin = Some b
  /\ (forall last, last_number c = Some last -> (last < vnumber c)%nat -> begin = (S last mod T)%nat).
Proof.
  intros H HlT.
  assert (Hstart : exists c0 last, start rnd true l c = Some c0 /\ wring T l c0 full /\ last_number c0 = Some last
    /\ vnumber c0 = vnumber c /\ (forall n, last_number c = Some n -> n = last)).
  { unfold start. destruct (last_number c) as [n|] eqn:Hn.
    - exists c, n. split_and!; try done. by intros ? [= ->].
    - destruct H as (Hl & Hrest). pose proof Hrest as (_ & _ & _ & _ & _ & done & (_ & Hle & Hp) & _).
      assert (Hlt : (Z.to_nat (rnd mod Z.of_nat (length l)) < length (vpeers c))%nat).
      { rewrite Hp, length_app, length_map, length_replicate. assert (0 < length l)%nat by (destruct l; [done|cbn; lia]).
        pose proof (Z.mod_pos_bound rnd (Z.of_nat (length l)) ltac:(lia)). lia. }
      destruct (lookup_lt_is_Some_2 _ _ Hlt) as [v Hv]. rewrite Hv. eexists _, _. split_and!; [done|by apply wring_last|done|done|done]. }
  destruct Hstart as (c0 & last & E0 & H0 & Hlast & Hv0 & Hn).
  assert (Hext : exists l1 c1, extend l c0 = Some (l1, c1) /\ wring T l1 c1 full /\ Forall2 same_rest l l1
    /\ last_number c1 = Some last /\ ((vnumber c1 = T \/ S last <> vnumber c0 /\ vnumber c1 = vnumber c0 \/ S last < vnumber c1))%nat).
  { unfold extend. rewrite Hlast. pose proof (wring_vnumber _ _ _ _ H0) as Hv. pose proof (batch_ok _ _ _ _ H0) as Hb.
    pose proof H0 as (_ & _ & HT & _ & Hm & _). rewrite <- HT.
    destruct (Z.eqb_spec (Z.of_nat (vnumber c0)) (Z.of_nat T)) as [He|He]; cbn [negb andb].
    { exists l, c0. split_and!; try done. lia. }
    destruct (Nat.eqb_spec (S last) (vnumber c0)) as [Hs|Hs].
    - destruct (init_wring T l c0 full (batch l c0) H0 ltac:(lia)) as (l1 & c1 & E & H1 & Hr & Hv1 & Hln & _).
      exists l1, c1. split_and!; try done; [congruence|]. lia.
    - exists l, c0. split_and!; try done. lia. }
  destruct Hext as (l1 & c1 & E1 & H1 & Hr & Hln & Hcase). pose proof (wring_vnumber _ _ _ _ H1) as Hv1.
  assert (Hlt : (S last mod vnumber c1 < vnumber c1)%nat) by (apply Nat.mod_upper_bound; lia).
  destruct (wring_lookup T l1 c1 full _ H1 Hlt) as (b & Hb & Hvp & _).
  exists c0, l1, c1, (S last mod vnumber c1)%nat, b. split_and!; try done.
  - unfold begin_at. rewrite Hln. cbn [mbind option_bind]. by rewrite Hvp.
  - intros n Hn' Hnv. rewrite (Hn n Hn') in *. destruct (decide (vnumber c1 = T)) as [-> | HneT]; [done|].
    rewrite !Nat.mod_small; lia.
Qed.

Lemma same_rest_Forall2_length l l' : Forall2 same_rest l l' -> length l' = length l.
Proof. intros H. symmetry. by apply Forall2_length in H. Qed.

(** A peer of the group, up to weights and the time of the last check. *)
Definition kept (p p' : peer) : Prop :=
  exists cw ew ck, p' = set_fails (fails p) (accessed p) ck (set_weights cw ew p).

Lemma kept_chosen now p p' : same_rest p p' -> kept p p' /\ kept p (chosen now p').
Proof.
  intros (cw & ew & ->). split; [exists cw, ew, (checked p); by destruct p|].
  unfold chosen. destruct p as [a1 a2 a3 a4 a5 a6 a7 ck a9 ft a11 a12 a13]. cbn.
  destruct (ft <? now - ck); [by exists cw, ew, now|by exists cw, ew, ck].
Qed.

Lemma select_ok check now rnd T g c full tried :
  wring T (plist g) c full -> weighted g = true -> tried_fits (length (plist g)) tried -> (length (plist g) <= T)%nat ->
  exists g' c' tried' r begin, ngx_http_upstream_get_vnswrr check now rnd g c tried = Some (g', c', tried', r)
  /\ (begin < T)%nat
  /\ (forall last, last_number c = Some last -> (last < vnumber c)%nat -> begin = (S last mod T)%nat)
  /\ wring T (plist g') c' full /\ Forall2 kept (plist g) (plist g')
  /\ weighted g' = true /\ single g' = single g
  /\ match find (free check now tried (plist g) full) (RoundRobin.ring begin T) with
     | None => r = None /\ tried' = tried
     | Some i => r = full !! i /\ last_number c' = Some i /\ (i < vnumber c')%nat
                 /\ exists b, full !! i = Some b /\ set_tried tried b = Some tried'
     end.
Proof.
  intros H Hw Ht HlT. destruct (begin_ok T rnd _ c full H HlT) as (c0 & l1 & c1 & begin & b & E0 & E1 & E2 & H1 & Hr1 & Hb & Hfb & Hbegin).
  pose proof (wring_vnumber _ _ _ _ H1) as Hv1. unfold ngx_http_upstream_get_vnswrr.
  assert (Hne : (length (plist g) =? 0)%nat = false) by (destruct H as (Hl & _); by destruct (plist g)).
  rewrite Hne, Hw, E0. cbn [mbind option_bind]. rewrite E1. cbn [mbind option_bind]. rewrite E2. cbn [mbind option_bind].
  assert (HbT : (begin < T)%nat) by lia. pose proof (same_rest_Forall2_length _ _ Hr1) as Hlen1.
  destruct (walk_ok check now tried T full begin HbT (RoundRobin.ring begin T) [] (S (Z.to_nat (weight_total l1))) l1 c1 begin true b)
    as (l2 & c2 & E3 & H2 & Hr2 & Hv2 & Hres); try done.
  { by rewrite Hlen1. }
  { rewrite ring_length by done. pose proof H1 as (Hl1 & Hg & HT & _). pose proof (Z.div_le_upper_bound (weight_total l1) (gcd c1) (weight_total l1)).
    assert (0 <= weight_total l1) by (destruct (Z.le_gt_cases 0 (weight_total l1)); [done|pose proof (Z.div_lt_upper_bound (weight_total l1) (gcd c1) 0); lia]). nia. }
  { pose proof (ring_lookup begin T 0 HbT ltac:(lia)) as H0. rewrite Nat.add_0_r, Nat.mod_small in H0 by lia. destruct (RoundRobin.ring begin T) as [|x r]; [done|]. cbn in H0. congruence. }
  { right. pose proof (ring_length _ _ HbT). by destruct (RoundRobin.ring begin T); [cbn in *; lia|]. }
  rewrite (find_rest check now tried _ _ full (RoundRobin.ring begin T) Hr1) in E3, Hres. rewrite E3. cbn [mbind option_bind].
  assert (Hr : Forall2 same_rest (plist g) l2) by (by etrans).
  assert (Hk : Forall2 kept (plist g) l2) by (eapply Forall2_impl; [|exact Hr]; intros p p' Hp; by apply (kept_chosen now)).
  destruct (find (free check now tried (plist g) full) (RoundRobin.ring begin T)) as [i|] eqn:Hfind.
  - destruct Hres as [Hln Hlt]. destruct (wring_lookup T l2 c2 full i H2 Hlt) as (bi & Hbi & _ & Hri & Hbl). rewrite Hri, Hbi.
    cbn [mbind option_bind default from_option id].
    rewrite (same_rest_Forall2_length _ _ Hr) in Hbl. destruct (tried_fits_some _ _ bi Ht Hbl) as [_ [tried' Htr]]. rewrite Htr. cbn [mbind option_bind].
    eexists _, _, _, _, begin. split; [done|]. assert (Hpl : forall l g, plist (set_plist l g) = l) by (by intros l0 []). rewrite Hpl.
    split_and!; try done; [| |by destruct g|by destruct g|rewrite Hfind, Hbi; by eauto 6].
    + eapply wring_touched; [exact H2|]. apply Forall2_alter_r; [apply touched_refl|apply chosen_touched].
    + apply Forall2_same_length_lookup. split; [rewrite length_alter; by apply Forall2_length in Hr|]. intros j p p' Hp Hp'.
      apply Forall2_same_length_lookup in Hr as [_ Hr]. destruct (decide (bi = j)) as [->|Hne'].
      * rewrite list_lookup_alter_eq in Hp'. destruct (l2 !! j) as [p2|] eqn:Hp2; [|done]. injection Hp' as <-. by apply kept_chosen, (Hr j).
      * rewrite list_lookup_alter_ne in Hp' by done. by apply (kept_chosen now), (Hr j).
  - eexists _, _, _, _, begin. split; [done|]. assert (Hpl : forall l g, plist (set_plist l g) = l) by (by intros l0 []). rewrite Hpl.
    rewrite Hfind. split_and!; try done; by destruct g.
Qed.

(** ** Fairness *)

Section Serve.
Context (check_peer_down : Z -> bool).

(** Consecutive requests, each with its own bitmap, time and random value. *)
Fixpoint serve (reqs : list (Z * Z)) (g : peers) (c : vconf) : option (peers * vconf * list nat) :=
  match reqs with
  | [] => Some (g, c, [])
  | (now, rnd) :: reqs =>
      match ngx_http_upstream_get_vnswrr_peer check_peer_down now [rnd] [(g, c)] (fresh_tried (number g)) with
      | Some ([(g, c)], _, _, RROk b) => '(g, c, bs) ← serve reqs g c; Some (g, c, b :: bs)
      | _ => None
      end
  end.

(** A weighted group of healthy peers with its array. *)
Definition serving (T : nat) (g : peers) (c : vconf) (full : list nat) : Prop :=
  wring T (plist g) c full /\ weighted g = true /\ single g = false /\ (length (plist g) <= T)%nat
  /\ Forall (healthy check_peer_down) (plist g).

Lemma free_healthy now g full i : Forall (healthy check_peer_down) (plist g) ->
  Forall (fun b => b < length (plist g))%nat full -> (i < length full)%nat ->
  free check_peer_down now (fresh_tried (number g)) (plist g) full i = true.
Proof.
  intros Hh Hb Hi. unfold free. destruct (lookup_lt_is_Some_2 full i Hi) as [b Hbi]. rewrite Hbi.
  rewrite list.Forall_forall in Hb. assert (Hlt : (b < length (plist g))%nat) by (apply Hb; by eapply list_elem_of_lookup_2).
  rewrite fresh_not_tried by done. destruct (lookup_lt_is_Some_2 _ b Hlt) as [p Hp]. rewrite Hp. cbn [negb andb].
  apply healthy_available. rewrite list.Forall_forall in Hh. apply Hh. by eapply list_elem_of_lookup_2.
Qed.

Lemma healthy_kept p p' : kept p p' -> healthy check_peer_down p ->
  healthy check_peer_down p' /\ healthy check_peer_down (set_conns (conns p' + 1) p').
Proof. intros (cw & ew & ck & ->). by destruct p. Qed.

Lemma conns_touched (p : peer) : touched p (set_conns (conns p + 1) p).
Proof. by destruct p. Qed.

Lemma serve_step T now rnd g c full : serving T g c full -> exists g' c' tried' begin b,
  ngx_http_upstream_get_vnswrr_peer check_peer_down now [rnd] [(g, c)] (fresh_tried (number g))
    = Some ([(g', c')], tried', O, RROk b)
  /\ serving T g' c' full /\ full !! begin = Some b /\ last_number c' = Some begin /\ (begin < vnumber c')%nat
  /\ (forall last, last_number c = Some last -> (last < vnumber c)%nat -> begin = (S last mod T)%nat).
Proof.
  intros (H & Hw & Hsg & HlT & Hh). pose proof (wring_length _ _ _ _ H) as Hlen.
  destruct (select_ok check_peer_down now rnd T g c full _ H Hw (fresh_tried_fits (length (plist g))) HlT)
    as (g1 & c1 & tried' & r & begin & E & Hbegin & Hlast & H1 & Hk & Hw1 & Hs1 & Hres).
  assert (Hfree : free check_peer_down now (fresh_tried (length (plist g))) (plist g) full begin = true).
  { apply free_healthy; [done|by destruct H as (_ & _ & _ & _ & _ & ? & _)|lia]. }
  assert (Hfind : find (free check_peer_down now (fresh_tried (length (plist g))) (plist g) full) (RoundRobin.ring begin T) = Some begin).
  { pose proof (ring_lookup begin T 0 Hbegin ltac:(lia)) as H0. rewrite Nat.add_0_r, Nat.mod_small in H0 by lia.
    destruct (RoundRobin.ring begin T) as [|x rest]; [done|]. cbn in H0. injection H0 as ->. cbn. by rewrite Hfree. }
  rewrite Hfind in Hres. destruct Hres as (-> & Hln & Hlt & b & Hb & _). unfold number in *.
  set (g2 := set_plist (alter (fun p => set_conns (conns p + 1) p) b (plist g1)) g1).
  assert (Hpl : plist g2 = alter (fun p => set_conns (conns p + 1) p) b (plist g1)) by (by unfold g2; destruct g1).
  exists g2, c1, tried', begin, b. split_and!; try done.
  - cbn [ngx_http_upstream_get_vnswrr_peer]. unfold get_in_group. rewrite Hsg, E. cbn [mbind option_bind]. by rewrite Hb.
  - split_and!.
    + rewrite Hpl. eapply wring_touched; [done|]. apply Forall2_alter_r; [apply touched_refl|apply conns_touched].
    + by unfold g2; destruct g1.
    + rewrite <- Hsg, <- Hs1. by unfold g2; destruct g1.
    + rewrite Hpl, length_alter, <- (Forall2_length Hk). done.
    + rewrite Hpl. apply Forall_lookup. intros i p Hp. apply Forall2_same_length_lookup in Hk as [Hkl Hk].
      assert (Hin : (i < length (plist g))%nat) by (rewrite Hkl; apply lookup_lt_Some in Hp; by rewrite length_alter in Hp).
      destruct (lookup_lt_is_Some_2 _ i Hin) as [p0 Hp0]. rewrite Forall_lookup in Hh. specialize (Hh i p0 Hp0).
      destruct (decide (b = i)) as [->|Hne].
      * rewrite list_lookup_alter_eq in Hp. destruct (plist g1 !! i) as [p1|] eqn:Hp1; [|done]. injection Hp as <-.
        by apply (healthy_kept p0 p1 (Hk i p0 p1 Hp0 Hp1)).
      * rewrite list_lookup_alter_ne in Hp by done. by apply (healthy_kept p0 p (Hk i p0 p Hp0 Hp)).
Qed.

(** From any position on, the choices follow the ring. *)
Lemma serve_follows T full reqs : forall g c last, serving T g c full -> last_number c = Some last -> (last < vnumber c)%nat ->
  exists g' c', serve reqs g c
    = Some (g', c', map (fun k => default O (full !! ((S last + k) mod T)%nat)) (seq 0 (length reqs)))
  /\ serving T g' c' full.
Proof.
  induction reqs as [|[now rnd] reqs IH]; intros g c last H Hl Hlt; [by exists g, c|].
  destruct (serve_step T now rnd g c full H) as (g1 & c1 & tried' & begin & b & E & H1 & Hb & Hl1 & Hlt1 & Hbegin).
  specialize (Hbegin last Hl Hlt). cbn [serve]. rewrite E.
  destruct (IH g1 c1 begin H1 Hl1 Hlt1) as (g2 & c2 & -> & H2). exists g2, c2. split; [|done]. cbn [mbind option_bind length].
  do 2 f_equal. cbn [seq map]. rewrite Nat.add_0_r, <- Hbegin, Hb. f_equal. rewrite <- seq_shift, map_map. apply map_ext. intros k.
  do 2 f_equal. rewrite Hbegin.
  replace (S (S last mod T) + k)%nat with (S last mod T + (k + 1))%nat by lia. rewrite Nat.Div0.add_mod_idemp_l. f_equal. lia.
Qed.

End Serve.

(** A turn around the ring meets every virtual peer once. *)
Lemma rotation_perm (full : list nat) s : full <> [] ->
  map (fun k => default O (full !! ((s + k) mod length full)%nat)) (seq 0 (length full)) ≡ₚ full.
Proof.
  intros Hne. set (T := length full). assert (HT : (0 < T)%nat) by (unfold T; destruct full; [done|cbn; lia]).
  assert (Hs : (s mod T < T)%nat) by (apply Nat.mod_upper_bound; lia).
  assert (Hring : map (fun k => ((s + k) mod T)%nat) (seq 0 T) = RoundRobin.ring (s mod T) T).
  { apply list_eq. intros k. destruct (decide (k < T)%nat).
    - rewrite ring_lookup by done. change (map ?f ?l) with (f <$> l). rewrite list_lookup_fmap, lookup_seq_lt by lia. cbn. f_equal.
      by rewrite Nat.Div0.add_mod_idemp_l.
    - rewrite !lookup_ge_None_2; [done|rewrite ring_length; lia|rewrite length_map, length_seq; lia]. }
  assert (Hperm : RoundRobin.ring (s mod T) T ≡ₚ seq 0 T).
  { unfold RoundRobin.ring. rewrite Permutation_app_comm. pose proof (seq_app (s mod T) (T - s mod T) 0) as Hq. rewrite Nat.add_0_l in Hq.
    rewrite <- Hq. by replace (s mod T + (T - s mod T))%nat with T by lia. }
  rewrite <- (map_map (fun k => ((s + k) mod T)%nat) (fun i => default O (full !! i))), Hring, Hperm.
  unfold T. clear. induction full as [|x full IH]; [done|]. cbn [length seq map]. rewrite <- seq_shift, map_map. cbn. by rewrite IH.
Qed.

(** After initialisation the array is ready. *)
Lemma init_group_ok ws mi g d : configured ws g -> weighted g = true -> gcd_servers ws = Some d -> 0 < d ->
  (forall i p, plist g !! i = Some p -> (d | weight p)) -> weight_total (plist g) / d < 2 ^ 64 ->
  (clamped mi g <= Z.to_nat (weight_total (plist g) / d))%nat -> exists l' c,
  init_group ws mi g = Some (set_plist l' g, c) /\ last_number c = None /\ Forall2 same_rest (plist g) l'
  /\ wring (Z.to_nat (weight_total (plist g) / d)) l' c (fst (rounds (Z.to_nat (weight_total (plist g) / d)) (plist g))).
Proof.
  intros (Hf & _ & _) Hw Hgcd Hd Hdiv H64 Hle. set (T := Z.to_nat (weight_total (plist g) / d)) in *.
  pose proof (weight_total_pos _ Hf) as HW. pose proof (number_le_total _ _ Hf Hd Hdiv) as Hnum. fold T in Hnum.
  assert (Hne : plist g <> []) by apply Hf. assert (Hpos : (0 < clamped mi g)%nat).
  { unfold clamped, number. destruct (Nat.eqb_spec mi 0); [destruct (plist g); [done|cbn; lia]|]. case_if; lia. }
  rewrite (init_group_weighted ws mi g d Hw Hgcd Hd). fold T. destruct (rounds (clamped mi g) (plist g)) as [bs l'] eqn:E.
  destruct (rounds_nonempty _ _ _ _ Hne E) as [Hlen Hlen'].
  destruct (ring_extend T (VConf 0 None None (clamped mi g) d None (replicate T None)) [] (plist g) (clamped mi g) bs l')
    as (c & E1 & Hr & Hg & Hm & Hl & _); [split_and!; cbn; [done|lia|by rewrite Nat.sub_0_r]|done|cbn; lia|done|].
  cbn [vnumber] in E1. rewrite Nat.add_0_r in E1. rewrite E1. cbn [mbind option_bind].
  pose proof (rounds_rest (clamped mi g) (plist g)) as Hrest. rewrite E in Hrest. cbn in Hrest.
  exists l', c. split_and!; try done. destruct (rounds T (plist g)) as [full lf] eqn:EF.
  assert (Hfull : full = bs ++ fst (rounds (T - length bs) l')).
  { destruct (rounds (T - length bs) l') as [bs2 l2] eqn:E2. pose proof (rounds_split _ _ _ _ _ _ _ Hne E E2) as Es. cbn.
    replace (clamped mi g + (T - length bs))%nat with T in Es by lia. congruence. }
  unfold wring. cbn [fst]. rewrite Hg, Hm. cbn [gcd max_init]. rewrite (weight_total_rest _ _ Hrest).
  split_and!; try done; [by intros ->; destruct (plist g); cbn in Hlen'; [|lia]|unfold T; rewrite Z2Nat.id; [done|apply Z.div_pos; lia]| | |].
  - unfold T. rewrite Z2Nat.id; [done|apply Z.div_pos; lia].
  - destruct (sched_rounds T _ _ [] Hf (fresh_sched _ Hf)) as (bs' & lf' & EF' & _ & (_ & Hb & _)). rewrite EF in EF'. injection EF' as <- <-.
    rewrite Hlen'. rewrite app_nil_r in Hb. apply Forall_rev in Hb. by rewrite rev_involutive in Hb.
  - exists bs. split_and!; [done|by intros ->; cbn in Hlen; lia|done].
Qed.

(** ** The properties *)

(** The size of the array: with d the greatest common divisor of the weights and W
    their sum, the array has W / d entries, and initialisation writes max_init of them.
    By default that is the number of peers, which fits.  A configured max_init is only
    limited to W: initialisation stays inside the array exactly when the limited value is
    at most W / d. *)
Theorem vnswrr_init_bounds ws mi g :
  configured ws g -> weighted g = true ->
  exists d, gcd_servers ws = Some d /\ 0 < d /\ (clamped 0 g <= Z.to_nat (weight_total (plist g) / d))%nat
    /\ (is_Some (init_group ws mi g) <-> (clamped mi g <= Z.to_nat (weight_total (plist g) / d))%nat).
Proof.
  intros Hc Hw. destruct (configured_gcd ws g Hc) as (d & E & Hd & Hdiv). pose proof Hc as (Hf & _).
  exists d. split_and!; [done|done|by apply number_le_total|]. rewrite (init_group_weighted ws mi g d Hw E Hd).
  set (T := Z.to_nat (weight_total (plist g) / d)). set (c0 := VConf _ _ _ _ _ _ _).
  assert (Hlen : length (vpeers c0) = T) by (unfold c0; cbn; by rewrite length_replicate). split.
  - intros Hs. apply Nat.nlt_ge. intros Hlt. unfold ngx_http_upstream_init_virtual_peers in Hs.
    rewrite init_virtual_overflow in Hs by lia. cbn in Hs. by apply is_Some_None in Hs.
  - intros Hle. destruct (rounds (clamped mi g) (plist g)) as [bs l'] eqn:E1.
    destruct (ring_extend T c0 [] (plist g) (clamped mi g) bs l') as (c' & E2 & _); [split_and!; cbn; [done|lia|by rewrite Nat.sub_0_r]|apply Hf|cbn; lia|done|].
    change (vnumber c0) with O in E2. rewrite Nat.add_0_r in E2. rewrite E2. by eexists.
Qed.

(** Selection in a weighted group: the request goes to the first virtual peer that can
    take it, walking once around the ring from the position after the last choice, and to
    none if there is no such virtual peer.  The array is extended batch by batch on the
    way, inside its bounds, and what it holds when complete does not depend on when. *)
Theorem vnswrr_selection check now rnd T g c full tried :
  wring T (plist g) c full -> weighted g = true -> tried_fits (length (plist g)) tried -> (length (plist g) <= T)%nat ->
  exists g' c' tried' r begin, ngx_http_upstream_get_vnswrr check now rnd g c tried = Some (g', c', tried', r)
  /\ (begin < T)%nat
  /\ (forall last, last_number c = Some last -> (last < vnumber c)%nat -> begin = (S last mod T)%nat)
  /\ wring T (plist g') c' full /\ Forall2 kept (plist g) (plist g')
  /\ match find (free check now tried (plist g) full) (RoundRobin.ring begin T) with
     | None => r = None /\ tried' = tried
     | Some i => r = full !! i /\ last_number c' = Some i /\ (i < vnumber c')%nat
                 /\ exists b, full !! i = Some b /\ set_tried tried b = Some tried'
     end.
Proof.
  intros H Hw Ht Hl. destruct (select_ok check now rnd T g c full tried H Hw Ht Hl) as (g' & c' & tried' & r & begin & H1 & H2 & H3 & H4 & H5 & _ & _ & H6).
  by exists g', c', tried', r, begin.
Qed.

(** C36. Fairness: with healthy peers, after the first request, which starts at a random
    position, every W / d consecutive requests choose each peer weight / d times, for
    every max_init that the array admits. *)
Theorem vnswrr_fair check ws mi g now0 rnd0 reqs d :
  configured ws g -> weighted g = true -> single g = false -> Forall (healthy check) (plist g) ->
  gcd_servers ws = Some d -> weight_total (plist g) / d < 2 ^ 64 ->
  (clamped mi g <= Z.to_nat (weight_total (plist g) / d))%nat -> Z.of_nat (length reqs) = weight_total (plist g) / d ->
  exists g0 c0 g' c' b0 bs, init_group ws mi g = Some (g0, c0)
    /\ serve check ((now0, rnd0) :: reqs) g0 c0 = Some (g', c', b0 :: bs)
    /\ forall i p, plist g !! i = Some p -> Z.of_nat (count_occ Nat.eq_dec bs i) = weight p / d.
Proof.
  intros Hc Hw Hs Hh Hgcd H64 Hle Hlen. destruct (configured_gcd ws g Hc) as (d' & E & Hd & Hdiv). rewrite Hgcd in E. injection E as <-.
  pose proof Hc as (Hf & _). set (T := Z.to_nat (weight_total (plist g) / d)) in *.
  destruct (init_group_ok ws mi g d Hc Hw Hgcd Hd Hdiv H64 Hle) as (l' & c0 & E0 & _ & Hr & Hwr). fold T in Hwr.
  destruct (rounds T (plist g)) as [full lf] eqn:EF. cbn [fst] in Hwr. pose proof (wring_length _ _ _ _ Hwr) as HT.
  assert (Hsrv : serving check T (set_plist l' g) c0 full).
  { assert (Hpl : plist (set_plist l' g) = l') by (by destruct g). unfold serving. rewrite Hpl. split_and!; try done; try by destruct g.
    - rewrite (same_rest_Forall2_length _ _ Hr). by apply number_le_total.
    - apply Forall_lookup. intros i p Hp. apply Forall2_same_length_lookup in Hr as [Hrl Hr].
      assert (Hi : (i < length (plist g))%nat) by (rewrite Hrl; by eapply lookup_lt_Some).
      destruct (lookup_lt_is_Some_2 _ i Hi) as [p0 Hp0]. rewrite Forall_lookup in Hh.
      apply (healthy_kept check p0 p); [by apply (kept_chosen 0), (Hr i)|by apply (Hh i)]. }
  destruct (serve_step check T now0 rnd0 _ _ _ Hsrv) as (g1 & c1 & tr & begin & b0 & E1 & H1 & _ & Hl1 & Hlt1 & _).
  destruct (serve_follows check T full reqs g1 c1 begin H1 Hl1 Hlt1) as (g' & c' & E2 & _).
  eexists _, c0, g', c', b0, _. split; [done|]. split; [cbn [serve]; rewrite E1, E2; done|].
  intros i p Hp. rewrite <- (ring_counts (plist g) d full lf Hf Hd Hdiv EF i p Hp). f_equal.
  apply (Permutation_count_occ Nat.eq_dec). assert (Hn : length reqs = length full) by (rewrite HT; unfold T; lia). rewrite Hn, <- HT.
  apply rotation_perm. intros ->. cbn in HT. pose proof (number_le_total _ _ Hf Hd Hdiv) as Hnum. fold T in Hnum.
  destruct Hf as [Hne _]. destruct (plist g); [done|cbn in Hnum; lia].
Qed.

(** Two servers of weight 10: the array has two entries, and max_init=15 is accepted. *)
Lemma pair_configured : configured [10; 10] (mk_group [10; 10]).
Proof.
  split_and!.
  - split; [done|]. intros [|[|i]] p Hp; [by injection Hp as <-|by injection Hp as <-|done].
  - repeat constructor.
  - intros [|[|i]] p Hp; [injection Hp as <-|injection Hp as <-|done]; by_evaluation.
Qed.

Lemma vnswrr_init_bounds_witness :
  clamped 15 (mk_group [10; 10]) = 15%nat
  /\ exists d, gcd_servers [10; 10] = Some d
    /\ (is_Some (init_group [10; 10] 15 (mk_group [10; 10])) <-> (15 <= Z.to_nat (20 / d))%nat).
Proof.
  split; [reflexivity|]. destruct (vnswrr_init_bounds [10; 10] 15 (mk_group [10; 10]) pair_configured eq_refl) as (d & H1 & _ & _ & H2).
  exists d. exact (conj H1 H2).
Defined.

Example vnswrr_overflow : init_group [10; 10] 15 (mk_group [10; 10]) = None.
Proof. vm_compute. reflexivity. Qed.

(** Weights 10, 2 and 2, in batches of three. *)
Lemma triple_configured : configured [10; 2; 2] (mk_group [10; 2; 2]).
Proof.
  split_and!.
  - split; [done|]. intros [|[|[|i]]] p Hp; try (by injection Hp as <-). done.
  - repeat constructor.
  - intros [|[|[|i]]] p Hp; [injection Hp as <-|injection Hp as <-|injection Hp as <-|done]; by_evaluation.
Qed.

Lemma triple_healthy : Forall (healthy (fun _ => false)) (plist (mk_group [10; 2; 2])).
Proof. repeat constructor; cbn; auto; right; lia. Qed.

Lemma vnswrr_fair_witness : exists g0 c0 g' c' b0 bs, init_group [10; 2; 2] 3 (mk_group [10; 2; 2]) = Some (g0, c0)
  /\ serve (fun _ => false) ((5, 2) :: replicate 7 (6, 0)) g0 c0 = Some (g', c', b0 :: bs)
  /\ forall i p, plist (mk_group [10; 2; 2]) !! i = Some p -> Z.of_nat (count_occ Nat.eq_dec bs i) = weight p / 2.
Proof.
  apply (vnswrr_fair (fun _ => false) [10; 2; 2] 3 (mk_group [10; 2; 2]) 5 2 (replicate 7 (6, 0)) 2 triple_configured eq_refl eq_refl triple_healthy);
    by_evaluation || reflexivity.
Defined.

Lemma vnswrr_selection_witness : exists g0 c0 g' c' tried' r,
  init_group [10; 2; 2] 3 (mk_group [10; 2; 2]) = Some (g0, c0)
  /\ ngx_http_upstream_get_vnswrr (fun _ => false) 0 1 g0 c0 [0] = Some (g', c', tried', r).
Proof.
  destruct (init_group_ok [10; 2; 2] 3 (mk_group [10; 2; 2]) 2 triple_configured eq_refl eq_refl) as (l' & c & E & _ & _ & Hw);
    [lia| |by_evaluation|by_evaluation|].
  { intros [|[|[|i]]] p Hp; [injection Hp as <-; by exists 5|injection Hp as <-; by exists 1|injection Hp as <-; by exists 1|done]. }
  destruct (vnswrr_selection (fun _ => false) 0 1 _ (set_plist l' (mk_group [10; 2; 2])) c _ [0] Hw) as (g' & c' & tried' & r & _ & H & _).
  - reflexivity.
  - vm_compute in E. injection E as <- <-. unfold tried_fits. by_evaluation.
  - vm_compute in E. injection E as <- <-. by_evaluation.
  - exists (set_plist l' (mk_group [10; 2; 2])), c, g', c', tried', r. exact (conj E H).
Defined.

End Vnswrr.
