(* ===== verification/Escape.v ===== *)
(** * Escaping: ngx_escape_uri, ngx_unescape_uri, ngx_escape_html and
    ngx_escape_json of src/core/ngx_string.c

    Each escaping function is used twice: with a NULL destination it counts, with a
    buffer it writes.  Both passes are modelled; the bytes written are a list.  The
    build has T_NGX_ESCAPE_WWW_FORM_ALI, which auto/modules always sets. *)

From S2P Require Import Prelude NgxNumber.

(** ** ngx_escape_uri *)

Definition NGX_ESCAPE_URI : nat := 0.
Definition NGX_ESCAPE_ARGS : nat := 1.
Definition NGX_ESCAPE_URI_COMPONENT : nat := 2.
Definition NGX_ESCAPE_HTML : nat := 3.
Definition NGX_ESCAPE_REFRESH : nat := 4.
Definition NGX_ESCAPE_MEMCACHED : nat := 5.
Definition NGX_ESCAPE_MAIL_AUTH : nat := 6.
Definition NGX_ESCAPE_MAIL_XTEXT : nat := 7.
Definition NGX_ESCAPE_WWW_FORM : nat := 8.

Abbreviation F := 0xffffffff (only parsing).
Definition uri_map : list Z := [F; 0xd000002d; 0x50000000; 0xb8000001; F; F; F; F].
Definition args_map : list Z := [F; 0xd800086d; 0x50000000; 0xb8000001; F; F; F; F].
Definition uri_component_map : list Z := [F; 0xfc009fff; 0x78000001; 0xb8000001; F; F; F; F].
Definition html_map : list Z := [F; 0x500000ad; 0x50000000; 0xb8000001; F; F; F; F].
Definition refresh_map : list Z := [F; 0x50000085; 0x50000000; 0xd8000001; F; F; F; F].
Definition memcached_map : list Z := [F; 0x00000021; 0; 0; 0; 0; 0; 0].
Definition mail_xtext_map : list Z := [F; 0x20000801; 0x00000000; 0x80000000; F; F; F; F].
Definition form_map : list Z := [F; 0xfc009ffe; 0x78000001; 0xf8000001; F; F; F; F].

(** The array [map]. *)
Definition escape_map (type : nat) : list Z :=
  nth type [uri_map; args_map; uri_component_map; html_map; refresh_map; memcached_map;
            memcached_map; mail_xtext_map; form_map] [].

(** The array [map_char]. *)
Definition escape_prefix (type : nat) : Z :=
  if (type =? 7)%nat then ch("+") else ch("%").

(** [escape[c >> 5] & (1U << (c & 0x1f))] *)
Definition must_escape (type : nat) (c : Z) : bool :=
  negb (Z.land (arr 0 (escape_map type) (Z.shiftr c 5)) (Z.shiftl 1 (Z.land c 0x1f)) =? 0).

(** [hex[]] *)
Definition hex_char (d : Z) : Z := arr 0 str("0123456789ABCDEF") d.

(** With [dst == NULL]: the number of characters to escape. *)
Fixpoint ngx_escape_uri_count (type : nat) (src : list Z) : Z :=
  match src with
  | [] => 0
  | c :: src' => (if must_escape type c then 1 else 0) + ngx_escape_uri_count type src'
  end.

Definition escape_byte (type : nat) (c : Z) : list Z :=
  if must_escape type c
  then [escape_prefix type; hex_char (Z.shiftr c 4); hex_char (Z.land c 0xf)]
  else if (type =? NGX_ESCAPE_WWW_FORM)%nat && (c =? ch(" ")) then [ch("+")]
  else [c].

Fixpoint ngx_escape_uri (type : nat) (src : list Z) : list Z :=
  match src with
  | [] => []
  | c :: src' => escape_byte type c ++ ngx_escape_uri type src'
  end.

(** ** ngx_unescape_uri *)

Definition NGX_UNESCAPE_URI : Z := 1.
Definition NGX_UNESCAPE_REDIRECT : Z := 2.
Definition NGX_UNESCAPE_WWW_FORM : Z := 4.

Definition has (type flags : Z) : bool := negb (Z.land type flags =? 0).

(** The states, with [decoded] and, in [sw_quoted_second], the byte [*(s - 2)]. *)
Inductive ue_state :=
| ue_usual
| ue_quoted
| ue_quoted_second (decoded first : Z).

(** One byte: the bytes appended to [d], and the next state or [goto done]. *)
Definition ue_usual_step (type c : Z) : list Z * option ue_state :=
  if (c =? ch("+")) && has type NGX_UNESCAPE_WWW_FORM then ([ch(" ")], Some ue_usual)
  else if (c =? ch("?")) && has type (Z.lor NGX_UNESCAPE_URI NGX_UNESCAPE_REDIRECT) then ([c], None)
  else if c =? ch("%") then ([], Some ue_quoted)
  else ([c], Some ue_usual).

Definition ue_quoted_step (c : Z) : list Z * option ue_state :=
  if (ch("0") <=? c) && (c <=? ch("9")) then ([], Some (ue_quoted_second (u8 (c - ch("0"))) c))
  else
    let l := u8 (Z.lor c 0x20) in
    if (ch("a") <=? l) && (l <=? ch("f")) then ([], Some (ue_quoted_second (u8 (l - ch("a") + 10)) c))
    else ([c], Some ue_usual).

Definition ue_second_step (type decoded first c : Z) : list Z * option ue_state :=
  if (ch("0") <=? c) && (c <=? ch("9")) then
    let x := u8 (Z.shiftl decoded 4 + (c - ch("0"))) in
    if has type NGX_UNESCAPE_REDIRECT then
      if (ch("%") <? x) && (x <? 0x7f) then ([x], Some ue_usual)
      else ([ch("%"); first; c], Some ue_usual)
    else ([x], Some ue_usual)
  else
    let l := u8 (Z.lor c 0x20) in
    if (ch("a") <=? l) && (l <=? ch("f")) then
      let x := u8 (Z.shiftl decoded 4 + (l - ch("a")) + 10) in
      if has type NGX_UNESCAPE_URI then
        if x =? ch("?") then ([x], None) else ([x], Some ue_usual)
      else if has type NGX_UNESCAPE_REDIRECT then
        if x =? ch("?") then ([x], None)
        else if (ch("%") <? x) && (x <? 0x7f) then ([x], Some ue_usual)
        else ([ch("%"); first; c], Some ue_usual)
      else ([x], Some ue_usual)
    else ([], Some ue_usual).

Definition ue_step (type : Z) (st : ue_state) (c : Z) : list Z * option ue_state :=
  match st with
  | ue_usual => ue_usual_step type c
  | ue_quoted => ue_quoted_step c
  | ue_quoted_second decoded first => ue_second_step type decoded first c
  end.

(** The loop: what is written, and what is left of the source. *)
Fixpoint ue_loop (type : Z) (st : ue_state) (src : list Z) : list Z * list Z :=
  match src with
  | [] => ([], [])
  | c :: src' =>
      match ue_step type st c with
      | (o, Some st') => let '(d, s) := ue_loop type st' src' in (o ++ d, s)
      | (o, None) => (o, src')
      end
  end.

Definition ngx_unescape_uri (type : Z) (src : list Z) : list Z * list Z :=
  ue_loop type ue_usual src.

(** ** ngx_escape_html *)

Definition html_extra (c : Z) : Z :=
  if c =? ch("<") then 3
  else if c =? ch(">") then 3
  else if c =? ch("&") then 4
  else if c =? 34 then 5
  else 0.

Fixpoint ngx_escape_html_len (src : list Z) : Z :=
  match src with
  | [] => 0
  | c :: src' => html_extra c + ngx_escape_html_len src'
  end.

Definition html_byte (c : Z) : list Z :=
  if c =? ch("<") then str("&lt;")
  else if c =? ch(">") then str("&gt;")
  else if c =? ch("&") then str("&amp;")
  else if c =? 34 then str("&quot;")
  else [c].

Fixpoint ngx_escape_html (src : list Z) : list Z :=
  match src with
  | [] => []
  | c :: src' => html_byte c ++ ngx_escape_html src'
  end.

(** ** ngx_escape_json *)

Definition json_short (c : Z) : option Z :=
  if c =? 10 then Some ch("n")
  else if c =? 13 then Some ch("r")
  else if c =? 9 then Some ch("t")
  else if c =? 8 then Some ch("b")
  else if c =? 12 then Some ch("f")
  else None.

Definition json_extra (c : Z) : Z :=
  if (c =? 92) || (c =? 34) then 1
  else if c <=? 0x1f then match json_short c with Some _ => 1 | None => 5 end
  else 0.

Fixpoint ngx_escape_json_len (src : list Z) : Z :=
  match src with
  | [] => 0
  | c :: src' => json_extra c + ngx_escape_json_len src'
  end.

Definition json_byte (c : Z) : list Z :=
  if 0x1f <? c then (if (c =? 92) || (c =? 34) then [92] else []) ++ [c]
  else 92 :: match json_short c with
             | Some e => [e]
             | None =>
                 let d := Z.land c 0xf in
                 [ch("u"); ch("0"); ch("0"); ch("0") + Z.shiftr c 4;
                  if d <? 10 then ch("0") + d else ch("A") + d - 10]
             end.

Fixpoint ngx_escape_json (src : list Z) : list Z :=
  match src with
  | [] => []
  | c :: src' => json_byte c ++ ngx_escape_json src'
  end.

Example escape_ex :
  ngx_escape_uri NGX_ESCAPE_ARGS str("a b&c%") = str("a%20b%26c%25")
  /\ ngx_unescape_uri 0 str("a%20b%2Zc%zd") = (str("a bczd"), [])
  /\ ngx_escape_json [34; 10; 1] = [92; 34; 92; 110] ++ [92] ++ str("u0001").
Proof. vm_compute. done. Qed.

(** ** URI escaping: sizes and round trip *)

#[global] Instance ue_state_eq_dec : EqDecision ue_state.
Proof. solve_decision. Defined.

Lemma escape_byte_length type c :
  Z.of_nat (length (escape_byte type c)) = 1 + 2 * (if must_escape type c then 1 else 0).
Proof. unfold escape_byte. repeat case_if; done. Qed.

Lemma escape_uri_length type src :
  Z.of_nat (length (ngx_escape_uri type src))
  = Z.of_nat (length src) + 2 * ngx_escape_uri_count type src.
Proof.
  induction src as [|c src IH]; [done|]. cbn [ngx_escape_uri ngx_escape_uri_count].
  rewrite length_app, Nat2Z.inj_add, IH, escape_byte_length. cbn [length]. lia.
Qed.

(** The loop on a prefix: what it writes and the state it ends in. *)
Fixpoint ue_run (type : Z) (st : ue_state) (src : list Z) : list Z * option ue_state :=
  match src with
  | [] => ([], Some st)
  | c :: src' =>
      match ue_step type st c with
      | (o, Some st') => let '(d, s) := ue_run type st' src' in (o ++ d, s)
      | (o, None) => (o, None)
      end
  end.

Lemma ue_loop_app type st src1 src2 o st' :
  ue_run type st src1 = (o, Some st') ->
  ue_loop type st (src1 ++ src2) = let '(d, s) := ue_loop type st' src2 in (o ++ d, s).
Proof.
  revert st o. induction src1 as [|c src1 IH]; intros st o H; cbn in *.
  - simplify_eq. by destruct (ue_loop type st' src2).
  - destruct (ue_step type st c) as [o1 [st1|]]; [|done].
    destruct (ue_run type st1 src1) as [o2 s2] eqn:E. simplify_eq.
    rewrite (IH st1 o2 E). destruct (ue_loop type st' src2). by rewrite app_assoc.
Qed.

(** The escape types that escape "%", each with the way to undo it. *)
Definition reversible : list (nat * Z) :=
  [(NGX_ESCAPE_URI, 0); (NGX_ESCAPE_ARGS, 0); (NGX_ESCAPE_URI_COMPONENT, 0); (NGX_ESCAPE_HTML, 0);
   (NGX_ESCAPE_MEMCACHED, 0); (NGX_ESCAPE_MAIL_AUTH, 0); (NGX_ESCAPE_WWW_FORM, NGX_UNESCAPE_WWW_FORM)].

Lemma escape_byte_reversible t ut c :
  (t, ut) ∈ reversible -> is_byte c -> ue_run ut ue_usual (escape_byte t c) = ([c], Some ue_usual).
Proof.
  intros Ht Hc.
  enough (Hall : all_below 256 (fun c => forallb (fun '(t, ut) =>
    bool_decide (ue_run ut ue_usual (escape_byte t c) = ([c], Some ue_usual))) reversible) = true).
  - pose proof (all_bytes_spec _ Hall c Hc) as H. cbv beta in H. rewrite forallb_forall in H.
    specialize (H (t, ut) (proj1 (list_elem_of_In _ _) Ht)). by apply bool_decide_eq_true in H.
  - vm_compute. reflexivity.
Qed.

(** URI escaping is reversible: for every escape type that escapes "%" (URI, ARGS,
    URI_COMPONENT, HTML, MEMCACHED, MAIL_AUTH and WWW_FORM), ngx_unescape_uri in the
    matching mode recovers every byte string from its escaped form and consumes all
    of it; and the buffer the callers allocate, the length of the source plus twice
    the count of the first pass, is filled exactly. *)
Theorem escape_uri_roundtrip (t : nat) (ut : Z) (src : list Z)
    (Ht : (t, ut) ∈ reversible) (Hb : bytes_ok src) :
  ngx_unescape_uri ut (ngx_escape_uri t src) = (src, [])
  /\ Z.of_nat (length (ngx_escape_uri t src)) = Z.of_nat (length src) + 2 * ngx_escape_uri_count t src.
Proof.
  split; [|apply escape_uri_length]. unfold ngx_unescape_uri.
  induction Hb as [|c src Hc Hb IH]; [done|]. cbn [ngx_escape_uri].
  rewrite (ue_loop_app _ _ _ _ [c] ue_usual) by (by apply escape_byte_reversible). by rewrite IH.
Qed.

Lemma escape_uri_roundtrip_witness :
  ngx_unescape_uri 4 (ngx_escape_uri 8 str("a b+c%")) = (str("a b+c%"), []).
Proof.
  apply (escape_uri_roundtrip 8 4 str("a b+c%")).
  - unfold reversible. repeat (apply elem_of_cons; (left; reflexivity) || right).
  - by_evaluation.
Defined.

(** What RFC 3986 never allows unescaped, as the comment of ngx_escape_uri lists it. *)
Definition uri_forbidden (c : Z) : bool :=
  (c <=? 0x20) || (0x7f <=? c) || (c =? 34) || (c =? ch("<")) || (c =? ch(">")) || (c =? 92)
  || (c =? ch("^")) || (c =? ch("`")) || (c =? ch("{")) || (c =? ch("|")) || (c =? ch("}")).

(** What each type escapes besides, as the comment of its table says. *)
Definition also_escaped (type : nat) : list Z :=
  match type with
  | 0%nat => str("#%?")
  | 1%nat => str("#%&+;?")
  | 3%nat => str("#%'")
  | _ => []
  end.

Definition unreserved (c : Z) : bool :=
  ((ch("A") <=? c) && (c <=? ch("Z"))) || ((ch("a") <=? c) && (c <=? ch("z")))
  || ((ch("0") <=? c) && (c <=? ch("9")))
  || (c =? ch("-")) || (c =? ch(".")) || (c =? ch("_")) || (c =? ch("~")).

(** The escape tables say what their comments say: URI, ARGS and HTML escape
    exactly the characters that RFC 3986 forbids and the delimiters listed for them,
    and URI_COMPONENT everything but the unreserved characters.  REFRESH does not:
    it lets "}" through and escapes "~", against its comment. *)
Theorem escape_tables (c : Z) (Hc : is_byte c) :
  (forall t, t ∈ [NGX_ESCAPE_URI; NGX_ESCAPE_ARGS; NGX_ESCAPE_HTML] ->
     must_escape t c = uri_forbidden c || bool_decide (c ∈ also_escaped t))
  /\ must_escape NGX_ESCAPE_URI_COMPONENT c = negb (unreserved c)
  /\ must_escape NGX_ESCAPE_REFRESH c
     = if c =? ch("}") then false else if c =? ch("~") then true
       else uri_forbidden c || (c =? ch("'")).
Proof.
  assert (Hall : all_below 256 (fun c =>
    forallb (fun t => Bool.eqb (must_escape t c) (uri_forbidden c || bool_decide (c ∈ also_escaped t)))
      [NGX_ESCAPE_URI; NGX_ESCAPE_ARGS; NGX_ESCAPE_HTML]
    && Bool.eqb (must_escape NGX_ESCAPE_URI_COMPONENT c) (negb (unreserved c))
    && Bool.eqb (must_escape NGX_ESCAPE_REFRESH c)
         (if c =? ch("}") then false else if c =? ch("~") then true
          else uri_forbidden c || (c =? ch("'")))) = true) by (vm_compute; reflexivity).
  pose proof (all_bytes_spec _ Hall c Hc) as H. cbv beta in H.
  apply andb_prop in H as [H H3]. apply andb_prop in H as [H1 H2].
  rewrite forallb_forall in H1. split_and!; [|by apply eqb_prop|by apply eqb_prop].
  intros t Ht. apply eqb_prop, H1. by apply list_elem_of_In.
Qed.

Lemma escape_tables_witness :
  must_escape NGX_ESCAPE_REFRESH ch("}") = false /\ must_escape NGX_ESCAPE_URI ch("}") = true.
Proof.
  destruct (escape_tables ch("}") ltac:(unfold is_byte; lia)) as (H1 & _ & H3). split; [exact H3|].
  rewrite H1; [reflexivity|]. by left.
Defined.

(** ** HTML escaping *)

(** The reader: the four entities, and no other use of the special characters. *)
Fixpoint html_unescape (fuel : nat) (l : list Z) : option (list Z) :=
  match fuel with
  | O => None
  | S fuel' =>
      match l with
      | [] => Some []
      | 38 :: 108 :: 116 :: 59 :: l' => r ← html_unescape fuel' l'; Some (ch("<") :: r)
      | 38 :: 103 :: 116 :: 59 :: l' => r ← html_unescape fuel' l'; Some (ch(">") :: r)
      | 38 :: 97 :: 109 :: 112 :: 59 :: l' => r ← html_unescape fuel' l'; Some (ch("&") :: r)
      | 38 :: 113 :: 117 :: 111 :: 116 :: 59 :: l' => r ← html_unescape fuel' l'; Some (34 :: r)
      | c :: l' =>
          if (c =? ch("<")) || (c =? ch(">")) || (c =? ch("&")) || (c =? 34) then None
          else r ← html_unescape fuel' l'; Some (c :: r)
      end
  end.

Lemma html_unescape_other fuel c l :
  (c =? ch("<")) || (c =? ch(">")) || (c =? ch("&")) || (c =? 34) = false ->
  html_unescape (S fuel) (c :: l) = r ← html_unescape fuel l; Some (c :: r).
Proof.
  intros H. cbn [html_unescape]. rewrite H.
  apply orb_false_elim in H as [H H3]. apply orb_false_elim in H as [H H2]. zbool.
  destruct (decide (c = 38)) as [->|Hne]; [lia|].
  destruct c as [|p|p]; try done. repeat (destruct p as [p|p|]; try done).
Qed.

(** HTML escaping is safe and reversible: a reader that knows the four
    entities and accepts none of the characters <, >, & and the double quote by
    themselves recovers every string from its escaped form; and the first pass
    computes exactly the extra space the second needs. *)
Theorem escape_html_correct (src : list Z) :
  html_unescape (S (length src)) (ngx_escape_html src) = Some src
  /\ Z.of_nat (length (ngx_escape_html src)) = Z.of_nat (length src) + ngx_escape_html_len src.
Proof.
  induction src as [|c src [IH1 IH2]]; [done|]. cbn [ngx_escape_html ngx_escape_html_len length].
  unfold html_byte, html_extra.
  destruct (Z.eqb_spec c 60) as [->|]; [|destruct (Z.eqb_spec c 62) as [->|];
    [|destruct (Z.eqb_spec c 38) as [->|]; [|destruct (Z.eqb_spec c 34) as [->|]]]].
  5:{ split.
      - cbn [app]. rewrite html_unescape_other by (rewrite !(proj2 (Z.eqb_neq _ _)); done).
        by rewrite IH1.
      - cbn [length app]. lia. }
  all: split; [cbn [app]; set (k := S (length src)) in *; cbn [html_unescape]; by rewrite IH1
              |cbn [app length]; lia].
Qed.

(** ** JSON escaping *)

(** The reader of the body of a JSON string: escapes of one byte, no raw control
    characters and no raw double quote. *)
Definition json_unshort (e : Z) : option Z :=
  if e =? ch("n") then Some 10 else if e =? ch("r") then Some 13 else if e =? ch("t") then Some 9
  else if e =? ch("b") then Some 8 else if e =? ch("f") then Some 12
  else if (e =? 92) || (e =? 34) || (e =? ch("/")) then Some e else None.

Fixpoint json_unescape (fuel : nat) (l : list Z) : option (list Z) :=
  match fuel with
  | O => None
  | S fuel' =>
      match l with
      | [] => Some []
      | c :: l' =>
          if (c <=? 0x1f) || (c =? 34) then None
          else if c =? 92 then
            match l' with
            | [] => None
            | e :: l2 =>
                if e =? ch("u") then
                  match l2 with
                  | h1 :: h2 :: h3 :: h4 :: l3 =>
                      d1 ← hex_digit h1; d2 ← hex_digit h2; d3 ← hex_digit h3; d4 ← hex_digit h4;
                      r ← json_unescape fuel' l3; Some (((d1 * 16 + d2) * 16 + d3) * 16 + d4 :: r)
                  | _ => None
                  end
                else x ← json_unshort e; r ← json_unescape fuel' l2; Some (x :: r)
            end
          else r ← json_unescape fuel' l'; Some (c :: r)
      end
  end.

Lemma json_byte_unescape fuel c l :
  is_byte c ->
  json_unescape (S fuel) (json_byte c ++ l) = r ← json_unescape fuel l; Some (c :: r).
Proof.
  intros Hc. destruct (Z.leb_spec c 0x1f) as [Hle|Hgt].
  - assert (Hin : c ∈ seqZ 0 32) by (apply elem_of_seqZ; unfold is_byte in Hc; lia).
    clear Hle Hc. revert Hin.
    let v := eval vm_compute in (seqZ 0 32) in change (seqZ 0 32) with v.
    rewrite !elem_of_cons, elem_of_nil. intros Hin.
    repeat destruct Hin as [-> | Hin]; done.
  - unfold json_byte. rewrite (proj2 (Z.ltb_lt _ _) Hgt).
    destruct ((c =? 92) || (c =? 34)) eqn:E.
    + apply orb_prop in E as [E|E]; apply Z.eqb_eq in E as ->; done.
    + cbn [app json_unescape]. apply orb_false_elim in E as [E1 E2].
      rewrite (proj2 (Z.leb_gt _ _) Hgt), E1, E2. done.
Qed.

(** JSON escaping is safe and reversible: a reader of JSON string bodies, which
    rejects raw control characters and raw double quotes, recovers every byte string
    from its escaped form; and the first pass computes exactly the extra space. *)
Theorem escape_json_correct (src : list Z) (Hb : bytes_ok src) :
  json_unescape (S (length src)) (ngx_escape_json src) = Some src
  /\ Z.of_nat (length (ngx_escape_json src)) = Z.of_nat (length src) + ngx_escape_json_len src.
Proof.
  induction Hb as [|c src Hc Hb [IH1 IH2]]; [done|]. cbn [ngx_escape_json ngx_escape_json_len length]. split.
  - rewrite json_byte_unescape by done. by rewrite IH1.
  - rewrite length_app, Nat2Z.inj_add, IH2.
    enough (Z.of_nat (length (json_byte c)) = 1 + json_extra c) by lia.
    unfold json_byte, json_extra. unfold is_byte in Hc.
    destruct (Z.ltb_spec 31 c), (Z.leb_spec c 31); try lia; [by case_if|].
    rewrite (proj2 (Z.eqb_neq c 92)), (proj2 (Z.eqb_neq c 34)) by lia. cbn. by destruct (json_short c).
Qed.

Lemma escape_json_correct_witness :
  json_unescape 5 (ngx_escape_json [34; 92; 10; 1]) = Some [34; 92; 10; 1].
Proof.
  apply (escape_json_correct [34; 92; 10; 1]). by_evaluation.
Defined.
