(* ===== verification/Utf8.v ===== *)
(** * UTF-8: ngx_utf8_decode, ngx_utf8_length and ngx_utf8_cpystrn of
    src/core/ngx_string.c

    A [u_char **p] is the list of the bytes from [*p] on, returned as what is left.
    [size_t] subtractions wrap, as in [n - 1 < len]. *)

From S2P Require Import Prelude.

(** ** The decoder *)

(** [while (len) { ... }]: [None] is the return of 0xffffffff inside the loop, with
    the position after the bad byte; running out of bytes does not occur after the
    length check and gives the error as well. *)
Fixpoint utf8_cont (len : nat) (u : Z) (p : list Z) : (Z * list Z) + list Z :=
  match len with
  | O => inl (u, p)
  | S len' =>
      match p with
      | [] => inr []
      | i :: p' =>
          if i <? 0x80 then inr p'
          else utf8_cont len' (Z.lor (u32 (Z.shiftl u 6)) (Z.land i 0x3f)) p'
      end
  end.

Definition utf8_error : Z := 0xffffffff.
Definition utf8_incomplete : Z := 0xfffffffe.

(** The lead byte: the bits of [u], [valid] and [len]; [None] is an error. *)
Definition utf8_lead (u : Z) : option (Z * Z * nat) :=
  if 0xf8 <=? u then None
  else if 0xf0 <=? u then Some (Z.land u 0x07, 0xffff, 3%nat)
  else if 0xe0 <=? u then Some (Z.land u 0x0f, 0x7ff, 2%nat)
  else if 0xc2 <=? u then Some (Z.land u 0x1f, 0x7f, 1%nat)
  else None.

Definition ngx_utf8_decode (p : list Z) (n : Z) : Z * list Z :=
  match p with
  | [] => (utf8_error, [])
  | c :: p' =>
      match utf8_lead c with
      | None => (utf8_error, p')
      | Some (u, valid, len) =>
          if u64 (n - 1) <? Z.of_nat len then (utf8_incomplete, p)
          else match utf8_cont len u p' with
               | inr p'' => (utf8_error, p'')
               | inl (u, p'') => if valid <? u then (u, p'') else (utf8_error, p'')
               end
      end
  end.

(** ** Length and copy *)

(** [for (len = 0; p < last; len++)]; [None] is "invalid UTF-8". *)
Fixpoint utf8_length_loop (fuel : nat) (len : Z) (p : list Z) : option (option Z) :=
  match fuel with
  | O => None
  | S fuel' =>
      match p with
      | [] => Some (Some len)
      | c :: p' =>
          if c <? 0x80 then utf8_length_loop fuel' (len + 1) p'
          else
            let '(u, p'') := ngx_utf8_decode p (Z.of_nat (length p)) in
            if 0x10ffff <? u then Some None
            else utf8_length_loop fuel' (len + 1) p''
      end
  end.

Definition ngx_utf8_length (p : list Z) : option Z :=
  r ← utf8_length_loop (S (length p)) 0 p;
  Some (default (Z.of_nat (length p)) r).

(** The loop of ngx_utf8_cpystrn after [n == 0] was excluded: [n] turns are left
    after [--n], [src] is the memory at the source.  The result is what precedes the
    final NUL in the destination; [None] is a read outside the memory. *)
Fixpoint utf8_copy_loop (n : nat) (src : list Z) (len : Z) : option (list Z) :=
  match n with
  | O => Some []
  | S n' =>
      match src with
      | [] => None
      | c :: src' =>
          if c <? 0x80 then
            if negb (c =? 0) then r ← utf8_copy_loop n' src' (u64 (len - 1)); Some (c :: r)
            else Some []
          else
            let '(u, next) := ngx_utf8_decode src len in
            if 0x10ffff <? u then Some []
            else
              let k := (length src - length next)%nat in
              r ← utf8_copy_loop n' next (u64 (len - Z.of_nat k)); Some (take k src ++ r)
      end
  end.

(** The bytes written at [dst], NUL included. *)
Definition ngx_utf8_cpystrn (src : list Z) (n : nat) (len : Z) : option (list Z) :=
  match n with
  | O => Some []
  | S n' => r ← utf8_copy_loop n' src len; Some (r ++ [0])
  end.

(** ** Specification: the encoding of a code point *)

Definition utf8_encode (cp : Z) : list Z :=
  if cp <? 0x80 then [cp]
  else if cp <? 0x800 then [0xc0 + cp / 64; 0x80 + cp mod 64]
  else if cp <? 0x10000 then [0xe0 + cp / 4096; 0x80 + cp / 64 mod 64; 0x80 + cp mod 64]
  else [0xf0 + cp / 262144; 0x80 + cp / 4096 mod 64; 0x80 + cp / 64 mod 64; 0x80 + cp mod 64].

Definition code_point (cp : Z) : Prop := 0 <= cp <= 0x10ffff.

Lemma utf8_cont_step u i :
  0 <= u < 2 ^ 26 -> is_byte i ->
  Z.lor (u32 (Z.shiftl u 6)) (Z.land i 0x3f) = u * 64 + i mod 64.
Proof.
  intros Hu Hi. rewrite (Z.shiftl_mul_pow2 u 6) by lia. rewrite wrap_small by (unfold in_u; lia).
  rewrite <- Z.shiftl_mul_pow2 by lia. change 0x3f with (2 ^ 6 - 1). rewrite land_mask by lia.
  rewrite lor_shiftl_add; [done|lia|by apply Z.mod_pos_bound].
Qed.

Lemma utf8_cont_S len u i p :
  0 <= u < 2 ^ 26 -> 0x80 <= i < 256 ->
  utf8_cont (S len) u (i :: p) = utf8_cont len (u * 64 + i mod 64) p.
Proof.
  intros Hu Hi. cbn [utf8_cont]. rewrite (proj2 (Z.ltb_ge _ _)) by lia.
  by rewrite utf8_cont_step by (unfold is_byte; lia).
Qed.

Lemma utf8_lead_spec u :
  is_byte u ->
  utf8_lead u
  = if 0xf8 <=? u then None
    else if 0xf0 <=? u then Some (u - 0xf0, 0xffff, 3%nat)
    else if 0xe0 <=? u then Some (u - 0xe0, 0x7ff, 2%nat)
    else if 0xc2 <=? u then Some (u - 0xc0, 0x7f, 1%nat)
    else None.
Proof.
  intros H. unfold utf8_lead. unfold is_byte in H. bits_to_arith.
  repeat case_if; zbool; repeat f_equal; zlia.
Qed.

Lemma utf8_decode_valid cp n rest :
  0x80 <= cp <= 0x10ffff -> Z.of_nat (length (utf8_encode cp)) <= n < 2 ^ 64 ->
  ngx_utf8_decode (utf8_encode cp ++ rest) n = (cp, rest).
Proof.
  intros Hcp Hn. unfold utf8_encode in *. rewrite (proj2 (Z.ltb_ge cp 0x80)) in * by lia.
  destruct (Z.ltb_spec cp 0x800); [|destruct (Z.ltb_spec cp 0x10000)]; cbn [app length ngx_utf8_decode] in *.
  all: rewrite utf8_lead_spec by (unfold is_byte; zlia).
  - rewrite (proj2 (Z.leb_gt _ _)), (proj2 (Z.leb_gt _ _)), (proj2 (Z.leb_gt _ _)), (proj2 (Z.leb_le _ _)) by zlia.
    rewrite wrap_small by (unfold in_u; lia). rewrite (proj2 (Z.ltb_ge _ _)) by lia.
    rewrite !utf8_cont_S by zlia. cbn [utf8_cont].
    rewrite (proj2 (Z.ltb_lt _ _)) by zlia. f_equal. zlia.
  - rewrite (proj2 (Z.leb_gt _ _)), (proj2 (Z.leb_gt _ _)), (proj2 (Z.leb_le _ _)) by zlia.
    rewrite wrap_small by (unfold in_u; lia). rewrite (proj2 (Z.ltb_ge _ _)) by lia.
    rewrite !utf8_cont_S by zlia. cbn [utf8_cont].
    rewrite (proj2 (Z.ltb_lt _ _)) by zlia. f_equal. zlia.
  - rewrite (proj2 (Z.leb_gt _ _)), (proj2 (Z.leb_le _ _)) by zlia.
    rewrite wrap_small by (unfold in_u; lia). rewrite (proj2 (Z.ltb_ge _ _)) by lia.
    rewrite !utf8_cont_S by zlia. cbn [utf8_cont].
    rewrite (proj2 (Z.ltb_lt _ _)) by zlia. f_equal. zlia.
Qed.

(** What the continuation loop returns. *)
Lemma utf8_cont_inv len u p v rest :
  bytes_ok p -> 0 <= u -> u * 64 ^ Z.of_nat len + 64 ^ Z.of_nat len <= 2 ^ 32 ->
  utf8_cont len u p = inl (v, rest) ->
  exists pre, p = pre ++ rest /\ length pre = len
    /\ u * 64 ^ Z.of_nat len <= v < u * 64 ^ Z.of_nat len + 64 ^ Z.of_nat len.
Proof.
  revert u p. induction len as [|len IH]; intros u p Hb Hu Hmax H.
  - cbn in H. simplify_eq. exists []. split_and!; try done; cbn; lia.
  - destruct p as [|i p]; [done|]. apply Forall_cons_1 in Hb as [Hi Hb].
    destruct (Z.ltb_spec i 0x80) as [|Hge]; [cbn in H; by rewrite (proj2 (Z.ltb_lt _ _)) in H|].
    rewrite Nat2Z.inj_succ, Z.pow_succ_r in * by lia.
    pose proof (Z.pow_pos_nonneg 64 (Z.of_nat len)) as Hpow.
    rewrite utf8_cont_S in H; [|nia|unfold is_byte in Hi; lia].
    pose proof (Z.mod_pos_bound i 64).
    apply IH in H as (pre & -> & Hl & Hv); [|done|lia|nia].
    exists (i :: pre). split_and!; [done|cbn; lia|nia|nia].
Qed.

(** ngx_utf8_decode inverts the UTF-8 encoding and accepts no overlong form: it
    decodes every code point from 0x80 to 0x10ffff from its encoding, whatever
    follows; and whenever it returns a value up to 0x10ffff, the value is at least
    0x80 and the bytes consumed are as many as the encoding of that value has, all of
    them within the [n] bytes given. *)
Theorem utf8_decode_correct :
  (forall cp n rest, 0x80 <= cp <= 0x10ffff -> Z.of_nat (length (utf8_encode cp)) <= n < 2 ^ 64 ->
     ngx_utf8_decode (utf8_encode cp ++ rest) n = (cp, rest))
  /\ (forall p n v rest, bytes_ok p -> 0 < n <= Z.of_nat (length p) -> n < 2 ^ 64 ->
     ngx_utf8_decode p n = (v, rest) -> v <= 0x10ffff ->
     0x80 <= v /\ exists pre, p = pre ++ rest /\ length pre = length (utf8_encode v)
       /\ Z.of_nat (length pre) <= n).
Proof.
  split; [exact utf8_decode_valid|].
  intros [|c p] n v rest Hb Hn Hn64 H Hv; [cbn in Hn; lia|].
  apply Forall_cons_1 in Hb as [Hc Hb]. cbn [ngx_utf8_decode] in H.
  assert (Herr : utf8_error <= 0x10ffff -> False) by done.
  assert (Hinc : utf8_incomplete <= 0x10ffff -> False) by done.
  rewrite utf8_lead_spec in H by done. rewrite wrap_small in H by (unfold in_u; lia).
  unfold is_byte in Hc.
  assert (Hcase : forall u valid (len : nat), 0 <= u ->
    u * 64 ^ Z.of_nat len + 64 ^ Z.of_nat len <= 2 ^ 32 ->
    (if n - 1 <? Z.of_nat len then (utf8_incomplete, c :: p)
     else match utf8_cont len u p with
          | inr p'' => (utf8_error, p'')
          | inl (u, p'') => if valid <? u then (u, p'') else (utf8_error, p'') end) = (v, rest) ->
    valid < v /\ v < u * 64 ^ Z.of_nat len + 64 ^ Z.of_nat len
    /\ exists pre, c :: p = pre ++ rest /\ length pre = S len /\ Z.of_nat (length pre) <= n).
  { intros u valid len Hu Hmax E. destruct (Z.ltb_spec (n - 1) (Z.of_nat len)); [simplify_eq; tauto|].
    destruct (utf8_cont len u p) as [[u' p'']|p''] eqn:Ec; [|simplify_eq; tauto].
    destruct (Z.ltb_spec valid u'); [|simplify_eq; tauto]. simplify_eq.
    apply utf8_cont_inv in Ec as (pre & -> & Hl & Hv'); [|done..].
    split_and!; [done|lia|]. exists (c :: pre). cbn [length app]. split_and!; [done|lia|lia]. }
  unfold utf8_encode.
  destruct (0xf8 <=? c) eqn:E1; [simplify_eq; tauto|].
  destruct (0xf0 <=? c) eqn:E2; [|destruct (0xe0 <=? c) eqn:E3;
    [|destruct (0xc2 <=? c) eqn:E4; [|simplify_eq; tauto]]]; zbool;
    apply Hcase in H as (H1 & H2 & pre & H3 & H4 & H5); try (cbn; lia);
    (split; [lia|]); exists pre; split_and!; try done; rewrite H4; cbn in H2;
    repeat case_if; zbool; cbn; lia.
Qed.

(** A byte from 0xc0 up is taken for a continuation byte: a two-byte lead followed
    by any byte from 0x80 to 0xff decodes like the byte with its upper bits replaced
    by 10, so text that is not UTF-8 passes as valid. *)
Theorem utf8_decode_lax (c i : Z) (rest : list Z) (Hc : 0xc2 <= c < 0xe0) (Hi : 0xc0 <= i < 256) :
  ngx_utf8_decode (c :: i :: rest) 2 = ngx_utf8_decode (c :: 0x80 + i mod 64 :: rest) 2
  /\ fst (ngx_utf8_decode (c :: i :: rest) 2) <= 0x10ffff.
Proof.
  cbn [ngx_utf8_decode]. rewrite utf8_lead_spec by (unfold is_byte; lia).
  rewrite (proj2 (Z.leb_gt _ _)), (proj2 (Z.leb_gt _ _)), (proj2 (Z.leb_gt _ _)), (proj2 (Z.leb_le _ _)) by lia.
  change (u64 (2 - 1) <? Z.of_nat 1) with false. cbv iota.
  rewrite !utf8_cont_S by zlia. cbn [utf8_cont].
  rewrite (proj2 (Z.ltb_lt _ _)) by zlia. rewrite (proj2 (Z.ltb_lt _ _)) by zlia.
  split; [f_equal; zlia|cbn [fst]; zlia].
Qed.

Lemma utf8_decode_lax_witness : ngx_utf8_decode [0xc3; 0xff] 2 = ngx_utf8_decode [0xc3; 0xbf] 2.
Proof. apply (utf8_decode_lax 0xc3 0xff []); lia. Defined.

(** ** Text *)

Definition utf8_text (cps : list Z) : list Z := concat (map utf8_encode cps).

Lemma utf8_encode_nonempty cp : (0 < length (utf8_encode cp) <= 4)%nat.
Proof. unfold utf8_encode. repeat case_if; cbn; lia. Qed.

(** The lead byte of a code point above ASCII. *)
Lemma utf8_encode_head cp :
  0x80 <= cp <= 0x10ffff -> exists c l, utf8_encode cp = c :: l /\ 0x80 <= c.
Proof.
  intros H. unfold utf8_encode. rewrite (proj2 (Z.ltb_ge _ _)) by lia.
  repeat case_if; eexists _, _; (split; [done|]); zlia.
Qed.

Lemma utf8_length_text fuel cps len :
  Forall code_point cps -> Z.of_nat (length (utf8_text cps)) < 2 ^ 64 ->
  (length (utf8_text cps) < fuel)%nat ->
  utf8_length_loop fuel len (utf8_text cps) = Some (Some (len + Z.of_nat (length cps))).
Proof.
  revert fuel len. induction cps as [|cp cps IH]; intros fuel len Hcp Hl Hf;
    (destruct fuel as [|fuel]; [lia|]).
  - cbn. by rewrite Z.add_0_r.
  - apply Forall_cons_1 in Hcp as [[Hc1 Hc2] Hcp].
    assert (Ht : utf8_text (cp :: cps) = utf8_encode cp ++ utf8_text cps) by done.
    rewrite Ht in *. rewrite length_app in Hl, Hf. pose proof (utf8_encode_nonempty cp).
    replace (len + Z.of_nat (length (cp :: cps))) with (len + 1 + Z.of_nat (length cps)) by (cbn; lia).
    destruct (Z.ltb_spec cp 0x80) as [Hlt|Hge].
    + assert (utf8_encode cp = [cp]) as E by (unfold utf8_encode; by rewrite (proj2 (Z.ltb_lt _ _))).
      rewrite E in *. cbn [app utf8_length_loop]. rewrite (proj2 (Z.ltb_lt _ _)) by done.
      apply IH; [done|lia|cbn in Hf; lia].
    + destruct (utf8_encode_head cp) as (c & l & E & Hc); [lia|].
      pose proof (utf8_decode_valid cp (Z.of_nat (length (utf8_encode cp ++ utf8_text cps)))
        (utf8_text cps) ltac:(lia) ltac:(rewrite length_app; lia)) as Hd.
      rewrite E in *. cbn [app utf8_length_loop] in *. rewrite (proj2 (Z.ltb_ge _ _)) by lia.
      rewrite Hd. rewrite (proj2 (Z.ltb_ge _ _)) by lia.
      apply IH; [done|lia|cbn in Hf; lia].
Qed.

Lemma utf8_copy_text n cps rest len :
  Forall (fun cp => 0 < cp <= 0x10ffff) cps -> Z.of_nat (length (utf8_text cps)) <= len < 2 ^ 64 ->
  utf8_copy_loop n (utf8_text cps ++ 0 :: rest) len = Some (utf8_text (take n cps)).
Proof.
  revert n len. induction cps as [|cp cps IH]; intros n len Hcp Hl;
    (destruct n as [|n]; [done|]); [done|].
  apply Forall_cons_1 in Hcp as [Hc Hcp].
  assert (Ht : forall l, utf8_text (cp :: l) = utf8_encode cp ++ utf8_text l) by done.
  cbn [take]. rewrite !Ht in *. rewrite length_app in Hl. pose proof (utf8_encode_nonempty cp).
  rewrite <- app_assoc.
  destruct (Z.ltb_spec cp 0x80) as [Hlt|Hge].
  - assert (utf8_encode cp = [cp]) as E by (unfold utf8_encode; by rewrite (proj2 (Z.ltb_lt _ _))).
    rewrite E in *. cbn [app utf8_copy_loop length] in *. rewrite (proj2 (Z.ltb_lt _ _)) by done.
    rewrite (proj2 (Z.eqb_neq cp 0)) by lia. cbn [negb]. rewrite wrap_small by (unfold in_u; lia).
    rewrite IH by (done || lia). done.
  - destruct (utf8_encode_head cp) as (c & l & E & Hh); [lia|].
    pose proof (utf8_decode_valid cp len (utf8_text cps ++ 0 :: rest) ltac:(lia) ltac:(lia)) as Hd.
    rewrite E in *. cbn [app utf8_copy_loop] in *. rewrite (proj2 (Z.ltb_ge _ _)) by lia.
    rewrite Hd. rewrite (proj2 (Z.ltb_ge _ _)) by lia.
    replace (length (c :: l ++ utf8_text cps ++ 0%Z :: rest) - length (utf8_text cps ++ 0%Z :: rest))%nat
      with (length (c :: l)) by (cbn [length]; rewrite length_app; lia).
    rewrite wrap_small by (unfold in_u; lia). rewrite IH by (done || lia).
    cbn [mbind option_bind]. change (c :: l ++ utf8_text cps ++ 0 :: rest)
      with ((c :: l) ++ utf8_text cps ++ 0 :: rest). by rewrite take_app_length.
Qed.

(** Counting and copying work by characters: for text made of code points,
    ngx_utf8_length returns their number, and ngx_utf8_cpystrn, given NUL-terminated
    text without NUL and its length, copies the first n - 1 characters whole and
    terminates the copy. *)
Theorem utf8_text_functions (cps rest : list Z) (n : nat) (len : Z)
    (Hcp : Forall (fun cp => 0 < cp <= 0x10ffff) cps)
    (Hlen : Z.of_nat (length (utf8_text cps)) <= len < 2 ^ 64) :
  ngx_utf8_length (utf8_text cps) = Some (Z.of_nat (length cps))
  /\ ngx_utf8_cpystrn (utf8_text cps ++ 0 :: rest) (S n) len = Some (utf8_text (take n cps) ++ [0]).
Proof.
  split.
  - unfold ngx_utf8_length. rewrite utf8_length_text; [done| |lia|lia].
    eapply Forall_impl; [|exact Hcp]. unfold code_point. intros; lia.
  - cbn [ngx_utf8_cpystrn]. by rewrite utf8_copy_text.
Qed.

Lemma utf8_text_functions_witness :
  ngx_utf8_length [0x61; 0xc3; 0xa9; 0xe2; 0x82; 0xac] = Some 3
  /\ ngx_utf8_cpystrn [0x61; 0xc3; 0xa9; 0xe2; 0x82; 0xac; 0; 0x7a] 3 6 = Some [0x61; 0xc3; 0xa9; 0].
Proof.
  apply (utf8_text_functions [0x61; 0xe9; 0x20ac] [0x7a] 2 6).
  - repeat constructor; lia.
  - vm_compute. split; [discriminate|reflexivity].
Defined.
