(* ===== verification/Crc32.v ===== *)
(** * CRC32 and CRC32c: src/core/ngx_crc32.c and src/core/ngx_crc32.h

    The tables and the four routines that use them.  The reference is the shift
    register: one bit at a time, with the reflected generator polynomial. *)

From S2P Require Import Prelude.

Definition ngx_crc32_table16 : list Z :=
  [ 0x00000000; 0x1db71064; 0x3b6e20c8; 0x26d930ac; 0x76dc4190; 0x6b6b51f4;
    0x4db26158; 0x5005713c; 0xedb88320; 0xf00f9344; 0xd6d6a3e8; 0xcb61b38c;
    0x9b64c2b0; 0x86d3d2d4; 0xa00ae278; 0xbdbdf21c ].

Definition ngx_crc32_table256 : list Z :=
  [ 0x00000000; 0x77073096; 0xee0e612c; 0x990951ba; 0x076dc419; 0x706af48f;
    0xe963a535; 0x9e6495a3; 0x0edb8832; 0x79dcb8a4; 0xe0d5e91e; 0x97d2d988;
    0x09b64c2b; 0x7eb17cbd; 0xe7b82d07; 0x90bf1d91; 0x1db71064; 0x6ab020f2;
    0xf3b97148; 0x84be41de; 0x1adad47d; 0x6ddde4eb; 0xf4d4b551; 0x83d385c7;
    0x136c9856; 0x646ba8c0; 0xfd62f97a; 0x8a65c9ec; 0x14015c4f; 0x63066cd9;
    0xfa0f3d63; 0x8d080df5; 0x3b6e20c8; 0x4c69105e; 0xd56041e4; 0xa2677172;
    0x3c03e4d1; 0x4b04d447; 0xd20d85fd; 0xa50ab56b; 0x35b5a8fa; 0x42b2986c;
    0xdbbbc9d6; 0xacbcf940; 0x32d86ce3; 0x45df5c75; 0xdcd60dcf; 0xabd13d59;
    0x26d930ac; 0x51de003a; 0xc8d75180; 0xbfd06116; 0x21b4f4b5; 0x56b3c423;
    0xcfba9599; 0xb8bda50f; 0x2802b89e; 0x5f058808; 0xc60cd9b2; 0xb10be924;
    0x2f6f7c87; 0x58684c11; 0xc1611dab; 0xb6662d3d; 0x76dc4190; 0x01db7106;
    0x98d220bc; 0xefd5102a; 0x71b18589; 0x06b6b51f; 0x9fbfe4a5; 0xe8b8d433;
    0x7807c9a2; 0x0f00f934; 0x9609a88e; 0xe10e9818; 0x7f6a0dbb; 0x086d3d2d;
    0x91646c97; 0xe6635c01; 0x6b6b51f4; 0x1c6c6162; 0x856530d8; 0xf262004e;
    0x6c0695ed; 0x1b01a57b; 0x8208f4c1; 0xf50fc457; 0x65b0d9c6; 0x12b7e950;
    0x8bbeb8ea; 0xfcb9887c; 0x62dd1ddf; 0x15da2d49; 0x8cd37cf3; 0xfbd44c65;
    0x4db26158; 0x3ab551ce; 0xa3bc0074; 0xd4bb30e2; 0x4adfa541; 0x3dd895d7;
    0xa4d1c46d; 0xd3d6f4fb; 0x4369e96a; 0x346ed9fc; 0xad678846; 0xda60b8d0;
    0x44042d73; 0x33031de5; 0xaa0a4c5f; 0xdd0d7cc9; 0x5005713c; 0x270241aa;
    0xbe0b1010; 0xc90c2086; 0x5768b525; 0x206f85b3; 0xb966d409; 0xce61e49f;
    0x5edef90e; 0x29d9c998; 0xb0d09822; 0xc7d7a8b4; 0x59b33d17; 0x2eb40d81;
    0xb7bd5c3b; 0xc0ba6cad; 0xedb88320; 0x9abfb3b6; 0x03b6e20c; 0x74b1d29a;
    0xead54739; 0x9dd277af; 0x04db2615; 0x73dc1683; 0xe3630b12; 0x94643b84;
    0x0d6d6a3e; 0x7a6a5aa8; 0xe40ecf0b; 0x9309ff9d; 0x0a00ae27; 0x7d079eb1;
    0xf00f9344; 0x8708a3d2; 0x1e01f268; 0x6906c2fe; 0xf762575d; 0x806567cb;
    0x196c3671; 0x6e6b06e7; 0xfed41b76; 0x89d32be0; 0x10da7a5a; 0x67dd4acc;
    0xf9b9df6f; 0x8ebeeff9; 0x17b7be43; 0x60b08ed5; 0xd6d6a3e8; 0xa1d1937e;
    0x38d8c2c4; 0x4fdff252; 0xd1bb67f1; 0xa6bc5767; 0x3fb506dd; 0x48b2364b;
    0xd80d2bda; 0xaf0a1b4c; 0x36034af6; 0x41047a60; 0xdf60efc3; 0xa867df55;
    0x316e8eef; 0x4669be79; 0xcb61b38c; 0xbc66831a; 0x256fd2a0; 0x5268e236;
    0xcc0c7795; 0xbb0b4703; 0x220216b9; 0x5505262f; 0xc5ba3bbe; 0xb2bd0b28;
    0x2bb45a92; 0x5cb36a04; 0xc2d7ffa7; 0xb5d0cf31; 0x2cd99e8b; 0x5bdeae1d;
    0x9b64c2b0; 0xec63f226; 0x756aa39c; 0x026d930a; 0x9c0906a9; 0xeb0e363f;
    0x72076785; 0x05005713; 0x95bf4a82; 0xe2b87a14; 0x7bb12bae; 0x0cb61b38;
    0x92d28e9b; 0xe5d5be0d; 0x7cdcefb7; 0x0bdbdf21; 0x86d3d2d4; 0xf1d4e242;
    0x68ddb3f8; 0x1fda836e; 0x81be16cd; 0xf6b9265b; 0x6fb077e1; 0x18b74777;
    0x88085ae6; 0xff0f6a70; 0x66063bca; 0x11010b5c; 0x8f659eff; 0xf862ae69;
    0x616bffd3; 0x166ccf45; 0xa00ae278; 0xd70dd2ee; 0x4e048354; 0x3903b3c2;
    0xa7672661; 0xd06016f7; 0x4969474d; 0x3e6e77db; 0xaed16a4a; 0xd9d65adc;
    0x40df0b66; 0x37d83bf0; 0xa9bcae53; 0xdebb9ec5; 0x47b2cf7f; 0x30b5ffe9;
    0xbdbdf21c; 0xcabac28a; 0x53b39330; 0x24b4a3a6; 0xbad03605; 0xcdd70693;
    0x54de5729; 0x23d967bf; 0xb3667a2e; 0xc4614ab8; 0x5d681b02; 0x2a6f2b94;
    0xb40bbe37; 0xc30c8ea1; 0x5a05df1b; 0x2d02ef8d ].

Definition ngx_crc32c_table256 : list Z :=
  [ 0x00000000; 0xf26b8303; 0xe13b70f7; 0x1350f3f4; 0xc79a971f; 0x35f1141c;
    0x26a1e7e8; 0xd4ca64eb; 0x8ad958cf; 0x78b2dbcc; 0x6be22838; 0x9989ab3b;
    0x4d43cfd0; 0xbf284cd3; 0xac78bf27; 0x5e133c24; 0x105ec76f; 0xe235446c;
    0xf165b798; 0x030e349b; 0xd7c45070; 0x25afd373; 0x36ff2087; 0xc494a384;
    0x9a879fa0; 0x68ec1ca3; 0x7bbcef57; 0x89d76c54; 0x5d1d08bf; 0xaf768bbc;
    0xbc267848; 0x4e4dfb4b; 0x20bd8ede; 0xd2d60ddd; 0xc186fe29; 0x33ed7d2a;
    0xe72719c1; 0x154c9ac2; 0x061c6936; 0xf477ea35; 0xaa64d611; 0x580f5512;
    0x4b5fa6e6; 0xb93425e5; 0x6dfe410e; 0x9f95c20d; 0x8cc531f9; 0x7eaeb2fa;
    0x30e349b1; 0xc288cab2; 0xd1d83946; 0x23b3ba45; 0xf779deae; 0x05125dad;
    0x1642ae59; 0xe4292d5a; 0xba3a117e; 0x4851927d; 0x5b016189; 0xa96ae28a;
    0x7da08661; 0x8fcb0562; 0x9c9bf696; 0x6ef07595; 0x417b1dbc; 0xb3109ebf;
    0xa0406d4b; 0x522bee48; 0x86e18aa3; 0x748a09a0; 0x67dafa54; 0x95b17957;
    0xcba24573; 0x39c9c670; 0x2a993584; 0xd8f2b687; 0x0c38d26c; 0xfe53516f;
    0xed03a29b; 0x1f682198; 0x5125dad3; 0xa34e59d0; 0xb01eaa24; 0x42752927;
    0x96bf4dcc; 0x64d4cecf; 0x77843d3b; 0x85efbe38; 0xdbfc821c; 0x2997011f;
    0x3ac7f2eb; 0xc8ac71e8; 0x1c661503; 0xee0d9600; 0xfd5d65f4; 0x0f36e6f7;
    0x61c69362; 0x93ad1061; 0x80fde395; 0x72966096; 0xa65c047d; 0x5437877e;
    0x4767748a; 0xb50cf789; 0xeb1fcbad; 0x197448ae; 0x0a24bb5a; 0xf84f3859;
    0x2c855cb2; 0xdeeedfb1; 0xcdbe2c45; 0x3fd5af46; 0x7198540d; 0x83f3d70e;
    0x90a324fa; 0x62c8a7f9; 0xb602c312; 0x44694011; 0x5739b3e5; 0xa55230e6;
    0xfb410cc2; 0x092a8fc1; 0x1a7a7c35; 0xe811ff36; 0x3cdb9bdd; 0xceb018de;
    0xdde0eb2a; 0x2f8b6829; 0x82f63b78; 0x709db87b; 0x63cd4b8f; 0x91a6c88c;
    0x456cac67; 0xb7072f64; 0xa457dc90; 0x563c5f93; 0x082f63b7; 0xfa44e0b4;
    0xe9141340; 0x1b7f9043; 0xcfb5f4a8; 0x3dde77ab; 0x2e8e845f; 0xdce5075c;
    0x92a8fc17; 0x60c37f14; 0x73938ce0; 0x81f80fe3; 0x55326b08; 0xa759e80b;
    0xb4091bff; 0x466298fc; 0x1871a4d8; 0xea1a27db; 0xf94ad42f; 0x0b21572c;
    0xdfeb33c7; 0x2d80b0c4; 0x3ed04330; 0xccbbc033; 0xa24bb5a6; 0x502036a5;
    0x4370c551; 0xb11b4652; 0x65d122b9; 0x97baa1ba; 0x84ea524e; 0x7681d14d;
    0x2892ed69; 0xdaf96e6a; 0xc9a99d9e; 0x3bc21e9d; 0xef087a76; 0x1d63f975;
    0x0e330a81; 0xfc588982; 0xb21572c9; 0x407ef1ca; 0x532e023e; 0xa145813d;
    0x758fe5d6; 0x87e466d5; 0x94b49521; 0x66df1622; 0x38cc2a06; 0xcaa7a905;
    0xd9f75af1; 0x2b9cd9f2; 0xff56bd19; 0x0d3d3e1a; 0x1e6dcdee; 0xec064eed;
    0xc38d26c4; 0x31e6a5c7; 0x22b65633; 0xd0ddd530; 0x0417b1db; 0xf67c32d8;
    0xe52cc12c; 0x1747422f; 0x49547e0b; 0xbb3ffd08; 0xa86f0efc; 0x5a048dff;
    0x8ecee914; 0x7ca56a17; 0x6ff599e3; 0x9d9e1ae0; 0xd3d3e1ab; 0x21b862a8;
    0x32e8915c; 0xc083125f; 0x144976b4; 0xe622f5b7; 0xf5720643; 0x07198540;
    0x590ab964; 0xab613a67; 0xb831c993; 0x4a5a4a90; 0x9e902e7b; 0x6cfbad78;
    0x7fab5e8c; 0x8dc0dd8f; 0xe330a81a; 0x115b2b19; 0x020bd8ed; 0xf0605bee;
    0x24aa3f05; 0xd6c1bc06; 0xc5914ff2; 0x37faccf1; 0x69e9f0d5; 0x9b8273d6;
    0x88d28022; 0x7ab90321; 0xae7367ca; 0x5c18e4c9; 0x4f48173d; 0xbd23943e;
    0xf36e6f75; 0x0105ec76; 0x12551f82; 0xe03e9c81; 0x34f4f86a; 0xc69f7b69;
    0xd5cf889d; 0x27a40b9e; 0x79b737ba; 0x8bdcb4b9; 0x988c474d; 0x6ae7c44e;
    0xbe2da0a5; 0x4c4623a6; 0x5f16d052; 0xad7d5351 ].

(** One turn of the loops of ngx_crc32_long, ngx_crc32_update and ngx_crc32c_long. *)
Definition crc_byte (table : list Z) (crc c : Z) : Z :=
  Z.lxor (arr 0 table (Z.land (Z.lxor crc c) 0xff)) (Z.shiftr crc 8).

Fixpoint crc_loop (table : list Z) (crc : Z) (p : list Z) : Z :=
  match p with
  | [] => crc
  | c :: p' => crc_loop table (crc_byte table crc c) p'
  end.

Definition ngx_crc32_long (p : list Z) : Z :=
  Z.lxor (crc_loop ngx_crc32_table256 0xffffffff p) 0xffffffff.

Definition ngx_crc32c_long (p : list Z) : Z :=
  Z.lxor (crc_loop ngx_crc32c_table256 0xffffffff p) 0xffffffff.

Definition ngx_crc32_init : Z := 0xffffffff.
Definition ngx_crc32_update (crc : Z) (p : list Z) : Z := crc_loop ngx_crc32_table256 crc p.
Definition ngx_crc32_final (crc : Z) : Z := Z.lxor crc 0xffffffff.

(** One turn of ngx_crc32_short: two half bytes. *)
Definition crc_nibble (crc d : Z) : Z :=
  Z.lxor (arr 0 ngx_crc32_table16 (Z.land (Z.lxor crc d) 0xf)) (Z.shiftr crc 4).

Fixpoint crc_short_loop (crc : Z) (p : list Z) : Z :=
  match p with
  | [] => crc
  | c :: p' => crc_short_loop (crc_nibble (crc_nibble crc (Z.land c 0xf)) (Z.shiftr c 4)) p'
  end.

Definition ngx_crc32_short (p : list Z) : Z := Z.lxor (crc_short_loop 0xffffffff p) 0xffffffff.

(** The check value of the CRC catalogues. *)
Example crc32_check :
  ngx_crc32_long str("123456789") = 0xcbf43926 /\ ngx_crc32c_long str("123456789") = 0xe3069283.
Proof. vm_compute. done. Qed.

(** ** The shift register *)

Definition crc32_poly : Z := 0xedb88320.
Definition crc32c_poly : Z := 0x82f63b78.

Section Register.
Context (poly : Z).

Definition crc_bit (crc : Z) : Z :=
  Z.lxor (Z.shiftr crc 1) (if Z.testbit crc 0 then poly else 0).

Fixpoint crc_bits (n : nat) (crc : Z) : Z :=
  match n with
  | O => crc
  | S n' => crc_bits n' (crc_bit crc)
  end.

(** The reference: the byte enters the register, eight bits are shifted out. *)
Fixpoint crc_reference (crc : Z) (p : list Z) : Z :=
  match p with
  | [] => crc
  | c :: p' => crc_reference (crc_bits 8 (Z.lxor crc c)) p'
  end.

Lemma crc_bit_lxor a b : crc_bit (Z.lxor a b) = Z.lxor (crc_bit a) (crc_bit b).
Proof.
  unfold crc_bit. rewrite Z.shiftr_lxor, Z.lxor_spec.
  apply Z.bits_inj'. intros i Hi. rewrite !Z.lxor_spec.
  destruct (Z.testbit a 0), (Z.testbit b 0); cbn [xorb]; rewrite ?Z.bits_0;
    destruct (Z.testbit (Z.shiftr a 1) i), (Z.testbit (Z.shiftr b 1) i), (Z.testbit poly i); done.
Qed.

Lemma crc_bits_lxor n a b : crc_bits n (Z.lxor a b) = Z.lxor (crc_bits n a) (crc_bits n b).
Proof. revert a b. induction n as [|n IH]; intros; [done|]. cbn. by rewrite crc_bit_lxor, IH. Qed.

Lemma crc_bits_add m n a : crc_bits (m + n) a = crc_bits n (crc_bits m a).
Proof. revert a. induction m as [|m IH]; intros a; [done|]. apply IH. Qed.

(** Shifting out zeros. *)
Lemma crc_bits_shiftl n a : crc_bits n (Z.shiftl a (Z.of_nat n)) = a.
Proof.
  revert a. induction n as [|n IH]; intros a; [cbn; apply Z.shiftl_0_r|]. cbn [crc_bits].
  assert (crc_bit (Z.shiftl a (Z.of_nat (S n))) = Z.shiftl a (Z.of_nat n)) as ->; [|apply IH].
  unfold crc_bit. rewrite Z.shiftl_spec_low by lia. rewrite Z.lxor_0_r.
  rewrite Z.shiftr_shiftl_l by lia. f_equal. lia.
Qed.

Lemma split_low n a :
  a = Z.lxor (Z.land a (Z.ones (Z.of_nat n))) (Z.shiftl (Z.shiftr a (Z.of_nat n)) (Z.of_nat n)).
Proof.
  apply Z.bits_inj'. intros i Hi. rewrite Z.lxor_spec, Z.land_spec, Z.shiftl_spec by lia.
  destruct (decide (i < Z.of_nat n)).
  - rewrite Z.ones_spec_low by lia. rewrite (Z.testbit_neg_r _ (i - Z.of_nat n)) by lia.
    by rewrite andb_true_r, xorb_false_r.
  - rewrite Z.ones_spec_high by lia. rewrite Z.shiftr_spec by lia.
    rewrite andb_false_r. cbn. f_equal. lia.
Qed.

(** A table of [n]-bit steps advances the register by [n] bits. *)
Lemma crc_table_step (table : list Z) n a :
  (forall i, 0 <= i < 2 ^ Z.of_nat n -> arr 0 table i = crc_bits n i) -> 
  Z.lxor (arr 0 table (Z.land a (Z.ones (Z.of_nat n)))) (Z.shiftr a (Z.of_nat n)) = crc_bits n a.
Proof.
  intros H. rewrite (split_low n a) at 3. rewrite crc_bits_lxor, crc_bits_shiftl, H; [done|].
  rewrite Z.land_ones by lia. apply Z.mod_pos_bound. apply Z.pow_pos_nonneg; lia.
Qed.
End Register.

Lemma table_check (poly : Z) (table : list Z) (n : nat) :
  all_below (2 ^ n) (fun i => arr 0 table i =? crc_bits poly n i) = true ->
  forall i, 0 <= i < 2 ^ Z.of_nat n -> arr 0 table i = crc_bits poly n i.
Proof.
  intros H i Hi. apply Z.eqb_eq. apply (all_below_spec _ _ H).
  rewrite Nat2Z.inj_pow. exact Hi.
Qed.

Lemma crc_byte_step poly table crc c :
  (forall i, 0 <= i < 2 ^ Z.of_nat 8 -> arr 0 table i = crc_bits poly 8 i) -> is_byte c ->
  crc_byte table crc c = crc_bits poly 8 (Z.lxor crc c).
Proof.
  intros Ht Hc. rewrite <- (crc_table_step poly table 8 (Z.lxor crc c) Ht). unfold crc_byte.
  f_equal. change (Z.of_nat 8) with 8. rewrite Z.shiftr_lxor.
  assert (Z.shiftr c 8 = 0) as ->; [|by rewrite Z.lxor_0_r].
  rewrite Z.shiftr_div_pow2 by lia. apply Z.div_small. exact Hc.
Qed.

Lemma crc_loop_reference poly table crc p :
  (forall i, 0 <= i < 2 ^ Z.of_nat 8 -> arr 0 table i = crc_bits poly 8 i) -> bytes_ok p ->
  crc_loop table crc p = crc_reference poly crc p.
Proof.
  intros Ht Hp. revert crc. induction Hp as [|c p Hc Hp IH]; intros crc; [done|].
  cbn [crc_loop crc_reference]. rewrite (crc_byte_step poly) by done. apply IH.
Qed.

Lemma crc32_table_ok : forall i, 0 <= i < 2 ^ Z.of_nat 8 ->
  arr 0 ngx_crc32_table256 i = crc_bits crc32_poly 8 i.
Proof. apply table_check. vm_compute. reflexivity. Qed.

Lemma crc32c_table_ok : forall i, 0 <= i < 2 ^ Z.of_nat 8 ->
  arr 0 ngx_crc32c_table256 i = crc_bits crc32c_poly 8 i.
Proof. apply table_check. vm_compute. reflexivity. Qed.

Lemma crc_nibble_step crc d :
  0 <= d < 16 -> crc_nibble crc d = crc_bits crc32_poly 4 (Z.lxor crc d).
Proof.
  intros Hd. rewrite <- (crc_table_step crc32_poly ngx_crc32_table16 4 (Z.lxor crc d))
    by (apply table_check; vm_compute; reflexivity).
  unfold crc_nibble. f_equal. change (Z.of_nat 4) with 4. rewrite Z.shiftr_lxor.
  assert (Z.shiftr d 4 = 0) as ->; [|by rewrite Z.lxor_0_r].
  rewrite Z.shiftr_div_pow2 by lia. apply Z.div_small. exact Hd.
Qed.

Lemma crc_nibbles crc c :
  is_byte c ->
  crc_nibble (crc_nibble crc (Z.land c 0xf)) (Z.shiftr c 4) = crc_bits crc32_poly 8 (Z.lxor crc c).
Proof.
  intros Hc. unfold is_byte in Hc.
  rewrite (crc_nibble_step crc) by (bits_to_arith; zlia).
  rewrite crc_nibble_step by (bits_to_arith; zlia).
  rewrite (split_low 4 c) at 3. change (Z.ones (Z.of_nat 4)) with 0xf. change (Z.of_nat 4) with 4.
  replace 8%nat with (4 + 4)%nat by done. rewrite crc_bits_add.
  rewrite <- Z.lxor_assoc. rewrite (crc_bits_lxor crc32_poly 4 (Z.lxor crc (Z.land c 15))).
  by rewrite (crc_bits_shiftl crc32_poly 4).
Qed.

Lemma crc_short_reference crc p :
  bytes_ok p -> crc_short_loop crc p = crc_reference crc32_poly crc p.
Proof.
  intros Hp. revert crc. induction Hp as [|c p Hc Hp IH]; intros crc; [done|].
  cbn [crc_short_loop crc_reference]. rewrite crc_nibbles by done. apply IH.
Qed.

Lemma crc_loop_app table crc p q :
  crc_loop table crc (p ++ q) = crc_loop table (crc_loop table crc p) q.
Proof. revert crc. induction p as [|c p IH]; intros crc; [done|]. apply IH. Qed.

(** The table-driven routines compute the CRC: ngx_crc32_long (256 entries) and
    ngx_crc32_short (16 entries, half bytes) agree with the bitwise shift register of
    the reflected CRC-32 polynomial on every byte string, ngx_crc32c_long with that of
    the Castagnoli polynomial, and init, update and final over any pieces of a string
    give the CRC of the whole. *)
Theorem crc32_correct (p q : list Z) (Hp : bytes_ok p) (Hq : bytes_ok q) :
  ngx_crc32_long p = Z.lxor (crc_reference crc32_poly 0xffffffff p) 0xffffffff
  /\ ngx_crc32_short p = ngx_crc32_long p
  /\ ngx_crc32c_long p = Z.lxor (crc_reference crc32c_poly 0xffffffff p) 0xffffffff
  /\ ngx_crc32_final (ngx_crc32_update (ngx_crc32_update ngx_crc32_init p) q) = ngx_crc32_long (p ++ q).
Proof.
  unfold ngx_crc32_long, ngx_crc32c_long, ngx_crc32_short, ngx_crc32_final, ngx_crc32_update.
  rewrite crc_loop_app, crc_short_reference by done.
  rewrite !(crc_loop_reference crc32_poly ngx_crc32_table256) by (apply crc32_table_ok || done).
  by rewrite (crc_loop_reference crc32c_poly ngx_crc32c_table256) by (apply crc32c_table_ok || done).
Qed.

Lemma crc32_correct_witness :
  ngx_crc32_short str("GET") = ngx_crc32_long str("GET").
Proof. apply (crc32_correct str("GET") []); by_evaluation. Defined.

(** ** Error detection *)

Section Detection.
Context (poly : Z) (Hpoly : in_u 32 poly) (Htop : Z.testbit poly 31 = true).

Lemma in_u32_bits a : in_u 32 a -> forall i, 32 <= i -> Z.testbit a i = false.
Proof.
  intros Ha i Hi. rewrite <- (wrap_small 32 a Ha). unfold wrap. apply Z.mod_pow2_bits_high. lia.
Qed.

Lemma bits_in_u32 a : 0 <= a -> (forall i, 32 <= i -> Z.testbit a i = false) -> in_u 32 a.
Proof.
  intros Ha H. split; [done|]. destruct (Z.lt_ge_cases a (2 ^ 32)) as [|Hge]; [done|]. exfalso.
  assert (0 < a) by lia. pose proof (Z.log2_le_mono _ _ Hge) as Hl. rewrite Z.log2_pow2 in Hl by lia.
  pose proof (Z.bit_log2 a ltac:(lia)) as Hb. rewrite H in Hb by lia. done.
Qed.

Lemma lxor_in_u32 a b : in_u 32 a -> in_u 32 b -> in_u 32 (Z.lxor a b).
Proof.
  intros Ha Hb. apply bits_in_u32.
  - apply Z.lxor_nonneg. unfold in_u in *. lia.
  - intros i Hi. by rewrite Z.lxor_spec, (in_u32_bits a), (in_u32_bits b) by done.
Qed.

Lemma crc_bit_in_u32 a : in_u 32 a -> in_u 32 (crc_bit poly a).
Proof.
  intros Ha. unfold crc_bit. apply lxor_in_u32.
  - rewrite Z.shiftr_div_pow2 by lia. unfold in_u in *. change (2 ^ 1) with 2. zlia.
  - case_if; [done|]. unfold in_u. lia.
Qed.

(** The step is injective: the top bit of the result tells whether the polynomial
    was added. *)
Lemma crc_bit_inj a b : in_u 32 a -> in_u 32 b -> crc_bit poly a = crc_bit poly b -> a = b.
Proof.
  intros Ha Hb E.
  assert (Hbits : forall x, in_u 32 x -> forall i, 0 <= i ->
    Z.testbit (crc_bit poly x) i = xorb (Z.testbit x (i + 1)) (Z.testbit x 0 && Z.testbit poly i)).
  { intros x Hx i Hi. unfold crc_bit. rewrite Z.lxor_spec, Z.shiftr_spec by lia.
    destruct (Z.testbit x 0); [done|]. by rewrite Z.bits_0. }
  assert (H0 : Z.testbit a 0 = Z.testbit b 0).
  { pose proof (Hbits a Ha 31 ltac:(lia)) as H1. pose proof (Hbits b Hb 31 ltac:(lia)) as H2.
    rewrite E, H2 in H1. rewrite Htop in H1.
    rewrite (in_u32_bits a Ha (31 + 1)), (in_u32_bits b Hb (31 + 1)) in H1 by lia.
    rewrite !andb_true_r in H1. by destruct (Z.testbit a 0), (Z.testbit b 0). }
  apply Z.bits_inj'. intros i Hi. destruct (decide (i = 0)) as [->|Hne]; [done|].
  pose proof (Hbits a Ha (i - 1) ltac:(lia)) as H1. pose proof (Hbits b Hb (i - 1) ltac:(lia)) as H2.
  rewrite E, H2, H0 in H1. replace (i - 1 + 1) with i in H1 by lia.
  by destruct (Z.testbit a i), (Z.testbit b i), (Z.testbit b 0 && Z.testbit poly (i - 1)).
Qed.

Lemma crc_bits_inj n a b :
  in_u 32 a -> in_u 32 b -> crc_bits poly n a = crc_bits poly n b -> a = b.
Proof.
  revert a b. induction n as [|n IH]; intros a b Ha Hb E; [done|].
  apply crc_bit_inj; [done..|]. apply IH; auto using crc_bit_in_u32.
Qed.

Lemma crc_bits_in_u32 n a : in_u 32 a -> in_u 32 (crc_bits poly n a).
Proof. revert a. induction n as [|n IH]; intros a Ha; [done|]. apply IH. by apply crc_bit_in_u32. Qed.

(** The bytes of a string as one little-endian number. *)
Fixpoint le_value (p : list Z) : Z :=
  match p with
  | [] => 0
  | c :: p' => Z.lxor c (Z.shiftl (le_value p') 8)
  end.

Lemma crc_reference_block crc p :
  crc_reference poly crc p = crc_bits poly (8 * length p) (Z.lxor crc (le_value p)).
Proof.
  revert crc. induction p as [|c p IH]; intros crc; [cbn; by rewrite Z.lxor_0_r|].
  cbn [crc_reference le_value length]. rewrite IH.
  replace (8 * S (length p))%nat with (8 + 8 * length p)%nat by lia. rewrite crc_bits_add. f_equal.
  rewrite <- Z.lxor_assoc, (crc_bits_lxor poly 8 (Z.lxor crc c)).
  by rewrite (crc_bits_shiftl poly 8).
Qed.

Lemma le_value_cons c p : is_byte c -> 0 <= le_value p -> le_value (c :: p) = c + 256 * le_value p.
Proof.
  intros Hc Hp. cbn [le_value]. rewrite Z.lxor_comm, <- Z.add_nocarry_lxor.
  - rewrite Z.shiftl_mul_pow2 by lia. lia.
  - apply Z.bits_inj'. intros i Hi. rewrite Z.land_spec, Z.bits_0.
    destruct (decide (i < 8)); [by rewrite Z.shiftl_spec_low|].
    rewrite <- (Z.mod_small c (2 ^ 8)) by exact Hc. rewrite Z.mod_pow2_bits_high by lia.
    apply andb_false_r.
Qed.

Lemma le_value_range p : bytes_ok p -> 0 <= le_value p < 256 ^ Z.of_nat (length p).
Proof.
  induction 1 as [|c p Hc Hp IH]; [cbn; lia|]. rewrite le_value_cons by (done || lia).
  cbn [length]. rewrite Nat2Z.inj_succ, Z.pow_succ_r by lia. unfold is_byte in Hc. lia.
Qed.

Lemma le_value_inj p q : bytes_ok p -> bytes_ok q -> length p = length q -> le_value p = le_value q -> p = q.
Proof.
  intros Hp. revert q. induction Hp as [|c p Hc Hp IH]; intros q Hq Hl E.
  - by destruct q.
  - destruct Hq as [|d q Hd Hq]; [done|].
    pose proof (le_value_range p Hp). pose proof (le_value_range q Hq).
    rewrite !le_value_cons in E by (done || lia). unfold is_byte in Hc, Hd.
    assert (c = d) as -> by lia. f_equal. apply IH; [done|by injection Hl|lia].
Qed.

Lemma crc_reference_inj crc crc' p :
  bytes_ok p -> in_u 32 crc -> in_u 32 crc' ->
  crc_reference poly crc p = crc_reference poly crc' p -> crc = crc'.
Proof.
  intros Hp. revert crc crc'. induction Hp as [|c p Hc Hp IH]; intros crc crc' H1 H2 E; [done|].
  assert (Hc32 : in_u 32 c) by (unfold in_u; unfold is_byte in Hc; lia).
  apply IH in E; [|by apply crc_bits_in_u32, lxor_in_u32..].
  apply crc_bits_inj in E; [|by apply lxor_in_u32..].
  apply (f_equal (Z.lxor c)) in E. rewrite !(Z.lxor_comm c) in E.
  by rewrite !Z.lxor_assoc, !Z.lxor_nilpotent, !Z.lxor_0_r in E.
Qed.

Lemma crc_reference_in_u32 crc p : bytes_ok p -> in_u 32 crc -> in_u 32 (crc_reference poly crc p).
Proof.
  intros Hp. revert crc. induction Hp as [|c p Hc Hp IH]; intros crc H; [done|]. apply IH.
  apply crc_bits_in_u32, lxor_in_u32; [done|]. unfold in_u. unfold is_byte in Hc. lia.
Qed.

(** A damaged block of at most four bytes changes the register for good. *)
Lemma crc_reference_burst crc x y s :
  bytes_ok x -> bytes_ok y -> bytes_ok s -> in_u 32 crc -> length x = length y -> (length x <= 4)%nat ->
  crc_reference poly crc (x ++ s) = crc_reference poly crc (y ++ s) -> x = y.
Proof.
  intros Hx Hy Hs Hc Hl H4 E.
  assert (Happ : forall crc p q, crc_reference poly crc (p ++ q)
    = crc_reference poly (crc_reference poly crc p) q).
  { clear. intros crc p q. revert crc. induction p as [|c p IH]; intros crc; [done|]. apply IH. }
  rewrite !Happ in E. apply crc_reference_inj in E; [|done|by apply crc_reference_in_u32..].
  rewrite !crc_reference_block, Hl in E.
  assert (H32 : forall p, bytes_ok p -> (length p <= 4)%nat -> in_u 32 (le_value p)).
  { intros p Hp Hle. pose proof (le_value_range p Hp).
    pose proof (Z.pow_le_mono_r 256 (Z.of_nat (length p)) 4 ltac:(lia) ltac:(lia)).
    unfold in_u. change (256 ^ 4) with (2 ^ 32) in *. lia. }
  apply crc_bits_inj in E; [|apply lxor_in_u32; [done|apply H32; [done|lia]]..].
  apply (f_equal (Z.lxor crc)) in E.
  rewrite <- !Z.lxor_assoc, !Z.lxor_nilpotent, !Z.lxor_0_l in E. by apply le_value_inj.
Qed.
End Detection.

(** CRC-32 detects every burst of damage up to four bytes long: two byte strings
    that agree outside one block of at most four bytes and differ inside it have
    different checksums, with ngx_crc32_long and with ngx_crc32c_long. *)
Theorem crc32_detects_bursts (pre x y s : list Z)
    (Hb : bytes_ok pre /\ bytes_ok x /\ bytes_ok y /\ bytes_ok s)
    (Hl : length x = length y) (H4 : (length x <= 4)%nat) (Hne : x <> y) :
  ngx_crc32_long (pre ++ x ++ s) <> ngx_crc32_long (pre ++ y ++ s)
  /\ ngx_crc32c_long (pre ++ x ++ s) <> ngx_crc32c_long (pre ++ y ++ s).
Proof.
  destruct Hb as (Hp & Hx & Hy & Hs).
  assert (Hgen : forall poly table, in_u 32 poly -> Z.testbit poly 31 = true ->
    (forall i, 0 <= i < 2 ^ Z.of_nat 8 -> arr 0 table i = crc_bits poly 8 i) ->
    Z.lxor (crc_loop table 0xffffffff (pre ++ x ++ s)) 0xffffffff
    <> Z.lxor (crc_loop table 0xffffffff (pre ++ y ++ s)) 0xffffffff).
  { intros poly table Hpoly Htop Ht E. apply Hne.
    apply (f_equal (fun z => Z.lxor z 0xffffffff)) in E.
    rewrite !Z.lxor_assoc, !Z.lxor_nilpotent, !Z.lxor_0_r, !crc_loop_app in E.
    rewrite !(crc_loop_reference poly table _ pre) in E by done.
    rewrite <- !crc_loop_app, !(crc_loop_reference poly table) in E by (done || by apply Forall_app).
    apply (crc_reference_burst poly Hpoly Htop (crc_reference poly 4294967295 pre) x y s); try done.
    apply crc_reference_in_u32; [done..|]. unfold in_u. lia. }
  split.
  - apply (Hgen crc32_poly ngx_crc32_table256);
      [vm_compute; split; congruence|reflexivity|apply crc32_table_ok].
  - apply (Hgen crc32c_poly ngx_crc32c_table256);
      [vm_compute; split; congruence|reflexivity|apply crc32c_table_ok].
Qed.

Lemma crc32_detects_bursts_witness :
  ngx_crc32_long str("abcd") <> ngx_crc32_long str("abxd").
Proof.
  apply (crc32_detects_bursts str("ab") str("c") str("x") str("d"));
    [split_and!; by_evaluation|reflexivity|cbn; lia|discriminate].
Defined.
