(* ===== verification/Locks.v ===== *)
(** * Interprocess locks: src/core/ngx_rwlock.c and src/core/ngx_shmtx.c

    Worker processes share one atomic word (and for ngx_shmtx_t a counter of waiters
    and a POSIX semaphore).  Every process has a program point; one step of a process
    is one atomic access to the shared memory, written as an executable function
    [step] of the process, the call it makes when it is free to choose, and the state.
    The processes interleave arbitrarily.  The pauses and sched_yield() of the spin
    loops touch no shared memory, so a failed attempt leads straight to the next one;
    how often it is repeated before the semaphore is used is left open. *)

From S2P Require Import Prelude.

(** ** Counting processes *)

Section Counting.
Context {A : Type}.

Fixpoint countp (P : A -> bool) (l : list A) : Z :=
  match l with
  | [] => 0
  | a :: l' => (if P a then 1 else 0) + countp P l'
  end.

Lemma countp_insert P (l : list A) i a b :
  l !! i = Some a ->
  countp P (<[i := b]> l) = countp P l - (if P a then 1 else 0) + (if P b then 1 else 0).
Proof.
  revert i. induction l as [|x l IH]; intros [|i] H; try done.
  - cbn in H. simplify_eq. cbn. lia.
  - change (<[S i := b]> (x :: l)) with (x :: <[i := b]> l). cbn [countp]. rewrite (IH i H). lia.
Qed.

Lemma countp_range P (l : list A) : 0 <= countp P l <= Z.of_nat (length l).
Proof. induction l as [|a l IH]; cbn [countp length]; [lia|]. destruct (P a); lia. Qed.

Lemma countp_pos P (l : list A) i a : l !! i = Some a -> P a = true -> 0 < countp P l.
Proof.
  revert i. induction l as [|x l IH]; intros [|i] H HP; try done.
  - cbn in H. simplify_eq. cbn. rewrite HP. pose proof (countp_range P l). lia.
  - cbn [countp]. specialize (IH i H HP). destruct (P x); lia.
Qed.

Lemma countp_two P (l : list A) i j a b :
  i <> j -> l !! i = Some a -> l !! j = Some b -> P a = true -> P b = true -> 2 <= countp P l.
Proof.
  revert i j. induction l as [|x l IH]; intros [|i] [|j] Hne Hi Hj Ha Hb; try done; cbn [countp].
  - cbn in Hi. simplify_eq. rewrite Ha. pose proof (countp_pos P l j b Hj Hb). lia.
  - cbn in Hj. simplify_eq. rewrite Hb. pose proof (countp_pos P l i a Hi Ha). lia.
  - specialize (IH i j ltac:(congruence) Hi Hj Ha Hb). destruct (P x); lia.
Qed.

Lemma countp_exists P (l : list A) : 0 < countp P l -> exists i a, l !! i = Some a /\ P a = true.
Proof.
  induction l as [|x l IH]; cbn [countp]; [lia|]. destruct (P x) eqn:E; intros H.
  - by exists O, x.
  - destruct IH as (i & a & ? & ?); [lia|]. by exists (S i), a.
Qed.
End Counting.

(** ** The reader-writer lock *)

Module Rwlock.

Definition NGX_RWLOCK_WLOCK : Z := u64 (-1).

Inductive mode := Writer | Reader.

(** The program points.  [URead], [UCas] and [UDec] are inside ngx_rwlock_unlock,
    with the mode in which the process holds the lock (which the code does not
    know). *)
Inductive pc :=
| Idle
| WRead | WCas | WHeld
| RRead | RCas (readers : Z) | RHeld
| URead (m : mode) | UCas (m : mode) | UDec (m : mode)
| DRead | DWrite.

Record state := MkState { lock : Z; pcs : list pc }.

Inductive call := Wlock | Rlock | Unlock | Downgrade.

(** ngx_atomic_cmp_set *)
Definition cmp_set (old new l : Z) : bool * Z := if l =? old then (true, new) else (false, l).

(** ngx_rwlock_wlock: [*lock == 0], then the compare-and-set. *)
Definition step_wlock (p : pc) (l : Z) : option (pc * Z) :=
  match p with
  | WRead => Some (if l =? 0 then WCas else WRead, l)
  | WCas => let '(ok, l') := cmp_set 0 NGX_RWLOCK_WLOCK l in Some (if ok then WHeld else WRead, l')
  | _ => None
  end.

(** ngx_rwlock_rlock *)
Definition step_rlock (p : pc) (l : Z) : option (pc * Z) :=
  match p with
  | RRead => Some (if l =? NGX_RWLOCK_WLOCK then RRead else RCas l, l)
  | RCas readers =>
      let '(ok, l') := cmp_set readers (u64 (readers + 1)) l in Some (if ok then RHeld else RRead, l')
  | _ => None
  end.

(** ngx_rwlock_unlock *)
Definition step_unlock (p : pc) (l : Z) : option (pc * Z) :=
  match p with
  | URead m => Some (if l =? NGX_RWLOCK_WLOCK then UCas m else UDec m, l)
  | UCas m => Some (Idle, snd (cmp_set NGX_RWLOCK_WLOCK 0 l))
  | UDec m => Some (Idle, u64 (l - 1))
  | _ => None
  end.

(** ngx_rwlock_downgrade *)
Definition step_downgrade (p : pc) (l : Z) : option (pc * Z) :=
  match p with
  | DRead => Some (if l =? NGX_RWLOCK_WLOCK then DWrite else WHeld, l)
  | DWrite => Some (RHeld, 1)
  | _ => None
  end.

Definition step_call (c : call) (p : pc) (l : Z) : option (pc * Z) :=
  match c, p with
  | Wlock, Idle => Some (WRead, l)
  | Rlock, Idle => Some (RRead, l)
  | Unlock, WHeld => Some (URead Writer, l)
  | Unlock, RHeld => Some (URead Reader, l)
  | Downgrade, WHeld => Some (DRead, l)
  | _, _ => None
  end.

Definition step_pc (c : call) (p : pc) (l : Z) : option (pc * Z) :=
  match p with
  | Idle | WHeld | RHeld => step_call c p l
  | WRead | WCas => step_wlock p l
  | RRead | RCas _ => step_rlock p l
  | URead _ | UCas _ | UDec _ => step_unlock p l
  | DRead | DWrite => step_downgrade p l
  end.

(** Process [i] makes a step, calling [c] if it is outside the functions. *)
Definition step (i : nat) (c : call) (s : state) : option state :=
  p ← pcs s !! i;
  '(p', l') ← step_pc c p (lock s);
  Some (MkState l' (<[i := p']> (pcs s))).

Inductive reachable (n : nat) : state -> Prop :=
| reach_init : reachable n (MkState 0 (replicate n Idle))
| reach_step s s' i c : reachable n s -> step i c s = Some s' -> reachable n s'.

(** The process holds the lock, for writing or for reading. *)
Definition writes (p : pc) : bool :=
  match p with WHeld | URead Writer | UCas Writer | UDec Writer | DRead | DWrite => true | _ => false end.
Definition reads (p : pc) : bool :=
  match p with RHeld | URead Reader | UCas Reader | UDec Reader => true | _ => false end.

(** Inside unlock, the branch taken is the one of the mode; a reader never tries to
    count on top of a writer. *)
Definition branch_ok (p : pc) : bool :=
  match p with
  | UDec Writer | UCas Reader => false
  | RCas readers => negb (readers =? NGX_RWLOCK_WLOCK)
  | _ => true
  end.

Definition inv (s : state) : Prop :=
  Forall (fun p => branch_ok p = true) (pcs s)
  /\ ((countp writes (pcs s) = 0 /\ lock s = countp reads (pcs s))
      \/ (countp writes (pcs s) = 1 /\ countp reads (pcs s) = 0 /\ lock s = NGX_RWLOCK_WLOCK)).

Lemma inv_step i c s s' :
  Z.of_nat (length (pcs s)) < NGX_RWLOCK_WLOCK -> inv s -> step i c s = Some s' -> inv s'.
Proof.
  intros Hn [Hb Hc] H. unfold step in H.
  destruct (pcs s !! i) as [p|] eqn:Hp; [cbn [mbind option_bind] in H|done].
  destruct (step_pc c p (lock s)) as [[p' l']|] eqn:E; [cbn in H|done]. simplify_eq.
  pose proof (proj1 (Forall_lookup _ _) Hb i p Hp) as Hbp. cbv beta in Hbp.
  pose proof (countp_range reads (pcs s)) as Hr. pose proof (countp_range writes (pcs s)) as Hw.
  pose proof (countp_pos writes (pcs s) i p Hp) as Hwp.
  pose proof (countp_pos reads (pcs s) i p Hp) as Hrp.
  assert (HW : NGX_RWLOCK_WLOCK = 2 ^ 64 - 1) by reflexivity.
  assert (Hu1 : forall z, 0 <= z < 2 ^ 64 -> u64 z = z) by (intros; by apply wrap_small).
  split; cbn [pcs lock].
  - apply Forall_insert; [done|]. unfold step_pc, step_wlock, step_rlock, step_unlock, step_downgrade, step_call, cmp_set in E.
    destruct p as [| | | | |rd| |[]|[]|[]| |]; cbn in E, Hwp, Hrp, Hbp; try done.
    all: try (destruct c; cbn in E; simplify_eq; done).
    all: repeat case_if_in E; simplify_eq; try done; zbool; cbn.
    + apply negb_true_iff, Z.eqb_neq. done.
    + specialize (Hwp eq_refl). lia.
    + specialize (Hrp eq_refl). lia.
  - rewrite !(countp_insert _ _ _ _ _ Hp).
    unfold step_pc, step_wlock, step_rlock, step_unlock, step_downgrade, step_call, cmp_set in E.
    destruct p as [| | | | |rd| |[]|[]|[]| |]; cbn in E, Hwp, Hrp, Hbp; try done.
    all: try specialize (Hwp eq_refl); try specialize (Hrp eq_refl).
    all: try (destruct c; cbn in E; simplify_eq; cbn; lia).
    all: repeat case_if_in E; simplify_eq; zbool; cbn [writes reads snd]; try lia.
    + rewrite Hu1 by lia. lia.
    + rewrite Hu1 by lia. lia.
Qed.

Lemma step_length i c s s' : step i c s = Some s' -> length (pcs s') = length (pcs s).
Proof.
  unfold step. destruct (pcs s !! i) as [p|]; [cbn|done].
  destruct (step_pc c p (lock s)) as [[p' l']|]; [cbn|done]. intros. simplify_eq. cbn. apply length_insert.
Qed.

Lemma countp_idle n : countp writes (replicate n Idle) = 0 /\ countp reads (replicate n Idle) = 0.
Proof. induction n as [|n [IH1 IH2]]; [done|]. cbn. rewrite IH1, IH2. done. Qed.

Lemma reachable_inv n s :
  Z.of_nat n < NGX_RWLOCK_WLOCK -> reachable n s -> length (pcs s) = n /\ inv s.
Proof.
  intros Hn. induction 1 as [|s s' i c Hr [IHl IH] Hs].
  - cbn. rewrite length_replicate. split; [done|]. split; cbn.
    + apply Forall_replicate. done.
    + left. destruct (countp_idle n). lia.
  - split; [by rewrite (step_length _ _ _ _ Hs)|]. eapply inv_step; [|done|done]. by rewrite IHl.
Qed.

(** C37. The reader-writer lock excludes: in every interleaving of any number of
    processes (below 2^64 - 1), while one process holds the lock for writing no other
    holds it in any mode; the word is NGX_RWLOCK_WLOCK exactly then and otherwise the
    number of readers, so it is zero when nobody holds the lock; and unlock always
    takes the branch of the mode in which the lock is held. *)
Theorem rwlock_exclusion (n : nat) (s : state)
    (Hn : Z.of_nat n < NGX_RWLOCK_WLOCK) (Hs : reachable n s) :
  (forall i j p q, i <> j -> pcs s !! i = Some p -> pcs s !! j = Some q -> writes p = true ->
     writes q = false /\ reads q = false)
  /\ (lock s = NGX_RWLOCK_WLOCK <-> exists i p, pcs s !! i = Some p /\ writes p = true)
  /\ (lock s <> NGX_RWLOCK_WLOCK -> lock s = countp reads (pcs s))
  /\ Forall (fun p => branch_ok p = true) (pcs s).
Proof.
  destruct (reachable_inv n s Hn Hs) as (Hl & Hb & Hc).
  pose proof (countp_range reads (pcs s)) as Hr. split_and!; [| | |done].
  - intros i j p q Hne Hi Hj Hw.
    pose proof (countp_pos writes _ _ _ Hi Hw). split; apply not_true_is_false; intros Hq.
    + pose proof (countp_two writes _ i j p q Hne Hi Hj Hw Hq). lia.
    + pose proof (countp_pos reads _ _ _ Hj Hq). lia.
  - split.
    + intros E. apply countp_exists. lia.
    + intros (i & p & Hi & Hp). pose proof (countp_pos writes _ _ _ Hi Hp). lia.
  - intros. lia.
Qed.

(** A schedule: processes and the calls they make. *)
Fixpoint run (sched : list (nat * call)) (s : state) : option state :=
  match sched with
  | [] => Some s
  | (i, c) :: sched' => s' ← step i c s; run sched' s'
  end.

Lemma run_reachable n sched s s' : reachable n s -> run sched s = Some s' -> reachable n s'.
Proof.
  revert s. induction sched as [|[i c] sched IH]; intros s Hs H; cbn in H; [by simplify_eq|].
  destruct (step i c s) as [s1|] eqn:E; [|done]. eapply IH; [|exact H]. by eapply reach_step.
Qed.

Lemma rwlock_exclusion_witness :
  exists s, run [(0%nat, Wlock); (1%nat, Rlock); (0%nat, Wlock); (1%nat, Rlock); (0%nat, Wlock); (1%nat, Rlock)]
      (MkState 0 (replicate 2 Idle)) = Some s
    /\ pcs s = [WHeld; RRead] /\ lock s = NGX_RWLOCK_WLOCK.
Proof.
  eexists. split; [vm_compute; reflexivity|]. split; [reflexivity|].
  eapply (proj2 (proj1 (proj2 (rwlock_exclusion 2 _ ltac:(vm_compute; reflexivity)
    (run_reachable 2
      [(0%nat, Wlock); (1%nat, Rlock); (0%nat, Wlock); (1%nat, Rlock); (0%nat, Wlock); (1%nat, Rlock)]
      _ _ (reach_init 2) eq_refl))))).
  exists 0%nat, WHeld. split; reflexivity.
Defined.

End Rwlock.

(** ** The shared mutex *)

Module Shmtx.

(** The program points of a worker.  [Try] and [TryCas] are the spinning attempts of
    ngx_shmtx_lock, [Inc] to [WDec] the attempt after the waiter was announced,
    [SemWait] the blocked state; [Unl] to [Post] are ngx_shmtx_unlock with
    ngx_shmtx_wakeup; [TlRead], [TlCas] are ngx_shmtx_trylock; [Force] is
    ngx_shmtx_force_unlock on behalf of a worker that exited.  [Crashed] is a worker
    that exited while holding the mutex, [Gone] one that exited without it. *)
Inductive pc :=
| Idle
| Try | TryCas
| Inc | WRead | WCas | WDec | SemWait
| Held
| Unl | WkRead | WkCas (wait : Z) | Post
| TlRead | TlCas
| Force (dead : nat)
| Crashed | Gone.

#[export] Instance pc_eq_dec : EqDecision pc.
Proof. solve_decision. Defined.

(** The lock word, the waiter counter (a 64-bit word read as signed), the value of the
    semaphore, and the workers. *)
Record state := MkState { lock : Z; wait : Z; sem : Z; pcs : list pc }.

(** What a worker decides: which function to call, whether to give up spinning, or
    to exit while it holds the mutex. *)
Inductive choice := Lock | Trylock | Unlock | ForceUnlock (dead : nat) | Spin | Announce | Crash.

Definition pid (i : nat) : Z := Z.of_nat i + 1.

Definition set_lock (l : Z) (s : state) : state := MkState l (wait s) (sem s) (pcs s).
Definition set_wait (w : Z) (s : state) : state := MkState (lock s) w (sem s) (pcs s).
Definition set_sem (v : Z) (s : state) : state := MkState (lock s) (wait s) v (pcs s).
Definition goto (i : nat) (p : pc) (s : state) : state :=
  MkState (lock s) (wait s) (sem s) (<[i := p]> (pcs s)).

(** ngx_shmtx_lock.  After a failed attempt the worker tries again or goes on to announce
    itself, so that every number of spins is covered; sem_wait is retried when it is
    interrupted, which is no step of the model. *)
Definition step_lock (i : nat) (c : choice) (p : pc) (s : state) : option state :=
  match p with
  | Try =>
      if lock s =? 0 then Some (goto i TryCas s)
      else match c with
           | Spin => Some (goto i Try s)
           | Announce => Some (goto i Inc s)
           | _ => None
           end
  | TryCas =>
      if lock s =? 0 then Some (goto i Held (set_lock (pid i) s))
      else match c with
           | Spin => Some (goto i Try s)
           | Announce => Some (goto i Inc s)
           | _ => None
           end
  | Inc => Some (goto i WRead (set_wait (u64 (wait s + 1)) s))
  | WRead => Some (goto i (if lock s =? 0 then WCas else SemWait) s)
  | WCas => if lock s =? 0 then Some (goto i WDec (set_lock (pid i) s)) else Some (goto i SemWait s)
  | WDec => Some (goto i Held (set_wait (u64 (wait s - 1)) s))
  | SemWait => if 0 <? sem s then Some (goto i Try (set_sem (sem s - 1) s)) else None
  | _ => None
  end.

(** ngx_shmtx_unlock and ngx_shmtx_wakeup *)
Definition step_mutex_unlock (i : nat) (p : pc) (s : state) : option state :=
  match p with
  | Unl => if lock s =? pid i then Some (goto i WkRead (set_lock 0 s)) else Some (goto i Idle s)
  | WkRead => Some (goto i (if i64 (wait s) <=? 0 then Idle else WkCas (wait s)) s)
  | WkCas w => if wait s =? w then Some (goto i Post (set_wait (u64 (w - 1)) s)) else Some (goto i WkRead s)
  | Post => Some (goto i Idle (set_sem (sem s + 1) s))
  | _ => None
  end.

(** ngx_shmtx_trylock *)
Definition step_trylock (i : nat) (p : pc) (s : state) : option state :=
  match p with
  | TlRead => Some (goto i (if lock s =? 0 then TlCas else Idle) s)
  | TlCas => if lock s =? 0 then Some (goto i Held (set_lock (pid i) s)) else Some (goto i Idle s)
  | _ => None
  end.

(** ngx_shmtx_force_unlock, called for a worker that was seen to exit: such a worker is
    [Crashed], or [Gone] when the mutex was already taken from it. *)
Definition step_force (i dead : nat) (s : state) : option state :=
  match pcs s !! dead with
  | Some Crashed =>
      if lock s =? pid dead
      then Some (goto i WkRead (goto dead Gone (set_lock 0 s)))
      else Some (goto i Idle s)
  | _ => Some (goto i Idle s)
  end.

Definition step_choice (i : nat) (c : choice) (p : pc) (s : state) : option state :=
  match p, c with
  | Idle, Lock => Some (goto i Try s)
  | Idle, Trylock => Some (goto i TlRead s)
  | Idle, ForceUnlock dead => if bool_decide (pcs s !! dead = Some Crashed) then Some (goto i (Force dead) s) else None
  | Held, Unlock => Some (goto i Unl s)
  | Held, Crash => Some (goto i Crashed s)
  | _, _ => None
  end.

Definition step (i : nat) (c : choice) (s : state) : option state :=
  p ← pcs s !! i;
  match p with
  | Idle | Held => step_choice i c p s
  | Try | TryCas | Inc | WRead | WCas | WDec | SemWait => step_lock i c p s
  | Unl | WkRead | WkCas _ | Post => step_mutex_unlock i p s
  | TlRead | TlCas => step_trylock i p s
  | Force dead => step_force i dead s
  | Crashed | Gone => None
  end.

Inductive reachable (n : nat) : state -> Prop :=
| reach_init : reachable n (MkState 0 0 0 (replicate n Idle))
| reach_step s s' i c : reachable n s -> step i c s = Some s' -> reachable n s'.

(** The worker owns the mutex. *)
Definition holds (p : pc) : bool :=
  match p with WDec | Held | Unl | Crashed => true | _ => false end.

(** It is counted in [wait]: announced and not yet woken or withdrawn. *)
Definition announced (p : pc) : bool :=
  match p with WRead | WCas | WDec | SemWait => true | _ => false end.

Definition posting (p : pc) : bool := match p with Post => true | _ => false end.
Definition blocked (p : pc) : bool := match p with SemWait => true | _ => false end.

(** It runs inside lock or wakeup and is about to look at the mutex or at [wait]. *)
Definition attempting (p : pc) : bool :=
  match p with Try | TryCas | Inc | WRead | WCas | WkRead | WkCas _ => true | _ => false end.

(** Every step that is not a forced unlock changes one program point. *)
Inductive simple_step (i : nat) (s : state) : pc -> pc -> Z -> Z -> Z -> Prop :=
| sp_same p p' : lock s <> 0 \/ (p' <> SemWait) -> holds p' = holds p -> announced p' = announced p ->
    posting p' = posting p -> (attempting p = true -> attempting p' = true \/ p' = SemWait) ->
    (forall w, p' = WkCas w -> w = wait s /\ 0 < i64 w) ->
    simple_step i s p p' (lock s) (wait s) (sem s)
| sp_acquire p p' : lock s = 0 -> holds p' = true -> announced p' = announced p ->
    posting p' = posting p -> (forall w, p' <> WkCas w) -> blocked p' = false ->
    simple_step i s p p' (pid i) (wait s) (sem s)
| sp_inc : simple_step i s Inc WRead (lock s) (u64 (wait s + 1)) (sem s)
| sp_dec : simple_step i s WDec Held (lock s) (u64 (wait s - 1)) (sem s)
| sp_wait : 0 < sem s -> simple_step i s SemWait Try (lock s) (wait s) (sem s - 1)
| sp_release : lock s = pid i -> simple_step i s Unl WkRead 0 (wait s) (sem s)
| sp_lost : lock s <> pid i -> simple_step i s Unl Idle (lock s) (wait s) (sem s)
| sp_quiet : i64 (wait s) <= 0 -> simple_step i s WkRead Idle (lock s) (wait s) (sem s)
| sp_take w : wait s = w -> simple_step i s (WkCas w) Post (lock s) (u64 (w - 1)) (sem s)
| sp_post : simple_step i s Post Idle (lock s) (wait s) (sem s + 1).

Ltac by_goto H :=
  eapply H; [unfold goto, set_lock, set_wait, set_sem; cbn [lock wait sem pcs]; reflexivity|].

Lemma step_inv i c s s' :
  step i c s = Some s' ->
  (exists p p' l w v, pcs s !! i = Some p /\ simple_step i s p p' l w v
     /\ s' = MkState l w v (<[i := p']> (pcs s)))
  \/ (exists dead, pcs s !! i = Some (Force dead) /\ pcs s !! dead = Some Crashed
     /\ lock s = pid dead /\ s' = goto i WkRead (goto dead Gone (set_lock 0 s))).
Proof.
  unfold step. destruct (pcs s !! i) as [p|] eqn:Hp; [cbn [mbind option_bind]|done]. intros H.
  assert (Hgoto : forall p' l w v, s' = MkState l w v (<[i := p']> (pcs s)) -> simple_step i s p p' l w v ->
    (exists p0 p' l w v, Some p = Some p0 /\ simple_step i s p0 p' l w v
       /\ s' = MkState l w v (<[i := p']> (pcs s)))
    \/ (exists dead, Some p = Some (Force dead) /\ pcs s !! dead = Some Crashed
       /\ lock s = pid dead /\ s' = goto i WkRead (goto dead Gone (set_lock 0 s)))).
  { intros p' l w v Hs' Hsp. left. by exists p, p', l, w, v. }
  destruct p; cbn [step_lock step_mutex_unlock step_trylock step_choice] in H; try done.
  all: try solve [destruct c; try done; repeat case_if_in H; simplify_eq;
    by_goto Hgoto; apply sp_same; auto; done].
  - case_if_in H; zbool; [simplify_eq; by_goto Hgoto; by apply sp_acquire|].
    destruct c; simplify_eq; by_goto Hgoto; apply sp_same; auto; done.
  - simplify_eq. by_goto Hgoto; constructor.
  - simplify_eq. by_goto Hgoto. case_if; zbool; apply sp_same; auto; done.
  - case_if_in H; zbool; simplify_eq; by_goto Hgoto;
      [by apply sp_acquire|apply sp_same; auto; done].
  - simplify_eq. by_goto Hgoto; constructor.
  - case_if_in H; [|done]. zbool. simplify_eq. by_goto Hgoto; by constructor.
  - case_if_in H; zbool; simplify_eq; by_goto Hgoto; by constructor.
  - simplify_eq. by_goto Hgoto. case_if; zbool; [by apply sp_quiet|].
    apply sp_same; auto; try done. intros w [= <-]. split; [done|lia].
  - case_if_in H; zbool; simplify_eq; by_goto Hgoto; [by apply sp_take|].
    apply sp_same; auto; done.
  - simplify_eq. by_goto Hgoto; constructor.
  - case_if_in H; zbool; simplify_eq; by_goto Hgoto;
      [by apply sp_acquire|apply sp_same; auto; done].
  - unfold step_force in H. destruct (pcs s !! dead) as [[]|] eqn:Hd.
    all: try (simplify_eq; by_goto Hgoto; apply sp_same; auto; done).
    case_if_in H; zbool; simplify_eq.
    + right. exists dead. by split_and!.
    + by_goto Hgoto. apply sp_same; auto; done.
Qed.

(** ** Invariants *)

Definition mutex_inv (s : state) : Prop :=
  (forall i p, pcs s !! i = Some p -> holds p = true <-> lock s = pid i)
  /\ (lock s <> 0 -> exists i p, pcs s !! i = Some p /\ lock s = pid i).

Lemma pid_inj i j : pid i = pid j -> i = j.
Proof. unfold pid. lia. Qed.

Lemma pid_pos i : 0 < pid i.
Proof. unfold pid. lia. Qed.

(** One process changes its point, and the word stays, becomes its own, or is
    released by its owner. *)
Lemma mutex_inv_update s i p p' l w v :
  mutex_inv s -> pcs s !! i = Some p ->
  (l = lock s /\ holds p' = holds p \/ lock s = 0 /\ l = pid i /\ holds p' = true
   \/ lock s = pid i /\ l = 0 /\ holds p' = false) ->
  mutex_inv (MkState l w v (<[i := p']> (pcs s))).
Proof.
  intros [H1 H2] Hp Hl. pose proof (pid_pos i) as Hi.
  assert (Hlen : (i < length (pcs s))%nat) by (by eapply lookup_lt_Some).
  pose proof (H1 i p Hp) as Hh. split; cbn [lock pcs].
  - intros j q Hq. destruct (decide (i = j)) as [<-|Hne].
    + rewrite list_lookup_insert_eq in Hq by done. simplify_eq.
      destruct Hl as [[-> ->]|[(E & -> & ->)|(E & -> & ->)]]; [done|done|]. split; [done|lia].
    + rewrite list_lookup_insert_ne in Hq by done. specialize (H1 j q Hq).
      pose proof (pid_pos j). assert (pid i <> pid j) by (intros ?%pid_inj; done).
      destruct Hl as [[-> _]|[(E & -> & _)|(E & -> & _)]]; [done| |]; rewrite H1; split; lia.
  - intros Hl0. destruct (decide (l = pid i)) as [->|Hne].
    + exists i, p'. by rewrite list_lookup_insert_eq.
    + destruct Hl as [[-> _]|[(E & -> & _)|(E & -> & _)]]; [|done|done].
      destruct (H2 Hl0) as (j & q & Hj & Hlj). exists j, q. rewrite list_lookup_insert_ne; [done|congruence].
Qed.

Lemma mutex_inv_step i c s s' : mutex_inv s -> step i c s = Some s' -> mutex_inv s'.
Proof.
  intros Hm H. apply step_inv in H as [(p & p' & l & w & v & Hp & Hsp & ->)|(dead & Hi & Hd & Hl & ->)].
  - assert (Hh : holds p = true <-> lock s = pid i) by (by apply (proj1 Hm)).
    pose proof (pid_pos i).
    destruct Hsp; eapply mutex_inv_update; try done; cbn [holds] in *; auto; try (left; done).
    all: first [by right; right; split_and! | by right; left; split_and! | exfalso; tauto].
  - assert (Hne : i <> dead) by (intros ->; by simplify_eq).
    assert (Hm1 : mutex_inv (goto dead Gone (set_lock 0 s))).
    { apply (mutex_inv_update s dead Crashed); [done|done|]. right. right. by split_and!. }
    apply (mutex_inv_update _ i (Force dead)); [done| |by left].
    cbn. by rewrite list_lookup_insert_ne.
Qed.

Definition wk_ok (p : pc) : Prop := match p with WkCas w => in_u 64 w /\ 0 < i64 w | _ => True end.

(** The counter, the semaphore and the workers between an announcement and its end
    balance; [n] bounds the wake-ups in flight. *)
Definition sem_inv (n : nat) (s : state) : Prop :=
  length (pcs s) = n /\ 0 <= sem s /\ sem s + countp posting (pcs s) <= Z.of_nat n
  /\ wait s = u64 (countp announced (pcs s) - sem s - countp posting (pcs s))
  /\ Forall wk_ok (pcs s).

Lemma sem_inv_signed n s :
  Z.of_nat n < 2 ^ 62 -> sem_inv n s ->
  i64 (wait s) = countp announced (pcs s) - sem s - countp posting (pcs s).
Proof.
  intros Hn (Hl & Hs & Hle & -> & _).
  pose proof (countp_range announced (pcs s)). pose proof (countp_range posting (pcs s)).
  assert (Hi : forall z, i64 (u64 z) = i64 z) by (intros z; unfold i64, wrap; by rewrite Z.mod_mod).
  rewrite Hi. apply i64_small. lia.
Qed.

Lemma u64_add z d : u64 (u64 z + d) = u64 (z + d).
Proof. unfold wrap. by rewrite Zplus_mod_idemp_l. Qed.

Lemma u64_sub z d : u64 (u64 z - d) = u64 (z - d).
Proof. unfold wrap. by rewrite Zminus_mod_idemp_l. Qed.

Lemma sem_inv_step n i c s s' :
  Z.of_nat n < 2 ^ 62 -> sem_inv n s -> step i c s = Some s' -> sem_inv n s'.
Proof.
  intros Hn Hinv H. pose proof (sem_inv_signed n s Hn Hinv) as Hsig.
  destruct Hinv as (Hl & Hs & Hle & Hw & Hok).
  pose proof (countp_range announced (pcs s)) as HA.
  apply step_inv in H as [(p & p' & l & w & v & Hp & Hsp & ->)|(dead & Hi & Hd & Hld & ->)].
  - pose proof (countp_insert announced (pcs s) i p p' Hp) as EA.
    pose proof (countp_insert posting (pcs s) i p p' Hp) as EP.
    pose proof (proj1 (Forall_lookup _ _) Hok i p Hp) as Hpok.
    pose proof (countp_pos posting (pcs s) i p Hp) as HPp.
    pose proof (countp_range posting (pcs s)) as HP.
    split; [cbn; by rewrite length_insert|]. cbn [sem pcs wait].
    assert (Hu : forall a b, a = b -> u64 a = u64 b) by (by intros a b ->).
    destruct Hsp as [p p' _ _ Ha Hpo _ Hwk|p p' _ _ Ha Hpo Hwk _| | |Hsem|_|_|Hq|w Hwt| ].
    all: try rewrite Ha in EA; try rewrite Hpo in EP; cbn [announced posting] in EA, EP.
    all: split_and!; try lia.
    all: try (rewrite Hw; rewrite ?u64_add, ?u64_sub; apply Hu; lia).
    all: try (apply Forall_insert; [done|]; try exact I).
    all: try (destruct p'; try exact I; cbn).
    + specialize (Hwk _ eq_refl) as [-> ?]. split; [|done]. rewrite Hw. apply wrap_range. lia.
    + by specialize (Hwk wait0).
    + rewrite Hwt in Hsig. cbn in Hpok. lia.
    + rewrite <- Hwt, Hw, u64_sub. apply Hu. lia.
  - assert (Hne : i <> dead) by (intros ->; by simplify_eq).
    assert (Hi' : <[dead := Gone]> (pcs s) !! i = Some (Force dead)) by (by rewrite list_lookup_insert_ne).
    pose proof (countp_insert announced _ dead Crashed Gone Hd) as E1.
    pose proof (countp_insert posting _ dead Crashed Gone Hd) as E2.
    pose proof (countp_insert announced _ i (Force dead) WkRead Hi') as E3.
    pose proof (countp_insert posting _ i (Force dead) WkRead Hi') as E4.
    cbn [announced posting] in *. split_and!; cbn [sem pcs wait goto set_lock].
    + by rewrite !length_insert.
    + done.
    + lia.
    + rewrite Hw. f_equal. lia.
    + apply Forall_insert; [|done]. by apply Forall_insert.
Qed.

(** If a worker is blocked and the semaphore is zero, somebody will look at the mutex
    or at the counter: its owner, or a worker inside lock or wakeup. *)
Definition wakeup_inv (s : state) : Prop :=
  0 < countp blocked (pcs s) -> sem s = 0 ->
  lock s <> 0 \/ 0 < countp attempting (pcs s) + countp posting (pcs s).

Lemma countp_le {A} (P Q : A -> bool) (l : list A) :
  (forall a, P a = true -> Q a = true) -> countp P l <= countp Q l.
Proof.
  intros H. induction l as [|a l IH]; cbn [countp]; [lia|]. specialize (H a).
  destruct (P a), (Q a); lia || by specialize (H eq_refl).
Qed.

Lemma wakeup_inv_step n i c s s' :
  Z.of_nat n < 2 ^ 62 -> mutex_inv s -> sem_inv n s -> wakeup_inv s -> step i c s = Some s' ->
  wakeup_inv s'.
Proof.
  intros Hn Hm Hinv Hwk H. pose proof (sem_inv_signed n s Hn Hinv) as Hsig.
  destruct Hinv as (Hl & Hs & Hle & Hw & Hok).
  pose proof (countp_le blocked announced (pcs s) ltac:(by intros [])) as HBA.
  pose proof (countp_range posting (pcs s)) as HP.
  pose proof (countp_range attempting (pcs s)) as HT.
  apply step_inv in H as [(p & p' & l & w & v & Hp & Hsp & ->)|(dead & Hi & Hd & Hld & ->)].
  - pose proof (countp_insert attempting (pcs s) i p p' Hp) as EA.
    pose proof (countp_insert posting (pcs s) i p p' Hp) as EP.
    pose proof (countp_insert blocked (pcs s) i p p' Hp) as EB.
    pose proof (countp_pos attempting (pcs s) i p Hp) as HTp.
    pose proof (countp_pos posting (pcs s) i p Hp) as HPp.
    pose proof (proj1 (proj1 Hm i p Hp)) as Hhold. pose proof (pid_pos i) as Hpid.
    unfold wakeup_inv in *. cbn [pcs lock sem].
    destruct Hsp as [p p' Hsw _ _ Hpo Hat _|p p' Hl0 _ _ Hpo _ Hb| | |Hsem|Hown|Hlost|Hq|w Hwt| ];
      intros HB Hsem0.
    + rewrite Hpo in EP. destruct (decide (p' = SemWait)) as [->|Hne].
      { left. by destruct Hsw. }
      assert (blocked p' = false) as Hb' by (by destruct p').
      rewrite Hb' in EB. destruct (attempting p) eqn:Ea.
      * destruct (Hat eq_refl) as [Ha'|Ha']; [|done]. rewrite Ha' in EA. right. lia.
      * destruct (Hwk ltac:(destruct (blocked p); lia) Hsem0) as [?|?]; [by left|].
        right. destruct (attempting p'); lia.
    + left. lia.
    + cbn in *. right. lia.
    + left. cbn in Hhold. specialize (Hhold eq_refl). lia.
    + cbn in *. right. lia.
    + cbn in *. right. lia.
    + cbn in Hhold. specialize (Hhold eq_refl). done.
    + cbn in *. specialize (HTp eq_refl). right. lia.
    + cbn in *. right. lia.
    + cbn in *. lia.
  - assert (Hne : i <> dead) by (intros ->; by simplify_eq).
    assert (Hi' : <[dead := Gone]> (pcs s) !! i = Some (Force dead)) by (by rewrite list_lookup_insert_ne).
    pose proof (countp_insert attempting _ dead Crashed Gone Hd) as E1.
    pose proof (countp_insert posting _ dead Crashed Gone Hd) as E2.
    pose proof (countp_insert attempting _ i (Force dead) WkRead Hi') as E3.
    pose proof (countp_insert posting _ i (Force dead) WkRead Hi') as E4.
    unfold wakeup_inv. cbn [pcs lock sem goto set_lock]. intros _ _. right. cbn in *. lia.
Qed.

Lemma countp_replicate {A} (P : A -> bool) n a : P a = false -> countp P (replicate n a) = 0.
Proof. intros H. induction n as [|n IH]; [done|]. cbn. rewrite H, IH. done. Qed.

Lemma mutex_reachable_inv n s :
  Z.of_nat n < 2 ^ 62 -> reachable n s -> mutex_inv s /\ sem_inv n s /\ wakeup_inv s.
Proof.
  intros Hn. induction 1 as [|s s' i c Hr (IH1 & IH2 & IH3) Hs].
  - split_and!.
    + split; [|done]. intros i p Hp. apply lookup_replicate in Hp as [-> _]. cbn.
      pose proof (pid_pos i). split; [done|lia].
    + split_and!; cbn; rewrite ?length_replicate, ?countp_replicate; try done; [lia|].
      by apply Forall_replicate.
    + intros H. cbn in H. rewrite countp_replicate in H by done. lia.
  - split_and!; [by eapply mutex_inv_step|by eapply sem_inv_step|by eapply wakeup_inv_step].
Qed.

(** C38. The shared mutex excludes: in every interleaving of locking, trying,
    unlocking, workers dying while they own the mutex and forced unlocks on their
    behalf, at most one worker owns it, the word is the pid of the owner and zero when
    there is none. *)
Theorem shmtx_exclusion (n : nat) (s : state) (Hn : Z.of_nat n < 2 ^ 62) (Hs : reachable n s) :
  (forall i j p q, pcs s !! i = Some p -> pcs s !! j = Some q -> holds p = true -> holds q = true -> i = j)
  /\ (forall i p, pcs s !! i = Some p -> holds p = true <-> lock s = pid i)
  /\ (lock s <> 0 -> exists i p, pcs s !! i = Some p /\ holds p = true).
Proof.
  destruct (mutex_reachable_inv n s Hn Hs) as ((H1 & H2) & _ & _). split_and!; [|exact H1|].
  - intros i j p q Hi Hj Hp Hq. apply (H1 i p Hi) in Hp. apply (H1 j q Hj) in Hq.
    apply pid_inj. congruence.
  - intros Hl. destruct (H2 Hl) as (i & p & Hi & Hp). exists i, p. split; [done|]. by apply (H1 i p).
Qed.

(** C39. No wake-up is lost: whenever a worker is blocked on the semaphore, either the
    semaphore is positive, or some worker owns the mutex (and its unlock will look at
    the counter), or some worker is awake inside lock or wakeup; and a worker that is
    blocked with a positive semaphore can step. *)
Theorem shmtx_no_lost_wakeup (n i : nat) (s : state) (Hn : Z.of_nat n < 2 ^ 62) (Hs : reachable n s)
    (Hi : pcs s !! i = Some SemWait) :
  (exists s', step i Lock s = Some s')
  \/ exists j q, pcs s !! j = Some q /\ j <> i
       /\ (holds q = true \/ attempting q = true \/ posting q = true).
Proof.
  destruct (mutex_reachable_inv n s Hn Hs) as ((H1 & H2) & Hsem & Hwk).
  unfold step. rewrite Hi. cbn [mbind option_bind step_lock].
  destruct (Z.ltb_spec 0 (sem s)) as [Hpos|Hz]; [left; eauto|right].
  assert (Hs0 : sem s = 0) by (destruct Hsem as (_ & ? & _); lia).
  assert (Hother : forall j q, pcs s !! j = Some q ->
    holds q = true \/ attempting q = true \/ posting q = true -> j <> i).
  { intros j q Hj Hq ->. simplify_eq. cbn in Hq. naive_solver. }
  destruct (Hwk (countp_pos blocked _ _ _ Hi eq_refl) Hs0) as [Hl|Hc].
  - destruct (H2 Hl) as (j & q & Hj & Hq). assert (Hh : holds q = true) by (by apply (H1 j q)).
    exists j, q. split_and!; [done|eauto|by left].
  - pose proof (countp_range attempting (pcs s)). pose proof (countp_range posting (pcs s)).
    destruct (decide (0 < countp attempting (pcs s))) as [Hp|Hp].
    + apply countp_exists in Hp as (j & q & Hj & Hq). exists j, q. split_and!; eauto.
    + destruct (countp_exists posting (pcs s)) as (j & q & Hj & Hq); [lia|]. exists j, q. split_and!; eauto.
Qed.

(** A schedule: workers and their choices. *)
Fixpoint run (sched : list (nat * choice)) (s : state) : option state :=
  match sched with
  | [] => Some s
  | (i, c) :: sched' => s' ← step i c s; run sched' s'
  end.

Lemma mutex_run_reachable n sched s s' : reachable n s -> run sched s = Some s' -> reachable n s'.
Proof.
  revert s. induction sched as [|[i c] sched IH]; intros s Hs H; cbn in H; [by simplify_eq|].
  destruct (step i c s) as [s1|] eqn:E; [|done]. eapply IH; [|exact H]. by eapply reach_step.
Qed.

(** Worker 0 locks, worker 1 spins once, announces itself and blocks. *)
Definition blocking_schedule : list (nat * choice) :=
  [(0%nat, Lock); (0%nat, Spin); (0%nat, Spin); (1%nat, Lock); (1%nat, Announce); (1%nat, Spin); (1%nat, Spin)].

Lemma shmtx_exclusion_witness :
  exists s, run blocking_schedule (MkState 0 0 0 (replicate 2 Idle)) = Some s
    /\ (holds Held = true <-> lock s = pid 0) /\ pcs s = [Held; SemWait].
Proof.
  eexists. split; [vm_compute; reflexivity|].
  split; [|reflexivity].
  apply (proj1 (proj2 (shmtx_exclusion 2 _ ltac:(vm_compute; reflexivity)
    (mutex_run_reachable 2 blocking_schedule _ _ (reach_init 2) eq_refl)))). reflexivity.
Defined.

Lemma shmtx_no_lost_wakeup_witness :
  exists s, run blocking_schedule (MkState 0 0 0 (replicate 2 Idle)) = Some s
    /\ ((exists s', step 1 Lock s = Some s')
        \/ exists j q, pcs s !! j = Some q /\ j <> 1%nat
             /\ (holds q = true \/ attempting q = true \/ posting q = true)).
Proof.
  eexists. split; [vm_compute; reflexivity|].
  apply (shmtx_no_lost_wakeup 2 1 _ ltac:(vm_compute; reflexivity)
    (mutex_run_reachable 2 blocking_schedule _ _ (reach_init 2) eq_refl)). reflexivity.
Defined.

End Shmtx.
