(* ===== verification/HttpHuffman.v ===== *)
(** * Huffman coding of header strings: ngx_http_huff_decode.c, ngx_http_huff_encode.c

    The decoder runs a 256-state automaton over half bytes; the encoder collects codes
    in a 64-bit word and writes it out big-endian when it is full.  [text_bits] views
    bytes as bits and [encode_bits] is the concatenation of the codes of a string, so
    that both routines are specified by one equation between bit strings.  The output
    buffers are the lists of the bytes written so far. *)

From S2P Require Import Prelude HuffmanTables.

(** ** The decoder *)

Definition huff_decode_entry (state bits : Z) : huff_decode_code :=
  nth (Z.to_nat bits) (nth (Z.to_nat state) ngx_http_huff_decode_codes []) (Dc 0 0 0 0).

(** ngx_http_huff_decode_bits: the new state, the ending flag and the output, or
    [None] for NGX_ERROR. *)
Definition ngx_http_huff_decode_bits (state bits : Z) (dst : list Z) : option (Z * Z * list Z) :=
  let c := huff_decode_entry state bits in
  if next c =? state then None
  else Some (next c, ending c, if emit c =? 0 then dst else dst ++ [sym c]).

Fixpoint huff_decode_loop (src : list Z) (state ending : Z) (dst : list Z) : option (Z * Z * list Z) :=
  match src with
  | [] => Some (state, ending, dst)
  | c :: src =>
      '(state, _, dst) ← ngx_http_huff_decode_bits state (Z.shiftr c 4) dst;
      '(state, ending, dst) ← ngx_http_huff_decode_bits state (Z.land c 0xf) dst;
      huff_decode_loop src state ending dst
  end.

(** ngx_http_huff_decode: the state and the output, or [None] for NGX_ERROR. *)
Definition ngx_http_huff_decode (state : Z) (src dst : list Z) (last : bool) : option (Z * list Z) :=
  '(state, ending, dst) ← huff_decode_loop src state 1 dst;
  if last then if ending =? 0 then None else Some (0, dst)
  else Some (state, dst).

(** ** The encoder *)

(** ngx_http_huff_encode_buf *)
Definition ngx_http_huff_encode_buf (buf : Z) : list Z :=
  [u8 (Z.shiftr buf 56); u8 (Z.shiftr buf 48); u8 (Z.shiftr buf 40); u8 (Z.shiftr buf 32);
   u8 (Z.shiftr buf 24); u8 (Z.shiftr buf 16); u8 (Z.shiftr buf 8); u8 buf].

(** The while loop; [hlen] is the length of [dst] and [None] is "return 0". *)
Fixpoint huff_encode_loop (table : list huff_encode_code) (len_ : Z) (src : list Z)
    (buf pending : Z) (dst : list Z) : option (Z * Z * list Z) :=
  match src with
  | [] => Some (buf, pending, dst)
  | c :: src =>
      let e := nth (Z.to_nat c) table (Ec 0 0) in
      let pending := pending + len e in
      if pending <? 64 then
        huff_encode_loop table len_ src (Z.lor buf (u64 (Z.shiftl (code e) (64 - pending)))) pending dst
      else if len_ <=? Z.of_nat (length dst) + 8 then None
      else
        let pending := pending - 64 in
        let buf := Z.lor buf (Z.shiftr (code e) pending) in
        let dst := dst ++ ngx_http_huff_encode_buf buf in
        let buf := if pending =? 0 then 0 else u64 (Z.shiftl (code e) (64 - pending)) in
        huff_encode_loop table len_ src buf pending dst
  end.

(** do { pending -= 8; dst[hlen++] = (u_char) (buf >> pending); } while (pending);
    for [pending] = 8 n. *)
Fixpoint huff_encode_tail (n : nat) (buf : Z) : list Z :=
  match n with
  | O => []
  | S n => u8 (Z.shiftr buf (8 * Z.of_nat n)) :: huff_encode_tail n buf
  end.

Definition ngx_align (d a : Z) : Z := Z.land (d + (a - 1)) (Z.lnot (a - 1)).

(** ngx_http_huff_encode: the returned length and the bytes written. *)
Definition ngx_http_huff_encode (src : list Z) (lower : bool) : Z * list Z :=
  let table := if lower then ngx_http_huff_encode_table_lc else ngx_http_huff_encode_table in
  let len_ := Z.of_nat (length src) in
  match huff_encode_loop table len_ src 0 0 [] with
  | None => (0, [])
  | Some (buf, pending, dst) =>
      let hlen := Z.of_nat (length dst) in
      if pending =? 0 then (hlen, dst)
      else
        let buf := Z.lor buf (Z.shiftr (2 ^ 64 - 1) pending) in
        let pending := ngx_align pending 8 in
        if len_ <=? hlen + pending / 8 then (0, [])
        else
          let buf := Z.shiftr buf (64 - pending) in
          let dst := dst ++ huff_encode_tail (Z.to_nat (pending / 8)) buf in
          (Z.of_nat (length dst), dst)
  end.

Example huffman_ex :
  ngx_http_huff_encode (str("www.example.com")) false
    = (12, [0xf1; 0xe3; 0xc2; 0xe5; 0xf2; 0x3a; 0x6b; 0xa0; 0xab; 0x90; 0xf4; 0xff])
  /\ ngx_http_huff_decode 0 [0xf1; 0xe3; 0xc2; 0xe5; 0xf2; 0x3a; 0x6b; 0xa0; 0xab; 0x90; 0xf4; 0xff] [] true
    = Some (0, str("www.example.com")).
Proof. vm_compute. auto. Qed.

(** ** Bit strings *)

(** The low [n] bits of a number, the most significant first. *)
Fixpoint bits (n : nat) (v : Z) : list bool :=
  match n with
  | O => []
  | S n => Z.testbit v (Z.of_nat n) :: bits n v
  end.

Definition text_bits (l : list Z) : list bool := flat_map (bits 8) l.

Definition code_bits (c : Z) : list bool :=
  let e := nth (Z.to_nat c) ngx_http_huff_encode_table (Ec 0 0) in bits (Z.to_nat (len e)) (code e).

Definition encode_bits (s : list Z) : list bool := flat_map code_bits s.

Abbreviation ones k := (replicate k true).
Abbreviation zeros k := (replicate k false).

Lemma length_bits n v : length (bits n v) = n.
Proof. induction n as [|n IH]; [done|]. cbn. by rewrite IH. Qed.

Lemma bits_ext n v w :
  (forall i, 0 <= i < Z.of_nat n -> Z.testbit v i = Z.testbit w i) -> bits n v = bits n w.
Proof.
  induction n as [|n IH]; intros H; [done|]. cbn. f_equal; [apply H; lia|apply IH; intros i Hi; apply H; lia].
Qed.

Lemma bits_add a b v : bits (a + b) v = bits a (Z.shiftr v (Z.of_nat b)) ++ bits b v.
Proof.
  induction a as [|a IH]; [done|]. cbn. rewrite IH. f_equal. rewrite Z.shiftr_spec by lia. f_equal. lia.
Qed.

Lemma bits_lor n v w : bits n (Z.lor v w) = zip_with orb (bits n v) (bits n w).
Proof. induction n as [|n IH]; [done|]. cbn. by rewrite IH, Z.lor_spec. Qed.

Lemma bits_zero n : bits n 0 = zeros n.
Proof. induction n as [|n IH]; [done|]. cbn. by rewrite IH, Z.bits_0. Qed.

Lemma bits_high n m v : 0 <= v < 2 ^ Z.of_nat m -> bits n (Z.shiftr v (Z.of_nat m)) = zeros n.
Proof.
  intros H. rewrite Z.shiftr_div_pow2, Z.div_small by lia. apply bits_zero.
Qed.

Lemma bits_u64 n v : (n <= 64)%nat -> bits n (u64 v) = bits n v.
Proof. intros H. apply bits_ext. intros i Hi. apply Z.mod_pow2_bits_low. lia. Qed.

Lemma bits_u8 v : bits 8 (u8 v) = bits 8 v.
Proof. apply bits_ext. intros i Hi. apply Z.mod_pow2_bits_low. lia. Qed.

(** A code moved to its place in the word. *)
Lemma bits_shiftl n k v : bits (n + k) (Z.shiftl v (Z.of_nat k)) = bits n v ++ zeros k.
Proof.
  rewrite bits_add. f_equal.
  - apply bits_ext. intros i Hi. rewrite Z.shiftr_spec, Z.shiftl_spec by lia. f_equal. lia.
  - rewrite <- (bits_zero k). apply bits_ext. intros i Hi. by rewrite Z.shiftl_spec_low, Z.bits_0 by lia.
Qed.

Lemma bits_ones n k v : v = 2 ^ Z.of_nat n - 1 -> (k <= n)%nat -> bits n (Z.shiftr v (Z.of_nat k)) = zeros k ++ ones (n - k).
Proof.
  intros -> Hk. replace n with (k + (n - k))%nat at 1 by lia. rewrite bits_add. f_equal.
  - rewrite Z.shiftr_shiftr by lia. replace (Z.of_nat k + Z.of_nat (n - k)) with (Z.of_nat n) by lia. apply bits_high.
    pose proof (Z.pow_pos_nonneg 2 (Z.of_nat n)). lia.
  - rewrite Z.sub_1_r, <- Z.ones_equiv.
    assert (H : forall m, (m + k <= n)%nat -> bits m (Z.shiftr (Z.ones (Z.of_nat n)) (Z.of_nat k)) = ones m).
    { induction m as [|m IH]; intros Hm; [done|]. cbn. rewrite IH by lia. f_equal.
      rewrite Z.shiftr_spec, Z.ones_spec_low by lia. done. }
    apply H. lia.
Qed.

Lemma zip_orb_zeros_r l : zip_with orb l (zeros (length l)) = l.
Proof. induction l as [|b l IH]; [done|]. cbn. rewrite IH. by destruct b. Qed.

Lemma zip_orb_zeros_l l : zip_with orb (zeros (length l)) l = l.
Proof. induction l as [|b l IH]; [done|]. cbn. by rewrite IH. Qed.

(** Two words whose bits do not overlap. *)
Lemma zip_orb_fill (p q : list bool) :
  zip_with orb (p ++ zeros (length q)) (zeros (length p) ++ q) = p ++ q.
Proof. rewrite zip_with_app by (by rewrite length_replicate). by rewrite zip_orb_zeros_r, zip_orb_zeros_l. Qed.

Lemma length_text_bits l : length (text_bits l) = (8 * length l)%nat.
Proof. induction l as [|c l IH]; [done|]. unfold text_bits in *. cbn [flat_map]. rewrite length_app, IH. cbn. lia. Qed.

Lemma text_bits_app l1 l2 : text_bits (l1 ++ l2) = text_bits l1 ++ text_bits l2.
Proof. apply flat_map_app. Qed.

Lemma encode_buf_bits buf :
  text_bits (ngx_http_huff_encode_buf buf) = bits 64 buf /\ bytes_ok (ngx_http_huff_encode_buf buf).
Proof.
  split.
  - change 64%nat with (8 + (8 + (8 + (8 + (8 + (8 + (8 + 8)))))))%nat. rewrite !bits_add.
    unfold text_bits, ngx_http_huff_encode_buf. cbn [flat_map]. by rewrite !bits_u8, app_nil_r.
  - repeat constructor; unfold is_byte; apply (wrap_range 8); lia.
Qed.

Lemma encode_tail_bits n buf :
  text_bits (huff_encode_tail n buf) = bits (8 * n) buf /\ bytes_ok (huff_encode_tail n buf)
  /\ length (huff_encode_tail n buf) = n.
Proof.
  induction n as [|n (IH1 & IH2 & IH3)]; [done|]. split_and!.
  - replace (8 * S n)%nat with (8 + 8 * n)%nat by lia. rewrite bits_add, <- IH1.
    cbn [huff_encode_tail]. unfold text_bits. cbn [flat_map]. rewrite bits_u8. do 3 f_equal. lia.
  - constructor; [apply (wrap_range 8); lia|done].
  - cbn. by rewrite IH3.
Qed.

(** ** What the encoder writes *)

Section encoder.
Context (table : list huff_encode_code).

Definition entry (c : Z) : huff_encode_code := nth (Z.to_nat c) table (Ec 0 0).
Definition entry_bits (c : Z) : list bool := bits (Z.to_nat (len (entry c))) (code (entry c)).
Definition entry_ok (c : Z) : Prop := 0 < len (entry c) <= 30 /\ 0 <= code (entry c) < 2 ^ len (entry c).

(** [buf] holds the bits [p], left-aligned. *)
Definition holds_bits (buf : Z) (p : list bool) : Prop := bits 64 buf = p ++ zeros (64 - length p).

Lemma accumulate buf p c :
  entry_ok c -> holds_bits buf p -> Z.of_nat (length p) + len (entry c) <= 64 ->
  holds_bits (Z.lor buf (u64 (Z.shiftl (code (entry c)) (64 - (Z.of_nat (length p) + len (entry c)))))) (p ++ entry_bits c).
Proof.
  intros [Hl Hc] Hb Hp. unfold holds_bits in *. set (n := Z.to_nat (len (entry c))).
  assert (Hn : 0 <= code (entry c) < 2 ^ Z.of_nat n) by (by replace (Z.of_nat n) with (len (entry c)) by lia).
  set (k := (64 - (length p + n))%nat).
  replace (64 - (Z.of_nat (length p) + len (entry c))) with (Z.of_nat k) by lia.
  rewrite bits_lor, Hb, bits_u64 by lia.
  replace 64%nat with (length p + n + k)%nat at 2 by lia. rewrite bits_shiftl, bits_add.
  replace (bits (length p) _) with (zeros (length p))
    by (symmetry; by apply bits_high).
  replace (zeros (64 - length p)) with (zeros (length (entry_bits c ++ zeros k)))
    by (f_equal; unfold entry_bits; rewrite length_app, length_replicate, length_bits; lia).
  rewrite <- app_assoc. rewrite zip_orb_fill. rewrite <- app_assoc. do 2 f_equal. f_equal.
  rewrite length_app. unfold entry_bits. rewrite length_bits. lia.
Qed.

(** A code that reaches the end of the word is split. *)
Lemma accumulate_full buf p c :
  entry_ok c -> holds_bits buf p -> (length p < 64)%nat -> 64 <= Z.of_nat (length p) + len (entry c) ->
  let pending := Z.of_nat (length p) + len (entry c) - 64 in
  exists q1 q2, entry_bits c = q1 ++ q2 /\ Z.of_nat (length q2) = pending
    /\ bits 64 (Z.lor buf (Z.shiftr (code (entry c)) pending)) = p ++ q1
    /\ holds_bits (if pending =? 0 then 0 else u64 (Z.shiftl (code (entry c)) (64 - pending))) q2.
Proof.
  intros [Hl Hc] Hb Hp64 Hp. cbn zeta. set (n := Z.to_nat (len (entry c))).
  assert (Hn : 0 <= code (entry c) < 2 ^ Z.of_nat n) by (by replace (Z.of_nat n) with (len (entry c)) by lia).
  set (k := (length p + n - 64)%nat).
  replace (Z.of_nat (length p) + len (entry c) - 64) with (Z.of_nat k) by lia.
  exists (bits (n - k) (Z.shiftr (code (entry c)) (Z.of_nat k))), (bits k (code (entry c))).
  split_and!.
  - rewrite <- bits_add. unfold entry_bits. f_equal. lia.
  - by rewrite length_bits.
  - rewrite bits_lor, Hb. replace 64%nat with (length p + (n - k))%nat at 2 by lia. rewrite bits_add.
    rewrite Z.shiftr_shiftr by lia. replace (Z.of_nat k + Z.of_nat (n - k)) with (Z.of_nat n) by lia.
    rewrite bits_high by done.
    replace (64 - length p)%nat with (length (bits (n - k) (Z.shiftr (code (entry c)) (Z.of_nat k))))
      by (rewrite length_bits; lia).
    by rewrite zip_orb_fill.
  - unfold holds_bits. rewrite length_bits. case_if; zbool.
    + assert (k = 0%nat) as -> by lia. apply bits_zero.
    + rewrite bits_u64 by lia. replace (64 - Z.of_nat k) with (Z.of_nat (64 - k)) by lia.
      replace 64%nat with (k + (64 - k))%nat at 1 by lia. apply bits_shiftl.
Qed.

Lemma encode_loop_spec len_ src : forall buf p dst,
  Forall entry_ok src -> holds_bits buf p -> (length p < 64)%nat ->
  match huff_encode_loop table len_ src buf (Z.of_nat (length p)) dst with
  | Some (buf', pending, dst') => exists d p',
      dst' = dst ++ d /\ bytes_ok d /\ text_bits d ++ p' = p ++ flat_map entry_bits src
      /\ pending = Z.of_nat (length p') /\ (length p' < 64)%nat /\ holds_bits buf' p'
      /\ (d = [] \/ Z.of_nat (length dst') < len_)
  | None => len_ <= Z.of_nat (length dst) + Z.of_nat (length (p ++ flat_map entry_bits src)) / 8
  end.
Proof.
  induction src as [|c src IH]; intros buf p dst Hok Hb Hp; cbn [huff_encode_loop flat_map].
  { exists [], p. rewrite !app_nil_r. split_and!; auto. }
  apply Forall_cons_1 in Hok as [Hc Hok]. fold (entry c).
  assert (Hlen : length (entry_bits c) = Z.to_nat (len (entry c))) by apply length_bits.
  destruct (Z.ltb_spec (Z.of_nat (length p) + len (entry c)) 64) as [Hlt|Hge].
  - specialize (IH _ (p ++ entry_bits c) dst Hok (accumulate buf p c Hc Hb ltac:(lia))).
    assert (Hl' : Z.of_nat (length (p ++ entry_bits c)) = Z.of_nat (length p) + len (entry c))
      by (rewrite length_app; destruct Hc; lia).
    rewrite Hl', <- app_assoc in IH. apply IH. lia.
  - pose proof (accumulate_full buf p c Hc Hb Hp ltac:(lia)) as (q1 & q2 & Hq & Hq2 & Hw & Hb').
    assert (Hpq : length (p ++ q1) = 64%nat) by (by rewrite <- Hw, length_bits).
    assert (Htot : p ++ entry_bits c ++ flat_map entry_bits src = (p ++ q1) ++ q2 ++ flat_map entry_bits src)
      by (by rewrite Hq, <- !app_assoc).
    rewrite Htot. destruct (Z.leb_spec len_ (Z.of_nat (length dst) + 8)) as [Hfull|Hroom].
    { rewrite length_app, Hpq. zlia. }
    specialize (IH _ q2 (dst ++ ngx_http_huff_encode_buf (Z.lor buf (Z.shiftr (code (entry c))
      (Z.of_nat (length p) + len (entry c) - 64)))) Hok Hb').
    rewrite Hq2 in IH. destruct Hc as [Hcl _]. specialize (IH ltac:(lia)).
    set (w := Z.lor _ _) in *. destruct (encode_buf_bits w) as [Hwb Hwok].
    destruct (huff_encode_loop _ _ _ _ _ _) as [[[buf' pd] dst']|].
    + destruct IH as (d & p' & -> & Hd & Ht & -> & Hp' & Hh & Hlim).
      exists (ngx_http_huff_encode_buf w ++ d), p'. rewrite <- app_assoc. split_and!; auto.
      * by apply Forall_app.
      * by rewrite text_bits_app, Hwb, Hw, <- app_assoc, Ht.
      * right. destruct Hlim as [-> |Hlim]; [|by rewrite <- app_assoc in Hlim]. rewrite !length_app. cbn. lia.
    + rewrite length_app in IH. cbn in IH. rewrite length_app, Hpq. zlia.
Qed.

End encoder.

Definition tolower (c : Z) : Z := if (ch("A") <=? c) && (c <=? ch("Z")) then c + 32 else c.

(** The string that is encoded. *)
Definition lowered (lower : bool) (s : list Z) : list Z := if lower then map tolower s else s.

Definition entry_check (t : list huff_encode_code) (c : Z) : bool :=
  (0 <? len (entry t c)) && (len (entry t c) <=? 30) && (0 <=? code (entry t c))
  && (code (entry t c) <? 2 ^ len (entry t c)).

Definition lower_check (c : Z) : bool :=
  (code (entry ngx_http_huff_encode_table_lc c) =? code (entry ngx_http_huff_encode_table (tolower c)))
  && (len (entry ngx_http_huff_encode_table_lc c) =? len (entry ngx_http_huff_encode_table (tolower c))).

Lemma entry_check_ok t s :
  all_below 256 (entry_check t) = true -> bytes_ok s -> Forall (entry_ok t) s.
Proof.
  intros H Hs. eapply Forall_impl; [|exact Hs]. intros c Hc.
  apply (all_bytes_spec _ H) in Hc. unfold entry_check in Hc. zbool. unfold entry_ok. lia.
Qed.

Lemma tables_ok (lower : bool) (s : list Z) :
  bytes_ok s ->
  let t := if lower then ngx_http_huff_encode_table_lc else ngx_http_huff_encode_table in
  Forall (entry_ok t) s /\ flat_map (entry_bits t) s = encode_bits (lowered lower s).
Proof.
  intros Hs. destruct lower; cbn zeta iota; (split; [apply entry_check_ok; [vm_compute; reflexivity|done]|]); [|done].
  assert (H : all_below 256 lower_check = true) by (vm_compute; reflexivity).
  induction Hs as [|c s Hc Hs IH]; [done|]. cbn [flat_map map lowered encode_bits]. f_equal; [|exact IH].
  apply (all_bytes_spec _ H) in Hc. unfold lower_check in Hc. zbool.
  unfold entry_bits. unfold code_bits. fold (entry ngx_http_huff_encode_table (tolower c)). by f_equal; [f_equal|].
Qed.

Lemma ngx_align_8 n : 0 <= n -> ngx_align n 8 = 8 * ((n + 7) / 8).
Proof.
  intros H. unfold ngx_align. change (Z.lnot (8 - 1)) with (Z.lnot (Z.ones 3)).
  rewrite <- Z.ldiff_land, Z.ldiff_ones_r by lia.
  rewrite Z.shiftl_mul_pow2, Z.shiftr_div_pow2 by lia. change (2 ^ 3) with 8. replace (n + (8 - 1)) with (n + 7) by lia. lia.
Qed.

Lemma encode_spec (src : list Z) (lower : bool) :
  bytes_ok src ->
  let b := encode_bits (lowered lower src) in
  let n := (Z.of_nat (length b) + 7) / 8 in
  if n <? Z.of_nat (length src) then exists dst k,
    ngx_http_huff_encode src lower = (n, dst) /\ Z.of_nat (length dst) = n /\ bytes_ok dst
    /\ (k < 8)%nat /\ text_bits dst = b ++ ones k
  else fst (ngx_http_huff_encode src lower) = 0.
Proof.
  intros Hs. destruct (tables_ok lower src Hs) as [Hok Hb]. cbn zeta. unfold ngx_http_huff_encode.
  set (t := if lower then ngx_http_huff_encode_table_lc else ngx_http_huff_encode_table) in *.
  pose proof (encode_loop_spec t (Z.of_nat (length src)) src 0 [] [] Hok (bits_zero 64) ltac:(cbn; lia)) as H.
  cbn [length] in H. change (Z.of_nat 0) with 0 in H. rewrite Hb, app_nil_l in H.
  set (b := encode_bits _) in *.
  destruct (huff_encode_loop _ _ _ _ _ _) as [[[buf pd] dst]|].
  2:{ case_if; zbool; [|done]. exfalso. revert H E. zlia. }
  destruct H as (d & p & -> & Hd & Ht & -> & Hp & Hh & Hlim). cbn [app] in *.
  assert (Hlen : length b = (8 * length d + length p)%nat) by (by rewrite <- Ht, length_app, length_text_bits).
  set (n := (Z.of_nat (length b) + 7) / 8). destruct (Z.eqb_spec (Z.of_nat (length p)) 0) as [Hz|Hz].
  { destruct p; [|done]. rewrite app_nil_r in Ht.
    assert (Hn : n = Z.of_nat (length d)) by (unfold n; rewrite Hlen; cbn; zlia).
    destruct Hlim as [-> |Hlim].
    - cbn in Hn. rewrite Hn. case_if; [|done]. exists [], 0%nat. split_and!; [done|done|constructor|lia|by rewrite <- Ht].
    - case_if; zbool; [|exfalso; lia]. exists d, 0%nat. rewrite Ht, app_nil_r. split_and!; auto; [by rewrite Hn|lia]. }
  rewrite ngx_align_8 by lia. set (m := (Z.of_nat (length p) + 7) / 8).
  assert (Hn : n = Z.of_nat (length d) + m) by (unfold n, m; rewrite Hlen; zlia).
  assert (Hm : 8 * m - 8 < Z.of_nat (length p) <= 8 * m /\ 0 < m <= 8) by (unfold m; zlia).
  replace (8 * m / 8) with m by zlia. rewrite <- Hn.
  destruct (Z.ltb_spec n (Z.of_nat (length src))) as [Hlt|Hge];
    destruct (Z.leb_spec (Z.of_nat (length src)) n); try (exfalso; lia); [|done].
  set (w := Z.lor _ _). set (k := (8 * Z.to_nat m - length p)%nat).
  assert (Hw : bits (8 * Z.to_nat m) (Z.shiftr w (64 - 8 * m)) = p ++ ones k).
  { assert (H64 : bits 64 w = p ++ ones (64 - length p)).
    { unfold w. rewrite bits_lor, Hh, (bits_ones 64 (length p)) by (done || lia).
      replace (zeros (64 - length p)) with (zeros (length (ones (64 - length p)))) by (by rewrite length_replicate).
      apply zip_orb_fill. }
    replace (64 - 8 * m) with (Z.of_nat (64 - 8 * Z.to_nat m)) by lia.
    replace 64%nat with (8 * Z.to_nat m + (64 - 8 * Z.to_nat m))%nat in H64 at 1 by lia. rewrite bits_add in H64.
    replace (64 - length p)%nat with (k + (64 - 8 * Z.to_nat m))%nat in H64 by lia.
    rewrite replicate_add, app_assoc in H64. apply app_inj_1 in H64 as [H64 _]; [done|].
    rewrite length_bits, length_app, length_replicate. lia. }
  destruct (encode_tail_bits (Z.to_nat m) (Z.shiftr w (64 - 8 * m))) as (Ht1 & Ht2 & Ht3).
  exists (d ++ huff_encode_tail (Z.to_nat m) (Z.shiftr w (64 - 8 * m))), k.
  rewrite length_app, Ht3. replace (Z.of_nat (length d + Z.to_nat m)) with n by lia. split_and!; [done|done| |lia|].
  - by apply Forall_app.
  - by rewrite text_bits_app, Ht1, Hw, app_assoc, Ht.
Qed.

(** ** The automaton of the decoder

    Every state stands for the bits read since the last complete code.  [prefixes]
    collects them by following the table from state 0. *)

Fixpoint strip (p w : list bool) : option (list bool) :=
  match p, w with
  | [], _ => Some w
  | a :: p, b :: w => if Bool.eqb a b then strip p w else None
  | _ :: _, [] => None
  end.

Lemma strip_spec p w r : strip p w = Some r <-> w = p ++ r.
Proof.
  revert w. induction p as [|a p IH]; intros w; cbn; [naive_solver|].
  destruct w as [|b w]; [naive_solver|]. destruct (eqb_spec a b); rewrite ?IH; naive_solver.
Qed.

(** The word left when [n] is read after [w] in a state whose entry is [c]. *)
Definition after_half (c : huff_decode_code) (w : list bool) (n : Z) : option (list bool) :=
  if emit c =? 0 then Some (w ++ bits 4 n) else strip (code_bits (sym c)) (w ++ bits 4 n).

Definition relax (t : list (option (list bool))) (qn : Z * Z) : list (option (list bool)) :=
  let '(q, n) := qn in
  let c := huff_decode_entry q n in
  match t !! Z.to_nat q with
  | Some (Some w) => if next c =? q then t else <[Z.to_nat (next c) := after_half c w n]> t
  | _ => t
  end.

Definition halves : list (Z * Z) :=
  flat_map (fun q => map (fun n => (Z.of_nat q, Z.of_nat n)) (seq 0 16)) (seq 0 256).

Definition explore (rounds : nat) : list (option (list bool)) :=
  Nat.iter rounds (fun t => fold_left relax halves t) (Some [] :: replicate 255 None).

Definition prefixes : list (list bool) := Eval vm_compute in map (default []) (explore 8).

Definition prefix_of (q : Z) : list bool := nth (Z.to_nat q) prefixes [].

(** One of the words continues the other. *)
Fixpoint comparable (p w : list bool) : bool :=
  match p, w with
  | a :: p, b :: w => Bool.eqb a b && comparable p w
  | _, _ => true
  end.

Fixpoint starts (p w : list bool) : bool :=
  match p, w with
  | [], _ => true
  | a :: p, b :: w => Bool.eqb a b && starts p w
  | _ :: _, [] => false
  end.

Definition all_ones (w : list bool) : bool := forallb (fun b => b) w.

(** The code of every byte. *)
Definition code_words : list (list bool) :=
  Eval vm_compute in map (fun n => code_bits (Z.of_nat n)) (seq 0 256).

Definition half_check (q n : Z) : bool :=
  let c := huff_decode_entry q n in
  let w := prefix_of q ++ bits 4 n in
  if next c =? q
  then forallb (fun s => negb (comparable s w)) code_words && (negb (all_ones w) || (30 <=? Z.of_nat (length w)))
  else (0 <=? next c) && (next c <? 256) && (0 <=? sym c) && (sym c <? 256)
       && bool_decide (after_half c (prefix_of q) n = Some (prefix_of (next c)))
       && bool_decide (negb (ending c =? 0) = all_ones (prefix_of (next c))).

Definition state_check (q : Z) : bool :=
  all_below 16 (half_check q) && (Z.of_nat (length (prefix_of q)) <? 30)
  && forallb (fun s => negb (starts s (prefix_of q))) code_words.

(** No code is all ones or continues another one. *)
Fixpoint codes_check (l : list (list bool)) : bool :=
  match l with
  | [] => true
  | s :: l => negb (all_ones s) && forallb (fun s' => negb (comparable s s')) l && codes_check l
  end.

Lemma automaton_checks : all_below 256 state_check = true.
Proof. vm_compute. reflexivity. Qed.

Lemma codes_checks : codes_check code_words = true.
Proof. vm_compute. reflexivity. Qed.

Lemma code_words_lookup s : is_byte s -> code_words !! Z.to_nat s = Some (code_bits s).
Proof.
  intros Hs. assert (H : code_words = map (fun n => code_bits (Z.of_nat n)) (seq 0 256)) by (vm_compute; reflexivity).
  rewrite H, list_lookup_fmap. unfold is_byte in Hs. rewrite lookup_seq_lt by lia. cbn. do 2 f_equal. lia.
Qed.

Lemma forallb_codes (p : list bool -> bool) s : forallb p code_words = true -> is_byte s -> p (code_bits s) = true.
Proof.
  intros H Hs. rewrite forallb_forall in H. apply H. apply list_elem_of_In. eapply list_elem_of_lookup_2.
  by apply code_words_lookup.
Qed.

Lemma codes_check_spec l : codes_check l = true -> forall i j s s',
  l !! i = Some s -> l !! j = Some s' -> all_ones s = false /\ ((i < j)%nat -> comparable s s' = false).
Proof.
  induction l as [|w l IH]; intros H i j s s' Hi Hj; [done|]. cbn [codes_check] in H. zbool.
  destruct i as [|i]; cbn in Hi.
  - simplify_eq. split; [done|]. intros Hlt. destruct j as [|j]; [lia|]. cbn in Hj.
    match goal with Hf : forallb _ _ = true |- _ => rewrite forallb_forall in Hf;
      specialize (Hf s' (proj1 (list_elem_of_In _ _) (list_elem_of_lookup_2 _ _ _ Hj))) end. by zbool.
  - destruct j as [|j]; cbn in Hj.
    + split; [|lia]. by apply (IH ltac:(done) i i s s).
    + destruct (IH ltac:(done) i j s s' Hi Hj). split; [done|]. intros. auto with lia.
Qed.

Definition is_state (q : Z) : Prop := 0 <= q < 256.

Lemma comparable_app p w r r' : w ++ r = p ++ r' -> comparable p w = true.
Proof.
  revert w. induction p as [|a p IH]; intros [|b w] H; try done. cbn in *. injection H as -> H.
  rewrite Bool.eqb_reflx. by apply IH.
Qed.

Lemma starts_app p r : starts p (p ++ r) = true.
Proof. induction p as [|a p IH]; [done|]. cbn. by rewrite Bool.eqb_reflx. Qed.

Lemma all_ones_spec w : all_ones w = true <-> w = ones (length w).
Proof.
  induction w as [|b w IH]; [done|]. cbn. rewrite andb_true_iff, IH. destruct b.
  - split; [intros [_ H]; by rewrite <- H|intros [= H]; auto].
  - split; [by intros [? _]|done].
Qed.

Lemma ones_app_inv w r k : w ++ r = ones k -> w = ones (length w) /\ (length w <= k)%nat /\ r = ones (k - length w).
Proof.
  intros H. assert (Hk : length (w ++ r) = k) by (by rewrite H, length_replicate). rewrite length_app in Hk.
  replace k with (length w + (k - length w))%nat in H by lia. rewrite replicate_add in H.
  apply app_inj_1 in H as [H1 H2]; [|by rewrite length_replicate]. by split_and!; [|lia|].
Qed.

(** What one half byte does, as an equation between words. *)
Lemma half_step q n dst :
  is_state q -> 0 <= n < 16 ->
  match ngx_http_huff_decode_bits q n dst with
  | Some (q', e, dst') => is_state q' /\ (e =? 0) = negb (all_ones (prefix_of q')) /\ exists o,
      dst' = dst ++ o /\ bytes_ok o /\ prefix_of q ++ bits 4 n = encode_bits o ++ prefix_of q'
  | None => (forall s r r', is_byte s -> (prefix_of q ++ bits 4 n) ++ r <> code_bits s ++ r')
      /\ (forall k r, (k < 30)%nat -> (prefix_of q ++ bits 4 n) ++ r <> ones k)
  end.
Proof.
  intros Hq Hn. pose proof (all_bytes_spec _ automaton_checks q Hq) as H.
  unfold state_check in H. zbool. apply (all_below_spec 16 _ H) in Hn. clear H. rename Hn into H.
  unfold half_check in H. unfold ngx_http_huff_decode_bits. cbv zeta in *.
  set (c := huff_decode_entry q n) in *. set (w := prefix_of q ++ bits 4 n) in *.
  destruct (next c =? q) eqn:E; zbool.
  - split.
    + intros s r r' Hs Heq. apply (forallb_codes _ s H) in Hs. apply comparable_app in Heq. by rewrite Heq in Hs.
    + intros k r Hk Heq. apply ones_app_inv in Heq as (Hw & Hl & _). apply all_ones_spec in Hw.
      match goal with Ho : negb (all_ones w) || _ = true |- _ =>
        rewrite Hw in Ho; cbn [negb orb] in Ho; apply Z.leb_le in Ho; lia end.
  - rewrite bool_decide_eq_true in *. split; [by split|].
    match goal with Hend : negb (ending c =? 0) = _ |- _ => rewrite <- Hend end.
    rewrite negb_involutive. split; [done|].
    match goal with Hah : after_half _ _ _ = _ |- _ => unfold after_half in Hah; destruct (emit c =? 0) end.
    + exists []. rewrite app_nil_r. split_and!; [done|done|]. by simplify_eq.
    + exists [sym c]. split_and!; [done|by repeat constructor|]. unfold encode_bits. cbn [flat_map].
      rewrite app_nil_r. by apply strip_spec.
Qed.

(** *** Runs over half bytes *)

Definition halves_of (src : list Z) : list Z := flat_map (fun c => [Z.shiftr c 4; Z.land c 0xf]) src.

Fixpoint half_run (ns : list Z) (q e : Z) (dst : list Z) : option (Z * Z * list Z) :=
  match ns with
  | [] => Some (q, e, dst)
  | n :: ns => '(q, e, dst) ← ngx_http_huff_decode_bits q n dst; half_run ns q e dst
  end.

Lemma decode_loop_halves src : forall q e dst,
  huff_decode_loop src q e dst = half_run (halves_of src) q e dst.
Proof.
  induction src as [|c src IH]; intros q e dst; [done|]. cbn [huff_decode_loop halves_of flat_map app half_run].
  destruct (ngx_http_huff_decode_bits q _ dst) as [[[q1 e1] d1]|]; [cbn [mbind option_bind]|done].
  destruct (ngx_http_huff_decode_bits q1 _ d1) as [[[q2 e2] d2]|]; [cbn [mbind option_bind]|done]. apply IH.
Qed.

Abbreviation half_ok := (Forall (fun n => 0 <= n < 16)).

Lemma halves_of_text src :
  bytes_ok src -> half_ok (halves_of src) /\ flat_map (bits 4) (halves_of src) = text_bits src.
Proof.
  induction 1 as [|c src Hc Hs [IH1 IH2]]; [done|]. unfold halves_of, text_bits in *. cbn [flat_map app]. split.
  - unfold is_byte in Hc. repeat constructor; try done; bits_to_arith; zlia.
  - rewrite IH2, app_assoc. f_equal. change (bits 8 c) with (bits (4 + 4) c). rewrite bits_add. f_equal. apply bits_ext. intros i Hi.
    rewrite Z.land_spec. change 0xf with (Z.ones 4). rewrite Z.ones_spec_low by lia. apply andb_true_r.
Qed.

Lemma half_run_sound ns : forall q e dst q' e' dst',
  half_ok ns -> is_state q -> (e =? 0) = negb (all_ones (prefix_of q)) ->
  half_run ns q e dst = Some (q', e', dst') ->
  is_state q' /\ (e' =? 0) = negb (all_ones (prefix_of q')) /\ exists o,
    dst' = dst ++ o /\ bytes_ok o /\ prefix_of q ++ flat_map (bits 4) ns = encode_bits o ++ prefix_of q'.
Proof.
  induction ns as [|n ns IH]; intros q e dst q' e' dst' Hns Hq He H; cbn [half_run flat_map] in *.
  { simplify_eq. split_and!; auto. exists []. by rewrite !app_nil_r. }
  apply Forall_cons_1 in Hns as [Hn Hns]. pose proof (half_step q n dst Hq Hn) as Hst.
  destruct (ngx_http_huff_decode_bits q n dst) as [[[q1 e1] d1]|]; [cbn [mbind option_bind] in H|done].
  destruct Hst as (Hq1 & He1 & o1 & -> & Ho1 & Hw1).
  apply (IH _ _ _ _ _ _ Hns Hq1 He1) in H as (Hq' & He' & o & -> & Ho & Hw). split_and!; auto.
  exists (o1 ++ o). split_and!; [by rewrite app_assoc|by apply Forall_app|].
  unfold encode_bits in *. by rewrite flat_map_app, app_assoc, Hw1, <- !app_assoc, Hw.
Qed.

(** The codes of two strings can be peeled off one at a time. *)
Lemma code_bits_inj s s' r r' :
  is_byte s -> is_byte s' -> code_bits s ++ r = code_bits s' ++ r' -> s = s' /\ r = r'.
Proof.
  intros Hs Hs' H. pose proof (codes_check_spec _ codes_checks) as Hc.
  pose proof (comparable_app _ _ _ _ H). pose proof (comparable_app _ _ _ _ (eq_sym H)).
  destruct (Hc _ _ _ _ (code_words_lookup s Hs) (code_words_lookup s' Hs')) as [_ Hc1].
  destruct (Hc _ _ _ _ (code_words_lookup s' Hs') (code_words_lookup s Hs)) as [_ Hc2]. unfold is_byte in *.
  destruct (Z.lt_trichotomy s s') as [Hlt|[->|Hlt]].
  - rewrite Hc1 in * by lia. done.
  - split; [done|by apply app_inv_head in H].
  - rewrite Hc2 in * by lia. done.
Qed.

Lemma code_not_ones s k r : is_byte s -> code_bits s ++ r <> ones k.
Proof.
  intros Hs H. pose proof (code_words_lookup s Hs) as Hl.
  pose proof (codes_check_spec _ codes_checks _ _ _ _ Hl Hl) as [Hc _].
  apply ones_app_inv in H as (H & _). apply all_ones_spec in H. congruence.
Qed.

Lemma prefix_open q s r : is_state q -> is_byte s -> prefix_of q <> code_bits s ++ r.
Proof.
  intros Hq Hs H. pose proof (all_bytes_spec _ automaton_checks q Hq) as Hc. unfold state_check in Hc. zbool.
  match goal with H1 : forallb _ _ = true |- _ => apply (forallb_codes _ s H1) in Hs end.
  by rewrite H, starts_app in Hs.
Qed.

Lemma prefix_length q : is_state q -> (length (prefix_of q) < 30)%nat.
Proof.
  intros Hq. pose proof (all_bytes_spec _ automaton_checks q Hq) as Hc. unfold state_check in Hc. zbool. lia.
Qed.

Lemma encode_bits_strip o1 : forall o r k,
  bytes_ok o1 -> bytes_ok o -> encode_bits o1 ++ r = encode_bits o ++ ones k ->
  exists o2, o = o1 ++ o2 /\ r = encode_bits o2 ++ ones k.
Proof.
  induction o1 as [|s o1 IH]; intros o r k H1 Ho H; [by exists o|].
  apply Forall_cons_1 in H1 as [Hs H1]. unfold encode_bits in H. cbn [flat_map] in H. rewrite <- app_assoc in H.
  destruct o as [|s' o]; cbn [flat_map app] in H; [by apply code_not_ones in H|].
  apply Forall_cons_1 in Ho as [Hs' Ho]. rewrite <- app_assoc in H.
  apply code_bits_inj in H as [-> H]; [|done..]. apply IH in H as (o2 & -> & ->); [|done..]. by exists o2.
Qed.

Lemma half_run_complete ns : forall q e dst o k,
  half_ok ns -> is_state q -> bytes_ok o -> (k < 30)%nat -> (e =? 0) = negb (all_ones (prefix_of q)) ->
  prefix_of q ++ flat_map (bits 4) ns = encode_bits o ++ ones k ->
  exists q' e', half_run ns q e dst = Some (q', e', dst ++ o) /\ prefix_of q' = ones k /\ (e' =? 0) = false.
Proof.
  induction ns as [|n ns IH]; intros q e dst o k Hns Hq Ho Hk He H; cbn [half_run flat_map] in *.
  { rewrite app_nil_r in H. destruct o as [|s o].
    - exists q, e. unfold encode_bits in H. cbn [flat_map app] in H. rewrite app_nil_r, He, H. split_and!; [done|done|].
      rewrite (proj2 (all_ones_spec (ones k))); [done|]. by rewrite length_replicate.
    - apply Forall_cons_1 in Ho as [Hs Ho]. unfold encode_bits in H. cbn [flat_map] in H. rewrite <- app_assoc in H.
      by apply prefix_open in H. }
  apply Forall_cons_1 in Hns as [Hn Hns]. pose proof (half_step q n dst Hq Hn) as Hst. rewrite app_assoc in H.
  destruct (ngx_http_huff_decode_bits q n dst) as [[[q1 e1] d1]|]; cbn [mbind option_bind].
  - destruct Hst as (Hq1 & He1 & o1 & -> & Ho1 & Hw1). rewrite Hw1, <- app_assoc in H.
    apply encode_bits_strip in H as (o2 & -> & H); [|done..]. apply Forall_app in Ho as [_ Ho].
    destruct (IH q1 e1 (dst ++ o1) o2 k) as (q' & e' & Hr & Hq' & He'); auto.
    exists q', e'. by rewrite app_assoc.
  - destruct Hst as [Hst1 Hst2]. destruct o as [|s o]; [by apply Hst2 in H|].
    unfold encode_bits in H. cbn [flat_map] in H. rewrite <- (app_assoc (code_bits s)) in H. apply Forall_cons_1 in Ho as [Hs _].
    by apply Hst1 in H.
Qed.

Lemma decode_spec (src out : list Z) :
  bytes_ok src ->
  ngx_http_huff_decode 0 src [] true = Some (0, out)
  <-> bytes_ok out /\ exists k, (k < 30)%nat /\ text_bits src = encode_bits out ++ ones k.
Proof.
  intros Hs. destruct (halves_of_text src Hs) as [Hh Ht]. unfold ngx_http_huff_decode. rewrite decode_loop_halves.
  assert (H0 : is_state 0 /\ (1 =? 0) = negb (all_ones (prefix_of 0))) by done. destruct H0 as [Hq0 He0]. split.
  - intros H. destruct (half_run _ _ _ _) as [[[q e] dst]|] eqn:E; [cbn [mbind option_bind] in H|done].
    apply half_run_sound in E as (Hq & He & o & -> & Ho & Hw); [|done..]. cbn [app] in H.
    destruct (e =? 0); simplify_eq. split; [done|]. exists (length (prefix_of q)). split; [by apply prefix_length|].
    rewrite <- Ht. symmetry in He. apply negb_false_iff, all_ones_spec in He. rewrite <- He. exact Hw.
  - intros (Ho & k & Hk & Hw). rewrite <- Ht in Hw.
    destruct (half_run_complete (halves_of src) 0 1 [] out k) as (q & e & -> & _ & He); auto.
    cbn [mbind option_bind app]. by rewrite He.
Qed.

Lemma decode_loop_app a b : forall q e dst,
  huff_decode_loop (a ++ b) q e dst
  = ('(q, e, dst) ← huff_decode_loop a q e dst; huff_decode_loop b q e dst).
Proof.
  induction a as [|c a IH]; intros q e dst; [done|]. cbn [app huff_decode_loop].
  destruct (ngx_http_huff_decode_bits q _ dst) as [[[q1 e1] d1]|]; [cbn [mbind option_bind]|done].
  destruct (ngx_http_huff_decode_bits q1 _ d1) as [[[q2 e2] d2]|]; [cbn [mbind option_bind]|done]. apply IH.
Qed.

(** C14. The decoder accepts a byte string and returns [out] exactly when the string is
    the codes of [out] followed by at most 29 one bits (a proper prefix of the
    end-of-string code), and a string that arrives in pieces is decoded as if it had
    arrived whole. *)
Theorem huffman_decode_correct (src out : list Z) (Hs : bytes_ok src) :
  (ngx_http_huff_decode 0 src [] true = Some (0, out)
   <-> bytes_ok out /\ exists k, (k < 30)%nat /\ text_bits src = encode_bits out ++ replicate k true)
  /\ forall a c b last, src = a ++ c :: b ->
     ngx_http_huff_decode 0 src [] last
     = ('(q, dst) ← ngx_http_huff_decode 0 a [] false; ngx_http_huff_decode q (c :: b) dst last).
Proof.
  split; [by apply decode_spec|]. intros a c b last ->. unfold ngx_http_huff_decode. rewrite decode_loop_app.
  by destruct (huff_decode_loop a 0 1 []) as [[[q e] dst]|].
Qed.

Lemma huffman_decode_correct_witness :
  bytes_ok [0xf1; 0xe3; 0xc7; 0xff; 0xff] /\
  bytes_ok (str("www")) /\ exists k, (k < 30)%nat
    /\ text_bits [0xf1; 0xe3; 0xc7; 0xff; 0xff] = encode_bits (str("www")) ++ replicate k true.
Proof.
  split; [by_evaluation|].
  apply (proj1 (huffman_decode_correct [0xf1; 0xe3; 0xc7; 0xff; 0xff] (str("www")) ltac:(by_evaluation))).
  vm_compute. reflexivity.
Defined.

(** C15. What the encoder returns: zero when the codes of the string do not fit in fewer
    bytes than the string has, and otherwise their exact number of bytes, with the
    codes followed by fewer than eight one bits in the buffer; and the decoder gives
    the string back (in lower case when that was asked for). *)
Theorem huffman_roundtrip (src : list Z) (lower : bool) (Hs : bytes_ok src) :
  let b := encode_bits (lowered lower src) in
  let n := (Z.of_nat (length b) + 7) / 8 in
  if n <? Z.of_nat (length src) then exists dst k,
    ngx_http_huff_encode src lower = (n, dst) /\ Z.of_nat (length dst) = n /\ bytes_ok dst
    /\ (k < 8)%nat /\ text_bits dst = b ++ replicate k true
    /\ ngx_http_huff_decode 0 dst [] true = Some (0, lowered lower src)
  else fst (ngx_http_huff_encode src lower) = 0.
Proof.
  pose proof (encode_spec src lower Hs) as H. cbn zeta in *.
  destruct (_ <? _); [|done]. destruct H as (dst & k & H1 & H2 & H3 & H4 & H5). exists dst, k.
  split_and!; auto. apply decode_spec; [done|]. split; [|exists k; split; [lia|done]].
  unfold lowered. destruct lower; [|done]. apply Forall_map. eapply Forall_impl; [|exact Hs].
  intros c Hc. unfold is_byte, tolower in *. case_if; zbool; lia.
Qed.

Lemma huffman_roundtrip_witness :
  let '(n, dst) := ngx_http_huff_encode (str("Www.Example.COM")) true in
  n = 12 /\ ngx_http_huff_decode 0 dst [] true = Some (0, str("www.example.com")).
Proof.
  destruct (huffman_roundtrip (str("Www.Example.COM")) true ltac:(by_evaluation)) as (dst & k & -> & _ & _ & _ & _ & H).
  split; [vm_compute; reflexivity|exact H].
Defined.
