(* ===== verification/HpackInt.v ===== *)
(** * HPACK integers: ngx_http_v2_write_int of ngx_http_v2_encode.c and
    ngx_http_v2_parse_int of ngx_http_v2.c

    An integer is written after the flag bits of a byte: in the low bits when it is
    smaller than the prefix, otherwise as the prefix followed by groups of seven bits.
    The reader gives up after NGX_HTTP_V2_INT_OCTETS bytes. *)

From S2P Require Import Prelude.

Definition NGX_HTTP_V2_INT_OCTETS : Z := 4.

Definition ngx_http_v2_prefix (bits : Z) : Z := Z.shiftl 1 bits - 1.

(** ** Writing *)

(** The loop over the groups; a 64-bit value has at most ten of them. *)
Fixpoint write_groups (fuel : nat) (value : Z) : list Z :=
  match fuel with
  | O => []
  | S fuel =>
      if 128 <=? value then (value mod 128 + 128) :: write_groups fuel (value / 128)
      else [u8 value]
  end.

(** ngx_http_v2_write_int, at a position that holds [first]. *)
Definition ngx_http_v2_write_int (first prefix value : Z) : list Z :=
  if value <? prefix then [u8 (Z.lor first value)]
  else u8 (Z.lor first prefix) :: write_groups 10 (value - prefix).

(** ** Reading *)

Inductive parsed_int :=
| IntValue (value : Z) (rest : list Z) (length_ : Z)
| IntError                                           (** NGX_ERROR *)
| IntDeclined                                        (** NGX_DECLINED *)
| IntAgain.                                          (** NGX_AGAIN *)

(** The loop: [n] bytes were read, [l] is what is left before [end]; at the end of the
    window, [None]. *)
Fixpoint parse_groups (value shift : Z) (n : Z) (l : list Z) : option (Z * Z * list Z) :=
  match l with
  | [] => None
  | octet :: l =>
      let value := u64 (value + u64 (Z.shiftl (Z.land octet 0x7f) shift)) in
      let n := n + 1 in
      if octet <? 128 then Some (value, n, l) else parse_groups value (shift + 7) n l
  end.

(** ngx_http_v2_parse_int on the bytes [*pos .. end), the first of which exists;
    [length_] is h2c->state.length. *)
Definition ngx_http_v2_parse_int (length_ prefix : Z) (first : Z) (l : list Z) : parsed_int :=
  let value := Z.land first prefix in
  if negb (value =? prefix) then
    if length_ =? 0 then IntError else IntValue value l (length_ - 1)
  else
    let avail := 1 + Z.of_nat (length l) in
    let end_ := if NGX_HTTP_V2_INT_OCTETS <? avail then NGX_HTTP_V2_INT_OCTETS else avail in
    let w := take (Z.to_nat (end_ - 1)) l in
    match parse_groups value 0 1 w with
    | Some (value, n, rest) =>
        if length_ <? n then IntError
        else IntValue value (rest ++ drop (Z.to_nat (end_ - 1)) l) (length_ - n)
    | None =>
        if length_ <=? end_ then IntError
        else if end_ =? NGX_HTTP_V2_INT_OCTETS then IntDeclined
        else IntAgain
    end.

Example int_ex : (* RFC 7541, C.1.2 *)
  ngx_http_v2_write_int 0 (ngx_http_v2_prefix 5) 1337 = [31; 154; 10]
  /\ ngx_http_v2_parse_int 100 (ngx_http_v2_prefix 5) 31 [154; 10; 7] = IntValue 1337 [7] 97.
Proof. vm_compute. auto. Qed.

(** ** Groups of seven bits *)

Lemma land_127 a : Z.land a 0x7f = a mod 128.
Proof. by bits_to_arith. Qed.

(** The number of groups of a value. *)
Definition groups (fuel : nat) (value : Z) : Z := Z.of_nat (length (write_groups fuel value)).

Lemma group_rest fuel value :
  0 <= value < 128 ^ Z.of_nat (S (S fuel)) -> 0 <= value / 128 < 128 ^ Z.of_nat (S fuel).
Proof.
  intros H. split; [zlia|]. apply Z.div_lt_upper_bound; [lia|].
  rewrite Nat2Z.inj_succ, Z.pow_succ_r in H by lia. lia.
Qed.

Lemma write_groups_S fuel value :
  write_groups (S fuel) value
  = if 128 <=? value then (value mod 128 + 128) :: write_groups fuel (value / 128) else [u8 value].
Proof. done. Qed.

Lemma parse_last value acc shift n rest :
  0 <= value < 128 -> 0 <= shift -> 0 <= acc -> acc + value * 2 ^ shift < 2 ^ 64 ->
  parse_groups acc shift n (u8 value :: rest) = Some (acc + value * 2 ^ shift, n + 1, rest).
Proof.
  intros Hv Hs Ha Hb. assert (Hp : 0 < 2 ^ shift) by (apply Z.pow_pos_nonneg; lia). cbn [parse_groups].
  rewrite land_127, Z.shiftl_mul_pow2, (wrap_small 8) by (unfold in_u; lia).
  rewrite (Z.mod_small value) by lia. rewrite (wrap_small 64 (_ * _)) by (unfold in_u; nia).
  rewrite (wrap_small 64) by (unfold in_u; nia).
  destruct (Z.ltb_spec value 128); [done|lia].
Qed.

Lemma parse_next value acc shift n rest :
  0 <= value -> 0 <= shift -> 0 <= acc -> acc + value * 2 ^ shift < 2 ^ 64 ->
  parse_groups acc shift n ((value mod 128 + 128) :: rest)
  = parse_groups (acc + value mod 128 * 2 ^ shift) (shift + 7) (n + 1) rest.
Proof.
  intros Hv Hs Ha Hb. assert (Hp : 0 < 2 ^ shift) by (apply Z.pow_pos_nonneg; lia). cbn [parse_groups].
  assert (Hm : (value mod 128 + 128) mod 128 = value mod 128) by zlia.
  rewrite land_127, Hm, Z.shiftl_mul_pow2 by lia.
  assert (Hr : 0 <= value mod 128 <= value) by zlia. assert (value mod 128 < 128) by zlia.
  rewrite (wrap_small 64 (_ * _)) by (unfold in_u; nia). rewrite (wrap_small 64) by (unfold in_u; nia).
  destruct (Z.ltb_spec (value mod 128 + 128) 128); [lia|done].
Qed.

Lemma write_groups_parse fuel : forall value acc shift n rest,
  0 <= value < 128 ^ Z.of_nat (S fuel) -> 0 <= shift -> 0 <= acc -> acc + value * 2 ^ shift < 2 ^ 64 ->
  parse_groups acc shift n (write_groups (S fuel) value ++ rest)
  = Some (acc + value * 2 ^ shift, n + groups (S fuel) value, rest).
Proof.
  unfold groups. induction fuel as [|fuel IH]; intros value acc shift n rest Hv Hs Ha Hb; rewrite write_groups_S;
    (destruct (Z.leb_spec 128 value) as [Hge|Hlt]; [|cbn [app length]; apply parse_last; lia]).
  - change (128 ^ Z.of_nat 1) with 128 in Hv. lia.
  - assert (Hp : 0 < 2 ^ shift) by (apply Z.pow_pos_nonneg; lia).
    assert (H7 : 2 ^ (shift + 7) = 128 * 2 ^ shift) by (rewrite Z.pow_add_r by lia; lia).
    assert (Hq : value = 128 * (value / 128) + value mod 128) by zlia.
    assert (Hr : 0 <= value mod 128 < 128) by zlia. apply group_rest in Hv.
    rewrite <- app_comm_cons, parse_next by lia. rewrite IH; rewrite ?H7; [|done|lia|nia|nia].
    rewrite length_cons. f_equal. f_equal. f_equal; nia || lia.
Qed.

(** Every byte but the last has the continuation bit. *)
Lemma parse_groups_cut fuel : forall value acc shift n k,
  0 <= value < 128 ^ Z.of_nat (S fuel) -> (k < length (write_groups (S fuel) value))%nat ->
  parse_groups acc shift n (take k (write_groups (S fuel) value)) = None.
Proof.
  induction fuel as [|fuel IH]; intros value acc shift n k Hv; rewrite write_groups_S;
    (destruct (Z.leb_spec 128 value) as [Hge|Hlt]; [|destruct k; cbn; [done|lia]]).
  - change (128 ^ Z.of_nat 1) with 128 in Hv. lia.
  - destruct k as [|k]; [done|]. intros Hk. cbn [take parse_groups].
    destruct (Z.ltb_spec (value mod 128 + 128) 128); [zlia|]. rewrite length_cons in Hk.
    apply IH; [by apply group_rest|lia].
Qed.

Lemma groups_small value : 0 <= value < 2 ^ 64 -> (groups 10 value <= 3 <-> value < 2 ^ 21).
Proof.
  intros Hv. unfold groups. cbn [write_groups].
  destruct (Z.leb_spec 128 value); cbn [length]; [|lia].
  destruct (Z.leb_spec 128 (value / 128)); cbn [length]; [|revert H0; zlia].
  destruct (Z.leb_spec 128 (value / 128 / 128)); cbn [length].
  - assert (2 ^ 21 <= value) by (revert H1; zlia). split; [|lia]. intros Hl. exfalso.
    destruct (128 <=? value / 128 / 128 / 128); cbn [length] in Hl; lia.
  - split; [|lia]. intros _. revert H1. zlia.
Qed.

(** ** The first byte *)

Lemma prefix_range k : 1 <= k <= 8 -> ngx_http_v2_prefix k = 2 ^ k - 1 /\ 1 <= ngx_http_v2_prefix k < 256.
Proof.
  intros Hk. unfold ngx_http_v2_prefix. rewrite Z.shiftl_mul_pow2, Z.mul_1_l by lia. split; [done|].
  pose proof (Z.pow_le_mono_r 2 1 k). pose proof (Z.pow_le_mono_r 2 k 8). lia.
Qed.

(** The value written under the flag bits is read back. *)
Lemma first_byte k first v :
  1 <= k <= 8 -> Z.land first (ngx_http_v2_prefix k) = 0 -> 0 <= v <= ngx_http_v2_prefix k ->
  Z.land (u8 (Z.lor first v)) (ngx_http_v2_prefix k) = v.
Proof.
  intros Hk Hf Hv. destruct (prefix_range k Hk) as [Hp _].
  assert (Hu : u8 (Z.lor first v) = Z.land (Z.lor first v) (Z.ones 8)) by (by rewrite Z.land_ones).
  assert (Hm : Z.land (Z.ones 8) (ngx_http_v2_prefix k) = ngx_http_v2_prefix k).
  { apply Z.eqb_eq. revert Hk. clear. intros Hk.
    assert (H : all_below 9 (fun k => Z.land (Z.ones 8) (ngx_http_v2_prefix k) =? ngx_http_v2_prefix k) = true)
      by reflexivity.
    apply (all_below_spec _ _ H). lia. }
  rewrite Hu, <- Z.land_assoc, Hm, Z.land_lor_distr_l, Hf, Z.lor_0_l, Hp, land_mask by lia.
  apply Z.mod_small. lia.
Qed.

(** The integer codec: a value below the prefix plus 2^21 is written in at most four
    bytes and read back exactly, leaving the following bytes and the rest of the frame;
    the reader asks for more on every proper prefix of it, refuses a value that runs
    over the end of the frame, and declines every longer encoding. *)
Theorem hpack_int_roundtrip (k first v length_ : Z) (rest : list Z)
    (Hk : 1 <= k <= 8) (Hf : Z.land first (ngx_http_v2_prefix k) = 0) (Hv : 0 <= v < 2 ^ 64) (Hl : 0 <= length_) :
  exists b l, ngx_http_v2_write_int first (ngx_http_v2_prefix k) v = b :: l
    /\ let n := 1 + Z.of_nat (length l) in
       (n <= NGX_HTTP_V2_INT_OCTETS <-> v < ngx_http_v2_prefix k + 2 ^ 21)
       /\ (n <= NGX_HTTP_V2_INT_OCTETS ->
           ngx_http_v2_parse_int length_ (ngx_http_v2_prefix k) b (l ++ rest)
           = if length_ <? n then IntError else IntValue v rest (length_ - n))
       /\ (forall j, (j < length l)%nat -> Z.of_nat j + 1 < NGX_HTTP_V2_INT_OCTETS -> Z.of_nat j + 1 < length_ ->
           ngx_http_v2_parse_int length_ (ngx_http_v2_prefix k) b (take j l) = IntAgain)
       /\ (NGX_HTTP_V2_INT_OCTETS < n -> NGX_HTTP_V2_INT_OCTETS < length_ ->
           ngx_http_v2_parse_int length_ (ngx_http_v2_prefix k) b (l ++ rest) = IntDeclined).
Proof.
  destruct (prefix_range k Hk) as [_ Hp]. unfold ngx_http_v2_write_int, NGX_HTTP_V2_INT_OCTETS.
  destruct (Z.ltb_spec v (ngx_http_v2_prefix k)) as [Hlt|Hge].
  - exists (u8 (Z.lor first v)), []. split; [done|]. cbn [length]. split_and!; [lia| |cbn; lia|lia].
    intros _. unfold ngx_http_v2_parse_int. rewrite first_byte by lia.
    destruct (Z.eqb_spec v (ngx_http_v2_prefix k)); [lia|]. cbn [negb].
    destruct (Z.eqb_spec length_ 0), (Z.ltb_spec length_ (1 + Z.of_nat 0)); try lia; done.
  - set (w := v - ngx_http_v2_prefix k). assert (Hw : 0 <= w < 2 ^ 64) by lia.
    assert (Hw10 : 0 <= w < 128 ^ Z.of_nat 10) by (change (128 ^ Z.of_nat 10) with (2 ^ 70); lia).
    exists (u8 (Z.lor first (ngx_http_v2_prefix k))), (write_groups 10 w). split; [done|].
    pose proof (groups_small w Hw) as Hg. unfold groups in Hg. set (l := write_groups 10 w) in *. cbn zeta.
    unfold ngx_http_v2_parse_int, NGX_HTTP_V2_INT_OCTETS. rewrite first_byte by lia.
    rewrite Z.eqb_refl. cbn [negb]. split_and!; [lia| | |].
    + intros Hn. rewrite length_app. set (e := if _ <? _ then _ else _).
      assert (He : (length l <= Z.to_nat (e - 1) <= length l + length rest)%nat)
        by (unfold e; destruct (Z.ltb_spec 4 (1 + Z.of_nat (length l + length rest))); lia).
      rewrite take_app, (take_ge l) by lia. unfold l at 1. rewrite write_groups_parse by (done || lia).
      fold l. unfold groups. fold l. change (2 ^ 0) with 1. replace (ngx_http_v2_prefix k + w * 1) with v by lia.
      destruct (length_ <? _); [done|]. by rewrite drop_app, (drop_ge l), app_nil_l, take_drop by lia.
    + intros j Hj Hj3 Hjl. rewrite length_take.
      assert (Hmin : (j `min` length l)%nat = j) by lia. rewrite Hmin.
      destruct (Z.ltb_spec 4 (1 + Z.of_nat j)); [lia|]. rewrite take_take.
      replace (Z.to_nat (1 + Z.of_nat j - 1) `min` j)%nat with j by lia.
      unfold l. rewrite parse_groups_cut by done. destruct (Z.leb_spec length_ (1 + Z.of_nat j)); [lia|].
      by destruct (Z.eqb_spec (1 + Z.of_nat j) 4); [lia|].
    + intros Hn Hlen. rewrite length_app. destruct (Z.ltb_spec 4 (1 + Z.of_nat (length l + length rest))); [|lia].
      change (Z.to_nat (4 - 1)) with 3%nat. rewrite take_app_le by lia. unfold l. rewrite parse_groups_cut by (done || (fold l; lia)).
      destruct (Z.leb_spec length_ 4); [lia|done].
Qed.

Lemma hpack_int_roundtrip_witness :
  ngx_http_v2_parse_int 100 (ngx_http_v2_prefix 7) 255 [0xac; 0x02; 7] = IntValue 427 [7] 97.
Proof.
  destruct (hpack_int_roundtrip 7 0x80 427 100 [7] ltac:(lia) eq_refl ltac:(lia) ltac:(lia))
    as (b & l & Hw & _ & H & _). vm_compute in Hw. injection Hw as <- <-. apply H. vm_compute. congruence.
Defined.
