(* ===== verification/HpackTable.v ===== *)
(** * The HPACK dynamic table: ngx_http_v2_table.c

    The decoder's table of header fields.  The strings live in a ring of 4096 bytes,
    the entries in a ring of pointers that grows by 64, and the structures the pointers
    lead to are recycled: [added], [deleted] and [reused] count insertions, evictions
    and recycled structures since the ring was last copied.

    Memory is explicit: [heap] is the list of allocated entry structures (a pointer is
    an index), a slot of the pointer ring that was never written is [None], and reading
    such a slot, or bytes outside the storage, has no result.  Allocations succeed, and
    the counters do not reach 2^64.

    The specification is the table of RFC 7541, section 4: a list of fields, the newest
    first, cut so that its size stays below a limit. *)

From S2P Require Import Prelude.

Definition NGX_HTTP_V2_TABLE_SIZE : Z := 4096.

Abbreviation header := (list Z * list Z)%type.

(** The static table. *)
Definition ngx_http_v2_static_table : list header :=
  [(str(":authority"), []); (str(":method"), str("GET")); (str(":method"), str("POST"));
   (str(":path"), str("/")); (str(":path"), str("/index.html")); (str(":scheme"), str("http"));
   (str(":scheme"), str("https")); (str(":status"), str("200")); (str(":status"), str("204"));
   (str(":status"), str("206")); (str(":status"), str("304")); (str(":status"), str("400"));
   (str(":status"), str("404")); (str(":status"), str("500")); (str("accept-charset"), []);
   (str("accept-encoding"), str("gzip, deflate")); (str("accept-language"), []);
   (str("accept-ranges"), []); (str("accept"), []); (str("access-control-allow-origin"), []);
   (str("age"), []); (str("allow"), []); (str("authorization"), []); (str("cache-control"), []);
   (str("content-disposition"), []); (str("content-encoding"), []); (str("content-language"), []);
   (str("content-length"), []); (str("content-location"), []); (str("content-range"), []);
   (str("content-type"), []); (str("cookie"), []); (str("date"), []); (str("etag"), []);
   (str("expect"), []); (str("expires"), []); (str("from"), []); (str("host"), []);
   (str("if-match"), []); (str("if-modified-since"), []); (str("if-none-match"), []);
   (str("if-range"), []); (str("if-unmodified-since"), []); (str("last-modified"), []);
   (str("link"), []); (str("location"), []); (str("max-forwards"), []);
   (str("proxy-authenticate"), []); (str("proxy-authorization"), []); (str("range"), []);
   (str("referer"), []); (str("refresh"), []); (str("retry-after"), []); (str("server"), []);
   (str("set-cookie"), []); (str("strict-transport-security"), []); (str("transfer-encoding"), []);
   (str("user-agent"), []); (str("vary"), []); (str("via"), []); (str("www-authenticate"), [])].

Definition NGX_HTTP_V2_STATIC_TABLE_ENTRIES : Z := Z.of_nat (length ngx_http_v2_static_table).

(** An entry structure: two strings in the storage, as offset and length. *)
Record entry := MkEntry { name_data : Z; name_len : Z; value_data : Z; value_len : Z }.

(** ngx_http_v2_hpack_t, with the entry structures and the storage it points to;
    [entries] is [None] for NULL. *)
Record hpack := MkHpack {
  entries : option (list (option nat));
  added : Z;
  deleted : Z;
  reused : Z;
  allocated : Z;
  size : Z;
  free : Z;
  storage : list Z;
  pos : Z;
  heap : list entry;
}.

(** The zeroed structure; [junk] is what the allocator will return as storage. *)
Definition hpack_init (junk : list Z) : hpack := MkHpack None 0 0 0 0 0 0 junk 0 [].

Definition set_counts (d f : Z) (h : hpack) : hpack :=
  let '(MkHpack en a _ r al sz _ st p hp) := h in MkHpack en a d r al sz f st p hp.
Definition set_limit (sz f : Z) (h : hpack) : hpack :=
  let '(MkHpack en a d r al _ _ st p hp) := h in MkHpack en a d r al sz f st p hp.

(** The structure that slot [i] of the pointer ring leads to. *)
Definition entry_at (h : hpack) (i : Z) : option (nat * entry) :=
  ring ← entries h;
  id ← ring !! Z.to_nat (i mod allocated h);
  id ← id;
  e ← heap h !! id;
  Some (id, e).

(** ** Memory *)

Definition read_bytes (st : list Z) (off n : Z) : option (list Z) :=
  if (0 <=? off) && (off + n <=? Z.of_nat (length st))
  then Some (take (Z.to_nat n) (drop (Z.to_nat off) st)) else None.

Definition write_bytes (st : list Z) (off : Z) (bs : list Z) : option (list Z) :=
  if (0 <=? off) && (off + Z.of_nat (length bs) <=? Z.of_nat (length st))
  then Some (take (Z.to_nat off) st ++ bs ++ drop (Z.to_nat off + length bs) st) else None.

(** ** Eviction *)

(** entry = entries[deleted++ % allocated]; free += 32 + ...; until [stop] of the free
    space; a live entry is deleted in every round, so [fuel] is their number. *)
Fixpoint evict (fuel : nat) (stop : Z -> bool) (h : hpack) : option hpack :=
  match fuel with
  | O => None
  | S fuel =>
      '(_, e) ← entry_at h (deleted h);
      let h := set_counts (deleted h + 1) (free h + (32 + name_len e + value_len e)) h in
      if stop (free h) then Some h else evict fuel stop h
  end.

Definition live (h : hpack) : nat := Z.to_nat (added h - deleted h).

(** ngx_http_v2_table_account *)
Definition ngx_http_v2_table_account (h : hpack) (sz : Z) : option (Z * hpack) :=
  let sz := sz + 32 in
  if sz <=? free h then Some (NGX_OK, set_counts (deleted h) (free h - sz) h)
  else if size h <? sz then Some (NGX_DECLINED, set_counts (added h) (size h) h)
  else
    h ← evict (live h) (fun f => sz <=? f) h;
    Some (NGX_OK, set_counts (deleted h) (free h - sz) h).

(** ngx_http_v2_table_size; the do-while of [evict] is entered when the loop's
    condition holds. *)
Definition ngx_http_v2_table_size (h : hpack) (sz : Z) : option (Z * hpack) :=
  if NGX_HTTP_V2_TABLE_SIZE <? sz then Some (NGX_ERROR, h)
  else
    let needed := size h - sz in
    h ← (if free h <? needed then evict (live h) (fun f => needed <=? f) h else Some h);
    Some (NGX_OK, set_limit sz (free h - needed) h).

(** ** Lookup *)

(** One string of an entry, copied out of the storage ring. *)
Definition copy_out (h : hpack) (data len : Z) : option (list Z) :=
  let rest := NGX_HTTP_V2_TABLE_SIZE - data in
  if rest <? len then
    a ← read_bytes (storage h) data rest;
    b ← read_bytes (storage h) 0 (len - rest);
    Some (a ++ b)
  else read_bytes (storage h) data len.

(** ngx_http_v2_get_indexed_header: the outer [None] is undefined behaviour, the inner
    one NGX_ERROR; with [name_only] the value of a dynamic entry is not copied. *)
Definition ngx_http_v2_get_indexed_header (h : hpack) (index : Z) (name_only : bool)
    : option (option header) :=
  if index =? 0 then Some None
  else
    let index := index - 1 in
    if index <? NGX_HTTP_V2_STATIC_TABLE_ENTRIES then
      e ← ngx_http_v2_static_table !! Z.to_nat index; Some (Some e)
    else
      let index := index - NGX_HTTP_V2_STATIC_TABLE_ENTRIES in
      if index <? added h - deleted h then
        '(_, e) ← entry_at h (added h - index - 1);
        name ← copy_out h (name_data e) (name_len e);
        if name_only then Some (Some (name, []))
        else
          value ← copy_out h (value_data e) (value_len e);
          Some (Some (name, value))
      else Some None.

(** ** Insertion *)

(** Copy a string at [pos], with [avail] bytes before the end of the storage; the third
    result is what the source subtracts the length from to get the new [avail]. *)
Definition copy_in (st : list Z) (p avail : Z) (s : list Z) : option (list Z * Z * Z) :=
  let n := Z.of_nat (length s) in
  if n <=? avail then st ← write_bytes st p s; Some (st, p + n, avail)
  else
    st ← write_bytes st p (take (Z.to_nat avail) s);
    st ← write_bytes st 0 (drop (Z.to_nat avail) s);
    Some (st, n - avail, NGX_HTTP_V2_TABLE_SIZE).

(** The lazy allocation of the rings. *)
Definition table_init (h : hpack) : hpack :=
  match entries h with
  | Some _ => h
  | None =>
      let '(MkHpack _ a d r _ _ _ st _ hp) := h in
      MkHpack (Some (replicate 64 None)) a d r 64 NGX_HTTP_V2_TABLE_SIZE NGX_HTTP_V2_TABLE_SIZE st 0 hp
  end.

(** A new entry structure, or a recycled one. *)
Definition take_entry (h : hpack) : option (nat * hpack) :=
  let '(MkHpack en a d r al sz f st p hp) := h in
  if r =? d then Some (length hp, MkHpack en a d r al sz f st p (hp ++ [MkEntry 0 0 0 0]))
  else
    '(id, _) ← entry_at h r;
    Some (id, MkHpack en a d (r + 1) al sz f st p hp).

(** Fill the structure and copy the strings. *)
Definition store_entry (h : hpack) (id : nat) (hd : header) : option hpack :=
  let '(MkHpack en a d r al sz f st p hp) := h in
  let avail := NGX_HTTP_V2_TABLE_SIZE - p in
  let nl := Z.of_nat (length (fst hd)) in
  let vl := Z.of_nat (length (snd hd)) in
  '(st, p1, avail) ← copy_in st p avail (fst hd);
  let avail := avail - nl in
  '(st, p2, _) ← copy_in st p1 avail (snd hd);
  Some (MkHpack en a d r al sz f st p2 (<[id := MkEntry p nl p1 vl]> hp)).

(** Copy the pointer ring to a larger one when it is full. *)
Definition grow (h : hpack) : option hpack :=
  let '(MkHpack en a d r al sz f st p hp) := h in
  if al =? a - d then
    ring ← en;
    let i := Z.to_nat (d mod al) in
    Some (MkHpack (Some (drop i ring ++ take i ring ++ replicate 64 None)) al 0 0 (al + 64) sz f st p hp)
  else Some h.

Definition push (h : hpack) (id : nat) : option hpack :=
  let '(MkHpack en a d r al sz f st p hp) := h in
  ring ← en;
  Some (MkHpack (Some (<[Z.to_nat (a mod al) := Some id]> ring)) (a + 1) d r al sz f st p hp).

(** ngx_http_v2_add_header *)
Definition ngx_http_v2_add_header (h : hpack) (hd : header) : option hpack :=
  let h := table_init h in
  '(rc, h) ← ngx_http_v2_table_account h (Z.of_nat (length (fst hd)) + Z.of_nat (length (snd hd)));
  if negb (rc =? NGX_OK) then Some h
  else
    '(id, h) ← take_entry h;
    h ← store_entry h id hd;
    h ← grow h;
    push h id.

Example hpack_ex :
  (h ← ngx_http_v2_add_header (hpack_init (replicate 4096 0)) (str("a"), str("bc"));
   h ← ngx_http_v2_add_header h (str("x-name"), str("v"));
   a ← ngx_http_v2_get_indexed_header h 62 false;
   b ← ngx_http_v2_get_indexed_header h 63 false;
   Some (a, b, free h)) = Some (Some (str("x-name"), str("v")), Some (str("a"), str("bc")), 4096 - 35 - 39).
Proof. vm_compute. reflexivity. Qed.

(** ** The specification: RFC 7541, section 4 *)

Definition field_size (f : header) : Z := 32 + Z.of_nat (length (fst f)) + Z.of_nat (length (snd f)).

Definition total (fs : list header) : Z := foldr (fun f n => field_size f + n) 0 fs.

(** The newest fields that fit in a limit. *)
Fixpoint fit (lim : Z) (fs : list header) : list header :=
  match fs with
  | [] => []
  | f :: fs => if field_size f <=? lim then f :: fit (lim - field_size f) fs else []
  end.

Definition spec_add (lim : Z) (fs : list header) (f : header) : list header :=
  if lim <? field_size f then [] else f :: fit (lim - field_size f) fs.

Lemma field_size_pos f : 32 <= field_size f.
Proof. unfold field_size. lia. Qed.

Lemma total_app fs1 fs2 : total (fs1 ++ fs2) = total fs1 + total fs2.
Proof. unfold total. induction fs1 as [|f fs1 IH]; cbn [foldr app]; [done|]. rewrite IH. lia. Qed.

Lemma total_nonneg fs : 0 <= total fs.
Proof. unfold total. induction fs as [|f fs IH]; cbn [foldr]; [lia|]. pose proof (field_size_pos f). lia. Qed.

Lemma fit_all lim fs : total fs <= lim -> fit lim fs = fs.
Proof.
  revert lim. induction fs as [|f fs IH]; intros lim H; [done|]. cbn [fit]. unfold total in *. cbn [foldr] in H.
  fold (total fs) in *. pose proof (total_nonneg fs). destruct (Z.leb_spec (field_size f) lim); [|lia].
  rewrite IH; [done|lia].
Qed.

Lemma fit_snoc lim fs f : lim < total (fs ++ [f]) -> fit lim (fs ++ [f]) = fit lim fs.
Proof.
  rewrite total_app. unfold total at 2. cbn [foldr]. revert lim. induction fs as [|g fs IH]; intros lim H; cbn [fit app].
  - destruct (Z.leb_spec (field_size f) lim); [|done]. unfold total in H. cbn in H. lia.
  - destruct (Z.leb_spec (field_size g) lim); [|done]. rewrite IH; [done|]. unfold total in *. cbn [foldr] in H. lia.
Qed.

(** ** Strings in the storage ring

    Addresses are virtual: they grow without bound and are reduced modulo 4096. *)

Definition str_at (st : list Z) (v data len : Z) (s : list Z) : Prop :=
  len = Z.of_nat (length s) /\ 0 <= data <= 4096 /\ data mod 4096 = v mod 4096
  /\ forall j b, s !! j = Some b -> st !! Z.to_nat ((v + Z.of_nat j) mod 4096) = Some b.

Lemma read_bytes_spec st off s n :
  0 <= off -> Z.of_nat (length s) = n -> off + n <= Z.of_nat (length st) ->
  (forall j b, s !! j = Some b -> st !! (Z.to_nat off + j)%nat = Some b) -> read_bytes st off n = Some s.
Proof.
  intros Ho <- Hl Hs. unfold read_bytes.
  destruct (Z.leb_spec 0 off), (Z.leb_spec (off + Z.of_nat (length s)) (Z.of_nat (length st))); try lia. cbn [andb]. f_equal.
  apply list_eq_same_length with (length s); [done|rewrite length_take, length_drop; lia|].
  intros i x y Hi H1 H2. rewrite lookup_take_lt, lookup_drop in H1 by lia. apply Hs in H2. congruence.
Qed.

Lemma copy_out_spec h v data s :
  Z.of_nat (length (storage h)) = 4096 -> Z.of_nat (length s) <= 4096 ->
  str_at (storage h) v data (Z.of_nat (length s)) s -> copy_out h data (Z.of_nat (length s)) = Some s.
Proof.
  intros Hst Hs (_ & Hd & Hv & Hb). unfold copy_out, NGX_HTTP_V2_TABLE_SIZE.
  assert (Hcell : forall j b, s !! j = Some b ->
    storage h !! Z.to_nat ((data + Z.of_nat j) mod 4096) = Some b).
  { intros j b Hj. rewrite <- (Hb j b Hj). do 2 f_equal. rewrite <- Zplus_mod_idemp_l, Hv, Zplus_mod_idemp_l. done. }
  destruct (Z.ltb_spec (4096 - data) (Z.of_nat (length s))) as [Hw|Hw].
  - set (k := Z.to_nat (4096 - data)).
    rewrite (read_bytes_spec _ data (take k s)); [|lia|rewrite length_take; lia|lia|].
    + cbn [mbind option_bind]. rewrite (read_bytes_spec _ 0 (drop k s)); [|lia|rewrite length_drop; lia|lia|].
      * cbn [mbind option_bind]. by rewrite take_drop.
      * intros j b Hj. rewrite lookup_drop in Hj. pose proof (lookup_lt_Some _ _ _ Hj).
        rewrite <- (Hcell _ _ Hj). f_equal. zlia.
    + intros j b Hj. apply lookup_take_Some in Hj as [Hj Hk]. rewrite <- (Hcell _ _ Hj). f_equal. zlia.
  - apply read_bytes_spec; [lia|done|lia|]. intros j b Hj. pose proof (lookup_lt_Some _ _ _ Hj).
    rewrite <- (Hcell _ _ Hj). f_equal. zlia.
Qed.

(** The cells that a copy of [n] bytes at [v] writes. *)
Definition in_range (v n x : Z) : Prop := exists j, 0 <= j < n /\ x = (v + j) mod 4096.

Lemma write_bytes_spec st off s :
  0 <= off -> off + Z.of_nat (length s) <= Z.of_nat (length st) -> exists st',
  write_bytes st off s = Some st' /\ length st' = length st
  /\ (forall j b, s !! j = Some b -> st' !! (Z.to_nat off + j)%nat = Some b)
  /\ (forall i, (i < Z.to_nat off \/ Z.to_nat off + length s <= i)%nat -> st' !! i = st !! i).
Proof.
  intros Ho Hl. unfold write_bytes.
  destruct (Z.leb_spec 0 off), (Z.leb_spec (off + Z.of_nat (length s)) (Z.of_nat (length st))); try lia. cbn [andb].
  eexists. split; [done|]. assert (Ht : length (take (Z.to_nat off) st) = Z.to_nat off) by (rewrite length_take; lia).
  split_and!.
  - rewrite !length_app, length_drop, Ht. lia.
  - intros j b Hj. rewrite lookup_app_r by lia. rewrite Ht.
    replace (Z.to_nat off + j - Z.to_nat off)%nat with j by lia. rewrite lookup_app_l; [done|].
    by eapply lookup_lt_Some.
  - intros i [Hi|Hi].
    + rewrite lookup_app_l by lia. apply lookup_take_lt. lia.
    + rewrite lookup_app_r, lookup_app_r, lookup_drop by lia. f_equal. lia.
Qed.

(** Copying a string in at [p]: the bytes go to the cells after [p], around the end of
    the storage, and no other cell changes. *)
Lemma copy_in_spec st p avail s :
  Z.of_nat (length st) = 4096 -> 0 <= p <= 4096 -> Z.of_nat (length s) <= 4096 ->
  Z.of_nat (length s) <= avail <= 4096 - p \/ avail = 4096 - p -> exists st' p' w,
  copy_in st p avail s = Some (st', p', w) /\ Z.of_nat (length st') = 4096 /\ 0 <= p' <= 4096
  /\ p' mod 4096 = (p + Z.of_nat (length s)) mod 4096
  /\ (w = avail /\ p' = p + Z.of_nat (length s)
      \/ w = 4096 /\ 0 <= avail < Z.of_nat (length s) /\ p' = Z.of_nat (length s) - avail)
  /\ (forall v, v mod 4096 = p mod 4096 -> str_at st' v p (Z.of_nat (length s)) s)
  /\ (forall x, 0 <= x < 4096 -> ~ in_range p (Z.of_nat (length s)) x -> st' !! Z.to_nat x = st !! Z.to_nat x).
Proof.
  intros Hst Hp Hs Hav. unfold copy_in. set (n := Z.of_nat (length s)) in *.
  destruct (Z.leb_spec n avail) as [Hle|Hgt].
  - destruct (write_bytes_spec st p s) as (st' & -> & Hl & Hb & Hf); [lia..|]. cbn [mbind option_bind].
    exists st', (p + n), avail. split_and!; try lia; [done| |].
    + intros v Hv. unfold str_at. split_and!; try done; try lia. intros j b Hj. pose proof (lookup_lt_Some _ _ _ Hj).
      rewrite <- Zplus_mod_idemp_l, Hv, Zplus_mod_idemp_l, Z.mod_small by lia. rewrite <- (Hb j b Hj). f_equal. lia.
    + intros x Hx Hr. apply Hf. destruct (decide (x < p)); [lia|]. right. destruct (decide (p + n <= x)); [lia|].
      exfalso. apply Hr. exists (x - p). split; [lia|]. rewrite Z.mod_small; lia.
  - assert (avail = 4096 - p) as -> by lia. set (k := Z.to_nat (4096 - p)).
    destruct (write_bytes_spec st p (take k s)) as (st1 & -> & Hl1 & Hb1 & Hf1); [lia|rewrite length_take; lia|].
    cbn [mbind option_bind].
    destruct (write_bytes_spec st1 0 (drop k s)) as (st2 & -> & Hl2 & Hb2 & Hf2); [lia|rewrite length_drop; lia|].
    cbn [mbind option_bind]. rewrite length_drop in Hf2. rewrite length_take in Hf1.
    exists st2, (n - (4096 - p)), NGX_HTTP_V2_TABLE_SIZE. split_and!; try lia; try done.
    + replace (p + n) with (n - (4096 - p) + 1 * 4096) by lia. by rewrite Z.mod_add by lia.
    + right. unfold NGX_HTTP_V2_TABLE_SIZE. lia.
    + intros v Hv. unfold str_at. split_and!; try done; try lia. intros j b Hj. pose proof (lookup_lt_Some _ _ _ Hj).
      rewrite <- Zplus_mod_idemp_l, Hv, Zplus_mod_idemp_l. destruct (decide (j < k)%nat).
      * rewrite Z.mod_small, Hf2 by lia. rewrite <- (Hb1 j b) by (by rewrite lookup_take_lt). f_equal. lia.
      * rewrite <- (Hb2 (j - k)%nat b) by (rewrite lookup_drop, <- Hj; f_equal; lia). f_equal. zlia.
    + intros x Hx Hr. rewrite Hf2, Hf1; [done| |].
      * destruct (decide (x < p)); [lia|]. exfalso. apply Hr. exists (x - p). split; [lia|]. rewrite Z.mod_small; lia.
      * right. destruct (decide (x < n - (4096 - p))); [|lia]. exfalso. apply Hr. exists (x + (4096 - p)).
        split; [lia|]. replace (p + (x + (4096 - p))) with (x + 1 * 4096) by lia. rewrite Z.mod_add, Z.mod_small; lia.
Qed.

Lemma str_at_frame st st' v data len s p w n :
  str_at st v data len s -> p mod 4096 = w mod 4096 -> v + len <= w -> w + n - v <= 4096 -> 0 <= n ->
  (forall x, 0 <= x < 4096 -> ~ in_range p n x -> st' !! Z.to_nat x = st !! Z.to_nat x) ->
  str_at st' v data len s.
Proof.
  intros (Hl & Hd & Hv & Hb) Hp Hle Hn Hn0 Hf. split_and!; try done; try lia. intros j b Hj.
  rewrite <- (Hb j b Hj). pose proof (lookup_lt_Some _ _ _ Hj). apply Hf; [apply Z.mod_pos_bound; lia|].
  intros (i & Hi & Heq). rewrite <- (Zplus_mod_idemp_l p), Hp, Zplus_mod_idemp_l in Heq. revert Heq. zlia.
Qed.

(** The fields [fs], oldest first, lie in the storage from [v] to [vend] and are
    described by the structures [ids]. *)
Fixpoint laid (st : list Z) (hp : list entry) (v vend : Z) (ids : list nat) (fs : list header) : Prop :=
  match ids, fs with
  | [], [] => v = vend
  | id :: ids, f :: fs => exists e, hp !! id = Some e
      /\ str_at st v (name_data e) (name_len e) (fst f)
      /\ str_at st (v + name_len e) (value_data e) (value_len e) (snd f)
      /\ laid st hp (v + name_len e + value_len e) vend ids fs
  | _, _ => False
  end.

Lemma laid_total st hp fs : forall v vend ids,
  laid st hp v vend ids fs -> total fs = vend - v + 32 * Z.of_nat (length fs) /\ length ids = length fs /\ v <= vend.
Proof.
  induction fs as [|f fs IH]; intros v vend [|id ids] H; try done; cbn [laid] in H.
  - unfold total. cbn. lia.
  - destruct H as (e & _ & (Hn & _) & (Hv & _) & H). apply IH in H as (H1 & H2 & H3).
    unfold total in *. cbn [foldr length]. rewrite H1, H2. unfold field_size. lia.
Qed.

Lemma laid_app st hp fs1 fs2 : forall v vend ids1 ids2,
  length ids1 = length fs1 ->
  laid st hp v vend (ids1 ++ ids2) (fs1 ++ fs2)
  <-> exists m, laid st hp v m ids1 fs1 /\ laid st hp m vend ids2 fs2.
Proof.
  induction fs1 as [|f fs1 IH]; intros v vend [|id ids1] ids2 Hl; try done; cbn [app laid].
  - naive_solver.
  - cbn in Hl. setoid_rewrite IH; [|lia]. naive_solver.
Qed.

Lemma laid_lookup st hp fs : forall v vend ids i f,
  laid st hp v vend ids fs -> fs !! i = Some f -> exists id e w,
  ids !! i = Some id /\ hp !! id = Some e /\ str_at st w (name_data e) (name_len e) (fst f)
  /\ str_at st (w + name_len e) (value_data e) (value_len e) (snd f).
Proof.
  induction fs as [|g fs IH]; intros v vend [|id ids] i f H Hi; try done; cbn [laid] in H.
  destruct H as (e & He & H1 & H2 & H). destruct i as [|i]; cbn in *; [simplify_eq; eauto 10|by eapply IH].
Qed.

Lemma laid_frame st st' hp hp' p n fs : forall v vend ids,
  laid st hp v vend ids fs -> p mod 4096 = vend mod 4096 -> 0 <= n -> vend + n - v <= 4096 ->
  (forall x, 0 <= x < 4096 -> ~ in_range p n x -> st' !! Z.to_nat x = st !! Z.to_nat x) ->
  (forall id, id ∈ ids -> hp' !! id = hp !! id) -> laid st' hp' v vend ids fs.
Proof.
  induction fs as [|f fs IH]; intros v vend [|id ids] H Hp Hn Hroom Hf Hh; try done; cbn [laid] in *.
  destruct H as (e & He & H1 & H2 & H). pose proof (laid_total _ _ _ _ _ _ H) as (_ & _ & Hle).
  pose proof (proj1 H1) as Hl1. pose proof (proj1 H2) as Hl2. exists e. split_and!.
  - rewrite Hh; [done|by left].
  - eapply (str_at_frame _ _ _ _ _ _ _ vend n); eauto; lia.
  - eapply (str_at_frame _ _ _ _ _ _ _ vend n); eauto; lia.
  - apply IH; auto; [lia|]. intros i Hi. apply Hh. by right.
Qed.

(** ** The representation invariant

    [ids] are the structures in the slots from [reused] to [added]: the first of them
    are free to be recycled, the others describe the live fields.  [r] bytes are accounted
    for a field that is being inserted. *)

Record rep (h : hpack) (lim r : Z) (fs : list header) (ring : list (option nat)) (ids : list nat) (v vend : Z)
    : Prop := {
  rep_ring : entries h = Some ring;
  rep_alloc : Z.of_nat (length ring) = allocated h /\ 0 < allocated h;
  rep_order : 0 <= reused h <= deleted h /\ deleted h <= added h;
  rep_ids : Z.of_nat (length ids) = added h - reused h /\ added h - reused h <= allocated h;
  rep_nodup : NoDup ids;
  rep_heap : Forall (fun id => (id < length (heap h))%nat) ids;
  rep_window : forall j id, ids !! j = Some id ->
    ring !! Z.to_nat ((reused h + Z.of_nat j) mod allocated h) = Some (Some id);
  rep_storage : Z.of_nat (length (storage h)) = 4096;
  rep_pos : 0 <= pos h <= 4096 /\ pos h mod 4096 = vend mod 4096;
  rep_size : size h = lim /\ 0 <= lim <= 4096;
  rep_free : free h = lim - total fs - r /\ 0 <= free h;
  rep_laid : laid (storage h) (heap h) v vend (drop (Z.to_nat (deleted h - reused h)) ids) (rev fs);
}.

Definition represents (h : hpack) (lim : Z) (fs : list header) : Prop :=
  exists ring ids v vend, rep h lim 0 fs ring ids v vend.

Lemma rep_length h lim r fs ring ids v vend :
  rep h lim r fs ring ids v vend -> added h - deleted h = Z.of_nat (length fs) /\ live h = length fs.
Proof.
  intros H. pose proof (laid_total _ _ _ _ _ _ (rep_laid _ _ _ _ _ _ _ _ H)) as (_ & Hl & _).
  rewrite length_drop, length_rev in Hl. destruct (rep_order _ _ _ _ _ _ _ _ H), (rep_ids _ _ _ _ _ _ _ _ H).
  unfold live. lia.
Qed.

(** The structure of the [k]-th oldest field. *)
Lemma rep_entry h lim r fs ring ids v vend k f :
  rep h lim r fs ring ids v vend -> rev fs !! k = Some f -> exists id e w,
  entry_at h (deleted h + Z.of_nat k) = Some (id, e)
  /\ drop (Z.to_nat (deleted h - reused h)) ids !! k = Some id /\ heap h !! id = Some e
  /\ str_at (storage h) w (name_data e) (name_len e) (fst f)
  /\ str_at (storage h) (w + name_len e) (value_data e) (value_len e) (snd f).
Proof.
  intros H Hf. destruct (laid_lookup _ _ _ _ _ _ _ _ (rep_laid _ _ _ _ _ _ _ _ H) Hf) as (id & e & w & Hid & He & H1 & H2).
  exists id, e, w. split_and!; auto. rewrite lookup_drop in Hid. apply (rep_window _ _ _ _ _ _ _ _ H) in Hid.
  destruct (rep_order _ _ _ _ _ _ _ _ H) as [? ?]. unfold entry_at. rewrite (rep_ring _ _ _ _ _ _ _ _ H). cbn [mbind option_bind].
  replace (deleted h + Z.of_nat k) with (reused h + Z.of_nat (Z.to_nat (deleted h - reused h) + k)) by lia.
  rewrite Hid. cbn [mbind option_bind]. by rewrite He.
Qed.

Lemma evict_one h lim r fs f ring ids v vend :
  rep h lim r (fs ++ [f]) ring ids v vend -> exists id e v',
  entry_at h (deleted h) = Some (id, e) /\ 32 + name_len e + value_len e = field_size f
  /\ rep (set_counts (deleted h + 1) (free h + field_size f) h) lim r fs ring ids v' vend.
Proof.
  intros H. assert (Hrev : rev (fs ++ [f]) = f :: rev fs) by (by rewrite rev_app_distr).
  destruct (rep_entry _ _ _ _ _ _ _ _ 0 f H) as (id & e & w & Hat & Hid & He & H1 & H2); [by rewrite Hrev|].
  rewrite Z.add_0_r in Hat. pose proof (proj1 H1) as Hl1. pose proof (proj1 H2) as Hl2.
  exists id, e, (v + name_len e + value_len e). split_and!; [done|unfold field_size; lia|].
  pose proof (rep_length _ _ _ _ _ _ _ _ H) as [Hlen _]. rewrite length_app in Hlen. cbn [length] in Hlen.
  destruct H as [Hr Ha Ho Hi Hn Hh Hw Hs Hp Hz Hf Hla]. rewrite Hrev in Hla. rewrite total_app in Hf.
  unfold total in Hf at 2. cbn [foldr] in Hf. pose proof (field_size_pos f).
  assert (Hd : drop (Z.to_nat (deleted h - reused h)) ids = id :: drop (Z.to_nat (deleted h + 1 - reused h)) ids).
  { rewrite lookup_drop, Nat.add_0_r in Hid. rewrite (drop_S _ _ _ Hid). do 2 f_equal. lia. }
  rewrite Hd in Hla. cbn [laid] in Hla. destruct Hla as (e' & He' & _ & _ & Hla).
  assert (e' = e) as -> by congruence.
  destruct h; cbn in *. constructor; cbn; auto; lia.
Qed.

Lemma evict_spec x : forall fs h lim,
  represents h lim fs -> free h < x <= lim -> exists h',
  evict (live h) (fun f => x <=? f) h = Some h' /\ x <= free h' /\ represents h' lim (fit (lim - x) fs).
Proof.
  induction fs as [|f fs IH] using rev_ind; intros h lim (ring & ids & v & vend & H) Hx.
  - destruct (rep_free _ _ _ _ _ _ _ _ H) as [Hf _]. unfold total in Hf. cbn in Hf. lia.
  - pose proof (rep_length _ _ _ _ _ _ _ _ H) as [_ Hlive]. rewrite Hlive, length_app, Nat.add_comm. cbn [length Nat.add evict].
    destruct (evict_one _ _ _ _ _ _ _ _ _ H) as (id & e & v' & -> & Hsz & H'). cbn [mbind option_bind]. rewrite Hsz.
    destruct (rep_free _ _ _ _ _ _ _ _ H) as [Hf _]. destruct (rep_free _ _ _ _ _ _ _ _ H') as [Hf' _].
    rewrite fit_snoc by lia. set (h1 := set_counts _ _ h) in *.
    destruct (Z.leb_spec x (free h1)) as [Hstop|Hgo].
    + exists h1. split_and!; [done|done|]. rewrite fit_all by lia. by exists ring, ids, v', vend.
    + destruct (rep_length _ _ _ _ _ _ _ _ H') as [_ <-]. apply IH; [|lia]. by exists ring, ids, v', vend.
Qed.

Lemma rep_change_limit h lim r fs ring ids v vend lim' r' f' :
  rep h lim r fs ring ids v vend -> 0 <= lim' <= 4096 -> f' = lim' - total fs - r' -> 0 <= f' ->
  rep (set_limit lim' f' h) lim' r' fs ring ids v vend.
Proof. intros [] Hl -> H0. destruct h; cbn in *. by constructor. Qed.

Lemma rep_reserve h lim r fs ring ids v vend r' f' :
  rep h lim r fs ring ids v vend -> f' = lim - total fs - r' -> 0 <= f' ->
  rep (set_counts (deleted h) f' h) lim r' fs ring ids v vend.
Proof. intros [] -> H0. destruct h; cbn in *. by constructor. Qed.

Lemma rep_clear h lim fs ring ids v vend :
  rep h lim 0 fs ring ids v vend -> rep (set_counts (added h) (size h) h) lim 0 [] ring ids vend vend.
Proof.
  intros []. destruct h; cbn in *. constructor; cbn; auto; try lia.
  by rewrite drop_ge by lia.
Qed.

(** ngx_http_v2_table_account makes room and reserves it, or empties the table. *)
Lemma account_spec h lim fs n :
  represents h lim fs -> 0 <= n -> exists h',
  if lim <? n + 32 then
    ngx_http_v2_table_account h n = Some (NGX_DECLINED, h') /\ represents h' lim []
  else
    ngx_http_v2_table_account h n = Some (NGX_OK, h')
    /\ exists ring ids v vend, rep h' lim (n + 32) (fit (lim - (n + 32)) fs) ring ids v vend.
Proof.
  intros Hrep Hn. pose proof Hrep as (ring & ids & v & vend & H).
  destruct (rep_free _ _ _ _ _ _ _ _ H) as [Hf Hf0]. destruct (rep_size _ _ _ _ _ _ _ _ H) as [Hsz Hlim].
  pose proof (total_nonneg fs). unfold ngx_http_v2_table_account.
  destruct (Z.leb_spec (n + 32) (free h)) as [Hroom|Hfull].
  - eexists. destruct (Z.ltb_spec lim (n + 32)); [lia|]. split; [done|]. rewrite fit_all by lia.
    exists ring, ids, v, vend. apply (rep_reserve _ _ _ _ _ _ _ _ _ _ H); lia.
  - rewrite Hsz. destruct (Z.ltb_spec lim (n + 32)) as [Hbig|Hok].
    + eexists. split; [done|]. exists ring, ids, vend, vend. apply rep_clear in H. by rewrite Hsz in H.
    + destruct (evict_spec (n + 32) fs h lim Hrep ltac:(lia)) as (h1 & -> & Hx & ring1 & ids1 & v1 & vend1 & H1).
      cbn [mbind option_bind]. eexists. split; [done|]. exists ring1, ids1, v1, vend1.
      destruct (rep_free _ _ _ _ _ _ _ _ H1) as [Hf1 _]. apply (rep_reserve _ _ _ _ _ _ _ _ _ _ H1); lia.
Qed.

Lemma table_size_spec h lim fs n :
  represents h lim fs -> 0 <= n -> exists h',
  if NGX_HTTP_V2_TABLE_SIZE <? n then ngx_http_v2_table_size h n = Some (NGX_ERROR, h') /\ h' = h
  else ngx_http_v2_table_size h n = Some (NGX_OK, h') /\ represents h' n (fit n fs).
Proof.
  intros Hrep Hn. pose proof Hrep as (ring & ids & v & vend & H).
  destruct (rep_free _ _ _ _ _ _ _ _ H) as [Hf Hf0]. destruct (rep_size _ _ _ _ _ _ _ _ H) as [Hsz Hlim].
  unfold ngx_http_v2_table_size, NGX_HTTP_V2_TABLE_SIZE. destruct (Z.ltb_spec 4096 n); [by exists h|].
  rewrite Hsz. destruct (Z.ltb_spec (free h) (lim - n)) as [Hev|Hok]; cbn [mbind option_bind].
  - destruct (evict_spec (lim - n) fs h lim Hrep ltac:(lia)) as (h1 & -> & Hx & ring1 & ids1 & v1 & vend1 & H1).
    cbn [mbind option_bind]. replace (lim - (lim - n)) with n in H1 by lia. eexists. split; [done|].
    exists ring1, ids1, v1, vend1. destruct (rep_free _ _ _ _ _ _ _ _ H1) as [Hf1 _].
    apply (rep_change_limit _ _ _ _ _ _ _ _ _ _ _ H1); lia.
  - eexists. split; [done|]. rewrite fit_all by lia. exists ring, ids, v, vend.
    apply (rep_change_limit _ _ _ _ _ _ _ _ _ _ _ H); lia.
Qed.

(** The answer the protocol asks for: index 1 is the first static field, the dynamic
    fields follow, the newest first. *)
Definition spec_get (fs : list header) (index : Z) (name_only : bool) : option header :=
  if index =? 0 then None
  else (ngx_http_v2_static_table ++ (if name_only then map (fun f => (fst f, [])) fs else fs))
         !! Z.to_nat (index - 1).

Lemma rev_lookup_newest {A} (l : list A) i :
  (i < length l)%nat -> rev l !! (length l - S i)%nat = l !! i.
Proof.
  intros H. rewrite rev_alt. change (reverse l !! (length l - S i)%nat = l !! i).
  rewrite reverse_lookup by lia. f_equal. lia.
Qed.

Lemma field_size_total fs i f : fs !! i = Some f -> field_size f <= total fs.
Proof.
  revert i. induction fs as [|g fs IH]; intros i Hi; [done|]. unfold total in *. cbn [foldr].
  pose proof (total_nonneg fs). unfold total in *. pose proof (field_size_pos g).
  destruct i; cbn in Hi; [simplify_eq; lia|]. specialize (IH _ Hi). lia.
Qed.

Lemma get_spec h lim fs index name_only :
  represents h lim fs -> 0 <= index ->
  ngx_http_v2_get_indexed_header h index name_only = Some (spec_get fs index name_only).
Proof.
  intros (ring & ids & v & vend & H) Hi. unfold ngx_http_v2_get_indexed_header, spec_get.
  destruct (Z.eqb_spec index 0) as [|Hi0]; [done|]. unfold NGX_HTTP_V2_STATIC_TABLE_ENTRIES.
  destruct (Z.ltb_spec (index - 1) (Z.of_nat (length ngx_http_v2_static_table))) as [Hst|Hdy].
  { destruct (lookup_lt_is_Some_2 ngx_http_v2_static_table (Z.to_nat (index - 1))) as [e He]; [lia|].
    rewrite lookup_app_l, He by lia. done. }
  rewrite lookup_app_r by lia. destruct (rep_length _ _ _ _ _ _ _ _ H) as [Hlen _].
  set (i := (Z.to_nat (index - 1) - length ngx_http_v2_static_table)%nat).
  replace (index - 1 - Z.of_nat (length ngx_http_v2_static_table)) with (Z.of_nat i) by lia. rewrite Hlen.
  destruct (Z.ltb_spec (Z.of_nat i) (Z.of_nat (length fs))) as [Hlt|Hge].
  - destruct (lookup_lt_is_Some_2 fs i) as [f Hf]; [lia|].
    destruct (rep_entry _ _ _ _ _ _ _ _ (length fs - S i)%nat f H) as (id & e & w & Hat & _ & _ & H1 & H2).
    { by rewrite rev_lookup_newest by lia. }
    replace (added h - Z.of_nat i - 1) with (deleted h + Z.of_nat (length fs - S i)) by lia. rewrite Hat.
    cbn [mbind option_bind]. pose proof (field_size_total _ _ _ Hf). unfold field_size in *.
    destruct (rep_free _ _ _ _ _ _ _ _ H), (rep_size _ _ _ _ _ _ _ _ H). pose proof (rep_storage _ _ _ _ _ _ _ _ H).
    pose proof (proj1 H1) as Hl1. pose proof (proj1 H2) as Hl2. rewrite Hl1 in H1. rewrite Hl2 in H2. rewrite Hl1, Hl2.
    rewrite (copy_out_spec h _ _ (fst f) ltac:(lia) ltac:(lia) H1). cbn [mbind option_bind]. destruct name_only.
    + by rewrite list_lookup_fmap, Hf.
    + rewrite (copy_out_spec h _ _ (snd f) ltac:(lia) ltac:(lia) H2). cbn [mbind option_bind]. rewrite Hf. by destruct f.
  - destruct name_only; [rewrite list_lookup_fmap|]; rewrite lookup_ge_None_2 by lia; done.
Qed.

(** ** Insertion *)

Definition set_pos (p : Z) (h : hpack) : hpack :=
  let '(MkHpack en a d r al sz f st _ hp) := h in MkHpack en a d r al sz f st p hp.

(** Room for one more pointer, or all deleted structures recycled. *)
Definition slot_free (h : hpack) : Prop := added h - reused h < allocated h \/ reused h = deleted h.

Lemma laid_heap st hp hp' fs : forall v vend ids,
  laid st hp v vend ids fs -> (forall id, id ∈ ids -> hp' !! id = hp !! id) -> laid st hp' v vend ids fs.
Proof.
  induction fs as [|f fs IH]; intros v vend [|id ids] H Hh; try done; cbn [laid] in *.
  destruct H as (e & He & H1 & H2 & H). exists e. rewrite Hh by left. split_and!; auto.
  apply IH; [done|]. intros i Hi. apply Hh. by right.
Qed.

Lemma rep_heap_grow h lim r fs ring ids v vend hp :
  rep h lim r fs ring ids v vend -> (length (heap h) <= length hp)%nat ->
  (forall id, id ∈ ids -> hp !! id = heap h !! id) ->
  rep (MkHpack (entries h) (added h) (deleted h) (reused h) (allocated h) (size h) (free h) (storage h) (pos h) hp)
    lim r fs ring ids v vend.
Proof.
  intros [] Hl Hh. constructor; cbn; auto.
  - eapply Forall_impl; [|eassumption]. cbn. lia.
  - eapply laid_heap; [eassumption|]. intros id Hid. apply Hh. eapply elem_of_submseteq; [exact Hid|].
    apply sublist_submseteq, sublist_drop.
Qed.

Lemma rep_fresh h lim r fs ring ids v vend : rep h lim r fs ring ids v vend -> length (heap h) ∉ ids.
Proof. intros H Hin. pose proof (rep_heap _ _ _ _ _ _ _ _ H) as Hh. rewrite list.Forall_forall in Hh. apply Hh in Hin. lia. Qed.

(** The oldest structure that waits to be recycled. *)
Lemma rep_recycle h lim r fs ring ids v vend :
  rep h lim r fs ring ids v vend -> reused h < deleted h -> exists id ids1 e,
  ids = id :: ids1 /\ entry_at h (reused h) = Some (id, e)
  /\ rep (MkHpack (entries h) (added h) (deleted h) (reused h + 1) (allocated h) (size h) (free h) (storage h) (pos h) (heap h))
       lim r fs ring ids1 v vend.
Proof.
  intros [Hr Ha Ho Hi Hn Hh Hw Hs Hp Hz Hf Hla] Hlt. destruct ids as [|id ids1]; [cbn in Hi; lia|].
  apply Forall_cons_1 in Hh as [Hid Hh]. apply lookup_lt_is_Some_2 in Hid as [e He]. exists id, ids1, e.
  apply list.NoDup_cons in Hn as [_ Hn]. cbn [length] in Hi. split_and!; [done| |].
  - unfold entry_at. rewrite Hr. cbn [mbind option_bind].
    replace (reused h) with (reused h + Z.of_nat 0) by lia. rewrite (Hw 0%nat id eq_refl). cbn [mbind option_bind].
    by rewrite He.
  - constructor; cbn; auto; try lia.
    + intros j i Hj. rewrite <- (Hw (S j) i Hj). do 3 f_equal. lia.
    + replace (Z.to_nat (deleted h - reused h)) with (S (Z.to_nat (deleted h - (reused h + 1)))) in Hla by lia.
      exact Hla.
Qed.

Lemma take_entry_spec h lim r fs ring ids v vend :
  rep h lim r fs ring ids v vend -> exists id h1 ids1,
  take_entry h = Some (id, h1) /\ rep h1 lim r fs ring ids1 v vend /\ id ∉ ids1 /\ (id < length (heap h1))%nat
  /\ slot_free h1.
Proof.
  intros H. destruct (rep_order _ _ _ _ _ _ _ _ H) as [Ho _]. destruct (rep_ids _ _ _ _ _ _ _ _ H) as [Hi Ha].
  destruct (decide (reused h = deleted h)) as [Heq|Hne].
  - pose proof (rep_heap_grow _ _ _ _ _ _ _ _ (heap h ++ [MkEntry 0 0 0 0]) H) as H'.
    rewrite length_app in H'. specialize (H' ltac:(lia)).
    eexists (length (heap h)), _, ids. split_and!; [|apply H'|by eapply rep_fresh| |by right].
    + destruct h; cbn in *. rewrite (proj2 (Z.eqb_eq _ _) Heq). done.
    + intros id Hid. apply lookup_app_l. pose proof (rep_heap _ _ _ _ _ _ _ _ H) as Hh. rewrite list.Forall_forall in Hh. by apply Hh.
    + cbn. rewrite length_app. cbn. lia.
  - destruct (rep_recycle _ _ _ _ _ _ _ _ H ltac:(lia)) as (id & ids1 & e & -> & Hat & H').
    eexists id, _, ids1. pose proof (rep_heap _ _ _ _ _ _ _ _ H) as Hh. pose proof (rep_nodup _ _ _ _ _ _ _ _ H) as Hn.
    apply list.NoDup_cons in Hn as [Hnin _]. apply Forall_cons_1 in Hh as [Hid _].
    split_and!; [|exact H'|done|done|].
    + unfold take_entry. destruct h; cbn [reused deleted entries added allocated size free storage pos heap] in *.
      destruct (Z.eqb_spec reused0 deleted0); [done|]. by rewrite Hat.
    + left. cbn in *. lia.
Qed.

Lemma total_rev fs : total (rev fs) = total fs.
Proof.
  induction fs as [|f fs IH]; [done|]. cbn [rev]. rewrite total_app, IH. unfold total. cbn [foldr]. lia.
Qed.

Lemma rep_span h lim r fs ring ids v vend :
  rep h lim r fs ring ids v vend -> 0 <= vend - v <= lim - r /\ 0 <= total fs.
Proof.
  intros H. pose proof (laid_total _ _ _ _ _ _ (rep_laid _ _ _ _ _ _ _ _ H)) as (Ht & _ & Hle).
  rewrite total_rev in Ht. destruct (rep_free _ _ _ _ _ _ _ _ H). pose proof (total_nonneg fs). lia.
Qed.

Lemma store_entry_spec h lim fs ring ids v vend id f :
  rep h lim (field_size f) fs ring ids v vend -> id ∉ ids -> (id < length (heap h))%nat -> exists h2 e,
  store_entry h id f = Some h2 /\ rep (set_pos (pos h) h2) lim (field_size f) fs ring ids v vend
  /\ heap h2 !! id = Some e /\ str_at (storage h2) vend (name_data e) (name_len e) (fst f)
  /\ str_at (storage h2) (vend + name_len e) (value_data e) (value_len e) (snd f)
  /\ 0 <= pos h2 <= 4096 /\ pos h2 mod 4096 = (vend + name_len e + value_len e) mod 4096
  /\ (slot_free h -> slot_free h2).
Proof.
  intros H Hnin Hid. pose proof (rep_span _ _ _ _ _ _ _ _ H) as [Hspan _]. destruct (rep_pos _ _ _ _ _ _ _ _ H) as [Hp Hpv].
  destruct (rep_size _ _ _ _ _ _ _ _ H) as [_ Hlim]. pose proof (rep_storage _ _ _ _ _ _ _ _ H) as Hst.
  set (nl := Z.of_nat (length (fst f))). set (vl := Z.of_nat (length (snd f))).
  assert (Hroom : vend - v + nl + vl <= 4096 - 32) by (unfold field_size in Hspan; lia).
  destruct (copy_in_spec (storage h) (pos h) (4096 - pos h) (fst f)) as (st1 & p1 & w & E1 & Hst1 & Hp1 & Hm1 & Hw & Hs1 & Hf1);
    [done|done|lia|by right|].
  assert (Hm1' : p1 mod 4096 = (vend + nl) mod 4096).
  { rewrite Hm1, <- Zplus_mod_idemp_l, Hpv, Zplus_mod_idemp_l. done. }
  destruct (copy_in_spec st1 p1 (w - nl) (snd f)) as (st2 & p2 & w2 & E2 & Hst2 & Hp2 & Hm2 & _ & Hs2 & Hf2);
    [done|done|lia|fold nl in Hw; lia|].
  assert (Hm2' : p2 mod 4096 = (vend + nl + vl) mod 4096).
  { rewrite Hm2, <- Zplus_mod_idemp_l, Hm1', Zplus_mod_idemp_l. done. }
  fold nl vl in Hw, Hs1, Hf1, Hs2, Hf2.
  assert (Hframe : forall x, 0 <= x < 4096 -> ~ in_range (pos h) (nl + vl) x -> st2 !! Z.to_nat x = storage h !! Z.to_nat x).
  { intros x Hx Hr. rewrite Hf2, Hf1; [done|done| |done|].
    - intros (j & Hj & ->). apply Hr. exists j. split; [lia|done].
    - intros (j & Hj & ->). apply Hr. exists (nl + j). split; [lia|].
      rewrite <- (Zplus_mod_idemp_l p1), Hm1, Zplus_mod_idemp_l. f_equal. unfold nl. lia. }
  exists (MkHpack (entries h) (added h) (deleted h) (reused h) (allocated h) (size h) (free h) st2 p2
            (<[id := MkEntry (pos h) nl p1 vl]> (heap h))), (MkEntry (pos h) nl p1 vl).
  split. { unfold store_entry. destruct h; cbn [storage pos] in *. unfold NGX_HTTP_V2_TABLE_SIZE. rewrite E1.
           cbn [mbind option_bind]. fold nl. rewrite E2. reflexivity. }
  cbn [storage pos heap name_data name_len value_data value_len]. split_and!; auto; try lia.
  - destruct H as [Hr Ha Ho Hi Hn Hh Hwin _ _ Hz Hf Hla]. destruct h; cbn in *. constructor; cbn; auto.
    + by rewrite length_insert.
    + eapply (laid_frame _ _ _ _ _ (nl + vl)); [exact Hla|exact Hpv|lia|lia|exact Hframe|]. intros i Hi'. apply list_lookup_insert_ne.
      intros ->. apply Hnin. eapply elem_of_submseteq; [exact Hi'|]. apply sublist_submseteq, sublist_drop.
  - by apply list_lookup_insert_eq.
  - eapply (str_at_frame _ _ _ _ _ _ p1 (vend + nl) vl); [apply Hs1; lia|done|lia|lia|lia|done].
Qed.

(** The live pointers, rotated to the start of the larger ring. *)
Lemma rotate_lookup {A} (ring : list A) (tail : list A) al i j :
  Z.of_nat (length ring) = al -> 0 <= i < al -> 0 <= j < al ->
  (drop (Z.to_nat i) ring ++ take (Z.to_nat i) ring ++ tail) !! Z.to_nat j = ring !! Z.to_nat ((i + j) mod al).
Proof.
  intros Hl Hi Hj. destruct (decide (i + j < al)).
  - rewrite lookup_app_l, lookup_drop by (rewrite length_drop; lia). rewrite Z.mod_small by lia. f_equal. lia.
  - rewrite lookup_app_r by (rewrite length_drop; lia). rewrite lookup_app_l by (rewrite length_drop, length_take; lia).
    rewrite length_drop, lookup_take_lt by lia. f_equal.
    replace ((i + j) mod al) with (i + j - al) by (apply Z.mod_unique with 1; lia). lia.
Qed.

Lemma grow_spec h lim r fs ring ids v vend :
  rep h lim r fs ring ids v vend -> slot_free h -> exists h3 ring3,
  grow h = Some h3 /\ rep h3 lim r fs ring3 ids v vend /\ added h3 - reused h3 < allocated h3
  /\ heap h3 = heap h /\ storage h3 = storage h /\ pos h3 = pos h.
Proof.
  intros H Hslot. pose proof H as [Hr [Hal Hal0] Ho Hi Hn Hh Hw Hs Hp Hz Hf Hla]. unfold slot_free in Hslot.
  unfold grow. set (spare := replicate 64 None). assert (Hspare : length spare = 64%nat) by reflexivity. clearbody spare.
  destruct h as [en a d ru al sz f st p hp]; cbn in *. destruct (Z.eqb_spec al (a - d)) as [Hfull|Hnot].
  - assert (ru = d) as -> by lia. rewrite Hr. cbn [mbind option_bind]. eexists _, _. split; [done|].
    assert (Hd : 0 <= d mod al < al) by (apply Z.mod_pos_bound; lia). split_and!; cbn; try done; try lia.
    constructor; cbn; auto; try lia.
    + rewrite !length_app, length_drop, length_take. lia.
    + intros j id Hj. pose proof (lookup_lt_Some _ _ _ Hj). rewrite Z.mod_small by lia.
      rewrite (rotate_lookup _ _ al) by lia. rewrite Zplus_mod_idemp_l. by apply Hw.
    + by replace (Z.to_nat (d - d)) with 0%nat in Hla by lia.
  - exists (MkHpack en a d ru al sz f st p hp), ring. split_and!; cbn; try done. lia.
Qed.

Lemma grow_set_pos p h : grow (set_pos p h) = set_pos p <$> grow h.
Proof. destruct h as [[ring|] a d ru al sz f st q hp]; cbn; by destruct (al =? a - d). Qed.

Lemma mod_distinct n x y : 0 < x - y < n -> x mod n <> y mod n.
Proof. intros H Heq. pose proof (Zminus_mod x y n) as Hm. rewrite Heq, Z.sub_diag, Z.mod_0_l, Z.mod_small in Hm by lia. lia. Qed.

Lemma push_spec h lim fs ring ids v vend id e f p :
  rep h lim (field_size f) fs ring ids v vend -> added h - reused h < allocated h -> id ∉ ids ->
  heap h !! id = Some e -> str_at (storage h) vend (name_data e) (name_len e) (fst f) ->
  str_at (storage h) (vend + name_len e) (value_data e) (value_len e) (snd f) ->
  0 <= p <= 4096 -> p mod 4096 = (vend + name_len e + value_len e) mod 4096 ->
  exists h', push (set_pos p h) id = Some h' /\ represents h' lim (f :: fs).
Proof.
  intros H Hslot Hnin He H1 H2 Hp Hpv. pose proof (rep_length _ _ _ _ _ _ _ _ H) as [Hlen _].
  destruct H as [Hr [Hal Hal0] Ho [Hi _] Hn Hh Hw Hs _ Hz Hf Hla].
  destruct h as [en a d ru al sz fr st q hp]; cbn in *. rewrite Hr. cbn [mbind option_bind]. eexists. split; [done|].
  eexists _, (ids ++ [id]), v, (vend + name_len e + value_len e). constructor; cbn; auto; try lia.
  - by rewrite length_insert.
  - rewrite length_app. cbn. lia.
  - apply list.NoDup_app. split_and!; [done| |apply NoDup_singleton]. intros x Hx ->%list_elem_of_singleton. done.
  - apply Forall_app. split; [done|]. repeat constructor. by eapply lookup_lt_Some.
  - intros j i Hj. apply lookup_app_Some in Hj as [Hj|[Hj Hone]].
    + pose proof (lookup_lt_Some _ _ _ Hj). rewrite list_lookup_insert_ne; [by apply Hw|].
      intros Heq%Z2Nat.inj; [|apply Z.mod_pos_bound; lia..]. revert Heq. apply mod_distinct. lia.
    + apply list_lookup_singleton_Some in Hone as [Hz0 <-].
      replace (ru + Z.of_nat j) with a by lia. apply list_lookup_insert_eq. apply Nat2Z.inj_lt.
      rewrite Z2Nat.id by (apply Z.mod_pos_bound; lia). rewrite Hal. apply Z.mod_pos_bound. lia.
  - unfold total in *. cbn [foldr]. lia.
  - rewrite drop_app_le by lia. apply laid_app; [rewrite length_drop, length_rev; lia|].
    exists vend. split; [done|]. cbn [laid]. eauto 10.
Qed.

Lemma represents_init h lim fs : represents h lim fs -> table_init h = h.
Proof. intros (ring & ids & v & vend & H). unfold table_init. by rewrite (rep_ring _ _ _ _ _ _ _ _ H). Qed.

Lemma add_spec h lim fs f :
  represents (table_init h) lim fs -> exists h', ngx_http_v2_add_header h f = Some h' /\ represents h' lim (spec_add lim fs f).
Proof.
  intros H. unfold ngx_http_v2_add_header. set (h0 := table_init h) in *.
  set (n := Z.of_nat (length (fst f)) + Z.of_nat (length (snd f))).
  assert (Hn : n + 32 = field_size f) by (unfold field_size; lia).
  destruct (account_spec h0 lim fs n H ltac:(lia)) as (h1 & Hacc). rewrite Hn in Hacc. unfold spec_add.
  destruct (lim <? field_size f); destruct Hacc as [-> H1]; cbn [mbind option_bind].
  { exists h1. by split. }
  destruct H1 as (ring & ids & v & vend & H1).
  destruct (take_entry_spec _ _ _ _ _ _ _ _ H1) as (id & h2 & ids2 & -> & H2 & Hnin & Hid & Hslot). cbn.
  destruct (store_entry_spec _ _ _ _ _ _ _ _ _ H2 Hnin Hid) as (h3 & e & -> & H3 & He & Hn1 & Hv1 & Hp & Hpv & Hslot3). cbn.
  destruct (grow_spec _ _ _ _ _ _ _ _ H3) as (h4 & ring4 & Hg & H4 & Hroom & Hhp & Hst & Hps).
  { destruct h3. by apply Hslot3. }
  assert (Hgrow : grow h3 = Some (set_pos (pos h3) h4)).
  { replace h3 with (set_pos (pos h3) (set_pos (pos h2) h3)) at 1 by (by destruct h3).
    by rewrite grow_set_pos, Hg. }
  rewrite Hgrow. cbn [mbind option_bind].
  apply (push_spec h4 lim _ ring4 ids2 v vend id e f (pos h3)); auto.
  - rewrite Hhp. by destruct h3.
  - rewrite Hst. by destruct h3.
  - rewrite Hst. by destruct h3.
Qed.

(** ** Histories *)

Inductive op := Add (f : header) | Resize (n : Z).

Definition op_ok (o : op) : Prop := match o with Add _ => True | Resize n => 0 <= n end.

Definition exec_op (h : hpack) (o : op) : option hpack :=
  match o with
  | Add f => ngx_http_v2_add_header h f
  | Resize n => snd <$> ngx_http_v2_table_size h n
  end.

Fixpoint exec (h : hpack) (ops : list op) : option hpack :=
  match ops with
  | [] => Some h
  | o :: ops => h ← exec_op h o; exec h ops
  end.

Definition spec_op (t : Z * list header) (o : op) : Z * list header :=
  match o with
  | Add f => (fst t, spec_add (fst t) (snd t) f)
  | Resize n => if NGX_HTTP_V2_TABLE_SIZE <? n then t else (n, fit n (snd t))
  end.

Definition spec_exec (t : Z * list header) (ops : list op) : Z * list header := fold_left spec_op ops t.

Lemma exec_spec ops : forall h lim fs,
  represents h lim fs -> Forall op_ok ops -> exists h', exec h ops = Some h'
  /\ represents h' (fst (spec_exec (lim, fs) ops)) (snd (spec_exec (lim, fs) ops)).
Proof.
  induction ops as [|o ops IH]; intros h lim fs H Hok; [by exists h|]. apply Forall_cons_1 in Hok as [Ho Hok].
  unfold spec_exec. cbn [exec fold_left]. fold (spec_exec (spec_op (lim, fs) o) ops).
  destruct o as [f|n]; cbn [exec_op spec_op fst snd].
  - destruct (add_spec h lim fs f) as (h1 & -> & H1); [by rewrite (represents_init _ _ _ H)|]. by apply IH.
  - destruct (table_size_spec h lim fs n H Ho) as (h1 & H1). destruct (NGX_HTTP_V2_TABLE_SIZE <? n).
    + destruct H1 as [-> ->]. by apply IH.
    + destruct H1 as [-> H1]. by apply IH.
Qed.

(** Nothing was inserted yet. *)
Definition unused (junk : list Z) (h : hpack) : Prop :=
  exists n, 0 <= n /\ h = MkHpack None 0 0 0 0 n n junk 0 [].

Lemma unused_exec junk ns : forall h,
  unused junk h -> Forall (fun n => 0 <= n) ns -> exists h', exec h (map Resize ns) = Some h' /\ unused junk h'.
Proof.
  induction ns as [|n ns IH]; intros h Hh Hns; [by exists h|]. apply Forall_cons_1 in Hns as [Hn Hns].
  destruct Hh as (m & Hm & ->). cbn [map exec exec_op]. unfold ngx_http_v2_table_size. cbn [size free].
  destruct (_ <? n); cbn [fmap option_fmap option_map mbind option_bind snd]; [apply IH; [by exists m|done]|].
  destruct (Z.ltb_spec m (m - n)); [lia|]. cbn [mbind option_bind fmap option_fmap option_map snd free set_limit].
  apply IH; [|done]. exists n. split; [done|]. f_equal. lia.
Qed.

Lemma unused_represents junk h :
  Z.of_nat (length junk) = 4096 -> unused junk h -> represents (table_init h) NGX_HTTP_V2_TABLE_SIZE [].
Proof.
  intros Hj (n & Hn & ->). unfold table_init. cbn [entries]. exists (replicate 64 None), [], 0, 0.
  constructor; cbn; try done; try lia; constructor.
Qed.

Lemma exec_app ops1 ops2 h : exec h (ops1 ++ ops2) = (h ← exec h ops1; exec h ops2).
Proof.
  revert h. induction ops1 as [|o ops1 IH]; intros h; [done|]. cbn. destruct (exec_op h o); [apply IH|done].
Qed.

(** C13. The dynamic table refines the table of RFC 7541: after any sequence of insertions
    and size updates, no read leaves the memory that was written, and every index
    returns the static or dynamic field that the specification has there, or an error
    beyond the last one.  The exception are size updates that arrive before the first
    insertion ([early]): they are forgotten, the table starts with 4096 bytes. *)
Theorem hpack_table_refines (junk : list Z) (early : list Z) (f : list Z * list Z) (ops : list op)
    (Hj : Z.of_nat (length junk) = 4096) (He : Forall (fun n => 0 <= n) early) (Ho : Forall op_ok ops) :
  exists h, exec (hpack_init junk) (map Resize early ++ Add f :: ops) = Some h
    /\ forall index name_only, 0 <= index ->
         ngx_http_v2_get_indexed_header h index name_only
         = Some (spec_get (snd (spec_exec (NGX_HTTP_V2_TABLE_SIZE, []) (Add f :: ops))) index name_only).
Proof.
  destruct (unused_exec junk early (hpack_init junk)) as (h0 & E0 & H0); [by exists 0|done|].
  apply unused_represents in H0; [|done]. destruct (add_spec h0 _ _ f H0) as (h1 & E1 & H1).
  destruct (exec_spec ops _ _ _ H1 Ho) as (h2 & E2 & H2). exists h2. split.
  - rewrite exec_app, E0. cbn. by rewrite E1.
  - intros index name_only Hi. by apply (get_spec _ _ _ _ _ H2).
Qed.

(** The table was announced to hold 40 bytes, yet both fields are still there. *)
Lemma hpack_table_refines_witness :
  exists h, exec (hpack_init (replicate (Z.to_nat 4096) 0))
              [Resize 40; Add (str("a"), str("b")); Add (str("c"), str("d"))] = Some h
    /\ ngx_http_v2_get_indexed_header h 63 false = Some (Some (str("a"), str("b"))).
Proof.
  destruct (hpack_table_refines (replicate (Z.to_nat 4096) 0) [40] (str("a"), str("b")) [Add (str("c"), str("d"))]
    ltac:(by rewrite length_replicate) ltac:(by_evaluation) ltac:(by repeat constructor)) as (h & Hh & Hget).
  exists h. split; [exact Hh|]. rewrite (Hget 63 false ltac:(lia)). vm_compute. reflexivity.
Defined.
