(* ===== verification/NgxPrint.v ===== *)
(** * Formatted output: ngx_vslprintf, ngx_sprintf_num and ngx_sprintf_str of ngx_string.c

    The output is the list of the bytes written from [buf]; [cap] is the distance from
    there to [last].  The format is a NUL-terminated string, and the arguments are a
    list: reading an argument that is not there, or of another type, has no result.
    An argument of %f is what the code computes from the double: its sign, its integer
    part, and the scaled fraction for a given scale. *)

From S2P Require Import Prelude NgxNumber.

Definition NGX_INT64_LEN : Z := 20.
Definition NGX_INT_T_LEN : Z := 20.
Definition NGX_ATOMIC_T_LEN : Z := 20.
Definition NGX_MAX_UINT32_VALUE : Z := 0xffffffff.

Definition hex_lower : list Z := str("0123456789abcdef").
Definition hex_upper : list Z := str("0123456789ABCDEF").

(** ** Numbers *)

(** do { *--p = digit } while (n /= base); 64 rounds are enough for every base. *)
Fixpoint decimal_digits (fuel : nat) (ui : Z) (p : list Z) : list Z :=
  match fuel with
  | O => p
  | S fuel =>
      let p := u8 (ui mod 10 + ch("0")) :: p in
      if ui / 10 =? 0 then p else decimal_digits fuel (ui / 10) p
  end.

Fixpoint hex_digits (fuel : nat) (table : list Z) (ui : Z) (p : list Z) : list Z :=
  match fuel with
  | O => p
  | S fuel =>
      let p := arr 0 table (Z.land ui 0xf) :: p in
      let ui := Z.shiftr ui 4 in
      if ui =? 0 then p else hex_digits fuel table ui p
  end.

Definition num_digits (hexadecimal ui64 : Z) : list Z :=
  if hexadecimal =? 0 then
    if ui64 <=? NGX_MAX_UINT32_VALUE then decimal_digits 64 (u32 ui64) [] else decimal_digits 64 ui64 []
  else if hexadecimal =? 1 then hex_digits 64 hex_lower ui64 []
  else hex_digits 64 hex_upper ui64 [].

(** The bytes that still fit. *)
Definition room (cap : Z) (out : list Z) : Z := cap - Z.of_nat (length out).

(** while (len++ < width && buf < last) { *buf++ = zero; } with [n] = width - len *)
Fixpoint padding (n : nat) (cap zero : Z) (out : list Z) : list Z :=
  match n with
  | O => out
  | S n => if 0 <? room cap out then padding n cap zero (out ++ [zero]) else out
  end.

(** ngx_sprintf_num *)
Definition ngx_sprintf_num (cap : Z) (out : list Z) (ui64 zero hexadecimal width : Z) : list Z :=
  let p := num_digits hexadecimal ui64 in
  let len := Z.of_nat (length p) in
  let out := padding (Z.to_nat (width - len)) cap zero out in
  let len := if room cap out <? len then room cap out else len in
  out ++ take (Z.to_nat len) p.

(** ** Strings *)

(** while ( *src && buf < last) { *buf++ = *src++; } where [src] ends with its NUL *)
Fixpoint copy_cstr (cap : Z) (out src : list Z) : list Z :=
  match src with
  | [] => out
  | c :: src => if 0 <? room cap out then copy_cstr cap (out ++ [c]) src else out
  end.

(** The two loops that write two digits for each byte. *)
Fixpoint copy_hex (table : list Z) (cap : Z) (out src : list Z) : list Z :=
  match src with
  | [] => out
  | c :: src =>
      if 1 <? room cap out
      then copy_hex table cap (out ++ [arr 0 table (Z.shiftr c 4); arr 0 table (Z.land c 0xf)]) src
      else out
  end.

(** ngx_sprintf_str: [len] is [None] for (size_t) -1, when [src] stops at its NUL. *)
Definition ngx_sprintf_str (cap : Z) (out src : list Z) (len : option Z) (hexadecimal : Z) : list Z :=
  let src := match len with Some len => take (Z.to_nat len) src | None => src end in
  if hexadecimal =? 0 then
    match len with
    | None => copy_cstr cap out src
    | Some _ => out ++ take (Z.to_nat (Z.min (room cap out) (Z.of_nat (length src)))) src
    end
  else if hexadecimal =? 1 then copy_hex hex_lower cap out src
  else copy_hex hex_upper cap out src.

(** ** The format *)

Inductive arg :=
| AInt (n : Z)                                      (** any integer type *)
| AStr (s : list Z)                                 (** ngx_str_t, or a string before its NUL *)
| ADouble (negative : bool) (int_part : Z) (frac : Z -> Z).

(** Conversion to a signed type of [w] bits. *)
Definition sint (w z : Z) : Z := let u := wrap w z in if u <? 2 ^ (w - 1) then u else u - 2 ^ w.

Record conv := MkConv {
  zero : Z;
  width : Z;
  sign : bool;
  hex : Z;
  max_width : bool;
  frac_width : Z;
  slen : option Z;
}.

(** while ( *fmt >= '0' && *fmt <= '9') n = n * 10 + ( *fmt++ - '0') *)
Fixpoint read_width (n : Z) (fmt : list Z) : Z * list Z :=
  match fmt with
  | c :: fmt' => if is_digit c then read_width (u64 (n * 10 + (c - ch("0")))) fmt' else (n, fmt)
  | [] => (n, [])
  end.

(** for ( ;; ) switch ( *fmt): the flags *)
Fixpoint read_flags (c : conv) (fmt : list Z) (args : list arg) : option (conv * list Z * list arg) :=
  let '(MkConv ze wi si he mw fw sl) := c in
  match fmt with
  | f :: fmt' =>
      if f =? ch("u") then read_flags (MkConv ze wi false he mw fw sl) fmt' args
      else if f =? ch("m") then read_flags (MkConv ze wi si he true fw sl) fmt' args
      else if f =? ch("X") then read_flags (MkConv ze wi false 2 mw fw sl) fmt' args
      else if f =? ch("x") then read_flags (MkConv ze wi false 1 mw fw sl) fmt' args
      else if f =? ch(".") then
        let '(n, fmt') := read_width fw fmt' in Some (MkConv ze wi si he mw n sl, fmt', args)
      else if f =? ch("*") then
        match args with
        | AInt n :: args => read_flags 
                         (MkConv ze wi si he mw fw (if u64 n =? 2 ^ 64 - 1 then None else Some (u64 n))) fmt' args
        | _ => None
        end
      else Some (c, fmt, args)
  | [] => Some (c, fmt, args)
  end.

Definition pop_int (args : list arg) : option (Z * list arg) :=
  match args with AInt n :: args => Some (n, args) | _ => None end.
Definition pop_str (args : list arg) : option (list Z * list arg) :=
  match args with AStr s :: args => Some (s, args) | _ => None end.

(** The end of a number conversion: the sign, then the digits. *)
Definition put_num (cap : Z) (out : list Z) (c : conv) (sign : bool) (i64 ui64 : Z) : list Z :=
  let '(out, ui64) :=
    if sign then if i64 <? 0 then (out ++ [ch("-")], u64 (- i64)) else (out, i64) else (out, ui64) in
  ngx_sprintf_num cap out ui64 (zero c) (hex c) (width c).

(** An integer argument of [w] bits, signed or not. *)
Definition put_int (cap : Z) (out : list Z) (c : conv) (sign : bool) (w : Z) (n : Z) : list Z :=
  put_num cap out c sign (sint w n) (wrap w n).

Definition with_width (w : Z) (c : conv) : conv :=
  if max_width c then let '(MkConv ze _ si he mw fw sl) := c in MkConv ze w si he mw fw sl else c.

(** The product in the loop that computes the scale. *)
Definition scale (frac_width : Z) : Z := u64 (10 ^ frac_width).

Definition put_double (cap : Z) (out : list Z) (c : conv) (negative : bool) (int_part : Z) (frac : Z -> Z) : list Z :=
  let out := if negative then out ++ [ch("-")] else out in
  let ui64 := u64 int_part in
  let '(ui64, fr) :=
    if frac_width c =? 0 then (ui64, 0)
    else
      let fr := u64 (frac (scale (frac_width c))) in
      if fr =? scale (frac_width c) then (u64 (ui64 + 1), 0) else (ui64, fr) in
  let out := ngx_sprintf_num cap out ui64 (zero c) 0 (width c) in
  if frac_width c =? 0 then out
  else
    let out := if 0 <? room cap out then out ++ [ch(".")] else out in
    ngx_sprintf_num cap out fr (ch("0")) 0 (frac_width c).

(** switch ( *fmt): the conversion character [f]. *)
Definition convert (cap : Z) (out : list Z) (c : conv) (f : Z) (args : list arg) : option (list Z * list arg) :=
  if (f =? ch("V")) || (f =? ch("v")) then
    '(s, args) ← pop_str args; Some (ngx_sprintf_str cap out s (Some (Z.of_nat (length s))) (hex c), args)
  else if f =? ch("s") then
    '(s, args) ← pop_str args;
    match slen c with
    | Some n => if Z.of_nat (length s) <? n then None else Some (ngx_sprintf_str cap out s (Some n) (hex c), args)
    | None => Some (ngx_sprintf_str cap out s None (hex c), args)
    end
  else if (f =? ch("O")) || (f =? ch("T")) || (f =? ch("r")) then
    '(n, args) ← pop_int args; Some (put_int cap out c true 64 n, args)
  else if f =? ch("P") then '(n, args) ← pop_int args; Some (put_int cap out c true 32 n, args)
  else if f =? ch("M") then
    '(n, args) ← pop_int args;
    Some (if sint 64 n =? -1 then put_num cap out c true (-1) 0 else put_num cap out c false 0 (u64 n), args)
  else if (f =? ch("z")) || (f =? ch("l")) || (f =? ch("L")) then
    '(n, args) ← pop_int args; Some (put_int cap out c (sign c) 64 n, args)
  else if f =? ch("i") then
    '(n, args) ← pop_int args; Some (put_int cap out (with_width NGX_INT_T_LEN c) (sign c) 64 n, args)
  else if (f =? ch("d")) || (f =? ch("D")) then
    '(n, args) ← pop_int args; Some (put_int cap out c (sign c) 32 n, args)
  else if f =? ch("A") then
    '(n, args) ← pop_int args; Some (put_int cap out (with_width NGX_ATOMIC_T_LEN c) (sign c) 64 n, args)
  else if f =? ch("f") then
    match args with
    | ADouble ng ip fr :: args => Some (put_double cap out c ng ip fr, args)
    | _ => None
    end
  else if f =? ch("p") then
    '(n, args) ← pop_int args; Some (ngx_sprintf_num cap out (u64 n) (ch("0")) 2 16, args)
  else if f =? ch("c") then '(n, args) ← pop_int args; Some (out ++ [Z.land n 0xff], args)
  else if f =? ch("Z") then Some (out ++ [0], args)
  else if f =? ch("N") then Some (out ++ [10], args)
  else if f =? ch("%") then Some (out ++ [ch("%")], args)
  else Some (out ++ [f], args).

(** The loop of ngx_vslprintf; [fmt] is the format before its NUL, and a format that
    stops inside a conversion has no result. *)
Fixpoint vslprintf_loop (fuel : nat) (cap : Z) (out fmt : list Z) (args : list arg) : option (list Z) :=
  match fuel with
  | O => None
  | S fuel =>
      match fmt with
      | [] => Some out
      | c :: fmt =>
          if negb (0 <? room cap out) then Some out
          else if c =? ch("%") then
            let ze := match fmt with d :: _ => if d =? ch("0") then ch("0") else ch(" ") | [] => ch(" ") end in
            let '(wi, fmt) := read_width 0 fmt in
            '(cv, fmt, args) ← read_flags (MkConv ze wi true 0 false 0 None) fmt args;
            match fmt with
            | [] => None
            | f :: fmt => '(out, args) ← convert cap out cv f args; vslprintf_loop fuel cap out fmt args
            end
          else vslprintf_loop fuel cap (out ++ [c]) fmt args
      end
  end.

(** ngx_vslprintf: every round consumes a byte of the format. *)
Definition ngx_vslprintf (cap : Z) (fmt : list Z) (args : list arg) : option (list Z) :=
  vslprintf_loop (S (length fmt)) cap [] fmt args.

(** ngx_snprintf; ngx_sprintf is bounded only by the end of the address space. *)
Definition ngx_snprintf (max : Z) (fmt : list Z) (args : list arg) : option (list Z) := ngx_vslprintf max fmt args.
Definition ngx_sprintf (buf : Z) (fmt : list Z) (args : list arg) : option (list Z) :=
  ngx_vslprintf (2 ^ 64 - 1 - buf) fmt args.

Example print_ex :
  ngx_sprintf 0x1000 (str("%V is %03d, %uxD, %5i|%.3f %*s"))
    [AStr (str("x")); AInt 7; AInt 255; AInt (-42); ADouble false 3 (fun s => 142 * s / 1000); AInt 2; AStr (str("abc"))]
  = Some (str("x is 007, ff, -   42|3.142 ab"))
  /\ ngx_snprintf 6 (str("%V is %03d")) [AStr (str("x")); AInt 7] = Some (str("x is 0")).
Proof. vm_compute. auto. Qed.

(** ** Digits *)

Lemma decimal_digits_spec fuel : forall ui p,
  (0 < fuel)%nat -> 0 <= ui < 10 ^ Z.of_nat fuel -> exists ds, decimal_digits fuel ui p = ds ++ p
  /\ forallb is_digit ds = true /\ dec_value 0 ds = ui /\ (0 < length ds)%nat
  /\ (forall k, 0 < k -> ui < 10 ^ k -> Z.of_nat (length ds) <= k).
Proof.
  induction fuel as [|fuel IH]; intros ui p Hf Hui; [lia|]. cbn [decimal_digits].
  set (d := u8 (ui mod 10 + ch("0"))).
  assert (Hd : d = ui mod 10 + ch("0")) by (apply wrap_small; unfold in_u; zlia).
  assert (Hdig : is_digit d = true) by (rewrite Hd; unfold is_digit; apply andb_true_intro; split; apply Z.leb_le; zlia).
  destruct (Z.eqb_spec (ui / 10) 0) as [Hz|Hnz].
  - exists [d]. cbn [forallb dec_value length app]. rewrite Hdig. split_and!; auto; [rewrite Hd; zlia|lia].
  - assert (Hlt : 0 <= ui / 10 < 10 ^ Z.of_nat fuel).
    { rewrite Nat2Z.inj_succ, Z.pow_succ_r in Hui by lia. zlia. }
    assert (Hf' : (0 < fuel)%nat) by (destruct fuel; [cbn in Hlt; lia|lia]).
    destruct (IH (ui / 10) (d :: p) Hf' Hlt) as (ds & -> & Hds & Hv & Hl & Hk).
    exists (ds ++ [d]). rewrite <- app_assoc, forallb_app, dec_value_app, Hds, Hv, length_app. cbn [forallb dec_value length app].
    rewrite Hdig. split_and!; auto; [rewrite Hd; zlia|lia|]. intros k Hk0 Huk.
    destruct (decide (k = 1)) as [->|Hk1]; [change (10 ^ 1) with 10 in Huk; exfalso; apply Hnz; zlia|].
    specialize (Hk (k - 1) ltac:(lia)). replace k with (Z.succ (k - 1)) in Huk by lia. rewrite Z.pow_succ_r in Huk by lia.
    assert (ui / 10 < 10 ^ (k - 1)) by zlia. lia.
Qed.

Lemma hex_table_digit table d :
  (table = hex_lower \/ table = hex_upper) -> 0 <= d < 16 ->
  hex_digit (arr 0 table d) = Some d /\ is_byte (arr 0 table d).
Proof.
  intros Ht Hd. assert (H : forall t, t = hex_lower \/ t = hex_upper ->
    all_below 16 (fun d => bool_decide (hex_digit (arr 0 t d) = Some d) && bool_decide (is_byte (arr 0 t d))) = true)
    by (intros t [->| ->]; vm_compute; reflexivity).
  apply (all_below_spec _ _ (H table Ht)) in Hd. apply andb_prop in Hd as [H1 H2].
  by apply bool_decide_eq_true in H1, H2.
Qed.

Lemma hex_value_app acc l1 l2 : hex_value acc (l1 ++ l2) = (v ← hex_value acc l1; hex_value v l2).
Proof. revert acc. induction l1 as [|c l1 IH]; intros acc; [done|]. cbn. destruct (hex_digit c); [apply IH|done]. Qed.

Lemma hex_digits_spec table fuel : forall ui p,
  (table = hex_lower \/ table = hex_upper) -> (0 < fuel)%nat -> 0 <= ui < 16 ^ Z.of_nat fuel ->
  exists ds, hex_digits fuel table ui p = ds ++ p
  /\ bytes_ok ds /\ hex_value 0 ds = Some ui /\ (0 < length ds)%nat
  /\ (forall k, 0 < k -> ui < 16 ^ k -> Z.of_nat (length ds) <= k).
Proof.
  intros ui p Ht. revert ui p. induction fuel as [|fuel IH]; intros ui p Hf Hui; [lia|]. cbn [hex_digits].
  rewrite Z.shiftr_div_pow2 by lia. change (2 ^ 4) with 16.
  assert (Hm : Z.land ui 0xf = ui mod 16) by (by bits_to_arith). rewrite Hm.
  destruct (hex_table_digit table (ui mod 16) Ht ltac:(zlia)) as [Hd Hb].
  set (d := arr 0 table (ui mod 16)) in *.
  destruct (Z.eqb_spec (ui / 16) 0) as [Hz|Hnz].
  - exists [d]. cbn [hex_value length app]. rewrite Hd. cbn [mbind option_bind].
    split_and!; auto; [f_equal; zlia|lia].
  - assert (Hlt : 0 <= ui / 16 < 16 ^ Z.of_nat fuel).
    { rewrite Nat2Z.inj_succ, Z.pow_succ_r in Hui by lia. zlia. }
    assert (Hf' : (0 < fuel)%nat) by (destruct fuel; [cbn in Hlt; lia|lia]).
    destruct (IH (ui / 16) (d :: p) Hf' Hlt) as (ds & -> & Hds & Hv & Hl & Hk).
    exists (ds ++ [d]). rewrite <- app_assoc, hex_value_app, Hv, length_app. cbn [length app hex_value mbind option_bind].
    rewrite Hd. cbn [mbind option_bind]. split_and!; auto.
    + apply Forall_app. auto.
    + f_equal. zlia.
    + lia.
    + intros k Hk0 Huk. destruct (decide (k = 1)) as [->|Hk1]; [change (16 ^ 1) with 16 in Huk; exfalso; apply Hnz; zlia|].
      specialize (Hk (k - 1) ltac:(lia)). replace k with (Z.succ (k - 1)) in Huk by lia. rewrite Z.pow_succ_r in Huk by lia.
      assert (ui / 16 < 16 ^ (k - 1)) by zlia. lia.
Qed.

(** The digits fit in the local buffer of NGX_INT64_LEN bytes. *)
Lemma num_digits_decimal ui64 :
  in_u 64 ui64 -> exists ds, num_digits 0 ui64 = ds /\ forallb is_digit ds = true /\ dec_value 0 ds = ui64
  /\ (0 < length ds)%nat /\ (forall k, 0 < k -> ui64 < 10 ^ k -> Z.of_nat (length ds) <= k)
  /\ Z.of_nat (length ds) <= NGX_INT64_LEN.
Proof.
  unfold in_u, NGX_INT64_LEN. intros H. unfold num_digits. cbn [Z.eqb].
  destruct (decimal_digits_spec 64 ui64 []) as (ds & Hds & H1 & H2 & H3 & H4); [lia|split; [lia|]|].
  { apply Z.lt_trans with (2 ^ 64); [lia|vm_compute; done]. }
  rewrite app_nil_r in Hds. exists ds. split_and!; auto.
  - case_if; [|done]. zbool. unfold NGX_MAX_UINT32_VALUE in E. by rewrite wrap_small by (unfold in_u; lia).
  - apply H4; [lia|]. apply Z.lt_trans with (2 ^ 64); [lia|vm_compute; done].
Qed.

Lemma num_digits_hex h ui64 :
  h = 1 \/ h = 2 -> in_u 64 ui64 -> exists ds, num_digits h ui64 = ds /\ bytes_ok ds /\ hex_value 0 ds = Some ui64
  /\ (0 < length ds)%nat /\ Z.of_nat (length ds) <= 16.
Proof.
  unfold in_u. intros Hh H.
  assert (Ht : exists t, (t = hex_lower \/ t = hex_upper) /\ num_digits h ui64 = hex_digits 64 t ui64 [])
    by (destruct Hh as [->| ->]; [exists hex_lower|exists hex_upper]; auto).
  destruct Ht as (t & Ht & ->).
  destruct (hex_digits_spec t 64 ui64 [] Ht) as (ds & -> & H1 & H2 & H3 & H4); [lia|split; [lia|]|].
  { apply Z.lt_trans with (2 ^ 64); [lia|vm_compute; done]. }
  exists ds. rewrite app_nil_r. split_and!; auto. apply H4; [lia|]. change (16 ^ 16) with (2 ^ 64). lia.
Qed.

(** ** Bounded output

    A piece of output that does not depend on the room left is cut at [last]. *)
Definition appends (f : Z -> list Z -> list Z) (d : list Z) : Prop :=
  forall cap out, Z.of_nat (length out) <= cap -> f cap out = take (Z.to_nat cap) (out ++ d).

Lemma take_take_app {A} n (l d : list A) : take n (take n l ++ d) = take n (l ++ d).
Proof.
  rewrite !take_app, take_take, Nat.min_id, length_take. f_equal.
  destruct (decide (length l <= n)%nat); [f_equal; lia|].
  replace (n - n `min` length l)%nat with 0%nat by lia. by replace (n - length l)%nat with 0%nat by lia.
Qed.

Lemma appends_comp f g d e : appends f d -> appends g e -> appends (fun cap out => g cap (f cap out)) (d ++ e).
Proof.
  intros Hf Hg cap out Ho. rewrite Hf by done. rewrite Hg by (rewrite length_take; lia).
  by rewrite take_take_app, app_assoc.
Qed.

Lemma appends_bounded f d cap out :
  appends f d -> Z.of_nat (length out) <= cap -> Z.of_nat (length (f cap out)) <= cap.
Proof. intros Hf Ho. rewrite Hf by done. rewrite length_take. lia. Qed.

Lemma appends_nil : appends (fun _ out => out) [].
Proof. intros cap out Ho. rewrite app_nil_r, take_ge; [done|lia]. Qed.

Lemma appends_padding n ze : appends (fun cap => padding n cap ze) (replicate n ze).
Proof.
  induction n as [|n IH]; intros cap out Ho; cbn [padding replicate]; [by rewrite app_nil_r, take_ge by lia|].
  unfold room. destruct (Z.ltb_spec 0 (cap - Z.of_nat (length out))).
  - rewrite IH by (rewrite length_app; cbn; lia). by rewrite <- app_assoc.
  - rewrite take_app_le, take_ge by lia. done.
Qed.

Lemma appends_take p : appends (fun cap out => out ++ take (Z.to_nat (if room cap out <? Z.of_nat (length p) then room cap out else Z.of_nat (length p))) p) p.
Proof.
  intros cap out Ho. unfold room. rewrite take_app, (take_ge out) by lia. f_equal. case_if; zbool.
  - f_equal. lia.
  - rewrite !take_ge by lia. done.
Qed.

(** What ngx_sprintf_num prints when there is room. *)
Definition num_text (ui64 zero hexadecimal width : Z) : list Z :=
  let p := num_digits hexadecimal ui64 in
  replicate (Z.to_nat (width - Z.of_nat (length p))) zero ++ p.

Lemma appends_num ui64 ze hx wi :
  appends (fun cap out => ngx_sprintf_num cap out ui64 ze hx wi) (num_text ui64 ze hx wi).
Proof. unfold num_text. apply (appends_comp _ _ _ _ (appends_padding _ _) (appends_take _)). Qed.

Lemma appends_cstr src : appends (fun cap out => copy_cstr cap out src) src.
Proof.
  induction src as [|c src IH]; intros cap out Ho; cbn [copy_cstr]; [by rewrite app_nil_r, take_ge by lia|].
  unfold room. destruct (Z.ltb_spec 0 (cap - Z.of_nat (length out))).
  - rewrite IH by (rewrite length_app; cbn; lia). by rewrite <- app_assoc.
  - rewrite take_app_le, take_ge by lia. done.
Qed.

(** The text of a string conversion without hexadecimal. *)
Definition str_text (s : list Z) (len : option Z) : list Z :=
  match len with Some n => take (Z.to_nat n) s | None => s end.

Lemma appends_str s len : appends (fun cap out => ngx_sprintf_str cap out s len 0) (str_text s len).
Proof.
  unfold ngx_sprintf_str, str_text. cbn [Z.eqb]. destruct len as [n|]; [|apply appends_cstr].
  intros cap out Ho. rewrite (take_app out), (take_ge out) by lia. f_equal. unfold room.
  destruct (decide (Z.of_nat (length (take (Z.to_nat n) s)) <= cap - Z.of_nat (length out))).
  - rewrite !(take_ge (take (Z.to_nat n) s)); [done|lia|lia].
  - f_equal. lia.
Qed.

Lemma copy_hex_bounded table src : forall cap out,
  Z.of_nat (length out) <= cap -> Z.of_nat (length (copy_hex table cap out src)) <= cap.
Proof.
  induction src as [|c src IH]; intros cap out Ho; cbn [copy_hex]; [done|]. unfold room.
  destruct (Z.ltb_spec 1 (cap - Z.of_nat (length out))); [|done]. apply IH. rewrite length_app. cbn. lia.
Qed.

(** One byte, written when there is room for it. *)
Lemma one_byte cap (out : list Z) c :
  Z.of_nat (length out) < cap -> out ++ [c] = take (Z.to_nat cap) (out ++ [c]).
Proof. intros H. rewrite take_ge; [done|]. rewrite length_app. cbn. lia. Qed.

(** The same when there is room for one byte at least. *)
Definition appends1 (f : Z -> list Z -> list Z) (d : list Z) : Prop :=
  forall cap out, Z.of_nat (length out) < cap -> f cap out = take (Z.to_nat cap) (out ++ d).

Lemma appends_appends1 f d : appends f d -> appends1 f d.
Proof. intros H cap out Ho. apply H. lia. Qed.

Lemma appends1_byte c : appends1 (fun _ out => out ++ [c]) [c].
Proof. intros cap out Ho. by apply one_byte. Qed.

Lemma appends1_comp f g d e : appends1 f d -> appends g e -> appends1 (fun cap out => g cap (f cap out)) (d ++ e).
Proof.
  intros Hf Hg cap out Ho. rewrite Hf by done. rewrite Hg by (rewrite length_take; lia).
  by rewrite take_take_app, app_assoc.
Qed.

Lemma put_num_text c sg i u : exists d, appends1 (fun cap out => put_num cap out c sg i u) d.
Proof.
  unfold put_num. destruct sg; [destruct (i <? 0)|].
  - eexists. apply (appends1_comp _ _ _ _ (appends1_byte (ch("-"))) (appends_num _ _ _ _)).
  - eexists. apply appends_appends1, appends_num.
  - eexists. apply appends_appends1, appends_num.
Qed.

Lemma appends_dot : appends (fun cap out => if 0 <? room cap out then out ++ [ch(".")] else out) [ch(".")].
Proof.
  intros cap out Ho. unfold room. destruct (Z.ltb_spec 0 (cap - Z.of_nat (length out))).
  - apply one_byte. lia.
  - by rewrite take_app_le, take_ge by lia.
Qed.

Lemma put_double_text c ng ip fr : exists d, appends1 (fun cap out => put_double cap out c ng ip fr) d.
Proof.
  unfold put_double. set (nums := if frac_width c =? 0 then _ else _). destruct nums as [ui f].
  set (rest := fun cap out => let out := ngx_sprintf_num cap out ui (zero c) 0 (width c) in
    if frac_width c =? 0 then out
    else ngx_sprintf_num cap (if 0 <? room cap out then out ++ [ch(".")] else out) f (ch("0")) 0 (frac_width c)).
  assert (Hrest : exists e, appends rest e).
  { unfold rest. destruct (frac_width c =? 0); eexists; [apply appends_num|].
    apply (appends_comp _ _ _ _ (appends_num ui (zero c) 0 (width c)) (appends_comp _ _ _ _ appends_dot (appends_num f (ch("0")) 0 (frac_width c)))). }
  destruct Hrest as [e He]. destruct ng; eexists.
  - apply (appends1_comp _ rest _ _ (appends1_byte (ch("-"))) He).
  - apply appends_appends1, He.
Qed.

Definition is_str_conv (f : Z) : bool := (f =? ch("V")) || (f =? ch("v")) || (f =? ch("s")).

(** Every conversion but a hexadecimal string appends a text that does not depend on
    the room. *)
Lemma convert_text c f args :
  hex c = 0 \/ is_str_conv f = false ->
  (forall cap out, convert cap out c f args = None)
  \/ exists d args', forall cap out, Z.of_nat (length out) < cap ->
       convert cap out c f args = Some (take (Z.to_nat cap) (out ++ d), args').
Proof.
  intros Hx.
  assert (Hone : forall (g : Z -> list Z -> list Z) (args' : list arg), (exists d, appends1 g d) ->
    exists d args'', forall cap out, Z.of_nat (length out) < cap ->
      Some (g cap out, args') = Some (take (Z.to_nat cap) (out ++ d), args'')).
  { intros g args' [d Hd]. exists d, args'. intros cap out Ho. by rewrite Hd. }
  assert (Hstr : is_str_conv f = true -> forall s len (args' : list arg), exists d args'', forall cap out, Z.of_nat (length out) < cap ->
      Some (ngx_sprintf_str cap out s len (hex c), args') = Some (take (Z.to_nat cap) (out ++ d), args'')).
  { intros Hs s len args'. destruct Hx as [->|Hx]; [|congruence].
    apply (Hone (fun cap out => ngx_sprintf_str cap out s len 0)). eexists. apply appends_appends1, appends_str. }
  unfold convert, put_int. unfold is_str_conv in Hstr.
  destruct (f =? ch("V")), (f =? ch("v")), (f =? ch("s")); cbn [orb] in *.
  all: repeat case_if; unfold pop_int, pop_str; destruct args as [|[n|s|ng ip fr] args]; cbn [mbind option_bind]; auto.
  all: try (destruct (slen c) as [n|]; [destruct (_ <? n)|]; auto).
  all: right; try (by apply Hstr).
  all: try (apply Hone, put_num_text).
  all: try (apply (Hone (fun cap out => put_double cap out c ng ip fr)), put_double_text).
  all: try (apply (Hone (fun _ out => out ++ [_])); eexists; apply appends1_byte).
  all: try (apply (Hone (fun cap out => ngx_sprintf_num cap out _ _ _ _)); eexists; apply appends_appends1, appends_num).
  destruct (sint 64 n =? -1); apply Hone, put_num_text.
Qed.

Lemma convert_bounded cap out c f args out' args' :
  Z.of_nat (length out) < cap -> convert cap out c f args = Some (out', args') -> Z.of_nat (length out') <= cap.
Proof.
  intros Ho H. destruct (decide (hex c = 0 \/ is_str_conv f = false)) as [Hx|Hx].
  - destruct (convert_text c f args Hx) as [Hn|(d & a & Hd)]; [by rewrite Hn in H|].
    rewrite Hd in H by done. simplify_eq. rewrite length_take. lia.
  - assert (Hs : hex c <> 0 /\ is_str_conv f = true) by (destruct (is_str_conv f); tauto). destruct Hs as [Hh Hs].
    assert (Hstr : forall s len, Z.of_nat (length (ngx_sprintf_str cap out s len (hex c))) <= cap).
    { intros s len. unfold ngx_sprintf_str. destruct (Z.eqb_spec (hex c) 0); [done|].
      case_if; apply copy_hex_bounded; lia. }
    unfold convert in H. unfold is_str_conv in Hs.
    destruct (f =? ch("V")), (f =? ch("v")), (f =? ch("s")); cbn [orb] in *; try done;
      unfold pop_str in H; destruct args as [|[n|s|ng ip fr] args]; cbn [mbind option_bind] in H; try done;
      try (destruct (slen c) as [n|]; [destruct (_ <? n)|]); simplify_eq; auto.
Qed.

Lemma vslprintf_loop_bounded fuel : forall cap out fmt args out',
  Z.of_nat (length out) <= cap -> vslprintf_loop fuel cap out fmt args = Some out' -> Z.of_nat (length out') <= cap.
Proof.
  induction fuel as [|fuel IH]; intros cap out fmt args out' Ho H; [done|]. cbn [vslprintf_loop] in H.
  destruct fmt as [|c fmt]; [by simplify_eq|]. unfold room in H.
  destruct (Z.ltb_spec 0 (cap - Z.of_nat (length out))); cbn [negb] in H; [|by simplify_eq].
  destruct (c =? ch("%")).
  - destruct (read_width 0 fmt) as [wi fmt1].
    destruct (read_flags _ fmt1 args) as [[[cv fmt2] args2]|]; [cbn [mbind option_bind] in H|done].
    destruct fmt2 as [|f fmt2]; [done|].
    destruct (convert cap out cv f args2) as [[out2 args3]|] eqn:E; [cbn [mbind option_bind] in H|done].
    apply convert_bounded in E; [|lia]. by eapply IH.
  - eapply IH; [|exact H]. rewrite length_app. cbn. lia.
Qed.

(** A format without hexadecimal conversions. *)
Definition no_hex (fmt : list Z) : Prop := Forall (fun c => c <> ch("x") /\ c <> ch("X")) fmt.

Lemma read_width_suffix n fmt m fmt' : read_width n fmt = (m, fmt') -> no_hex fmt -> no_hex fmt'.
Proof.
  revert n. induction fmt as [|c fmt IH]; intros n H Hx; cbn in H; [by simplify_eq|].
  destruct (is_digit c); [|by simplify_eq]. apply Forall_cons_1 in Hx as [_ Hx]. by eapply IH.
Qed.

Lemma read_flags_hex fmt : forall c args c' fmt' args',
  read_flags c fmt args = Some (c', fmt', args') -> no_hex fmt -> hex c = 0 -> hex c' = 0 /\ no_hex fmt'.
Proof.
  induction fmt as [|f fmt IH]; intros [] args c' fmt' args' H Hx Hc; cbn [read_flags hex] in *; [by simplify_eq|].
  pose proof Hx as [[Hx1 Hx2] Hx']%Forall_cons_1.
  destruct (f =? ch("u")); [by eapply IH in H|]. destruct (f =? ch("m")); [by eapply IH in H|].
  rewrite (proj2 (Z.eqb_neq f (ch("X"))) Hx2), (proj2 (Z.eqb_neq f (ch("x"))) Hx1) in H.
  destruct (f =? ch(".")).
  { destruct (read_width _ fmt) as [m fmt1] eqn:E. simplify_eq. split; [done|]. by eapply read_width_suffix. }
  destruct (f =? ch("*")).
  { destruct args as [|[] args]; try done. by eapply IH in H. }
  by simplify_eq.
Qed.

Lemma vslprintf_loop_cut fuel : forall big out fmt args full,
  no_hex fmt -> vslprintf_loop fuel big out fmt args = Some full ->
  Z.of_nat (length out) <= big -> Z.of_nat (length full) < big ->
  (exists d, full = out ++ d) /\
  forall cap, 0 <= cap ->
    vslprintf_loop fuel cap (take (Z.to_nat cap) out) fmt args = Some (take (Z.to_nat cap) full).
Proof.
  induction fuel as [|fuel IH]; intros big out fmt args full Hx H Ho Hf; [done|]. cbn [vslprintf_loop] in *.
  destruct fmt as [|c fmt]. { simplify_eq. split; [exists []; by rewrite app_nil_r|done]. }
  apply Forall_cons_1 in Hx as [_ Hx]. unfold room in *.
  destruct (Z.ltb_spec 0 (big - Z.of_nat (length out))) as [Hr|Hr]; cbn [negb] in H; [|simplify_eq; lia].
  assert (Hfull : forall d cap, full = out ++ d -> 0 <= cap ->
    (0 <? cap - Z.of_nat (length (take (Z.to_nat cap) out))) = false -> take (Z.to_nat cap) out = take (Z.to_nat cap) full).
  { intros d cap -> Hcap Hz. zbool. rewrite length_take in Hz. by rewrite take_app_le by lia. }
  destruct (c =? ch("%")).
  - destruct (read_width 0 fmt) as [wi fmt1] eqn:E1. apply read_width_suffix in E1; [|done].
    destruct (read_flags _ fmt1 args) as [[[cv fmt2] args2]|] eqn:E2; [cbn [mbind option_bind] in *|done].
    apply read_flags_hex in E2 as [Hh Hx2]; [|done..]. destruct fmt2 as [|f fmt2]; [done|].
    apply Forall_cons_1 in Hx2 as [_ Hx2].
    destruct (convert_text cv f args2 (or_introl Hh)) as [Hn|(d & args3 & Hd)]; [by rewrite Hn in H|].
    rewrite Hd in H by lia. cbn [mbind option_bind] in H.
    assert (Hlen : Z.of_nat (length (take (Z.to_nat big) (out ++ d))) <= big) by (rewrite length_take; lia).
    destruct (IH _ _ _ _ _ Hx2 H Hlen Hf) as [[d' Hd'] Hcut].
    assert (Hd0 : take (Z.to_nat big) (out ++ d) = out ++ d).
    { apply take_ge. apply (f_equal length) in Hd'. rewrite length_app, length_take in Hd'. lia. }
    rewrite Hd0 in *. rewrite <- app_assoc in Hd'. split; [by eexists|]. intros cap Hcap.
    destruct (0 <? cap - _) eqn:Ez; cbn [negb]; [|f_equal; by eapply Hfull].
    zbool. rewrite Hd by lia. cbn [mbind option_bind]. rewrite take_take_app. by apply Hcut.
  - assert (Hlen : Z.of_nat (length (out ++ [c])) <= big) by (rewrite length_app; cbn; lia).
    destruct (IH _ _ _ _ _ Hx H Hlen Hf) as [[d' Hd'] Hcut]. rewrite <- app_assoc in Hd'. split; [by eexists|].
    intros cap Hcap. destruct (0 <? cap - _) eqn:Ez; cbn [negb]; [|f_equal; by eapply Hfull].
    zbool. rewrite (one_byte cap _ c) by lia. rewrite take_take_app. by apply Hcut.
Qed.

(** ngx_snprintf never writes past the end of the buffer, whatever the format and the
    arguments are.  When the format has no hexadecimal conversion, what it writes is
    the beginning of what ngx_sprintf writes.  (A hexadecimal string stops when two
    digits no longer fit, and what follows it may still be written.) *)
Theorem snprintf_bounded (max : Z) (fmt : list Z) (args : list arg) (Hmax : 0 <= max) :
  (forall out, ngx_snprintf max fmt args = Some out -> Z.of_nat (length out) <= max)
  /\ forall buf full, no_hex fmt -> ngx_sprintf buf fmt args = Some full -> buf + Z.of_nat (length full) < 2 ^ 64 - 1 ->
     ngx_snprintf max fmt args = Some (take (Z.to_nat max) full).
Proof.
  split.
  - intros out H. eapply vslprintf_loop_bounded; [|exact H]. cbn. lia.
  - intros buf full Hx H Hf. apply vslprintf_loop_cut in H as [_ H]; [|done|cbn; lia|lia].
    specialize (H max Hmax). by rewrite take_nil in H.
Qed.

Lemma snprintf_bounded_witness :
  ngx_snprintf 6 (str("%V is %03d")) [AStr (str("x")); AInt 7] = Some (take 6 (str("x is 007"))).
Proof.
  apply (proj2 (snprintf_bounded 6 (str("%V is %03d")) [AStr (str("x")); AInt 7] ltac:(lia)) 0x1000).
  - by_evaluation.
  - vm_compute. reflexivity.
  - vm_compute. reflexivity.
Defined.

(** ** Evaluating a format when there is room *)

Lemma loop_end fuel cap out args : vslprintf_loop (S fuel) cap out [] args = Some out.
Proof. done. Qed.

Lemma loop_char fuel cap out c fmt args :
  Z.of_nat (length out) < cap -> (c =? ch("%")) = false ->
  vslprintf_loop (S fuel) cap out (c :: fmt) args = vslprintf_loop fuel cap (out ++ [c]) fmt args.
Proof.
  intros Ho Hc. cbn [vslprintf_loop]. unfold room. rewrite Hc. destruct (Z.ltb_spec 0 (cap - Z.of_nat (length out))); [done|lia].
Qed.

(** A conversion that reads one argument: the flags are evaluated, the text is [d]. *)
Lemma loop_conv fuel cap out fmt args wi fmt1 cv f fmt2 args2 g d args3 :
  Z.of_nat (length out + length d) < cap -> appends1 g d ->
  read_width 0 fmt = (wi, fmt1) ->
  read_flags (MkConv (match fmt with c :: _ => if c =? ch("0") then ch("0") else ch(" ") | [] => ch(" ") end)
                     wi true 0 false 0 None) fmt1 args = Some (cv, f :: fmt2, args2) ->
  convert cap out cv f args2 = Some (g cap out, args3) ->
  vslprintf_loop (S fuel) cap out (ch("%") :: fmt) args = vslprintf_loop fuel cap (out ++ d) fmt2 args3.
Proof.
  intros Ho Hg Hw Hf Hc. cbn [vslprintf_loop]. unfold room.
  destruct (Z.ltb_spec 0 (cap - Z.of_nat (length out))); [|lia]. cbn [negb Z.eqb Pos.eqb]. rewrite Hw, Hf.
  cbn [mbind option_bind]. rewrite Hc. cbn [mbind option_bind]. rewrite Hg by lia.
  rewrite take_ge; [done|]. rewrite length_app. lia.
Qed.

(** The text of a non-negative integer conversion. *)
Lemma put_int_text c sg w n :
  0 < w -> 0 <= n < 2 ^ (w - 1) ->
  appends1 (fun cap out => put_int cap out c sg w n) (num_text n (zero c) (hex c) (width c)).
Proof.
  intros Hw Hn. assert (H2 : 2 ^ w = 2 * 2 ^ (w - 1)) by (rewrite <- Z.pow_succ_r by lia; f_equal; lia).
  unfold put_int, put_num, sint. rewrite wrap_small by (unfold in_u; lia).
  destruct (Z.ltb_spec n (2 ^ (w - 1))); [|lia]. destruct sg; [destruct (Z.ltb_spec n 0); [lia|]|].
  all: apply appends_appends1, appends_num.
Qed.

(** Printing and parsing are inverse: the text of "%i" of a non-negative ngx_int_t is
    read back by ngx_atoi, and that of "%xi" by ngx_hextoi; it has no leading zeros, and
    a negative number is the text of its absolute value after a minus sign. *)
Theorem print_parse_roundtrip (buf v : Z) (Hbuf : 0 <= buf < 2 ^ 63) (Hv : 0 <= v <= NGX_MAX_INT_T_VALUE) :
  exists ds hs,
    ngx_sprintf buf (str("%i")) [AInt v] = Some ds /\ ngx_atoi ds = v
    /\ (forall k, 0 < k -> v < 10 ^ k -> Z.of_nat (length ds) <= k)
    /\ ngx_sprintf buf (str("%xi")) [AInt v] = Some hs /\ ngx_hextoi hs = v
    /\ (0 < v -> ngx_sprintf buf (str("%i")) [AInt (- v)] = Some (ch("-") :: ds)).
Proof.
  unfold NGX_MAX_INT_T_VALUE in Hv. assert (Hu : in_u 64 v) by (unfold in_u; lia).
  destruct (num_digits_decimal v Hu) as (ds & Hds & Hdig & Hval & Hpos & Hk & H20).
  destruct (num_digits_hex 1 v (or_introl eq_refl) Hu) as (hs & Hhs & Hb & Hhv & Hhpos & H16).
  unfold NGX_INT64_LEN in H20. exists ds, hs.
  assert (Htd : num_text v (ch(" ")) 0 0 = ds).
  { unfold num_text. rewrite Hds. by replace (Z.to_nat (0 - Z.of_nat (length ds))) with 0%nat by lia. }
  assert (Hth : num_text v (ch(" ")) 1 0 = hs).
  { unfold num_text. rewrite Hhs. by replace (Z.to_nat (0 - Z.of_nat (length hs))) with 0%nat by lia. }
  set (cd := MkConv (ch(" ")) 0 true 0 false 0 None). set (chx := MkConv (ch(" ")) 0 false 1 false 0 None).
  unfold ngx_sprintf, ngx_vslprintf. cbn [length]. split_and!.
  - erewrite (loop_conv _ _ _ _ _ _ _ cd _ _ _ (fun cap out => put_int cap out cd true 64 v) ds);
      [apply loop_end|cbn; lia| |reflexivity..]. rewrite <- Htd. apply (put_int_text cd); lia.
  - unfold ngx_atoi. rewrite ato_spec by done. unfold decimal_spec. rewrite bool_decide_eq_false_2 by (intros ->; cbn in Hpos; lia).
    rewrite Hdig, Hval. cbn [andb]. destruct (Z.leb_spec v NGX_MAX_INT_T_VALUE) as [|Hgt]; [done|unfold NGX_MAX_INT_T_VALUE in Hgt; lia].
  - done.
  - erewrite (loop_conv _ _ _ _ _ _ _ chx _ _ _ (fun cap out => put_int cap out chx false 64 v) hs);
      [apply loop_end|cbn; lia| |reflexivity..]. rewrite <- Hth. apply (put_int_text chx); lia.
  - unfold ngx_hextoi. rewrite bool_decide_eq_false_2 by (intros ->; cbn in Hhpos; lia).
    rewrite hextoi_loop_spec by (done || (unfold NGX_MAX_INT_T_VALUE; lia)). rewrite Hhv.
    destruct (Z.leb_spec v NGX_MAX_INT_T_VALUE) as [|Hgt]; [done|unfold NGX_MAX_INT_T_VALUE in Hgt; lia].
  - intros Hpos'. erewrite (loop_conv _ _ _ _ _ _ _ cd _ _ _ (fun cap out => put_int cap out cd true 64 (- v)) (ch("-") :: ds));
      [apply loop_end|cbn; lia| |reflexivity..].
    unfold put_int, put_num, sint. assert (Hw : wrap 64 (- v) = 2 ^ 64 - v) by (symmetry; apply Z.mod_unique with (-1); lia).
    rewrite Hw. destruct (Z.ltb_spec (2 ^ 64 - v) (2 ^ (64 - 1))); [lia|].
    destruct (Z.ltb_spec (2 ^ 64 - v - 2 ^ 64) 0); [|lia].
    replace (- (2 ^ 64 - v - 2 ^ 64)) with v by lia. rewrite wrap_small by done. rewrite <- Htd.
    apply (appends1_comp _ _ _ _ (appends1_byte (ch("-"))) (appends_num _ _ _ _)).
Qed.

Lemma print_parse_roundtrip_witness : exists ds hs,
  ngx_sprintf 0x1000 (str("%i")) [AInt 30583] = Some ds /\ ngx_atoi ds = 30583
  /\ ngx_sprintf 0x1000 (str("%xi")) [AInt 30583] = Some hs /\ ngx_hextoi hs = 30583.
Proof.
  destruct (print_parse_roundtrip 0x1000 30583 ltac:(lia) ltac:(vm_compute; split; congruence))
    as (ds & hs & H1 & H2 & _ & H3 & H4 & _).
  exists ds, hs. auto.
Defined.
