(* ===== verification/NgxTimes.v ===== *)
(** * Calendar time: ngx_gmtime, ngx_http_time, ngx_http_cookie_time of ngx_times.c and
    ngx_parse_http_time of ngx_parse_time.c

    [ngx_gmtime] and the parser use Gauss' formula on years that start on March 1; the
    reference is a calendar that steps from one day to the next.  In [ngx_gmtime] every
    quantity stays far below 2^63, so the arithmetic is exact; the parser computes
    modulo 2^64, as years before 1970 do wrap. *)

From S2P Require Import Prelude NgxNumber NgxPrint.

(** ** ngx_gmtime *)

Record ngx_tm := MkTm {
  tm_sec : Z; tm_min : Z; tm_hour : Z; tm_mday : Z; tm_mon : Z; tm_year : Z; tm_wday : Z;
}.

Definition is_leap (year : Z) : bool := (year mod 4 =? 0) && (negb (year mod 100 =? 0) || (year mod 400 =? 0)).

(** The days of the years before [year], counted from March 1, 1 BC. *)
Definition gauss_years (year : Z) : Z := 365 * year + year / 4 - year / 100 + year / 400.

(** Year, month and day of the month of a day since the epoch. *)
Definition gmtime_date (days : Z) : Z * Z * Z :=
  let days := days - (31 + 28) + 719527 in
  let year := (days + 2) * 400 / (365 * 400 + 100 - 4 + 1) in
  let yday := days - gauss_years year in
  let '(yday, year) :=
    if yday <? 0 then (365 + (if is_leap year then 1 else 0) + yday, year - 1) else (yday, year) in
  let mon := (yday + 31) * 10 / 306 in
  let mday := yday - (367 * mon / 12 - 30) + 1 in
  if 306 <=? yday then (year + 1, mon - 10, mday) else (year, mon + 2, mday).

Definition ngx_gmtime (t : Z) : ngx_tm :=
  let t := if t <? 0 then 0 else t in
  let days := t / 86400 in
  let sec := t mod 86400 in
  let '(days, sec) := if 2932896 <? days then (2932896, 86399) else (days, sec) in
  let wday := (4 + days) mod 7 in
  let hour := sec / 3600 in
  let sec := sec mod 3600 in
  let min := sec / 60 in
  let sec := sec mod 60 in
  let '(year, mon, mday) := gmtime_date days in
  MkTm sec min hour mday mon year wday.

(** ** Printing *)

Definition week : list (list Z) :=
  [str("Sun"); str("Mon"); str("Tue"); str("Wed"); str("Thu"); str("Fri"); str("Sat")].
Definition months : list (list Z) :=
  [str("Jan"); str("Feb"); str("Mar"); str("Apr"); str("May"); str("Jun");
   str("Jul"); str("Aug"); str("Sep"); str("Oct"); str("Nov"); str("Dec")].

Definition ngx_http_time (buf t : Z) : option (list Z) :=
  let tm := ngx_gmtime t in
  wd ← week !! Z.to_nat (tm_wday tm);
  mo ← months !! Z.to_nat (tm_mon tm - 1);
  ngx_sprintf buf (str("%s, %02d %s %4d %02d:%02d:%02d GMT"))
    [AStr wd; AInt (tm_mday tm); AStr mo; AInt (tm_year tm);
     AInt (tm_hour tm); AInt (tm_min tm); AInt (tm_sec tm)].

Definition ngx_http_cookie_time (buf t : Z) : option (list Z) :=
  let tm := ngx_gmtime t in
  wd ← week !! Z.to_nat (tm_wday tm);
  mo ← months !! Z.to_nat (tm_mon tm - 1);
  ngx_sprintf buf
    (if 2037 <? tm_year tm then str("%s, %02d-%s-%d %02d:%02d:%02d GMT")
     else str("%s, %02d-%s-%02d %02d:%02d:%02d GMT"))
    [AStr wd; AInt (tm_mday tm); AStr mo; AInt (if 2037 <? tm_year tm then tm_year tm else tm_year tm mod 100);
     AInt (tm_hour tm); AInt (tm_min tm); AInt (tm_sec tm)].

(** ** ngx_parse_http_time *)

(** A result of the parser: [None] is a read past the end of the string, [Some None]
    is NGX_ERROR. *)
Definition result (A : Type) : Type := option (option A).
Definition ok {A} (a : A) : result A := Some (Some a).
Definition error {A} : result A := Some None.
Definition bind {A B} (m : result A) (f : A -> result B) : result B :=
  match m with Some (Some a) => f a | Some None => Some None | None => None end.
Notation "'let*' x := m 'in' f" := (bind m (fun x => f)) (at level 200, x pattern) : ngx_scope.
Definition guard (b : bool) : result unit := if b then ok tt else error.

(** A pointer into the string is the list of the bytes from there to [end]. *)
Definition byte_at (p : list Z) (k : nat) : result Z := match p !! k with Some c => ok c | None => None end.

Definition digit_at (p : list Z) (k : nat) : result Z :=
  let* c := byte_at p k in let* _ := guard (is_digit c) in ok (c - ch("0")).

Definition two_digits (p : list Z) : result Z :=
  let* a := digit_at p 0 in let* b := digit_at p 1 in ok (a * 10 + b).

Definition four_digits (p : list Z) : result Z :=
  let* a := digit_at p 0 in let* b := digit_at p 1 in let* c := digit_at p 2 in let* d := digit_at p 3 in
  ok (a * 1000 + b * 100 + c * 10 + d).

Definition expect (p : list Z) (c : Z) : result unit := let* a := byte_at p 0 in guard (a =? c).

Inductive time_fmt := fmt_no | rfc822 | rfc850 | isoc.

Definition is_isoc (f : time_fmt) : bool := match f with isoc => true | _ => false end.

(** The first loop: stop at a comma or at a space, which selects the format. *)
Fixpoint find_separator (p : list Z) : time_fmt * list Z :=
  match p with
  | [] => (fmt_no, [])
  | c :: p' => if c =? ch(",") then (fmt_no, p) else if c =? ch(" ") then (isoc, p) else find_separator p'
  end.

Fixpoint skip_spaces (p : list Z) : list Z :=
  match p with
  | c :: p' => if c =? ch(" ") then skip_spaces p' else p
  | [] => []
  end.

Definition parse_month (p : list Z) : result Z :=
  let* c := byte_at p 0 in
  if c =? ch("J") then
    let* a := byte_at p 1 in
    if a =? ch("a") then ok 0 else let* b := byte_at p 2 in ok (if b =? ch("n") then 5 else 6)
  else if c =? ch("F") then ok 1
  else if c =? ch("M") then let* b := byte_at p 2 in ok (if b =? ch("r") then 2 else 4)
  else if c =? ch("A") then let* a := byte_at p 1 in ok (if a =? ch("p") then 3 else 7)
  else if c =? ch("S") then ok 8
  else if c =? ch("O") then ok 9
  else if c =? ch("N") then ok 10
  else if c =? ch("D") then ok 11
  else error.

(** The day and the format, when the day comes first. *)
Definition parse_day (fmt : time_fmt) (p : list Z) : result (Z * time_fmt * list Z) :=
  if is_isoc fmt then ok (0, fmt, p)
  else
    let* day := two_digits p in
    let p := drop 2 p in
    let* c := byte_at p 0 in
    if c =? ch(" ") then
      let* _ := guard (18 <=? Z.of_nat (length p)) in ok (day, rfc822, drop 1 p)
    else if c =? ch("-") then ok (day, rfc850, drop 1 p)
    else error.

(** The year, when it comes before the time. *)
Definition parse_year (fmt : time_fmt) (p : list Z) : result (Z * list Z) :=
  match fmt with
  | rfc822 => let* year := four_digits p in ok (year, drop 4 p)
  | rfc850 =>
      let* year := two_digits p in ok (year + (if year <? 70 then 2000 else 1900), drop 2 p)
  | _ => ok (0, p)
  end.

(** The day after the month. *)
Definition parse_isoc_day (fmt : time_fmt) (day : Z) (p : list Z) : result (Z * list Z) :=
  if is_isoc fmt then
    let* c := byte_at p 0 in
    let p := if c =? ch(" ") then drop 1 p else p in
    let* day := digit_at p 0 in
    let p := drop 1 p in
    let* c := byte_at p 0 in
    let* (day, p) :=
      if c =? ch(" ") then ok (day, p) else let* d := digit_at p 0 in ok (day * 10 + d, drop 1 p) in
    let* _ := guard (14 <=? Z.of_nat (length p)) in ok (day, p)
  else ok (day, p).

Definition parse_clock (p : list Z) : result (Z * Z * Z * list Z) :=
  let* _ := expect p (ch(" ")) in
  let p := drop 1 p in
  let* hour := two_digits p in
  let p := drop 2 p in
  let* _ := expect p (ch(":")) in
  let p := drop 1 p in
  let* min := two_digits p in
  let p := drop 2 p in
  let* _ := expect p (ch(":")) in
  let p := drop 1 p in
  let* sec := two_digits p in
  ok (hour, min, sec, p).

Definition parse_isoc_year (fmt : time_fmt) (year : Z) (p : list Z) : result Z :=
  if is_isoc fmt then
    let p := drop 2 p in
    let* _ := expect p (ch(" ")) in
    four_digits (drop 1 p)
  else ok year.

Definition mday : list Z := [31; 28; 31; 30; 31; 30; 31; 31; 30; 31; 30; 31].

Definition day_valid (day month year : Z) : bool :=
  if (day =? 29) && (month =? 1)
  then negb (negb (Z.land year 3 =? 0) || ((year mod 100 =? 0) && negb (year mod 400 =? 0)))
  else day <=? arr 0 mday month.

(** Gauss' formula, modulo 2^64. *)
Definition gauss_time (day month year hour min sec : Z) : Z :=
  let month := month - 1 in
  let '(month, year) := if month <=? 0 then (month + 12, u64 (year - 1)) else (month, year) in
  i64 (u64 (365 * year + year / 4 - year / 100 + year / 400 + 367 * month / 12 - 30 + day - 1 - 719527 + 31 + 28)
       * 86400 + hour * 3600 + min * 60 + sec).

Definition parse_fields (value : list Z) : result Z :=
  let '(fmt, p) := find_separator value in
  (* p++ at [end] leaves fewer than 18 bytes *)
  let* p := match p with [] => error | _ :: p => ok (skip_spaces p) end in
  let* _ := guard (18 <=? Z.of_nat (length p)) in
  let* (day, fmt, p) := parse_day fmt p in
  let* month := parse_month p in
  let p := drop 3 p in
  let* _ := match fmt with rfc822 => expect p (ch(" ")) | rfc850 => expect p (ch("-")) | _ => ok tt end in
  let p := drop 1 p in
  let* (year, p) := parse_year fmt p in
  let* (day, p) := parse_isoc_day fmt day p in
  let* (hour, min, sec, p) := parse_clock p in
  let* year := parse_isoc_year fmt year p in
  let* _ := guard ((hour <=? 23) && (min <=? 59) && (sec <=? 59)) in
  let* _ := guard (day_valid day month year) in
  ok (gauss_time day month year hour min sec).

(** ngx_parse_http_time: [None] is a read past the end. *)
Definition ngx_parse_http_time (value : list Z) : option Z :=
  match parse_fields value with
  | Some (Some t) => Some t
  | Some None => Some NGX_ERROR
  | None => None
  end.

Example time_ex :
  ngx_http_time 0x1000 784111777 = Some (str("Sun, 06 Nov 1994 08:49:37 GMT"))
  /\ ngx_parse_http_time (str("Sun, 06 Nov 1994 08:49:37 GMT")) = Some 784111777
  /\ ngx_parse_http_time (str("Sunday, 06-Nov-94 08:49:37 GMT")) = Some 784111777
  /\ ngx_parse_http_time (str("Sun Nov  6 08:49:37 1994")) = Some 784111777
  /\ ngx_http_cookie_time 0x1000 784111777 = Some (str("Sun, 06-Nov-94 08:49:37 GMT")).
Proof. vm_compute. auto. Qed.

(** ** The calendar, one day after the other *)

Definition days_in_month (year mon : Z) : Z :=
  if mon =? 2 then if is_leap year then 29 else 28
  else if (mon =? 4) || (mon =? 6) || (mon =? 9) || (mon =? 11) then 30 else 31.

Definition next_day (date : Z * Z * Z) : Z * Z * Z :=
  let '(year, mon, day) := date in
  if day <? days_in_month year mon then (year, mon, day + 1)
  else if mon <? 12 then (year, mon + 1, 1)
  else (year + 1, 1, 1).

(** The date [n] days after the epoch. *)
Definition calendar (n : nat) : Z * Z * Z := Nat.iter n next_day (1970, 1, 1).

(** *** Years that start on March 1 *)

Definition leap_days (year : Z) : Z := if is_leap year then 1 else 0.

(** The length of the year that starts on March 1 of [year]. *)
Lemma gauss_years_step year : gauss_years (year + 1) = gauss_years year + 365 + leap_days (year + 1).
Proof.
  unfold gauss_years, leap_days, is_leap.
  destruct (Z.eqb_spec ((year + 1) mod 4) 0), (Z.eqb_spec ((year + 1) mod 100) 0), (Z.eqb_spec ((year + 1) mod 400) 0);
    cbn [andb orb negb]; zlia.
Qed.

(** The year and the day of the year that the formula of ngx_gmtime finds. *)
Definition march_date (days : Z) : Z * Z :=
  let year := (days + 2) * 400 / 146097 in
  let yday := days - gauss_years year in
  if yday <? 0 then (year - 1, 365 + leap_days year + yday) else (year, yday).

Lemma march_date_spec days :
  let '(year, yday) := march_date days in
  days = gauss_years year + yday /\ 0 <= yday < 365 + leap_days (year + 1).
Proof.
  unfold march_date. set (year := (days + 2) * 400 / 146097).
  assert (Hl : 0 <= leap_days (year + 1) <= 1 /\ 0 <= leap_days year <= 1)
    by (unfold leap_days; destruct (is_leap (year + 1)), (is_leap year); lia).
  pose proof (gauss_years_step year) as H1. pose proof (gauss_years_step (year - 1)) as H0.
  replace (year - 1 + 1) with year in H0 by lia.
  assert (Hlo : gauss_years (year - 1) <= days) by (unfold gauss_years, year in *; zlia).
  assert (Hhi : days < gauss_years (year + 1)) by (unfold gauss_years, year in *; zlia).
  destruct (Z.ltb_spec (days - gauss_years year) 0); cbn zeta; [|lia].
  replace (year - 1 + 1) with year by lia. lia.
Qed.

Lemma gauss_years_mono a b : a <= b -> gauss_years a <= gauss_years b.
Proof. unfold gauss_years. zlia. Qed.

Lemma march_date_unique year yday :
  0 <= yday < 365 + leap_days (year + 1) -> march_date (gauss_years year + yday) = (year, yday).
Proof.
  intros H. pose proof (march_date_spec (gauss_years year + yday)) as Hs.
  destruct (march_date (gauss_years year + yday)) as [y d]. destruct Hs as [Heq Hd].
  pose proof (gauss_years_step year) as H1. pose proof (gauss_years_step y) as H2.
  assert (y = year) as ->; [|f_equal; lia].
  destruct (Z.lt_trichotomy y year) as [Hlt|[?|Hlt]]; [|done|].
  - pose proof (gauss_years_mono (y + 1) year). lia.
  - pose proof (gauss_years_mono (year + 1) y). lia.
Qed.

(** *** Months *)

(** Whether the next calendar year has begun, the month, and the day of the month. *)
Definition month_date (yday : Z) : Z * Z * Z :=
  let mon := (yday + 31) * 10 / 306 in
  let day := yday - (367 * mon / 12 - 30) + 1 in
  if 306 <=? yday then (1, mon - 10, day) else (0, mon + 2, day).

Lemma gmtime_date_march days :
  gmtime_date days
  = let '(year, yday) := march_date (days - (31 + 28) + 719527) in
    let '(c, mon, day) := month_date yday in (year + c, mon, day).
Proof.
  unfold gmtime_date, march_date. change (365 * 400 + 100 - 4 + 1) with 146097. fold (leap_days ((days - (31 + 28) + 719527 + 2) * 400 / 146097)).
  destruct (_ <? 0); unfold month_date; (destruct (306 <=? _); [done|]); f_equal; f_equal; lia.
Qed.

(** Day of the year, month and day of the month agree for every day. *)
Definition month_check (yday : Z) : bool :=
  let '(c, mon, day) := month_date yday in
  let '(c', mon', day') := month_date (yday + 1) in
  let march := if c =? 1 then mon + 10 else mon - 2 in
  (1 <=? mon) && (mon <=? 12) && (1 <=? day) && (day <=? (if mon =? 2 then 29 else days_in_month 1 mon))
  && ((c =? 0) || (c =? 1)) && bool_decide (c = if mon <=? 2 then 1 else 0)
  && (367 * march / 12 - 30 + day - 1 =? yday)
  && bool_decide (mon = 2 -> day = 29 <-> yday = 365)
  && (negb (yday <? 365)
      || bool_decide (c' = c + (if (mon =? 12) && (day =? 31) then 1 else 0) /\ mon' = (if mon =? 2 then 2 else if day <? days_in_month 1 mon then mon else if mon =? 12 then 1 else mon + 1)
           /\ day' = (if mon =? 2 then day + 1 else if day <? days_in_month 1 mon then day + 1 else 1))).

Lemma month_checks : all_below 366 month_check = true.
Proof. vm_compute. reflexivity. Qed.

Lemma not_february year mon : mon <> 2 -> days_in_month year mon = days_in_month 1 mon.
Proof. intros H. unfold days_in_month. by rewrite (proj2 (Z.eqb_neq mon 2) H). Qed.

Record month_facts (yday c mon day : Z) : Prop := {
  mf_mon : 1 <= mon <= 12;
  mf_day : 1 <= day <= (if mon =? 2 then 29 else days_in_month 1 mon);
  mf_year : c = if mon <=? 2 then 1 else 0;
  mf_gauss : 367 * (if mon <=? 2 then mon + 10 else mon - 2) / 12 - 30 + day - 1 = yday;
}.

Lemma month_date_facts yday c mon day :
  0 <= yday < 366 -> month_date yday = (c, mon, day) -> month_facts yday c mon day.
Proof.
  intros Hy E. apply (all_below_spec 366 _ month_checks) in Hy. unfold month_check in Hy. rewrite E in Hy.
  destruct (month_date (yday + 1)) as [[c' mon'] day']. zbool.
  repeat match goal with H : bool_decide _ = true |- _ => apply bool_decide_eq_true in H end.
  constructor; [lia|by split|done|].
  match goal with H : c = _ |- _ => rewrite H in * end.
  destruct (mon <=? 2); assumption.
Qed.

Lemma month_date_next yday c mon day c' mon' day' :
  0 <= yday < 365 -> month_date yday = (c, mon, day) -> month_date (yday + 1) = (c', mon', day') ->
  c' = c + (if (mon =? 12) && (day =? 31) then 1 else 0)
  /\ mon' = (if mon =? 2 then 2 else if day <? days_in_month 1 mon then mon else if mon =? 12 then 1 else mon + 1)
  /\ day' = (if mon =? 2 then day + 1 else if day <? days_in_month 1 mon then day + 1 else 1).
Proof.
  intros Hy E E'. assert (Hc : month_check yday = true) by (apply (all_below_spec 366 _ month_checks); lia).
  unfold month_check in Hc. rewrite E, E' in Hc. rewrite !andb_true_iff in Hc. destruct Hc as [_ Hc].
  destruct (Z.ltb_spec yday 365); [|lia]. cbn [negb orb] in Hc. by apply bool_decide_eq_true in Hc.
Qed.

Lemma leap_days_range year : 0 <= leap_days year <= 1.
Proof. unfold leap_days. destruct (is_leap year); lia. Qed.

(** Consecutive days have consecutive dates. *)
Lemma gmtime_date_next days : gmtime_date (days + 1) = next_day (gmtime_date days).
Proof.
  rewrite !gmtime_date_march. set (n := days - (31 + 28) + 719527).
  replace (days + 1 - (31 + 28) + 719527) with (n + 1) by lia.
  pose proof (march_date_spec n) as Hn. destruct (march_date n) as [y yd]. destruct Hn as [Hn Hyd].
  pose proof (leap_days_range (y + 1)) as Hlr.
  destruct (decide (yd + 1 < 365 + leap_days (y + 1))) as [Hlt|Hge].
  - replace (n + 1) with (gauss_years y + (yd + 1)) by lia. rewrite march_date_unique by lia.
    destruct (month_date yd) as [[c mon] day] eqn:E, (month_date (yd + 1)) as [[c' mon'] day'] eqn:E'.
    destruct (month_date_next yd c mon day c' mon' day' ltac:(lia) E E') as (-> & -> & ->).
    destruct (month_date_facts yd c mon day ltac:(lia) E) as [Hm Hd Hc Hg]. cbn [next_day].
    destruct (Z.eqb_spec mon 2) as [->|Hm2].
    + change (c = 1) in Hc. change (367 - 30 + day - 1 = yd) in Hg. subst c. cbn [Z.eqb Pos.eqb andb]. unfold days_in_month. cbn [Z.eqb Pos.eqb].
      unfold leap_days in Hlt. destruct (is_leap (y + 1)); (destruct (Z.ltb_spec day 29), (Z.ltb_spec day 28); try lia);
        f_equal; f_equal; lia.
    + rewrite (not_february (y + c) mon) by done. destruct (Z.ltb_spec day (days_in_month 1 mon)) as [Hdl|Hdg].
      * assert (Hne : (mon =? 12) && (day =? 31) = false).
        { destruct (Z.eqb_spec mon 12) as [->|]; [|done]. cbn in Hdl. cbn. apply Z.eqb_neq. lia. }
        rewrite Hne. f_equal. f_equal. lia.
      * destruct (Z.ltb_spec mon 12), (Z.eqb_spec mon 12); try lia.
        { cbn [andb]. f_equal. f_equal. lia. }
        subst mon. change (days_in_month 1 12) with 31 in *. cbn [Z.eqb Pos.eqb] in Hd.
        replace (day =? 31) with true by (symmetry; apply Z.eqb_eq; lia). cbn. f_equal. f_equal. lia.
  - replace (n + 1) with (gauss_years (y + 1) + 0) by (rewrite gauss_years_step; lia).
    pose proof (leap_days_range (y + 1 + 1)). rewrite march_date_unique by lia. change (month_date 0) with (0, 3, 1).
    unfold leap_days in Hge, Hyd. unfold next_day, days_in_month. destruct (is_leap (y + 1)) eqn:El.
    + assert (yd = 365) as -> by lia. change (month_date 365) with (1, 2, 29). cbn [Z.eqb Pos.eqb]. rewrite El.
      cbn. f_equal. f_equal. lia.
    + assert (yd = 364) as -> by lia. change (month_date 364) with (1, 2, 28). cbn [Z.eqb Pos.eqb]. rewrite El.
      cbn. f_equal. f_equal. lia.
Qed.

Lemma gmtime_date_calendar n : gmtime_date (Z.of_nat n) = calendar n.
Proof.
  unfold calendar. induction n as [|n IH]; [vm_compute; reflexivity|]. rewrite Nat2Z.inj_succ. unfold Z.succ.
  rewrite gmtime_date_next, IH. done.
Qed.

(** ** Printed dates *)

Definition dd (n : Z) : list Z := [n / 10 + ch("0"); n mod 10 + ch("0")].
Definition yyyy (n : Z) : list Z := dd (n / 100) ++ dd (n mod 100).

Lemma two_digits_text n : 0 <= n < 100 -> num_text n (ch("0")) 0 2 = dd n.
Proof.
  intros H. apply (bool_decide_eq_true_1 _).
  assert (Hc : all_below 100 (fun n => bool_decide (num_text n (ch("0")) 0 2 = dd n)) = true) by (vm_compute; reflexivity).
  by apply (all_below_spec 100 _ Hc).
Qed.

Lemma decimal_one n p : 0 <= n < 10 -> decimal_digits 1 n p = u8 (n + ch("0")) :: p.
Proof. intros H. cbn [decimal_digits]. rewrite Z.mod_small, Z.div_small by lia. done. Qed.

Lemma decimal_step fuel n p :
  10 <= n -> decimal_digits (S fuel) n p = decimal_digits fuel (n / 10) (u8 (n mod 10 + ch("0")) :: p).
Proof. intros H. cbn [decimal_digits]. destruct (Z.eqb_spec (n / 10) 0); [zlia|done]. Qed.

Lemma decimal_last fuel n p : 0 <= n < 10 -> decimal_digits (S fuel) n p = u8 (n + ch("0")) :: p.
Proof. intros H. cbn [decimal_digits]. rewrite Z.mod_small, Z.div_small by lia. done. Qed.

Lemma four_digits_text n ze w : 1000 <= n <= 9999 -> w <= 4 -> num_text n ze 0 w = yyyy n.
Proof.
  intros H Hw. unfold num_text. assert (Hd : num_digits 0 n = yyyy n).
  { unfold num_digits. cbn [Z.eqb]. unfold NGX_MAX_UINT32_VALUE. destruct (Z.leb_spec n 0xffffffff); [|lia].
    rewrite wrap_small by (unfold in_u; lia). change 64%nat with (S (S (S (S 60)))).
    rewrite decimal_step by zlia. rewrite decimal_step by zlia. rewrite decimal_step by zlia. rewrite decimal_last by zlia.
    rewrite !(wrap_small 8) by (unfold in_u; zlia).
    unfold yyyy, dd. cbn [app]. do 3 (f_equal; [zlia|]). f_equal. zlia. }
  rewrite Hd. by replace (Z.to_nat (w - Z.of_nat (length (yyyy n)))) with 0%nat by (cbn; lia).
Qed.

Ltac room := rewrite ?length_app; cbn [length app dd yyyy]; lia.
Ltac print_char := rewrite loop_char by first [reflexivity | room].
Ltac print_str s := erewrite (loop_conv _ _ _ _ _ _ _ (MkConv _ _ _ _ _ _ _) _ _ _ (fun cap out => ngx_sprintf_str cap out s None 0) s);
  [|room|apply appends_appends1, (appends_str s None)|reflexivity..].

Definition conv2 : conv := MkConv (ch("0")) 2 true 0 false 0 None.
Definition conv4 : conv := MkConv (ch(" ")) 4 true 0 false 0 None.
Definition conv0 : conv := MkConv (ch(" ")) 0 true 0 false 0 None.

Lemma http_time_text buf wd mo d y h mi s :
  0 <= buf < 2 ^ 63 -> length wd = 3%nat -> length mo = 3%nat -> 0 <= d < 100 -> 1000 <= y <= 9999 ->
  0 <= h < 100 -> 0 <= mi < 100 -> 0 <= s < 100 ->
  ngx_sprintf buf (str("%s, %02d %s %4d %02d:%02d:%02d GMT"))
    [AStr wd; AInt d; AStr mo; AInt y; AInt h; AInt mi; AInt s]
  = Some (wd ++ str(", ") ++ dd d ++ str(" ") ++ mo ++ str(" ") ++ yyyy y ++ str(" ")
          ++ dd h ++ str(":") ++ dd mi ++ str(":") ++ dd s ++ str(" GMT")).
Proof.
  intros Hb Hwd Hmo Hd Hy Hh Hmi Hs. unfold ngx_sprintf, ngx_vslprintf. cbn [length].
  assert (Hn : forall n, 0 <= n < 100 -> appends1 (fun cap out => put_int cap out conv2 true 32 n) (dd n)).
  { intros n H. rewrite <- two_digits_text by done. apply (put_int_text conv2); lia. }
  assert (Hy4 : appends1 (fun cap out => put_int cap out conv4 true 32 y) (yyyy y)).
  { rewrite <- (four_digits_text y (ch(" ")) 4) by lia. apply (put_int_text conv4); lia. }
  print_str wd. do 2 print_char.
  erewrite (loop_conv _ _ _ _ _ _ _ conv2 _ _ _ (fun cap out => put_int cap out conv2 true 32 d) (dd d));
    [|room|by apply Hn|reflexivity..].
  print_char. print_str mo. print_char.
  erewrite (loop_conv _ _ _ _ _ _ _ conv4 _ _ _ (fun cap out => put_int cap out conv4 true 32 y) (yyyy y));
    [|room|done|reflexivity..].
  print_char.
  erewrite (loop_conv _ _ _ _ _ _ _ conv2 _ _ _ (fun cap out => put_int cap out conv2 true 32 h) (dd h));
    [|room|by apply Hn|reflexivity..].
  print_char.
  erewrite (loop_conv _ _ _ _ _ _ _ conv2 _ _ _ (fun cap out => put_int cap out conv2 true 32 mi) (dd mi));
    [|room|by apply Hn|reflexivity..].
  print_char.
  erewrite (loop_conv _ _ _ _ _ _ _ conv2 _ _ _ (fun cap out => put_int cap out conv2 true 32 s) (dd s));
    [|room|by apply Hn|reflexivity..].
  do 4 print_char. rewrite loop_end. f_equal. rewrite <- !app_assoc. done.
Qed.

(** ** Parsing what was printed *)

Lemma digit_at_text p k n : p !! k = Some (n + ch("0")) -> 0 <= n < 10 -> digit_at p k = ok n.
Proof.
  intros Hk Hn. unfold digit_at, byte_at. rewrite Hk. cbn [bind ok]. unfold guard, is_digit.
  destruct (Z.leb_spec (ch("0")) (n + ch("0"))), (Z.leb_spec (n + ch("0")) (ch("9"))); try lia. cbn [andb bind ok].
  unfold ok. do 2 f_equal. lia.
Qed.

Lemma two_digits_dd n l : 0 <= n < 100 -> two_digits (dd n ++ l) = ok n.
Proof.
  intros H. unfold two_digits. rewrite (digit_at_text _ _ (n / 10)) by (done || zlia). cbn [bind ok].
  rewrite (digit_at_text _ _ (n mod 10)) by (done || zlia). cbn [bind ok]. unfold ok. do 2 f_equal. zlia.
Qed.

Lemma four_digits_yyyy n l : 0 <= n <= 9999 -> four_digits (yyyy n ++ l) = ok n.
Proof.
  intros H. unfold four_digits, yyyy.
  rewrite (digit_at_text _ _ (n / 100 / 10)) by (done || zlia). cbn [bind ok].
  rewrite (digit_at_text _ _ ((n / 100) mod 10)) by (done || zlia). cbn [bind ok].
  rewrite (digit_at_text _ _ (n mod 100 / 10)) by (done || zlia). cbn [bind ok].
  rewrite (digit_at_text _ _ ((n mod 100) mod 10)) by (done || zlia). cbn [bind ok]. unfold ok. do 2 f_equal. zlia.
Qed.

Lemma parse_month_text m mo l : months !! m = Some mo -> parse_month (mo ++ l) = ok (Z.of_nat m) /\ drop 3 (mo ++ l) = l.
Proof. intros H. do 12 (destruct m as [|m]; [injection H as <-; split; reflexivity|]). done. Qed.

Lemma find_separator_week wd l k : week !! k = Some wd -> find_separator (wd ++ ch(",") :: l) = (fmt_no, ch(",") :: l).
Proof. intros H. do 7 (destruct k as [|k]; [injection H as <-; reflexivity|]). done. Qed.

Lemma parse_clock_text h mi s l :
  0 <= h < 100 -> 0 <= mi < 100 -> 0 <= s < 100 ->
  parse_clock (ch(" ") :: dd h ++ ch(":") :: dd mi ++ ch(":") :: dd s ++ l) = ok (h, mi, s, dd s ++ l).
Proof.
  intros Hh Hmi Hs. unfold parse_clock.
  change (expect _ (ch(" "))) with (ok tt). cbn [bind ok]. change (drop 1 (_ :: ?x)) with x. rewrite two_digits_dd by done. cbn [bind ok].
  change (drop 2 (dd h ++ ?x)) with x. change (expect _ (ch(":"))) with (ok tt). cbn [bind ok]. change (drop 1 (_ :: ?x)) with x.
  rewrite two_digits_dd by done. cbn [bind ok]. change (drop 2 (dd mi ++ ?x)) with x.
  change (expect _ (ch(":"))) with (ok tt). cbn [bind ok]. change (drop 1 (_ :: ?x)) with x. by rewrite two_digits_dd by done.
Qed.

Lemma parse_http_text wd mo k m d y h mi s :
  week !! k = Some wd -> months !! m = Some mo -> 0 <= d < 100 -> 0 <= y <= 9999 ->
  0 <= h <= 23 -> 0 <= mi <= 59 -> 0 <= s <= 59 -> day_valid d (Z.of_nat m) y = true ->
  parse_fields (wd ++ str(", ") ++ dd d ++ str(" ") ++ mo ++ str(" ") ++ yyyy y ++ str(" ")
          ++ dd h ++ str(":") ++ dd mi ++ str(":") ++ dd s ++ str(" GMT"))
  = ok (gauss_time d (Z.of_nat m) y h mi s).
Proof.
  intros Hwd Hmo Hd Hy Hh Hmi Hs Hv. unfold parse_fields. cbn [app]. rewrite (find_separator_week _ _ k) by done.
  cbn [bind ok]. set (rest := dd h ++ ch(":") :: _).
  assert (Hrest : (12 <= length rest)%nat) by (unfold rest; rewrite !length_app; cbn; lia).
  assert (Hskip : forall l, skip_spaces (ch(" ") :: dd d ++ l) = dd d ++ l).
  { intros l. cbn [skip_spaces Z.eqb Pos.eqb dd app]. destruct (Z.eqb_spec (d / 10 + ch("0")) (ch(" "))); [zlia|done]. }
  rewrite Hskip. assert (Hmo3 : length mo = 3%nat).
  { do 12 (destruct m as [|m]; [by injection Hmo as <-|]). done. }
  match goal with |- context [guard ?b] => replace b with true
    by (symmetry; apply Z.leb_le; cbn [dd app]; rewrite ?length_cons, ?length_app, ?length_cons, ?length_app; cbn [length dd yyyy app]; lia) end.
  cbn [guard bind ok]. unfold parse_day. cbn [is_isoc]. rewrite two_digits_dd by done. cbn [bind ok].
  change (drop 2 (dd d ++ ?x)) with x. change (byte_at (ch(" ") :: _) 0) with (ok (ch(" "))). cbn [bind ok Z.eqb Pos.eqb].
  match goal with |- context [guard ?b] => replace b with true
    by (symmetry; apply Z.leb_le; rewrite ?length_cons, ?length_app, ?length_cons, ?length_app; cbn [length dd yyyy app]; lia) end.
  cbn [guard bind ok]. change (drop 1 (_ :: ?x)) with x. destruct (parse_month_text m mo (ch(" ") :: yyyy y ++ ch(" ") :: rest) Hmo) as [Hpm Hdr].
  rewrite Hpm. cbn [bind ok]. rewrite Hdr. change (expect _ (ch(" "))) with (ok tt). cbn [bind ok]. change (drop 1 (_ :: ?x)) with x.
  unfold parse_year. rewrite four_digits_yyyy by done. cbn [bind ok]. change (drop 4 (yyyy y ++ ?x)) with x.
  unfold parse_isoc_day. cbn [is_isoc bind ok]. unfold rest. rewrite parse_clock_text by lia. cbn [bind ok].
  unfold parse_isoc_year. cbn [is_isoc bind ok].
  destruct (Z.leb_spec h 23), (Z.leb_spec mi 59), (Z.leb_spec s 59); try lia. cbn [andb guard bind ok]. by rewrite Hv.
Qed.

(** December 31, 9999, 23:59:59 *)
Definition last_time : Z := 253402300799.

Lemma gmtime_date_range days year mon day :
  0 <= days <= 2932896 -> gmtime_date days = (year, mon, day) ->
  1970 <= year <= 9999 /\ 1 <= mon <= 12 /\ 1 <= day <= days_in_month year mon
  /\ gauss_years (if mon <=? 2 then year - 1 else year) + 367 * (if mon <=? 2 then mon + 10 else mon - 2) / 12 - 30
     + day - 1 - 719527 + 31 + 28 = days.
Proof.
  intros Hd. rewrite gmtime_date_march. set (n := days - (31 + 28) + 719527).
  pose proof (march_date_spec n) as Hn. destruct (march_date n) as [y yd]. destruct Hn as [Hn Hyd].
  pose proof (leap_days_range (y + 1)) as Hlr.
  destruct (month_date yd) as [[c m] d] eqn:E. intros [= <- <- <-].
  destruct (month_date_facts yd c m d ltac:(lia) E) as [Hm Hdr Hc Hg].
  assert (Hc306 : c = if 306 <=? yd then 1 else 0).
  { revert E. unfold month_date. by destruct (306 <=? yd); intros [= <- _ _]. }
  assert (Hy : 1969 <= y <= 9999).
  { pose proof (gauss_years_step y). split.
    - destruct (decide (1969 <= y)); [done|]. pose proof (gauss_years_mono (y + 1) 1969).
      change (gauss_years 1969) with 719162 in *. lia.
    - destruct (decide (y <= 9999)); [done|]. pose proof (gauss_years_mono 10000 y).
      change (gauss_years 10000) with 3652425 in *. lia. }
  split_and!; try lia.
  - destruct (decide (y = 1969)) as [->|]; [|destruct (306 <=? yd); lia].
    change (gauss_years 1969) with 719162 in *. rewrite Hc306. destruct (Z.leb_spec 306 yd); lia.
  - destruct (decide (y = 9999)) as [->|]; [|destruct (306 <=? yd); lia].
    change (gauss_years 9999) with 3652059 in *. rewrite Hc306. destruct (Z.leb_spec 306 yd); lia.
  - destruct (Z.eqb_spec m 2) as [->|Hne]; [|rewrite not_february by done; lia].
    change (c = 1) in Hc. change (367 - 30 + d - 1 = yd) in Hg. subst c. unfold days_in_month. cbn [Z.eqb Pos.eqb].
    unfold leap_days in Hyd. destruct (is_leap (y + 1)); lia.
  - rewrite Hc. destruct (m <=? 2); [replace (y + 1 - 1) with y by lia|replace (y + 0) with y by lia]; lia.
Qed.

Lemma day_valid_date year mon day :
  1 <= mon <= 12 -> 1 <= day <= days_in_month year mon -> 0 <= year -> day_valid day (mon - 1) year = true.
Proof.
  intros Hm Hd Hy. unfold day_valid. destruct (Z.eqb_spec day 29) as [->|Hne], (Z.eqb_spec (mon - 1) 1) as [Hf|Hf]; cbn [andb].
  - assert (mon = 2) as -> by lia. unfold days_in_month in Hd. cbn [Z.eqb Pos.eqb] in Hd.
    replace (Z.land year 3) with (year mod 4) by (by bits_to_arith). unfold is_leap in Hd.
    destruct (year mod 4 =? 0), (year mod 100 =? 0), (year mod 400 =? 0); cbn in *; try done; lia.
  - apply Z.leb_le. rewrite not_february in Hd by lia.
    assert (Hall : all_below 12 (fun m => days_in_month 1 (m + 1) <=? arr 0 mday m) = true) by reflexivity.
    pose proof (all_below_spec _ _ Hall (mon - 1) ltac:(lia)) as Hc. apply Z.leb_le in Hc.
    replace (mon - 1 + 1) with mon in Hc by lia. lia.
  - assert (mon = 2) as -> by lia. unfold days_in_month in Hd. cbn [Z.eqb Pos.eqb] in Hd. apply Z.leb_le.
    change (arr 0 mday (2 - 1)) with 28. destruct (is_leap year); lia.
  - apply Z.leb_le. rewrite not_february in Hd by lia.
    assert (Hall : all_below 12 (fun m => days_in_month 1 (m + 1) <=? arr 0 mday m) = true) by reflexivity.
    pose proof (all_below_spec _ _ Hall (mon - 1) ltac:(lia)) as Hc. apply Z.leb_le in Hc.
    replace (mon - 1 + 1) with mon in Hc by lia. lia.
Qed.

Lemma gauss_time_date days year mon day h mi s :
  0 <= days <= 2932896 -> gmtime_date days = (year, mon, day) ->
  0 <= h <= 23 -> 0 <= mi <= 59 -> 0 <= s <= 59 ->
  gauss_time day (mon - 1) year h mi s = days * 86400 + h * 3600 + mi * 60 + s.
Proof.
  intros Hd E Hh Hmi Hs. destruct (gmtime_date_range _ _ _ _ Hd E) as (Hy & Hm & _ & Hg). unfold gauss_time.
  assert (Hif : (if mon - 1 - 1 <=? 0 then (mon - 1 - 1 + 12, u64 (year - 1)) else (mon - 1 - 1, year))
                = ((if mon <=? 2 then mon + 10 else mon - 2), if mon <=? 2 then year - 1 else year)).
  { rewrite wrap_small by (unfold in_u; lia). destruct (Z.leb_spec (mon - 1 - 1) 0), (Z.leb_spec mon 2); try lia; f_equal; lia. }
  rewrite Hif. unfold gauss_years in Hg. rewrite Hg. rewrite wrap_small by (unfold in_u; lia). apply i64_small. lia.
Qed.

(** C40. ngx_gmtime is the calendar: for every time from the epoch to the end of the year
    9999 the date it computes with Gauss' formula is the one reached by counting the
    days since January 1, 1970, the clock is exact, and the day of the week follows
    from the epoch being a Thursday; other times are moved to the nearest end. *)
Theorem gmtime_correct (t : Z) :
  let tm := ngx_gmtime t in
  let t' := Z.max 0 (Z.min t last_time) in
  (tm_year tm, tm_mon tm, tm_mday tm) = calendar (Z.to_nat (t' / 86400))
  /\ tm_hour tm * 3600 + tm_min tm * 60 + tm_sec tm = t' mod 86400
  /\ 0 <= tm_hour tm <= 23 /\ 0 <= tm_min tm <= 59 /\ 0 <= tm_sec tm <= 59
  /\ 1970 <= tm_year tm <= 9999 /\ tm_wday tm = (4 + t' / 86400) mod 7.
Proof.
  cbn zeta. unfold ngx_gmtime. set (t0 := if t <? 0 then 0 else t).
  assert (Ht0 : 0 <= t0 /\ Z.max 0 (Z.min t last_time) = Z.min t0 last_time)
    by (unfold t0, last_time; destruct (Z.ltb_spec t 0); lia).
  destruct Ht0 as [Ht0 ->].
  assert (Hclamp : (if 2932896 <? t0 / 86400 then (2932896, 86399) else (t0 / 86400, t0 mod 86400))
     = (Z.min t0 last_time / 86400, Z.min t0 last_time mod 86400)).
  { unfold last_time. destruct (Z.ltb_spec 2932896 (t0 / 86400)).
    - rewrite Z.min_r by zlia. done.
    - rewrite Z.min_l by zlia. done. }
  rewrite Hclamp. set (u := Z.min t0 last_time). assert (Hu : 0 <= u <= 253402300799) by (unfold u, last_time; lia).
  destruct (gmtime_date (u / 86400)) as [[year mon] day] eqn:E.
  destruct (gmtime_date_range (u / 86400) year mon day ltac:(zlia) E) as (Hy & _).
  cbn [tm_year tm_mon tm_mday tm_hour tm_min tm_sec tm_wday]. split_and!; try lia; try zlia.
  rewrite <- gmtime_date_calendar, Z2Nat.id by zlia. done.
Qed.

(** Times survive the round trip through the header format: ngx_parse_http_time reads
    back every time from the epoch to the end of the year 9999 that ngx_http_time
    printed. *)
Theorem http_time_roundtrip (buf t : Z) (Hbuf : 0 <= buf < 2 ^ 63) (Ht : 0 <= t <= last_time) :
  exists text, ngx_http_time buf t = Some text /\ Z.of_nat (length text) = 29
    /\ ngx_parse_http_time text = Some t.
Proof.
  unfold last_time in Ht. unfold ngx_http_time, ngx_gmtime. destruct (Z.ltb_spec t 0); [lia|].
  destruct (Z.ltb_spec 2932896 (t / 86400)); [zlia|].
  destruct (gmtime_date (t / 86400)) as [[year mon] day] eqn:E.
  destruct (gmtime_date_range (t / 86400) year mon day ltac:(zlia) E) as (Hy & Hm & Hd & _).
  cbn [tm_year tm_mon tm_mday tm_hour tm_min tm_sec tm_wday].
  set (k := Z.to_nat ((4 + t / 86400) mod 7)). set (m := Z.to_nat (mon - 1)).
  destruct (lookup_lt_is_Some_2 week k) as [wd Hwd]; [unfold k; cbn; zlia|].
  destruct (lookup_lt_is_Some_2 months m) as [mo Hmo]; [unfold m; cbn; lia|].
  rewrite Hwd, Hmo. cbn [mbind option_bind].
  assert (Hwd3 : length wd = 3%nat) by (clear -Hwd; do 7 (destruct k as [|k]; [by injection Hwd as <-|]); done).
  assert (Hmo3 : length mo = 3%nat) by (clear -Hmo; do 12 (destruct m as [|m]; [by injection Hmo as <-|]); done).
  assert (Hdim : days_in_month year mon <= 31) by (unfold days_in_month; repeat case_if; lia).
  eexists. split; [apply http_time_text; try done; zlia|]. split.
  { rewrite !length_app, Hwd3, Hmo3. reflexivity. }
  assert (Hmm : Z.of_nat m = mon - 1) by (unfold m; lia).
  unfold ngx_parse_http_time. rewrite (parse_http_text wd mo k m); try done; try zlia.
  2:{ rewrite Hmm. apply day_valid_date; lia. }
  cbn [ok]. unfold ok. f_equal. rewrite Hmm.
  rewrite (gauss_time_date (t / 86400)) by (done || zlia). zlia.
Qed.

Lemma http_time_roundtrip_witness :
  exists text, ngx_http_time 0x1000 784111777 = Some text /\ ngx_parse_http_time text = Some 784111777.
Proof.
  destruct (http_time_roundtrip 0x1000 784111777 ltac:(lia) ltac:(vm_compute; split; congruence)) as (text & H1 & _ & H2).
  exists text. split; [exact H1|exact H2].
Defined.

(** ** The parser stays inside the string *)

(** The computation reads inside the string, and a result satisfies [q]. *)
Definition wp {A} (m : result A) (q : A -> Prop) : Prop :=
  match m with Some (Some a) => q a | Some None => True | None => False end.

Lemma wp_bind {A B} (m : result A) (f : A -> result B) (p : A -> Prop) (q : B -> Prop) :
  wp m p -> (forall a, p a -> wp (f a) q) -> wp (bind m f) q.
Proof. destruct m as [[a|]|]; cbn; auto. Qed.

Lemma wp_weaken {A} (m : result A) (p q : A -> Prop) : wp m p -> (forall a, p a -> q a) -> wp m q.
Proof. destruct m as [[a|]|]; cbn; auto. Qed.

Lemma wp_guard b : wp (guard b) (fun _ => b = true).
Proof. by destruct b. Qed.

Lemma wp_byte_at p k : (k < length p)%nat -> wp (byte_at p k) (fun _ => True).
Proof. intros H. unfold byte_at. by destruct (lookup_lt_is_Some_2 p k H) as [c ->]. Qed.

Lemma wp_digit_at p k : (k < length p)%nat -> wp (digit_at p k) (fun _ => True).
Proof.
  intros H. eapply wp_bind; [by apply wp_byte_at|]. intros c _. eapply wp_bind; [apply wp_guard|]. done.
Qed.

Lemma wp_two_digits p : (2 <= length p)%nat -> wp (two_digits p) (fun _ => True).
Proof. intros H. unfold two_digits. do 2 (eapply wp_bind; [apply wp_digit_at; lia|]; intros ? _). done. Qed.

Lemma wp_four_digits p : (4 <= length p)%nat -> wp (four_digits p) (fun _ => True).
Proof. intros H. unfold four_digits. do 4 (eapply wp_bind; [apply wp_digit_at; lia|]; intros ? _). done. Qed.

Lemma wp_expect p c : (1 <= length p)%nat -> wp (expect p c) (fun _ => True).
Proof.
  intros H. eapply wp_bind; [apply wp_byte_at; lia|]. intros a _. eapply wp_weaken; [apply wp_guard|done].
Qed.

Lemma wp_parse_month p : (3 <= length p)%nat -> wp (parse_month p) (fun _ => True).
Proof.
  intros H. unfold parse_month. eapply wp_bind; [apply wp_byte_at; lia|]. intros c _.
  repeat case_if; try done; (eapply wp_bind; [apply wp_byte_at; lia|]; intros a _); try done.
  case_if; [done|]. eapply wp_bind; [apply wp_byte_at; lia|]. done.
Qed.

(** The bytes that are left after the day: enough for the rest of each format. *)
Definition after_day (r : Z * time_fmt * list Z) : Prop :=
  let '(_, fmt, p) := r in
  (match fmt with isoc => 18 | rfc822 => 17 | _ => 15 end <= length p)%nat /\ fmt <> fmt_no.

Lemma wp_parse_day fmt p :
  (18 <= length p)%nat -> wp (parse_day fmt p) after_day.
Proof.
  intros H. unfold parse_day. destruct fmt; cbn [is_isoc]; try (split; [done|discriminate]).
  all: eapply wp_bind; [apply wp_two_digits; lia|]; intros day _.
  all: eapply wp_bind; [apply wp_byte_at; rewrite length_drop; lia|]; intros c _.
  all: case_if; [eapply wp_bind; [apply wp_guard|]; cbn beta; intros _ Hg%Z.leb_le; rewrite length_drop in Hg|case_if; [|done]].
  all: unfold after_day; cbn; rewrite ?length_drop; split; [lia|discriminate].
Qed.

Lemma wp_parse_year fmt p :
  fmt <> fmt_no -> (match fmt with isoc => 14 | rfc822 => 13 | _ => 11 end <= length p)%nat ->
  wp (parse_year fmt p) (fun '(_, p') => match fmt with isoc => 14 | _ => 9 end <= length p')%nat.
Proof.
  intros Hf H. unfold parse_year. destruct fmt; try done.
  - eapply wp_bind; [apply wp_four_digits; lia|]. intros y _. cbn. rewrite length_drop. lia.
  - eapply wp_bind; [apply wp_two_digits; lia|]. intros y _. cbn. rewrite length_drop. lia.
Qed.

Lemma wp_parse_isoc_day fmt day p :
  (match fmt with isoc => 14 | _ => 9 end <= length p)%nat ->
  wp (parse_isoc_day fmt day p) (fun '(_, p') => (match fmt with isoc => 14 | _ => 9 end <= length p')%nat).
Proof.
  intros H. unfold parse_isoc_day. destruct fmt; cbn [is_isoc]; try done.
  eapply wp_bind; [apply wp_byte_at; lia|]. intros c _. cbn zeta.
  set (p1 := if c =? ch(" ") then drop 1 p else p).
  assert (Hp1 : (13 <= length p1)%nat) by (unfold p1; case_if; rewrite ?length_drop; lia).
  eapply wp_bind; [apply wp_digit_at; lia|]. intros d _.
  eapply wp_bind; [apply wp_byte_at; rewrite length_drop; lia|]. intros c' _.
  eapply (wp_bind _ _ (fun _ => True)).
  { case_if; [done|]. eapply wp_bind; [apply wp_digit_at; rewrite length_drop; lia|]. done. }
  intros [day' p2] _. eapply wp_bind; [apply wp_guard|]. cbn beta. intros _ Hg%Z.leb_le. cbn. lia.
Qed.

Lemma wp_parse_clock p :
  (9 <= length p)%nat -> wp (parse_clock p) (fun '(_, _, _, p') => (length p <= length p' + 7)%nat).
Proof.
  intros H. unfold parse_clock.
  eapply wp_bind; [apply wp_expect; lia|]. intros _ _. eapply wp_bind; [apply wp_two_digits; rewrite length_drop; lia|]. intros h _.
  eapply wp_bind; [apply wp_expect; rewrite !length_drop; lia|]. intros _ _.
  eapply wp_bind; [apply wp_two_digits; rewrite !length_drop; lia|]. intros m _.
  eapply wp_bind; [apply wp_expect; rewrite !length_drop; lia|]. intros _ _.
  eapply wp_bind; [apply wp_two_digits; rewrite !length_drop; lia|]. intros s _. cbn -[drop]. rewrite !length_drop. lia.
Qed.

Lemma wp_parse_fields value : wp (parse_fields value) (fun _ => True).
Proof.
  unfold parse_fields. destruct (find_separator value) as [fmt p]. eapply (wp_bind _ _ (fun _ => True)); [by destruct p|].
  intros p1 _. eapply wp_bind; [apply wp_guard|]. cbn beta. intros _ Hg%Z.leb_le.
  eapply wp_bind; [apply wp_parse_day; lia|]. intros [[day fmt2] p2] [Hp2 Hf].
  assert (H15 : (15 <= length p2)%nat) by (destruct fmt2; lia).
  eapply wp_bind; [apply wp_parse_month; lia|]. intros month _.
  eapply (wp_bind _ _ (fun _ => True)).
  { destruct fmt2; try done; apply wp_expect; rewrite length_drop; lia. }
  intros _ _. eapply wp_bind; [apply wp_parse_year; [done|rewrite !length_drop; destruct fmt2; lia]|]. intros [year p3] Hp3.
  eapply wp_bind; [by apply wp_parse_isoc_day|]. intros [day' p4] Hp4.
  eapply wp_bind; [apply wp_parse_clock; destruct fmt2; lia|]. intros [[[h m] s] p5] Hp5.
  eapply (wp_bind _ _ (fun _ => True)).
  { unfold parse_isoc_year. destruct fmt2; cbn [is_isoc]; try done.
    eapply wp_bind; [apply wp_expect; rewrite length_drop; lia|]. intros _ _. apply wp_four_digits. rewrite !length_drop. lia. }
  intros y _. eapply wp_bind; [apply wp_guard|]. intros _ _. eapply wp_bind; [apply wp_guard|]. done.
Qed.

(** ngx_parse_http_time reads only the bytes it was given, for every string; but it
    accepts day zero of a month, and takes it for the day before the first. *)
Theorem parse_http_time_safe :
  (forall value, exists t, ngx_parse_http_time value = Some t)
  /\ ngx_parse_http_time (str("Sun, 00 Nov 1994 08:49:37 GMT"))
     = ngx_parse_http_time (str("Sun, 31 Oct 1994 08:49:37 GMT")).
Proof.
  split; [|vm_compute; reflexivity]. intros value. unfold ngx_parse_http_time.
  pose proof (wp_parse_fields value) as H. destruct (parse_fields value) as [[t|]|]; [eauto|eauto|done].
Qed.
