(* ===== verification/RbTree.v ===== *)
(** * Red-black trees: core/ngx_rbtree.c and core/ngx_rbtree.h

    The nodes are structures in memory with pointers to their children and parent; a
    tree ends in a sentinel node, which belongs to the tree and whose parent field is
    written by a deletion.  Memory is a finite map from addresses to nodes, NULL is
    address 0, where there is no node, and an access outside the map has no result.

    The code for the two sides is symmetric, and so is the model: [child L] and
    [child R] are the fields left and right, [rotate L] and [rotate R] the two
    rotations. *)

From S2P Require Import Prelude.

Inductive dir := L | R.

Definition opp (d : dir) : dir := match d with L => R | R => L end.

(** ngx_rbtree_node_t; [red] is the field color. *)
Record node := Node { key : Z; left : nat; right : nat; parent : nat; red : bool }.

Definition child (d : dir) (n : node) : nat := match d with L => left n | R => right n end.
Definition set_child (d : dir) (p : nat) (n : node) : node :=
  let '(Node k l r u c) := n in match d with L => Node k p r u c | R => Node k l p u c end.
Definition set_parent (p : nat) (n : node) : node := let '(Node k l r _ c) := n in Node k l r p c.
Definition set_red (c : bool) (n : node) : node := let '(Node k l r u _) := n in Node k l r u c.

(** Memory and the root pointer of the tree. *)
Record state := MkState { mem : gmap nat node; root : nat }.

Definition rd (p : nat) (st : state) : option node := mem st !! p.
Definition wr (p : nat) (f : node -> node) (st : state) : option state :=
  n ← mem st !! p; Some (MkState (<[p := f n]> (mem st)) (root st)).
Definition set_root (p : nat) (st : state) : state := MkState (mem st) p.

Section Operations.
Context (sentinel : nat).

(** if (p != sentinel) p->parent = q; *)
Definition wr_parent (p q : nat) (st : state) : option state :=
  if (p =? sentinel)%nat then Some st else wr p (set_parent q) st.

(** Put [new] where the parent of [old] points to [old]; the test looks at side [d]. *)
Definition replace_child (d : dir) (old new up : nat) (st : state) : option state :=
  if (old =? root st)%nat then Some (set_root new st)
  else
    u ← rd up st;
    if (old =? child d u)%nat then wr up (set_child d new) st else wr up (set_child (opp d) new) st.

(** ngx_rbtree_left_rotate and ngx_rbtree_right_rotate *)
Definition rotate (d : dir) (p : nat) (st : state) : option state :=
  n ← rd p st;
  let temp := child (opp d) n in
  t ← rd temp st;
  st ← wr p (set_child (opp d) (child d t)) st;
  st ← wr_parent (child d t) p st;
  st ← wr temp (set_parent (parent n)) st;
  st ← replace_child d p temp (parent n) st;
  st ← wr temp (set_child d p) st;
  wr p (set_parent temp) st.

(** The loop that re-balances after an insertion. *)
Fixpoint insert_fixup (fuel : nat) (p : nat) (st : state) : option state :=
  match fuel with
  | O => None
  | S fuel =>
      if (p =? root st)%nat then Some st
      else
        n ← rd p st;
        u ← rd (parent n) st;
        if negb (red u) then Some st
        else
          g ← rd (parent u) st;
          let d := if (parent n =? left g)%nat then L else R in
          let temp := child (opp d) g in
          t ← rd temp st;
          if red t then
            st ← wr (parent n) (set_red false) st;
            st ← wr temp (set_red false) st;
            st ← wr (parent u) (set_red true) st;
            insert_fixup fuel (parent u) st
          else
            '(p, st) ← (if (p =? child (opp d) u)%nat
                        then st ← rotate d (parent n) st; Some (parent n, st)
                        else Some (p, st));
            n ← rd p st;
            st ← wr (parent n) (set_red false) st;
            u ← rd (parent n) st;
            st ← wr (parent u) (set_red true) st;
            st ← rotate (opp d) (parent u) st;
            insert_fixup fuel p st
  end.

(** The search for the place of a new node, shared by ngx_rbtree_insert_value,
    ngx_rbtree_insert_timer_value and the insertion functions of other modules, which
    differ in the comparison.  It compares nodes, each with its address and its key:
    the modules also look at the structure a node is part of. *)
Fixpoint insert_search (less : nat * Z -> nat * Z -> bool) (fuel : nat) (e : nat * Z) (temp : nat) (st : state)
    : option (nat * dir) :=
  match fuel with
  | O => None
  | S fuel =>
      t ← rd temp st;
      let d := if less e (temp, key t) then L else R in
      if (child d t =? sentinel)%nat then Some (temp, d) else insert_search less fuel e (child d t) st
  end.

Definition insert_value (less : nat * Z -> nat * Z -> bool) (temp p : nat) (st : state) : option state :=
  n ← rd p st;
  '(temp, d) ← insert_search less (size (mem st)) (p, key n) temp st;
  st ← wr temp (set_child d p) st;
  wr p (fun n => Node (key n) sentinel sentinel temp true) st.

(** node->key < temp->key *)
Definition less_value (a b : nat * Z) : bool := snd a <? snd b.
(** (ngx_rbtree_key_int_t) (node->key - temp->key) < 0 *)
Definition less_timer (a b : nat * Z) : bool := i64 (snd a - snd b) <? 0.

Definition ngx_rbtree_insert_value := insert_value less_value.
Definition ngx_rbtree_insert_timer_value := insert_value less_timer.

(** ngx_rbtree_insert; [less] stands for tree->insert. *)
Definition ngx_rbtree_insert (less : nat * Z -> nat * Z -> bool) (p : nat) (st : state) : option state :=
  if (root st =? sentinel)%nat then
    st ← wr p (fun n => Node (key n) sentinel sentinel 0 false) st;
    Some (set_root p st)
  else
    st ← insert_value less (root st) p st;
    st ← insert_fixup (S (size (mem st))) p st;
    wr (root st) (set_red false) st.

(** ngx_rbtree_min *)
Fixpoint min_loop (fuel : nat) (p : nat) (st : state) : option nat :=
  match fuel with
  | O => None
  | S fuel =>
      n ← rd p st;
      if (left n =? sentinel)%nat then Some p else min_loop fuel (left n) st
  end.

Definition ngx_rbtree_min (p : nat) (st : state) : option nat := min_loop (size (mem st)) p st.

(** temp->parent->right, or left: the sibling of [temp], which is on side [d]. *)
Definition sibling (d : dir) (temp : nat) (st : state) : option nat :=
  t ← rd temp st; u ← rd (parent t) st; Some (child (opp d) u).

(** The loop that re-balances after a deletion: the last black. *)
Fixpoint delete_fixup (fuel : nat) (temp : nat) (st : state) : option (nat * state) :=
  match fuel with
  | O => None
  | S fuel =>
      if (temp =? root st)%nat then Some (temp, st)
      else
        t ← rd temp st;
        if red t then Some (temp, st)
        else
          u ← rd (parent t) st;
          let d := if (temp =? left u)%nat then L else R in
          let w := child (opp d) u in
          wn ← rd w st;
          '(w, st) ← (if red wn then
                        st ← wr w (set_red false) st;
                        st ← wr (parent t) (set_red true) st;
                        st ← rotate d (parent t) st;
                        w ← sibling d temp st;
                        Some (w, st)
                      else Some (w, st));
          wn ← rd w st;
          near ← rd (child d wn) st;
          far ← rd (child (opp d) wn) st;
          if negb (red near) && negb (red far) then
            st ← wr w (set_red true) st;
            t ← rd temp st;
            delete_fixup fuel (parent t) st
          else
            '(w, st) ← (if negb (red far) then
                          st ← wr (child d wn) (set_red false) st;
                          st ← wr w (set_red true) st;
                          st ← rotate (opp d) w st;
                          w ← sibling d temp st;
                          Some (w, st)
                        else Some (w, st));
            t ← rd temp st;
            u ← rd (parent t) st;
            st ← wr w (set_red (red u)) st;
            st ← wr (parent t) (set_red false) st;
            wn ← rd w st;
            st ← wr (child (opp d) wn) (set_red false) st;
            st ← rotate d (parent t) st;
            delete_fixup fuel (root st) st
  end.

(** The fields that are cleared for debugging. *)
Definition clear_node (p : nat) (st : state) : option state :=
  wr p (fun n => Node 0 0 0 0 (red n)) st.

(** The links when [node] is replaced by its successor [subst], whose right child is
    [temp]. *)
Definition substitute (p subst temp : nat) (up : nat) (st : state) : option state :=
  st ← (if (up =? p)%nat then wr temp (set_parent subst) st else wr temp (set_parent up) st);
  n ← rd p st;
  st ← wr subst (fun s => Node (key s) (left n) (right n) (parent n) (red n)) st;
  st ← replace_child L p subst (parent n) st;
  s ← rd subst st;
  st ← wr_parent (left s) subst st;
  wr_parent (right s) subst st.

(** ngx_rbtree_delete from "if (subst == *root)" on. *)
Definition delete_links (p subst temp : nat) (st : state) : option state :=
  if (subst =? root st)%nat then
    let st := set_root temp st in
    st ← wr temp (set_red false) st;
    clear_node p st
  else
    s ← rd subst st;
    let was_red := red s in
    u ← rd (parent s) st;
    st ← (if (subst =? left u)%nat then wr (parent s) (set_child L temp) st
          else wr (parent s) (set_child R temp) st);
    st ← (if (subst =? p)%nat then wr temp (set_parent (parent s)) st
          else substitute p subst temp (parent s) st);
    st ← clear_node p st;
    if was_red then Some st
    else
      '(temp, st) ← delete_fixup (S (size (mem st))) temp st;
      wr temp (set_red false) st.

(** ngx_rbtree_delete *)
Definition ngx_rbtree_delete (p : nat) (st : state) : option state :=
  n ← rd p st;
  '(subst, temp) ← (if (left n =? sentinel)%nat then Some (p, right n)
                    else if (right n =? sentinel)%nat then Some (p, left n)
                    else subst ← ngx_rbtree_min (right n) st;
                         s ← rd subst st;
                         Some (subst, right s));
  delete_links p subst temp st.

(** ngx_rbtree_next; the inner [None] is NULL. *)
Fixpoint next_loop (fuel : nat) (p : nat) (st : state) : option (option nat) :=
  match fuel with
  | O => None
  | S fuel =>
      n ← rd p st;
      if (p =? root st)%nat then Some None
      else
        u ← rd (parent n) st;
        if (p =? left u)%nat then Some (Some (parent n)) else next_loop fuel (parent n) st
  end.

Definition ngx_rbtree_next (p : nat) (st : state) : option (option nat) :=
  n ← rd p st;
  if negb (right n =? sentinel)%nat then Some <$> ngx_rbtree_min (right n) st
  else next_loop (size (mem st)) p st.

End Operations.

(** Ten nodes with scattered keys, inserted and then deleted one after the other; the
    keys are read in order through [ngx_rbtree_next]. *)
Definition demo_key (i : nat) : Z := Z.of_nat i * 7 mod 11.
Definition demo_mem : gmap nat node :=
  list_to_map ((100%nat, Node 0 0 0 0 false) :: map (fun i => (i, Node (demo_key i) 0 0 0 false)) (seq 1 10)).

Fixpoint walk (fuel : nat) (p : nat) (st : state) : option (list Z) :=
  match fuel with
  | O => None
  | S fuel =>
      n ← rd p st;
      q ← ngx_rbtree_next 100 p st;
      match q with Some q => cons (key n) <$> walk fuel q st | None => Some [key n] end
  end.

Definition demo (ins del : list nat) : option (list Z) :=
  st ← foldl (fun st p => st ← st; ngx_rbtree_insert 100 less_value p st) (Some (MkState demo_mem 100)) ins;
  st ← foldl (fun st p => st ← st; ngx_rbtree_delete 100 p st) (Some st) del;
  m ← ngx_rbtree_min 100 (root st) st;
  walk 20 m st.

Example rbtree_ex :
  demo (seq 1 10) [] = Some [1; 2; 3; 4; 5; 6; 7; 8; 9; 10]
  /\ demo (seq 1 10) [3%nat; 1%nat; 9%nat; 6%nat; 10%nat] = Some [1; 2; 3; 5; 6].
Proof. vm_compute. auto. Qed.
