(* ===== verification/RbTreeShape.v ===== *)
(** * Red-black trees: the links

    The memory of a tree is described by a binary tree and a context (a zipper): the
    focus is a subtree, the context the path from it to the root.  A rotation, a change
    of colour and a step of the focus are local in this view, so that the loops of
    ngx_rbtree.c become walks on zippers. *)

From S2P Require Import Prelude RbTree.

Inductive tree := E | T (c : bool) (l : tree) (p : nat) (k : Z) (r : tree).

(** The node [p] with [a] on side [d] and [b] on the other one. *)
Definition mk (d : dir) (c : bool) (a : tree) (p : nat) (k : Z) (b : tree) : tree :=
  match d with L => T c a p k b | R => T c b p k a end.

Definition mknode (d : dir) (k : Z) (a b u : nat) (c : bool) : node :=
  match d with L => Node k a b u c | R => Node k b a u c end.

Lemma child_mknode d k a b u c : child d (mknode d k a b u c) = a.
Proof. by destruct d. Qed.
Lemma child_opp_mknode d k a b u c : child (opp d) (mknode d k a b u c) = b.
Proof. by destruct d. Qed.
Lemma set_child_mknode d k a b u c x : set_child d x (mknode d k a b u c) = mknode d k x b u c.
Proof. by destruct d. Qed.
Lemma set_child_opp_mknode d k a b u c x : set_child (opp d) x (mknode d k a b u c) = mknode d k a x u c.
Proof. by destruct d. Qed.
Lemma set_parent_mknode d k a b u c x : set_parent x (mknode d k a b u c) = mknode d k a b x c.
Proof. by destruct d. Qed.
Lemma set_red_mknode d k a b u c x : set_red x (mknode d k a b u c) = mknode d k a b u x.
Proof. by destruct d. Qed.
Lemma parent_mknode d k a b u c : parent (mknode d k a b u c) = u.
Proof. by destruct d. Qed.
Lemma red_mknode d k a b u c : red (mknode d k a b u c) = c.
Proof. by destruct d. Qed.
Lemma key_mknode d k a b u c : key (mknode d k a b u c) = k.
Proof. by destruct d. Qed.
Lemma mknode_opp d k a b u c : mknode (opp d) k a b u c = mknode d k b a u c.
Proof. by destruct d. Qed.
Lemma mk_opp d c a p k b : mk (opp d) c a p k b = mk d c b p k a.
Proof. by destruct d. Qed.
Lemma opp_opp d : opp (opp d) = d.
Proof. by destruct d. Qed.

Create HintDb rb.
#[export] Hint Rewrite child_mknode child_opp_mknode set_child_mknode set_child_opp_mknode set_parent_mknode
  set_red_mknode parent_mknode red_mknode key_mknode opp_opp : rb.

Fixpoint ids (t : tree) : list nat :=
  match t with E => [] | T _ l p _ r => ids l ++ p :: ids r end.

Fixpoint elems (t : tree) : list (nat * Z) :=
  match t with E => [] | T _ l p k r => elems l ++ (p, k) :: elems r end.

Lemma elems_ids t : map fst (elems t) = ids t.
Proof. induction t as [|c l IHl p k r IHr]; [done|]. cbn. by rewrite map_app, IHl, <- IHr. Qed.

Lemma ids_mk d c a p k b : ids (mk d c a p k b) ≡ₚ p :: ids a ++ ids b.
Proof. destruct d; cbn; [by rewrite Permutation_middle|]. rewrite <- Permutation_middle. by rewrite (Permutation_app_comm (ids a)). Qed.

Fixpoint height (t : tree) : nat := match t with E => 0 | T _ l _ _ r => S (max (height l) (height r)) end.

Lemma height_ids t : (height t <= length (ids t))%nat.
Proof. induction t as [|c l IHl p k r IHr]; cbn; [lia|]. rewrite length_app. cbn. lia. Qed.

Lemma height_mk d c a p k b : height (mk d c a p k b) = S (max (height a) (height b)).
Proof. destruct d; cbn; lia. Qed.

(** A step of the path: the focus is the child [d] of [p], [sib] is the other child. *)
Record frame := F { f_dir : dir; f_red : bool; f_ptr : nat; f_key : Z; f_sib : tree }.

Definition fill (f : frame) (t : tree) : tree := let '(F d c p k b) := f in mk d c t p k b.

Fixpoint plug (ctx : list frame) (t : tree) : tree :=
  match ctx with [] => t | f :: ctx => plug ctx (fill f t) end.

Fixpoint cids (ctx : list frame) : list nat :=
  match ctx with [] => [] | F _ _ p _ b :: ctx => p :: ids b ++ cids ctx end.

Lemma ids_plug ctx t : ids (plug ctx t) ≡ₚ ids t ++ cids ctx.
Proof.
  revert t. induction ctx as [|[d c p k b] ctx IH]; intros t; cbn [plug fill cids]; [by rewrite app_nil_r|].
  rewrite IH, ids_mk, app_comm_cons. cbn. rewrite <- Permutation_middle. by rewrite app_assoc.
Qed.

Section Shape.
Context (s : nat).

Definition ptr (t : tree) : nat := match t with E => s | T _ _ p _ _ => p end.

Lemma ptr_mk d c a p k b : ptr (mk d c a p k b) = p.
Proof. by destruct d. Qed.

(** The nodes of [t] are in memory; the parent of its root is [u]. *)
Fixpoint rep (m : gmap nat node) (u : nat) (t : tree) : Prop :=
  match t with
  | E => True
  | T c l p k r => m !! p = Some (Node k (ptr l) (ptr r) u c) /\ rep m p l /\ rep m p r
  end.

Lemma rep_mk m u d c a p k b :
  rep m u (mk d c a p k b) <-> m !! p = Some (mknode d k (ptr a) (ptr b) u c) /\ rep m p a /\ rep m p b.
Proof. destruct d; cbn; tauto. Qed.

(** The parent of the focus; [rp] is the parent field of the root, which nobody reads. *)
Definition up (rp : nat) (ctx : list frame) : nat := match ctx with [] => rp | f :: _ => f_ptr f end.

Fixpoint repc (m : gmap nat node) (rt rp f : nat) (ctx : list frame) : Prop :=
  match ctx with
  | [] => rt = f
  | F d c p k b :: ctx =>
      m !! p = Some (mknode d k f (ptr b) (up rp ctx) c) /\ rep m p b /\ repc m rt rp p ctx
  end.

Lemma rep_frame m m' u t : (forall p, p ∈ ids t -> m' !! p = m !! p) -> rep m u t -> rep m' u t.
Proof.
  revert u. induction t as [|c l IHl p k r IHr]; intros u H; [done|]. cbn in *. intros (H1 & H2 & H3).
  rewrite H by set_solver. split_and!; [done|apply IHl; [set_solver|done]|apply IHr; [set_solver|done]].
Qed.

Lemma repc_frame m m' rt rp f ctx :
  (forall p, p ∈ cids ctx -> m' !! p = m !! p) -> repc m rt rp f ctx -> repc m' rt rp f ctx.
Proof.
  revert f. induction ctx as [|[d c p k b] ctx IH]; intros f H; [done|]. cbn in *. intros (H1 & H2 & H3).
  rewrite H by set_solver. split_and!; [done| |apply IH; [set_solver|done]].
  eapply rep_frame; [|done]. set_solver.
Qed.

(** The parent field of the root of a subtree. *)
Lemma rep_reparent m u u' t n :
  rep m u t -> t <> E -> NoDup (ids t) -> m !! ptr t = Some n -> rep (<[ptr t := set_parent u' n]> m) u' t.
Proof.
  destruct t as [|c l p k r]; [done|]. cbn [rep ptr ids]. intros (H1 & H2 & H3) _ Hn Hp. simplify_eq.
  apply list.NoDup_app in Hn as (Hl & Hx & [Hr1 Hr2]%list.NoDup_cons).
  split; [by rewrite lookup_insert_eq|]. split; (eapply rep_frame; [|done]); intros q Hq; rewrite lookup_insert_ne; try done.
  - intros ->. apply (Hx q); [done|by left].
  - intros ->. done.
Qed.

(** A tree in memory, seen from a focus. *)
Record good (st : state) (rp : nat) (ctx : list frame) (t : tree) : Prop := {
  g_rep : rep (mem st) (up rp ctx) t;
  g_ctx : repc (mem st) (root st) rp (ptr t) ctx;
  g_nodup : NoDup (ids (plug ctx t));
  g_sent : s ∉ ids (plug ctx t);
  g_black : exists n, mem st !! s = Some n /\ red n = false;
}.

Lemma good_up st rp d c p k b ctx t :
  good st rp (F d c p k b :: ctx) t <-> good st rp ctx (mk d c t p k b).
Proof.
  split; intros [H1 H2 H3 H4 H5].
  - destruct H2 as (H2 & H6 & H7). constructor; auto; [by apply rep_mk|by rewrite ptr_mk].
  - apply rep_mk in H1 as (H1 & H6 & H7). rewrite ptr_mk in H2. constructor; auto. by split_and!.
Qed.

(** Look at the other child. *)
Lemma good_across st rp d c p k b ctx t :
  good st rp (F d c p k b :: ctx) t <-> good st rp (F (opp d) c p k t :: ctx) b.
Proof. by rewrite !good_up, mk_opp. Qed.

(** The nodes of focus and context are distinct. *)
Lemma good_disjoint st rp ctx t :
  good st rp ctx t -> NoDup (ids t) /\ NoDup (cids ctx) /\ (forall p, p ∈ ids t -> p ∉ cids ctx)
    /\ s ∉ ids t /\ s ∉ cids ctx.
Proof.
  intros [_ _ H3 H4 _]. rewrite ids_plug in H3, H4. apply list.NoDup_app in H3 as (? & ? & ?). set_solver.
Qed.

Lemma good_root_in st rp ctx t : good st rp ctx t -> ptr t <> root st -> exists d c p k b ctx', ctx = F d c p k b :: ctx'.
Proof. intros H Hr. destruct ctx as [|[d c p k b] ctx]; [by destruct H|]. eauto 10. Qed.

(** Below the root, the root is a node of the path. *)
Lemma repc_root m rt rp q f ctx : repc m rt rp q (f :: ctx) -> rt ∈ cids (f :: ctx).
Proof.
  revert f q. induction ctx as [|g ctx IH]; intros [d c p k b] q (_ & _ & Hc); cbn in *; [set_solver|].
  apply IH in Hc. set_solver.
Qed.

Lemma good_root st rp ctx t : good st rp ctx t -> t <> E -> ptr t = root st -> ctx = [].
Proof.
  intros H Ht Hr. destruct ctx as [|f ctx]; [done|]. exfalso.
  pose proof (repc_root _ _ _ _ _ _ (g_ctx _ _ _ _ H)) as Hin.
  destruct (good_disjoint _ _ _ _ H) as (_ & _ & Hd & _). rewrite <- Hr in Hin. apply (Hd (ptr t)); [|done].
  destruct t; [done|]. cbn. set_solver.
Qed.

(** ** Colours *)

Lemma set_red_good st rp ctx d c a p k b c' :
  good st rp ctx (mk d c a p k b) -> exists st',
  wr p (set_red c') st = Some st' /\ good st' rp ctx (mk d c' a p k b)
  /\ root st' = root st /\ (forall q, q <> p -> mem st' !! q = mem st !! q).
Proof.
  intros H. pose proof (good_disjoint _ _ _ _ H) as (Hn & _ & Hd & Hs & _). rewrite ids_mk in Hn, Hs.
  apply list.NoDup_cons in Hn as [Hp _].
  assert (Hd' : forall q, q ∈ ids (mk d c a p k b) -> q ∉ cids ctx) by done. setoid_rewrite ids_mk in Hd'.
  destruct H as [H1 H2 H3 H4 H5]. apply rep_mk in H1 as (H1 & H6 & H7). unfold wr. rewrite H1. cbn [mbind option_bind].
  eexists. split; [done|]. split_and!; [|done|intros q Hq; cbn; by rewrite lookup_insert_ne].
  constructor; cbn.
  - apply rep_mk. autorewrite with rb. rewrite lookup_insert_eq. split_and!; [done| |].
    all: eapply rep_frame; [|done]; intros q Hq; rewrite lookup_insert_ne; [done|set_solver].
  - rewrite ptr_mk in *. eapply repc_frame; [|done]. intros q Hq. rewrite lookup_insert_ne; [done|].
    intros ->. apply (Hd' q); [by left|done].
  - rewrite ids_plug in *. by rewrite ids_mk in *.
  - rewrite ids_plug in *. by rewrite ids_mk in *.
  - rewrite lookup_insert_ne; [done|]. set_solver.
Qed.

(** ** Rotations *)

Lemma wr_lookup p f st n : mem st !! p = Some n -> wr p f st = Some (MkState (<[p := f n]> (mem st)) (root st)).
Proof. intros H. unfold wr. by rewrite H. Qed.

Lemma wr_parent_good st u v t :
  rep (mem st) u t -> NoDup (ids t) -> s ∉ ids t -> exists st',
  wr_parent s (ptr t) v st = Some st' /\ rep (mem st') v t /\ root st' = root st
  /\ (forall q, q ∉ ids t -> mem st' !! q = mem st !! q).
Proof.
  intros H Hn Hs. unfold wr_parent. destruct t as [|c l p k r].
  - cbn [ptr]. rewrite Nat.eqb_refl. exists st. by split_and!.
  - cbn [ptr]. destruct (Nat.eqb_spec p s) as [->|Hne]; [exfalso; apply Hs; cbn; set_solver|].
    pose proof (proj1 H) as Hp. rewrite (wr_lookup _ _ _ _ Hp). eexists. split; [done|]. split_and!; [|done|].
    + cbn [mem]. by apply (rep_reparent _ u _ (T c l p k r)).
    + cbn. intros q Hq. rewrite lookup_insert_ne; [done|]. intros ->. apply Hq. set_solver.
Qed.

(** The node above is made to point to another child. *)
Lemma replace_child_good d st rp ctx old new :
  repc (mem st) (root st) rp old ctx -> NoDup (cids ctx) -> old ∉ cids ctx -> old <> s -> exists st',
  replace_child d old new (up rp ctx) st = Some st' /\ repc (mem st') (root st') rp new ctx
  /\ (forall q, q ∉ cids ctx -> mem st' !! q = mem st !! q).
Proof.
  intros H Hn Ho Hos. unfold replace_child. destruct ctx as [|[d' c p k b] ctx].
  - cbn in H. rewrite H, Nat.eqb_refl. eexists. split; [done|]. split; [done|]. done.
  - pose proof (repc_root _ _ _ _ _ _ H) as Hr.
    destruct (Nat.eqb_spec old (root st)) as [->|_]; [done|].
    destruct H as (Hp & Hb & Hc). cbn [up f_ptr]. unfold rd. rewrite Hp. cbn [mbind option_bind].
    cbn [cids] in *. apply list.NoDup_cons in Hn as [Hpn Hn]. apply list.NoDup_app in Hn as (_ & Hbc & _).
    assert (Hob : old <> ptr b).
    { intros ->. destruct b; cbn in *; [done|]. apply Ho. set_solver. }
    assert (Heq : exists f, (if (old =? child d (mknode d' k old (ptr b) (up rp ctx) c))%nat
        then wr p (set_child d new) st else wr p (set_child (opp d) new) st) = wr p f st
        /\ f (mknode d' k old (ptr b) (up rp ctx) c) = mknode d' k new (ptr b) (up rp ctx) c).
    { destruct d, d'; cbn [child mknode left right opp]; rewrite ?Nat.eqb_refl; try (eexists; done).
      all: destruct (Nat.eqb_spec old (ptr b)); [done|]; eexists; done. }
    destruct Heq as (f & -> & Hf). rewrite (wr_lookup _ _ _ _ Hp), Hf. eexists. split; [done|]. split.
    + cbn. rewrite lookup_insert_eq. split_and!; [done| |].
      * eapply rep_frame; [|done]. intros q Hq. rewrite lookup_insert_ne; [done|]. intros ->. set_solver.
      * eapply repc_frame; [|done]. intros q Hq. rewrite lookup_insert_ne; [done|]. intros ->. set_solver.
    + cbn. intros q Hq. rewrite lookup_insert_ne; [done|]. intros ->. set_solver.
Qed.

(** A rotation at the focus. *)
Lemma rotate_good st rp ctx d c a x kx cy b y ky g :
  good st rp ctx (mk d c a x kx (mk d cy b y ky g)) -> exists st',
  rotate s d x st = Some st' /\ good st' rp ctx (mk d cy (mk d c a x kx b) y ky g)
  /\ (forall q, q ∉ ids (plug ctx (mk d c a x kx (mk d cy b y ky g))) -> mem st' !! q = mem st !! q).
Proof.
  intros H. pose proof (good_disjoint _ _ _ _ H) as (Hn & Hnc & Hd & Hs & Hsc).
  assert (Hperm : ids (mk d c a x kx (mk d cy b y ky g)) ≡ₚ x :: y :: ids a ++ ids b ++ ids g).
  { rewrite ids_mk. f_equiv. rewrite ids_mk. by rewrite <- Permutation_middle. }
  assert (Hperm' : ids (mk d cy (mk d c a x kx b) y ky g) ≡ₚ x :: y :: ids a ++ ids b ++ ids g).
  { rewrite ids_mk, ids_mk. cbn. rewrite perm_swap. by rewrite app_assoc. }
  rewrite Hperm in Hn, Hs. setoid_rewrite Hperm in Hd.
  apply list.NoDup_cons in Hn as [Hx [Hy Hn]%list.NoDup_cons]. apply list.NoDup_app in Hn as (Hna & Hab & Hn).
  apply list.NoDup_app in Hn as (Hnb & Hbg & Hng).
  destruct H as [H1 H2 H3 H4 H5]. apply rep_mk in H1 as (Hxm & Ha & H1). apply rep_mk in H1 as (Hym & Hb & Hg).
  rewrite ptr_mk in *. assert (Hxy : x <> y) by set_solver.
  unfold rotate, rd. rewrite Hxm. cbn [mbind option_bind]. autorewrite with rb. rewrite Hym. cbn [mbind option_bind].
  autorewrite with rb. rewrite (wr_lookup _ _ _ _ Hxm). cbn [mbind option_bind]. autorewrite with rb.
  set (st1 := MkState _ _).
  destruct (wr_parent_good st1 y x b) as (st2 & -> & Hb2 & Hr2 & Hf2); [|done|set_solver|].
  { eapply rep_frame; [|done]. intros q Hq. unfold st1. cbn. rewrite lookup_insert_ne; [done|set_solver]. }
  cbn [mbind option_bind].
  assert (Hy2 : mem st2 !! y = Some (mknode d ky (ptr b) (ptr g) x cy)).
  { rewrite Hf2 by set_solver. unfold st1. cbn. by rewrite lookup_insert_ne. }
  rewrite (wr_lookup _ _ _ _ Hy2). cbn [mbind option_bind]. autorewrite with rb. set (st3 := MkState _ _).
  assert (Hx3 : mem st3 !! x = Some (mknode d kx (ptr a) (ptr b) (up rp ctx) c)).
  { unfold st3. cbn. rewrite lookup_insert_ne by done. rewrite Hf2 by set_solver. unfold st1. cbn. by rewrite lookup_insert_eq. }
  assert (Ho3 : forall q, q <> x -> q <> y -> q ∉ ids b -> mem st3 !! q = mem st !! q).
  { intros q Hqx Hqy Hqb. unfold st3. cbn. rewrite lookup_insert_ne by done. rewrite Hf2 by done.
    unfold st1. cbn. by rewrite lookup_insert_ne. }
  destruct (replace_child_good d st3 rp ctx x y) as (st4 & -> & Hc4 & Hf4); [|done|set_solver|set_solver|].
  { eapply repc_frame; [|unfold st3; cbn; rewrite Hr2; exact H2]. intros q Hq. apply Ho3; set_solver. }
  cbn [mbind option_bind].
  assert (Hy4 : mem st4 !! y = Some (mknode d ky (ptr b) (ptr g) (up rp ctx) cy)).
  { rewrite Hf4 by set_solver. unfold st3. cbn. by rewrite lookup_insert_eq. }
  rewrite (wr_lookup _ _ _ _ Hy4). cbn [mbind option_bind]. autorewrite with rb. set (st5 := MkState _ _).
  assert (Hx5 : mem st5 !! x = Some (mknode d kx (ptr a) (ptr b) (up rp ctx) c)).
  { unfold st5. cbn. rewrite lookup_insert_ne by done. rewrite Hf4 by set_solver. done. }
  rewrite (wr_lookup _ _ _ _ Hx5). autorewrite with rb. eexists. split; [done|].
  assert (Hout : forall q, q <> x -> q <> y -> q ∉ cids ctx ->
    mem (MkState (<[x := mknode d kx (ptr a) (ptr b) y c]> (mem st5)) (root st5)) !! q = mem st3 !! q).
  { intros q Hqx Hqy Hqc. cbn. rewrite lookup_insert_ne by done. unfold st5. cbn. rewrite lookup_insert_ne by done. by apply Hf4. }
  split.
  - constructor.
    + apply rep_mk. rewrite ptr_mk. split_and!.
      * cbn. rewrite lookup_insert_ne by done. unfold st5. cbn. by rewrite lookup_insert_eq.
      * apply rep_mk. split_and!; [cbn; by rewrite lookup_insert_eq| |].
        { eapply rep_frame; [|exact Ha]. intros q Hq. rewrite Hout by set_solver. apply Ho3; set_solver. }
        { eapply rep_frame; [|exact Hb2]. intros q Hq. rewrite Hout by set_solver.
          unfold st3. cbn. rewrite lookup_insert_ne; [done|set_solver]. }
      * eapply rep_frame; [|exact Hg]. intros q Hq. rewrite Hout by set_solver. apply Ho3; set_solver.
    + rewrite ptr_mk. cbn [root]. eapply repc_frame; [|unfold st5; exact Hc4]. intros q Hq. cbn.
      rewrite lookup_insert_ne by set_solver. unfold st5. cbn. rewrite lookup_insert_ne by set_solver. done.
    + rewrite ids_plug, Hperm'. by rewrite ids_plug, Hperm in H3.
    + rewrite ids_plug, Hperm'. by rewrite ids_plug, Hperm in H4.
    + rewrite Hout by set_solver. rewrite Ho3 by set_solver. done.
  - intros q Hq. rewrite ids_plug, Hperm in Hq. rewrite Hout by set_solver. apply Ho3; set_solver.
Qed.

End Shape.
