(* ===== verification/RbTreeInsert.v ===== *)
(** * Red-black trees: balance, and insertion

    [rb t n]: no red node has a red child and every path has [n] black nodes; [cok ctx n]:
    a subtree of black height [n] fits in the context. *)

From stdpp Require Import sorting.
From S2P Require Import Prelude RbTree RbTreeShape.

Definition tred (t : tree) : bool := match t with E => false | T c _ _ _ _ => c end.

Fixpoint rb (t : tree) (n : nat) : Prop :=
  match t with
  | E => n = 0%nat
  | T true l _ _ r => rb l n /\ rb r n /\ tred l = false /\ tred r = false
  | T false l _ _ r => exists m, n = S m /\ rb l m /\ rb r m
  end.

Lemma rb_red d a p k b n : rb (mk d true a p k b) n <-> rb a n /\ rb b n /\ tred a = false /\ tred b = false.
Proof. destruct d; cbn; tauto. Qed.

Lemma rb_black d a p k b n : rb (mk d false a p k b) n <-> exists m, n = S m /\ rb a m /\ rb b m.
Proof. destruct d; cbn; naive_solver. Qed.

Lemma tred_mk d c a p k b : tred (mk d c a p k b) = c.
Proof. by destruct d. Qed.

Lemma tree_mk d t : t = E \/ exists c a p k b, t = mk d c a p k b.
Proof. destruct t as [|c l p k r]; [by left|right]. destruct d; [by exists c, l, p, k, r|by exists c, r, p, k, l]. Qed.

(** The frame above is a black node. *)
Definition black_above (ctx : list frame) : Prop := match ctx with F _ false _ _ _ :: _ => True | _ => False end.

Fixpoint cok (ctx : list frame) (n : nat) : Prop :=
  match ctx with
  | [] => True
  | F _ false _ _ b :: ctx => rb b n /\ cok ctx (S n)
  | F _ true _ _ b :: ctx => rb b n /\ tred b = false /\ black_above ctx /\ cok ctx n
  end.

(** A subtree in its place: the whole is balanced, unless two red nodes meet. *)
Lemma rb_plug ctx : forall t n,
  rb t n -> cok ctx n -> (tred t = true -> ctx <> [] -> black_above ctx) -> exists m, rb (plug ctx t) m.
Proof.
  induction ctx as [|[d c p k b] ctx IH]; intros t n Ht Hc Hr; [by exists n|]. cbn [plug fill cok] in *. destruct c.
  - destruct Hc as (Hb & Hbr & Ha & Hc). apply (IH _ n); [|done|intros _ _; done].
    apply rb_red. split_and!; auto. destruct (tred t); [|done]. destruct (Hr eq_refl); discriminate.
  - destruct Hc as (Hb & Hc). apply (IH _ (S n)); [|done|by rewrite tred_mk]. apply rb_black. eauto.
Qed.

(** Conversely, a context of a balanced tree leaves room for what was there. *)
Lemma rb_unplug ctx : forall t h, rb (plug ctx t) h -> tred (plug ctx t) = false ->
  exists n, cok ctx n /\ rb t n /\ (tred t = true -> black_above ctx).
Proof.
  induction ctx as [|[d c p k b] ctx IH]; intros t h Hr Hb; cbn [plug fill] in *.
  - exists h. split_and!; [done|done|]. cbn in Hb. by rewrite Hb.
  - destruct (IH _ _ Hr Hb) as (n & Hc & Hn & Ha). rewrite tred_mk in Ha. destruct c.
    + apply rb_red in Hn as (Ht & Hbn & Htr & Hbr). exists n. cbn. split_and!; auto. by rewrite Htr.
    + apply rb_black in Hn as (m & -> & Ht & Hbn). exists m. cbn. auto.
Qed.

Lemma tred_plug ctx t : ctx <> [] -> (forall n, cok ctx n -> tred (plug ctx t) = false).
Proof.
  revert t. induction ctx as [|[d c p k b] ctx IH]; intros t Hne n Hc; [done|]. cbn [plug fill cok] in *.
  destruct ctx as [|f ctx].
  - cbn. rewrite tred_mk. destruct c; [|done]. by destruct Hc as (_ & _ & ? & _).
  - destruct c; [apply (IH _ ltac:(done) n)|apply (IH _ ltac:(done) (S n))]; apply Hc.
Qed.

Lemma elems_plug ctx t t' : elems t = elems t' -> elems (plug ctx t) = elems (plug ctx t').
Proof.
  revert t t'. induction ctx as [|[d c p k b] ctx IH]; intros t t' H; [done|]. cbn. apply IH. destruct d; cbn; by rewrite H.
Qed.

Lemma elems_mk d c c' a a' p k b b' :
  elems a = elems a' -> elems b = elems b' -> elems (mk d c a p k b) = elems (mk d c' a' p k b').
Proof. intros Ha Hb. destruct d; cbn; by rewrite Ha, Hb. Qed.

Lemma elems_rotate d c a x kx cy b y ky g c1 c2 :
  elems (mk d c a x kx (mk d cy b y ky g)) = elems (mk d c1 (mk d c2 a x kx b) y ky g).
Proof. destruct d; cbn; by rewrite <- ?app_assoc, ?app_comm_cons, <- ?app_assoc. Qed.

(** Take one step of an option computation whose first part is known. *)
Ltac bnd := cbn [mbind option_bind].

(** Two views of the same elements, and of the same nodes. *)
Ltac same_elems d := rewrite ?mk_opp; destruct d; cbn; repeat (rewrite <- ?app_assoc; cbn); reflexivity.
Ltac ids_perm := cbn [plug fill]; rewrite ?mk_opp, ?ids_plug, ?ids_mk; cbn; rewrite ?ids_mk; solve_Permutation.

Section Insert.
Context (s : nat).

Notation ptr := (ptr s).
Notation good := (good s).

Lemma good_plug st rp ctx t : good st rp ctx t <-> good st rp [] (plug ctx t).
Proof.
  revert t. induction ctx as [|[d c p k b] ctx IH]; intros t; [done|]. cbn [plug fill]. rewrite <- IH. apply good_up.
Qed.

Lemma go_up st rp d c p k b ctx t : good st rp (F d c p k b :: ctx) t -> good st rp ctx (mk d c t p k b).
Proof. apply good_up. Qed.

Lemma go_down st rp d c p k b ctx t : good st rp ctx (mk d c t p k b) -> good st rp (F d c p k b :: ctx) t.
Proof. apply good_up. Qed.

Lemma go_across st rp d c p k b ctx t : good st rp (F d c p k b :: ctx) t -> good st rp (F (opp d) c p k t :: ctx) b.
Proof. apply good_across. Qed.

Lemma go_root st rp ctx t : good st rp ctx t -> good st rp [] (plug ctx t).
Proof. apply good_plug. Qed.

(** What can be read at the focus and above it. *)
Lemma rd_focus st rp ctx t :
  good st rp ctx t -> t <> E -> exists n, rd (ptr t) st = Some n /\ red n = tred t /\ parent n = up rp ctx.
Proof. intros H Ht. destruct t as [|c l p k r]; [done|]. destruct (g_rep _ _ _ _ _ H) as (Hp & _). by eexists. Qed.

Lemma rd_any st rp ctx t : good st rp ctx t -> exists n, rd (ptr t) st = Some n /\ red n = tred t.
Proof.
  intros H. destruct t as [|c l p k r]; [by destruct (g_black _ _ _ _ _ H) as (n & ? & ?); exists n|].
  destruct (rd_focus _ _ _ _ H) as (n & ? & ? & _); [done|]. by exists n.
Qed.

Lemma rd_above st rp d c p k b ctx t :
  good st rp (F d c p k b :: ctx) t -> rd p st = Some (mknode d k (ptr t) (ptr b) (up rp ctx) c).
Proof. intros H. by destruct (g_ctx _ _ _ _ _ H). Qed.

Lemma sibling_ptr st rp d c p k b ctx t : good st rp (F d c p k b :: ctx) t -> t <> E -> ptr b <> ptr t.
Proof.
  intros H Ht. destruct (good_disjoint _ _ _ _ _ H) as (_ & _ & Hd & Hs & _). destruct t as [|c' l q k' r]; [done|].
  cbn [RbTreeShape.ptr ids cids] in *. destruct b as [|cb bl pb kb br]; cbn; [set_solver|]. intros ->.
  apply (Hd q); [set_solver|]. cbn. set_solver.
Qed.

Lemma not_root st rp f ctx t : good st rp (f :: ctx) t -> t <> E -> (ptr t =? root st)%nat = false.
Proof. intros H Ht. apply Nat.eqb_neq. intros Hr. by apply (good_root _ _ _ _ _ H) in Hr. Qed.

(** The side on which the code finds a child. *)
Lemma side_of d k a b u c : b <> a -> (if (a =? left (mknode d k a b u c))%nat then L else R) = d.
Proof.
  intros H. destruct d; cbn; [by rewrite Nat.eqb_refl|]. by destruct (Nat.eqb_spec a b).
Qed.

(** Nothing outside a set of nodes changes. *)
Definition kept (l : list nat) (st st' : state) : Prop := forall q, q ∉ l -> mem st' !! q = mem st !! q.

Lemma kept_refl l st : kept l st st.
Proof. by intros q _. Qed.

#[local] Hint Resolve kept_refl : core.

Lemma kept_trans l st1 st2 st3 : kept l st1 st2 -> kept l st2 st3 -> kept l st1 st3.
Proof. intros H1 H2 q Hq. rewrite H2 by done. by apply H1. Qed.

Lemma kept_perm l l' st st' : l ≡ₚ l' -> kept l st st' -> kept l' st st'.
Proof. intros Hp H q Hq. apply H. by rewrite Hp. Qed.

Lemma ids_elems t t' : elems t = elems t' -> ids t = ids t'.
Proof. intros H. by rewrite <- !elems_ids, H. Qed.

(** Steps at the focus that also say what they keep. *)
Lemma recolour st rp ctx d c a p k b c' :
  good st rp ctx (mk d c a p k b) -> exists st',
  wr p (set_red c') st = Some st' /\ good st' rp ctx (mk d c' a p k b) /\ root st' = root st
  /\ kept (ids (plug ctx (mk d c a p k b))) st st'.
Proof.
  intros H. destruct (set_red_good _ _ _ _ _ _ _ _ _ _ c' H) as (st' & H1 & H2 & H3 & H4). exists st'. split_and!; auto.
  intros q Hq. apply H4. intros ->. apply Hq. rewrite ids_plug, ids_mk. set_solver.
Qed.

(** The loop stops below a black node. *)
Lemma insert_fixup_black fuel st rp d p k b ctx x :
  good st rp (F d false p k b :: ctx) x -> x <> E -> insert_fixup s (S fuel) (ptr x) st = Some st.
Proof.
  intros H Hx. cbn. rewrite (not_root _ _ _ _ _ H Hx). destruct (rd_focus _ _ _ _ H Hx) as (n & -> & _ & Hpn). bnd.
  rewrite Hpn. cbn [up f_ptr]. rewrite (rd_above _ _ _ _ _ _ _ _ _ H). bnd. by autorewrite with rb.
Qed.

(** The last step: the grandparent [g] is rotated away from the red pair. *)
Lemma insert_tail fuel st rp ctx d x u ku bi g kg b2 :
  good st rp (F d true u ku bi :: F d false g kg b2 :: ctx) x -> x <> E ->
  exists st',
    (n ← rd (ptr x) st;
     st ← wr (parent n) (set_red false) st;
     u ← rd (parent n) st;
     st ← wr (parent u) (set_red true) st;
     st ← rotate s (opp d) (parent u) st;
     insert_fixup s (S fuel) (ptr x) st) = Some st'
    /\ good st' rp ctx (mk (opp d) false (mk (opp d) true b2 g kg bi) u ku x)
    /\ kept (ids (plug ctx (mk d false (mk d true x u ku bi) g kg b2))) st st'.
Proof.
  intros H0 Hx. pose proof (go_up _ _ _ _ _ _ _ _ _ H0) as H.
  destruct (rd_focus _ _ _ _ H0 Hx) as (n & -> & _ & Hpn). bnd. rewrite Hpn. cbn [up f_ptr].
  destruct (recolour _ _ _ _ _ _ _ _ _ false H) as (st1 & -> & H1 & _ & K1). bnd.
  assert (Hu : rd u st1 = Some (mknode d ku (ptr x) (ptr bi) g false)).
  { apply go_down in H1. by apply rd_above in H1. }
  rewrite Hu. bnd. autorewrite with rb. apply go_up in H1.
  destruct (recolour _ _ _ _ _ _ _ _ _ true H1) as (st2 & -> & H2 & _ & K2). bnd.
  rewrite <- (mk_opp d true), <- (mk_opp d false bi u ku x) in H2.
  destruct (rotate_good _ _ _ _ _ _ _ _ _ _ _ _ _ _ H2) as (st3 & -> & H3 & K3). bnd.
  exists st3. split_and!; [|done|].
  - rewrite mk_opp in H3. apply go_down in H3. by eapply insert_fixup_black.
  - eapply kept_trans; [|eapply kept_trans].
    + eapply kept_perm; [|exact K1]. ids_perm.
    + eapply kept_perm; [|exact K2]. ids_perm.
    + eapply kept_perm; [|exact K3]. ids_perm.
Qed.

(** A red parent, a black uncle: one or two rotations end the loop. *)
Lemma insert_rotations fuel st rp ctx d d' xa px kx xb u ku bi g kg b2 h :
  good st rp (F d' true u ku bi :: F d false g kg b2 :: ctx) (mk d true xa px kx xb) ->
  rb (mk d true xa px kx xb) h -> rb bi h -> tred bi = false -> rb b2 h -> tred b2 = false -> cok ctx (S h) ->
  exists st' t',
    ('(p, st) ← (if (px =? child (opp d) (mknode d' ku px (ptr bi) g true))%nat
                 then st ← rotate s d u st; Some (u, st) else Some (px, st));
     n ← rd p st;
     st ← wr (parent n) (set_red false) st;
     u ← rd (parent n) st;
     st ← wr (parent u) (set_red true) st;
     st ← rotate s (opp d) (parent u) st;
     insert_fixup s (S fuel) p st) = Some st'
    /\ good st' rp ctx t' /\ rb t' (S h) /\ tred t' = false
    /\ elems t' = elems (mk d false (mk d' true (mk d true xa px kx xb) u ku bi) g kg b2)
    /\ kept (ids (plug (F d' true u ku bi :: F d false g kg b2 :: ctx) (mk d true xa px kx xb))) st st'.
Proof.
  intros H Hx Hbi Hbir Hb2 Hb2r Hc. pose proof (proj1 (rb_red _ _ _ _ _ _) Hx) as (Hxa & Hxb & Hxar & Hxbr).
  assert (Hd : d' = d \/ d' = opp d) by (destruct d, d'; auto). destruct Hd as [-> | ->].
  - rewrite child_opp_mknode. assert (Hne : (px =? ptr bi)%nat = false).
    { apply Nat.eqb_neq. apply not_eq_sym. rewrite <- (ptr_mk s d true xa px kx xb). eapply sibling_ptr; [done|]. by destruct d. }
    rewrite Hne. bnd. destruct (insert_tail fuel _ _ _ _ _ _ _ _ _ _ _ H) as (st' & H1 & H2 & H3); [by destruct d|].
    rewrite ptr_mk in H1. rewrite H1. eexists st', _. split_and!; [done|exact H2| |by rewrite tred_mk| |].
    + apply rb_black. exists h. split_and!; auto. by apply rb_red.
    + same_elems d.
    + eapply kept_perm; [|exact H3]. ids_perm.
  - rewrite mknode_opp, child_opp_mknode, Nat.eqb_refl.
    pose proof (go_up _ _ _ _ _ _ _ _ _ H) as H1. rewrite mk_opp in H1.
    destruct (rotate_good _ _ _ _ _ _ _ _ _ _ _ _ _ _ H1) as (st1 & -> & H2 & K1). bnd. apply go_down in H2.
    destruct (insert_tail fuel _ _ _ _ _ _ _ _ _ _ _ H2) as (st' & H3 & H4 & K2); [by destruct d|].
    rewrite ptr_mk in H3. rewrite H3. eexists st', _. split_and!; [done|exact H4| |by rewrite tred_mk| |].
    + apply rb_black. exists h. split_and!; auto; by apply rb_red.
    + same_elems d.
    + eapply kept_trans; (eapply kept_perm; [|done]); ids_perm.
Qed.

(** A red uncle: the colours move up by two levels. *)
Lemma insert_recolour st rp ctx d d' x u ku bi g kg ba w kw bb :
  good st rp (F d' true u ku bi :: F d false g kg (mk d true ba w kw bb) :: ctx) x ->
  exists st',
    (forall K : state -> option state,
       (st ← wr u (set_red false) st; st ← wr w (set_red false) st; st ← wr g (set_red true) st; K st) = K st')
    /\ good st' rp ctx (mk d true (mk d' false x u ku bi) g kg (mk d false ba w kw bb))
    /\ kept (ids (plug (F d' true u ku bi :: F d false g kg (mk d true ba w kw bb) :: ctx) x)) st st'.
Proof.
  intros H. apply go_up in H. destruct (recolour _ _ _ _ _ _ _ _ _ false H) as (st1 & -> & H1 & _ & K1). bnd.
  apply go_across in H1. destruct (recolour _ _ _ _ _ _ _ _ _ false H1) as (st2 & -> & H2 & _ & K2). bnd.
  apply go_across in H2. rewrite opp_opp in H2. apply go_up in H2.
  destruct (recolour _ _ _ _ _ _ _ _ _ true H2) as (st3 & -> & H3 & _ & K3).
  exists st3. split_and!; [done|done|].
  eapply kept_trans; [|eapply kept_trans]; (eapply kept_perm; [|done]); ids_perm.
Qed.

Lemma insert_fixup_ok fuel : forall st rp ctx x h,
  (length ctx < fuel)%nat -> good st rp ctx x -> tred x = true -> rb x h -> cok ctx h ->
  exists st' t' h', insert_fixup s fuel (ptr x) st = Some st'
    /\ good st' rp [] t' /\ rb t' h' /\ elems t' = elems (plug ctx x) /\ kept (ids (plug ctx x)) st st'.
Proof.
  induction fuel as [|fuel IH]; intros st rp ctx x h Hf H Hxr Hx Hc; [lia|].
  assert (HxE : x <> E) by (by intros ->).
  destruct ctx as [|[d' c u ku bi] ctx].
  { cbn. pose proof (g_ctx _ _ _ _ _ H) as Hr. cbn in Hr. rewrite <- Hr, Nat.eqb_refl. exists st, x, h. by split_and!. }
  destruct c; [|].
  2:{ rewrite (insert_fixup_black _ _ _ _ _ _ _ _ _ H HxE).
      destruct (rb_plug (F d' false u ku bi :: ctx) x h) as (h' & Hh'); [done|done|done|].
      exists st, (plug (F d' false u ku bi :: ctx) x), h'. split_and!; try done. by apply (go_root _ _ (_ :: _)). }
  destruct Hc as (Hbi & Hbir & Ha & Hc). destruct ctx as [|[d [|] g kg b2] ctx]; [done|done|]. destruct Hc as (Hb2 & Hc).
  pose proof (go_up _ _ _ _ _ _ _ _ _ H) as H1.
  cbn. rewrite (not_root _ _ _ _ _ H HxE). destruct (rd_focus _ _ _ _ H HxE) as (n & -> & _ & Hpn). bnd.
  rewrite Hpn. cbn [up f_ptr]. rewrite (rd_above _ _ _ _ _ _ _ _ _ H). bnd. autorewrite with rb. cbn [negb up f_ptr].
  pose proof (rd_above _ _ _ _ _ _ _ _ _ H1) as Hg. rewrite ptr_mk in Hg. rewrite Hg. bnd.
  rewrite side_of.
  2:{ rewrite <- (ptr_mk s d' true x u ku bi). eapply sibling_ptr; [done|]. by destruct d'. }
  rewrite child_opp_mknode. pose proof (go_across _ _ _ _ _ _ _ _ _ H1) as H2.
  destruct (rd_any _ _ _ _ H2) as (tn & -> & Htn). bnd. rewrite Htn. clear tn Htn. destruct (tree_mk d x) as [->|(cx & xa & px & kx & xb & ->)]; [done|].
  rewrite tred_mk in Hxr. subst cx. rewrite !ptr_mk in *.
  destruct (tred b2) eqn:Hb2r.
  - destruct (tree_mk d b2) as [->|(cb & ba & w & kw & bb & ->)]; [done|]. rewrite tred_mk in Hb2r. subst cb. rewrite ptr_mk.
    apply rb_red in Hb2 as (Hba & Hbb & _).
    destruct (insert_recolour _ _ _ _ _ _ _ _ _ _ _ _ _ _ _ H) as (st1 & Hst & H3 & K1).
    destruct (IH st1 rp ctx _ (S h) ltac:(cbn in Hf; lia) H3) as (st' & t' & h' & E1 & G & B & El & K2).
    + by rewrite tred_mk.
    + apply rb_red. split_and!; try by rewrite tred_mk. all: apply rb_black; eauto.
    + done.
    + rewrite ptr_mk in E1. exists st', t', h'. split_and!; try done.
      * by rewrite Hst.
      * rewrite El. cbn [plug fill]. apply elems_plug. apply elems_mk; by apply elems_mk.
      * eapply kept_trans; [done|]. eapply kept_perm; [|done]. ids_perm.
  - destruct fuel as [|fuel]; [cbn in Hf; lia|].
    destruct (insert_rotations fuel _ _ _ _ _ _ _ _ _ _ _ _ _ _ _ _ H Hx) as (st' & t' & E1 & G & B & Br & El & K); try done.
    destruct (rb_plug ctx t' (S h)) as (h' & Hh'); [done|done|by rewrite Br|].
    exists st', (plug ctx t'), h'. split_and!; try done.
    + by apply go_root.
    + cbn [plug fill]. by apply elems_plug.
Qed.

(** ** The search *)

Fixpoint insert_list (less : nat * Z -> nat * Z -> bool) (e : nat * Z) (l : list (nat * Z)) : list (nat * Z) :=
  match l with
  | [] => [e]
  | x :: l => if less e x then e :: x :: l else x :: insert_list less e l
  end.

Lemma insert_list_app less e l x l' :
  insert_list less e (l ++ x :: l') =
    if existsb (fun y => less e y) l || less e x
    then if existsb (fun y => less e y) l then insert_list less e l ++ x :: l' else l ++ e :: x :: l'
    else l ++ x :: insert_list less e l'.
Proof.
  induction l as [|y l IH]; cbn; [by destruct (less _ _)|]. destruct (less e y); [done|]. rewrite IH. cbn.
  destruct (existsb _ l); [done|]. by destruct (less _ x).
Qed.

Lemma insert_list_end less e l :
  existsb (fun y => less e y) l = false -> insert_list less e l = l ++ [e].
Proof.
  induction l as [|y l IH]; cbn; [done|]. intros [H1 H2]%orb_false_iff. rewrite H1. by rewrite IH.
Qed.

(** The order of the tree: [f] ranks the nodes, and [less] compares ranks. *)
Definition ranks (less : nat * Z -> nat * Z -> bool) (f : nat * Z -> Z) (ks : list (nat * Z)) : Prop :=
  forall a b, a ∈ ks -> b ∈ ks -> less a b = (f a <? f b).

Definition ordered (f : nat * Z -> Z) (l : list (nat * Z)) : Prop := StronglySorted (fun a b : nat * Z => f a <= f b) l.

(** In an ordered list what precedes an element not above [e] is not above it either. *)
Lemma ordered_below less f (e x : nat * Z) (l l' : list (nat * Z)) :
  ordered f (l ++ x :: l') -> ranks less f (e :: l ++ x :: l') -> less e x = false ->
  existsb (fun y => less e y) l = false.
Proof.
  intros Ho Hr Hx. apply not_true_iff_false. intros (y & Hy & Hlt)%existsb_exists. apply list_elem_of_In in Hy.
  rewrite Hr in Hx by set_solver.
  rewrite Hr in Hlt by set_solver. apply StronglySorted_app in Ho as (Hyx & _ & _). specialize (Hyx y x Hy ltac:(by left)). lia.
Qed.

(** One step of the search: the element goes into the child that the comparison chooses. *)
Lemma elems_insert_child less f e d c a a' p k b :
  ordered f (elems (mk d c a p k b)) -> ranks less f (e :: elems (mk d c a p k b)) ->
  d = (if less e (p, k) then L else R) -> elems a' = insert_list less e (elems a) ->
  elems (mk d c a' p k b) = insert_list less e (elems (mk d c a p k b)).
Proof.
  intros Ho Hr Hd Ha. destruct (less e (p, k)) eqn:Hl; subst d; cbn in *; rewrite insert_list_app; cbn; rewrite Hl, Ha.
  - rewrite orb_true_r. destruct (existsb _ _) eqn:He; [done|]. rewrite insert_list_end by done. by rewrite <- app_assoc.
  - pose proof (ordered_below less f e (p, k) _ _ Ho Hr Hl) as He. by rewrite He.
Qed.

Lemma ordered_child f d c a p k b : ordered f (elems (mk d c a p k b)) -> ordered f (elems a).
Proof.
  unfold ordered. destruct d; cbn; rewrite StronglySorted_app; intros (_ & H1 & H2); [done|]. by apply StronglySorted_cons in H2 as [_ ?].
Qed.

Lemma elems_child d c a p k b x : x ∈ elems a -> x ∈ elems (mk d c a p k b).
Proof. destruct d; cbn; set_solver. Qed.

Lemma ranks_child less f e d c a p k b :
  ranks less f (e :: elems (mk d c a p k b)) -> ranks less f (e :: elems a).
Proof.
  intros H x y Hx Hy.
  assert (Hin : forall z, z ∈ e :: elems a -> z ∈ e :: elems (mk d c a p k b)); [|by apply H; apply Hin].
  intros z [-> | Hz]%elem_of_cons; [by left|right]. by apply elems_child.
Qed.

Lemma plug_app c1 c2 t : plug (c1 ++ c2) t = plug c2 (plug c1 t).
Proof. revert t. induction c1 as [|f c1 IH]; intros t; cbn; [done|]. apply IH. Qed.

Lemma ptr_sentinel st rp ctx t : good st rp ctx t -> (ptr t =? s)%nat = true -> t = E.
Proof.
  intros H He%Nat.eqb_eq. destruct t as [|c l p k r]; [done|]. destruct (good_disjoint _ _ _ _ _ H) as (_ & _ & _ & Hs & _).
  cbn in *. set_solver.
Qed.

Lemma insert_search_ok less f e fuel : forall st rp ctx t,
  (height t <= fuel)%nat -> good st rp ctx t -> t <> E ->
  ordered f (elems t) -> ranks less f (e :: elems t) ->
  exists d c q kq b inner, insert_search s less fuel e (ptr t) st = Some (q, d)
    /\ plug (F d c q kq b :: inner) E = t
    /\ elems (plug (F d c q kq b :: inner) (T true E (fst e) (snd e) E)) = insert_list less e (elems t).
Proof.
  induction fuel as [|fuel IH]; intros st rp ctx t Hf H Ht Ho Hr.
  { destruct t; [done|]. cbn in Hf. lia. }
  assert (exists d c a p k b, t = mk d c a p k b /\ d = if less e (p, k) then L else R)
    as (d & c & a & p & k & b & -> & Hd).
  { destruct t as [|c l p k r]; [done|]. destruct (less e (p, k)) eqn:Hl; [exists L, c, l, p, k, r|exists R, c, r, p, k, l]; by rewrite Hl. }
  apply go_down in H. pose proof (rd_above _ _ _ _ _ _ _ _ _ H) as Hp. rewrite ptr_mk.
  cbn [insert_search]. rewrite Hp. bnd. rewrite key_mknode, <- Hd, child_mknode.
  destruct (ptr a =? s)%nat eqn:Ha.
  - apply (ptr_sentinel _ _ _ _ H) in Ha as ->. exists d, c, p, k, b, []. split_and!; [done|done|].
    cbn [plug fill]. eapply elems_insert_child; try done. by destruct e.
  - assert (HaE : a <> E) by (intros ->; cbn in Ha; by rewrite Nat.eqb_refl in Ha).
    rewrite height_mk in Hf.
    destruct (IH st rp _ a ltac:(lia) H HaE) as (d' & c' & q & kq & b' & inner & E1 & E2 & E3).
    { by eapply ordered_child. }
    { by eapply ranks_child. }
    exists d', c', q, kq, b', (inner ++ [F d c p k b]). rewrite app_comm_cons, !plug_app, E2. cbn [plug fill].
    split_and!; [done|done|]. by eapply elems_insert_child.
Qed.

(** ** Insertion *)

(** A new leaf below the node found. *)
Lemma attach_good st rp d c q kq b ctx p n :
  good st rp (F d c q kq b :: ctx) E -> mem st !! p = Some n -> p ∉ ids (plug (F d c q kq b :: ctx) E) -> p <> s ->
  exists st',
    (st ← wr q (set_child d p) st; wr p (fun n => Node (key n) s s q true) st) = Some st'
    /\ good st' rp (F d c q kq b :: ctx) (T true E p (key n) E)
    /\ kept (p :: ids (plug (F d c q kq b :: ctx) E)) st st'.
Proof.
  intros H Hp Hni Hps. pose proof (good_disjoint _ _ _ _ _ H) as (_ & Hn & _ & _ & Hs).
  rewrite ids_plug in Hni. cbn [cids ids app] in *. apply list.NoDup_cons in Hn as [Hq Hn].
  apply list.NoDup_app in Hn as (_ & Hbc & _).
  destruct H as [H1 (H2 & Hb & Hc) H3 H4 H5]. rewrite (wr_lookup _ _ _ _ H2). bnd. autorewrite with rb.
  rewrite (wr_lookup p _ _ n) by (cbn; rewrite lookup_insert_ne; [done|set_solver]).
  eexists. split; [done|].
  assert (Hout : forall x, x <> p -> x <> q ->
    <[p:=Node (key n) s s q true]> (<[q:=mknode d kq p (ptr b) (up rp ctx) c]> (mem st)) !! x = mem st !! x).
  { intros x Hxp Hxq. by rewrite !lookup_insert_ne. }
  split.
  - constructor; cbn [mem root].
    + cbn. by rewrite lookup_insert_eq.
    + cbn. rewrite lookup_insert_ne by set_solver. rewrite lookup_insert_eq. split_and!; [done| |].
      * eapply rep_frame; [|done]. intros x Hx. apply Hout; set_solver.
      * eapply repc_frame; [|done]. intros x Hx. apply Hout; set_solver.
    + rewrite ids_plug in *. cbn in *. apply list.NoDup_cons. set_solver.
    + rewrite ids_plug in *. cbn in *. set_solver.
    + rewrite Hout; [done|set_solver|set_solver].
  - intros x Hx. rewrite ids_plug in Hx. cbn in *. apply Hout; set_solver.
Qed.

(** A tree has fewer nodes than the memory. *)
Lemma good_size st rp ctx t : good st rp ctx t -> (length (ids (plug ctx t)) < size (mem st))%nat.
Proof.
  intros H. apply go_root in H. destruct H as [H1 H2 H3 H4 (sn & H5 & _)]. cbn [plug] in *.
  assert (Hsub : list_to_set (s :: ids (plug ctx t)) ⊆ dom (mem st)).
  { intros p Hp. apply elem_of_dom. apply elem_of_list_to_set, elem_of_cons in Hp as [-> | Hp]; [by eexists|].
    clear -H1 Hp. revert H1 Hp. generalize (up rp []). generalize (plug ctx t). clear.
    induction t as [|c l IHl q k r IHr]; intros u; cbn; [set_solver|]. intros (H1 & H2 & H3) Hp.
    apply elem_of_app in Hp as [Hp | [-> | Hp]%elem_of_cons]; [by eapply IHl|by eexists|by eapply IHr]. }
  apply subseteq_size in Hsub. rewrite size_dom, size_list_to_set in Hsub; [|by apply list.NoDup_cons]. cbn in Hsub. lia.
Qed.

End Insert.

(** The tree in memory holds the nodes and keys [l], in this order, and is balanced. *)
Definition is_tree (s : nat) (st : state) (l : list (nat * Z)) : Prop :=
  exists rp t h, good s st rp [] t /\ rb t h /\ tred t = false /\ elems t = l.

Section InsertTheorem.
Context (s : nat) (less : nat * Z -> nat * Z -> bool) (f : nat * Z -> Z).

(** The root is made black. *)
Lemma blacken st rp t h : good s st rp [] t -> rb t h -> t <> E -> exists st' t' h',
  wr (root st) (set_red false) st = Some st' /\ good s st' rp [] t' /\ rb t' h' /\ tred t' = false
  /\ elems t' = elems t /\ kept (ids t) st st'.
Proof.
  intros H Hb Ht. destruct t as [|c l p k r]; [done|].
  destruct (recolour s st rp [] L c l p k r false H) as (st' & E1 & G & _ & K).
  pose proof (g_ctx _ _ _ _ _ H) as Hr. cbn in Hr. rewrite Hr, E1.
  assert (Hb' : exists h', rb (T false l p k r) h').
  { destruct c; [|by exists h]. exists (S h), h. by destruct Hb as (? & ? & _). }
  destruct Hb' as (h' & Hb'). by exists st', (T false l p k r), h'.
Qed.

(** The whole of ngx_rbtree_insert. *)
Lemma insert_ok st l p n :
  is_tree s st l -> mem st !! p = Some n -> p ∉ map fst l -> p <> s ->
  ordered f l -> ranks less f ((p, key n) :: l) ->
  exists st', ngx_rbtree_insert s less p st = Some st' /\ is_tree s st' (insert_list less (p, key n) l)
    /\ kept (p :: map fst l) st st'.
Proof.
  intros (rp & t & h & H & Hb & Htb & <-) Hp Hni Hps Ho Hr. rewrite elems_ids in Hni. rewrite elems_ids.
  unfold ngx_rbtree_insert. pose proof (g_ctx _ _ _ _ _ H) as Hroot. cbn in Hroot. rewrite Hroot.
  destruct (ptr s t =? s)%nat eqn:Ht.
  - apply (ptr_sentinel _ _ _ _ _ H) in Ht as ->. rewrite (wr_lookup _ _ _ _ Hp). bnd. eexists. split; [done|]. split.
    + exists 0%nat, (T false E p (key n) E), 1%nat. split_and!; [|by exists 0%nat|done|done].
      destruct (g_black _ _ _ _ _ H) as (sn & Hs & Hsb). constructor; cbn; rewrite ?lookup_insert_eq; auto.
      * apply NoDup_singleton.
      * set_solver.
      * exists sn. rewrite lookup_insert_ne; auto.
    + intros q Hq. cbn. rewrite lookup_insert_ne; [done|]. set_solver.
  - assert (HtE : t <> E) by (intros ->; cbn in Ht; by rewrite Nat.eqb_refl in Ht).
    unfold insert_value, rd. rewrite Hp. bnd.
    destruct (insert_search_ok s less f (p, key n) (size (mem st)) st rp [] t) as (d & c & q & kq & b & inner & E1 & E2 & E3);
      [pose proof (good_size _ _ _ _ _ H) as Hz; pose proof (height_ids t); cbn in Hz; lia|done|done|done|done|].
    cbn [fst snd] in *. rewrite E1. bnd.
    assert (H1 : good s st rp (F d c q kq b :: inner) E) by (apply good_plug; by rewrite E2).
    destruct (attach_good _ _ _ _ _ _ _ _ _ _ _ H1 Hp) as (st1 & E4 & G1 & K1); [by rewrite E2|done|].
    rewrite E4. bnd.
    destruct (rb_unplug (F d c q kq b :: inner) E h) as (m & Hc & Hm & _); [by rewrite E2|by rewrite E2|]. cbn in Hm. subst m.
    assert (Hlen : (length (F d c q kq b :: inner) <= length (ids t))%nat).
    { rewrite <- E2, ids_plug. cbn [ids app]. generalize (F d c q kq b :: inner). clear.
      induction l as [|[d c p k b] l IH]; cbn; [lia|]. rewrite length_app. lia. }
    pose proof (good_size _ _ _ _ _ G1) as Hz. pose proof (ids_plug (F d c q kq b :: inner) (T true E p (key n) E)) as Hi.
    apply Permutation_length in Hi. rewrite <- E2, ids_plug in Hlen. cbn [ids app length] in Hi, Hlen.
    destruct (insert_fixup_ok s (S (size (mem st1))) st1 rp (F d c q kq b :: inner) _ 0%nat ltac:(cbn [length] in *; lia) G1) as
      (st2 & t2 & h2 & E5 & G2 & B2 & El2 & K2); [done|by cbn|done|].
    cbn [RbTreeShape.ptr] in E5. rewrite E5. bnd.
    destruct (blacken _ _ _ _ G2 B2) as (st3 & t3 & h3 & E6 & G3 & B3 & C3 & El3 & K3).
    { intros ->. cbn [elems] in El2. rewrite E3 in El2. by destruct (elems t) as [|x ?]; cbn in El2; [|destruct (less _ _)]. }
    exists st3. split_and!; [done|exists rp, t3, h3; split_and!; try done; congruence|].
    assert (P : ids (plug (F d c q kq b :: inner) (T true E p (key n) E)) ≡ₚ p :: ids t).
    { rewrite <- E2. by rewrite !ids_plug. }
    eapply kept_trans; [|eapply kept_trans].
    + by rewrite E2 in K1.
    + eapply kept_perm; [|exact K2]. done.
    + eapply kept_perm; [|exact K3]. by rewrite (ids_elems _ _ El2).
Qed.

End InsertTheorem.
