(* ===== verification/RbTreeDelete.v ===== *)
(** * Red-black trees: deletion *)

From stdpp Require Import sorting.
From S2P Require Import Prelude RbTree RbTreeShape RbTreeInsert.

Definition blackened (t : tree) : tree := match t with E => E | T _ l p k r => T false l p k r end.

(** A subtree with one black node too few, whose root may still be made black. *)
Definition short (t : tree) (n : nat) : Prop := if tred t then rb (blackened t) (S n) else rb t n.

Lemma blackened_mk d c a p k b : blackened (mk d c a p k b) = mk d false a p k b.
Proof. by destruct d. Qed.

Section Delete.
Context (s : nat).

Notation ptr := (ptr s).
Notation good := (good s).

(** The focus knows its parent, even when it is the sentinel. *)
Definition knows (st : state) (rp : nat) (ctx : list frame) (x : tree) : Prop :=
  exists n, rd (ptr x) st = Some n /\ red n = tred x /\ parent n = up rp ctx.

Lemma knows_kept st st' rp ctx ctx' x :
  good st' rp ctx' x -> kept (ids (plug ctx x)) st st' -> s ∉ ids (plug ctx x) -> up rp ctx = up rp ctx' ->
  knows st rp ctx x -> knows st' rp ctx' x.
Proof.
  intros H K Hs Hu Hk. destruct x as [|c l p k r]; [|by apply rd_focus in H].
  destruct Hk as (n & Hn & Hr & Hp). exists n. split_and!; [|done|congruence]. cbn in *. unfold rd in *. rewrite K; [done|].
  by cbn in Hs.
Qed.

Lemma root_ne st rp f ctx x : good st rp (f :: ctx) x -> (ptr x =? root st)%nat = false.
Proof.
  intros H. destruct x as [|c l p k r]; [|by eapply not_root]. apply Nat.eqb_neq. cbn. intros Hr.
  destruct (good_disjoint _ _ _ _ _ H) as (_ & _ & _ & _ & Hs). apply Hs. rewrite Hr.
  eapply repc_root, (g_ctx _ _ _ _ _ H).
Qed.

Lemma sibling_ok st rp d c u ku b ctx x :
  good st rp (F d c u ku b :: ctx) x -> knows st rp (F d c u ku b :: ctx) x -> sibling d (ptr x) st = Some (ptr b).
Proof.
  intros H (n & Hn & _ & Hp). unfold sibling. rewrite Hn. bnd. rewrite Hp. cbn [up f_ptr].
  rewrite (rd_above _ _ _ _ _ _ _ _ _ _ H). bnd. by autorewrite with rb.
Qed.

Ltac recolour_at H st H' K := edestruct recolour as (st & -> & H' & _ & K); [exact H|]; bnd.
Ltac rotate_at H st H' K := edestruct rotate_good as (st & -> & H' & K); [exact H|]; bnd.
Ltac kept_all := repeat first [eapply kept_perm; [|eassumption]; ids_perm | eapply kept_trans].

(** A red sibling: it becomes the grandparent, and the new sibling is black. *)
Lemma red_sibling st rp ctx d x u ku bn w kw bf :
  good st rp (F d false u ku (mk d true bn w kw bf) :: ctx) x -> exists st',
    (forall A (K : state -> option A),
       (st ← wr w (set_red false) st; st ← wr u (set_red true) st; st ← rotate s d u st; K st) = K st')
    /\ good st' rp (F d true u ku bn :: F d false w kw bf :: ctx) x
    /\ kept (ids (plug (F d false u ku (mk d true bn w kw bf) :: ctx) x)) st st'.
Proof.
  intros H. apply go_across in H. recolour_at H st1 H1 K1. apply go_across in H1. rewrite opp_opp in H1.
  apply go_up in H1. recolour_at H1 st2 H2 K2.
  rotate_at H2 st3 H3 K3.
  exists st3. split_and!; [done|by do 2 apply go_down|]. kept_all.
Qed.

(** A red nephew on the near side: it becomes the sibling. *)
Lemma red_near st rp ctx d c x u ku n1 q kq n2 w kw bf :
  good st rp (F d c u ku (mk d false (mk d true n1 q kq n2) w kw bf) :: ctx) x -> exists st',
    (forall A (K : state -> option A),
       (st ← wr q (set_red false) st; st ← wr w (set_red true) st; st ← rotate s (opp d) w st; K st) = K st')
    /\ good st' rp (F d c u ku (mk d false n1 q kq (mk d true n2 w kw bf)) :: ctx) x
    /\ kept (ids (plug (F d c u ku (mk d false (mk d true n1 q kq n2) w kw bf) :: ctx) x)) st st'.
Proof.
  intros H. apply go_across, go_down in H. recolour_at H st1 H1 K1. apply go_up in H1. recolour_at H1 st2 H2 K2.
  rewrite <- (mk_opp d true), <- (mk_opp d false n2) in H2.
  rotate_at H2 st3 H3 K3.
  apply go_across in H3. rewrite opp_opp, !mk_opp in H3. exists st3. split_and!; [done|done|]. kept_all.
Qed.

(** A red nephew on the far side: the last rotation. *)
Lemma red_far st rp ctx d c x u ku n1 w kw f1 v kv f2 :
  good st rp (F d c u ku (mk d false n1 w kw (mk d true f1 v kv f2)) :: ctx) x -> exists st',
    (forall A (K : state -> option A),
       (st ← wr w (set_red c) st; st ← wr u (set_red false) st; wn ← rd w st;
        st ← wr (child (opp d) wn) (set_red false) st; st ← rotate s d u st; K st) = K st')
    /\ good st' rp ctx (mk d c (mk d false x u ku n1) w kw (mk d false f1 v kv f2))
    /\ kept (ids (plug (F d c u ku (mk d false n1 w kw (mk d true f1 v kv f2)) :: ctx) x)) st st'.
Proof.
  intros H. apply go_across in H. recolour_at H st1 H1 K1. apply go_across in H1. rewrite opp_opp in H1.
  apply go_up in H1. recolour_at H1 st2 H2 K2. apply go_down, go_across, go_down in H2.
  rewrite (rd_above _ _ _ _ _ _ _ _ _ _ H2). bnd. rewrite child_opp_mknode, ptr_mk. apply go_across in H2.
  recolour_at H2 st3 H3 K3. apply go_across in H3. rewrite opp_opp in H3. apply go_up, go_across in H3. rewrite opp_opp in H3.
  apply go_up in H3. rotate_at H3 st4 H4 K4.
  exists st4. split_and!; [done|done|]. kept_all.
Qed.

(** *** The end of the loop *)

Lemma elems_blackened x : elems (blackened x) = elems x.
Proof. by destruct x. Qed.

Lemma blacken_focus st rp ctx x : good st rp ctx x -> exists st',
  wr (ptr x) (set_red false) st = Some st' /\ good st' rp ctx (blackened x) /\ kept (s :: ids (plug ctx x)) st st'.
Proof.
  intros H. destruct x as [|c l p k r].
  - pose proof (good_disjoint _ _ _ _ _ H) as (_ & _ & _ & _ & Hs). destruct H as [H1 H2 H3 H4 (n & Hn & Hb)].
    cbn [RbTreeShape.ptr]. rewrite (wr_lookup _ _ _ _ Hn). eexists. split; [done|]. split.
    + constructor; cbn [mem root]; try done.
      * eapply repc_frame; [|done]. intros q Hq. rewrite lookup_insert_ne; [done|]. set_solver.
      * exists (set_red false n). rewrite lookup_insert_eq. split; [done|]. by destruct n.
    + intros q Hq. cbn. rewrite lookup_insert_ne; [done|]. set_solver.
  - destruct (recolour s st rp ctx L c l p k r false H) as (st' & E1 & G & _ & K). exists st'. split_and!; try done.
    intros q Hq. apply K. set_solver.
Qed.

(** What a deletion leaves. *)
Definition balanced (st st' : state) (rp : nat) (t : tree) : Prop :=
  exists t' h', good st' rp [] t' /\ rb t' h' /\ tred t' = false /\ elems t' = elems t /\ kept (s :: ids t) st st'.

Lemma delete_stop fuel st rp ctx x h :
  good st rp ctx x -> knows st rp ctx x -> short x h -> cok ctx (S h) -> (ctx = [] \/ tred x = true) -> exists st',
  ('(temp, st) ← delete_fixup s (S fuel) (ptr x) st; wr temp (set_red false) st) = Some st'
  /\ balanced st st' rp (plug ctx x).
Proof.
  intros H Hk Hsh Hc Hend. assert (Hst : delete_fixup s (S fuel) (ptr x) st = Some (ptr x, st)).
  { cbn. destruct Hend as [-> | Hr]; [pose proof (g_ctx _ _ _ _ _ H) as ->; by rewrite Nat.eqb_refl|].
    destruct (_ =? _)%nat; [done|]. destruct Hk as (n & -> & Hn & _). bnd. by rewrite Hn, Hr. }
  rewrite Hst. bnd. destruct (blacken_focus _ _ _ _ H) as (st' & -> & G & K). exists st'. split; [done|].
  assert (Hb : exists m, rb (plug ctx (blackened x)) m).
  { unfold short in Hsh. destruct (tred x) eqn:Hr.
    - eapply rb_plug; [done|done|]. by destruct x.
    - destruct Hend as [-> | ?]; [|done]. exists h. by destruct x as [|[|] ? ? ? ?]. }
  destruct Hb as (m & Hm). exists (plug ctx (blackened x)), m. split_and!; try done.
  - by apply go_root.
  - destruct ctx as [|f ctx]; [by destruct x|]. by eapply tred_plug.
  - apply elems_plug, elems_blackened.
Qed.

Lemma rb_short t m : rb t m -> short t m.
Proof. unfold short. destruct t as [|[|] l p k r]; cbn; [done| |done]. intros (? & ? & _). eauto. Qed.

Lemma knows_node st rp ctx x : good st rp ctx x -> x <> E -> knows st rp ctx x.
Proof. apply rd_focus. Qed.

Lemma balanced_trans st st1 st2 rp t t1 :
  kept (ids t) st st1 -> elems t1 = elems t -> balanced st1 st2 rp t1 -> balanced st st2 rp t.
Proof.
  intros K El (t' & h & ? & ? & ? & ? & K2). exists t', h. split_and!; try done; [congruence|].
  rewrite (ids_elems _ _ El) in K2. eapply kept_trans; [|done]. intros q Hq. apply K. set_solver.
Qed.

(** The far nephew is red. *)
Lemma delete_far fuel st rp ctx d c x u ku n1 w kw f1 v kv f2 h :
  good st rp (F d c u ku (mk d false n1 w kw (mk d true f1 v kv f2)) :: ctx) x ->
  knows st rp (F d c u ku (mk d false n1 w kw (mk d true f1 v kv f2)) :: ctx) x -> rb x h ->
  cok (F d c u ku (mk d false n1 w kw (mk d true f1 v kv f2)) :: ctx) (S h) ->
  exists st',
    ('(temp, st) ← (t ← rd (ptr x) st; u ← rd (parent t) st;
       st ← wr w (set_red (red u)) st; st ← wr (parent t) (set_red false) st; wn ← rd w st;
       st ← wr (child (opp d) wn) (set_red false) st; st ← rotate s d (parent t) st;
       delete_fixup s (S fuel) (root st) st);
     wr temp (set_red false) st) = Some st'
    /\ balanced st st' rp (plug (F d c u ku (mk d false n1 w kw (mk d true f1 v kv f2)) :: ctx) x).
Proof.
  intros H (n & Hn & _ & Hp) Hx Hc. rewrite Hn. bnd. rewrite Hp. cbn [up f_ptr].
  rewrite (rd_above _ _ _ _ _ _ _ _ _ _ H). bnd. rewrite red_mknode.
  destruct (red_far _ _ _ _ _ _ _ _ _ _ _ _ _ _ _ H) as (st1 & E1 & G & K). rewrite E1.
  assert (Hb : exists m, rb (plug ctx (mk d c (mk d false x u ku n1) w kw (mk d false f1 v kv f2))) m).
  { assert (Hb2 : exists m, S h = S m /\ rb n1 m /\ rb (mk d true f1 v kv f2) m) by (destruct c; exact (proj1 (rb_black d n1 w kw _ (S h)) (proj1 Hc))).
    destruct Hb2 as (m & [= <-] & Hn1 & (Hf1 & Hf2 & _ & _)%rb_red).
    assert (Hl : rb (mk d false x u ku n1) (S h)) by (apply rb_black; eauto).
    assert (Hr : rb (mk d false f1 v kv f2) (S h)) by (apply rb_black; eauto).
    destruct c; cbn in Hc.
    - destruct Hc as (_ & _ & Ha & Hc). eapply rb_plug; [|done|done]. apply rb_red. by rewrite !tred_mk.
    - destruct Hc as (_ & Hc). eapply rb_plug; [|done|by rewrite tred_mk]. apply rb_black. eauto. }
  destruct Hb as (m & Hm). apply go_root in G. pose proof (g_ctx _ _ _ _ _ G) as Hr. cbn in Hr. rewrite Hr.
  edestruct delete_stop as (st' & E2 & B); [exact G| |exact (rb_short _ _ Hm)|done|by left|].
  - apply knows_node; [done|]. intros HE. apply (f_equal ids) in HE. pose proof (ids_plug ctx (mk d c (mk d false x u ku n1) w kw (mk d false f1 v kv f2))) as Hi.
    rewrite HE in Hi. rewrite ids_mk in Hi. by apply Permutation_nil_cons in Hi.
  - exists st'. split; [done|]. eapply balanced_trans; [done| |done]. cbn [plug fill]. apply elems_plug. same_elems d.
Qed.

(** The first part of a round: after it the sibling is black. *)
Lemma delete_sibling st rp d c u ku b ctx x h :
  let ctx0 := F d c u ku b :: ctx in
  good st rp ctx0 x -> knows st rp ctx0 x -> cok ctx0 (S h) -> exists st1 c1 b1 ctx1,
    (wn ← rd (ptr b) st;
     if red wn then
       st ← wr (ptr b) (set_red false) st; st ← wr u (set_red true) st; st ← rotate s d u st;
       w ← sibling d (ptr x) st; Some (w, st)
     else Some (ptr b, st)) = Some (ptr b1, st1)
    /\ good st1 rp (F d c1 u ku b1 :: ctx1) x /\ knows st1 rp (F d c1 u ku b1 :: ctx1) x
    /\ cok (F d c1 u ku b1 :: ctx1) (S h) /\ tred b1 = false
    /\ elems (plug (F d c1 u ku b1 :: ctx1) x) = elems (plug ctx0 x) /\ kept (ids (plug ctx0 x)) st st1
    /\ (ctx1 = ctx \/ c1 = true).
Proof.
  intros ctx0 H Hk Hc. destruct (rd_any _ _ _ _ _ (go_across _ _ _ _ _ _ _ _ _ _ H)) as (wn & -> & Hw). bnd. rewrite Hw.
  destruct (tred b) eqn:Hb.
  2:{ exists st, c, b, ctx. split_and!; auto using kept_refl. }
  destruct (tree_mk d b) as [->|(cb & bn & w & kw & bf & ->)]; [done|]. rewrite tred_mk in Hb. subst cb.
  destruct c; [by cbn in Hc; rewrite tred_mk in Hc; destruct Hc as (_ & ? & _)|]. destruct Hc as (Hb & Hc).
  apply rb_red in Hb as (Hbn & Hbf & Hbnr & Hbfr). rewrite ptr_mk.
  destruct (red_sibling _ _ _ _ _ _ _ _ _ _ _ H) as (st1 & -> & G & K).
  assert (Hk1 : knows st1 rp (F d true u ku bn :: F d false w kw bf :: ctx) x).
  { eapply knows_kept; [exact G|exact K|apply (g_sent _ _ _ _ _ H)|done|done]. }
  rewrite (sibling_ok _ _ _ _ _ _ _ _ _ G Hk1). bnd. exists st1, true, bn, (F d false w kw bf :: ctx).
  split_and!; auto; [by cbn|]. unfold ctx0. cbn [plug fill]. apply elems_plug. same_elems d.
Qed.

(** The rest of a round when a nephew is red. *)
Lemma delete_nephew fuel st rp d c u ku bn w kw bf ctx x h :
  let ctx0 := F d c u ku (mk d false bn w kw bf) :: ctx in
  good st rp ctx0 x -> knows st rp ctx0 x -> cok ctx0 (S h) -> rb x h -> tred bn || tred bf = true -> exists st',
    ('(temp, st) ←
       ('(w, st) ← (if negb (tred bf) then
                      st ← wr (ptr bn) (set_red false) st; st ← wr w (set_red true) st;
                      st ← rotate s (opp d) w st; w ← sibling d (ptr x) st; Some (w, st)
                    else Some (w, st));
        t ← rd (ptr x) st; u ← rd (parent t) st;
        st ← wr w (set_red (red u)) st; st ← wr (parent t) (set_red false) st; wn ← rd w st;
        st ← wr (child (opp d) wn) (set_red false) st; st ← rotate s d (parent t) st;
        delete_fixup s (S fuel) (root st) st);
     wr temp (set_red false) st) = Some st'
    /\ balanced st st' rp (plug ctx0 x).
Proof.
  intros ctx0 H Hk Hc Hx Hr. destruct (tred bf) eqn:Hf; cbn [negb]; bnd.
  - destruct (tree_mk d bf) as [->|(cf & f1 & v & kv & f2 & ->)]; [done|]. rewrite tred_mk in Hf. subst cf.
    by apply (delete_far _ _ _ _ _ _ _ _ _ _ _ _ _ _ _ _ h).
  - rewrite orb_false_r in Hr. destruct (tree_mk d bn) as [->|(cn & n1 & q & kq & n2 & ->)]; [done|].
    rewrite tred_mk in Hr. subst cn. rewrite ptr_mk.
    destruct (red_near _ _ _ _ _ _ _ _ _ _ _ _ _ _ _ H) as (st1 & -> & G & K).
    assert (Hk1 : knows st1 rp (F d c u ku (mk d false n1 q kq (mk d true n2 w kw bf)) :: ctx) x).
    { eapply knows_kept; [exact G|exact K|apply (g_sent _ _ _ _ _ H)|done|done]. }
    rewrite (sibling_ok _ _ _ _ _ _ _ _ _ G Hk1). bnd. rewrite ptr_mk.
    edestruct delete_far as (st' & E1 & B); [exact G|exact Hk1|exact Hx| |].
    + assert (Hb : rb (mk d false (mk d true n1 q kq n2) w kw bf) (S h)) by (destruct c; apply Hc).
      assert (Hb' : rb (mk d false n1 q kq (mk d true n2 w kw bf)) (S h)).
      { apply rb_black in Hb as (m & [= <-] & (? & ? & ? & ?)%rb_red & ?). apply rb_black. exists h.
        split_and!; auto. by apply rb_red. }
      destruct c; cbn in *; [rewrite tred_mk|]; naive_solver.
    + rewrite E1. exists st'. split; [done|]. eapply balanced_trans; [exact K| |done].
      unfold ctx0. cbn [plug fill]. apply elems_plug. same_elems d.
Qed.

(** The loop: it ends, and the tree is balanced again. *)
Lemma delete_fixup_ok fuel : forall st rp ctx x h,
  (length ctx < fuel)%nat -> good st rp ctx x -> knows st rp ctx x -> short x h -> cok ctx (S h) -> exists st',
  ('(temp, st) ← delete_fixup s fuel (ptr x) st; wr temp (set_red false) st) = Some st'
  /\ balanced st st' rp (plug ctx x).
Proof.
  induction fuel as [|fuel IH]; intros st rp ctx x h Hf H Hk Hsh Hc; [lia|].
  destruct (decide (ctx = [] \/ tred x = true)) as [He|He]; [by eapply delete_stop|].
  apply Decidable.not_or in He as [Hne Hxb%not_true_is_false]. destruct ctx as [|[d c u ku b] ctx]; [done|].
  unfold short in Hsh. rewrite Hxb in Hsh.
  assert (HbE : b <> E) by (intros ->; destruct c, Hc; done).
  cbn [delete_fixup]. rewrite (root_ne _ _ _ _ _ H). pose proof Hk as (n & Hn & Hr & Hp). rewrite Hn. bnd.
  rewrite Hr, Hxb, Hp. cbn [up f_ptr]. rewrite (rd_above _ _ _ _ _ _ _ _ _ _ H). bnd.
  rewrite side_of by (apply not_eq_sym; eapply sibling_ptr; [by apply go_across|done]). rewrite child_opp_mknode.
  destruct (delete_sibling _ _ _ _ _ _ _ _ _ _ H Hk Hc) as (st1 & c1 & b1 & ctx1 & E1 & G & Hk1 & Hc1 & Hb1 & El & K & Hl).
  destruct (rd (ptr b) st) as [wn|]; [|done]. revert E1. bnd. intros E1. rewrite E1. bnd. clear E1 wn.
  destruct (tree_mk d b1) as [->|(cb & bn & w & kw & bf & ->)]; [by destruct c1, Hc1|]. rewrite tred_mk in Hb1. subst cb.
  pose proof (go_down _ _ _ _ _ _ _ _ _ _ (go_across _ _ _ _ _ _ _ _ _ _ G)) as Gn. rewrite ptr_mk.
  rewrite (rd_above _ _ _ _ _ _ _ _ _ _ Gn). bnd. rewrite child_mknode, child_opp_mknode.
  destruct (rd_any _ _ _ _ _ Gn) as (nn & -> & Hnn). bnd.
  destruct (rd_any _ _ _ _ _ (go_across _ _ _ _ _ _ _ _ _ _ Gn)) as (fn & -> & Hfn). bnd. rewrite Hnn, Hfn.
  destruct (negb (tred bn) && negb (tred bf)) eqn:Hboth.
  - apply andb_true_iff in Hboth as [Hbn%negb_true_iff Hbf%negb_true_iff].
    assert (Hb : rb (mk d false bn w kw bf) (S h)) by (destruct c1; apply Hc1).
    apply rb_black in Hb as (m & [= <-] & Hbn' & Hbf').
    assert (Hred : rb (mk d true bn w kw bf) h) by (by apply rb_red).
    destruct (recolour _ _ _ _ _ _ _ _ _ _ true (go_across _ _ _ _ _ _ _ _ _ _ G)) as (st2 & -> & G2 & _ & K2). bnd.
    apply go_across in G2. rewrite opp_opp in G2.
    assert (Hk2 : knows st2 rp (F d c1 u ku (mk d true bn w kw bf) :: ctx1) x).
    { eapply knows_kept; [exact G2| |apply (g_sent _ _ _ _ _ G)|done|done]. eapply kept_perm; [|exact K2]. ids_perm. }
    destruct Hk2 as (n2 & -> & _ & Hp2). bnd. rewrite Hp2. cbn [up f_ptr]. apply go_up in G2.
    assert (Hrec : exists st', ('(temp, st) ← delete_fixup s fuel (ptr (mk d c1 x u ku (mk d true bn w kw bf))) st2; wr temp (set_red false) st) = Some st'
              /\ balanced st2 st' rp (plug ctx1 (mk d c1 x u ku (mk d true bn w kw bf)))).
    { pose proof (knows_node _ _ _ _ G2 ltac:(by destruct d)) as Hk2.
      destruct c1.
      - destruct Hc1 as (_ & _ & _ & Hc1). destruct fuel as [|fuel]; [cbn in Hf; lia|].
        apply (delete_stop _ _ _ _ _ h); try done; [|by right; rewrite tred_mk].
        unfold short. rewrite tred_mk, blackened_mk. apply rb_black. eauto.
      - destruct Hl as [-> | ?]; [|done]. destruct Hc1 as (_ & Hc1).
        apply (IH _ _ _ _ (S h)); try done; [cbn in Hf; lia|].
        unfold short. rewrite tred_mk. apply rb_black. eauto. }
    destruct Hrec as (st' & E2 & B). rewrite ptr_mk in E2. exists st'. split; [done|].
    eapply balanced_trans; [exact K|exact El|]. eapply balanced_trans; [| |exact B].
    + eapply kept_perm; [|exact K2]. ids_perm.
    + cbn [plug fill]. apply elems_plug. same_elems d.
  - destruct fuel as [|fuel]; [cbn in Hf; lia|].
    destruct (delete_nephew fuel _ _ _ _ _ _ _ _ _ _ _ _ _ G Hk1 Hc1 Hsh) as (st' & E2 & B).
    { by destruct (tred bn), (tred bf). }
    rewrite E2. exists st'. split; [done|]. by eapply balanced_trans.
Qed.

(** *** Taking a node out *)

(** What a tree needs of memory. *)
Lemma good_same st st' rp ctx x :
  good st rp ctx x -> root st' = root st -> (forall q, q ∈ s :: ids (plug ctx x) -> mem st' !! q = mem st !! q) ->
  good st' rp ctx x.
Proof.
  intros [H1 H2 H3 H4 H5] Hr Hm. assert (Hi := ids_plug ctx x). constructor; try done.
  - eapply rep_frame; [|done]. intros q Hq. apply Hm. right. rewrite Hi. set_solver.
  - rewrite Hr. eapply repc_frame; [|done]. intros q Hq. apply Hm. right. rewrite Hi. set_solver.
  - rewrite Hm; [done|by left].
Qed.

Lemma clear_good st rp ctx x p n :
  good st rp ctx x -> p <> s -> p ∉ ids (plug ctx x) -> mem st !! p = Some n -> exists st',
  clear_node p st = Some st' /\ good st' rp ctx x /\ (knows st rp ctx x -> knows st' rp ctx x) /\ kept [p] st st'.
Proof.
  intros H Hps Hp Hn. unfold clear_node. rewrite (wr_lookup _ _ _ _ Hn). eexists. split; [done|].
  assert (Hm : forall q, q <> p -> <[p:=Node 0 0 0 0 (red n)]> (mem st) !! q = mem st !! q).
  { intros q Hq. by rewrite lookup_insert_ne. }
  assert (G : good (MkState (<[p:=Node 0 0 0 0 (red n)]> (mem st)) (root st)) rp ctx x).
  { eapply good_same; [done|done|]. intros q Hq. apply Hm. set_solver. }
  split_and!; [done| |intros q Hq; apply Hm; set_solver]. intros Hk.
  destruct x as [|c l q k r]; [|by apply knows_node].
  destruct Hk as (m & Hm' & ? & ?). exists m. split_and!; try done. cbn in *. unfold rd in *. cbn. by rewrite Hm.
Qed.

(** temp->parent = v, whether or not [temp] is the sentinel. *)
Lemma set_parent_any st u v x :
  rep s (mem st) u x -> NoDup (ids x) -> s ∉ ids x -> (exists n, mem st !! s = Some n /\ red n = false) -> exists st',
  wr (ptr x) (set_parent v) st = Some st' /\ rep s (mem st') v x /\ root st' = root st
  /\ (exists n, rd (ptr x) st' = Some n /\ red n = tred x /\ parent n = v)
  /\ (exists n, mem st' !! s = Some n /\ red n = false) /\ kept (s :: ids x) st st'.
Proof.
  intros H Hn Hs (sn & Hsn & Hsb). destruct x as [|c l p k r].
  - cbn [RbTreeShape.ptr]. rewrite (wr_lookup _ _ _ _ Hsn). eexists. split; [done|]. unfold rd. cbn [mem root].
    rewrite lookup_insert_eq. split_and!; try done; [by destruct sn; eexists|by destruct sn; eexists|].
    intros q Hq. cbn. rewrite lookup_insert_ne; [done|]. set_solver.
  - pose proof (proj1 H) as Hp. cbn [RbTreeShape.ptr]. rewrite (wr_lookup _ _ _ _ Hp). eexists. split; [done|]. unfold rd. cbn [mem root].
    rewrite lookup_insert_eq. split_and!; try done; [|by eexists| |].
    + by apply (rep_reparent _ _ u _ (T c l p k r)).
    + exists sn. rewrite lookup_insert_ne; [done|]. cbn in Hs. set_solver.
    + intros q Hq. cbn. rewrite lookup_insert_ne; [done|]. cbn in Hq. set_solver.
Qed.

(** The node above [q] takes the only child of [q]. *)
Lemma unlink_good st rp f ctx d c x q kq :
  good st rp (f :: ctx) (mk d c x q kq E) -> exists st',
  (u ← rd (f_ptr f) st;
   if (q =? left u)%nat then wr (f_ptr f) (set_child L (ptr x)) st else wr (f_ptr f) (set_child R (ptr x)) st) = Some st'
  /\ repc s (mem st') (root st') rp (ptr x) (f :: ctx) /\ kept (cids (f :: ctx)) st st'.
Proof.
  intros H. pose proof (good_disjoint _ _ _ _ _ H) as (_ & Hc & Hd & Hs & _).
  pose proof (not_root _ _ _ _ _ _ H ltac:(by destruct d)) as Hr. rewrite ptr_mk in Hr.
  destruct (replace_child_good s L st rp (f :: ctx) q (ptr x)) as (st' & E1 & R & K); try done.
  - pose proof (g_ctx _ _ _ _ _ H) as Hx. by rewrite ptr_mk in Hx.
  - apply Hd. rewrite ids_mk. set_solver.
  - intros ->. apply Hs. rewrite ids_mk. set_solver.
  - unfold replace_child in E1. rewrite Hr in E1. exists st'. by split_and!.
Qed.

(** After the node above and the child are linked, in whatever way [v] is chosen. *)
Lemma detach st rp f ctx d c x q kq v :
  good st rp (f :: ctx) (mk d c x q kq E) -> exists st1 st2,
  (u ← rd (f_ptr f) st;
   if (q =? left u)%nat then wr (f_ptr f) (set_child L (ptr x)) st else wr (f_ptr f) (set_child R (ptr x)) st) = Some st1
  /\ wr (ptr x) (set_parent v) st1 = Some st2
  /\ repc s (mem st2) (root st2) rp (ptr x) (f :: ctx) /\ rep s (mem st2) v x
  /\ (exists n, rd (ptr x) st2 = Some n /\ red n = tred x /\ parent n = v)
  /\ (exists n, mem st2 !! s = Some n /\ red n = false)
  /\ kept (s :: ids x ++ cids (f :: ctx)) st st2.
Proof.
  intros H. pose proof (good_disjoint _ _ _ _ _ H) as (Hn & Hc & Hd & Hs & Hsc).
  destruct (unlink_good _ _ _ _ _ _ _ _ _ H) as (st1 & E1 & R1 & K1). setoid_rewrite ids_mk in Hd. rewrite ids_mk in Hn, Hs.
  cbn [ids] in *. rewrite app_nil_r in *. apply list.NoDup_cons in Hn as [Hq Hn].
  pose proof (g_rep _ _ _ _ _ H) as Hrep. apply rep_mk in Hrep as (_ & Hx & _).
  destruct (set_parent_any st1 q v x) as (st2 & E2 & R2 & Hroot & Hk & Hsn & K2); [|done|set_solver| |].
  { eapply rep_frame; [|done]. intros y Hy. apply K1. apply Hd. set_solver. }
  { rewrite K1 by done. apply (g_black _ _ _ _ _ H). }
  exists st1, st2. split_and!; try done.
  - rewrite Hroot. eapply repc_frame; [|exact R1]. intros y Hy. apply K2. intros [-> | Hy']%elem_of_cons; [done|].
    apply (Hd y); [set_solver|done].
  - intros y Hy. rewrite K2 by set_solver. apply K1. set_solver.
Qed.

Lemma NoDup_ids_remove ctx d c x q kq :
  NoDup (ids (plug ctx (mk d c x q kq E))) -> NoDup (ids (plug ctx x)) /\ q ∉ ids (plug ctx x).
Proof.
  rewrite !ids_plug, ids_mk. cbn [ids]. rewrite app_nil_r. cbn. intros [? ?]%list.NoDup_cons. done.
Qed.

(** A node with at most one child goes: its child takes its place. *)
Lemma remove_simple st rp f ctx d c x q kq :
  good st rp (f :: ctx) (mk d c x q kq E) -> exists st1 st2,
  (u ← rd (f_ptr f) st;
   if (q =? left u)%nat then wr (f_ptr f) (set_child L (ptr x)) st else wr (f_ptr f) (set_child R (ptr x)) st) = Some st1
  /\ wr (ptr x) (set_parent (f_ptr f)) st1 = Some st2
  /\ good st2 rp (f :: ctx) x /\ knows st2 rp (f :: ctx) x /\ kept (s :: ids (plug (f :: ctx) x)) st st2.
Proof.
  intros H. destruct (detach _ _ _ _ _ _ _ _ _ (f_ptr f) H) as (st1 & st2 & E1 & E2 & Rc & Rx & Hk & Hs & K).
  destruct (NoDup_ids_remove _ _ _ _ _ _ (g_nodup _ _ _ _ _ H)) as [Hn _].
  exists st1, st2. split_and!; try done.
  - constructor; try done. pose proof (g_sent _ _ _ _ _ H) as Hsn. rewrite ids_plug in *. rewrite ids_mk in Hsn. set_solver.
  - intros y Hy. apply K. by rewrite ids_plug in Hy.
Qed.

(** *** Replacing a node by its successor *)

(** The subtree below a frame of the path. *)
Lemma repc_unplug m rt rp d c p k b ctx inner : forall x v,
  rep s m v x -> repc s m rt rp (ptr x) (inner ++ F d c p k b :: ctx) ->
  (inner = [] \/ v = up rp (inner ++ F d c p k b :: ctx)) ->
  m !! p = Some (mknode d k (ptr (plug inner x)) (ptr b) (up rp ctx) c) /\ rep s m p b /\ repc s m rt rp p ctx
  /\ exists v, rep s m v (plug inner x).
Proof.
  induction inner as [|[d' c' p' k' b'] inner IH]; intros x v Hx Hc Hv.
  - destruct Hc as (? & ? & ?). split_and!; eauto.
  - destruct Hc as (H1 & H2 & H3). destruct Hv as [? | ->]; [done|]. cbn [plug fill].
    eapply IH; [|rewrite ptr_mk; exact H3|by right]. apply rep_mk. by split_and!.
Qed.

Lemma substitute_good st rp ctx c l p k y q nq v :
  mem st !! p = Some (Node k (ptr l) (ptr y) (up rp ctx) c) -> rep s (mem st) p l -> rep s (mem st) v y ->
  repc s (mem st) (root st) rp p ctx -> mem st !! q = Some nq ->
  NoDup (s :: p :: q :: ids l ++ ids y ++ cids ctx) -> exists st',
  (n ← rd p st;
   st ← wr q (fun s => Node (key s) (left n) (right n) (parent n) (red n)) st;
   st ← replace_child L p q (parent n) st;
   sn ← rd q st;
   st ← wr_parent s (left sn) q st;
   wr_parent s (right sn) q st) = Some st'
  /\ rep s (mem st') (up rp ctx) (T c l q (key nq) y) /\ repc s (mem st') (root st') rp q ctx
  /\ kept (q :: ids l ++ ids y ++ cids ctx) st st'.
Proof.
  intros Hp Hl Hy Hc Hq Hn. apply list.NoDup_cons in Hn as [Hs Hn]. apply list.NoDup_cons in Hn as [Hpn Hn].
  apply list.NoDup_cons in Hn as [Hqn Hn]. apply list.NoDup_app in Hn as (Hnl & Hly & Hn). apply list.NoDup_app in Hn as (Hny & Hyc & Hnc).
  unfold rd. rewrite Hp. bnd. rewrite (wr_lookup _ _ _ _ Hq). bnd. cbn [left right parent red key]. set (st1 := MkState _ _).
  assert (K1 : forall x, x <> q -> mem st1 !! x = mem st !! x) by (intros x Hx; unfold st1; cbn; by rewrite lookup_insert_ne).
  destruct (replace_child_good s L st1 rp ctx p q) as (st2 & -> & Rc & K2); [|done|set_solver|set_solver|].
  { eapply repc_frame; [|exact Hc]. intros x Hx. apply K1. set_solver. }
  bnd. assert (Hq2 : mem st2 !! q = Some (Node (key nq) (ptr l) (ptr y) (up rp ctx) c)).
  { rewrite K2 by set_solver. unfold st1. cbn. by rewrite lookup_insert_eq. }
  rewrite Hq2. bnd. cbn [left right].
  destruct (wr_parent_good s st2 p q l) as (st3 & -> & Rl & Hr3 & K3); [|done|set_solver|].
  { eapply rep_frame; [|exact Hl]. intros x Hx. rewrite K2, K1 by set_solver. done. }
  bnd. destruct (wr_parent_good s st3 v q y) as (st4 & -> & Ry & Hr4 & K4); [|done|set_solver|].
  { eapply rep_frame; [|exact Hy]. intros x Hx. rewrite K3, K2, K1 by set_solver. done. }
  exists st4. split_and!; [done| | |].
  - cbn [rep]. split_and!; [|eapply rep_frame; [|exact Rl]; intros x Hx; apply K4; set_solver|done].
    rewrite K4, K3 by set_solver. done.
  - rewrite Hr4, Hr3. eapply repc_frame; [|exact Rc]. intros x Hx. rewrite K4, K3 by set_solver. done.
  - intros x Hx. rewrite K4, K3, K2, K1 by set_solver. done.
Qed.

Lemma min_loop_ok fuel : forall st rp ctx r,
  (height r <= fuel)%nat -> good st rp ctx r -> r <> E -> exists inner cs q kq x,
  min_loop s fuel (ptr r) st = Some q /\ r = plug inner (T cs E q kq x) /\ elems r = (q, kq) :: elems (plug inner x).
Proof.
  induction fuel as [|fuel IH]; intros st rp ctx r Hf H Hr; destruct r as [|c a p k b]; try done; cbn in Hf; [lia|].
  cbn [min_loop RbTreeShape.ptr]. pose proof (proj1 (g_rep _ _ _ _ _ H)) as Hp. unfold rd. rewrite Hp. bnd. cbn [left].
  apply (go_down s _ _ L) in H. destruct (ptr a =? s)%nat eqn:Ha.
  - apply (ptr_sentinel _ _ _ _ _ H) in Ha as ->. by exists [], c, p, k, b.
  - destruct (IH st rp (F L c p k b :: ctx) a ltac:(lia) H) as (inner & cs & q & kq & x & E1 & -> & El).
    { intros ->. cbn in Ha. by rewrite Nat.eqb_refl in Ha. }
    exists (inner ++ [F L c p k b]), cs, q, kq, x. rewrite !plug_app. cbn. split_and!; [done|done|]. by rewrite El.
Qed.

Lemma cok_rename inner d c p k p' k' b ctx : forall n,
  cok (inner ++ F d c p k b :: ctx) n -> cok (inner ++ F d c p' k' b :: ctx) n.
Proof.
  induction inner as [|[d1 c1 p1 k1 b1] inner IH]; intros n; [by destruct c|]. cbn. destruct c1.
  - intros (? & ? & Ha & Hc). split_and!; auto. by destruct inner as [|[] inner].
  - intros (? & ?). auto.
Qed.

Lemma cids_app c1 c2 : cids (c1 ++ c2) = cids c1 ++ cids c2.
Proof. induction c1 as [|[d c p k b] c1 IH]; cbn; [done|]. by rewrite IH, app_assoc. Qed.

(** The successor [q] of [p] takes the place of [p], and its child the place of [q]. *)
Lemma remove_successor st rp inner c p k l ctx cs q kq x :
  good st rp (inner ++ F R c p k l :: ctx) (T cs E q kq x) -> exists st1 st2,
  (u ← rd (up rp (inner ++ F R c p k l :: ctx)) st;
   if (q =? left u)%nat then wr (up rp (inner ++ F R c p k l :: ctx)) (set_child L (ptr x)) st
   else wr (up rp (inner ++ F R c p k l :: ctx)) (set_child R (ptr x)) st) = Some st1
  /\ substitute s p q (ptr x) (up rp (inner ++ F R c p k l :: ctx)) st1 = Some st2
  /\ good st2 rp (inner ++ F R c q kq l :: ctx) x /\ knows st2 rp (inner ++ F R c q kq l :: ctx) x
  /\ kept (s :: ids (plug (inner ++ F R c p k l :: ctx) (T cs E q kq x))) st st2
  /\ p ∉ ids (plug (inner ++ F R c q kq l :: ctx) x) /\ exists n, mem st2 !! p = Some n.
Proof.
  intros H. set (ctx0 := inner ++ F R c p k l :: ctx) in *.
  assert (Hctx : exists f ctx1, ctx0 = f :: ctx1) by (unfold ctx0; destruct inner; eauto). destruct Hctx as (f & ctx1 & Hctx).
  set (v := if (up rp ctx0 =? p)%nat then q else up rp ctx0).
  assert (Hperm : ids (plug ctx0 (T cs E q kq x)) ≡ₚ p :: q :: ids l ++ ids (plug inner x) ++ cids ctx).
  { unfold ctx0. rewrite plug_app. cbn [plug fill mk]. rewrite ids_plug. cbn [ids]. rewrite !ids_plug. cbn [ids app]. solve_Permutation. }
  assert (Hperm2 : ids (plug (inner ++ F R c q kq l :: ctx) x) ≡ₚ q :: ids l ++ ids (plug inner x) ++ cids ctx).
  { rewrite plug_app. cbn [plug fill mk]. rewrite ids_plug. cbn [ids]. rewrite !ids_plug. solve_Permutation. }
  pose proof (g_nodup _ _ _ _ _ H) as Hn. pose proof (g_sent _ _ _ _ _ H) as Hs. rewrite Hperm in Hn, Hs.
  assert (Hn' : NoDup (s :: p :: q :: ids l ++ ids (plug inner x) ++ cids ctx)) by (by apply list.NoDup_cons).
  pose proof (proj1 (proj1 (list.NoDup_cons _ _) Hn)) as Hpn.
  assert (Hv : v = up rp (inner ++ F R c q kq l :: ctx) /\ (inner = [] \/ v = up rp ctx0)).
  { unfold v, ctx0. destruct inner as [|[d' c' p' k' b'] inner]; cbn [app up f_ptr]; [rewrite Nat.eqb_refl; auto|].
    destruct (Nat.eqb_spec p' p) as [->|_]; [|auto]. exfalso. apply Hpn.
    right. apply elem_of_app. right. apply elem_of_app. left. rewrite ids_plug. cbn. set_solver. }
  destruct Hv as [Hv1 Hv2]. pose proof H as H0. rewrite Hctx in H0.
  assert (Hqm : mem st !! q = Some (Node kq s (ptr x) (up rp ctx0) cs)) by apply (proj1 (g_rep _ _ _ _ _ H)).
  destruct (detach st rp f ctx1 R cs x q kq v H0) as (st1 & st2 & E1 & E2 & Rc & Rx & Hk & Hsn & K).
  assert (Hup : up rp ctx0 = f_ptr f) by (by rewrite Hctx). rewrite Hup. exists st1. rewrite E1.
  rewrite <- Hctx in Rc. destruct (repc_unplug _ _ _ _ _ _ _ _ _ _ _ _ Rx Rc Hv2) as (Hp2 & Rl & Rc2 & vy & Ry).
  assert (Hq2 : mem st2 !! q = Some (Node kq s (ptr x) (up rp ctx0) cs)).
  { rewrite K; [done|]. rewrite <- Hctx. pose proof (good_disjoint _ _ _ _ _ H) as (Hd1 & _ & Hd2 & Hd3 & _). cbn [ids app] in *.
    apply list.NoDup_cons in Hd1 as [? _]. specialize (Hd2 q ltac:(by left)). set_solver. }
  destruct (substitute_good st2 rp ctx c l p k (plug inner x) q _ vy Hp2 Rl Ry Rc2 Hq2 Hn') as (st3 & E3 & R3 & Rc3 & K3).
  exists st3. cbn [key] in *.
  assert (G : good st3 rp ctx (T c l q kq (plug inner x))).
  { constructor; try done; rewrite plug_app in Hperm2; cbn [plug fill mk] in Hperm2; rewrite ?Hperm2.
    - by apply list.NoDup_cons in Hn as [_ ?].
    - set_solver.
    - rewrite K3; [done|set_solver]. }
  assert (G' : good st3 rp (inner ++ F R c q kq l :: ctx) x).
  { apply good_plug. rewrite plug_app. cbn [plug fill mk]. by apply go_root. }
  split_and!; try done.
  - unfold substitute. replace (if (f_ptr f =? p)%nat then wr (ptr x) (set_parent q) st1 else wr (ptr x) (set_parent (f_ptr f)) st1)
      with (wr (ptr x) (set_parent v) st1) by (unfold v; rewrite Hup; destruct (f_ptr f =? p)%nat; reflexivity).
    rewrite E2. bnd. exact E3.
  - destruct x as [|cx xl xp xk xr]; [|by apply knows_node]. destruct Hk as (n & Hn2 & Hr2 & Hp3). exists n.
    split_and!; [|done|congruence]. cbn in *. unfold rd in *. rewrite K3; [done|set_solver].
  - intros y Hy. rewrite Hperm in Hy. rewrite K3 by set_solver. apply K. rewrite <- Hctx. unfold ctx0.
    rewrite cids_app. cbn [cids]. intros Hin. apply Hy. rewrite ids_plug. set_solver.
  - by rewrite Hperm2.
  - rewrite K3 by done. eauto.
Qed.

(** *** The whole deletion *)

Lemma length_cids ctx : (length ctx <= length (cids ctx))%nat.
Proof. induction ctx as [|[d c p k b] ctx IH]; cbn; [lia|]. rewrite length_app. lia. Qed.

(** A node of colour [cs] with the only child [x] has gone from the place of [x]. *)
Lemma delete_finish st rp f ctx d cs x q kq n :
  good st rp (f :: ctx) x -> knows st rp (f :: ctx) x -> cok (f :: ctx) n -> rb (mk d cs x q kq E) n -> exists st',
  (if cs then Some st
   else '(temp, st) ← delete_fixup s (S (size (mem st))) (ptr x) st; wr temp (set_red false) st) = Some st'
  /\ balanced st st' rp (plug (f :: ctx) x).
Proof.
  intros H Hk Hc Hb. destruct cs.
  - apply rb_red in Hb as (Hx & _ & Hxb & _). exists st. split; [done|].
    destruct (rb_plug (f :: ctx) x n) as (m & Hm); [done|done|by rewrite Hxb|].
    exists (plug (f :: ctx) x), m. split_and!; try done; [by apply go_root|by eapply tred_plug].
  - apply rb_black in Hb as (m & -> & Hx & _). eapply delete_fixup_ok; [|done|done|by apply rb_short|done].
    pose proof (good_size _ _ _ _ _ H) as Hz. pose proof (Permutation_length (ids_plug (f :: ctx) x)) as Hi.
    rewrite length_app in Hi. pose proof (length_cids (f :: ctx)). lia.
Qed.

(** The elements before and after the focus. *)
Fixpoint before (ctx : list frame) : list (nat * Z) :=
  match ctx with
  | [] => []
  | F d _ p k b :: ctx => before ctx ++ match d with L => [] | R => elems b ++ [(p, k)] end
  end.
Fixpoint after (ctx : list frame) : list (nat * Z) :=
  match ctx with
  | [] => []
  | F d _ p k b :: ctx => match d with L => (p, k) :: elems b | R => [] end ++ after ctx
  end.

Lemma elems_before_after ctx : forall t, elems (plug ctx t) = before ctx ++ elems t ++ after ctx.
Proof.
  induction ctx as [|[d c p k b] ctx IH]; intros t; cbn [plug fill]; [by rewrite app_nil_r|]. rewrite IH.
  destruct d; cbn; rewrite <- ?app_assoc; cbn; by rewrite <- ?app_assoc, ?app_nil_r.
Qed.

Lemma before_app c1 c2 : before (c1 ++ c2) = before c2 ++ before c1.
Proof. induction c1 as [|[d c p k b] c1 IH]; cbn; [by rewrite app_nil_r|]. by rewrite IH, app_assoc. Qed.
Lemma after_app c1 c2 : after (c1 ++ c2) = after c1 ++ after c2.
Proof. induction c1 as [|[d c p k b] c1 IH]; cbn; [done|]. by rewrite IH, app_assoc. Qed.

(** Every element is the focus of some view. *)
Lemma locate p k t : forall l1 l2, elems t = l1 ++ (p, k) :: l2 -> exists ctx c l r,
  t = plug ctx (T c l p k r) /\ l1 = before ctx ++ elems l /\ l2 = elems r ++ after ctx.
Proof.
  induction t as [|c l IHl q kq r IHr]; intros l1 l2 H; [by destruct l1|]. cbn in H.
  apply app_eq_inv in H as [(m & Hl & Hm) | (m & Hl & Hm)].
  - destruct m as [|e m]; cbn in Hm; simplify_eq.
    + exists [], c, l, r. rewrite app_nil_r in Hl. cbn. rewrite app_nil_r. by subst.
    + destruct (IHl _ _ Hl) as (ctx & c' & l' & r' & -> & -> & ->).
      exists (ctx ++ [F L c q kq r]), c', l', r'. rewrite plug_app, before_app, after_app. cbn. by rewrite app_nil_r, <- app_assoc.
  - destruct m as [|e m]; cbn in Hm; subst l1; [injection Hm as -> -> <-|injection Hm as <- Hm].
    + exists [], c, l, r. cbn. by rewrite !app_nil_r.
    + destruct (IHr _ _ Hm) as (ctx & c' & l' & r' & -> & -> & ->).
      exists (ctx ++ [F R c q kq l]), c', l', r'. rewrite plug_app, before_app, after_app. cbn.
      rewrite <- !app_assoc. cbn. by rewrite !app_nil_r.
Qed.

(** What is left of a tree: the elements [l], in nodes among [ns]. *)
Definition leaves (st st' : state) (ns : list nat) (l : list (nat * Z)) : Prop :=
  is_tree s st' l /\ kept (s :: ns) st st'.

Lemma balanced_leaves st st1 st' rp t ns :
  balanced st1 st' rp t -> kept (s :: ns) st st1 -> (forall p, p ∈ ids t -> p ∈ ns) -> leaves st st' ns (elems t).
Proof.
  intros (t' & h & G & B & C & El & K) K1 Hi. split; [by exists rp, t', h|].
  eapply kept_trans; [done|]. intros q Hq. apply K. set_solver.
Qed.

Lemma delete_links_simple st rp ctx d c x p k h :
  good st rp ctx (mk d c x p k E) -> rb (plug ctx (mk d c x p k E)) h -> tred (plug ctx (mk d c x p k E)) = false ->
  exists st', delete_links s p p (ptr x) st = Some st'
    /\ leaves st st' (ids (plug ctx (mk d c x p k E))) (elems (plug ctx x)).
Proof.
  intros H Hb Hr. destruct (NoDup_ids_remove _ _ _ _ _ _ (g_nodup _ _ _ _ _ H)) as [Hn Hp].
  pose proof (g_rep _ _ _ _ _ H) as (Hpm & Hx & _)%rep_mk. pose proof (g_sent _ _ _ _ _ H) as Hs.
  assert (Hperm : ids (plug ctx (mk d c x p k E)) ≡ₚ p :: ids (plug ctx x)).
  { rewrite !ids_plug, ids_mk. cbn [ids]. by rewrite app_nil_r. }
  assert (Hps : p <> s) by (intros ->; apply Hs; rewrite Hperm; set_solver).
  unfold delete_links. destruct ctx as [|f ctx].
  - pose proof (g_ctx _ _ _ _ _ H) as Hroot. cbn in Hroot. rewrite ptr_mk in Hroot. rewrite Hroot, Nat.eqb_refl. cbn [plug] in *.
    assert (G : good (set_root (ptr x) st) p [] x).
    { constructor; cbn; [done|done|done| |apply (g_black _ _ _ _ _ H)]. rewrite Hperm in Hs. set_solver. }
    destruct (blacken_focus _ _ _ _ G) as (st1 & -> & G1 & K1). bnd.
    assert (Hp1 : mem st1 !! p = mem st !! p) by (apply K1; cbn; set_solver). rewrite Hpm in Hp1.
    assert (Hids : ids (blackened x) = ids x) by (by destruct x).
    destruct (clear_good _ _ _ _ _ _ G1 Hps ltac:(cbn; by rewrite Hids) Hp1) as (st2 & -> & G2 & _ & K2).
    exists st2. split; [done|]. split.
    + assert (Hbx : exists m, rb (blackened x) m).
      { destruct c; [by rewrite tred_mk in Hr|]. apply rb_black in Hb as (m & _ & Hb & _). apply rb_short in Hb.
        unfold short in Hb. destruct (tred x) eqn:Hxr; [by eexists|]. exists m. by destruct x as [|[] ? ? ? ?]. }
      destruct Hbx as (m & Hm). exists p, (blackened x), m. split_and!; try done; [by destruct x|apply elems_blackened].
    + intros q Hq. rewrite Hperm in Hq. rewrite K2 by set_solver. apply K1. cbn. set_solver.
  - pose proof (not_root _ _ _ _ _ _ H ltac:(by destruct d)) as Hroot. rewrite ptr_mk in Hroot. rewrite Hroot. clear Hroot.
    change (mem st !! p) with (rd p st) in Hpm. rewrite Hpm. bnd. autorewrite with rb. cbn [up].
    destruct (remove_simple _ _ _ _ _ _ _ _ _ H) as (st1 & st2 & E1 & E2 & G2 & Hk2 & K2).
    destruct (rd (f_ptr f) st) as [u|]; [|done]. revert E1. bnd. intros E1. rewrite E1. bnd. rewrite Nat.eqb_refl, E2. bnd.
    destruct (clear_good _ _ _ _ _ (mknode d k (ptr x) (ptr E) (up rp (f :: ctx)) c) G2 Hps Hp) as (st3 & -> & G3 & Hk3 & K3).
    { rewrite K2; [done|]. set_solver. }
    bnd. destruct (rb_unplug _ _ _ Hb Hr) as (n & Hc & Hn' & _).
    destruct (delete_finish _ _ _ _ _ _ _ _ _ _ G3 (Hk3 Hk2) Hc Hn') as (st' & E4 & B).
    exists st'. split; [by destruct c|]. eapply balanced_leaves; [done| |].
    + eapply kept_trans; intros q Hq; rewrite Hperm in Hq; [apply K2|apply K3]; set_solver.
    + intros q Hq. rewrite Hperm. by right.
Qed.

Lemma delete_links_successor st rp inner c p k l ctx cs q kq x h :
  let ctx0 := inner ++ F R c p k l :: ctx in
  good st rp ctx0 (T cs E q kq x) -> rb (plug ctx0 (T cs E q kq x)) h -> tred (plug ctx0 (T cs E q kq x)) = false ->
  exists st', delete_links s p q (ptr x) st = Some st'
    /\ leaves st st' (ids (plug ctx0 (T cs E q kq x))) (elems (plug (inner ++ F R c q kq l :: ctx) x)).
Proof.
  intros ctx0 H Hb Hr. destruct (remove_successor _ _ _ _ _ _ _ _ _ _ _ _ H) as (st1 & st2 & E1 & E2 & G2 & Hk2 & K2 & Hp2 & (n2 & Hn2)).
  pose proof (g_sent _ _ _ _ _ H) as Hs. pose proof (g_nodup _ _ _ _ _ H) as Hnd.
  destruct (rb_unplug _ _ _ Hb Hr) as (n & Hc & Hn' & _). apply (cok_rename _ _ _ _ _ q kq) in Hc.
  fold ctx0 in E1, E2, K2. set (ctx1 := inner ++ F R c q kq l :: ctx) in *.
  assert (Hperm : ids (plug ctx0 (T cs E q kq x)) ≡ₚ p :: ids (plug ctx1 x)).
  { unfold ctx0, ctx1. rewrite !ids_plug, !cids_app. cbn. solve_Permutation. }
  assert (Hps : p <> s) by (intros ->; apply Hs; rewrite Hperm; set_solver).
  assert (Hpq : q <> p) by (intros ->; apply Hp2; unfold ctx1; rewrite ids_plug, cids_app; cbn; set_solver).
  assert (Hctx : exists f ctx2, ctx0 = f :: ctx2) by (unfold ctx0; destruct inner; eauto). destruct Hctx as (f & ctx2 & Hctx).
  assert (Hctx1 : exists f ctx2, ctx1 = f :: ctx2) by (unfold ctx1; destruct inner; eauto). destruct Hctx1 as (f1 & ctx3 & Hctx1).
  unfold delete_links. pose proof (proj1 (g_rep _ _ _ _ _ H)) as Hqm.
  assert (Hroot : (q =? root st)%nat = false) by (rewrite Hctx in H; apply (not_root _ _ _ _ _ _ H); done). rewrite Hroot.
  change (mem st !! q) with (rd q st) in Hqm. rewrite Hqm. bnd. cbn [parent red].
  destruct (rd (up rp ctx0) st) as [u|]; [|done]. revert E1. bnd. intros E1. rewrite E1. bnd.
  rewrite (proj2 (Nat.eqb_neq _ _) Hpq), E2. bnd.
  destruct (clear_good _ _ _ _ _ _ G2 Hps Hp2 Hn2) as (st3 & -> & G3 & Hk3 & K3). bnd. specialize (Hk3 Hk2).
  rewrite Hctx1 in G3, Hk3, Hc. destruct (delete_finish _ _ _ _ R _ _ _ _ _ G3 Hk3 Hc Hn') as (st' & E4 & B).
  exists st'. split; [by destruct cs|]. rewrite <- Hctx1 in B. eapply balanced_leaves; [done| |].
  - eapply kept_trans; intros y Hy; [by apply K2|apply K3]. rewrite Hperm in Hy. set_solver.
  - intros y Hy. rewrite Hperm. by right.
Qed.

End Delete.
