(* ===== verification/RbTreeSpec.v ===== *)
(** * Red-black trees: what the operations do

    The tree in memory refines an ordered list of nodes and keys: [is_tree s st l] says
    that the nodes reachable from the root are those of [l], in this order, linked in
    both directions, and balanced.  Every operation has a result, the loops of the code
    end, and memory outside of the tree and its sentinel does not change. *)

From stdpp Require Import sorting.
From S2P Require Import Prelude RbTree RbTreeShape RbTreeInsert RbTreeDelete.

Section Spec.
Context (s : nat).

Notation ptr := (ptr s).
Notation good := (good s).

Lemma is_tree_at st l1 p k l2 : is_tree s st (l1 ++ (p, k) :: l2) -> exists rp ctx c l r h,
  good st rp ctx (T c l p k r) /\ rb (plug ctx (T c l p k r)) h /\ tred (plug ctx (T c l p k r)) = false
  /\ l1 = before ctx ++ elems l /\ l2 = elems r ++ after ctx.
Proof.
  intros (rp & t & h & H & Hb & Hr & El). destruct (locate _ _ _ _ _ El) as (ctx & c & l & r & -> & -> & ->).
  exists rp, ctx, c, l, r, h. split_and!; try done. by apply good_plug.
Qed.

Lemma is_tree_read st l p k : is_tree s st l -> (p, k) ∈ l -> exists n, mem st !! p = Some n /\ key n = k.
Proof.
  intros H (l1 & l2 & ->)%list_elem_of_split. destruct (is_tree_at _ _ _ _ _ H) as (rp & ctx & c & a & b & h & G & _).
  destruct (g_rep _ _ _ _ _ G) as (Hp & _). by eexists.
Qed.

Lemma is_tree_NoDup st l : is_tree s st l -> NoDup (map fst l) /\ s ∉ map fst l.
Proof. intros (rp & t & h & H & _ & _ & <-). rewrite elems_ids. by destruct H. Qed.

Lemma is_tree_root st l : is_tree s st l -> (root st =? s)%nat = match l with [] => true | _ => false end.
Proof.
  intros (rp & t & h & H & _ & _ & <-). pose proof (g_ctx _ _ _ _ _ H) as Hr. cbn in Hr. rewrite Hr.
  destruct t as [|c a p k b]; cbn; [by rewrite Nat.eqb_refl|].
  assert (Hne : p <> s) by (intros ->; apply (g_sent _ _ _ _ _ H); cbn; set_solver).
  rewrite (proj2 (Nat.eqb_neq _ _) Hne). by destruct (elems a).
Qed.

(** ** Deletion *)

Lemma delete_ok st l1 p k l2 : is_tree s st (l1 ++ (p, k) :: l2) -> exists st',
  ngx_rbtree_delete s p st = Some st' /\ is_tree s st' (l1 ++ l2) /\ kept (s :: map fst (l1 ++ (p, k) :: l2)) st st'.
Proof.
  intros H. destruct (is_tree_at _ _ _ _ _ H) as (rp & ctx & c & l & r & h & G & Hb & Hr & -> & ->).
  assert (El : (before ctx ++ elems l) ++ (p, k) :: elems r ++ after ctx = elems (plug ctx (T c l p k r))).
  { rewrite elems_before_after. cbn. by rewrite <- !app_assoc. }
  rewrite El, elems_ids. unfold ngx_rbtree_delete. pose proof (g_rep _ _ _ _ _ G) as (Hp & _). change (mem st !! p) with (rd p st) in Hp. rewrite Hp. bnd.
  cbn [left right]. pose proof (go_down s _ _ L _ _ _ _ _ _ G) as Gl. pose proof (go_down s _ _ R _ _ _ _ _ _ G) as Gr.
  destruct (ptr l =? s)%nat eqn:Hl; [|destruct (ptr r =? s)%nat eqn:Hrr].
  - apply (ptr_sentinel _ _ _ _ _ Gl) in Hl as ->. bnd.
    destruct (delete_links_simple _ _ _ _ R _ _ _ _ _ G Hb Hr) as (st' & -> & Ht & K). exists st'. split_and!; try done.
    rewrite elems_before_after in Ht. cbn [elems]. by rewrite app_nil_r.
  - apply (ptr_sentinel _ _ _ _ _ Gr) in Hrr as ->. bnd.
    destruct (delete_links_simple _ _ _ _ L _ _ _ _ _ G Hb Hr) as (st' & -> & Ht & K). exists st'. split_and!; try done.
    rewrite elems_before_after in Ht. cbn [elems app]. by rewrite <- app_assoc.
  - assert (HrE : r <> E) by (intros ->; cbn in Hrr; by rewrite Nat.eqb_refl in Hrr).
    pose proof (good_size _ _ _ _ _ Gr) as Hz. pose proof (Permutation_length (ids_plug (F R c p k l :: ctx) r)) as Hi.
    rewrite length_app in Hi. pose proof (height_ids r). unfold ngx_rbtree_min.
    destruct (min_loop_ok s (size (mem st)) st rp (F R c p k l :: ctx) r ltac:(lia) Gr HrE)
      as (inner & cs & q & kq & x & -> & -> & Er). bnd.
    assert (Gq : good st rp (inner ++ F R c p k l :: ctx) (T cs E q kq x)).
    { apply good_plug. rewrite plug_app. cbn [plug fill mk]. by apply go_root. }
    pose proof (g_rep _ _ _ _ _ Gq) as (Hq & _). change (mem st !! q) with (rd q st) in Hq. rewrite Hq. bnd. cbn [right].
    assert (Heq : plug (inner ++ F R c p k l :: ctx) (T cs E q kq x) = plug ctx (T c l p k (plug inner (T cs E q kq x)))).
    { by rewrite plug_app. }
    destruct (delete_links_successor s _ _ _ _ _ _ _ _ _ _ _ _ h Gq) as (st' & -> & Ht & K); [by rewrite Heq|by rewrite Heq|].
    exists st'. rewrite Heq in K. split_and!; try done.
    rewrite plug_app in Ht. cbn [plug fill mk] in Ht. rewrite elems_before_after in Ht. cbn [elems] in Ht.
    rewrite Er. by rewrite <- !app_assoc in *.
Qed.

(** ** Minimum and successor *)

Lemma min_ok st p k l : is_tree s st ((p, k) :: l) -> ngx_rbtree_min s (root st) st = Some p.
Proof.
  intros (rp & t & h & H & _ & _ & El). pose proof (g_ctx _ _ _ _ _ H) as Hr. cbn in Hr. rewrite Hr.
  pose proof (good_size _ _ _ _ _ H) as Hz. cbn in Hz. pose proof (height_ids t).
  destruct (min_loop_ok s (size (mem st)) st rp [] t ltac:(lia) H) as (inner & cs & q & kq & x & E1 & _ & El'); [by intros ->|].
  unfold ngx_rbtree_min. rewrite E1. rewrite El in El'. by simplify_eq.
Qed.

Lemma next_loop_ok fuel : forall st rp ctx t,
  (length ctx < fuel)%nat -> good st rp ctx t -> t <> E -> next_loop fuel (ptr t) st = Some (fst <$> head (after ctx)).
Proof.
  induction fuel as [|fuel IH]; intros st rp ctx t Hf H Ht; [lia|].
  destruct (rd_focus _ _ _ _ _ H Ht) as (n & Hn & _ & Hp). cbn [next_loop]. rewrite Hn. bnd.
  destruct ctx as [|[d c p k b] ctx].
  - pose proof (g_ctx _ _ _ _ _ H) as Hr. cbn in Hr. by rewrite Hr, Nat.eqb_refl.
  - rewrite (not_root _ _ _ _ _ _ H Ht), Hp. cbn [up f_ptr]. rewrite (rd_above _ _ _ _ _ _ _ _ _ _ H). bnd.
    pose proof (sibling_ptr _ _ _ _ _ _ _ _ _ _ H Ht) as Hs. destruct d; cbn [mknode left].
    + by rewrite Nat.eqb_refl.
    + rewrite (proj2 (Nat.eqb_neq _ _) (not_eq_sym Hs)). apply go_up in H.
      cbn in Hf. specialize (IH _ _ ctx _ ltac:(lia) H ltac:(done)). by rewrite ptr_mk in IH.
Qed.

Lemma next_ok st l1 p k l2 : is_tree s st (l1 ++ (p, k) :: l2) -> ngx_rbtree_next s p st = Some (fst <$> head l2).
Proof.
  intros H. destruct (is_tree_at _ _ _ _ _ H) as (rp & ctx & c & l & r & h & G & _ & _ & -> & ->).
  pose proof (good_size _ _ _ _ _ G) as Hz. pose proof (Permutation_length (ids_plug ctx (T c l p k r))) as Hi.
  rewrite length_app in Hi. pose proof (length_cids ctx) as Hc. cbn [ids] in Hi. rewrite length_app in Hi. cbn [length] in Hi.
  unfold ngx_rbtree_next, rd. pose proof (g_rep _ _ _ _ _ G) as (Hp & _). rewrite Hp. bnd. cbn [right].
  pose proof (go_down s _ _ R _ _ _ _ _ _ G) as Gr. destruct (ptr r =? s)%nat eqn:Hr; cbn [negb].
  - apply (ptr_sentinel _ _ _ _ _ Gr) in Hr as ->. cbn [elems app].
    change p with (ptr (T c l p k E)) at 1. eapply next_loop_ok; [|done|done]. lia.
  - pose proof (height_ids r). destruct (min_loop_ok s (size (mem st)) st rp (F R c p k l :: ctx) r ltac:(lia) Gr) as (inner & cs & q & kq & x & E1 & _ & El).
    { intros ->. cbn in Hr. by rewrite Nat.eqb_refl in Hr. }
    unfold ngx_rbtree_min. rewrite E1, El. done.
Qed.

End Spec.

(** ** Nodes stay in memory *)

Lemma wr_dom p f st st' : wr p f st = Some st' -> dom (mem st') = dom (mem st).
Proof. unfold wr. intros (n & Hn & [= <-])%bind_Some. cbn. apply dom_insert_lookup_L. by eexists. Qed.

Ltac dom_step :=
  match goal with
  | H : _ ≫= _ = Some _ |- _ => apply bind_Some in H as (? & ? & H)
  | H : (if ?b then _ else _) = Some _ |- _ => destruct b
  | H : (let '(_, _) := ?x in _) = Some _ |- _ => destruct x
  | H : Some _ = Some _ |- _ => injection H as ?
  | H : None = Some _ |- _ => discriminate H
  | H : wr _ _ _ = Some _ |- _ => apply wr_dom in H
  end.
Ltac dom_solve := repeat dom_step; simplify_eq; cbn in *; congruence.

Section Domain.
Context (s : nat).

Lemma wr_parent_dom p q st st' : wr_parent s p q st = Some st' -> dom (mem st') = dom (mem st).
Proof. unfold wr_parent. intros H. dom_solve. Qed.

Lemma replace_child_dom d p q u st st' : replace_child d p q u st = Some st' -> dom (mem st') = dom (mem st).
Proof. unfold replace_child. intros H. dom_solve. Qed.

Lemma rotate_dom d p st st' : rotate s d p st = Some st' -> dom (mem st') = dom (mem st).
Proof.
  unfold rotate. intros H. repeat dom_step.
  repeat match goal with
  | H : wr_parent _ _ _ _ = Some _ |- _ => apply wr_parent_dom in H
  | H : replace_child _ _ _ _ _ = Some _ |- _ => apply replace_child_dom in H
  end. congruence.
Qed.

Ltac dom_solve2 :=
  repeat first [dom_step
    | match goal with
      | H : rotate _ _ _ _ = Some _ |- _ => apply rotate_dom in H
      | H : wr_parent _ _ _ _ = Some _ |- _ => apply wr_parent_dom in H
      | H : replace_child _ _ _ _ _ = Some _ |- _ => apply replace_child_dom in H
      end]; simplify_eq; cbn in *; congruence.

Lemma insert_fixup_dom fuel : forall p st st', insert_fixup s fuel p st = Some st' -> dom (mem st') = dom (mem st).
Proof.
  induction fuel as [|fuel IH]; intros p st st' H; [done|]. cbn in H. repeat dom_step; simplify_eq; try done.
  all: apply IH in H; dom_solve2.
Qed.

Lemma delete_fixup_dom fuel : forall p st q st', delete_fixup s fuel p st = Some (q, st') -> dom (mem st') = dom (mem st).
Proof.
  induction fuel as [|fuel IH]; intros p st q st' H; [done|]. cbn in H. repeat dom_step; simplify_eq; try done.
  all: apply IH in H; dom_solve2.
Qed.

Lemma insert_dom less p st st' : ngx_rbtree_insert s less p st = Some st' -> dom (mem st') = dom (mem st).
Proof.
  unfold ngx_rbtree_insert, insert_value. intros H.
  repeat first [dom_step | match goal with H : insert_fixup _ _ _ _ = Some _ |- _ => apply insert_fixup_dom in H end]; dom_solve2.
Qed.

Lemma delete_dom p st st' : ngx_rbtree_delete s p st = Some st' -> dom (mem st') = dom (mem st).
Proof.
  unfold ngx_rbtree_delete, delete_links, substitute, clear_node. intros H.
  repeat first [dom_step | match goal with H : delete_fixup _ _ _ _ = Some _ |- _ => apply delete_fixup_dom in H end]; dom_solve2.
Qed.

End Domain.

(** ** Order and height *)

Lemma insert_list_perm less e l : insert_list less e l ≡ₚ e :: l.
Proof. induction l as [|x l IH]; cbn; [done|]. destruct (less _ _); [done|]. rewrite IH. by apply perm_swap. Qed.

Lemma insert_list_ordered less f e l :
  ordered f l -> ranks less f (e :: l) -> ordered f (insert_list less e l).
Proof.
  unfold ordered. induction l as [|x l IH]; intros Ho Hr; cbn; [by repeat constructor|].
  apply StronglySorted_cons in Ho as [Hx Ho]. rewrite Hr by (cbn; set_solver).
  assert (Hr' : ranks less f (e :: l)) by (intros a b Ha Hb; apply Hr; cbn in *; set_solver).
  destruct (Z.ltb_spec (f e) (f x)).
  - apply StronglySorted_cons. split; [|by apply StronglySorted_cons]. constructor; [lia|].
    rewrite list.Forall_forall in *. intros y Hy. specialize (Hx y Hy). cbn in Hx. lia.
  - apply StronglySorted_cons. split; [|by apply IH]. rewrite insert_list_perm. by constructor.
Qed.

Lemma rb_height t : forall h, rb t h ->
  (height t <= 2 * h + if tred t then 1 else 0)%nat /\ (2 ^ h <= S (length (ids t)))%nat.
Proof.
  induction t as [|c l IHl p k r IHr]; intros h H; cbn in *; [subst; cbn; lia|]. rewrite length_app. cbn [length]. destruct c.
  - destruct H as (Hl & Hr & Hlb & Hrb). destruct (IHl _ Hl), (IHr _ Hr). rewrite Hlb, Hrb in *. lia.
  - destruct H as (m & -> & Hl & Hr). destruct (IHl _ Hl), (IHr _ Hr). destruct (tred l), (tred r); cbn [Nat.pow]; lia.
Qed.

Lemma is_tree_height s st l : is_tree s st l -> exists rp t, good s st rp [] t /\ elems t = l /\ (height t <= 2 * Nat.log2 (S (length l)))%nat.
Proof.
  intros (rp & t & h & H & Hb & Hr & El). exists rp, t. split_and!; try done. destruct (rb_height _ _ Hb) as [H1 H2]. rewrite Hr in H1.
  assert (Hlen : length (ids t) = length l) by (by rewrite <- elems_ids, length_map, El). rewrite Hlen in H2.
  assert (h <= Nat.log2 (S (length l)))%nat; [|lia]. rewrite <- (Nat.log2_pow2 h) by lia. by apply Nat.log2_le_mono.
Qed.

(** ** The properties *)

(** C16. Insertion: from a tree that holds the ordered nodes [l], inserting a node that is
    not in it ends without touching memory outside of the tree, and leaves a balanced tree
    that holds the nodes of [l] and the new one, which comes after all nodes whose key is
    not greater; the result is ordered again.  The comparison is arbitrary, as long as it
    compares ranks of the nodes concerned. *)
Theorem rbtree_insert_refines s less f st l p n :
  is_tree s st l -> ordered f l -> mem st !! p = Some n -> p ∉ map fst l -> p <> s ->
  ranks less f ((p, key n) :: l) ->
  exists st', ngx_rbtree_insert s less p st = Some st'
    /\ is_tree s st' (insert_list less (p, key n) l) /\ ordered f (insert_list less (p, key n) l)
    /\ (forall q, q <> p -> q ∉ map fst l -> mem st' !! q = mem st !! q).
Proof.
  intros H Ho Hp Hni Hps Hr. destruct (insert_ok s less f st l p n) as (st' & E1 & Ht & K); try done.
  exists st'. split_and!; [done|done|by apply insert_list_ordered|]. intros q Hq Hql. apply K. by apply not_elem_of_cons.
Qed.

(** C17. Deletion: removing any node of the tree ends, leaves a balanced tree with the
    other nodes in the same order, and writes only to nodes of the tree and to the
    sentinel, which stays black. *)
Theorem rbtree_delete_refines s st l1 p k l2 :
  is_tree s st (l1 ++ (p, k) :: l2) ->
  exists st', ngx_rbtree_delete s p st = Some st' /\ is_tree s st' (l1 ++ l2)
    /\ (exists n, mem st' !! s = Some n /\ red n = false)
    /\ (forall q, q <> s -> q ∉ map fst (l1 ++ (p, k) :: l2) -> mem st' !! q = mem st !! q).
Proof.
  intros H. destruct (delete_ok s st l1 p k l2 H) as (st' & E1 & Ht & K). exists st'. split_and!; try done.
  - destruct Ht as (rp & t & h & G & _). apply (g_black _ _ _ _ _ G).
  - intros q Hq Hql. apply K. by apply not_elem_of_cons.
Qed.

(** Traversal: ngx_rbtree_min returns the first node of the order, in at most
    2 log2(n+1) steps of its loop for n nodes, and ngx_rbtree_next returns the successor
    of any node, NULL for the last. *)
Theorem rbtree_traversal s st l1 p k l2 :
  is_tree s st (l1 ++ (p, k) :: l2) ->
  ngx_rbtree_next s p st = Some (fst <$> head l2)
  /\ ngx_rbtree_min s (root st) st = fst <$> head (l1 ++ [(p, k)])
  /\ min_loop s (2 * Nat.log2 (S (S (length (l1 ++ l2))))) (root st) st = fst <$> head (l1 ++ [(p, k)]).
Proof.
  intros H. split; [by eapply next_ok|]. assert (Hh : exists e l', l1 ++ (p, k) :: l2 = e :: l' /\ head (l1 ++ [(p, k)]) = Some e).
  { destruct l1; cbn; eauto. }
  destruct Hh as ([q kq] & l' & Hl & ->). assert (Hlen : S (length (l1 ++ l2)) = length (l1 ++ (p, k) :: l2)).
  { rewrite !length_app. cbn. lia. }
  rewrite Hlen, Hl in *. split; [by eapply min_ok|]. destruct (is_tree_height _ _ _ H) as (rp & t & G & El & Hh).
  pose proof (g_ctx _ _ _ _ _ G) as Hr. cbn in Hr. rewrite Hr.
  destruct (min_loop_ok s _ st rp [] t Hh G) as (inner & cs & x & kx & y & -> & _ & El'); [by intros ->|].
  rewrite El in El'. by simplify_eq.
Qed.

(** A tree of three nodes, built by the code. *)
Definition three : state :=
  default (MkState demo_mem 100) (foldl (fun st p => st ← st; ngx_rbtree_insert 100 less_value p st) (Some (MkState demo_mem 100)) (seq 1 3)).

Lemma three_tree : is_tree 100 three [(2%nat, 3); (1%nat, 7); (3%nat, 10)].
Proof.
  exists 0%nat, (T false (T true E 2 3 E) 1 7 (T true E 3 10 E)), 1%nat. split_and!; [|by exists 0%nat|done|done].
  constructor; [vm_compute; auto|done|by_evaluation|by_evaluation|]. by eexists.
Qed.

Lemma rbtree_insert_refines_witness :
  exists st', ngx_rbtree_insert 100 less_value 4 three = Some st'
    /\ is_tree 100 st' [(2%nat, 3); (4%nat, 6); (1%nat, 7); (3%nat, 10)].
Proof.
  destruct (rbtree_insert_refines 100 less_value snd three _ 4 (Node 6 0 0 0 false) three_tree) as (st' & H1 & H2 & _).
  - repeat constructor; by_evaluation.
  - reflexivity.
  - by_evaluation.
  - done.
  - done.
  - exists st'. exact (conj H1 H2).
Defined.

Lemma rbtree_delete_refines_witness :
  exists st', ngx_rbtree_delete 100 1 three = Some st' /\ is_tree 100 st' [(2%nat, 3); (3%nat, 10)].
Proof.
  destruct (rbtree_delete_refines 100 three [(2%nat, 3)] 1 7 [(3%nat, 10)] three_tree) as (st' & H1 & H2 & _).
  exists st'. exact (conj H1 H2).
Defined.

Lemma rbtree_traversal_witness : ngx_rbtree_next 100 1 three = Some (Some 3%nat).
Proof. exact (proj1 (rbtree_traversal 100 three [(2%nat, 3)] 1 7 [(3%nat, 10)] three_tree)). Defined.
