(* ===== verification/EventTimer.v ===== *)
(** * Event timers: event/ngx_event_timer.c and event/ngx_event_timer.h

    The timers of a worker are the nodes of one red-black tree, ordered by the moment of
    expiry modulo 2^64 milliseconds.  The code of the timers is written against an
    interface, [TimerTree]: what it uses of core/ngx_rbtree.c, with its laws.  The
    theorems are proved from the laws; at the end the red-black tree is shown to have
    them.

    An event is known by the address of its timer node.  The handlers that
    ngx_event_expire_timers calls are code of other modules: a handler is a parameter that
    answers with the timer operations it performs. *)

From stdpp Require Import sorting.
From S2P Require Import Prelude RbTree RbTreeShape RbTreeInsert RbTreeDelete RbTreeSpec.

(** ** The interface *)

Class TimerTree (A : Type) := {
  tt_empty : A -> bool;                       (* root == sentinel *)
  tt_min : A -> option nat;                   (* ngx_rbtree_min(root, sentinel) *)
  tt_next : nat -> A -> option (option nat);  (* ngx_rbtree_next *)
  tt_key : nat -> A -> option Z;              (* node->key *)
  tt_set_key : nat -> Z -> A -> option A;     (* node->key = key *)
  tt_insert : nat -> A -> option A;           (* ngx_rbtree_insert *)
  tt_delete : nat -> A -> option A;           (* ngx_rbtree_delete *)
}.

(** The nodes in the tree with their keys, in order, and the nodes that exist. *)
Class TimerTreeLaws (A : Type) `{!TimerTree A} := {
  holds : A -> list (nat * Z) -> Prop;
  node_at : A -> nat -> Prop;
  holds_NoDup t l : holds t l -> NoDup (map fst l);
  tt_empty_ok t l : holds t l -> tt_empty t = match l with [] => true | _ => false end;
  tt_min_ok t p k l : holds t ((p, k) :: l) -> tt_min t = Some p;
  tt_next_ok t l1 p k l2 : holds t (l1 ++ (p, k) :: l2) -> tt_next p t = Some (fst <$> head l2);
  tt_key_ok t l p k : holds t l -> (p, k) ∈ l -> tt_key p t = Some k;
  tt_set_key_ok t l p k : holds t l -> node_at t p -> p ∉ map fst l ->
    exists t', tt_set_key p k t = Some t' /\ holds t' l /\ tt_key p t' = Some k /\ (forall q, node_at t q -> node_at t' q);
  tt_insert_ok t l p k f : holds t l -> node_at t p -> p ∉ map fst l -> tt_key p t = Some k ->
    ordered f l -> ranks less_timer f ((p, k) :: l) ->
    exists t', tt_insert p t = Some t' /\ holds t' (insert_list less_timer (p, k) l) /\ (forall q, node_at t q -> node_at t' q);
  tt_delete_ok t l1 p k l2 : holds t (l1 ++ (p, k) :: l2) ->
    exists t', tt_delete p t = Some t' /\ holds t' (l1 ++ l2) /\ (forall q, node_at t q -> node_at t' q);
}.

(** ** The code *)

(** The bits of ngx_event_t that the timers use. *)
Record event := Event { timer_set : bool; timedout : bool; cancelable : bool }.

Definition NGX_TIMER_INFINITE : Z := 2 ^ 64 - 1.
Definition NGX_TIMER_LAZY_DELAY : Z := 300.

(** An operation of a handler on the timers. *)
Inductive op := Add (p : nat) (timer : Z) | Del (p : nat).

Section Timers.
Context {A : Type} `{!TimerTree A}.

(** The tree, the events, and ngx_current_msec. *)
Record world := World { timers : A; events : gmap nat event; ngx_current_msec : Z }.

Definition set_timers (t : A) (w : world) : world := World t (events w) (ngx_current_msec w).
Definition set_event (p : nat) (g : event -> event) (w : world) : option world :=
  e ← events w !! p; Some (World (timers w) (<[p := g e]> (events w)) (ngx_current_msec w)).
Definition set_timer_set (b : bool) (e : event) : event := Event b (timedout e) (cancelable e).
Definition set_timedout (b : bool) (e : event) : event := Event (timer_set e) b (cancelable e).

(** ngx_event_find_timer *)
Definition ngx_event_find_timer (w : world) : option Z :=
  if tt_empty (timers w) then Some NGX_TIMER_INFINITE
  else
    node ← tt_min (timers w);
    key ← tt_key node (timers w);
    let timer := i64 (key - ngx_current_msec w) in
    Some (if timer >? 0 then timer else 0).

(** ngx_event_del_timer *)
Definition ngx_event_del_timer (ev : nat) (w : world) : option world :=
  t ← tt_delete ev (timers w);
  set_event ev (set_timer_set false) (set_timers t w).

(** The end of ngx_event_add_timer *)
Definition start_timer (ev : nat) (key : Z) (w : world) : option world :=
  t ← tt_set_key ev key (timers w);
  t ← tt_insert ev t;
  set_event ev (set_timer_set true) (set_timers t w).

(** ngx_event_add_timer *)
Definition ngx_event_add_timer (ev : nat) (timer : Z) (w : world) : option world :=
  let key := u64 (ngx_current_msec w + timer) in
  e ← events w !! ev;
  if timer_set e then
    old ← tt_key ev (timers w);
    let diff := i64 (key - old) in
    if ngx_abs diff <? NGX_TIMER_LAZY_DELAY then Some w
    else
      w ← ngx_event_del_timer ev w;
      start_timer ev key w
  else start_timer ev key w.

Definition run_op (o : op) (w : world) : option world :=
  match o with Add p timer => ngx_event_add_timer p timer w | Del p => ngx_event_del_timer p w end.

Fixpoint run_ops (os : list op) (w : world) : option world :=
  match os with [] => Some w | o :: os => w ← run_op o w; run_ops os w end.

(** ngx_event_expire_timers: the world it leaves, and the events whose handler it calls. *)
Fixpoint ngx_event_expire_timers (handler : nat -> world -> list op) (fuel : nat) (w : world) : option (world * list nat) :=
  match fuel with
  | O => None
  | S fuel =>
      if tt_empty (timers w) then Some (w, [])
      else
        node ← tt_min (timers w);
        key ← tt_key node (timers w);
        if i64 (key - ngx_current_msec w) >? 0 then Some (w, [])
        else
          t ← tt_delete node (timers w);
          w ← set_event node (set_timer_set false) (set_timers t w);
          w ← set_event node (set_timedout true) w;
          w ← run_ops (handler node w) w;
          '(w, fired) ← ngx_event_expire_timers handler fuel w;
          Some (w, node :: fired)
  end.

(** ngx_event_no_timers_left *)
Fixpoint no_timers_loop (fuel : nat) (node : option nat) (w : world) : option Z :=
  match fuel with
  | O => None
  | S fuel =>
      match node with
      | None => Some NGX_OK
      | Some node =>
          e ← events w !! node;
          if negb (cancelable e) then Some NGX_AGAIN
          else
            node ← tt_next node (timers w);
            no_timers_loop fuel node w
      end
  end.

Definition ngx_event_no_timers_left (fuel : nat) (w : world) : option Z :=
  if tt_empty (timers w) then Some NGX_OK
  else node ← tt_min (timers w); no_timers_loop fuel (Some node) w.

End Timers.

Arguments world A : clear implicits.

(** ** Moments modulo 2^64 *)

(** The time left until [k], negative when it has passed. *)
Definition due (now k : Z) : Z := i64 (k - now).

(** The moments that can be told apart: less than 2^62 milliseconds away. *)
Definition near (now k : Z) : Prop := Z.abs (due now k) < 2 ^ 62.

Lemma i64_shift z q : i64 (z + q * 2 ^ 64) = i64 z.
Proof. unfold i64, wrap. by rewrite Z.mod_add. Qed.

Lemma i64_offset z : exists q, i64 z = z + q * 2 ^ 64.
Proof.
  unfold i64, wrap. pose proof (Z.div_mod z (2 ^ 64) ltac:(done)).
  destruct (_ <? _); [exists (- (z / 2 ^ 64))|exists (- (z / 2 ^ 64) - 1)]; lia.
Qed.

Lemma due_diff now a b : near now a -> near now b -> i64 (a - b) = due now a - due now b.
Proof.
  unfold near, due. intros Ha Hb. destruct (i64_offset (a - now)) as [qa Ea]. destruct (i64_offset (b - now)) as [qb Eb].
  rewrite <- (i64_shift _ (qa - qb)). replace (a - b + (qa - qb) * 2 ^ 64) with (i64 (a - now) - i64 (b - now)) by lia.
  apply i64_small. lia.
Qed.

Lemma due_add now timer : Z.abs timer < 2 ^ 62 -> due now (u64 (now + timer)) = timer.
Proof.
  intros H. unfold due, wrap. rewrite Z.mod_eq by done.
  replace (now + timer - 2 ^ 64 * ((now + timer) / 2 ^ 64) - now) with (timer + - ((now + timer) / 2 ^ 64) * 2 ^ 64) by lia.
  rewrite i64_shift. apply i64_small. lia.
Qed.

(** The order of the timers. *)
Definition due_order (now : Z) (e : nat * Z) : Z := due now (snd e).

Lemma ranks_near now (l : list (nat * Z)) : Forall (near now) (map snd l) -> ranks less_timer (due_order now) l.
Proof.
  rewrite list.Forall_forall. intros H a b Ha Hb. unfold less_timer, due_order.
  rewrite (due_diff now) by (apply H; by apply (list_elem_of_fmap_2 snd)).
  destruct (Z.ltb_spec (due now (snd a) - due now (snd b)) 0), (Z.ltb_spec (due now (snd a)) (due now (snd b))); lia.
Qed.

(** ** The invariant *)

Definition remove (p : nat) (l : list (nat * Z)) : list (nat * Z) := filter (fun e => fst e <> p) l.

Lemma remove_absent p l : p ∉ map fst l -> remove p l = l.
Proof.
  induction l as [|[q k] l IH]; [done|]. cbn [map fst]. intros [H1 H2]%not_elem_of_cons. unfold remove in *.
  rewrite filter_cons_True by (by apply not_eq_sym). by rewrite IH.
Qed.

Lemma remove_split p k l1 l2 : NoDup (map fst (l1 ++ (p, k) :: l2)) -> remove p (l1 ++ (p, k) :: l2) = l1 ++ l2.
Proof.
  rewrite map_app. cbn [map fst]. intros (_ & H1 & [H2 _]%list.NoDup_cons)%list.NoDup_app. unfold remove.
  rewrite list.filter_app, filter_cons_False by (by intros []). f_equal; apply remove_absent; [|done].
  intros Hp. apply (H1 p); [done|by left].
Qed.

Section Laws.
Context {A : Type} `{TL : TimerTreeLaws A}.

Record inv (w : world A) (l : list (nat * Z)) : Prop := {
  i_holds : holds (timers w) l;
  i_ordered : ordered (due_order (ngx_current_msec w)) l;
  i_near : Forall (near (ngx_current_msec w)) (map snd l);
  i_set : forall p e, events w !! p = Some e -> (timer_set e = true <-> p ∈ map fst l);
  i_known : forall p, p ∈ map fst l -> is_Some (events w !! p);
  i_nodes : forall p, is_Some (events w !! p) -> node_at (timers w) p;
}.

(** What the timer operations leave alone. *)
Definition same (w w' : world A) : Prop :=
  ngx_current_msec w' = ngx_current_msec w
  /\ forall q, cancelable <$> events w' !! q = cancelable <$> events w !! q.

Lemma same_trans w1 w2 w3 : same w1 w2 -> same w2 w3 -> same w1 w3.
Proof. intros [H1 H2] [H3 H4]. split; [congruence|]. intros q. by rewrite H4. Qed.

Lemma same_event w w' q : same w w' -> is_Some (events w !! q) <-> is_Some (events w' !! q).
Proof.
  intros [_ H]. specialize (H q). split; intros [x Hx]; rewrite Hx in H; cbn in H.
  - by destruct (events w' !! q).
  - by destruct (events w !! q).
Qed.

(** A new tree and a new flag for one event. *)
Lemma inv_update w l p e g t l' :
  inv w l -> events w !! p = Some e -> cancelable (g e) = cancelable e ->
  holds t l' -> (forall q, node_at (timers w) q -> node_at t q) ->
  ordered (due_order (ngx_current_msec w)) l' -> Forall (near (ngx_current_msec w)) (map snd l') ->
  (timer_set (g e) = true <-> p ∈ map fst l') -> (forall q, q <> p -> q ∈ map fst l' <-> q ∈ map fst l) ->
  exists w', set_event p g (set_timers t w) = Some w' /\ inv w' l' /\ same w w' /\ timers w' = t
    /\ events w' = <[p := g e]> (events w).
Proof.
  intros H He Hc Ht Hn Ho Hr Hp Hq. unfold set_event. cbn [set_timers events]. rewrite He. bnd. eexists. split; [done|].
  split_and!; [|split; [done|]|done|done].
  - constructor; cbn; try done.
    + intros q e' Hqe. destruct (decide (q = p)) as [->|Hne]; [rewrite lookup_insert_eq in Hqe; by simplify_eq|].
      rewrite lookup_insert_ne in Hqe by done. rewrite Hq by done. by apply (i_set _ _ H).
    + intros q Hqm. destruct (decide (q = p)) as [->|Hne]; [rewrite lookup_insert_eq; by eexists|].
      rewrite lookup_insert_ne by done. apply (i_known _ _ H). by apply Hq.
    + intros q Hqm. apply Hn, (i_nodes _ _ H). destruct (decide (q = p)) as [->|Hne]; [by eexists|].
      by rewrite lookup_insert_ne in Hqm.
  - intros q. cbn. destruct (decide (q = p)) as [->|Hne]; [rewrite lookup_insert_eq, He; cbn; by rewrite Hc|].
    by rewrite lookup_insert_ne.
Qed.

(** Removing and adding elements keeps order and range. *)
Lemma ordered_app_remove f l1 (e : nat * Z) l2 : ordered f (l1 ++ e :: l2) -> ordered f (l1 ++ l2).
Proof.
  unfold ordered. rewrite !StronglySorted_app. intros (H1 & H2 & H3). apply StronglySorted_cons in H3 as [_ H3].
  split_and!; [|done|done]. intros x y Hx Hy. apply H1; [done|by right].
Qed.

Lemma elem_fst_insert_list less (e : nat * Z) l q : q ∈ map fst (insert_list less e l) <-> q = fst e \/ q ∈ map fst l.
Proof. rewrite (insert_list_perm less e l). cbn. by rewrite elem_of_cons. Qed.

Lemma elem_fst_app_remove (l1 : list (nat * Z)) p k l2 q : q <> p -> q ∈ map fst (l1 ++ l2) <-> q ∈ map fst (l1 ++ (p, k) :: l2).
Proof. intros H. rewrite !map_app. cbn. set_solver. Qed.

Lemma fst_not_removed (l1 : list (nat * Z)) p k l2 : NoDup (map fst (l1 ++ (p, k) :: l2)) -> p ∉ map fst (l1 ++ l2).
Proof.
  rewrite map_app, map_app. cbn. intros (_ & H1 & [H2 _]%list.NoDup_cons)%list.NoDup_app.
  intros [Hp|Hp]%elem_of_app; [|done]. apply (H1 p); [done|by left].
Qed.

Lemma del_ok w l1 p k l2 : inv w (l1 ++ (p, k) :: l2) -> exists w' e,
  ngx_event_del_timer p w = Some w' /\ inv w' (l1 ++ l2) /\ same w w'
  /\ events w !! p = Some e /\ events w' = <[p := set_timer_set false e]> (events w).
Proof.
  intros H. pose proof (i_holds _ _ H) as Ht. destruct (tt_delete_ok _ _ _ _ _ Ht) as (t & E1 & Ht' & Hn).
  assert (Hin : p ∈ map fst (l1 ++ (p, k) :: l2)) by (rewrite map_app; cbn; set_solver).
  destruct (i_known _ _ H p Hin) as [e He]. unfold ngx_event_del_timer. rewrite E1. bnd.
  edestruct (inv_update w _ p e (set_timer_set false) t (l1 ++ l2) H He) as (w' & E2 & I & S & _ & Ev); try done.
  - eapply ordered_app_remove, (i_ordered _ _ H).
  - pose proof (i_near _ _ H) as Hr. rewrite map_app in *. apply Forall_app in Hr as [? Hr]. cbn in Hr.
    apply list.Forall_cons in Hr as [_ ?]. by apply Forall_app.
  - cbn. split; [done|]. intros Hp. exfalso. revert Hp. eapply fst_not_removed, holds_NoDup, Ht.
  - intros q Hq. by apply elem_fst_app_remove.
  - exists w', e. by split_and!.
Qed.

Lemma start_ok w l p e key :
  inv w l -> events w !! p = Some e -> p ∉ map fst l -> near (ngx_current_msec w) key -> exists w',
  start_timer p key w = Some w' /\ inv w' (insert_list less_timer (p, key) l) /\ same w w'
  /\ events w' = <[p := set_timer_set true e]> (events w).
Proof.
  intros H He Hp Hk. pose proof (i_holds _ _ H) as Ht. pose proof (i_nodes _ _ H p ltac:(by eexists)) as Hnode.
  destruct (tt_set_key_ok _ _ _ key Ht Hnode Hp) as (t1 & E1 & Ht1 & Hk1 & Hn1).
  assert (Hall : Forall (near (ngx_current_msec w)) (key :: map snd l)) by (constructor; [done|apply (i_near _ _ H)]).
  assert (Hr := ranks_near _ ((p, key) :: l) Hall).
  destruct (tt_insert_ok t1 l p key _ Ht1 (Hn1 _ Hnode) Hp Hk1 (i_ordered _ _ H) Hr) as (t2 & E2 & Ht2 & Hn2).
  unfold start_timer. rewrite E1. bnd. rewrite E2. bnd.
  edestruct (inv_update w l p e (set_timer_set true) t2 (insert_list less_timer (p, key) l) H He) as (w' & E3 & I & S & _ & Ev);
    [done|exact Ht2|auto|by apply insert_list_ordered; [apply (i_ordered _ _ H)|]| | | |].
  - rewrite (insert_list_perm less_timer (p, key) l). done.
  - split; [|done]. intros _. apply elem_fst_insert_list. by left.
  - intros q Hq. rewrite elem_fst_insert_list. cbn. naive_solver.
  - exists w'. by split_and!.
Qed.

(** What ngx_event_add_timer makes of the list of timers. *)
Definition added (now : Z) (p : nat) (timer : Z) (l : list (nat * Z)) : list (nat * Z) :=
  insert_list less_timer (p, u64 (now + timer)) (remove p l).

Lemma add_ok w l p e timer :
  inv w l -> events w !! p = Some e -> Z.abs timer < 2 ^ 62 -> exists w' l',
  ngx_event_add_timer p timer w = Some w' /\ inv w' l' /\ same w w'
  /\ ((l' = added (ngx_current_msec w) p timer l /\ exists e', events w' = <[p := e']> (events w))
      \/ (w' = w /\ l' = l /\ exists k, (p, k) ∈ l /\ Z.abs (timer - due (ngx_current_msec w) k) < NGX_TIMER_LAZY_DELAY)).
Proof.
  intros H He Hr. unfold ngx_event_add_timer. rewrite He. bnd. set (key := u64 _).
  assert (Hk : near (ngx_current_msec w) key) by (unfold near, key; by rewrite due_add).
  pose proof (i_set _ _ H p e He) as Hs. destruct (timer_set e) eqn:Hts.
  - assert (Hin : p ∈ map fst l) by (by apply Hs). apply list_elem_of_fmap in Hin as ([p' k] & -> & Hin). cbn in *.
    rewrite (tt_key_ok _ _ _ _ (i_holds _ _ H) Hin). bnd.
    assert (Hnk : near (ngx_current_msec w) k).
    { pose proof (i_near _ _ H) as Hn. rewrite list.Forall_forall in Hn. apply Hn. apply list_elem_of_fmap. by exists (p', k). }
    rewrite (due_diff _ _ _ Hk Hnk). unfold key at 1. rewrite due_add by done.
    replace (ngx_abs (timer - due (ngx_current_msec w) k)) with (Z.abs (timer - due (ngx_current_msec w) k))
      by (unfold ngx_abs; rewrite Z.geb_leb; destruct (Z.leb_spec 0 (timer - due (ngx_current_msec w) k)); lia).
    case_if.
    + exists w, l. split_and!; [done|done|by split|]. right. split_and!; [done|done|]. exists k. split; [done|lia].
    + apply list_elem_of_split in Hin as (l1 & l2 & ->).
      destruct (del_ok _ _ _ _ _ H) as (w1 & e1 & -> & I1 & S1 & He1 & Ev1). bnd. simplify_eq.
      assert (Hnd := holds_NoDup _ _ (i_holds _ _ H)).
      edestruct (start_ok w1 _ p' (set_timer_set false e) key I1) as (w2 & -> & I2 & S2 & Ev2).
      * rewrite Ev1. by rewrite lookup_insert_eq.
      * by eapply fst_not_removed.
      * by rewrite (proj1 S1).
      * exists w2, (insert_list less_timer (p', key) (l1 ++ l2)). split_and!; [done|done|by eapply same_trans|].
        left. unfold added. rewrite (remove_split p' k) by done. split; [done|]. eexists. rewrite Ev2, Ev1. by rewrite insert_insert_eq.
  - assert (Hin : p ∉ map fst l) by (intros Hin; apply Hs in Hin; done).
    destruct (start_ok w l p e key H He Hin Hk) as (w' & -> & I & S & Ev).
    exists w', (insert_list less_timer (p, key) l). split_and!; try done. left. unfold added. rewrite remove_absent by done.
    split; [done|]. eauto.
Qed.

(** ** Expiry *)

Definition expired (now : Z) (l : list (nat * Z)) : list (nat * Z) := filter (fun e => due now (snd e) <= 0) l.

Lemma expired_insert now e l : 0 < due now (snd e) -> expired now (insert_list less_timer e l) = expired now l.
Proof.
  intros H. unfold expired. induction l as [|x l IH]; cbn [insert_list]; [by rewrite filter_cons_False by lia|].
  destruct (less_timer _ _); [by rewrite filter_cons_False by lia|]. rewrite !filter_cons, IH. done.
Qed.

Lemma expired_remove now p l : expired now (remove p l) `sublist_of` expired now l.
Proof.
  unfold expired, remove. induction l as [|x l IH]; [done|]. rewrite filter_cons. destruct (decide (fst x <> p)).
  - rewrite !filter_cons. destruct (decide _); [by constructor|done].
  - rewrite (filter_cons _ x l). destruct (decide _); [by constructor|done].
Qed.

(** What a handler may do: start a known timer for a positive time, stop one that is set. *)
Definition valid_op (w : world A) (o : op) : Prop :=
  match o with
  | Add p timer => is_Some (events w !! p) /\ 0 < timer < 2 ^ 62
  | Del p => exists e, events w !! p = Some e /\ timer_set e = true
  end.

Fixpoint valid_ops (os : list op) (w : world A) : Prop :=
  match os with
  | [] => True
  | o :: os => valid_op w o /\ forall w', run_op o w = Some w' -> valid_ops os w'
  end.

Lemma op_ok w l o : inv w l -> valid_op w o -> exists w' l', run_op o w = Some w' /\ inv w' l' /\ same w w'
  /\ expired (ngx_current_msec w) l' `sublist_of` expired (ngx_current_msec w) l.
Proof.
  intros H Ho. destruct o as [p timer|p]; cbn in *.
  - destruct Ho as [[e He] Ht]. destruct (add_ok w l p e timer H He ltac:(lia)) as (w' & l' & -> & I & S & Hl).
    exists w', l'. split_and!; try done. destruct Hl as [[-> _] | (_ & -> & _)]; [|done].
    unfold added. rewrite expired_insert; [apply expired_remove|]. cbn. rewrite due_add by lia. lia.
  - destruct Ho as (e & He & Hts). apply (i_set _ _ H p e He) in Hts. apply list_elem_of_fmap in Hts as ([p' k] & -> & Hin).
    apply list_elem_of_split in Hin as (l1 & l2 & ->). cbn in *.
    destruct (del_ok _ _ _ _ _ H) as (w' & e' & -> & I & S & _). exists w', (l1 ++ l2). split_and!; try done.
    rewrite <- (remove_split p' k) by (by eapply holds_NoDup, (i_holds _ _ H)). apply expired_remove.
Qed.

Lemma ops_ok os : forall w l, inv w l -> valid_ops os w -> exists w' l', run_ops os w = Some w' /\ inv w' l' /\ same w w'
  /\ expired (ngx_current_msec w) l' `sublist_of` expired (ngx_current_msec w) l /\ (os = [] -> l' = l).
Proof.
  induction os as [|o os IH]; intros w l H Hv; cbn.
  - exists w, l. by split_and!.
  - destruct Hv as [Ho Hv]. destruct (op_ok w l o H Ho) as (w1 & l1 & E1 & I1 & S1 & Sub1). rewrite E1. bnd.
    destruct (IH w1 l1 I1 (Hv _ E1)) as (w2 & l2 & -> & I2 & S2 & Sub2 & _). rewrite (proj1 S1) in Sub2.
    exists w2, l2. split_and!; try done; [by eapply same_trans|by etrans].
Qed.

Lemma expired_none now l p k : ordered (due_order now) ((p, k) :: l) -> 0 < due now k -> expired now ((p, k) :: l) = [].
Proof.
  unfold ordered, expired. intros [Ha _]%StronglySorted_cons Hk. rewrite filter_cons_False by (cbn; lia).
  induction Ha as [|x l Hx Ha IH]; [done|]. unfold due_order in Hx. cbn in Hx. rewrite filter_cons_False by lia. done.
Qed.

(** A timer that has expired is taken out and its event marked. *)
Lemma take_ok w p k l : inv w ((p, k) :: l) -> exists w',
  (t ← tt_delete p (timers w); w ← set_event p (set_timer_set false) (set_timers t w); set_event p (set_timedout true) w) = Some w'
  /\ inv w' l /\ same w w'.
Proof.
  intros H. destruct (del_ok w [] p k l H) as (w1 & e & E1 & I1 & S1 & He & Ev1). unfold ngx_event_del_timer in E1.
  destruct (tt_delete p (timers w)) as [t|]; [|done]. revert E1. bnd. intros E1. rewrite E1. bnd.
  assert (He1 : events w1 !! p = Some (set_timer_set false e)) by (rewrite Ev1; by rewrite lookup_insert_eq).
  edestruct (inv_update w1 l p _ (set_timedout true) (timers w1) l I1 He1) as (w2 & E2 & I2 & S2 & _ & _); try done.
  - apply (i_holds _ _ I1).
  - apply (i_ordered _ _ I1).
  - apply (i_near _ _ I1).
  - apply (i_set _ _ I1 _ _ He1).
  - exists w2. split_and!; [|done|by eapply same_trans]. destruct w1. exact E2.
Qed.

Lemma expire_ok handler fuel : forall w l,
  (length (expired (ngx_current_msec w) l) < fuel)%nat -> inv w l ->
  (forall p w l, inv w l -> valid_ops (handler p w) w) -> exists w' l' fired,
  ngx_event_expire_timers handler fuel w = Some (w', fired) /\ inv w' l' /\ same w w'
  /\ expired (ngx_current_msec w) l' = [] /\ fired `sublist_of` map fst (expired (ngx_current_msec w) l)
  /\ ((forall p w, handler p w = []) -> fired = map fst (expired (ngx_current_msec w) l)).
Proof.
  induction fuel as [|fuel IH]; intros w l Hf H Hv; [lia|]. cbn [ngx_event_expire_timers].
  rewrite (tt_empty_ok _ _ (i_holds _ _ H)). destruct l as [|[p k] l].
  { exists w, [], []. by split_and!. }
  rewrite (tt_min_ok _ _ _ _ (i_holds _ _ H)). bnd. rewrite (tt_key_ok _ _ p k (i_holds _ _ H)) by (by left). bnd.
  change (i64 (k - ngx_current_msec w)) with (due (ngx_current_msec w) k). rewrite Z.gtb_ltb.
  destruct (Z.ltb_spec 0 (due (ngx_current_msec w) k)) as [Hk|Hk].
  { rewrite (expired_none _ _ _ _ (i_ordered _ _ H) Hk). exists w, ((p, k) :: l), []. split_and!; try done.
    by apply (expired_none _ _ _ _ (i_ordered _ _ H)). }
  destruct (take_ok _ _ _ _ H) as (w1 & E1 & I1 & S1). destruct (tt_delete p (timers w)) as [t|]; [|done].
  revert E1. bnd. destruct (set_event p (set_timer_set false) _) as [w0|]; [|done]. bnd. intros E1. rewrite E1. bnd.
  destruct (ops_ok (handler p w1) w1 l I1 (Hv _ _ _ I1)) as (w2 & l2 & -> & I2 & S2 & Sub & Hnil). bnd.
  assert (S12 : same w w2) by (by eapply same_trans). rewrite (proj1 S1) in Sub.
  assert (Hcons : expired (ngx_current_msec w) ((p, k) :: l) = (p, k) :: expired (ngx_current_msec w) l).
  { unfold expired. by rewrite filter_cons_True. }
  rewrite Hcons in *. cbn [length] in Hf. pose proof (sublist_length _ _ Sub) as Hlen.
  destruct (IH w2 l2) as (w3 & l3 & fired & -> & I3 & S3 & Hex & Hsub & Hq); [rewrite (proj1 S12); lia|done|done|].
  bnd. rewrite (proj1 S12) in *. exists w3, l3, (p :: fired). split_and!; try done; [by eapply same_trans| |].
  - cbn. constructor. etrans; [exact Hsub|]. by apply (fmap_sublist fst).
  - intros Hsil. cbn. rewrite (Hq Hsil), (Hnil (Hsil _ _)). done.
Qed.

(** ** The properties *)

(** C18. ngx_event_add_timer keeps the timers consistent with the events, and the timer
    of the event is then due in the time asked for, up to the tolerance of
    NGX_TIMER_LAZY_DELAY when it was already set; no other timer moves. *)
Theorem add_timer_correct w l p timer :
  inv w l -> is_Some (events w !! p) -> 0 <= timer < 2 ^ 62 -> exists w' l' k,
  ngx_event_add_timer p timer w = Some w' /\ inv w' l' /\ same w w'
  /\ (p, k) ∈ l' /\ Z.abs (due (ngx_current_msec w) k - timer) < NGX_TIMER_LAZY_DELAY
  /\ (forall q kq, q <> p -> (q, kq) ∈ l' <-> (q, kq) ∈ l).
Proof.
  intros H [e He] Ht. destruct (add_ok w l p e timer H He ltac:(lia)) as (w' & l' & E1 & I & S & [[-> _] | (-> & -> & k & Hk & Hd)]).
  - exists w', (added (ngx_current_msec w) p timer l), (u64 (ngx_current_msec w + timer)). unfold added in *.
    rewrite due_add, Z.sub_diag by lia. split_and!; try done.
    + rewrite insert_list_perm. by left.
    + intros q kq Hq. rewrite insert_list_perm, elem_of_cons. unfold remove. rewrite list_elem_of_filter. cbn. naive_solver.
  - exists w, l, k. split_and!; try done. lia.
Qed.

(** ngx_event_find_timer returns the time to the nearest timer, 0 if one has expired,
    and NGX_TIMER_INFINITE if there is none: a worker that waits so long misses none. *)
Theorem find_timer_correct w l :
  inv w l -> exists r, ngx_event_find_timer w = Some r
  /\ match l with
     | [] => r = NGX_TIMER_INFINITE
     | _ => (forall p k, (p, k) ∈ l -> r <= Z.max 0 (due (ngx_current_msec w) k))
            /\ exists p k, (p, k) ∈ l /\ r = Z.max 0 (due (ngx_current_msec w) k)
     end.
Proof.
  intros H. unfold ngx_event_find_timer. rewrite (tt_empty_ok _ _ (i_holds _ _ H)). destruct l as [|[p k] l]; [by eexists|].
  rewrite (tt_min_ok _ _ _ _ (i_holds _ _ H)). bnd. rewrite (tt_key_ok _ _ p k (i_holds _ _ H)) by (by left). bnd.
  change (i64 (k - ngx_current_msec w)) with (due (ngx_current_msec w) k). eexists. split; [done|].
  assert (Hm : (if due (ngx_current_msec w) k >? 0 then due (ngx_current_msec w) k else 0) = Z.max 0 (due (ngx_current_msec w) k)).
  { rewrite Z.gtb_ltb. destruct (Z.ltb_spec 0 (due (ngx_current_msec w) k)); lia. }
  rewrite Hm. split.
  - pose proof (i_ordered _ _ H) as Ho. apply StronglySorted_cons in Ho as [Ho _]. rewrite list.Forall_forall in Ho.
    intros q kq [[= <- <-] | Hq]%elem_of_cons; [lia|]. specialize (Ho _ Hq). unfold due_order in Ho. cbn in Ho. lia.
  - exists p, k. split; [by left|done].
Qed.

(** C19. ngx_event_expire_timers ends when the handlers start timers for positive times
    only: one round for each timer that had expired is enough.  It leaves no expired
    timer, calls handlers only of expired timers, in the order of expiry and once each,
    and of all of them when the handlers leave the timers alone. *)
Theorem expire_timers_correct handler w l :
  inv w l -> (forall p w l, inv w l -> valid_ops (handler p w) w) -> exists w' l' fired,
  ngx_event_expire_timers handler (S (length (expired (ngx_current_msec w) l))) w = Some (w', fired)
  /\ inv w' l' /\ same w w' /\ (forall p k, (p, k) ∈ l' -> 0 < due (ngx_current_msec w') k)
  /\ fired `sublist_of` map fst (expired (ngx_current_msec w) l)
  /\ ((forall p w, handler p w = []) -> fired = map fst (expired (ngx_current_msec w) l)).
Proof.
  intros H Hv. destruct (expire_ok handler _ w l (Nat.lt_succ_diag_r _) H Hv) as (w' & l' & fired & E1 & I & S & Hex & Hs & Hq).
  exists w', l', fired. split_and!; try done. intros p k Hp. rewrite (proj1 S).
  destruct (Z.le_gt_cases (due (ngx_current_msec w) k) 0) as [Hle|]; [|lia].
  exfalso. apply (filter_nil_not_elem_of _ _ (p, k) Hex); done.
Qed.

Lemma no_timers_loop_ok w fuel : forall l1 l2 l,
  inv w l -> l = l1 ++ l2 -> (length l2 < fuel)%nat ->
  no_timers_loop fuel (fst <$> head l2) w
    = Some (if forallb (fun p => default false (cancelable <$> events w !! p)) (map fst l2) then NGX_OK else NGX_AGAIN).
Proof.
  induction fuel as [|fuel IH]; intros l1 l2 l H -> Hf; [lia|]. destruct l2 as [|[p k] l2]; [done|]. cbn.
  destruct (i_known _ _ H p) as [e He]; [rewrite map_app; cbn; set_solver|]. rewrite He. bnd. cbn.
  destruct (cancelable e); [|done]. cbn. rewrite (tt_next_ok _ _ _ _ _ (i_holds _ _ H)). bnd.
  apply (IH (l1 ++ [(p, k)]) _ _ H); [by rewrite <- app_assoc|]. cbn in Hf. lia.
Qed.

(** ngx_event_no_timers_left says NGX_OK exactly when every running timer is
    cancelable, so that a worker may exit. *)
Theorem no_timers_left_correct w l :
  inv w l -> ngx_event_no_timers_left (S (length l)) w
    = Some (if forallb (fun p => default false (cancelable <$> events w !! p)) (map fst l) then NGX_OK else NGX_AGAIN).
Proof.
  intros H. unfold ngx_event_no_timers_left. rewrite (tt_empty_ok _ _ (i_holds _ _ H)). destruct l as [|[p k] l]; [done|].
  rewrite (tt_min_ok _ _ _ _ (i_holds _ _ H)). bnd. by apply (no_timers_loop_ok w _ [] ((p, k) :: l) _ H); [|lia].
Qed.

End Laws.

(** ** The red-black tree has the interface *)

(** ngx_rbtree_t with the memory of its nodes. *)
Record ngx_rbtree_t := RbTree { rb_state : state; sentinel : nat }.

Definition lift (t : ngx_rbtree_t) (st : option state) : option ngx_rbtree_t :=
  st ← st; Some (RbTree st (sentinel t)).

#[global] Instance rbtree_timers : TimerTree ngx_rbtree_t := {
  tt_empty t := (root (rb_state t) =? sentinel t)%nat;
  tt_min t := ngx_rbtree_min (sentinel t) (root (rb_state t)) (rb_state t);
  tt_next p t := ngx_rbtree_next (sentinel t) p (rb_state t);
  tt_key p t := key <$> rd p (rb_state t);
  tt_set_key p k t := lift t (wr p (fun n => Node k (left n) (right n) (parent n) (red n)) (rb_state t));
  tt_insert p t := lift t (ngx_rbtree_insert (sentinel t) less_timer p (rb_state t));
  tt_delete p t := lift t (ngx_rbtree_delete (sentinel t) p (rb_state t));
}.

(** ngx_event_timer_init *)
Definition ngx_event_timer_init (s : nat) (m : gmap nat node) : option ngx_rbtree_t :=
  st ← wr s (set_red false) (MkState m 0); Some (RbTree (set_root s st) s).

Definition rb_node_at (t : ngx_rbtree_t) (p : nat) : Prop := p <> sentinel t /\ p ∈ dom (mem (rb_state t)).

Lemma rb_set_key t l p k :
  is_tree (sentinel t) (rb_state t) l -> rb_node_at t p -> p ∉ map fst l -> exists t',
  tt_set_key p k t = Some t' /\ is_tree (sentinel t') (rb_state t') l /\ tt_key p t' = Some k
  /\ (forall q, rb_node_at t q -> rb_node_at t' q).
Proof.
  intros (rp & u & h & G & B & C & El) [Hps [n Hn]%elem_of_dom] Hp. cbn. unfold lift. rewrite (wr_lookup _ _ _ _ Hn). bnd.
  eexists. split; [done|]. cbn [sentinel rb_state]. split_and!.
  - exists rp, u, h. split_and!; try done. eapply good_same; [exact G|done|]. cbn. intros q Hq.
    rewrite lookup_insert_ne; [done|]. intros <-. rewrite <- El, elems_ids in Hp. set_solver.
  - unfold rd. cbn. by rewrite lookup_insert_eq.
  - intros q [Hq1 Hq2]. split; [done|]. cbn. by rewrite dom_insert_lookup_L.
Qed.

#[global] Instance rbtree_timers_laws : TimerTreeLaws ngx_rbtree_t.
Proof.
  refine {| holds := fun t l => is_tree (sentinel t) (rb_state t) l; node_at := rb_node_at |}.
  - intros t l H. by apply is_tree_NoDup in H as [? _].
  - intros t l H. by apply is_tree_root.
  - intros t p k l H. by eapply min_ok.
  - intros t l1 p k l2 H. by eapply next_ok.
  - intros t l p k H Hin. destruct (is_tree_read _ _ _ _ _ H Hin) as (n & Hn & Hk). cbn. unfold rd. rewrite Hn. cbn. by rewrite Hk.
  - intros t l p k. apply rb_set_key.
  - intros t l p k f H [Hps Hd] Hp Hk Ho Hr. cbn in *. unfold rd in Hk. destruct (mem (rb_state t) !! p) as [n|] eqn:Hn; [|done].
    injection Hk as <-. destruct (insert_ok _ _ _ _ _ _ _ H Hn Hp Hps Ho Hr) as (st' & E1 & Ht & _). unfold lift. rewrite E1. bnd.
    eexists. split; [done|]. split; [done|]. intros q [? ?]. split; [done|]. cbn. by rewrite (insert_dom _ _ _ _ _ E1).
  - intros t l1 p k l2 H. cbn in *. destruct (delete_ok _ _ _ _ _ _ H) as (st' & E1 & Ht & _). unfold lift. rewrite E1. bnd.
    eexists. split; [done|]. split; [done|]. intros q [? ?]. split; [done|]. cbn. by rewrite (delete_dom _ _ _ _ E1).
Defined.

(** A new tree has no timers. *)
Lemma timer_init_ok s m n evs now :
  m !! s = Some n -> evs !! s = None -> (forall p e, evs !! p = Some e -> timer_set e = false /\ is_Some (m !! p)) ->
  exists t, ngx_event_timer_init s m = Some t /\ inv (World t evs now) [].
Proof.
  intros Hn Hs He. unfold ngx_event_timer_init. rewrite (wr_lookup _ _ (MkState m 0) n) by done. bnd. eexists. split; [done|].
  constructor; cbn; [|by apply SSorted_nil|by apply list.Forall_nil| |intros p Hp; by apply elem_of_nil in Hp|].
  - exists 0%nat, E, 0%nat. split_and!; [|done|done|done]. constructor; cbn; [done|done|apply NoDup_nil_2|apply not_elem_of_nil|].
    exists (set_red false n). rewrite lookup_insert_eq. by destruct n.
  - intros p e Hp. destruct (He p e Hp) as [-> _]. by rewrite elem_of_nil.
  - intros p [e Hp]. split; cbn; [intros ->; congruence|]. destruct (He p e Hp) as [_ [x Hx]]. rewrite dom_insert_lookup_L by done.
    apply elem_of_dom. eauto.
Qed.

(** Three events; the clock is 60 ms before the wrap-around when two timers are started,
    for 100 and for 50 ms, and 55 ms pass. *)
Definition demo_events : gmap nat event :=
  list_to_map [(1%nat, Event false false false); (2%nat, Event false false true); (3%nat, Event false false false)].
Definition demo_start : option (world ngx_rbtree_t) :=
  t ← ngx_event_timer_init 100 demo_mem;
  run_ops [Add 1 100; Add 2 50] (World t demo_events (2 ^ 64 - 60)).
Definition demo_world : world ngx_rbtree_t :=
  match demo_start with
  | Some w => World (timers w) (events w) (2 ^ 64 - 5)
  | None => World (RbTree (MkState ∅ 0) 0) ∅ 0
  end.

Lemma demo_inv : inv demo_world [(2%nat, 2 ^ 64 - 10); (1%nat, 40)].
Proof.
  constructor.
  - exists 0%nat, (T false (T true E 2 (2 ^ 64 - 10) E) 1 40 E), 1%nat. split_and!; [|by exists 0%nat|done|done].
    constructor; [vm_compute; auto|vm_compute; auto|by_evaluation|by_evaluation|]. by eexists.
  - repeat constructor; by_evaluation.
  - repeat constructor; by_evaluation.
  - assert (H : map_Forall (fun p e => timer_set e = true <-> p ∈ [2%nat; 1%nat]) (events demo_world)) by by_evaluation. exact H.
  - assert (H : Forall (fun p => is_Some (events demo_world !! p)) [2%nat; 1%nat]) by by_evaluation. by rewrite list.Forall_forall in H.
  - intros p [e He]. assert (H : map_Forall (fun p (_ : event) => p <> 100%nat /\ p ∈ dom (mem (rb_state (timers demo_world)))) (events demo_world)) by by_evaluation.
    exact (H p e He).
Qed.

Lemma add_timer_correct_witness : exists w' l' k,
  ngx_event_add_timer 3 200 demo_world = Some w' /\ inv w' l' /\ (3%nat, k) ∈ l'.
Proof.
  destruct (add_timer_correct demo_world _ 3 200 demo_inv) as (w' & l' & k & H1 & H2 & _ & H3 & _).
  - by_evaluation.
  - lia.
  - exists w', l', k. exact (conj H1 (conj H2 H3)).
Defined.

Lemma find_timer_correct_witness : exists r, ngx_event_find_timer demo_world = Some r
  /\ exists p k, (p, k) ∈ [(2%nat, 2 ^ 64 - 10); (1%nat, 40)] /\ r = Z.max 0 (due (ngx_current_msec demo_world) k).
Proof. destruct (find_timer_correct demo_world _ demo_inv) as (r & H1 & _ & H2). exists r. exact (conj H1 H2). Defined.

(** Each event starts its timer again when it expires. *)
Definition demo_handler (p : nat) (w : world ngx_rbtree_t) : list op :=
  match events w !! p with Some _ => [Add p 500] | None => [] end.

Lemma expire_timers_correct_witness : exists w' l' fired,
  ngx_event_expire_timers demo_handler 2 demo_world = Some (w', fired) /\ inv w' l' /\ fired `sublist_of` [2%nat].
Proof.
  destruct (expire_timers_correct demo_handler demo_world _ demo_inv) as (w' & l' & fired & H1 & H2 & _ & _ & H3 & _).
  - intros p w l _. unfold demo_handler. destruct (events w !! p) eqn:E; cbn; [|done]. rewrite E. split; [|done]. split; [by eexists|lia].
  - exists w', l', fired. exact (conj H1 (conj H2 H3)).
Defined.

Example expire_ex :
  (fun r => (snd r, ngx_event_find_timer (fst r))) <$> ngx_event_expire_timers demo_handler 2 demo_world
    = Some ([2%nat], Some 45).
Proof. vm_compute. reflexivity. Qed.

Lemma no_timers_left_correct_witness : ngx_event_no_timers_left 3 demo_world = Some NGX_AGAIN.
Proof. exact (no_timers_left_correct demo_world _ demo_inv). Defined.
