(* ===== verification/RadixTree.v ===== *)
(** * Radix trees: core/ngx_radix_tree.c and core/ngx_radix_tree.h

    Maps from address prefixes to values, used by the geo and access modules: the nodes
    are structures in memory with pointers to their children and parent, and deleted nodes
    are kept in a list for reuse.  The versions for IPv4 and IPv6 addresses are the same
    walk along the bits of a key; they differ in how they get at the bits.

    Memory is a finite map from addresses to nodes; NULL is address 0, where there is no
    node, and an access outside the map has no result.  Addresses count nodes; a page holds
    [page_nodes] of them.  The pool hands out pages at increasing addresses as long as there
    are some left; then an allocation returns NULL. *)

From S2P Require Import Prelude.

Module Radix.

Definition NGX_RADIX_NO_VALUE : Z := 2 ^ 64 - 1.

(** ngx_radix_node_t *)
Record node := Node { right : nat; left : nat; parent : nat; value : Z }.

(** ngx_radix_tree_t; [size] counts the nodes left in the page at [start], [pool] is the
    next page and [pages] the number of pages the pool can still give. *)
Record state := MkState {
  mem : gmap nat node; root : nat; free : nat; start : nat; size : nat; pool : nat; pages : nat }.

Definition page_nodes : nat := 128.

Definition set_mem (m : gmap nat node) (st : state) : state :=
  MkState m (root st) (free st) (start st) (size st) (pool st) (pages st).
Definition set_free (p : nat) (st : state) : state :=
  MkState (mem st) (root st) p (start st) (size st) (pool st) (pages st).

Definition wr (p : nat) (f : node -> node) (st : state) : option state :=
  n ← mem st !! p; Some (set_mem (<[p := f n]> (mem st)) st).

Definition set_value (v : Z) (n : node) : node := Node (right n) (left n) (parent n) v.
(** [true] is the right child. *)
Definition set_child (d : bool) (p : nat) (n : node) : node :=
  if d then Node p (left n) (parent n) (value n) else Node (right n) p (parent n) (value n).
Definition child (d : bool) (n : node) : nat := if d then right n else left n.

(** ngx_radix_alloc *)
Definition ngx_radix_alloc (st : state) : option (nat * state) :=
  if negb (free st =? 0)%nat then
    n ← mem st !! free st;
    Some (free st, set_free (right n) st)
  else
    if (size st <? 1)%nat then
      match pages st with
      | O => Some (0%nat, MkState (mem st) (root st) (free st) 0 (size st) (pool st) 0)
      | S k =>
          (* tree->start is the new page, tree->size its size *)
          Some (pool st, MkState (mem st) (root st) (free st) (S (pool st)) (pred page_nodes) (pool st + page_nodes) k)
      end
    else Some (start st, MkState (mem st) (root st) (free st) (S (start st)) (pred (size st)) (pool st) (pages st)).

(** ** The walk along a prefix *)

(** The first loop of an insertion: follow the bits as long as there are nodes.  The
    result is the last node and the bits that are left, none if [next] is not NULL. *)
Fixpoint follow (path : list bool) (p : nat) (st : state) : option (nat * list bool) :=
  match path with
  | [] => Some (p, [])
  | d :: rest =>
      n ← mem st !! p;
      if (child d n =? 0)%nat then Some (p, path) else follow rest (child d n) st
  end.

(** The second loop: new nodes for the other bits; 0 if there is no memory. *)
Fixpoint grow (path : list bool) (p : nat) (st : state) : option (nat * state) :=
  match path with
  | [] => Some (p, st)
  | d :: rest =>
      '(next, st) ← ngx_radix_alloc st;
      if (next =? 0)%nat then Some (0%nat, st)
      else
        let st := set_mem (<[next := Node 0 0 p NGX_RADIX_NO_VALUE]> (mem st)) st in
        st ← wr p (set_child d next) st;
        grow rest next st
  end.

(** ngx_radix32tree_insert and ngx_radix128tree_insert, after the bits *)
Definition insert (path : list bool) (v : Z) (st : state) : option (Z * state) :=
  '(p, rest) ← follow path (root st) st;
  match rest with
  | [] =>
      n ← mem st !! p;
      if negb (value n =? NGX_RADIX_NO_VALUE) then Some (NGX_BUSY, st)
      else st ← wr p (set_value v) st; Some (NGX_OK, st)
  | _ =>
      '(p, st) ← grow rest p st;
      if (p =? 0)%nat then Some (NGX_ERROR, st)
      else st ← wr p (set_value v) st; Some (NGX_OK, st)
  end.

(** The loop of a deletion that looks for the node: [None] inside is NULL. *)
Fixpoint locate (path : list bool) (p : nat) (st : state) : option (option nat) :=
  if (p =? 0)%nat then Some None
  else
    match path with
    | [] => Some (Some p)
    | d :: rest => n ← mem st !! p; locate rest (child d n) st
    end.

(** The loop that takes nodes out, up to one that is still needed. *)
Fixpoint prune (fuel : nat) (p : nat) (st : state) : option state :=
  match fuel with
  | O => None
  | S fuel =>
      n ← mem st !! p;
      u ← mem st !! parent n;
      st ← (if (right u =? p)%nat then wr (parent n) (set_child true 0) st
            else wr (parent n) (set_child false 0) st);
      st ← wr p (set_child true (free st)) st;
      let st := set_free p st in
      u ← mem st !! parent n;
      if negb (right u =? 0)%nat || negb (left u =? 0)%nat then Some st
      else if negb (value u =? NGX_RADIX_NO_VALUE) then Some st
      else if (parent u =? 0)%nat then Some st
      else prune fuel (parent n) st
  end.

(** ngx_radix32tree_delete and ngx_radix128tree_delete, after the bits *)
Definition delete (path : list bool) (st : state) : option (Z * state) :=
  p ← locate path (root st) st;
  match p with
  | None => Some (NGX_ERROR, st)
  | Some p =>
      n ← mem st !! p;
      if negb (right n =? 0)%nat || negb (left n =? 0)%nat then
        if negb (value n =? NGX_RADIX_NO_VALUE)
        then st ← wr p (set_value NGX_RADIX_NO_VALUE) st; Some (NGX_OK, st)
        else Some (NGX_ERROR, st)
      else st ← prune (S (length path)) p st; Some (NGX_OK, st)
  end.

(** The loop of a search; [past] is the bit that is read behind the key, if any. *)
Fixpoint find_loop (past : option bool) (fuel : nat) (path : list bool) (p : nat) (v : Z) (st : state) : option Z :=
  match fuel with
  | O => None
  | S fuel =>
      if (p =? 0)%nat then Some v
      else
        n ← mem st !! p;
        let v := if negb (value n =? NGX_RADIX_NO_VALUE) then value n else v in
        match path with
        | d :: rest => find_loop past fuel rest (child d n) v st
        | [] => d ← past; find_loop past fuel [] (child d n) v st
        end
  end.

(** ** The bits of a key *)

(** while (bit & mask): the bits of a 32-bit key below [bit], up to the first zero of the
    mask. *)
Fixpoint prefix32 (fuel : nat) (bit key mask : Z) : list bool :=
  match fuel with
  | O => []
  | S fuel =>
      if negb (Z.land bit mask =? 0)
      then negb (Z.land key bit =? 0) :: prefix32 fuel (Z.shiftr bit 1) key mask
      else []
  end.

(** The same for 16 bytes; the byte is left when its bit becomes zero. *)
Fixpoint prefix8 (fuel : nat) (bit key mask : Z) (rest : list bool) : list bool :=
  match fuel with
  | O => rest
  | S fuel =>
      if negb (Z.land bit mask =? 0)
      then negb (Z.land key bit =? 0) :: prefix8 fuel (Z.shiftr bit 1) key mask rest
      else []
  end.

Fixpoint prefix128 (key mask : list Z) : list bool :=
  match key, mask with
  | k :: key, m :: mask => prefix8 8 0x80 k m (prefix128 key mask)
  | _, _ => []
  end.

Definition ngx_radix32tree_insert (key mask v : Z) : state -> option (Z * state) :=
  insert (prefix32 32 0x80000000 key mask) v.
Definition ngx_radix32tree_delete (key mask : Z) : state -> option (Z * state) :=
  delete (prefix32 32 0x80000000 key mask).
(** Behind the last bit of a key [bit] is zero, and [key & bit] too. *)
Definition ngx_radix32tree_find (key : Z) (st : state) : option Z :=
  find_loop (Some false) 34 (prefix32 32 0x80000000 key 0xffffffff) (root st) NGX_RADIX_NO_VALUE st.

Definition ngx_radix128tree_insert (key mask : list Z) (v : Z) : state -> option (Z * state) :=
  insert (prefix128 key mask) v.
Definition ngx_radix128tree_delete (key mask : list Z) : state -> option (Z * state) :=
  delete (prefix128 key mask).
(** Behind the last bit of a key key[16] is read. *)
Definition ngx_radix128tree_find (past : option bool) (key : list Z) (st : state) : option Z :=
  find_loop past 130 (prefix128 key (replicate 16 0xff)) (root st) NGX_RADIX_NO_VALUE st.

(** ** Creation *)

(** The tree up to the preallocation; inside, [None] is NULL. *)
Definition new_root (base pgs : nat) : option (option state) :=
  '(p, st) ← ngx_radix_alloc (MkState ∅ 0 0 0 0 base pgs);
  if (p =? 0)%nat then Some None
  else Some (Some (MkState (<[p := Node 0 0 0 NGX_RADIX_NO_VALUE]> (mem st)) p (free st) (start st) (size st) (pool st)
                           (pages st))).

(** The inner loop of the preallocation, do ... while (key). *)
Fixpoint preallocate_level (fuel : nat) (key inc mask : Z) (st : state) : option (option state) :=
  match fuel with
  | O => None
  | S fuel =>
      '(rc, st) ← ngx_radix32tree_insert key mask NGX_RADIX_NO_VALUE st;
      if negb (rc =? NGX_OK) then Some None
      else
        let key := u32 (key + inc) in
        if key =? 0 then Some (Some st) else preallocate_level fuel key inc mask st
  end.

Fixpoint preallocate_levels (n : nat) (inc mask : Z) (st : state) : option (option state) :=
  match n with
  | O => Some (Some st)
  | S n =>
      let mask := Z.lor (Z.shiftr mask 1) 0x80000000 in
      r ← preallocate_level (Z.to_nat (2 ^ 32 / inc)) 0 inc mask st;
      match r with
      | None => Some None
      | Some st => preallocate_levels n (Z.shiftr inc 1) mask st
      end
  end.

(** ngx_radix_tree_create with 4K pages on a 64-bit machine, where [-1] stands for 6. *)
Definition ngx_radix_tree_create (base pgs : nat) (preallocate : Z) : option (option state) :=
  r ← new_root base pgs;
  match r with
  | None => Some None
  | Some st => preallocate_levels (Z.to_nat (if preallocate =? -1 then 6 else preallocate)) 0x80000000 0 st
  end.

(** Addresses inside nested prefixes, and a deletion. *)
Definition demo : option (list Z) :=
  st ← mjoin (ngx_radix_tree_create 1 1 2);
  '(r1, st) ← ngx_radix32tree_insert 0x0a000000 0xff000000 1 st;
  '(r2, st) ← ngx_radix32tree_insert 0x0a010000 0xffff0000 2 st;
  '(r3, st) ← ngx_radix32tree_insert 0x0a010000 0xffff0000 3 st;
  v1 ← ngx_radix32tree_find 0x0a010203 st;
  v2 ← ngx_radix32tree_find 0x0a020203 st;
  '(r4, st) ← ngx_radix32tree_delete 0x0a010000 0xffff0000 st;
  '(r5, st) ← ngx_radix32tree_delete 0x0a010000 0xffff0000 st;
  v3 ← ngx_radix32tree_find 0x0a010203 st;
  Some [r1; r2; r3; v1; v2; r4; r5; v3].

Example radix_ex : demo = Some [NGX_OK; NGX_OK; NGX_BUSY; 2; 1; NGX_OK; NGX_ERROR; 1].
Proof. vm_compute. reflexivity. Qed.

(** ** The links *)

Inductive trie := RE | RN (p : nat) (v : Z) (l r : trie).

(** The node [p] with the child [a] on side [d] and [b] on the other one. *)
Definition mk (d : bool) (p : nat) (v : Z) (a b : trie) : trie := if d then RN p v b a else RN p v a b.
Definition mknode (d : bool) (a b u : nat) (v : Z) : node := if d then Node a b u v else Node b a u v.

Definition ptr (t : trie) : nat := match t with RE => 0 | RN p _ _ _ => p end.
Fixpoint ids (t : trie) : list nat := match t with RE => [] | RN p _ l r => p :: ids l ++ ids r end.
Definition sub (d : bool) (t : trie) : trie := match t with RE => RE | RN _ _ l r => if d then r else l end.

Lemma radix_ids_mk d p v a b : ids (mk d p v a b) ≡ₚ p :: ids a ++ ids b.
Proof. destruct d; cbn; [by rewrite (Permutation_app_comm (ids a))|done]. Qed.
Lemma radix_ptr_mk d p v a b : ptr (mk d p v a b) = p.
Proof. by destruct d. Qed.
Lemma mk_sub d p v l r : RN p v l r = mk d p v (sub d (RN p v l r)) (sub (negb d) (RN p v l r)).
Proof. by destruct d. Qed.
Lemma radix_child_mknode d a b u v : child d (mknode d a b u v) = a.
Proof. by destruct d. Qed.
Lemma radix_set_child_mknode d a b u v x : set_child d x (mknode d a b u v) = mknode d x b u v.
Proof. by destruct d. Qed.
Lemma set_value_mknode d a b u v x : set_value x (mknode d a b u v) = mknode d a b u x.
Proof. by destruct d. Qed.
Lemma radix_parent_mknode d a b u v : parent (mknode d a b u v) = u.
Proof. by destruct d. Qed.
Lemma value_mknode d a b u v : value (mknode d a b u v) = v.
Proof. by destruct d. Qed.

Create HintDb rx.
#[export] Hint Rewrite radix_child_mknode radix_set_child_mknode set_value_mknode radix_parent_mknode value_mknode : rx.

(** A step of the path from the focus to the root. *)
Record frame := F { f_dir : bool; f_ptr : nat; f_val : Z; f_sib : trie }.

Definition up (ctx : list frame) : nat := match ctx with [] => 0 | f :: _ => f_ptr f end.
Definition fill (f : frame) (t : trie) : trie := mk (f_dir f) (f_ptr f) (f_val f) t (f_sib f).
Fixpoint plug (ctx : list frame) (t : trie) : trie := match ctx with [] => t | f :: ctx => plug ctx (fill f t) end.
Fixpoint cids (ctx : list frame) : list nat := match ctx with [] => [] | f :: ctx => f_ptr f :: ids (f_sib f) ++ cids ctx end.
(** The bits that lead to the focus. *)
Fixpoint cpath (ctx : list frame) : list bool := match ctx with [] => [] | f :: ctx => cpath ctx ++ [f_dir f] end.

Lemma radix_ids_plug ctx : forall t, ids (plug ctx t) ≡ₚ ids t ++ cids ctx.
Proof.
  induction ctx as [|[d p v b] ctx IH]; intros t; cbn [plug cids f_ptr f_sib]; [by rewrite app_nil_r|].
  rewrite IH. unfold fill. rewrite radix_ids_mk. cbn. rewrite <- Permutation_middle. by rewrite app_assoc.
Qed.

Fixpoint rep (m : gmap nat node) (u : nat) (t : trie) : Prop :=
  match t with
  | RE => True
  | RN p v l r => m !! p = Some (Node (ptr r) (ptr l) u v) /\ rep m p l /\ rep m p r
  end.

Fixpoint repc (m : gmap nat node) (rt f : nat) (ctx : list frame) : Prop :=
  match ctx with
  | [] => rt = f
  | F d p v b :: ctx => m !! p = Some (mknode d f (ptr b) (up ctx) v) /\ rep m p b /\ repc m rt p ctx
  end.

Lemma radix_rep_mk m u d p v a b :
  rep m u (mk d p v a b) <-> m !! p = Some (mknode d (ptr a) (ptr b) u v) /\ rep m p a /\ rep m p b.
Proof. destruct d; cbn; tauto. Qed.

Lemma radix_rep_frame m m' u t : (forall p, p ∈ ids t -> m' !! p = m !! p) -> rep m u t -> rep m' u t.
Proof.
  revert u. induction t as [|p v l IHl r IHr]; intros u H; [done|]. cbn in *. intros (H1 & H2 & H3).
  rewrite H by set_solver. split_and!; [done|apply IHl; [set_solver|done]|apply IHr; [set_solver|done]].
Qed.

Lemma radix_repc_frame m m' rt f ctx : (forall p, p ∈ cids ctx -> m' !! p = m !! p) -> repc m rt f ctx -> repc m' rt f ctx.
Proof.
  revert f. induction ctx as [|[d p v b] ctx IH]; intros f H; [done|]. cbn in *. intros (H1 & H2 & H3).
  rewrite H by set_solver. split_and!; [done| |apply IH; [set_solver|done]]. eapply radix_rep_frame; [|done]. set_solver.
Qed.

(** ** The nodes that are not in use *)

Fixpoint free_list (m : gmap nat node) (p : nat) (fl : list nat) : Prop :=
  match fl with
  | [] => p = 0%nat
  | x :: fl => p = x /\ exists n, m !! x = Some n /\ free_list m (right n) fl
  end.

Lemma free_list_frame m m' p fl : (forall x, x ∈ fl -> m' !! x = m !! x) -> free_list m p fl -> free_list m' p fl.
Proof.
  revert p. induction fl as [|x fl IH]; intros p H; [done|]. cbn. intros (-> & n & Hn & Hf). split; [done|]. exists n.
  rewrite H by (by left). split; [done|]. apply IH; [|done]. intros y Hy. apply H. by right.
Qed.

(** [used] are the nodes of the tree. *)
Record pool_ok (st : state) (used fl : list nat) : Prop := {
  po_list : free_list (mem st) (free st) fl;
  po_nodup : NoDup (fl ++ used);
  po_addr : forall x, x ∈ fl ++ used -> x <> 0%nat /\ (x < start st \/ start st + size st <= x)%nat /\ (x < pool st)%nat;
  po_page : (start st + size st <= pool st)%nat;
  po_start : (size st <> 0 -> start st <> 0)%nat;
  po_pool : (0 < pool st)%nat;
}.

(** An allocation gives a node that is not in use, or NULL when there is no page left. *)
Lemma alloc_ok st used fl : pool_ok st used fl -> exists p st' fl',
  ngx_radix_alloc st = Some (p, st') /\ mem st' = mem st /\ root st' = root st
  /\ (p = 0%nat /\ pages st' = 0%nat /\ pool_ok st' used fl' \/ p <> 0%nat /\ p ∉ used /\ pool_ok st' (p :: used) fl').
Proof.
  intros [H1 H2 H3 H4 H5 H6]. unfold ngx_radix_alloc. destruct (Nat.eqb_spec (free st) 0) as [Hf|Hf]; cbn [negb].
  - assert (Hfl : fl = []).
    { destruct fl as [|x fl]; [done|]. destruct H1 as [Hx _]. destruct (H3 x) as (? & _); [by left|]. congruence. }
    subst fl. cbn [app] in *. destruct (Nat.ltb_spec (size st) 1) as [Hs|Hs]; [destruct (pages st) as [|k]|];
      eexists _, _, []; (split; [done|]); (split; [done|]); (split; [done|]).
    + left. split_and!; [done|done|]. constructor; cbn [mem free start size pool app]; try done; [|lia|lia].
      intros x Hx. destruct (H3 x Hx) as (? & ? & ?). split_and!; [done|lia|lia].
    + right. assert (Hnew : pool st ∉ used) by (intros Hin; destruct (H3 _ Hin) as (_ & _ & ?); lia).
      split_and!; [lia|done|]. constructor; cbn [mem free start size pool app]; try done; [by apply list.NoDup_cons| |unfold page_nodes; lia..].
      intros x [-> | Hx]%elem_of_cons; [unfold page_nodes; lia|]. destruct (H3 x Hx) as (? & _ & ?). unfold page_nodes. lia.
    + right. assert (Hnew : start st ∉ used) by (intros Hin; destruct (H3 _ Hin) as (_ & ? & _); lia).
      split_and!; [apply H5; lia|done|]. constructor; cbn [mem free start size pool app]; try done; [by apply list.NoDup_cons| |lia..].
      intros x [-> | Hx]%elem_of_cons; [lia|]. destruct (H3 x Hx) as (? & ? & ?). lia.
  - destruct fl as [|x fl]; [done|]. destruct H1 as (-> & n & Hn & Hfl). rewrite Hn. cbn [mbind option_bind].
    eexists x, _, fl. split_and!; [done|done|done|right]. cbn [app] in H2. apply list.NoDup_cons in H2 as [Hx H2].
    split_and!; [by destruct (H3 x) as (? & _); [by left|]|set_solver|]. constructor; cbn; try done.
    + rewrite <- Permutation_middle. apply list.NoDup_cons. done.
    + intros y Hy. apply H3. rewrite <- Permutation_middle in Hy. done.
Qed.

Lemma pool_write st used fl p n : pool_ok st used fl -> p ∈ used -> pool_ok (set_mem (<[p := n]> (mem st)) st) used fl.
Proof.
  intros [H1 H2 H3 H4 H5 H6] Hp. constructor; cbn; try done. eapply free_list_frame; [|done]. intros x Hx.
  rewrite lookup_insert_ne; [done|]. intros ->. apply list.NoDup_app in H2 as (_ & H2 & _). by apply (H2 x).
Qed.

Lemma pool_perm st used used' fl : used ≡ₚ used' -> pool_ok st used fl -> pool_ok st used' fl.
Proof. intros Hp [H1 H2 H3 H4 H5 H6]. constructor; try done; [by rewrite <- Hp|]. intros x. rewrite <- Hp. apply H3. Qed.

(** A node that is taken out of the tree becomes the head of the list. *)
Lemma pool_release st used fl p n : pool_ok st (p :: used) fl -> right n = free st ->
  pool_ok (set_free p (set_mem (<[p := n]> (mem st)) st)) used (p :: fl).
Proof.
  intros [H1 H2 H3 H4 H5 H6] Hn. rewrite <- Permutation_middle in H2. apply list.NoDup_cons in H2 as [Hp H2].
  constructor; cbn [mem set_free set_mem free start size pool app free_list]; try done.
  - split; [done|]. exists n. rewrite lookup_insert_eq, Hn. split; [done|]. eapply free_list_frame; [|done].
    intros x Hx. rewrite lookup_insert_ne; [done|]. set_solver.
  - by apply list.NoDup_cons.
  - intros x Hx. apply H3. rewrite <- Permutation_middle. done.
Qed.

(** ** The tree in memory, seen from a node *)

(** [t] is the tree below the focus, [ctx] what is around it. *)
Definition good (st : state) (ctx : list frame) (t : trie) : Prop :=
  rep (mem st) (up ctx) t /\ repc (mem st) (root st) (ptr t) ctx /\ exists fl, pool_ok st (ids t ++ cids ctx) fl.

Lemma ids_fill f ctx t : ids (fill f t) ++ cids ctx ≡ₚ ids t ++ cids (f :: ctx).
Proof. destruct f as [d p v b]. unfold fill. cbn. rewrite radix_ids_mk. cbn. rewrite <- Permutation_middle. by rewrite app_assoc. Qed.

(** Moving the focus between a node and its child. *)
Lemma good_fill st f ctx t : good st (f :: ctx) t <-> good st ctx (fill f t).
Proof.
  unfold good. assert (Hp : (exists fl, pool_ok st (ids t ++ cids (f :: ctx)) fl) <-> (exists fl, pool_ok st (ids (fill f t) ++ cids ctx) fl))
    by (split; intros [fl H]; exists fl; eapply pool_perm; [|exact H| |exact H]; by rewrite ids_fill).
  rewrite Hp. destruct f as [d p v b]. unfold fill. cbn [f_dir f_ptr f_val f_sib up repc]. rewrite radix_rep_mk, radix_ptr_mk. tauto.
Qed.

Lemma good_down st ctx p v l r d : good st ctx (RN p v l r) ->
  good st (F d p v (sub (negb d) (RN p v l r)) :: ctx) (sub d (RN p v l r)).
Proof. intros H. apply good_fill. unfold fill. cbn [f_dir f_ptr f_val f_sib]. by rewrite <- mk_sub. Qed.

(** What the memory has at the focus. *)
Lemma good_node st ctx p v l r : good st ctx (RN p v l r) -> mem st !! p = Some (Node (ptr r) (ptr l) (up ctx) v).
Proof. by intros ((? & _) & _). Qed.
Lemma good_parent st d p v b ctx t : good st (F d p v b :: ctx) t -> mem st !! p = Some (mknode d (ptr t) (ptr b) (up ctx) v).
Proof. by intros (_ & (? & _) & _). Qed.

Lemma good_addr st ctx t p : good st ctx t -> p ∈ ids t ++ cids ctx -> p <> 0%nat.
Proof. intros (_ & _ & fl & H) Hp. destruct (po_addr _ _ _ H p) as (? & _); [set_solver|done]. Qed.
Lemma good_nodup st ctx t : good st ctx t -> NoDup (ids t ++ cids ctx).
Proof. intros (_ & _ & fl & H). apply po_nodup in H. by apply list.NoDup_app in H as (_ & _ & ?). Qed.
Lemma good_ptr st ctx t : good st ctx t -> ptr t = 0%nat <-> t = RE.
Proof. intros H. destruct t; [done|]. cbn. split; [|done]. intros ->. by destruct (good_addr _ _ _ 0%nat H); [left|]. Qed.
Lemma good_sib st d p v b ctx t : good st (F d p v b :: ctx) t -> ptr b = 0%nat <-> b = RE.
Proof.
  intros H. destruct b as [|q w l r]; [done|]. cbn. split; [|done]. intros ->. destruct (good_addr _ _ _ 0%nat H); [|done]. cbn. set_solver.
Qed.
Lemma radix_good_up st ctx t : good st ctx t -> up ctx = 0%nat <-> ctx = [].
Proof.
  intros H. destruct ctx as [|f ctx]; [done|]. cbn [up]. split; [|done]. intros H0. destruct (good_addr _ _ _ (f_ptr f) H); [|done]. cbn. set_solver.
Qed.
Lemma child_sub d p v l r u : child d (Node (ptr r) (ptr l) u v) = ptr (sub d (RN p v l r)).
Proof. by destruct d. Qed.

(** A write to the focus. *)
Lemma good_write st ctx p v l r v' : good st ctx (RN p v l r) ->
  exists st', wr p (set_value v') st = Some st' /\ good st' ctx (RN p v' l r) /\ root st' = root st /\ pages st' = pages st.
Proof.
  intros H. pose proof (good_node _ _ _ _ _ _ H) as Hn. pose proof (good_nodup _ _ _ H) as Hd. unfold wr. rewrite Hn.
  eexists. split; [done|]. split; [|done]. destruct H as ((_ & Hl & Hr) & Hc & fl & Hp).
  cbn [ids app] in Hd. apply list.NoDup_cons in Hd as [Hd _].
  assert (Hne : forall x, x ∈ (ids l ++ ids r) ++ cids ctx ->
    <[p := set_value v' (Node (ptr r) (ptr l) (up ctx) v)]> (mem st) !! x = mem st !! x)
    by (intros x Hx; rewrite lookup_insert_ne; [done|set_solver]).
  split; [|split]; cbn [mem set_mem root rep ptr].
  - split_and!; [by rewrite lookup_insert_eq|eapply radix_rep_frame; [|done]; set_solver..].
  - eapply radix_repc_frame; [|done]. set_solver.
  - exists fl. apply pool_write; [done|set_solver].
Qed.

(** A new leaf at the focus. *)
Lemma good_grow st d p v b ctx : good st (F d p v b :: ctx) RE -> exists next st1,
  ngx_radix_alloc st = Some (next, st1) /\ root st1 = root st /\
  (next = 0%nat /\ pages st1 = 0%nat /\ good st1 (F d p v b :: ctx) RE \/
   next <> 0%nat /\ exists st2,
     wr p (set_child d next) (set_mem (<[next := Node 0 0 p NGX_RADIX_NO_VALUE]> (mem st1)) st1) = Some st2
     /\ good st2 (F d p v b :: ctx) (RN next NGX_RADIX_NO_VALUE RE RE) /\ root st2 = root st).
Proof.
  intros H. pose proof (good_parent _ _ _ _ _ _ _ H) as Hn. pose proof (good_nodup _ _ _ H) as Hd.
  destruct H as (_ & (_ & Hb & Hc) & fl & Hp). destruct (alloc_ok _ _ _ Hp) as (next & st1 & fl' & He & Hm & Hr & HR).
  exists next, st1. split; [done|]. split; [done|]. destruct HR as [(-> & Hpg & Hp')|(H0 & Hin & Hp')]; [left|right].
  - split_and!; [done|done|]. split; [done|]. rewrite Hm, Hr. split; [by split_and!|by exists fl'].
  - split; [done|]. cbn [ids app cids f_ptr f_sib] in *. unfold wr. cbn [mem set_mem]. rewrite lookup_insert_ne, Hm by set_solver. rewrite Hn.
    eexists. split; [done|]. rewrite radix_set_child_mknode. cbn [ptr]. split; [|done]. apply list.NoDup_cons in Hd as [Hd _].
    assert (Hne : forall x, x ∈ ids b ++ cids ctx ->
      <[p := mknode d next (ptr b) (up ctx) v]> (<[next := Node 0 0 p NGX_RADIX_NO_VALUE]> (mem st)) !! x = mem st !! x)
      by (intros x Hx; rewrite !lookup_insert_ne; [done|set_solver..]).
    split; [|split]; cbn [mem set_mem root rep ptr up f_ptr repc].
    + rewrite lookup_insert_ne, lookup_insert_eq by set_solver. done.
    + rewrite lookup_insert_eq, Hr. split_and!; [done|eapply radix_rep_frame; [|done]; set_solver|eapply radix_repc_frame; [|done]; set_solver].
    + exists fl'. cbn [ids app cids f_ptr f_sib]. rewrite <- Hm. apply (pool_write (set_mem _ st1)); [apply pool_write; [done|set_solver]|set_solver].
Qed.

(** A leaf that is unlinked and put on the list. *)
Lemma good_cut st d u uv b ctx p v : good st (F d u uv b :: ctx) (RN p v RE RE) -> exists st1 st2,
  (if (right (mknode d p (ptr b) (up ctx) uv) =? p)%nat then wr u (set_child true 0) st else wr u (set_child false 0) st) = Some st1
  /\ wr p (set_child true (free st1)) st1 = Some st2 /\ good (set_free p st2) (F d u uv b :: ctx) RE /\ root st2 = root st.
Proof.
  intros H. pose proof (good_parent _ _ _ _ _ _ _ H) as Hu. pose proof (good_node _ _ _ _ _ _ H) as Hn.
  pose proof (good_nodup _ _ _ H) as Hd. assert (Hp0 : p <> 0%nat) by (apply (good_addr _ _ _ p H); by left).
  cbn [ids app cids f_ptr f_sib ptr up] in *. apply list.NoDup_cons in Hd as [Hp Hd]. apply list.NoDup_cons in Hd as [Hud _].
  assert (Hside : (if (right (mknode d p (ptr b) (up ctx) uv) =? p)%nat then wr u (set_child true 0) st else wr u (set_child false 0) st)
    = wr u (set_child d 0) st).
  { destruct d; cbn [mknode right]; [by rewrite Nat.eqb_refl|]. destruct (Nat.eqb_spec (ptr b) p) as [Hb|]; [|done].
    destruct b; cbn in *; [congruence|set_solver]. }
  rewrite Hside. unfold wr at 1. rewrite Hu. eexists _, _. split; [done|]. unfold wr. cbn [mem set_mem free]. rewrite lookup_insert_ne by set_solver.
  rewrite Hn. split; [done|]. split; [|done]. rewrite (radix_set_child_mknode d). destruct H as (_ & (_ & Hb & Hc) & fl & Hpo).
  set (n' := set_child true (free st) (Node 0 0 u v)). set (m1 := <[u := mknode d 0 (ptr b) (up ctx) uv]> (mem st)).
  assert (Hne : forall x, x ∈ ids b ++ cids ctx -> <[p := n']> m1 !! x = mem st !! x)
    by (intros x Hx; subst m1; rewrite !lookup_insert_ne; [done|set_solver..]).
  split; [done|]. split; cbn [mem set_mem set_free root ptr repc ids app cids f_ptr f_sib up].
  - rewrite lookup_insert_ne by set_solver. subst m1. rewrite lookup_insert_eq.
    split_and!; [done|eapply radix_rep_frame; [|done]; set_solver|eapply radix_repc_frame; [|done]; set_solver].
  - exists (p :: fl). apply (pool_release (set_mem m1 st)); [|done]. apply pool_write; [done|set_solver].
Qed.

(** ** The values of a tree *)

Fixpoint tlook (path : list bool) (t : trie) {struct t} : Z :=
  match t with
  | RE => NGX_RADIX_NO_VALUE
  | RN _ v l r =>
      match path with [] => v | d :: rest => tlook rest (if d then r else l) end
  end.

(** Trees with the same values. *)
Definition same (t t' : trie) : Prop := forall q, tlook q t = tlook q t'.

#[export] Instance same_equiv : Equivalence same.
Proof. split; [by intros ? ?|by intros ? ? H q|by intros ? ? ? H1 H2 q; rewrite H1]. Qed.
#[export] Instance fill_proper f : Proper (same ==> same) (fill f).
Proof. intros t t' H q. destruct f as [[] p v b], q as [|[] q]; cbn; try done; apply H. Qed.
#[export] Instance plug_proper ctx : Proper (same ==> same) (plug ctx).
Proof. induction ctx as [|f ctx IH]; intros t t' H; [done|]. cbn [plug]. apply IH. by rewrite H. Qed.

Lemma same_leaf p : same (RN p NGX_RADIX_NO_VALUE RE RE) RE.
Proof. by intros [|[] q]. Qed.

(** [t'] is [t] with the value [v] at [path]. *)
Definition assigns (path : list bool) (v : Z) (t t' : trie) : Prop :=
  forall q, tlook q t' = if decide (q = path) then v else tlook q t.

#[export] Instance assigns_proper path v : Proper (same ==> same ==> iff) (assigns path v).
Proof. intros t t' H u u' H'. unfold assigns. split; intros Ha q; [rewrite <- H', <- H|rewrite H', H]; apply Ha. Qed.

Lemma assigns_plug ctx : forall path v t t', assigns path v t t' -> assigns (cpath ctx ++ path) v (plug ctx t) (plug ctx t').
Proof.
  induction ctx as [|[d p w b] ctx IH]; intros path v t t' H; [done|]. cbn [plug cpath f_dir].
  rewrite <- app_assoc. cbn [app]. apply IH. intros [|e q]; [by destruct d|].
  destruct d, e; cbn; try done; rewrite H; by repeat case_decide; simplify_eq.
Qed.

(** The value at the focus. *)
Lemma tlook_plug ctx : forall q t, tlook (cpath ctx ++ q) (plug ctx t) = tlook q t.
Proof.
  induction ctx as [|[d p w b] ctx IH]; intros q t; [done|]. cbn [plug cpath f_dir]. rewrite <- app_assoc, IH. by destruct d.
Qed.

Fixpoint depth (t : trie) : nat := match t with RE => 0 | RN _ _ l r => S (Nat.max (depth l) (depth r)) end.

Lemma depth_plug ctx : forall k t t', (depth t' <= Nat.max (depth t) k)%nat ->
  (depth (plug ctx t') <= Nat.max (depth (plug ctx t)) (k + length ctx))%nat.
Proof.
  induction ctx as [|[d p w b] ctx IH]; intros k t t' H; cbn [plug length]; [lia|].
  specialize (IH (S k) (fill (F d p w b) t) (fill (F d p w b) t')). destruct d; cbn in *; lia.
Qed.

Lemma cpath_length ctx : length (cpath ctx) = length ctx.
Proof. induction ctx as [|f ctx IH]; [done|]. cbn. rewrite length_app, IH. cbn. lia. Qed.

Lemma plug_nonempty ctx : forall t, t <> RE -> plug ctx t <> RE.
Proof. induction ctx as [|[[] p w b] ctx IH]; intros t H; [done|by apply IH..]. Qed.

(** ** The walks *)

(** The first loop of an insertion stops at a node; if there are bits left, there is no
    child for the first of them. *)
Lemma follow_ok : forall path st ctx t, good st ctx t -> t <> RE -> exists ctx' p v l r rest,
  follow path (ptr t) st = Some (p, rest) /\ good st ctx' (RN p v l r) /\ plug ctx' (RN p v l r) = plug ctx t
  /\ cpath ctx ++ path = cpath ctx' ++ rest
  /\ match rest with [] => True | d :: _ => sub d (RN p v l r) = RE end.
Proof.
  induction path as [|d path IH]; intros st ctx [|p v l r] H H0; try done; cbn [follow ptr].
  - exists ctx, p, v, l, r, []. by split_and!.
  - rewrite (good_node _ _ _ _ _ _ H). cbn [mbind option_bind]. rewrite (child_sub d p v l r).
    pose proof (good_down _ _ _ _ _ _ d H) as Hd. destruct (Nat.eqb_spec (ptr (sub d (RN p v l r))) 0) as [He|He].
    + exists ctx, p, v, l, r, (d :: path). split_and!; try done. by apply (good_ptr _ _ _ Hd).
    + destruct (IH st _ _ Hd) as (ctx' & p' & v' & l' & r' & rest & -> & Hg & Hp & Hc & Hr); [by intros Hz; rewrite Hz in He|].
      exists ctx', p', v', l', r', rest. split_and!; try done.
      * rewrite Hp. cbn [plug]. unfold fill. cbn [f_dir f_ptr f_val f_sib]. by rewrite <- mk_sub.
      * rewrite <- Hc. cbn [cpath f_dir]. by rewrite <- app_assoc.
Qed.

(** The second loop makes the nodes for all bits or runs out of memory; no value changes. *)
Lemma grow_ok : forall path st ctx p v l r, good st ctx (RN p v l r) ->
  match path with [] => True | d :: _ => sub d (RN p v l r) = RE end -> exists p' st',
  grow path p st = Some (p', st') /\ root st' = root st /\ exists ctx' t', good st' ctx' t'
  /\ same (plug ctx' t') (plug ctx (RN p v l r))
  /\ (depth (plug ctx' t') <= Nat.max (depth (plug ctx (RN p v l r))) (S (length path) + length ctx))%nat
  /\ plug ctx' t' <> RE
  /\ (p' = 0%nat /\ pages st' = 0%nat \/
      p' <> 0%nat /\ exists v' l' r', t' = RN p' v' l' r' /\ cpath ctx' = cpath ctx ++ path).
Proof.
  induction path as [|d path IH]; intros st ctx p v l r H Hd; cbn [grow].
  - exists p, st. do 2 (split; [done|]). exists ctx, (RN p v l r). rewrite app_nil_r.
    split_and!; try done; [lia|by apply (plug_nonempty ctx)|].
    right. split; [|by eexists _, _, _]. apply (good_addr _ _ _ p H). by left.
  - pose proof (good_down _ _ _ _ _ _ d H) as Hg. rewrite Hd in Hg.
    assert (Hplug : plug (F d p v (sub (negb d) (RN p v l r)) :: ctx) RE = plug ctx (RN p v l r)).
    { cbn [plug]. unfold fill. cbn [f_dir f_ptr f_val f_sib]. rewrite <- Hd. by rewrite <- mk_sub. }
    set (ctx1 := F d p v (sub (negb d) (RN p v l r)) :: ctx) in *.
    destruct (good_grow _ _ _ _ _ _ Hg) as (next & st1 & -> & Hr1 & HR). cbn [mbind option_bind].
    destruct HR as [(-> & Hpg & Hg1)|(Hnx & st2 & Hw & Hg2 & Hr2)].
    + exists 0%nat, st1. do 2 (split; [done|]). exists ctx1, RE. rewrite Hplug.
      split_and!; try done; [lia|by apply (plug_nonempty ctx)|by left].
    + destruct (Nat.eqb_spec next 0); [done|]. rewrite Hw. cbn [mbind option_bind].
      destruct (IH st2 ctx1 next NGX_RADIX_NO_VALUE RE RE Hg2) as (p' & st' & -> & Hr' & ctx' & t' & Hg' & Hs & Hdp & Hne & HR);
        [by destruct path as [|[] ?]|].
      exists p', st'. split; [done|]. split; [congruence|]. exists ctx', t'. split; [done|].
      assert (Hsame : same (plug ctx1 (RN next NGX_RADIX_NO_VALUE RE RE)) (plug ctx (RN p v l r)))
        by (rewrite <- Hplug; by rewrite same_leaf).
      split_and!; [by rewrite Hs| |done|].
      * pose proof (depth_plug ctx1 1 RE (RN next NGX_RADIX_NO_VALUE RE RE) ltac:(cbn; lia)) as Hdq. rewrite Hplug in Hdq.
        subst ctx1. cbn [length] in *. lia.
      * destruct HR as [?|(? & v' & l' & r' & ? & Hc)]; [by left|right]. split; [done|]. eexists _, _, _. split; [done|].
        rewrite Hc. subst ctx1. cbn [cpath f_dir]. by rewrite <- app_assoc.
Qed.

(** The loop of a deletion finds the node of the path, if there is one. *)
Lemma locate_ok : forall path st ctx t, good st ctx t -> exists ctx' t',
  locate path (ptr t) st = Some (match t' with RE => None | RN p _ _ _ => Some p end)
  /\ good st ctx' t' /\ plug ctx' t' = plug ctx t
  /\ match t' with RE => tlook path t = NGX_RADIX_NO_VALUE | _ => cpath ctx' = cpath ctx ++ path end.
Proof.
  induction path as [|d path IH]; intros st ctx t H; (destruct t as [|p v l r]; [by exists ctx, RE|]);
    assert (Hp : p <> 0%nat) by (apply (good_addr _ _ _ p H); by left); cbn [locate ptr]; (destruct (Nat.eqb_spec p 0); [done|]).
  - exists ctx, (RN p v l r). by rewrite app_nil_r.
  - rewrite (good_node _ _ _ _ _ _ H). cbn [mbind option_bind]. rewrite (child_sub d p v l r).
    pose proof (good_down _ _ _ _ _ _ d H) as Hd. destruct (IH st _ _ Hd) as (ctx' & t' & -> & Hg & Hpl & HR).
    exists ctx', t'. split_and!; try done.
    + rewrite Hpl. cbn [plug]. unfold fill. cbn [f_dir f_ptr f_val f_sib]. by rewrite <- mk_sub.
    + destruct t'; [by destruct d|]. rewrite HR. cbn [cpath f_dir]. by rewrite <- app_assoc.
Qed.

Lemma plug_mono ctx : forall t t', (depth t <= depth t')%nat -> (depth (plug ctx t) <= depth (plug ctx t'))%nat.
Proof. induction ctx as [|[[] p w b] ctx IH]; intros t t' H; [done|apply IH; cbn; lia..]. Qed.

(** Taking out a leaf and the nodes above it that have become useless changes no other
    value. *)
Lemma prune_ok : forall fuel st ctx p v, good st ctx (RN p v RE RE) -> ctx <> [] -> (length ctx < fuel)%nat ->
  exists st' ctx' t', prune fuel p st = Some st' /\ good st' ctx' t' /\ same (plug ctx' t') (plug ctx RE)
  /\ (depth (plug ctx' t') <= depth (plug ctx (RN p v RE RE)))%nat /\ plug ctx' t' <> RE.
Proof.
  induction fuel as [|fuel IH]; intros st ctx p v H Hne Hf; [lia|]. destruct ctx as [|[d u uv b] ctx]; [done|].
  cbn [prune]. rewrite (good_node _ _ _ _ _ _ H). cbn [mbind option_bind parent up f_ptr].
  rewrite (good_parent _ _ _ _ _ _ _ H). cbn [mbind option_bind ptr].
  destruct (good_cut _ _ _ _ _ _ _ _ H) as (st1 & st2 & -> & Hw & Hg & Hr). cbn [mbind option_bind].
  rewrite Hw. cbn [mbind option_bind]. rewrite (good_parent _ _ _ _ _ _ _ Hg). cbn [mbind option_bind ptr].
  assert (Hdep : (depth (plug (F d u uv b :: ctx) RE) <= depth (plug (F d u uv b :: ctx) (RN p v RE RE)))%nat).
  { apply (plug_mono _ RE (RN p v RE RE)). cbn. lia. }
  assert (Hstop : exists st' ctx' t', Some (set_free p st2) = Some st' /\ good st' ctx' t'
    /\ same (plug ctx' t') (plug (F d u uv b :: ctx) RE)
    /\ (depth (plug ctx' t') <= depth (plug (F d u uv b :: ctx) (RN p v RE RE)))%nat /\ plug ctx' t' <> RE).
  { exists (set_free p st2), (F d u uv b :: ctx), RE. split_and!; try done. cbn [plug]. apply plug_nonempty. by destruct d. }
  assert (Hkids : negb (right (mknode d 0 (ptr b) (up ctx) uv) =? 0)%nat || negb (left (mknode d 0 (ptr b) (up ctx) uv) =? 0)%nat
    = negb (ptr b =? 0)%nat) by (destruct d; cbn [mknode right left Nat.eqb negb orb]; [done|apply orb_false_r]).
  rewrite Hkids. autorewrite with rx. destruct (Nat.eqb_spec (ptr b) 0) as [Hb|Hb]; cbn [negb]; [|done].
  destruct (Z.eqb_spec uv NGX_RADIX_NO_VALUE) as [->|]; cbn [negb]; [|done].
  destruct (Nat.eqb_spec (up ctx) 0) as [Hu|Hu]; [done|].
  apply (good_sib _ _ _ _ _ _ _ Hg) in Hb as ->. assert (Hfill : fill (F d u NGX_RADIX_NO_VALUE RE) RE = RN u NGX_RADIX_NO_VALUE RE RE) by by destruct d.
  apply good_fill in Hg. rewrite Hfill in Hg.
  destruct (IH _ ctx u NGX_RADIX_NO_VALUE Hg) as (st' & ctx' & t' & -> & Hg' & Hs & Hd & Hn);
    [intros ->; done|cbn [length] in Hf; lia|].
  exists st', ctx', t'. split_and!; try done; cbn [plug] in *; rewrite Hfill in *; [|lia].
  rewrite Hs. by rewrite same_leaf.
Qed.

(** ** What the tree promises *)

Lemma radix_good_plug st ctx : forall t, good st ctx t <-> good st [] (plug ctx t).
Proof. induction ctx as [|f ctx IH]; intros t; [done|]. rewrite good_fill. apply IH. Qed.

(** The tree holds the values [look], and no path is longer than [n]. *)
Definition rtree (st : state) (look : list bool -> Z) (n : nat) : Prop :=
  exists t, good st [] t /\ t <> RE /\ (forall q, tlook q t = look q) /\ (depth t <= S n)%nat.

Definition upd (path : list bool) (v : Z) (look : list bool -> Z) : list bool -> Z :=
  fun q => if decide (q = path) then v else look q.

Lemma rtree_intro st ctx t look n : good st ctx t -> plug ctx t <> RE -> (forall q, tlook q (plug ctx t) = look q) ->
  (depth (plug ctx t) <= S n)%nat -> rtree st look n.
Proof. intros H1 H2 H3 H4. exists (plug ctx t). split; [by apply (proj1 (radix_good_plug st ctx t))|done]. Qed.

Lemma rtree_root st look n : rtree st look n -> exists t, root st = ptr t /\ good st [] t /\ t <> RE
  /\ (forall q, tlook q t = look q) /\ (depth t <= S n)%nat.
Proof. intros (t & H & ?). exists t. split; [by destruct H as (_ & ? & _)|done]. Qed.

Lemma assigns_look path v t t' look : assigns path v t t' -> (forall q, tlook q t = look q) -> forall q, tlook q t' = upd path v look q.
Proof. intros H Hl q. rewrite H. unfold upd. case_decide; [done|apply Hl]. Qed.

Lemma assigns_value p v v' l r : assigns [] v' (RN p v l r) (RN p v' l r).
Proof. by intros [|d q]. Qed.

(** Writing the value of the focus. *)
Lemma set_focus st ctx p w l r v t look n : good st ctx (RN p w l r) -> same (plug ctx (RN p w l r)) t ->
  (depth (plug ctx (RN p w l r)) <= S n)%nat -> (forall q, tlook q t = look q) ->
  exists st', wr p (set_value v) st = Some st' /\ rtree st' (upd (cpath ctx) v look) n.
Proof.
  intros Hg Hs Hd Hl. destruct (good_write _ _ _ _ _ _ v Hg) as (st' & Hw & Hg' & _ & _).
  exists st'. split; [done|]. apply (rtree_intro _ _ _ _ _ Hg'); [by apply plug_nonempty| |].
  - eapply assigns_look; [|exact Hl]. rewrite <- Hs. rewrite <- (app_nil_r (cpath ctx)). apply assigns_plug, assigns_value.
  - etrans; [apply (plug_mono ctx _ (RN p w l r)); cbn; lia|done].
Qed.

Lemma radix_insert_ok st look n path v : rtree st look n -> (length path <= n)%nat -> exists rc st',
  insert path v st = Some (rc, st')
  /\ (look path <> NGX_RADIX_NO_VALUE /\ rc = NGX_BUSY /\ st' = st
      \/ look path = NGX_RADIX_NO_VALUE /\ rc = NGX_ERROR /\ pages st' = 0%nat /\ rtree st' look n
      \/ look path = NGX_RADIX_NO_VALUE /\ rc = NGX_OK /\ rtree st' (upd path v look) n).
Proof.
  intros (t & Hr & Hg & Hne & Hl & Hdep)%rtree_root Hlen. unfold insert. rewrite Hr.
  destruct (follow_ok path st [] t Hg Hne) as (ctx & p & w & l & r & rest & -> & Hg1 & Hpl & Hc & Hrest).
  cbn [mbind option_bind]. cbn [plug] in Hpl. cbn [cpath app] in Hc.
  assert (Hlc : (length ctx + length rest = length path)%nat) by (rewrite Hc, length_app, cpath_length; lia).
  destruct rest as [|d rest].
  - rewrite app_nil_r in Hc. rewrite (good_node _ _ _ _ _ _ Hg1). cbn [mbind option_bind value].
    assert (Hv : look path = w). { rewrite <- Hl, <- Hpl, Hc. rewrite <- (app_nil_r (cpath ctx)). by rewrite tlook_plug. }
    destruct (Z.eqb_spec w NGX_RADIX_NO_VALUE) as [Hw|Hw]; cbn [negb]; [|eexists _, _; split; [done|left; by rewrite Hv]].
    destruct (set_focus _ _ _ _ _ _ v t look n Hg1) as (st1 & -> & Hrt); [by rewrite Hpl|by rewrite Hpl|done|].
    eexists _, _. split; [done|]. right. right. rewrite Hv. split_and!; [done|done|by rewrite Hc].
  - assert (Hv : look path = NGX_RADIX_NO_VALUE).
    { rewrite <- Hl, <- Hpl, Hc, tlook_plug. cbn [sub] in Hrest. cbn. by destruct d; rewrite Hrest. }
    destruct (grow_ok (d :: rest) _ _ _ _ _ _ Hg1 Hrest) as (p' & st' & -> & Hr' & ctx' & t' & Hg' & Hs & Hd' & Hne' & HR).
    cbn [mbind option_bind]. rewrite Hpl in Hs, Hd'. cbn [length] in *. assert (Hdn : (depth (plug ctx' t') <= S n)%nat) by lia.
    destruct HR as [(-> & Hpg)|(Hp' & v' & l' & r' & -> & Hc')].
    + eexists _, _. split; [done|]. right. left. split_and!; try done. apply (rtree_intro _ ctx' t'); try done. intros q. by rewrite Hs.
    + destruct (Nat.eqb_spec p' 0); [done|].
      destruct (set_focus _ _ _ _ _ _ v t look n Hg') as (st1 & -> & Hrt); [done|done|done|].
      rewrite Hc', <- Hc in Hrt. eexists _, _. split; [done|]. right. by right.
Qed.

(** A value other than those at the root needs a child of the root. *)
Lemma root_leaf p v q : q <> [] -> tlook q (RN p v RE RE) = NGX_RADIX_NO_VALUE.
Proof. by destruct q as [|[] q]. Qed.

Lemma radix_delete_ok st look n path : rtree st look n -> (length path <= n)%nat ->
  path <> [] \/ (exists q, q <> [] /\ look q <> NGX_RADIX_NO_VALUE) -> exists rc st',
  delete path st = Some (rc, st') /\ rtree st' (upd path NGX_RADIX_NO_VALUE look) n
  /\ (look path <> NGX_RADIX_NO_VALUE -> rc = NGX_OK) /\ (rc = NGX_OK \/ rc = NGX_ERROR /\ st' = st).
Proof.
  intros Hrt Hlen Hpath. pose proof Hrt as (t & Hr & Hg & Hne & Hl & Hdep)%rtree_root. unfold delete. rewrite Hr.
  destruct (locate_ok path st [] t Hg) as (ctx & t' & -> & Hg1 & Hpl & HR). cbn [mbind option_bind plug cpath app] in *.
  assert (Hnone : look path = NGX_RADIX_NO_VALUE -> rtree st (upd path NGX_RADIX_NO_VALUE look) n).
  { intros Hv. exists t. split_and!; try done. intros q. unfold upd. case_decide; [subst q; by rewrite Hl|done]. }
  destruct t' as [|p v l r]; [rewrite Hl in HR; eexists _, _; split; [done|]; split_and!; [by apply Hnone|done|by right]|].
  assert (Hv : look path = v). { rewrite <- Hl, <- Hpl, <- HR. rewrite <- (app_nil_r (cpath ctx)). by rewrite tlook_plug. }
  rewrite (good_node _ _ _ _ _ _ Hg1). cbn [mbind option_bind right left value].
  destruct (negb (ptr r =? 0)%nat || negb (ptr l =? 0)%nat) eqn:Hk.
  - destruct (Z.eqb_spec v NGX_RADIX_NO_VALUE) as [Hw|Hw]; cbn [negb].
    + eexists _, _. split; [done|]. rewrite Hv. split_and!; [apply Hnone; by rewrite Hv|done|by right].
    + destruct (set_focus _ _ _ _ _ _ NGX_RADIX_NO_VALUE t look n Hg1) as (st1 & -> & Hrt'); [by rewrite Hpl|by rewrite Hpl|done|].
      rewrite HR in Hrt'. eexists _, _. split; [done|]. split_and!; [done|done|by left].
  - apply orb_false_iff in Hk as [Hk1%negb_false_iff%Nat.eqb_eq Hk2%negb_false_iff%Nat.eqb_eq].
    apply (good_ptr _ _ _ (good_down _ _ _ _ _ _ true Hg1)) in Hk1. apply (good_ptr _ _ _ (good_down _ _ _ _ _ _ false Hg1)) in Hk2.
    cbn [sub] in Hk1, Hk2. subst l r.
    destruct (prune_ok (S (length path)) _ _ _ _ Hg1) as (st' & ctx' & t' & -> & Hg' & Hs & Hd' & Hne').
    { intros ->. cbn [cpath plug] in *. subst path t. destruct Hpath as [|(q & Hq & Hq')]; [done|]. apply Hq'. rewrite <- Hl. by apply root_leaf. }
    { rewrite <- HR, cpath_length. lia. }
    cbn [mbind option_bind]. eexists _, _. split; [done|]. split_and!; [|done|by left].
    apply (rtree_intro _ _ _ _ _ Hg'); [done| |rewrite Hpl in Hd'; lia].
    eapply assigns_look; [|exact Hl]. rewrite Hs, <- Hpl, <- HR. rewrite <- (app_nil_r (cpath ctx)). apply assigns_plug.
    by intros [|[] q].
Qed.

(** ** The search *)

(** The value of the longest prefix of [path] that has one. *)
Definition longest (look : list bool -> Z) (path : list bool) (v : Z) : Prop :=
  (exists k, (k <= length path)%nat /\ look (take k path) = v /\ v <> NGX_RADIX_NO_VALUE
     /\ forall k', (k < k' <= length path)%nat -> look (take k' path) = NGX_RADIX_NO_VALUE)
  \/ v = NGX_RADIX_NO_VALUE /\ forall k, (k <= length path)%nat -> look (take k path) = NGX_RADIX_NO_VALUE.

(** [v0] is what has been found above. *)
Definition longest_from (v0 : Z) (look : list bool -> Z) (path : list bool) (v : Z) : Prop :=
  (exists k, (k <= length path)%nat /\ look (take k path) = v /\ v <> NGX_RADIX_NO_VALUE
     /\ forall k', (k < k' <= length path)%nat -> look (take k' path) = NGX_RADIX_NO_VALUE)
  \/ v = v0 /\ forall k, (k <= length path)%nat -> look (take k path) = NGX_RADIX_NO_VALUE.

Lemma find_loop_ok past : forall path fuel t v0 st ctx, good st ctx t -> (depth t <= S (length path))%nat ->
  (past = None -> (depth t <= length path)%nat) -> (S (length path) < fuel)%nat ->
  exists v, find_loop past fuel path (ptr t) v0 st = Some v /\ longest_from v0 (fun q => tlook q t) path v.
Proof.
  induction path as [|d path IH]; intros fuel t v0 st ctx Hg Hd Hp Hf; (destruct fuel as [|fuel]; [lia|]); cbn [find_loop].
  all: destruct t as [|p v l r]; [exists v0; split; [done|]; right; by split|].
  all: assert (Hp0 : p <> 0%nat) by (apply (good_addr _ _ _ p Hg); by left); cbn [ptr]; (destruct (Nat.eqb_spec p 0); [done|]);
    rewrite (good_node _ _ _ _ _ _ Hg); cbn [mbind option_bind value].
  - destruct past as [d|]; [|cbn in *; specialize (Hp eq_refl); lia]. cbn [mbind option_bind]. rewrite (child_sub d p v l r).
    assert (Hs : sub d (RN p v l r) = RE). { cbn [depth length] in Hd. destruct d, l, r; cbn in *; try done; lia. }
    rewrite Hs. destruct fuel as [|fuel]; [cbn in Hf; lia|]. cbn [find_loop ptr Nat.eqb]. eexists. split; [done|].
    destruct (Z.eqb_spec v NGX_RADIX_NO_VALUE) as [->|Hv]; cbn [negb]; [right|left].
    + split; [done|]. intros k Hk. by destruct k.
    + exists 0%nat. split_and!; [lia|done|done|]. cbn. lia.
  - rewrite (child_sub d p v l r). set (v1 := if negb (v =? NGX_RADIX_NO_VALUE) then v else v0).
    pose proof (good_down _ _ _ _ _ _ d Hg) as Hgd.
    assert (Hds : (S (depth (sub d (RN p v l r))) <= depth (RN p v l r))%nat) by (destruct d; cbn; lia).
    destruct (IH fuel _ v1 st _ Hgd) as (w & -> & HL); [cbn [length] in *; lia|intros He; specialize (Hp He); cbn [length] in *; lia|cbn [length] in Hf; lia|].
    exists w. split; [done|]. assert (Hlk : forall q, tlook (d :: q) (RN p v l r) = tlook q (sub d (RN p v l r))) by by destruct d.
    destruct HL as [(k & Hk & Hw & Hnv & Hk')|(-> & Hall)].
    + left. exists (S k). cbn [length take]. split_and!; [lia|by rewrite Hlk|done|].
      intros [|k'] Hkk; [lia|]. cbn [take]. rewrite Hlk. apply Hk'. lia.
    + subst v1. destruct (Z.eqb_spec v NGX_RADIX_NO_VALUE) as [->|Hv]; cbn [negb]; [right|left].
      * split; [done|]. intros [|k] Hk; [done|]. cbn [take]. rewrite Hlk. apply Hall. cbn [length] in Hk. lia.
      * exists 0%nat. split_and!; [lia|done|done|]. intros [|k] Hk; [lia|]. cbn [take]. rewrite Hlk. apply Hall. cbn [length] in Hk. lia.
Qed.

Lemma find_ok past path fuel st look n : rtree st look n -> length path = n -> (S n < fuel)%nat ->
  past <> None \/ rtree st look (pred n) /\ n <> 0%nat ->
  exists v, find_loop past fuel path (root st) NGX_RADIX_NO_VALUE st = Some v /\ longest look path v.
Proof.
  intros Hrt Hn Hf Hp. assert (Ht : exists t, root st = ptr t /\ good st [] t /\ (forall q, tlook q t = look q)
    /\ (depth t <= S n)%nat /\ (past = None -> (depth t <= n)%nat)).
  { destruct Hp as [Hp|[Hrt' Hn0]]; [apply rtree_root in Hrt|apply rtree_root in Hrt'].
    - destruct Hrt as (t & ? & ? & ? & ? & ?). by exists t.
    - destruct Hrt' as (t & ? & ? & ? & ? & ?). exists t. split_and!; try done; lia. }
  destruct Ht as (t & Hr & Hg & Hl & Hd & Hd'). rewrite Hr.
  destruct (find_loop_ok past path fuel t NGX_RADIX_NO_VALUE st [] Hg) as (v & Hv & HL); [lia|by rewrite Hn|lia|].
  exists v. split; [done|]. unfold longest_from in HL. unfold longest.
  destruct HL as [(k & Hk & Hw & Hnv & Hk')|(Hv0 & Hall)]; [left; exists k|right]; split_and!; try done.
  - by rewrite <- Hl.
  - intros k' H. rewrite <- Hl. by apply Hk'.
  - intros k H. rewrite <- Hl. by apply Hall.
Qed.

(** ** Keys and masks *)

(** The first [n] bits of a [w]-bit number, the highest one first. *)
Definition bits (w n : nat) (key : Z) : list bool := map (fun i => Z.testbit key (Z.of_nat w - 1 - Z.of_nat i)) (seq 0 n).
(** The mask with [n] ones. *)
Definition cidr (w n : nat) : Z := Z.shiftl (Z.ones (Z.of_nat n)) (Z.of_nat w - Z.of_nat n).

Lemma land_pow2 x b : 0 <= b -> negb (Z.land x (2 ^ b) =? 0) = Z.testbit x b.
Proof.
  intros Hb. assert (H : Z.land x (2 ^ b) = if Z.testbit x b then 2 ^ b else 0).
  { apply Z.bits_inj'. intros i Hi. rewrite Z.land_spec, Z.pow2_bits_eqb by done. destruct (Z.eqb_spec b i) as [->|].
    - destruct (Z.testbit x i); [by rewrite Z.pow2_bits_true|by rewrite Z.bits_0].
    - rewrite andb_false_r. destruct (Z.testbit x b); [by rewrite Z.pow2_bits_false|by rewrite Z.bits_0]. }
  rewrite H. destruct (Z.testbit x b); [|done]. destruct (Z.eqb_spec (2 ^ b) 0); [pose proof (Z.pow_pos_nonneg 2 b); lia|done].
Qed.

Lemma cidr_testbit w n b : (n <= w)%nat -> 0 <= b < Z.of_nat w -> Z.testbit (cidr w n) b = (Z.of_nat w - Z.of_nat n <=? b).
Proof.
  intros Hn Hb. unfold cidr. rewrite Z.shiftl_spec by lia. destruct (Z.leb_spec (Z.of_nat w - Z.of_nat n) b).
  - rewrite Z.testbit_ones_nonneg by lia. destruct (Z.ltb_spec (b - (Z.of_nat w - Z.of_nat n)) (Z.of_nat n)); [done|lia].
  - by apply Z.testbit_neg_r; lia.
Qed.

(** The bits a loop sees from bit [k] on. *)
Lemma prefix8_ok w n key rest : (n <= w)%nat -> forall fuel k, (k <= n)%nat -> (fuel + k = w)%nat ->
  prefix8 fuel (if (k =? w)%nat then 0 else 2 ^ (Z.of_nat w - 1 - Z.of_nat k)) key (cidr w n) rest
  = map (fun i => Z.testbit key (Z.of_nat w - 1 - Z.of_nat i)) (seq k (n - k)) ++ (if (n =? w)%nat then rest else []).
Proof.
  intros Hn. induction fuel as [|fuel IH]; intros k Hk Hf; cbn [prefix8].
  - replace (n - k)%nat with 0%nat by lia. destruct (Nat.eqb_spec n w); [done|lia].
  - destruct (Nat.eqb_spec k w); [lia|]. rewrite Z.land_comm, land_pow2, cidr_testbit by lia.
    destruct (Z.leb_spec (Z.of_nat w - Z.of_nat n) (Z.of_nat w - 1 - Z.of_nat k)) as [Hlt|Hge].
    + replace (n - k)%nat with (S (n - S k)) by lia. cbn [seq map app]. rewrite land_pow2 by lia. f_equal.
      rewrite <- (IH (S k)) by lia. f_equal. rewrite Z.shiftr_div_pow2 by lia. destruct (Nat.eqb_spec (S k) w).
      * by replace (Z.of_nat w - 1 - Z.of_nat k) with 0 by lia.
      * replace (Z.of_nat w - 1 - Z.of_nat k) with (Z.of_nat w - 1 - Z.of_nat (S k) + 1) by lia.
        rewrite Z.pow_add_r by lia. by rewrite Z.div_mul.
    + replace (n - k)%nat with 0%nat by lia. destruct (Nat.eqb_spec n w); [lia|done].
Qed.

Lemma prefix32_prefix8 key mask : forall fuel bit, prefix32 fuel bit key mask = prefix8 fuel bit key mask [].
Proof. induction fuel as [|fuel IH]; intros bit; cbn; [done|]. by rewrite IH. Qed.

Lemma prefix32_cidr n key : (n <= 32)%nat -> prefix32 32 0x80000000 key (cidr 32 n) = bits 32 n key.
Proof.
  intros Hn. rewrite prefix32_prefix8. pose proof (prefix8_ok 32 n key [] Hn 32 0 ltac:(lia) eq_refl) as H.
  change (if (0 =? 32)%nat then 0 else 2 ^ (Z.of_nat 32 - 1 - Z.of_nat 0)) with 0x80000000 in H. rewrite H.
  rewrite Nat.sub_0_r. destruct (n =? 32)%nat; by rewrite app_nil_r.
Qed.

Lemma bits_take w n k key : (k <= n)%nat -> take k (bits w n key) = bits w k key.
Proof. intros Hk. unfold bits. rewrite firstn_map. f_equal. replace n with (k + (n - k))%nat by lia. rewrite seq_app. apply take_app_length'. by rewrite length_seq. Qed.

(** The bits of a sequence of bytes, and its masks. *)
Definition bits128 (key : list Z) : list bool := concat (map (bits 8 8) key).
Fixpoint cidr128 (m n : nat) : list Z :=
  match m with O => [] | S m => cidr 8 (Nat.min 8 n) :: cidr128 m (n - 8) end.

Lemma bits_length w n key : length (bits w n key) = n.
Proof. unfold bits. by rewrite length_map, length_seq. Qed.
Lemma bits128_length key : length (bits128 key) = (8 * length key)%nat.
Proof. induction key as [|k key IH]; [done|]. unfold bits128 in *. cbn [map concat length]. rewrite length_app, bits_length, IH. lia. Qed.

Lemma prefix128_cidr : forall key n, prefix128 key (cidr128 (length key) n) = take n (bits128 key).
Proof.
  induction key as [|k key IH]; intros n; cbn [prefix128 length cidr128]; [by destruct n|].
  pose proof (prefix8_ok 8 (Nat.min 8 n) k (prefix128 key (cidr128 (length key) (n - 8))) ltac:(lia) 8 0 ltac:(lia) eq_refl) as H.
  change (if (0 =? 8)%nat then 0 else 2 ^ (Z.of_nat 8 - 1 - Z.of_nat 0)) with 0x80 in H. rewrite H, Nat.sub_0_r, IH.
  unfold bits128. cbn [map concat]. fold (bits 8 (Nat.min 8 n) k). destruct (Nat.eqb_spec (Nat.min 8 n) 8) as [He|He].
  - rewrite He, take_app, bits_length. rewrite (take_ge (bits 8 8 k)); [done|rewrite bits_length; lia].
  - replace (Nat.min 8 n) with n by lia. rewrite app_nil_r, take_app_le by (rewrite bits_length; lia). by rewrite bits_take by lia.
Qed.

Lemma prefix128_cidr16 key n : length key = 16%nat -> prefix128 key (cidr128 16 n) = take n (bits128 key).
Proof. intros H. pose proof (prefix128_cidr key n) as Hp. by rewrite H in Hp. Qed.

Lemma prefix32_length key mask : forall fuel bit, (length (prefix32 fuel bit key mask) <= fuel)%nat.
Proof. induction fuel as [|fuel IH]; intros bit; cbn; [lia|]. destruct (negb _); cbn; [specialize (IH (Z.shiftr bit 1)); lia|lia]. Qed.

(** ** Creation *)

Lemma rtree_ext st look look' n : (forall q, look q = look' q) -> rtree st look n -> rtree st look' n.
Proof. intros H (t & ? & ? & Hl & ?). exists t. split_and!; try done. intros q. by rewrite Hl. Qed.

(** No values. *)
Definition none : list bool -> Z := fun _ => NGX_RADIX_NO_VALUE.

Lemma upd_none path q : upd path NGX_RADIX_NO_VALUE none q = none q.
Proof. unfold upd. by case_decide. Qed.

Lemma new_root_ok base pgs : (0 < base)%nat -> exists r, new_root base pgs = Some r
  /\ (r = None -> pgs = 0%nat) /\ forall st, r = Some st -> rtree st none 32.
Proof.
  intros Hb. unfold new_root. destruct (alloc_ok (MkState ∅ 0 0 0 0 base pgs) [] []) as (p & st & fl & Ha & Hm & Hr & HR).
  { constructor; cbn; try done; try lia; [constructor|]. intros x Hx. by apply elem_of_nil in Hx. }
  pose proof Ha as Ha'. rewrite Ha. cbn [mbind option_bind]. destruct (Nat.eqb_spec p 0) as [->|Hp].
  - exists None. split_and!; [done| |done]. intros _. unfold ngx_radix_alloc in Ha'. cbn in Ha'. destruct pgs; [done|]. simplify_eq. lia.
  - eexists (Some _). split_and!; [done|done|]. intros st' [= <-]. destruct HR as [(? & _)|(_ & _ & Hpo)]; [done|].
    exists (RN p NGX_RADIX_NO_VALUE RE RE). split_and!; [|done|by intros [|[] q]|cbn; lia].
    split; [|split; [done|]]; cbn [mem rep up ptr].
    + by rewrite lookup_insert_eq.
    + exists fl. cbn [ids app cids]. rewrite Hm. pose proof (pool_write st [p] fl p (Node 0 0 0 NGX_RADIX_NO_VALUE) Hpo ltac:(by left)) as [H1 H2 H3 H4 H5 H6].
      rewrite Hm in H1. by constructor.
Qed.

Lemma preallocate_level_ok j mask : 0 <= j < 32 -> forall fuel i st, rtree st none 32 -> 0 <= i < 2 ^ (32 - j) -> Z.of_nat fuel = 2 ^ (32 - j) - i ->
  exists r, preallocate_level fuel (i * 2 ^ j) (2 ^ j) mask st = Some r /\ forall st', r = Some st' -> rtree st' none 32.
Proof.
  intros Hj. assert (Hpow : 2 ^ (32 - j) * 2 ^ j = 2 ^ 32) by (rewrite <- Z.pow_add_r by lia; f_equal; lia).
  pose proof (Z.pow_pos_nonneg 2 j ltac:(lia) ltac:(lia)) as Hpj.
  induction fuel as [|fuel IH]; intros i st Hrt Hi Hf; [lia|]. cbn [preallocate_level]. unfold ngx_radix32tree_insert.
  destruct (radix_insert_ok st none 32 (prefix32 32 0x80000000 (i * 2 ^ j) mask) NGX_RADIX_NO_VALUE Hrt) as (rc & st1 & -> & HR); [apply prefix32_length|].
  cbn [mbind option_bind]. destruct HR as [(? & _)|[(_ & -> & _)|(_ & -> & Hrt1)]]; [done|by exists None|]. cbn [Z.eqb negb].
  assert (Hrt' : rtree st1 none 32) by (eapply rtree_ext; [apply upd_none|exact Hrt1]).
  replace (i * 2 ^ j + 2 ^ j) with ((i + 1) * 2 ^ j) by lia. unfold u32.
  destruct (Z.eq_dec (i + 1) (2 ^ (32 - j))) as [He|He].
  - rewrite He, Hpow. cbn. exists (Some st1). by split; [|intros ? [= <-]].
  - rewrite Z.mod_small by nia. destruct (Z.eqb_spec ((i + 1) * 2 ^ j) 0); [nia|]. apply IH; [done|lia|lia].
Qed.

Lemma preallocate_levels_ok : forall n mask st, (n <= 32)%nat -> rtree st none 32 -> forall j, Z.of_nat n <= j + 1 -> 0 <= j < 32 ->
  exists r, preallocate_levels n (2 ^ j) mask st = Some r /\ forall st', r = Some st' -> rtree st' none 32.
Proof.
  induction n as [|n IH]; intros mask st Hn Hrt j Hj1 Hj; cbn [preallocate_levels]; [exists (Some st); by split; [|intros ? [= <-]]|].
  assert (Hdiv : 2 ^ 32 / 2 ^ j = 2 ^ (32 - j)) by (rewrite Z.pow_sub_r by lia; done).
  destruct (preallocate_level_ok j (Z.lor (Z.shiftr mask 1) 0x80000000) Hj (Z.to_nat (2 ^ 32 / 2 ^ j)) 0 st Hrt) as (r & Hr & Hst).
  { pose proof (Z.pow_pos_nonneg 2 (32 - j)). lia. }
  { rewrite Hdiv, Z2Nat.id; [lia|]. apply Z.pow_nonneg. lia. }
  rewrite Z.mul_0_l in Hr. rewrite Hr. cbn [mbind option_bind]. destruct r as [st'|]; [|by exists None]. specialize (Hst st' eq_refl).
  destruct (decide (n = 0%nat)) as [->|Hn0]; [cbn; exists (Some st'); by split; [|intros ? [= <-]]|].
  rewrite Z.shiftr_div_pow2 by lia. replace (2 ^ j) with (2 ^ (j - 1) * 2 ^ 1) by (rewrite <- Z.pow_add_r by lia; f_equal; lia).
  rewrite Z.div_mul by done. apply IH; [lia|done|lia|lia].
Qed.

Lemma create_ok base pgs pre : (0 < base)%nat -> -1 <= pre <= 32 -> exists r, ngx_radix_tree_create base pgs pre = Some r
  /\ forall st, r = Some st -> rtree st none 32.
Proof.
  intros Hb Hpre. unfold ngx_radix_tree_create. destruct (new_root_ok base pgs Hb) as (r & -> & _ & Hr). cbn [mbind option_bind].
  destruct r as [st|]; [|by exists None]. specialize (Hr st eq_refl). change 0x80000000 with (2 ^ 31).
  apply preallocate_levels_ok; [|done|..|lia]; destruct (Z.eqb_spec pre (-1)); lia.
Qed.

Lemma rtree_weaken st look n m : rtree st look n -> (n <= m)%nat -> rtree st look m.
Proof. intros (t & ? & ? & ? & ?) Hm. exists t. split_and!; try done. lia. Qed.

Lemma rtree_created base pgs pre st : ngx_radix_tree_create base pgs pre = Some (Some st) -> (0 < base)%nat -> -1 <= pre <= 32 -> rtree st none 32.
Proof. intros H Hb Hp. destruct (create_ok base pgs pre Hb Hp) as (r & Hr & HR). rewrite H in Hr. simplify_eq. by apply HR. Qed.

(** ** Properties *)

(** What an insertion at [path] does to a tree with the values [look]: it refuses a path that
    has a value; it fails, with no page left and the values as before, if there is no memory;
    otherwise exactly the value at the path is new. *)
Definition inserted (look : list bool -> Z) (n : nat) (path : list bool) (v : Z) (st : state) (res : option (Z * state)) : Prop :=
  exists rc st', res = Some (rc, st')
  /\ (look path <> NGX_RADIX_NO_VALUE /\ rc = NGX_BUSY /\ st' = st
      \/ look path = NGX_RADIX_NO_VALUE /\ rc = NGX_ERROR /\ pages st' = 0%nat /\ rtree st' look n
      \/ look path = NGX_RADIX_NO_VALUE /\ rc = NGX_OK /\ rtree st' (upd path v look) n).

(** C20. In a tree that holds the values [look], ngx_radix32tree_insert of a network with a mask
    of k ones, and ngx_radix128tree_insert, act on the first k bits of the address: the result
    is NGX_BUSY and nothing changes if the network has a value; NGX_ERROR, with every lookup as
    before, only when the pool has no page left; and otherwise NGX_OK with a well-formed tree
    in which just that network has the new value.  The links between nodes, the list of free
    nodes and the page stay consistent. *)
Theorem radix_insert_correct st look v k :
  (forall key, rtree st look 32 -> (k <= 32)%nat ->
     inserted look 32 (bits 32 k key) v st (ngx_radix32tree_insert key (cidr 32 k) v st))
  /\ (forall key, rtree st look 128 -> (k <= 128)%nat -> length key = 16%nat ->
     inserted look 128 (take k (bits128 key)) v st (ngx_radix128tree_insert key (cidr128 16 k) v st)).
Proof.
  split; intros key Hrt Hk.
  - unfold ngx_radix32tree_insert. rewrite prefix32_cidr by done. apply radix_insert_ok; [done|by rewrite bits_length].
  - intros Hl. unfold ngx_radix128tree_insert. rewrite (prefix128_cidr16 key _ Hl). apply radix_insert_ok; [done|]. rewrite length_take. lia.
Qed.

Lemma radix_insert_correct_witness : exists st, ngx_radix_tree_create 1 1 2 = Some (Some st)
  /\ inserted none 32 (bits 32 8 0x0a000000) 7 st (ngx_radix32tree_insert 0x0a000000 (cidr 32 8) 7 st).
Proof.
  destruct (ngx_radix_tree_create 1 1 2) as [[st|]|] eqn:He; [|exfalso; revert He; vm_compute; discriminate..].
  exists st. split; [done|]. apply (proj1 (radix_insert_correct st none 7 8)); [|lia]. apply (rtree_created 1 1 2 st He); lia.
Defined.

(** What a deletion does. *)
Definition deleted (look : list bool -> Z) (n : nat) (path : list bool) (st : state) (res : option (Z * state)) : Prop :=
  exists rc st', res = Some (rc, st') /\ rtree st' (upd path NGX_RADIX_NO_VALUE look) n
  /\ (look path <> NGX_RADIX_NO_VALUE -> rc = NGX_OK) /\ (rc = NGX_OK \/ rc = NGX_ERROR /\ st' = st).

(** ngx_radix32tree_delete and ngx_radix128tree_delete of a network take away its value and
    no other one, also when they unlink the node and every node above it that has no child and
    no value left; the unlinked nodes are in the list of free nodes.  The result is NGX_OK if
    there was a value.  The network of length zero needs another network with a value in the
    tree. *)
Theorem radix_delete_correct st look k : (k <> 0)%nat \/ (exists q, q <> [] /\ look q <> NGX_RADIX_NO_VALUE) ->
  (forall key, rtree st look 32 -> (k <= 32)%nat ->
     deleted look 32 (bits 32 k key) st (ngx_radix32tree_delete key (cidr 32 k) st))
  /\ (forall key, rtree st look 128 -> (k <= 128)%nat -> length key = 16%nat ->
     deleted look 128 (take k (bits128 key)) st (ngx_radix128tree_delete key (cidr128 16 k) st)).
Proof.
  intros Hk0. split; intros key Hrt Hk.
  - unfold ngx_radix32tree_delete. rewrite prefix32_cidr by done. apply radix_delete_ok; [done|by rewrite bits_length|].
    destruct Hk0 as [?|?]; [left|by right]. intros He. apply (f_equal length) in He. rewrite bits_length in He. cbn in He. lia.
  - intros Hl. unfold ngx_radix128tree_delete. rewrite (prefix128_cidr16 key _ Hl). apply radix_delete_ok; [done|rewrite length_take; lia|].
    destruct Hk0 as [?|?]; [left|by right]. intros He. apply (f_equal length) in He. rewrite length_take, bits128_length in He. cbn in He. lia.
Qed.

Lemma radix_delete_correct_witness : exists st, ngx_radix_tree_create 1 1 2 = Some (Some st)
  /\ deleted none 32 (bits 32 2 0x40000000) st (ngx_radix32tree_delete 0x40000000 (cidr 32 2) st).
Proof.
  destruct (ngx_radix_tree_create 1 1 2) as [[st|]|] eqn:He; [|exfalso; revert He; vm_compute; discriminate..].
  exists st. split; [done|]. apply (proj1 (radix_delete_correct st none 2 ltac:(left; lia))); [|lia]. apply (rtree_created 1 1 2 st He); lia.
Defined.

(** A tree whose only node is the root: deleting the network of length zero follows the
    parent pointer of the root, which is NULL. *)
Example delete_default_null v :
  (st ← mjoin (ngx_radix_tree_create 1 1 0); '(_, st) ← ngx_radix32tree_insert 0 0 v st; ngx_radix32tree_delete 0 0 st) = None.
Proof. vm_compute. reflexivity. Qed.

(** C21. ngx_radix32tree_find returns the value of the longest network that contains the address
    and has a value, NGX_RADIX_NO_VALUE if there is none.  So does ngx_radix128tree_find: when
    the tree has networks of 128 bits the byte behind the address has to be readable, and its
    value does not matter; otherwise it is not read. *)
Theorem radix_find_longest_prefix st look :
  (forall key, rtree st look 32 ->
     exists v, ngx_radix32tree_find key st = Some v /\ longest look (bits 32 32 key) v)
  /\ (forall key past, rtree st look 128 -> length key = 16%nat -> past <> None \/ rtree st look 127 ->
     exists v, ngx_radix128tree_find past key st = Some v /\ longest look (bits128 key) v).
Proof.
  split.
  - intros key Hrt. unfold ngx_radix32tree_find. change 0xffffffff with (cidr 32 32). rewrite prefix32_cidr by lia.
    eapply find_ok; [exact Hrt|apply bits_length|lia|by left].
  - intros key past Hrt Hl Hp. unfold ngx_radix128tree_find. change (replicate 16 0xff) with (cidr128 16 128).
    rewrite (prefix128_cidr16 key _ Hl). assert (Hlen : length (bits128 key) = 128%nat) by (rewrite bits128_length, Hl; done).
    rewrite take_ge by lia. eapply find_ok; [exact Hrt|done|lia|]. destruct Hp; [by left|right; by split].
Qed.

Lemma radix_find_longest_prefix_witness : exists st st' v, ngx_radix_tree_create 1 1 2 = Some (Some st)
  /\ ngx_radix32tree_insert 0x0a000000 (cidr 32 8) 7 st = Some (NGX_OK, st')
  /\ ngx_radix32tree_find 0x0a010203 st' = Some v /\ longest (upd (bits 32 8 0x0a000000) 7 none) (bits 32 32 0x0a010203) v.
Proof.
  destruct (ngx_radix_tree_create 1 1 2) as [[st|]|] eqn:He; [|exfalso; revert He; vm_compute; discriminate..].
  pose proof (rtree_created 1 1 2 st He ltac:(lia) ltac:(lia)) as Hrt.
  destruct (radix_insert_ok st none 32 (bits 32 8 0x0a000000) 7 Hrt ltac:(rewrite bits_length; lia)) as (rc & st' & Hi & HR).
  rewrite <- prefix32_cidr in Hi by lia.
  assert (Hrc : (st ← mjoin (ngx_radix_tree_create 1 1 2); '(rc, _) ← insert (prefix32 32 0x80000000 0x0a000000 (cidr 32 8)) 7 st; Some rc) = Some NGX_OK)
    by (vm_compute; reflexivity).
  rewrite He in Hrc. cbn [mjoin option_join mbind option_bind] in Hrc. rewrite Hi in Hrc. cbn in Hrc. injection Hrc as ->.
  destruct HR as [(_ & Hc & _)|[(_ & Hc & _)|(_ & _ & Hrt')]]; [clear -Hc; discriminate Hc..|].
  destruct (proj1 (radix_find_longest_prefix st' _) 0x0a010203 Hrt') as (v & Hv & HL). exists st, st', v.
  exact (conj eq_refl (conj Hi (conj Hv HL))).
Defined.

End Radix.
