(* ===== verification/Inet.v ===== *)
(** * Addresses: core/ngx_inet.c

    Reading and printing of IPv4 and IPv6 addresses, networks in CIDR notation and the
    comparison of an address with a list of networks.

    An in_addr_t is the 32-bit number that the machine (little-endian) sees for the four
    bytes of the address; an IPv6 address is its 16 bytes.  A buffer that is written
    through a pointer is a list with a position, and a write behind its end has no
    result. *)

From S2P Require Import Prelude NgxNumber NgxPrint RadixTree.

Module Inet.

Definition INADDR_NONE : Z := 0xffffffff.

(** htonl and ntohl on a little-endian machine *)
Definition htonl (x : Z) : Z :=
  Z.lor (Z.shiftl (Z.land x 0xff) 24)
    (Z.lor (Z.shiftl (Z.land (Z.shiftr x 8) 0xff) 16)
       (Z.lor (Z.shiftl (Z.land (Z.shiftr x 16) 0xff) 8) (Z.land (Z.shiftr x 24) 0xff))).
Definition htons (x : Z) : Z := Z.lor (Z.shiftl (Z.land x 0xff) 8) (Z.land (Z.shiftr x 8) 0xff).

(** The bytes of a 32-bit number in memory. *)
Definition bytes4 (x : Z) : list Z := [Z.land x 0xff; Z.land (Z.shiftr x 8) 0xff; Z.land (Z.shiftr x 16) 0xff; Z.land (Z.shiftr x 24) 0xff].

(** ** ngx_inet_addr *)

Fixpoint inet_addr_loop (text : list Z) (addr octet n : Z) : option (Z * Z * Z) :=
  match text with
  | [] => Some (addr, octet, n)
  | c :: text =>
      if (ch("0") <=? c) && (c <=? ch("9")) then
        let octet := octet * 10 + (c - ch("0")) in
        if 255 <? octet then None else inet_addr_loop text addr octet n
      else if c =? ch(".") then inet_addr_loop text (u32 (Z.shiftl addr 8 + octet)) 0 (n + 1)
      else None
  end.

Definition ngx_inet_addr (text : list Z) : Z :=
  match inet_addr_loop text 0 0 0 with
  | None => INADDR_NONE
  | Some (addr, octet, n) => if n =? 3 then htonl (u32 (Z.shiftl addr 8 + octet)) else INADDR_NONE
  end.

(** ** ngx_inet6_addr *)

(** The local variables; [digit] is the text from the pointer on. *)
Record st6 := St6 { buf : list Z; pos : nat; zero6 : option nat; digit : option (list Z); nibbles : Z; word : Z; n6 : Z }.

(** [None] outside: a write behind the buffer. *)
Definition put (b : Z) (s : st6) : option st6 :=
  if (pos s <? length (buf s))%nat
  then Some (St6 (<[pos s := b]> (buf s)) (S (pos s)) (zero6 s) (digit s) (nibbles s) (word s) (n6 s))
  else None.

(** *addr++ = (u_char) (word >> 8); *addr++ = (u_char) (word & 0xff) *)
Definition put_word (s : st6) : option st6 :=
  s ← put (u8 (Z.shiftr (word s) 8)) s; put (Z.land (word s) 0xff) s.

(** The loop; [None] inside is NGX_ERROR. *)
Fixpoint inet6_loop (p : list Z) (s : st6) : option (option st6) :=
  match p with
  | [] => Some (Some s)
  | c :: p =>
      if c =? ch(":") then
        if negb (nibbles s =? 0) then
          s ← put_word s;
          if negb (n6 s - 1 =? 0)
          then inet6_loop p (St6 (buf s) (pos s) (zero6 s) (Some p) 0 0 (n6 s - 1))
          else Some None
        else
          match zero6 s with
          | None => inet6_loop p (St6 (buf s) (pos s) (Some (pos s)) (Some p) (nibbles s) (word s) (n6 s))
          | Some _ => Some None
          end
      else if (c =? ch(".")) && negb (nibbles s =? 0) then
        match digit s with
        | None => Some None
        | Some dg =>
            if n6 s <? 2 then Some None
            else
              let w := ngx_inet_addr dg in
              if w =? INADDR_NONE then Some None
              else
                let w := htonl w in
                s ← put (Z.land (Z.shiftr w 24) 0xff) s;
                s ← put (Z.land (Z.shiftr w 16) 0xff) s;
                Some (Some (St6 (buf s) (pos s) (zero6 s) (digit s) (nibbles s) w (n6 s - 1)))
        end
      else
        let k := nibbles s + 1 in
        if 4 <? k then Some None
        else if (ch("0") <=? c) && (c <=? ch("9")) then
          inet6_loop p (St6 (buf s) (pos s) (zero6 s) (digit s) k (word s * 16 + (c - ch("0"))) (n6 s))
        else
          let c := Z.lor c 0x20 in
          if (ch("a") <=? c) && (c <=? ch("f")) then
            inet6_loop p (St6 (buf s) (pos s) (zero6 s) (digit s) k (word s * 16 + (c - ch("a")) + 10) (n6 s))
          else Some None
  end.

(** while (s >= zero) *d-- = *s-- with [k] bytes to go *)
Fixpoint move_up (k : nat) (s d : nat) (b : list Z) : option (list Z) :=
  match k with
  | O => Some b
  | S k => x ← b !! s; if (d <? length b)%nat then move_up k (pred s) (pred d) (<[d := x]> b) else None
  end.

Fixpoint memzero (k : nat) (d : nat) (b : list Z) : option (list Z) :=
  match k with
  | O => Some b
  | S k => if (d <? length b)%nat then memzero k (S d) (<[d := 0]> b) else None
  end.

(** What follows the loop: the last word, then the words behind "::" are moved to the end. *)
Definition inet6_finish (s : st6) : option (option (list Z)) :=
  if (nibbles s =? 0) && bool_decide (zero6 s = None) then Some None
  else
    s ← put_word s;
    let n := n6 s - 1 in
    if negb (n =? 0) then
      match zero6 s with
      | Some z =>
          let k := Z.to_nat (n * 2) in
          b ← move_up (pos s - z) (pred (pos s)) (pred (pos s) + k) (buf s);
          b ← memzero k z b;
          Some (Some b)
      | None => Some None
      end
    else
      match zero6 s with
      | None => Some (Some (buf s))
      | Some _ => Some None
      end.

(** The loop and what follows it. *)
Definition inet6_parse (p : list Z) (s : st6) : option (option (list Z)) :=
  r ← inet6_loop p s;
  match r with
  | None => Some None
  | Some s => inet6_finish s
  end.

(** ngx_inet6_addr: the buffer [addr] after NGX_OK *)
Definition ngx_inet6_addr (p : list Z) (addr : list Z) : option (option (list Z)) :=
  match p with
  | [] => Some None
  | c :: p' => inet6_parse (if c =? ch(":") then p' else p) (St6 addr 0 None None 0 0 8)
  end.

(** ** Printing *)

Definition NGX_INET_ADDRSTRLEN : Z := 15.
Definition NGX_INET6_ADDRSTRLEN : Z := 45.

(** The first loop of ngx_inet6_ntop: the longest run of zeros.  -1 stands for (ngx_uint_t) -1. *)
Fixpoint zero_run (p : list Z) (i zero last max n : Z) : Z * Z :=
  match p with
  | a :: b :: p =>
      if negb (a =? 0) || negb (b =? 0) then
        if max <? n then zero_run p (i + 2) last last n 0 else zero_run p (i + 2) zero last max 0
      else zero_run p (i + 2) zero (if n =? 0 then i else last) max (n + 1)
  | _ => if max <? n then (last, n) else (zero, max)
  end.

(** The second loop; [text] is the address of the output. *)
Fixpoint print_words (fuel : nat) (text : Z) (p : list Z) (i n zero max : Z) (out : list Z) : option (list Z) :=
  if negb (i <? n) then Some out
  else
    match fuel with
    | O => None
    | S fuel =>
        if i =? zero then print_words fuel text p (i + (max - 1) * 2 + 2) n zero max (out ++ [ch(":")])
        else
          a ← p !! Z.to_nat i;
          b ← p !! Z.to_nat (i + 1);
          t ← ngx_sprintf (text + Z.of_nat (length out)) (str("%xd")) [AInt (a * 256 + b)];
          let out := out ++ t in
          let out := if i <? 14 then out ++ [ch(":")] else out in
          print_words fuel text p (i + 2) n zero max out
    end.

Definition print_dotted (text : Z) (p : list Z) (out : list Z) : option (list Z) :=
  a ← p !! 12%nat; b ← p !! 13%nat; c ← p !! 14%nat; d ← p !! 15%nat;
  t ← ngx_sprintf (text + Z.of_nat (length out)) (str("%ud.%ud.%ud.%ud")) [AInt a; AInt b; AInt c; AInt d];
  Some (out ++ t).

(** ngx_inet6_ntop *)
Definition ngx_inet6_ntop (p : list Z) (text : Z) (len : Z) : option (list Z) :=
  if len <? NGX_INET6_ADDRSTRLEN then Some []
  else
    let '(zero, max) := zero_run p 0 (-1) (-1) 1 0 in
    p10 ← p !! 10%nat; p11 ← p !! 11%nat; p14 ← p !! 14%nat; p15 ← p !! 15%nat;
    let n := if (zero =? 0) && (((max =? 5) && (p10 =? 0xff) && (p11 =? 0xff)) || (max =? 6)
                                || ((max =? 7) && negb (p14 =? 0) && negb (p15 =? 1)))
             then 12 else 16 in
    out ← print_words 8 text p 0 n zero max (if zero =? 0 then [ch(":")] else []);
    if n =? 12 then print_dotted text p out else Some out.

(** ngx_inet_ntop for AF_INET; [p] are the four bytes. *)
Definition ngx_inet_ntop4 (p : list Z) (len : Z) : option (list Z) :=
  a ← p !! 0%nat; b ← p !! 1%nat; c ← p !! 2%nat; d ← p !! 3%nat;
  ngx_snprintf len (str("%ud.%ud.%ud.%ud")) [AInt a; AInt b; AInt c; AInt d].

Inductive af := AF_INET | AF_INET6 | AF_UNIX.

Definition ngx_inet_ntop (family : af) (addr : list Z) (text len : Z) : option (list Z) :=
  match family with
  | AF_INET => ngx_inet_ntop4 addr len
  | AF_INET6 => ngx_inet6_ntop addr text len
  | AF_UNIX => Some []
  end.

(** struct sockaddr_in and the others; the ports are in network order, the path of a socket
    is as long as socklen says. *)
Inductive sockaddr :=
| sockaddr_in (s_addr port : Z)
| sockaddr_in6 (s6_addr : list Z) (port : Z)
| sockaddr_un (sun_path : list Z).

(** ngx_strnlen *)
Fixpoint before_nul (s : list Z) : list Z :=
  match s with c :: s => if c =? 0 then [] else c :: before_nul s | [] => [] end.

(** ngx_sock_ntop: the text of length [n]; for AF_UNIX the NUL that is written behind it is
    left out, as it is in the length. *)
Definition ngx_sock_ntop (sa : sockaddr) (text len : Z) (port : bool) : option (list Z) :=
  match sa with
  | sockaddr_in a pt =>
      let p := bytes4 a in
      b0 ← p !! 0%nat; b1 ← p !! 1%nat; b2 ← p !! 2%nat; b3 ← p !! 3%nat;
      if port then ngx_snprintf len (str("%ud.%ud.%ud.%ud:%d")) [AInt b0; AInt b1; AInt b2; AInt b3; AInt (htons pt)]
      else ngx_snprintf len (str("%ud.%ud.%ud.%ud")) [AInt b0; AInt b1; AInt b2; AInt b3]
  | sockaddr_in6 a pt =>
      if port then
        t ← ngx_inet6_ntop a (text + 1) len;
        r ← ngx_sprintf (text + 1 + Z.of_nat (length t)) (str("]:%d")) [AInt (htons pt)];
        Some (ch("[") :: t ++ r)
      else ngx_inet6_ntop a text len
  | sockaddr_un path =>
      t ← (match path with
           | [] => ngx_snprintf len (str("unix:%Z")) []
           | _ => ngx_snprintf len (str("unix:%*s%Z")) [AInt (Z.of_nat (length (before_nul path))); AStr (before_nul path)]
           end);
      Some (take (pred (length t)) t)
  end.

(** ** Networks *)

(** ngx_strlchr: the text before the character, and behind it. *)
Fixpoint ngx_strlchr (p : list Z) (c : Z) : option (list Z * list Z) :=
  match p with
  | [] => None
  | x :: p => if x =? c then Some ([], p) else '(a, b) ← ngx_strlchr p c; Some (x :: a, b)
  end.

(** ngx_cidr_t *)
Inductive ngx_cidr_t :=
| cidr_in (addr mask : Z)
| cidr_in6 (addr mask : list Z)
| cidr_unix.

(** The loop over the bytes of an IPv6 network: the address, the mask and the result. *)
Fixpoint mask6 (addr : list Z) (shift rc : Z) : list Z * list Z * Z :=
  match addr with
  | [] => ([], [], rc)
  | a :: addr =>
      let s := if 8 <? shift then 8 else shift in
      let m := u8 (Z.shiftl 0xff (8 - s)) in
      let rc := if negb (a =? Z.land a m) then NGX_DONE else rc in
      let '(l, ms, rc) := mask6 addr (shift - s) rc in
      (Z.land a m :: l, m :: ms, rc)
  end.

(** ngx_ptocidr; [old] is what the 16 bytes of the address hold before, and [None] inside
    is NGX_ERROR. *)
Definition ngx_ptocidr (text old : list Z) : option (option (Z * ngx_cidr_t)) :=
  let '(addr, mask) := match ngx_strlchr text (ch("/")) with Some (a, m) => (a, Some m) | None => (text, None) end in
  let inaddr := ngx_inet_addr addr in
  if negb (inaddr =? INADDR_NONE) then
    match mask with
    | None => Some (Some (NGX_OK, cidr_in inaddr 0xffffffff))
    | Some mask =>
        let shift := ngx_atoi mask in
        if shift =? NGX_ERROR then Some None
        else if 32 <? shift then Some None
        else
          let m := if negb (shift =? 0) then htonl (u32 (Z.shiftl 0xffffffff (32 - shift))) else 0 in
          if inaddr =? Z.land inaddr m then Some (Some (NGX_OK, cidr_in inaddr m))
          else Some (Some (NGX_DONE, cidr_in (Z.land inaddr m) m))
    end
  else
    r ← ngx_inet6_addr addr old;
    match r with
    | None => Some None
    | Some addr6 =>
        match mask with
        | None => Some (Some (NGX_OK, cidr_in6 addr6 (replicate 16 0xff)))
        | Some mask =>
            let shift := ngx_atoi mask in
            if shift =? NGX_ERROR then Some None
            else if 128 <? shift then Some None
            else let '(a, m, rc) := mask6 addr6 shift NGX_OK in Some (Some (rc, cidr_in6 a m))
        end
    end.

(** IN6_IS_ADDR_V4MAPPED *)
Definition v4mapped (a : list Z) : bool := bool_decide (take 12 a = replicate 10 0 ++ [0xff; 0xff]).

(** The comparison of the bytes of an IPv6 address. *)
Fixpoint match6 (a mask net : list Z) : bool :=
  match a, mask, net with
  | x :: a, m :: mask, y :: net => if negb (Z.land x m =? y) then false else match6 a mask net
  | _, _, _ => true
  end.

(** The address as the loop of ngx_cidr_match sees it: a mapped IPv4 address is one. *)
Definition match_addr (sa : sockaddr) : sockaddr :=
  match sa with
  | sockaddr_in6 a pt =>
      if v4mapped a
      then sockaddr_in (htonl (u32 (Z.shiftl (nth 12 a 0) 24 + Z.shiftl (nth 13 a 0) 16 + Z.shiftl (nth 14 a 0) 8 + nth 15 a 0))) pt
      else sa
  | _ => sa
  end.

Definition match_one (sa : sockaddr) (c : ngx_cidr_t) : bool :=
  match sa, c with
  | sockaddr_in6 a _, cidr_in6 net mask => match6 a mask net
  | sockaddr_un _, cidr_unix => true
  | sockaddr_in a _, cidr_in net mask => Z.land a mask =? net
  | _, _ => false
  end.

Fixpoint match_loop (sa : sockaddr) (cidrs : list ngx_cidr_t) : Z :=
  match cidrs with
  | [] => NGX_DECLINED
  | c :: cidrs => if match_one sa c then NGX_OK else match_loop sa cidrs
  end.

Definition ngx_cidr_match (sa : sockaddr) (cidrs : list ngx_cidr_t) : Z := match_loop (match_addr sa) cidrs.

(** ** Socket addresses *)

(** ngx_parse_addr; [None] inside is NGX_DECLINED, and the allocation succeeds. *)
Definition ngx_parse_addr (text : list Z) : option (option sockaddr) :=
  let inaddr := ngx_inet_addr text in
  if negb (inaddr =? INADDR_NONE) then Some (Some (sockaddr_in inaddr 0))
  else
    r ← ngx_inet6_addr text (replicate 16 0);
    match r with
    | Some a => Some (Some (sockaddr_in6 a 0))
    | None => Some None
    end.

Definition ngx_inet_set_port (sa : sockaddr) (port : Z) : sockaddr :=
  match sa with
  | sockaddr_in a _ => sockaddr_in a (htons port)
  | sockaddr_in6 a _ => sockaddr_in6 a (htons port)
  | _ => sa
  end.

Definition ngx_inet_get_port (sa : sockaddr) : Z :=
  match sa with
  | sockaddr_in _ p | sockaddr_in6 _ p => htons p
  | _ => 0
  end.

Definition ngx_inet_wildcard (sa : sockaddr) : bool :=
  match sa with
  | sockaddr_in a _ => a =? 0
  | sockaddr_in6 a _ => bool_decide (a = replicate 16 0)
  | _ => false
  end.

(** The end of ngx_parse_addr_port: the port behind the colon, then the address. *)
Definition parse_with_port (addr port : list Z) : option (option sockaddr) :=
  let p := ngx_atoi port in
  if (p <? 1) || (65535 <? p) then Some None
  else
    r ← ngx_parse_addr addr;
    match r with
    | None => Some None
    | Some sa => Some (Some (ngx_inet_set_port sa p))
    end.

Definition ngx_parse_addr_port (text : list Z) : option (option sockaddr) :=
  r ← ngx_parse_addr text;
  match r with
  | Some sa => Some (Some sa)
  | None =>
      if bool_decide (head text = Some (ch("["))) then
        match ngx_strlchr text (ch("]")) with
        | None => Some None
        | Some (a, []) => ngx_parse_addr (tail a)
        | Some (a, c :: p) => if negb (c =? ch(":")) then Some None else parse_with_port (tail a) p
        end
      else
        match ngx_strlchr text (ch(":")) with
        | None => Some None
        | Some (a, p) => parse_with_port a p
        end
  end.

Definition ngx_cmp_sockaddr (sa1 sa2 : sockaddr) (cmp_port : bool) : Z :=
  match sa1, sa2 with
  | sockaddr_in6 a1 p1, sockaddr_in6 a2 p2 =>
      if cmp_port && negb (p1 =? p2) then NGX_DECLINED
      else if bool_decide (a1 = a2) then NGX_OK else NGX_DECLINED
  | sockaddr_un s1, sockaddr_un s2 =>
      (* sizeof(saun1->sun_path) *)
      let len := Nat.min 108 (Nat.min (length s1) (length s2)) in
      if bool_decide (take len s1 = take len s2) then NGX_OK else NGX_DECLINED
  | sockaddr_in a1 p1, sockaddr_in a2 p2 =>
      if cmp_port && negb (p1 =? p2) then NGX_DECLINED
      else if negb (a1 =? a2) then NGX_DECLINED else NGX_OK
  | _, _ => NGX_DECLINED
  end.

Example inet_ex :
  ngx_inet_addr (str("10.1.2.3")) = 0x0302010a
  /\ ngx_inet_addr (str("1..2.3")) = 0x03020001
  /\ ngx_inet6_addr (str("fe80::1:2")) (replicate 16 7) = Some (Some [0xfe;0x80;0;0;0;0;0;0;0;0;0;0;0;1;0;2])
  /\ ngx_inet6_addr (str("::ffff:1.2.3.4")) (replicate 16 7) = Some (Some [0;0;0;0;0;0;0;0;0;0;0xff;0xff;1;2;3;4])
  /\ ngx_inet6_addr (str("::1:")) (replicate 16 7) = Some (Some [0;0;0;0;0;0;0;0;0;0;0;0;0;1;0;0])
  /\ ngx_inet6_addr (str("1:2:3:4:5:6:7::")) (replicate 16 7) = Some None
  /\ ngx_inet6_ntop [0xfe;0x80;0;0;0;0;0;0;0;0;0;0;0;1;0;2] 0x1000 45 = Some (str("fe80::1:2"))
  /\ ngx_inet6_ntop [0;0;0;0;0;0;0;0;0;0;0xff;0xff;1;2;3;4] 0x1000 45 = Some (str("::ffff:1.2.3.4"))
  /\ ngx_sock_ntop (sockaddr_in6 (replicate 16 0) (htons 80)) 0x1000 64 true = Some (str("[::]:80"))
  /\ ngx_ptocidr (str("10.1.2.3/8")) (replicate 16 0) = Some (Some (NGX_DONE, cidr_in 0x0a 0xff))
  /\ ngx_parse_addr_port (str("[::1]:443")) = Some (Some (sockaddr_in6 (replicate 15 0 ++ [1]) (htons 443)))
  /\ ngx_cidr_match (sockaddr_in 0x0708090a 0) [cidr_in6 [] []; cidr_in 0x0a 0xff] = NGX_OK.
Proof. vm_compute. repeat split. Qed.

(** ** Numbers in network order *)

(** The number a little-endian machine sees for four bytes. *)
Definition le4 (a b c d : Z) : Z := a + b * 256 + c * 65536 + d * 16777216.

Lemma htonl_arith x : 0 <= x -> htonl x = x mod 256 * 16777216 + x / 256 mod 256 * 65536 + x / 65536 mod 256 * 256 + x / 16777216 mod 256.
Proof.
  intros Hx. unfold htonl. rewrite (lor_shiftl_add _ _ 8), (lor_shiftl_add _ _ 16), (lor_shiftl_add _ _ 24) by (try lia; bits_to_arith; zlia).
  bits_to_arith. zlia.
Qed.

Lemma htonl_le4 a b c d : is_byte a -> is_byte b -> is_byte c -> is_byte d ->
  htonl (((a * 256 + b) * 256 + c) * 256 + d) = le4 a b c d /\ htonl (le4 a b c d) = ((a * 256 + b) * 256 + c) * 256 + d.
Proof. unfold is_byte, le4. intros. rewrite !htonl_arith by lia. split; zlia. Qed.

Lemma bytes4_le4 a b c d : is_byte a -> is_byte b -> is_byte c -> is_byte d -> bytes4 (le4 a b c d) = [a; b; c; d].
Proof. unfold is_byte, le4, bytes4. intros. bits_to_arith. repeat f_equal; zlia. Qed.

Lemma le4_bytes x : in_u 32 x -> exists a b c d, x = le4 a b c d /\ is_byte a /\ is_byte b /\ is_byte c /\ is_byte d.
Proof.
  unfold in_u. intros Hx. exists (x mod 256), (x / 256 mod 256), (x / 65536 mod 256), (x / 16777216).
  unfold le4, is_byte. split_and!; zlia.
Qed.

Lemma htons_htons x : in_u 16 x -> htons (htons x) = x /\ in_u 16 (htons x).
Proof.
  unfold in_u, htons. intros Hx. rewrite (lor_shiftl_add (Z.land x 255)) by (try lia; bits_to_arith; zlia).
  rewrite (lor_shiftl_add _ _ 8) by (try lia; bits_to_arith; zlia). bits_to_arith. split; zlia.
Qed.

(** ** Dotted addresses *)

(** The fields between the dots. *)
Fixpoint fields (text : list Z) : list (list Z) :=
  match text with
  | [] => [[]]
  | c :: text =>
      if c =? ch(".") then [] :: fields text
      else match fields text with f :: fs => (c :: f) :: fs | [] => [] end
  end.

Definition field_ok (f : list Z) : bool := forallb is_digit f && (dec_value 0 f <=? 255).

(** What ngx_inet_addr promises: four fields of digits, each at most 255; a field may be
    empty. *)
Definition inet_spec (text : list Z) : Z :=
  match fields text with
  | [f0; f1; f2; f3] =>
      if forallb field_ok [f0; f1; f2; f3] then le4 (dec_value 0 f0) (dec_value 0 f1) (dec_value 0 f2) (dec_value 0 f3)
      else INADDR_NONE
  | _ => INADDR_NONE
  end.

Lemma fields_cons text : exists f fs, fields text = f :: fs.
Proof. induction text as [|c text (f & fs & IH)]; cbn; [by eexists _, _|]. destruct (c =? _); [by eexists _, _|]. rewrite IH. by eexists _, _. Qed.

(** The octets that are complete, in [addr]. *)
Definition push_octets (addr : Z) (os : list Z) : Z := fold_left (fun a o => u32 (Z.shiftl a 8 + o)) os addr.

Lemma inet_addr_loop_spec text : forall addr octet n f fs, 0 <= octet <= 255 -> fields text = f :: fs ->
  inet_addr_loop text addr octet n
  = if forallb is_digit f && (dec_value octet f <=? 255) && forallb field_ok fs
    then Some (push_octets addr (removelast (dec_value octet f :: map (dec_value 0) fs)),
               List.last (dec_value octet f :: map (dec_value 0) fs) 0, n + Z.of_nat (length fs))
    else None.
Proof.
  induction text as [|c text IH]; intros addr octet n f fs Ho Hf; cbn [fields] in Hf; cbn [inet_addr_loop].
  - simplify_eq. cbn. rewrite (proj2 (Z.leb_le octet 255)) by lia. repeat f_equal. lia.
  - fold (is_digit c). destruct (fields_cons text) as (g & gs & Hg). rewrite Hg in Hf. destruct (is_digit c) eqn:Hc.
    + assert (Hnd : (c =? ch(".")) = false) by (unfold is_digit in Hc; zbool; lia). rewrite Hnd in Hf. simplify_eq.
      cbn [forallb dec_value]. rewrite Hc. cbn [andb]. destruct (Z.ltb_spec 255 (octet * 10 + (c - 48))) as [Hb|Hb].
      * destruct (forallb is_digit g) eqn:Hgd; [|done]. cbn [andb].
        pose proof (dec_value_mono (octet * 10 + (c - 48)) g ltac:(lia) Hgd). destruct (Z.leb_spec (dec_value (octet * 10 + (c - 48)) g) 255); [lia|done].
      * unfold is_digit in Hc. zbool. apply (IH addr _ n g fs); [lia|done].
    + destruct (Z.eqb_spec c (ch("."))) as [->|Hd].
      * simplify_eq. cbn [forallb dec_value andb]. rewrite (IH _ 0 (n + 1) g gs) by (done || lia).
        rewrite (proj2 (Z.leb_le octet 255)) by lia. cbn [andb forallb]. change (field_ok g) with (forallb is_digit g && (dec_value 0 g <=? 255)).
        destruct (forallb is_digit g && (dec_value 0 g <=? 255) && forallb field_ok gs); [|done].
        cbn [map length]. replace (n + 1 + Z.of_nat (length gs)) with (n + Z.of_nat (S (length gs))) by lia. reflexivity.
      * simplify_eq. cbn [forallb]. by rewrite Hc.
Qed.

Lemma field_value f : field_ok f = true -> is_byte (dec_value 0 f).
Proof. unfold field_ok, is_byte. intros H. zbool. pose proof (dec_value_mono 0 f ltac:(lia) H). lia. Qed.

Lemma inet_addr_spec text : ngx_inet_addr text = inet_spec text.
Proof.
  unfold ngx_inet_addr, inet_spec. destruct (fields_cons text) as (f & fs & Hf). rewrite (inet_addr_loop_spec text 0 0 0 f fs) by (done || lia).
  rewrite Hf. destruct (Z.eqb_spec (Z.of_nat (length fs)) 3) as [Hl|Hl].
  - destruct fs as [|f1 [|f2 [|f3 [|]]]]; cbn in Hl; try lia. cbn [forallb]. fold (field_ok f).
    destruct (field_ok f) eqn:H0; cbn [andb]; [|done]. destruct (field_ok f1) eqn:H1; cbn [andb]; [|done].
    destruct (field_ok f2) eqn:H2; cbn [andb]; [|done]. destruct (field_ok f3) eqn:H3; cbn [andb]; [|done].
    apply field_value in H0, H1, H2, H3. rewrite <- (proj1 (htonl_le4 _ _ _ _ H0 H1 H2 H3)).
    cbn [map removelast List.last push_octets fold_left length Z.of_nat Z.add Z.eqb Pos.eqb]. unfold is_byte in *. f_equal.
    rewrite !Z.shiftl_mul_pow2 by lia. change (2 ^ 8) with 256. unfold wrap. zlia.
  - destruct (forallb is_digit f && _ && _) eqn:Hok; [|destruct fs as [|f1 [|f2 [|f3 [|]]]]; try done; cbn in Hl; lia].
    destruct (Z.eqb_spec (0 + Z.of_nat (length fs)) 3); [lia|]. destruct fs as [|f1 [|f2 [|f3 [|]]]]; try done; cbn in Hl; lia.
Qed.

(** ** The text of addresses *)

Definition dec (n : Z) : list Z := num_digits 0 n.
Definition hexd (n : Z) : list Z := num_digits 1 n.

Lemma dec_facts n : 0 <= n < 2 ^ 31 -> forallb is_digit (dec n) = true /\ dec_value 0 (dec n) = n /\ (0 < length (dec n))%nat
  /\ (forall k, 0 < k -> n < 10 ^ k -> Z.of_nat (length (dec n)) <= k).
Proof. intros Hn. destruct (num_digits_decimal n) as (ds & Hds & H1 & H2 & H3 & H4 & _); [unfold in_u; lia|]. unfold dec. by rewrite Hds. Qed.

Lemma dec_byte n : is_byte n -> forallb is_digit (dec n) = true /\ dec_value 0 (dec n) = n /\ (0 < length (dec n) <= 3)%nat.
Proof.
  unfold is_byte. intros Hn. destruct (dec_facts n) as (H1 & H2 & H3 & H4); [lia|]. split_and!; [done|done|lia|].
  specialize (H4 3 ltac:(lia)). lia.
Qed.

Lemma hexd_facts w : 0 <= w < 65536 -> bytes_ok (hexd w) /\ hex_value 0 (hexd w) = Some w /\ (0 < length (hexd w) <= 4)%nat.
Proof.
  intros Hw. unfold hexd, num_digits. cbn [Z.eqb Pos.eqb].
  destruct (hex_digits_spec hex_lower 64 w [] (or_introl eq_refl)) as (ds & -> & H1 & H2 & H3 & H4); [lia|split; [lia|]|].
  { apply Z.lt_trans with 65536; [lia|vm_compute; done]. }
  rewrite app_nil_r. split_and!; [done|done|lia|]. specialize (H4 4 ltac:(lia)). lia.
Qed.

(** The conversions %ud, %xd and %d. *)
Definition conv_ud : conv := MkConv (ch(" ")) 0 false 0 false 0 None.
Definition conv_xd : conv := MkConv (ch(" ")) 0 false 1 false 0 None.
Definition conv_d : conv := MkConv (ch(" ")) 0 true 0 false 0 None.

Lemma num_text_plain n h : num_text n (ch(" ")) h 0 = num_digits h n.
Proof. unfold num_text. by replace (Z.to_nat (0 - Z.of_nat (length (num_digits h n)))) with 0%nat by lia. Qed.

Lemma put_dec sg n : 0 <= n < 2 ^ 31 -> appends1 (fun cap out => put_int cap out (MkConv (ch(" ")) 0 sg 0 false 0 None) sg 32 n) (dec n).
Proof. intros Hn. unfold dec. rewrite <- num_text_plain. apply (put_int_text (MkConv (ch(" ")) 0 sg 0 false 0 None)); lia. Qed.
Lemma put_hex n : 0 <= n < 2 ^ 31 -> appends1 (fun cap out => put_int cap out conv_xd false 32 n) (hexd n).
Proof. intros Hn. unfold hexd. rewrite <- num_text_plain. apply (put_int_text conv_xd); lia. Qed.

Ltac room4 := rewrite ?length_app; cbn [length app]; lia.
Ltac print_char4 := rewrite loop_char by first [reflexivity | room4].
Ltac print_dec c sg n H :=
  erewrite (loop_conv _ _ _ _ _ _ _ c _ _ _ (fun cap out => put_int cap out c sg 32 n) (dec n));
    [|room4|exact (put_dec sg n H)|reflexivity..].

Definition dotted (a b c d : Z) : list Z := dec a ++ str(".") ++ dec b ++ str(".") ++ dec c ++ str(".") ++ dec d.

Lemma dotted_length a b c d : is_byte a -> is_byte b -> is_byte c -> is_byte d -> (length (dotted a b c d) <= 15)%nat.
Proof. intros (_ & _ & Ha)%dec_byte (_ & _ & Hb)%dec_byte (_ & _ & Hc)%dec_byte (_ & _ & Hd)%dec_byte. unfold dotted. rewrite !length_app. cbn [length]. lia. Qed.

Lemma byte_31 n : is_byte n -> 0 <= n < 2 ^ 31.
Proof. unfold is_byte. lia. Qed.

Lemma sprintf_dotted buf a b c d : 0 <= buf < 2 ^ 63 -> is_byte a -> is_byte b -> is_byte c -> is_byte d ->
  ngx_sprintf buf (str("%ud.%ud.%ud.%ud")) [AInt a; AInt b; AInt c; AInt d] = Some (dotted a b c d).
Proof.
  intros Hb Ha Hb' Hc Hd. destruct (dec_byte a Ha) as (_ & _ & La), (dec_byte b Hb') as (_ & _ & Lb), (dec_byte c Hc) as (_ & _ & Lc), (dec_byte d Hd) as (_ & _ & Ld).
  apply byte_31 in Ha, Hb', Hc, Hd. unfold ngx_sprintf, ngx_vslprintf. cbn [length].
  print_dec conv_ud false a Ha. print_char4. print_dec conv_ud false b Hb'. print_char4. print_dec conv_ud false c Hc. print_char4. print_dec conv_ud false d Hd.
  rewrite loop_end. unfold dotted. f_equal. cbn [app]. by rewrite <- !app_assoc.
Qed.

Lemma snprintf_dotted max a b c d : 15 <= max -> is_byte a -> is_byte b -> is_byte c -> is_byte d ->
  ngx_snprintf max (str("%ud.%ud.%ud.%ud")) [AInt a; AInt b; AInt c; AInt d] = Some (dotted a b c d).
Proof.
  intros Hm Ha Hb Hc Hd. pose proof (sprintf_dotted 0 a b c d ltac:(lia) Ha Hb Hc Hd) as H. pose proof (dotted_length a b c d Ha Hb Hc Hd) as Hl.
  unfold ngx_snprintf. unfold ngx_sprintf, ngx_vslprintf in *. apply vslprintf_loop_cut in H as [_ H]; [|by_evaluation|cbn; lia|lia].
  specialize (H max ltac:(lia)). rewrite take_nil in H. rewrite H. f_equal. apply take_ge. lia.
Qed.

(** ** Reading dotted addresses back *)

Lemma fields_digits f : forallb is_digit f = true -> fields f = [f].
Proof.
  induction f as [|c f IH]; [done|]. cbn [forallb fields]. intros [Hc Hf]%andb_prop. rewrite IH by done.
  unfold is_digit in Hc. zbool. destruct (Z.eqb_spec c (ch("."))); [lia|done].
Qed.
Lemma fields_app f t : forallb is_digit f = true -> fields (f ++ ch(".") :: t) = f :: fields t.
Proof.
  induction f as [|c f IH]; [done|]. cbn [forallb fields app]. intros [Hc Hf]%andb_prop. rewrite IH by done.
  unfold is_digit in Hc. zbool. destruct (Z.eqb_spec c (ch("."))); [lia|done].
Qed.

Lemma inet_addr_dotted a b c d : is_byte a -> is_byte b -> is_byte c -> is_byte d -> ngx_inet_addr (dotted a b c d) = le4 a b c d.
Proof.
  intros Ha Hb Hc Hd. rewrite inet_addr_spec. unfold inet_spec, dotted. cbn [app].
  destruct (dec_byte a Ha) as (Da & Va & _), (dec_byte b Hb) as (Db & Vb & _), (dec_byte c Hc) as (Dc & Vc & _), (dec_byte d Hd) as (Dd & Vd & _).
  rewrite !fields_app, fields_digits by done. unfold field_ok. cbn [forallb]. rewrite Da, Db, Dc, Dd, Va, Vb, Vc, Vd. unfold is_byte in *.
  rewrite !(proj2 (Z.leb_le _ 255)) by lia. done.
Qed.

Lemma inet_ntop4_text len a b c d : 15 <= len -> is_byte a -> is_byte b -> is_byte c -> is_byte d ->
  ngx_inet_ntop AF_INET [a; b; c; d] 0 len = Some (dotted a b c d).
Proof. intros. cbn. by apply snprintf_dotted. Qed.

End Inet.
