(* ===== verification/Inet6.v ===== *)
(** * IPv6 addresses and socket addresses as text: what is printed is read back

    The proofs follow the text: words with their colons, the place of the two colons, the
    dotted end. *)

From S2P Require Import Prelude NgxNumber NgxPrint RadixTree Inet.

Module Inet6.
Import Inet.

(** ** The buffer of the parser *)

(** The bytes of a word. *)
Definition wb (w : Z) : list Z := [w / 256 mod 256; w mod 256].
Definition abytes (ws : list Z) : list Z := concat (map wb ws).
Definition word_ok (w : Z) : Prop := 0 <= w < 65536.

Lemma abytes_app a b : abytes (a ++ b) = abytes a ++ abytes b.
Proof. unfold abytes. by rewrite map_app, concat_app. Qed.
Lemma abytes_length ws : length (abytes ws) = (2 * length ws)%nat.
Proof. induction ws as [|w ws IH]; [done|]. unfold abytes in *. cbn [map concat length]. rewrite length_app, IH. cbn. lia. Qed.
Lemma abytes_zeros k : abytes (replicate k 0) = replicate (2 * k) 0.
Proof. induction k as [|k IH]; [done|]. replace (2 * S k)%nat with (S (S (2 * k))) by lia. cbn [replicate]. rewrite <- IH. done. Qed.

Lemma put_ok b done x junk z dg k w n :
  put b (St6 (done ++ x :: junk) (length done) z dg k w n)
  = Some (St6 ((done ++ [b]) ++ junk) (length (done ++ [b])) z dg k w n).
Proof.
  unfold put. cbn [pos buf zero6 digit nibbles word n6]. rewrite length_app. cbn [length].
  destruct (Nat.ltb_spec (length done) (length done + S (length junk))); [|lia].
  replace (length done) with (length done + 0)%nat at 1 by lia. rewrite insert_app_r. cbn. rewrite <- app_assoc, length_app. cbn.
  by rewrite Nat.add_1_r.
Qed.

Lemma put_word_ok done x y junk z dg k w n : 0 <= w ->
  put_word (St6 (done ++ x :: y :: junk) (length done) z dg k w n)
  = Some (St6 ((done ++ wb w) ++ junk) (length (done ++ wb w)) z dg k w n).
Proof.
  intros Hw. unfold put_word. cbn [word]. rewrite put_ok. cbn [mbind option_bind word]. rewrite put_ok. unfold wb, wrap.
  assert (H1 : Z.land w 0xff = w mod 256) by (by bits_to_arith). assert (H2 : Z.shiftr w 8 = w / 256) by (by bits_to_arith).
  rewrite H1, H2. by rewrite <- !app_assoc.
Qed.

Lemma insert_last_app (J : list Z) x T : <[length J := x]> (x :: J ++ T) = firstn (length J) (x :: J) ++ x :: T.
Proof. revert x. enough (H : forall y x, <[length J := x]> (y :: J ++ T) = firstn (length J) (y :: J) ++ x :: T) by done.
  induction J as [|j J IH]; intros y x; [done|]. cbn. by rewrite IH. Qed.

(** The words behind "::" are moved up by the length of the free part. *)
Lemma move_up_ok : forall B A J T, exists X, length X = length J
  /\ move_up (length B) (pred (length A + length B)) (pred (length A + length B) + length J) (A ++ B ++ J ++ T) = Some (A ++ X ++ B ++ T).
Proof.
  induction B as [|x B IH] using rev_ind; intros A J T; [by exists J|].
  rewrite length_app, Nat.add_1_r. cbn [move_up]. replace (pred (length A + S (length B))) with (length A + length B)%nat by lia.
  rewrite <- app_assoc. cbn [app]. rewrite lookup_app_r, lookup_app_r by lia.
  replace (length A + length B - length A - length B)%nat with 0%nat by lia. cbn [lookup list_lookup mbind option_bind].
  destruct (Nat.ltb_spec (length A + length B + length J) (length (A ++ B ++ x :: J ++ T))); [|rewrite !length_app in *; cbn [length] in *; rewrite length_app in *; lia].
  replace (length A + length B + length J)%nat with (length A + (length B + length J))%nat by lia.
  rewrite insert_app_r, insert_app_r, insert_last_app.
  set (J' := firstn (length J) (x :: J)). assert (HJ : length J' = length J) by (subst J'; rewrite length_firstn; cbn; lia).
  destruct (IH A J' (x :: T)) as (X & HX & HM). exists X. split; [lia|]. rewrite HJ in HM.
  destruct B as [|b B]; [cbn [length move_up app] in HM |- *; exact HM|].
  replace (pred (length A + (length (b :: B) + length J))) with (pred (length A + length (b :: B)) + length J)%nat by (cbn; lia).
  rewrite HM. by rewrite <- app_assoc.
Qed.

Lemma memzero_ok : forall X A R, memzero (length X) (length A) (A ++ X ++ R) = Some (A ++ replicate (length X) 0 ++ R).
Proof.
  induction X as [|x X IH]; intros A R; [done|]. cbn [memzero length].
  destruct (Nat.ltb_spec (length A) (length (A ++ (x :: X) ++ R))); [|rewrite length_app in *; cbn in *; lia].
  replace (length A) with (length A + 0)%nat at 2 by lia. rewrite insert_app_r. cbn [insert list_insert app].
  specialize (IH (A ++ [0]) R). rewrite length_app, Nat.add_1_r, <- app_assoc in IH. cbn [app] in IH. rewrite IH, <- app_assoc. done.
Qed.

(** ** The end of the parser *)

Lemma finish_plain done x y dg nb w : 0 <= w -> nb <> 0 -> inet6_finish (St6 (done ++ [x; y]) (length done) None dg nb w 1) = Some (Some (done ++ wb w)).
Proof.
  intros Hw Hn. unfold inet6_finish. cbn [nibbles zero6]. destruct (Z.eqb_spec nb 0); [done|]. cbn [andb].
  rewrite put_word_ok by done. cbn [mbind option_bind n6 zero6 buf]. by rewrite app_nil_r.
Qed.

Lemma finish_zero A B junk dg nb w n : 0 <= w -> 2 <= n -> Z.of_nat (length junk) = 2 * n ->
  inet6_finish (St6 (A ++ B ++ junk) (length A + length B) (Some (length A)) dg nb w n)
  = Some (Some (A ++ replicate (Z.to_nat (2 * (n - 1))) 0 ++ B ++ wb w)).
Proof.
  intros Hw Hn Hj. unfold inet6_finish. cbn [nibbles zero6]. rewrite bool_decide_eq_false_2 by done. rewrite andb_false_r.
  destruct junk as [|x [|y junk]]; cbn [length] in Hj; [lia|lia|].
  rewrite (app_assoc A B), <- length_app, put_word_ok by done. cbn [mbind option_bind n6 zero6 buf pos].
  destruct (Z.eqb_spec (n - 1) 0); [lia|]. cbn [negb].
  rewrite <- !app_assoc. destruct (move_up_ok (B ++ wb w) A junk []) as (X & HX & HM).
  rewrite !app_nil_r, !length_app in HM. rewrite !length_app. cbn [wb length] in *.
  replace (length A + (length B + 2) - length A)%nat with (length B + 2)%nat by lia.
  replace (Z.to_nat ((n - 1) * 2)) with (length junk) by lia.
  rewrite <- app_assoc in HM. change [w / 256 mod 256; w mod 256] with (wb w) in HM. rewrite HM. cbn [mbind option_bind].
  rewrite <- HX, memzero_ok. cbn [mbind option_bind]. do 5 f_equal. lia.
Qed.

(** ** Words *)

(** What a hexadecimal digit does in the loop. *)
Definition hex_char_check (c : Z) : bool :=
  match hex_digit c with
  | None => true
  | Some d =>
      negb (c =? ch(":")) && negb (c =? ch("."))
      && (if (ch("0") <=? c) && (c <=? ch("9")) then d =? c - ch("0")
          else (ch("a") <=? Z.lor c 0x20) && (Z.lor c 0x20 <=? ch("f")) && (d =? Z.lor c 0x20 - ch("a") + 10))
  end.

Lemma hex_char c d : is_byte c -> hex_digit c = Some d ->
  (c =? ch(":")) = false /\ (c =? ch(".")) = false
  /\ (if (ch("0") <=? c) && (c <=? ch("9")) then d = c - ch("0")
      else (ch("a") <=? Z.lor c 0x20) && (Z.lor c 0x20 <=? ch("f")) = true /\ d = Z.lor c 0x20 - ch("a") + 10).
Proof.
  intros Hc Hd. assert (H : hex_char_check c = true) by (apply (all_bytes_spec hex_char_check); [vm_compute; reflexivity|done]).
  unfold hex_char_check in H. rewrite Hd in H. apply andb_prop in H as [[H1%negb_true_iff H2%negb_true_iff]%andb_prop H3].
  split_and!; [done|done|]. destruct ((ch("0") <=? c) && (c <=? ch("9"))); [lia|]. apply andb_prop in H3 as [H3 H4]. split; [done|lia].
Qed.

Lemma hex_run ds : forall rest b p z dg nb acc n w, hex_value acc ds = Some w -> bytes_ok ds -> 0 <= nb -> nb + Z.of_nat (length ds) <= 4 ->
  inet6_loop (ds ++ rest) (St6 b p z dg nb acc n) = inet6_loop rest (St6 b p z dg (nb + Z.of_nat (length ds)) w n).
Proof.
  induction ds as [|c ds IH]; intros rest b p z dg nb acc n w Hv Hb Hnb Hl; cbn [hex_value] in Hv.
  - simplify_eq. cbn. by rewrite Z.add_0_r.
  - destruct (hex_digit c) as [d|] eqn:Hd; [cbn in Hv|done]. apply Forall_cons_1 in Hb as [Hc Hb].
    destruct (hex_char c d Hc Hd) as (H1 & H2 & H3). cbn [length] in Hl. cbn [app inet6_loop buf pos zero6 digit nibbles word n6]. rewrite H1, H2. cbn [andb].
    destruct (Z.ltb_spec 4 (nb + 1)); [lia|].
    replace (nb + Z.of_nat (length (c :: ds))) with (nb + 1 + Z.of_nat (length ds)) by (cbn [length]; lia).
    destruct ((ch("0") <=? c) && (c <=? ch("9"))).
    + subst d. apply IH; [done|done|lia|lia].
    + destruct H3 as [-> ->]. apply IH; [|done|lia|lia]. rewrite <- Hv. f_equal. lia.
Qed.

(** A word and its colon. *)
Definition wtext (ws : list Z) : list Z := concat (map (fun w => hexd w ++ [ch(":")]) ws).

Lemma wtext_cons w ws : wtext (w :: ws) = hexd w ++ ch(":") :: wtext ws.
Proof. unfold wtext. cbn [map concat]. by rewrite <- app_assoc. Qed.
Lemma wtext_app a b : wtext (a ++ b) = wtext a ++ wtext b.
Proof. unfold wtext. by rewrite map_app, concat_app. Qed.

Lemma hexd_run w rest b p z dg n : word_ok w ->
  exists nb, nb <> 0 /\ inet6_loop (hexd w ++ rest) (St6 b p z dg 0 0 n) = inet6_loop rest (St6 b p z dg nb w n).
Proof.
  intros Hw. destruct (hexd_facts w Hw) as (Hb & Hv & Hl). exists (0 + Z.of_nat (length (hexd w))). split; [lia|]. apply hex_run; [done|done|lia|lia].
Qed.

Lemma words_run ws : forall rest done junk z dg n, Forall word_ok ws -> Z.of_nat (length ws) < n -> Z.of_nat (length junk) = 2 * n ->
  exists junk', Z.of_nat (length junk') = 2 * (n - Z.of_nat (length ws)) /\
  inet6_loop (wtext ws ++ rest) (St6 (done ++ junk) (length done) z dg 0 0 n)
  = inet6_loop rest (St6 ((done ++ abytes ws) ++ junk') (length (done ++ abytes ws)) z
                         (match ws with [] => dg | _ => Some rest end) 0 0 (n - Z.of_nat (length ws))).
Proof.
  induction ws as [|w ws IH]; intros rest done junk z dg n Hok Hn Hj.
  - exists junk. unfold abytes. cbn [map concat length]. rewrite app_nil_r. cbn. rewrite Z.sub_0_r. done.
  - apply Forall_cons_1 in Hok as [Hw Hok]. rewrite wtext_cons, <- app_assoc. cbn [length app] in *.
    destruct (hexd_run w (ch(":") :: wtext ws ++ rest) (done ++ junk) (length done) z dg n Hw) as (nb & Hnb & ->).
    cbn [inet6_loop Z.eqb Pos.eqb nibbles]. destruct (Z.eqb_spec nb 0); [done|]. cbn [negb].
    destruct junk as [|x [|y junk]]; cbn [length] in Hj; [lia|lia|]. rewrite put_word_ok by apply Hw. cbn [mbind option_bind buf pos zero6 n6].
    destruct (Z.eqb_spec (n - 1) 0); [lia|]. cbn [negb].
    destruct (IH rest (done ++ wb w) junk z (Some (wtext ws ++ rest)) (n - 1)) as (junk' & Hj' & ->); [done|lia|lia|].
    exists junk'. split; [lia|]. assert (Ha : done ++ abytes (w :: ws) = (done ++ wb w) ++ abytes ws) by (rewrite <- app_assoc; done). rewrite Ha.
    replace (n - Z.of_nat (S (length ws))) with (n - 1 - Z.of_nat (length ws)) by lia. by destruct ws.
Qed.

(** The words at the end of the text: no colon behind the last one. *)
Definition ttext (ws : list Z) : list Z := match ws with [] => [] | _ => wtext (removelast ws) ++ hexd (List.last ws 0) end.

Lemma ttext_snoc init w : ttext (init ++ [w]) = wtext init ++ hexd w.
Proof. unfold ttext. destruct (init ++ [w]) eqn:E; [by destruct init|]. rewrite <- E, removelast_last, last_last. done. Qed.

(** ** Reading the printed forms *)

Lemma parse_plain ws old : length ws = 8%nat -> Forall word_ok ws -> length old = 16%nat ->
  inet6_parse (ttext ws) (St6 old 0 None None 0 0 8) = Some (Some (abytes ws)).
Proof.
  intros Hl Hok Ho. destruct ws as [|lw init _] using rev_ind; [done|]. rewrite ttext_snoc.
  assert (Hil : length init = 7%nat) by (rewrite length_app in Hl; cbn in Hl; lia).
  apply Forall_app in Hok as [Hok Hlw]. apply Forall_cons_1 in Hlw as [Hlw _]. unfold inet6_parse.
  destruct (words_run init (hexd lw) [] old None None 8 Hok) as (junk & Hj & HW); [lia|lia|]. cbn [app length] in HW. rewrite HW.
  rewrite <- (app_nil_r (hexd lw)) at 1. destruct (hexd_run lw [] (abytes init ++ junk) (length (abytes init)) None
    (match init with [] => None | _ => Some (hexd lw) end) (8 - Z.of_nat (length init)) Hlw) as (nb & Hnb & ->).
  cbn [inet6_loop mbind option_bind]. destruct junk as [|x [|y [|]]]; cbn [length] in Hj; try lia. rewrite Hil. cbn [Z.of_nat Z.sub].
  change (8 - Z.of_nat 7) with 1. rewrite finish_plain by (done || apply Hlw). rewrite abytes_app. done.
Qed.

Lemma parse_zero pre post old : Forall word_ok pre -> Forall word_ok post -> (length pre + length post <= 6)%nat -> length old = 16%nat ->
  inet6_parse (wtext pre ++ ch(":") :: ttext post) (St6 old 0 None None 0 0 8)
  = Some (Some (abytes pre ++ replicate (16 - 2 * length pre - 2 * length post) 0 ++ abytes post)).
Proof.
  intros Hpre Hpost Hl Ho. unfold inet6_parse.
  destruct (words_run pre (ch(":") :: ttext post) [] old None None 8 Hpre) as (junk & Hj & HW); [lia|lia|]. cbn [app length] in HW. rewrite HW.
  cbn [inet6_loop Z.eqb Pos.eqb nibbles zero6 buf pos word n6 negb]. set (A := abytes pre) in *.
  destruct post as [|lw init _] using rev_ind.
  - cbn [ttext inet6_loop mbind option_bind]. pose proof (finish_zero A [] junk (Some []) 0 0 (8 - Z.of_nat (length pre))) as HF.
    cbn [app length] in HF. rewrite Nat.add_0_r in HF. rewrite HF by (cbn [length] in *; lia).
    do 3 f_equal. change (wb 0) with (replicate 2 0). unfold abytes. cbn [map concat length]. rewrite app_nil_r, <- replicate_add. f_equal. cbn [length] in Hl. lia.
  - rewrite ttext_snoc. rewrite length_app in *. cbn [length] in *. apply Forall_app in Hpost as [Hok Hlw]. apply Forall_cons_1 in Hlw as [Hlw _].
    destruct (words_run init (hexd lw) A junk (Some (length A)) (Some (wtext init ++ hexd lw)) (8 - Z.of_nat (length pre)) Hok) as (junk' & Hj' & ->); [lia|lia|].
    rewrite <- (app_nil_r (hexd lw)) at 1. edestruct (hexd_run lw []) as (nb & Hnb & ->); [exact Hlw|]. cbn [inet6_loop mbind option_bind].
    rewrite <- app_assoc, length_app. rewrite finish_zero by (apply Hlw || lia).
    rewrite abytes_app. unfold abytes at 3. cbn [map concat]. rewrite app_nil_r. do 5 f_equal. lia.
Qed.

(** Decimal digits are hexadecimal ones. *)
Lemma digits_hex ds : forall acc, forallb is_digit ds = true -> bytes_ok ds /\ (0 <= acc -> exists w, 0 <= w /\ hex_value acc ds = Some w).
Proof.
  induction ds as [|c ds IH]; intros acc Hd; [split; [done|]; intros; by exists acc|]. cbn [forallb] in Hd. apply andb_prop in Hd as [Hc Hd].
  unfold is_digit in Hc. cbn [hex_value]. unfold hex_digit at 1. rewrite Hc. cbn [mbind option_bind]. zbool.
  destruct (IH (acc * 16 + (c - 48)) Hd) as [Hb Hv]. split; [constructor; [unfold is_byte; lia|done]|]. intros. apply Hv. lia.
Qed.

Lemma parse_dotted mid a b c d old : Forall word_ok mid -> (length mid <= 5)%nat -> length old = 16%nat ->
  is_byte a -> is_byte b -> is_byte c -> is_byte d ->
  inet6_parse (ch(":") :: wtext mid ++ dotted a b c d) (St6 old 0 None None 0 0 8)
  = Some (if le4 a b c d =? INADDR_NONE then None
          else Some (replicate (12 - 2 * length mid) 0 ++ abytes mid ++ [a; b; c; d])).
Proof.
  intros Hok Hl Ho Ha Hb Hc Hd. unfold inet6_parse. cbn [inet6_loop Z.eqb Pos.eqb nibbles zero6 buf pos word n6 negb].
  destruct (words_run mid (dotted a b c d) [] old (Some 0%nat) (Some (wtext mid ++ dotted a b c d)) 8 Hok) as (junk & Hj & HW); [lia|lia|].
  cbn [app length] in HW. rewrite HW.
  assert (Hdg : match mid with [] => Some (wtext mid ++ dotted a b c d) | _ => Some (dotted a b c d) end = Some (dotted a b c d)) by (by destruct mid).
  rewrite Hdg. unfold dotted at 1. destruct (dec_byte a Ha) as (Da & _ & La). destruct (digits_hex (dec a) 0 Da) as [Hbd [w [Hw0 Hw]]]; [lia|].
  rewrite (hex_run _ _ _ _ _ _ 0 0 _ w) by (done || lia). cbn [app inet6_loop Z.eqb Pos.eqb nibbles digit n6].
  destruct (Z.eqb_spec (0 + Z.of_nat (length (dec a))) 0); [lia|]. cbn [negb andb].
  destruct (Z.ltb_spec (8 - Z.of_nat (length mid)) 2); [lia|]. rewrite inet_addr_dotted by done.
  destruct (Z.eqb_spec (le4 a b c d) INADDR_NONE); [done|]. rewrite (proj2 (htonl_le4 a b c d Ha Hb Hc Hd)).
  set (v := ((a * 256 + b) * 256 + c) * 256 + d). unfold is_byte in Ha, Hb, Hc, Hd.
  assert (Hv1 : Z.land (Z.shiftr v 24) 0xff = a) by (subst v; bits_to_arith; zlia).
  assert (Hv2 : Z.land (Z.shiftr v 16) 0xff = b) by (subst v; bits_to_arith; zlia). rewrite Hv1, Hv2.
  destruct junk as [|x [|y junk]]; cbn [length] in Hj; [lia|lia|]. rewrite put_ok. cbn [mbind option_bind]. rewrite put_ok.
  cbn [mbind option_bind buf pos zero6 digit nibbles n6]. rewrite <- app_assoc. cbn [app]. rewrite <- app_assoc.
  pose proof (finish_zero [] (abytes mid ++ [a; b]) junk (Some (dotted a b c d)) (0 + Z.of_nat (length (dec a))) v (8 - Z.of_nat (length mid) - 1)) as HF.
  cbn [app length Nat.add] in HF. rewrite <- !app_assoc in HF. cbn [app] in HF |- *. rewrite !length_app in *. cbn [length] in HF |- *.
  match goal with |- context [St6 _ ?q _ _ _ _ _] => replace q with (length (abytes mid) + 2)%nat by lia end.
  rewrite HF by lia. do 2 f_equal. replace (Z.to_nat (2 * (8 - Z.of_nat (length mid) - 1 - 1))) with (12 - 2 * length mid)%nat by lia.
  do 4 f_equal. unfold wb. subst v. repeat f_equal; zlia.
Qed.

(** ** The longest run of zeros *)

Definition zeros (l : list Z) (k m : nat) : Prop := forall j, (k <= j < k + m)%nat -> l !! j = Some 0.

(** What the first loop of ngx_inet6_ntop finds: nothing, or at least two zero words. *)
Definition run_ok (l : list Z) (z m : Z) : Prop :=
  z = -1 /\ m = 1 \/ exists k r, z = Z.of_nat (2 * k) /\ m = Z.of_nat r /\ (2 <= r)%nat /\ zeros l k r.

Lemma run_ok_app l l' z m : run_ok l z m -> run_ok (l ++ l') z m.
Proof. intros [?|(k & r & ? & ? & ? & H)]; [by left|right]. exists k, r. split_and!; try done. intros j Hj. by apply lookup_app_l_Some, H. Qed.

Lemma zero_run_ok ws : forall done zero last max n, Forall word_ok ws -> run_ok done zero max -> 1 <= max -> (n <= length done)%nat ->
  (0 < n -> last = Z.of_nat (2 * (length done - n)))%nat -> zeros done (length done - n) n ->
  exists z m, zero_run (abytes ws) (Z.of_nat (2 * length done)) zero last max (Z.of_nat n) = (z, m) /\ run_ok (done ++ ws) z m.
Proof.
  induction ws as [|w ws IH]; intros done zero last max n Hok Hr Hm Hn Hlast Hz.
  - rewrite app_nil_r. cbn [abytes map concat zero_run]. destruct (Z.ltb_spec max (Z.of_nat n)); eexists _, _; (split; [done|]); [|done].
    right. exists (length done - n)%nat, n. split_and!; [apply Hlast; lia|done|lia|done].
  - apply Forall_cons_1 in Hok as [Hw Hok]. unfold word_ok in Hw. unfold abytes. cbn [map concat wb app zero_run]. fold (abytes ws).
    replace (done ++ w :: ws) with ((done ++ [w]) ++ ws) by (by rewrite <- app_assoc).
    replace (Z.of_nat (2 * length done) + 2) with (Z.of_nat (2 * length (done ++ [w]))) by (rewrite length_app; cbn; lia).
    destruct (negb (w / 256 mod 256 =? 0) || negb (w mod 256 =? 0)) eqn:Hc.
    + destruct (Z.ltb_spec max (Z.of_nat n)); apply (IH _ _ _ _ 0%nat); try done; try lia; try (intros j Hj; lia).
      * apply run_ok_app. right. exists (length done - n)%nat, n. split_and!; [apply Hlast; lia|done|lia|done].
      * by apply run_ok_app.
    + apply orb_false_iff in Hc as [Hc1%negb_false_iff%Z.eqb_eq Hc2%negb_false_iff%Z.eqb_eq]. assert (w = 0) as -> by zlia.
      replace (Z.of_nat n + 1) with (Z.of_nat (S n)) by lia. apply IH; [done|by apply run_ok_app|done|rewrite length_app; cbn; lia| |].
      * intros _. rewrite length_app. cbn [length]. replace (length done + 1 - S n)%nat with (length done - n)%nat by lia.
        destruct (Z.eqb_spec (Z.of_nat n) 0); [|apply Hlast; lia]. f_equal. lia.
      * rewrite length_app. cbn [length]. replace (length done + 1 - S n)%nat with (length done - n)%nat by lia. intros j Hj.
        destruct (decide (j = length done)) as [->|]; [by apply list_lookup_middle|]. apply lookup_app_l_Some, Hz. lia.
Qed.

Lemma zeros_split l k r : zeros l k r -> (0 < r)%nat -> exists pre post, l = pre ++ replicate r 0 ++ post /\ length pre = k.
Proof.
  intros Hz Hr. assert (Hlen : (k + r <= length l)%nat). { pose proof (Hz (k + r - 1)%nat ltac:(lia)) as H. apply lookup_lt_Some in H. lia. }
  exists (take k l), (drop (k + r) l). split; [|rewrite length_take; lia].
  rewrite <- (take_drop k l) at 1. f_equal. rewrite <- (take_drop r (drop k l)). rewrite drop_drop. f_equal.
  apply list_eq. intros i. destruct (decide (i < r)%nat) as [Hi|Hi].
  - rewrite lookup_take_lt, lookup_drop, lookup_replicate_2 by lia. apply Hz. lia.
  - rewrite lookup_take_ge by lia. symmetry. apply lookup_replicate_None. lia.
Qed.

(** ** The printed words *)

(** The text of the words from word [j] on. *)
Fixpoint stext (j : nat) (ws : list Z) : list Z :=
  match ws with
  | [] => []
  | w :: ws => hexd w ++ (if (j <? 7)%nat then [ch(":")] else []) ++ stext (S j) ws
  end.

Lemma stext_wtext ws : forall j, (j + length ws <= 7)%nat -> stext j ws = wtext ws.
Proof.
  induction ws as [|w ws IH]; intros j Hj; [done|]. cbn [stext length] in *. rewrite wtext_cons, (IH (S j)) by lia. destruct (Nat.ltb_spec j 7); [done|lia].
Qed.
Lemma stext_ttext ws j : (j + length ws = 8)%nat -> stext j ws = ttext ws.
Proof.
  intros Hj. destruct ws as [|w init _] using rev_ind; [done|]. rewrite ttext_snoc, length_app in *. cbn [length] in Hj.
  rewrite <- (stext_wtext init j) by lia. clear -Hj. revert j Hj. induction init as [|v init IH]; intros j Hj; cbn [app stext length] in *.
  - destruct (Nat.ltb_spec j 7); [lia|]. by rewrite app_nil_r.
  - rewrite (IH (S j)) by lia. by rewrite <- !app_assoc.
Qed.

Lemma stext_length ws : forall j, Forall word_ok ws -> (length (stext j ws) <= 5 * length ws)%nat.
Proof.
  induction ws as [|w ws IH]; intros j Hok; [done|]. apply Forall_cons_1 in Hok as [Hw Hok]. destruct (hexd_facts w Hw) as (_ & _ & Hl).
  cbn [stext length]. specialize (IH (S j) Hok). rewrite !length_app. destruct (j <? 7)%nat; cbn [length]; lia.
Qed.

Lemma abytes_lookup ws : forall j w, ws !! j = Some w -> abytes ws !! (2 * j)%nat = Some (w / 256 mod 256) /\ abytes ws !! (2 * j + 1)%nat = Some (w mod 256).
Proof.
  induction ws as [|v ws IH]; intros [|j] w H; cbn in H; simplify_eq; [done|]. destruct (IH j w H) as [H1 H2]. unfold abytes in *. cbn [map concat].
  replace (2 * S j)%nat with (2 + 2 * j)%nat by lia. done.
Qed.

Lemma sprintf_hex buf w : 0 <= buf < 2 ^ 63 -> word_ok w -> ngx_sprintf buf (str("%xd")) [AInt w] = Some (hexd w).
Proof.
  intros Hb Hw. destruct (hexd_facts w Hw) as (_ & _ & Hl). unfold word_ok in Hw. unfold ngx_sprintf, ngx_vslprintf. cbn [length].
  erewrite (loop_conv _ _ _ _ _ _ _ conv_xd _ _ _ (fun cap out => put_int cap out conv_xd false 32 w) (hexd w)); [|room4|apply put_hex; lia|reflexivity..].
  by rewrite loop_end.
Qed.

Lemma print_words_end fuel text p i n zero max out : n <= i -> print_words fuel text p i n zero max out = Some out.
Proof. intros H. destruct fuel; cbn; (destruct (Z.ltb_spec i n); [lia|done]). Qed.

Lemma print_words_zero fuel text p i n max out : i < n ->
  print_words (S fuel) text p i n i max out = print_words fuel text p (i + max * 2) n i max (out ++ [ch(":")]).
Proof. intros H. cbn [print_words]. destruct (Z.ltb_spec i n); [|lia]. cbn [negb]. rewrite Z.eqb_refl. f_equal. lia. Qed.

Section printing.
Context (ws : list Z) (text : Z) (Hws : Forall word_ok ws) (Hlen : length ws = 8%nat) (Htext : 0 <= text < 2 ^ 62).

(** The words that are not skipped. *)
Lemma print_run seg : forall pre post out fuel n zero max, ws = pre ++ seg ++ post ->
  Z.of_nat (2 * (length pre + length seg)) <= n ->
  (forall i, (length pre <= i < length pre + length seg)%nat -> Z.of_nat (2 * i) <> zero) -> (length out <= 2 + 5 * length pre)%nat ->
  print_words (length seg + fuel) text (abytes ws) (Z.of_nat (2 * length pre)) n zero max out
  = print_words fuel text (abytes ws) (Z.of_nat (2 * (length pre + length seg))) n zero max (out ++ stext (length pre) seg).
Proof.
  induction seg as [|w seg IH]; intros pre post out fuel n zero max Hs Hn Hz Hout; [cbn [stext length Nat.add]; by rewrite app_nil_r, Nat.add_0_r|].
  cbn [length Nat.add print_words] in *. destruct (Z.ltb_spec (Z.of_nat (2 * length pre)) n); [|lia]. cbn [negb].
  destruct (Z.eqb_spec (Z.of_nat (2 * length pre)) zero) as [He|_]; [by apply (Hz (length pre)) in He; [|lia]|].
  assert (Hl8 : (length pre < 8)%nat) by (rewrite <- Hlen, Hs, !length_app; cbn; lia).
  assert (Hw : ws !! length pre = Some w) by (rewrite Hs; by apply list_lookup_middle).
  destruct (abytes_lookup _ _ _ Hw) as [H1 H2]. replace (Z.to_nat (Z.of_nat (2 * length pre))) with (2 * length pre)%nat by lia.
  replace (Z.to_nat (Z.of_nat (2 * length pre) + 1)) with (2 * length pre + 1)%nat by lia. rewrite H1, H2. cbn [mbind option_bind].
  pose proof (Forall_lookup_1 _ _ _ _ Hws Hw) as Hok. cbn beta in Hok. destruct (hexd_facts w Hok) as (_ & _ & Hhl). unfold word_ok in Hok.
  replace (w / 256 mod 256 * 256 + w mod 256) with w by zlia. rewrite sprintf_hex by (done || lia). cbn [mbind option_bind].
  replace (Z.of_nat (2 * length pre) + 2) with (Z.of_nat (2 * length (pre ++ [w]))) by (rewrite length_app; cbn; lia).
  rewrite (IH (pre ++ [w]) post).
  - rewrite length_app. cbn [length stext]. replace (length pre + 1 + length seg)%nat with (length pre + S (length seg))%nat by lia.
    rewrite Nat.add_1_r. f_equal. destruct (Nat.ltb_spec (length pre) 7), (Z.ltb_spec (Z.of_nat (2 * length pre)) 14); try lia; by rewrite <- !app_assoc.
  - rewrite Hs. by rewrite <- app_assoc.
  - rewrite length_app. cbn. lia.
  - rewrite length_app. cbn [length]. intros i Hi. apply Hz. lia.
  - destruct (Z.of_nat (2 * length pre) <? 14); rewrite !length_app; cbn [length]; lia.
Qed.

(** Without a run all words are printed. *)
Lemma print_all max : print_words 8 text (abytes ws) 0 16 (-1) max [] = Some (ttext ws).
Proof.
  pose proof (print_run ws [] [] [] 0 16 (-1) max) as H. cbn [length Nat.add app] in H. rewrite Hlen in H. change (8 + 0)%nat with 8%nat in H.
  change (Z.of_nat (2 * 0)) with 0 in H. rewrite H; [|by rewrite app_nil_r|lia|lia|lia]. rewrite print_words_end by lia. by rewrite stext_ttext.
Qed.

(** With a run: what is before it, a colon, what is behind it up to [n]. *)
Lemma print_skip pre r post seg rest n out : ws = pre ++ replicate r 0 ++ post -> post = seg ++ rest -> (2 <= r)%nat ->
  Z.of_nat (2 * (length pre + r + length seg)) = n \/ seg = [] /\ n <= Z.of_nat (2 * (length pre + r)) ->
  Z.of_nat (2 * length pre) < n -> (length out <= 1)%nat ->
  print_words 8 text (abytes ws) 0 n (Z.of_nat (2 * length pre)) (Z.of_nat r) out = Some (out ++ wtext pre ++ ch(":") :: stext (length pre + r) seg).
Proof.
  intros Hs Hp Hr Hn Hpn Ho. assert (Hl8 : (length pre + r + length post = 8)%nat) by (rewrite <- Hlen, Hs, !length_app, length_replicate; lia).
  assert (Hseg : (length seg <= length post)%nat) by (rewrite Hp, length_app; lia).
  pose proof (print_run pre [] (replicate r 0 ++ post) out (8 - length pre) n (Z.of_nat (2 * length pre)) (Z.of_nat r)) as H1.
  cbn [length Nat.add app] in H1. replace (length pre + (8 - length pre))%nat with 8%nat in H1 by lia. change (Z.of_nat (2 * 0)) with 0 in H1.
  rewrite H1; [|done|lia|intros; lia|lia]. rewrite (stext_wtext pre 0) by lia.
  replace (8 - length pre)%nat with (S (length seg + (7 - length pre - length seg))) by lia. rewrite print_words_zero by done.
  replace (Z.of_nat (2 * length pre) + Z.of_nat r * 2) with (Z.of_nat (2 * (length pre + r))) by lia.
  assert (Hwl : (length (wtext pre) <= 5 * length pre)%nat).
  { rewrite <- (stext_wtext pre 0) by lia. apply stext_length. rewrite Hs in Hws. by apply Forall_app in Hws as [? _]. }
  destruct Hn as [Hn|[-> Hn]].
  - pose proof (print_run seg (pre ++ replicate r 0) rest ((out ++ wtext pre) ++ [ch(":")]) (7 - length pre - length seg) n (Z.of_nat (2 * length pre)) (Z.of_nat r)) as H2.
    rewrite !length_app, !length_replicate in H2. rewrite H2; [|by rewrite Hs, Hp, <- app_assoc|lia|intros; lia|cbn [length]; lia].
    rewrite print_words_end by lia. by rewrite <- !app_assoc.
  - rewrite print_words_end by lia. cbn [stext]. by rewrite <- !app_assoc.
Qed.
End printing.

(** ** The forms of a printed address *)

Lemma bytes_words : forall k l, length l = (2 * k)%nat -> bytes_ok l -> exists ws, l = abytes ws /\ length ws = k /\ Forall word_ok ws.
Proof.
  induction k as [|k IH]; intros l Hl Hb; [exists []; by destruct l|]. destruct l as [|a [|b l]]; cbn [length] in Hl; try lia. bytes_inv.
  destruct (IH l) as (ws & -> & Hk & Hok); [lia|done|]. exists (a * 256 + b :: ws). cbn [length]. split_and!; [|lia|constructor; [unfold word_ok; lia|done]].
  unfold abytes. cbn [map concat wb app]. do 2 f_equal; [zlia|f_equal; zlia].
Qed.

(** All words; "::" for a run of zeros; or "::", perhaps a word, and a dotted address. *)
Inductive dotted_text (ws : list Z) : list Z -> Prop :=
| dotted_end mid a b c d : mid = [] \/ mid = [0xffff] -> is_byte a -> is_byte b -> is_byte c -> is_byte d ->
    abytes ws = replicate (12 - 2 * length mid) 0 ++ abytes mid ++ [a; b; c; d] ->
    dotted_text ws (ch(":") :: ch(":") :: wtext mid ++ dotted a b c d).

(** ::255.255.255.255 and ::ffff:255.255.255.255. *)
Definition broadcast6 (a : list Z) : bool :=
  bool_decide (a = replicate 12 0 ++ replicate 4 255 \/ a = replicate 10 0 ++ replicate 6 255).

Inductive printed (ws : list Z) : list Z -> Prop :=
| printed_all : broadcast6 (abytes ws) = false -> printed ws (ttext ws)
| printed_run pre r post : broadcast6 (abytes ws) = false -> ws = pre ++ replicate r 0 ++ post -> (2 <= r)%nat ->
    printed ws ((match pre with [] => [ch(":")] | _ => [] end) ++ wtext pre ++ ch(":") :: ttext post)
| printed_dotted t : dotted_text ws t -> printed ws t.

Lemma mid_ok mid : mid = [] \/ mid = [0xffff] -> (length mid <= 1)%nat /\ Forall word_ok mid.
Proof. intros [->| ->]; (split; [cbn; lia|]); by repeat constructor. Qed.

Lemma print_dotted_ok ws text out a b c d l : 0 <= text < 2 ^ 62 -> (length out <= 100)%nat -> is_byte a -> is_byte b -> is_byte c -> is_byte d ->
  abytes ws = l ++ [a; b; c; d] -> length l = 12%nat -> print_dotted text (abytes ws) out = Some (out ++ dotted a b c d).
Proof.
  intros Ht Ho Ha Hb Hc Hd Hl Hl12. unfold print_dotted. rewrite Hl. rewrite !lookup_app_r, !Hl12 by lia. cbn [Nat.sub lookup list_lookup mbind option_bind].
  rewrite sprintf_dotted by (done || lia). done.
Qed.

Lemma mod_byte x : is_byte (x mod 256).
Proof. unfold is_byte. zlia. Qed.

(** The branch that prints a dotted end. *)
Lemma ntop_dotted ws text mid rest r : Forall word_ok ws -> length ws = 8%nat -> 0 <= text < 2 ^ 62 ->
  ws = replicate r 0 ++ mid ++ rest -> (5 <= r)%nat -> (r + length mid = 6)%nat \/ mid = [] /\ (r = 7)%nat ->
  mid = [] \/ mid = [0xffff] ->
  exists out, print_words 8 text (abytes ws) 0 12 0 (Z.of_nat r) [ch(":")] = Some out /\ exists t, print_dotted text (abytes ws) out = Some t /\ dotted_text ws t.
Proof.
  intros Hok Hl Ht Hs Hr Hm Hmid0. exists ([ch(":")] ++ ch(":") :: wtext mid).
  assert (Hlen : (r + length mid + length rest = 8)%nat) by (rewrite <- Hl, Hs, !length_app, length_replicate; lia).
  assert (Hmid : Forall word_ok mid) by (rewrite Hs in Hok; apply Forall_app in Hok as [_ Hok]; by apply Forall_app in Hok as [? _]).
  assert (Hrm : (r + length mid <= 7)%nat) by (destruct Hm as [?|[-> ->]]; [lia|done]).
  split.
  - pose proof (print_skip ws text Hok Hl Ht [] r (mid ++ rest) mid rest 12 [ch(":")]) as H. cbn [length app Nat.add] in H. change (Z.of_nat (2 * 0)) with 0 in H.
    rewrite H; [|done|done|lia| |lia|lia]. { unfold wtext at 1. cbn [map concat app]. by rewrite stext_wtext by lia. }
    destruct Hm as [Hm|[-> ->]]; [left; lia|by right].
  - assert (Hform : exists a b c d, is_byte a /\ is_byte b /\ is_byte c /\ is_byte d
      /\ abytes ws = (replicate (12 - 2 * length mid) 0 ++ abytes mid) ++ [a; b; c; d]).
    { destruct Hm as [Hm|[-> ->]].
      - destruct rest as [|u [|v [|]]]; cbn [length] in Hlen; try lia. exists (u / 256 mod 256), (u mod 256), (v / 256 mod 256), (v mod 256).
        split_and!; [apply mod_byte..|]. rewrite Hs, !abytes_app, abytes_zeros, <- app_assoc. by replace (2 * r)%nat with (12 - 2 * length mid)%nat by lia.
      - destruct rest as [|v [|]]; cbn [length] in Hlen; try lia. exists 0, 0, (v / 256 mod 256), (v mod 256).
        split_and!; [by_evaluation|by_evaluation|apply mod_byte..|]. rewrite Hs. done. }
    destruct Hform as (a & b & c & d & Ha & Hb & Hc & Hd & Hf).
    assert (Hwl : (length (wtext mid) <= 5 * length mid)%nat) by (rewrite <- (stext_wtext mid 0) by lia; by apply stext_length).
    exists (ch(":") :: ch(":") :: wtext mid ++ dotted a b c d). split.
    + erewrite (print_dotted_ok ws text _ a b c d) by first
        [exact Hf|done|rewrite length_app, length_replicate, abytes_length; lia|cbn [length app]; lia]. cbn [app]. by rewrite <- ?app_assoc.
    + apply dotted_end; try done. by rewrite Hf, <- app_assoc.
Qed.

Lemma abytes_inj ws ws' : Forall word_ok ws -> Forall word_ok ws' -> abytes ws = abytes ws' -> ws = ws'.
Proof.
  intros H. revert ws'. induction H as [|w ws Hw _ IH]; intros [|w' ws'] H' E; try done.
  apply Forall_cons_1 in H' as [Hw' H']. unfold word_ok in *. injection E as E1 E2 E3. f_equal; [zlia|by apply IH].
Qed.

(** 255.255.255.255 at the end is always printed dotted. *)
Lemma ntop_broadcast ws text len : length ws = 8%nat -> Forall word_ok ws -> 0 <= text < 2 ^ 62 -> NGX_INET6_ADDRSTRLEN <= len ->
  broadcast6 (abytes ws) = true -> exists t, ngx_inet6_ntop (abytes ws) text len = Some t /\ dotted_text ws t.
Proof.
  intros Hl Hok Ht Hlen Hb%bool_decide_eq_true. unfold ngx_inet6_ntop. destruct (Z.ltb_spec len NGX_INET6_ADDRSTRLEN); [lia|].
  assert (Hw : exists r mid, ws = replicate r 0 ++ mid ++ [0xffff; 0xffff] /\ (r = 6%nat /\ mid = [] \/ r = 5%nat /\ mid = [0xffff])).
  { destruct Hb as [Hb|Hb]; [exists 6%nat, []|exists 5%nat, [0xffff]]; (split; [apply abytes_inj; [done|by repeat constructor|exact Hb]|auto]). }
  destruct Hw as (r & mid & Hw & Hr).
  destruct (ntop_dotted ws text mid [0xffff; 0xffff] r) as (out & Ho & t & Hd & Hp); try done;
    [destruct Hr as [[-> ->]|[-> ->]]; cbn; auto with lia..|].
  exists t. split; [|done]. rewrite <- Hd. clear Hp Hd Hok. revert Ho.
  generalize (print_dotted text (abytes ws)), (print_words 8 text (abytes ws)). intros f g Ho.
  destruct Hr as [[-> ->]|[-> ->]]; subst ws; vm_compute in Ho |- *; by rewrite Ho.
Qed.

Lemma ntop_other ws text len : broadcast6 (abytes ws) = false -> length ws = 8%nat -> Forall word_ok ws -> 0 <= text < 2 ^ 62 -> NGX_INET6_ADDRSTRLEN <= len ->
  exists t, ngx_inet6_ntop (abytes ws) text len = Some t /\ printed ws t.
Proof.
  intros Hbr Hl Hok Ht Hlen. unfold ngx_inet6_ntop. destruct (Z.ltb_spec len NGX_INET6_ADDRSTRLEN); [lia|].
  destruct (zero_run_ok ws [] (-1) (-1) 1 0) as (z & m & Hz & Hr); [done|by left|lia|cbn; lia|lia|intros j Hj; cbn in Hj; lia|].
  cbn [length app] in Hz, Hr. change (Z.of_nat (2 * 0)) with 0 in Hz. change (Z.of_nat 0) with 0 in Hz. rewrite Hz.
  assert (Hlk : forall i, (i < 8)%nat -> exists w, ws !! i = Some w) by (intros i Hi; apply lookup_lt_is_Some_2; lia).
  destruct (Hlk 5%nat ltac:(lia)) as [w5 H5], (Hlk 7%nat ltac:(lia)) as [w7 H7].
  destruct (abytes_lookup _ _ _ H5) as [H10 H11], (abytes_lookup _ _ _ H7) as [H14 H15]. cbn [Nat.mul Nat.add] in H10, H11, H14, H15.
  rewrite H10, H11, H14, H15. cbn [mbind option_bind].
  destruct Hr as [[-> ->]|(k & r & -> & -> & Hr & Hzs)].
  { cbn [Z.eqb andb]. rewrite print_all by done. cbn. eexists. split; [done|]. by constructor. }
  destruct (zeros_split ws k r Hzs ltac:(lia)) as (pre & post & Hs & <-).
  assert (Hll : (length pre + r + length post = 8)%nat) by (rewrite <- Hl, Hs, !length_app, length_replicate; lia).
  assert (Hplain : exists t, (out ← print_words 8 text (abytes ws) 0 16 (Z.of_nat (2 * length pre)) (Z.of_nat r)
    (if Z.of_nat (2 * length pre) =? 0 then [ch(":")] else []); Some out) = Some t /\ printed ws t).
  { eexists. split; [rewrite (print_skip ws text Hok Hl Ht pre r post post [] 16); cbn [mbind option_bind]; [reflexivity|done|by rewrite app_nil_r|done|left; lia|lia|]|].
    - destruct (Z.of_nat (2 * length pre) =? 0); cbn; lia.
    - rewrite stext_ttext by lia. replace (if Z.of_nat (2 * length pre) =? 0 then [58] else []) with (match pre with [] => [ch(":")] | _ => [] end) by (by destruct pre).
      by apply (printed_run ws pre r). }
  match goal with |- context [if ?c then 12 else 16] => destruct c eqn:Hc end; [|exact Hplain].
  apply andb_prop in Hc as [H0%Z.eqb_eq Hc]. assert (pre = []) as -> by (destruct pre; [done|cbn in H0; lia]). change (Z.of_nat (2 * length (@nil Z))) with 0.
  cbn [length app Nat.add Z.eqb Pos.eqb] in *. assert (Hd : exists mid rest, ws = replicate r 0 ++ mid ++ rest /\ (5 <= r)%nat /\ ((r + length mid = 6)%nat \/ mid = [] /\ (r = 7)%nat)
    /\ (mid = [] \/ mid = [0xffff])).
  { apply orb_prop in Hc as [[[[Hc%Z.eqb_eq Hf1%Z.eqb_eq]%andb_prop Hf2%Z.eqb_eq]%andb_prop|Hc%Z.eqb_eq]%orb_prop|[[Hc%Z.eqb_eq _]%andb_prop _]%andb_prop].
    - destruct post as [|w post]; [cbn in *; lia|]. exists [w], post. split_and!; [done|lia|left; cbn; lia|right].
      rewrite Hs in H5, Hok. rewrite lookup_app_r in H5 by (rewrite length_replicate; lia). rewrite length_replicate in H5.
      replace (5 - r)%nat with 0%nat in H5 by lia. injection H5 as ->. apply Forall_app in Hok as [_ Hok]. apply Forall_cons_1 in Hok as [Hw _].
      unfold word_ok in Hw. f_equal. zlia.
    - exists [], post. split_and!; [done|lia|left; cbn; lia|by left].
    - exists [], post. split_and!; [done|lia|right; split; [done|lia]|by left]. }
  destruct Hd as (mid & rest & Hs' & Hr5 & Hm & Hm0). destruct (ntop_dotted ws text mid rest r Hok Hl Ht Hs' Hr5 Hm Hm0) as (out & -> & t & Ht' & Hp).
  cbn [mbind option_bind]. exists t. split; [done|]. by apply printed_dotted.
Qed.

Lemma ntop_printed ws text len : length ws = 8%nat -> Forall word_ok ws -> 0 <= text < 2 ^ 62 -> NGX_INET6_ADDRSTRLEN <= len ->
  exists t, ngx_inet6_ntop (abytes ws) text len = Some t /\ printed ws t.
Proof.
  intros Hl Hok Ht Hlen. destruct (broadcast6 (abytes ws)) eqn:Hb; [|by apply ntop_other].
  destruct (ntop_broadcast ws text len Hl Hok Ht Hlen Hb) as (t & ? & ?). exists t. split; [done|]. by apply printed_dotted.
Qed.

(** ** Reading an address back *)

Lemma le4_none a b c d : is_byte a -> is_byte b -> is_byte c -> is_byte d ->
  (le4 a b c d =? INADDR_NONE) = bool_decide ([a; b; c; d] = replicate 4 255).
Proof.
  unfold is_byte, le4, INADDR_NONE. intros. apply eq_bool_prop_intro. rewrite bool_decide_spec, Is_true_true, Z.eqb_eq. cbn.
  split; [intros; repeat f_equal; lia|]. intros [= -> -> -> ->]. done.
Qed.

(** A dotted end is read back unless it is 255.255.255.255. *)
Lemma dotted_read ws t old : length ws = 8%nat -> length old = 16%nat -> dotted_text ws t ->
  ngx_inet6_addr t old = Some (if broadcast6 (abytes ws) then None else Some (abytes ws)).
Proof.
  intros Hl Ho [mid a b c d Hm Ha Hb Hc Hd Hf]. destruct (mid_ok mid Hm) as [Hml Hmo].
  change (ngx_inet6_addr (ch(":") :: ?t) old) with (inet6_parse t (St6 old 0 None None 0 0 8)).
  rewrite parse_dotted by (done || lia). rewrite le4_none, Hf by done. f_equal.
  assert (He : broadcast6 (replicate (12 - 2 * length mid) 0 ++ abytes mid ++ [a; b; c; d]) = bool_decide ([a; b; c; d] = replicate 4 255)).
  { apply bool_decide_ext. destruct Hm as [->| ->]; cbn; split; [intros [[=]|[=]]|intros [= -> -> -> ->]|intros [[=]|[=]]|intros [= -> -> -> ->]]; subst; auto. }
  by rewrite He.
Qed.

Lemma hexd_head w t : word_ok w -> exists c t', hexd w ++ t = c :: t' /\ (c =? ch(":")) = false.
Proof.
  intros Hw. destruct (hexd_facts w Hw) as (Hb & Hv & Hl). destruct (hexd w) as [|c ds]; [cbn in Hl; lia|]. cbn [hex_value] in Hv.
  destruct (hex_digit c) eqn:Hd; [|done]. apply Forall_cons_1 in Hb as [Hc _]. eexists _, _. split; [done|]. by destruct (hex_char _ _ Hc Hd) as (? & _).
Qed.

Lemma inet6_addr_word w t old : word_ok w -> ngx_inet6_addr (hexd w ++ t) old = inet6_parse (hexd w ++ t) (St6 old 0 None None 0 0 8).
Proof. intros Hw. destruct (hexd_head w t Hw) as (c & t' & He & Hc). rewrite He. unfold ngx_inet6_addr. by rewrite Hc. Qed.

Lemma printed_read ws t old : length ws = 8%nat -> Forall word_ok ws -> length old = 16%nat -> printed ws t ->
  ngx_inet6_addr t old = Some (if broadcast6 (abytes ws) then None else Some (abytes ws)).
Proof.
  intros Hl Hok Ho Hp. destruct Hp as [Hne|pre r post Hne Hs Hr|t Hd]; [rewrite Hne|rewrite Hne|by apply dotted_read].
  - rewrite <- (parse_plain ws old) by done. destruct ws as [|w ws0]; [done|]. apply Forall_cons_1 in Hok as [Hw _].
    assert (Ht : exists u, ttext (w :: ws0) = hexd w ++ u).
    { unfold ttext. destruct ws0 as [|v ws0]; [done|]. cbn [removelast]. rewrite wtext_cons, <- app_assoc. by eexists. }
    destruct Ht as [u ->]. by apply inet6_addr_word.
  - rewrite Hs in Hok, Hl |- *. rewrite !length_app, length_replicate in Hl. apply Forall_app in Hok as [Hpre Hok]. apply Forall_app in Hok as [_ Hpost].
    assert (Hlen : (length pre + length post <= 6)%nat) by lia. pose proof (parse_zero pre post old Hpre Hpost Hlen Ho) as H.
    rewrite !abytes_app, abytes_zeros. replace (2 * r)%nat with (16 - 2 * length pre - 2 * length post)%nat by lia. rewrite <- H.
    destruct pre as [|w pre]; [done|]. cbn [app]. rewrite wtext_cons, <- app_assoc. apply inet6_addr_word. by apply Forall_cons_1 in Hpre as [? _].
Qed.


(** ** The characters of a printed address *)

Definition text_char (c : Z) : Prop := c <> ch("]") /\ c <> ch("/").

Lemma hexd_chars w : word_ok w -> Forall text_char (hexd w).
Proof.
  intros Hw. destruct (hexd_facts w Hw) as (_ & Hv & _). revert Hv. generalize 0. induction (hexd w) as [|c ds IH]; intros acc Hv; [constructor|].
  cbn [hex_value] in Hv. destruct (hex_digit c) eqn:Hd; [|done]. constructor; [|by eapply IH].
  unfold hex_digit in Hd. unfold text_char. repeat case_if_in Hd; zbool; (done || lia).
Qed.

Lemma digits_chars ds : forallb is_digit ds = true -> Forall text_char ds.
Proof.
  induction ds as [|c ds IH]; [constructor|]. cbn. intros [Hc Hd]%andb_prop. constructor; [|by apply IH]. unfold is_digit in Hc. unfold text_char. zbool. lia.
Qed.

Lemma wtext_chars ws : Forall word_ok ws -> Forall text_char (wtext ws).
Proof.
  induction 1 as [|w ws Hw _ IH]; [constructor|]. rewrite wtext_cons. apply Forall_app. split; [by apply hexd_chars|]. constructor; [by unfold text_char|done].
Qed.
Lemma ttext_chars ws : Forall word_ok ws -> Forall text_char (ttext ws).
Proof.
  intros H. destruct ws as [|w init _] using rev_ind; [constructor|]. rewrite ttext_snoc. apply Forall_app in H as [H1 H2]. apply Forall_cons_1 in H2 as [H2 _].
  apply Forall_app. split; [by apply wtext_chars|by apply hexd_chars].
Qed.
Lemma dotted_chars a b c d : is_byte a -> is_byte b -> is_byte c -> is_byte d -> Forall text_char (dotted a b c d).
Proof.
  intros (Ha & _)%dec_byte (Hb & _)%dec_byte (Hc & _)%dec_byte (Hd & _)%dec_byte. unfold dotted.
  repeat (apply Forall_app; split); first [by apply digits_chars|repeat constructor; by unfold text_char].
Qed.

Lemma wtext_length ws : Forall word_ok ws -> (length ws <= 7)%nat -> (length (wtext ws) <= 5 * length ws)%nat.
Proof. intros H Hl. rewrite <- (stext_wtext ws 0) by lia. by apply stext_length. Qed.
Lemma ttext_length ws : Forall word_ok ws -> (length ws <= 8)%nat -> (length (ttext ws) <= 5 * length ws)%nat.
Proof. intros H Hl. rewrite <- (stext_ttext ws (8 - length ws)) by lia. by apply stext_length. Qed.

Lemma wtext_colon ws : ws <> [] -> ch(":") ∈ wtext ws.
Proof. destruct ws as [|w ws]; [done|]. intros _. rewrite wtext_cons. set_solver. Qed.

Lemma printed_chars ws t : length ws = 8%nat -> Forall word_ok ws -> printed ws t -> Forall text_char t /\ ch(":") ∈ t /\ (length t <= 40)%nat.
Proof.
  assert (Hcolon : text_char (ch(":"))) by (by unfold text_char).
  intros Hl Hok Hp. destruct Hp as [_|pre r post _ Hs Hr|? [mid a b c d [Hm Hmid]%mid_ok Ha Hb Hc Hd Hf]].
  - split_and!; [by apply ttext_chars| |pose proof (ttext_length ws Hok); lia]. destruct ws as [|w init _] using rev_ind; [done|]. rewrite ttext_snoc.
    apply elem_of_app. left. apply wtext_colon. intros ->. cbn in Hl. lia.
  - rewrite Hs in Hok, Hl. rewrite !length_app, length_replicate in Hl. apply Forall_app in Hok as [Hpre Hok]. apply Forall_app in Hok as [_ Hpost].
    split_and!; [|set_solver|].
    + apply Forall_app. split; [by destruct pre; repeat constructor|]. apply Forall_app. split; [by apply wtext_chars|]. constructor; [done|by apply ttext_chars].
    + pose proof (wtext_length pre Hpre). pose proof (ttext_length post Hpost). rewrite !length_app. cbn [length]. destruct pre; cbn [length] in *; lia.
  - split_and!; [|set_solver|].
    + constructor; [done|]. constructor; [done|]. apply Forall_app. split; [by apply wtext_chars|by apply dotted_chars].
    + pose proof (wtext_length mid Hmid). pose proof (dotted_length a b c d Ha Hb Hc Hd). cbn [length]. rewrite length_app. lia.
Qed.

(** ** Socket addresses *)

(** A text with a colon is not an IPv4 address. *)
Lemma inet_addr_colon text : ch(":") ∈ text -> ngx_inet_addr text = INADDR_NONE.
Proof.
  intros Hin. unfold ngx_inet_addr. enough (H : forall addr octet n, inet_addr_loop text addr octet n = None) by by rewrite H.
  induction text as [|c text IH]; [set_solver|]. intros addr octet n. cbn [inet_addr_loop]. apply elem_of_cons in Hin as [<-|Hin]; [done|].
  case_if; [case_if; [done|by apply IH]|]. case_if; [by apply IH|done].
Qed.

Lemma parse_addr_declined t : ch(":") ∈ t -> ngx_inet6_addr t (replicate 16 0) = Some None -> ngx_parse_addr t = Some None.
Proof. intros Hc Ha. unfold ngx_parse_addr. rewrite inet_addr_colon, Z.eqb_refl, Ha by done. done. Qed.

Lemma strlchr_app a c b : c ∉ a -> ngx_strlchr (a ++ c :: b) c = Some (a, b).
Proof.
  induction a as [|x a IH]; intros Hc; cbn [app ngx_strlchr]; [by rewrite Z.eqb_refl|]. destruct (Z.eqb_spec x c) as [->|]; [set_solver|].
  rewrite IH by set_solver. done.
Qed.

Lemma atoi_dec n : 0 <= n < 2 ^ 31 -> ngx_atoi (dec n) = n.
Proof.
  intros Hn. destruct (dec_facts n Hn) as (Hd & Hv & Hl & _). assert (H : ngx_atoi (dec n) = decimal_spec NGX_MAX_INT_T_VALUE (dec n)) by (by apply ato_spec).
  rewrite H. unfold decimal_spec. rewrite Hd, Hv. rewrite bool_decide_eq_false_2 by (intros He; rewrite He in Hl; cbn in Hl; lia).
  unfold NGX_MAX_INT_T_VALUE. destruct (Z.leb_spec n 9223372036854775807); [done|lia].
Qed.

Lemma sprintf_port buf v : 0 <= buf < 2 ^ 63 -> 0 <= v < 65536 -> ngx_sprintf buf (str("]:%d")) [AInt v] = Some (str("]:") ++ dec v).
Proof.
  intros Hb Hv. assert (Hv' : 0 <= v < 2 ^ 31) by lia. destruct (dec_facts v Hv') as (_ & _ & _ & Hl). specialize (Hl 5 ltac:(lia) ltac:(lia)).
  unfold ngx_sprintf, ngx_vslprintf. cbn [length]. do 2 print_char4. print_dec conv_d true v Hv'. by rewrite loop_end.
Qed.

Lemma snprintf_dotted_port max a b c d v : 21 <= max -> is_byte a -> is_byte b -> is_byte c -> is_byte d -> 0 <= v < 65536 ->
  ngx_snprintf max (str("%ud.%ud.%ud.%ud:%d")) [AInt a; AInt b; AInt c; AInt d; AInt v] = Some (dotted a b c d ++ ch(":") :: dec v)
  /\ (length (dotted a b c d ++ ch(":") :: dec v) <= 21)%nat.
Proof.
  intros Hm Ha Hb Hc Hd Hv. assert (Hv' : 0 <= v < 2 ^ 31) by lia. destruct (dec_facts v Hv') as (_ & _ & _ & Lv). specialize (Lv 5 ltac:(lia) ltac:(lia)).
  destruct (dec_byte a Ha) as (_ & _ & La), (dec_byte b Hb) as (_ & _ & Lb), (dec_byte c Hc) as (_ & _ & Lc), (dec_byte d Hd) as (_ & _ & Ld).
  pose proof (dotted_length a b c d Ha Hb Hc Hd) as Hl. apply byte_31 in Ha, Hb, Hc, Hd.
  assert (H : ngx_sprintf 0 (str("%ud.%ud.%ud.%ud:%d")) [AInt a; AInt b; AInt c; AInt d; AInt v] = Some (dotted a b c d ++ ch(":") :: dec v)).
  { unfold ngx_sprintf, ngx_vslprintf. cbn [length]. print_dec conv_ud false a Ha. print_char4. print_dec conv_ud false b Hb. print_char4.
    print_dec conv_ud false c Hc. print_char4. print_dec conv_ud false d Hd. print_char4. print_dec conv_d true v Hv'.
    rewrite loop_end. unfold dotted. f_equal. repeat (progress (rewrite <- ?app_assoc; cbn [app])). done. }
  assert (Hlen : (length (dotted a b c d ++ ch(":") :: dec v) <= 21)%nat) by (rewrite length_app; cbn [length]; lia). split; [|done].
  unfold ngx_snprintf. unfold ngx_sprintf, ngx_vslprintf in *. apply vslprintf_loop_cut in H as [_ H]; [|by_evaluation|cbn; lia|lia].
  specialize (H max ltac:(lia)). rewrite take_nil in H. rewrite H. f_equal. apply take_ge. lia.
Qed.

(** An IPv4 address with a port is not an IPv6 address. *)
Lemma inet6_addr_dotted a t old : is_byte a -> ngx_inet6_addr (dec a ++ ch(".") :: t) old = Some None.
Proof.
  intros Ha. destruct (dec_byte a Ha) as (Da & _ & La). destruct (digits_hex (dec a) 0 Da) as [Hbd [w [Hw0 Hw]]]; [lia|].
  assert (Hhead : ngx_inet6_addr (dec a ++ ch(".") :: t) old = inet6_parse (dec a ++ ch(".") :: t) (St6 old 0 None None 0 0 8)).
  { destruct (dec a) as [|c ds]; [cbn in La; lia|]. cbn [app forallb] in *. unfold ngx_inet6_addr. unfold is_digit in Da. zbool. by destruct (Z.eqb_spec c (ch(":"))); [lia|]. }
  rewrite Hhead. unfold inet6_parse. rewrite (hex_run _ _ _ _ _ _ 0 0 _ w) by (done || lia). cbn [inet6_loop Z.eqb Pos.eqb nibbles digit].
  by destruct (Z.eqb_spec (0 + Z.of_nat (length (dec a))) 0); [lia|].
Qed.

(** An IPv4 or IPv6 socket address with fields of their widths. *)
Definition sockaddr_ok (sa : sockaddr) : Prop :=
  match sa with
  | sockaddr_in a pt => in_u 32 a /\ in_u 16 pt
  | sockaddr_in6 a pt => length a = 16%nat /\ bytes_ok a /\ in_u 16 pt
  | sockaddr_un _ => False
  end.

(** The addresses whose text the reader refuses: 255.255.255.255, alone or behind
    "::" or "::ffff:". *)
Definition refused (sa : sockaddr) : bool :=
  match sa with
  | sockaddr_in a _ => a =? INADDR_NONE
  | sockaddr_in6 a _ => broadcast6 a
  | sockaddr_un _ => false
  end.

(** What the two readers make of the text of [sa]: [None] is NGX_DECLINED. *)
Definition read_addr (sa : sockaddr) : option sockaddr :=
  if refused sa then None else Some (ngx_inet_set_port sa 0).
Definition read_addr_port (sa : sockaddr) : option sockaddr :=
  if refused sa || (ngx_inet_get_port sa =? 0) then None else Some sa.

Lemma parse_port t r v : 0 <= v < 65536 -> ngx_parse_addr t = Some r ->
  parse_with_port t (dec v) = Some (if v =? 0 then None else (fun sa => ngx_inet_set_port sa v) <$> r).
Proof.
  intros Hv Hp. unfold parse_with_port. rewrite atoi_dec by lia. destruct (Z.ltb_spec v 1), (Z.ltb_spec 65535 v), (Z.eqb_spec v 0); try lia; [done..|].
  cbn [orb]. rewrite Hp. by destruct r.
Qed.

Lemma port_ok pt : in_u 16 pt -> 0 <= htons pt < 65536 /\ htons (htons pt) = pt.
Proof. intros Hp. destruct (htons_htons pt Hp) as [H1 H2]. done. Qed.

Lemma roundtrip_in a pt text len : sockaddr_ok (sockaddr_in a pt) -> 45 <= len -> exists t t',
  ngx_sock_ntop (sockaddr_in a pt) text len true = Some t /\ (length t <= 48)%nat /\ ngx_parse_addr_port t = Some (read_addr_port (sockaddr_in a pt))
  /\ ngx_sock_ntop (sockaddr_in a pt) text len false = Some t' /\ (length t' <= 45)%nat /\ ngx_parse_addr t' = Some (read_addr (sockaddr_in a pt)).
Proof.
  intros (Ha & Hpt) Hlen. destruct (port_ok pt Hpt) as [Hv Hvv].
  destruct (le4_bytes a Ha) as (b0 & b1 & b2 & b3 & -> & H0 & H1 & H2 & H3).
  destruct (snprintf_dotted_port len b0 b1 b2 b3 (htons pt)) as [Hs Hl]; [lia|done..|].
  assert (Hp : ngx_parse_addr (dotted b0 b1 b2 b3) = Some (read_addr (sockaddr_in (le4 b0 b1 b2 b3) pt))).
  { unfold ngx_parse_addr, read_addr. cbn [refused]. rewrite inet_addr_dotted by done. destruct (Z.eqb_spec (le4 b0 b1 b2 b3) INADDR_NONE); [|done].
    unfold dotted. cbn [app]. by rewrite inet6_addr_dotted. }
  eexists _, _. unfold ngx_sock_ntop. rewrite bytes4_le4 by done. cbn [lookup list_lookup mbind option_bind].
  split; [exact Hs|]. split; [lia|]. split; [|split; [apply snprintf_dotted; [lia|done..]|split; [pose proof (dotted_length b0 b1 b2 b3 H0 H1 H2 H3); lia|done]]].
  assert (H6 : ngx_inet6_addr (dotted b0 b1 b2 b3 ++ ch(":") :: dec (htons pt)) (replicate 16 0) = Some None)
    by (unfold dotted; rewrite <- app_assoc; cbn [app]; by apply inet6_addr_dotted).
  unfold ngx_parse_addr_port. rewrite parse_addr_declined by (exact H6 || set_solver). cbn [mbind option_bind]. rewrite bool_decide_eq_false_2.
  - rewrite strlchr_app.
    + rewrite (parse_port _ _ _ Hv Hp). unfold read_addr, read_addr_port. cbn [refused ngx_inet_get_port]. f_equal.
      destruct (le4 b0 b1 b2 b3 =? INADDR_NONE), (htons pt =? 0); try done. cbn. by rewrite Hvv.
    + assert (Hd : forall n, is_byte n -> ch(":") ∉ dec n).
      { intros n (Hd & _)%dec_byte Hin. rewrite forallb_forall in Hd. apply list_elem_of_In, Hd in Hin. by cbn in Hin. }
      unfold dotted. cbn [app]. pose proof (Hd _ H0). pose proof (Hd _ H1). pose proof (Hd _ H2). pose proof (Hd _ H3). set_solver.
  - unfold dotted. destruct (dec_byte b0 H0) as (Hd & _ & Hl0). destruct (dec b0) as [|c ds]; [cbn in Hl0; lia|]. cbn [app head forallb] in *.
    unfold is_digit in Hd. zbool. intros [= ->]. lia.
Qed.

Lemma parse_addr_in6 t r : ch(":") ∈ t -> ngx_inet6_addr t (replicate 16 0) = Some r -> ngx_parse_addr t = Some ((fun a => sockaddr_in6 a 0) <$> r).
Proof. intros Hc Ha. unfold ngx_parse_addr. rewrite inet_addr_colon, Z.eqb_refl, Ha by done. by destruct r. Qed.

Lemma roundtrip_in6 a pt text len : sockaddr_ok (sockaddr_in6 a pt) -> 0 <= text < 2 ^ 61 -> 45 <= len -> exists t t',
  ngx_sock_ntop (sockaddr_in6 a pt) text len true = Some t /\ (length t <= 48)%nat /\ ngx_parse_addr_port t = Some (read_addr_port (sockaddr_in6 a pt))
  /\ ngx_sock_ntop (sockaddr_in6 a pt) text len false = Some t' /\ (length t' <= 45)%nat /\ ngx_parse_addr t' = Some (read_addr (sockaddr_in6 a pt)).
Proof.
  intros (Hl16 & Hb & Hpt) Ht Hlen. destruct (port_ok pt Hpt) as [Hv Hvv].
  destruct (bytes_words 8 a Hl16 Hb) as (ws & -> & Hws & Hok).
  assert (HN : forall tx, 0 <= tx < 2 ^ 62 -> exists t, ngx_inet6_ntop (abytes ws) tx len = Some t /\ Forall text_char t /\ ch(":") ∈ t /\ (length t <= 40)%nat
    /\ ngx_parse_addr t = Some (read_addr (sockaddr_in6 (abytes ws) pt))).
  { intros tx Htx. destruct (ntop_printed ws tx len Hws Hok Htx Hlen) as (t & Hn & Hp). destruct (printed_chars ws t Hws Hok Hp) as (H1 & H2 & H3).
    exists t. split_and!; try done. rewrite (parse_addr_in6 _ _ H2 (printed_read ws t (replicate 16 0) Hws Hok eq_refl Hp)).
    unfold read_addr. cbn [refused]. by destruct (broadcast6 (abytes ws)). }
  destruct (HN (text + 1) ltac:(lia)) as (t & Hn & Hc & Hcol & Hl & Hp). destruct (HN text ltac:(lia)) as (t' & Hn' & _ & _ & Hl' & Hp').
  destruct (dec_facts (htons pt) ltac:(lia)) as (_ & _ & _ & Lv). specialize (Lv 5 ltac:(lia) ltac:(lia)).
  exists (ch("[") :: t ++ str("]:") ++ dec (htons pt)), t'. unfold ngx_sock_ntop. rewrite Hn, Hn'. cbn [mbind option_bind].
  rewrite sprintf_port by lia. cbn [mbind option_bind]. split_and!; [done|cbn [length]; rewrite !length_app; cbn [length]; lia| |done|lia|done].
  unfold ngx_parse_addr_port. cbn [app]. rewrite parse_addr_declined by (done || set_solver). cbn [mbind option_bind].
  rewrite bool_decide_eq_true_2 by done.
  pose proof (strlchr_app (ch("[") :: t) (ch("]")) (ch(":") :: dec (htons pt))) as Hs. cbn [app] in Hs. rewrite Hs.
  - cbn [Z.eqb Pos.eqb negb tail]. rewrite (parse_port _ _ _ Hv Hp). unfold read_addr, read_addr_port. cbn [refused ngx_inet_get_port]. f_equal.
    destruct (broadcast6 (abytes ws)), (htons pt =? 0); try done. cbn. by rewrite Hvv.
  - intros [?|Hin]%elem_of_cons; [done|]. rewrite list.Forall_forall in Hc. by destruct (Hc _ Hin).
Qed.

(** C22. Socket addresses as text and back, for every IPv4 and IPv6 address and every port.
    ngx_sock_ntop prints the address, with at most 48 characters with its port and 45 without,
    in whichever form fits it (all words, "::" for a run of zeros, dotted end).
    ngx_parse_addr reads the text without the port as the same address, and
    ngx_parse_addr_port the text with the port as the same address and port, with exactly
    two exceptions, for which they return NGX_DECLINED: the address 255.255.255.255, alone or
    behind "::" or "::ffff:", which both refuse ([refused]), and the port 0, which is
    printed but which ngx_parse_addr_port does not accept. *)
Theorem sockaddr_text_roundtrip (sa : sockaddr) (text len : Z) (Hsa : sockaddr_ok sa) (Htext : 0 <= text < 2 ^ 61) (Hlen : NGX_INET6_ADDRSTRLEN <= len) :
  exists t t',
    ngx_sock_ntop sa text len true = Some t /\ (length t <= 48)%nat
    /\ ngx_parse_addr_port t = Some (if refused sa || (ngx_inet_get_port sa =? 0) then None else Some sa)
    /\ ngx_sock_ntop sa text len false = Some t' /\ (length t' <= 45)%nat
    /\ ngx_parse_addr t' = Some (if refused sa then None else Some (ngx_inet_set_port sa 0)).
Proof. destruct sa as [a pt|a pt|]; [by apply roundtrip_in|by apply roundtrip_in6|done]. Qed.

Lemma sockaddr_text_roundtrip_witness : exists t t',
  ngx_sock_ntop (sockaddr_in6 (0xfe :: 0x80 :: replicate 13 0 ++ [1]) (htons 8080)) 0x1000 64 true = Some t /\ (length t <= 48)%nat
  /\ ngx_parse_addr_port t = Some (Some (sockaddr_in6 (0xfe :: 0x80 :: replicate 13 0 ++ [1]) (htons 8080)))
  /\ ngx_sock_ntop (sockaddr_in6 (0xfe :: 0x80 :: replicate 13 0 ++ [1]) (htons 8080)) 0x1000 64 false = Some t' /\ (length t' <= 45)%nat
  /\ ngx_parse_addr t' = Some (Some (ngx_inet_set_port (sockaddr_in6 (0xfe :: 0x80 :: replicate 13 0 ++ [1]) (htons 8080)) 0)).
Proof.
  apply (sockaddr_text_roundtrip (sockaddr_in6 (0xfe :: 0x80 :: replicate 13 0 ++ [1]) (htons 8080)));
    [|lia|unfold NGX_INET6_ADDRSTRLEN; lia].
  split_and!; [done|by_evaluation|by_evaluation].
Defined.

(** The exceptions: a port 0, and 255.255.255.255 in its three places; other
    addresses that end in ffff:ffff are read back. *)
Example text_exceptions :
  ngx_sock_ntop (sockaddr_in (le4 1 2 3 4) 0) 0 64 true = Some (str("1.2.3.4:0"))
  /\ ngx_parse_addr_port (str("1.2.3.4:0")) = Some None
  /\ map refused [sockaddr_in (le4 255 255 255 255) 0; sockaddr_in6 (replicate 12 0 ++ replicate 4 255) 0;
                  sockaddr_in6 (replicate 10 0 ++ replicate 6 255) 0;
                  sockaddr_in6 (replicate 10 0 ++ [0; 1] ++ replicate 4 255) 0] = [true; true; true; false].
Proof. vm_compute. repeat split. Qed.

End Inet6.
