(* ===== verification/Cidr.v ===== *)
(** * Networks in CIDR notation: ngx_ptocidr and ngx_cidr_match of core/ngx_inet.c

    Access lists are lists of networks.  The bytes that the readers produce are in range
    and inside their buffers whatever the text is; an address belongs to a network exactly
    when it begins with the bits of the network. *)

From S2P Require Import Prelude NgxNumber NgxPrint RadixTree Inet Inet6.

Module Cidr.
Import Radix Inet Inet6.

(** ** The readers stay inside their buffers *)

(** The state of the loop of ngx_inet6_addr: [n6] words are left. *)
Definition ok6 (s : st6) : Prop :=
  length (buf s) = 16%nat /\ bytes_ok (buf s) /\ 1 <= n6 s <= 8 /\ Z.of_nat (pos s) = 16 - 2 * n6 s
  /\ match zero6 s with None => True | Some z => (z <= pos s)%nat end /\ 0 <= word s.

Lemma land_byte x : is_byte (Z.land x 0xff).
Proof. replace (Z.land x 0xff) with (x mod 256) by (by bits_to_arith). apply mod_byte. Qed.
Lemma u8_byte x : is_byte (u8 x).
Proof. apply mod_byte. Qed.

Lemma put_safe b s : (pos s < 16)%nat -> length (buf s) = 16%nat -> bytes_ok (buf s) -> is_byte b ->
  exists b', put b s = Some (St6 b' (S (pos s)) (zero6 s) (digit s) (nibbles s) (word s) (n6 s)) /\ length b' = 16%nat /\ bytes_ok b'.
Proof.
  intros Hp Hl Hb Hby. unfold put. rewrite Hl. destruct (Nat.ltb_spec (pos s) 16); [|lia]. eexists. split; [done|].
  rewrite length_insert. split; [done|]. by apply Forall_insert.
Qed.

Lemma put_word_safe s : (pos s < 15)%nat -> length (buf s) = 16%nat -> bytes_ok (buf s) ->
  exists b', put_word s = Some (St6 b' (S (S (pos s))) (zero6 s) (digit s) (nibbles s) (word s) (n6 s)) /\ length b' = 16%nat /\ bytes_ok b'.
Proof.
  intros Hp Hl Hb. unfold put_word. destruct (put_safe (u8 (Z.shiftr (word s) 8)) s) as (b1 & -> & Hl1 & Hb1); [lia|done|done|apply u8_byte|].
  cbn [mbind option_bind word]. destruct (put_safe (Z.land (word s) 0xff) (St6 b1 (S (pos s)) (zero6 s) (digit s) (nibbles s) (word s) (n6 s)))
    as (b2 & -> & Hl2 & Hb2); [cbn; lia|done|done|apply land_byte|]. by exists b2.
Qed.

Lemma inet_addr_range text : in_u 32 (ngx_inet_addr text).
Proof.
  rewrite inet_addr_spec. unfold inet_spec, in_u, INADDR_NONE. destruct (fields text) as [|f0 [|f1 [|f2 [|f3 [|]]]]]; try lia.
  cbn [forallb]. destruct (field_ok f0) eqn:H0; cbn [andb]; [|lia]. destruct (field_ok f1) eqn:H1; cbn [andb]; [|lia].
  destruct (field_ok f2) eqn:H2; cbn [andb]; [|lia]. destruct (field_ok f3) eqn:H3; cbn [andb]; [|lia].
  apply field_value in H0, H1, H2, H3. unfold is_byte, le4 in *. lia.
Qed.

Lemma htonl_nonneg x : 0 <= htonl x.
Proof. unfold htonl. repeat (apply Z.lor_nonneg; split); rewrite ?Z.shiftl_nonneg; apply Z.land_nonneg; right; lia. Qed.

Lemma inet6_loop_safe p : forall s, ok6 s -> exists r, inet6_loop p s = Some r /\ forall s', r = Some s' -> ok6 s'.
Proof.
  induction p as [|c p IH]; intros s Hs; cbn [inet6_loop]; [exists (Some s); split; [done|]; by intros ? [= <-]|].
  pose proof Hs as (Hl & Hb & Hn & Hp & Hz & Hw). destruct (c =? ch(":")).
  - destruct (nibbles s =? 0); cbn [negb].
    + destruct (zero6 s); [by exists None|]. apply IH. split_and!; cbn; (done || lia).
    + destruct (put_word_safe s) as (b' & -> & Hl' & Hb'); [lia|done|done|]. cbn [mbind option_bind n6 buf pos zero6].
      destruct (Z.eqb_spec (n6 s - 1) 0); cbn [negb]; [by exists None|]. apply IH. split_and!; cbn; try done; try lia. by destruct (zero6 s); [lia|].
  - destruct ((c =? ch(".")) && negb (nibbles s =? 0)).
    + destruct (digit s) as [dg|]; [|by exists None]. destruct (Z.ltb_spec (n6 s) 2); [by exists None|]. destruct (_ =? INADDR_NONE); [by exists None|].
      set (w := htonl (ngx_inet_addr dg)). destruct (put_safe (Z.land (Z.shiftr w 24) 0xff) s) as (b1 & -> & Hl1 & Hb1); [lia|done|done|apply land_byte|].
      cbn [mbind option_bind]. edestruct (put_safe (Z.land (Z.shiftr w 16) 0xff)) as (b2 & -> & Hl2 & Hb2); [cbn [pos]; lia|exact Hl1|exact Hb1|apply land_byte|].
      cbn [mbind option_bind buf pos zero6 digit nibbles n6]. eexists. split; [done|]. intros s' [= <-].
      split_and!; cbn; try done; try lia; [by destruct (zero6 s); [lia|]|apply htonl_nonneg].
    + destruct (4 <? nibbles s + 1); [by exists None|]. destruct ((ch("0") <=? c) && (c <=? ch("9"))) eqn:Hd; [zbool; apply IH; split_and!; cbn; (done || lia)|].
      destruct ((ch("a") <=? Z.lor c 0x20) && (Z.lor c 0x20 <=? ch("f"))) eqn:Hx; [zbool; apply IH; split_and!; cbn; (done || lia)|by exists None].
Qed.

Lemma wb_bytes w : bytes_ok (wb w).
Proof. repeat constructor; apply mod_byte. Qed.

Lemma inet6_finish_safe s : ok6 s -> exists r, inet6_finish s = Some r /\ forall b, r = Some b -> length b = 16%nat /\ bytes_ok b.
Proof.
  intros (Hl & Hb & Hn & Hp & Hz & Hw). destruct (zero6 s) as [z|] eqn:Hz0.
  - destruct (decide (n6 s = 1)) as [H1|H1].
    + unfold inet6_finish. rewrite Hz0, bool_decide_eq_false_2, andb_false_r by done.
      destruct (put_word_safe s) as (b' & -> & Hl' & Hb'); [lia|done|done|]. cbn [mbind option_bind n6 zero6]. rewrite H1, Hz0. by exists None.
    + assert (Hsplit : buf s = take z (buf s) ++ drop z (take (pos s) (buf s)) ++ drop (pos s) (buf s)).
      { rewrite app_assoc. rewrite <- (take_drop (pos s) (buf s)) at 1. f_equal. rewrite <- (take_drop z (take (pos s) (buf s))) at 1. f_equal.
        rewrite take_take. f_equal. lia. }
      set (A := take z (buf s)) in *. set (B := drop z (take (pos s) (buf s))) in *. set (J := drop (pos s) (buf s)) in *.
      assert (HA : length A = z) by (subst A; rewrite length_take; lia). assert (HB : (length A + length B = pos s)%nat) by (subst B; rewrite length_drop, length_take; lia).
      assert (HJ : Z.of_nat (length J) = 2 * n6 s) by (subst J; rewrite length_drop; lia).
      assert (Hst : s = St6 (A ++ B ++ J) (length A + length B) (Some (length A)) (digit s) (nibbles s) (word s) (n6 s)).
      { rewrite <- Hsplit, HB, HA, <- Hz0. by destruct s. }
      rewrite Hsplit in Hb. apply Forall_app in Hb as [HbA Hb]. apply Forall_app in Hb as [HbB _].
      pose proof (finish_zero A B J (digit s) (nibbles s) (word s) (n6 s) Hw ltac:(lia) HJ) as HF. rewrite <- Hst in HF.
      eexists. split; [exact HF|]. intros b [= <-]. rewrite !length_app, length_replicate. split; [cbn [wb length]; lia|].
      repeat (apply Forall_app; split); try done; [|apply wb_bytes]. apply Forall_replicate. by_evaluation.
  - unfold inet6_finish. rewrite Hz0. destruct ((nibbles s =? 0) && bool_decide (@None nat = None)); [by exists None|].
    destruct (put_word_safe s) as (b' & -> & Hl' & Hb'); [lia|done|done|]. cbn [mbind option_bind n6 zero6 buf]. rewrite Hz0.
    destruct (negb (n6 s - 1 =? 0)); eexists; (split; [done|]); [done|]. by intros b [= <-].
Qed.

Lemma inet6_addr_safe text old : length old = 16%nat -> bytes_ok old ->
  exists r, ngx_inet6_addr text old = Some r /\ forall b, r = Some b -> length b = 16%nat /\ bytes_ok b.
Proof.
  intros Hl Hb. unfold ngx_inet6_addr. destruct text as [|c text]; [by exists None|]. unfold inet6_parse.
  destruct (inet6_loop_safe (if c =? ch(":") then text else c :: text) (St6 old 0 None None 0 0 8)) as (r & -> & Hr); [split_and!; cbn; (done || lia)|].
  cbn [mbind option_bind]. destruct r as [s|]; [|by exists None]. apply inet6_finish_safe, Hr. done.
Qed.

(** ** Masks *)

Lemma bits_eq w n x y : bits w n x = bits w n y <-> forall i, (i < n)%nat -> Z.testbit x (Z.of_nat w - 1 - Z.of_nat i) = Z.testbit y (Z.of_nat w - 1 - Z.of_nat i).
Proof.
  unfold bits. split.
  - intros H i Hi. apply (f_equal (fun l => nth i l false)) in H.
    rewrite !(nth_indep _ false (Z.testbit x (Z.of_nat w - 1 - Z.of_nat 0))) in H by (rewrite length_map, length_seq; lia).
    rewrite (map_nth (fun i => Z.testbit x (Z.of_nat w - 1 - Z.of_nat i)) _ 0%nat) in H.
    rewrite (nth_indep _ _ (Z.testbit y (Z.of_nat w - 1 - Z.of_nat 0))) in H by (rewrite length_map, length_seq; lia).
    rewrite (map_nth (fun i => Z.testbit y (Z.of_nat w - 1 - Z.of_nat i)) _ 0%nat) in H. by rewrite !seq_nth in H by lia.
  - intros H. apply map_ext_in. intros i [_ Hi]%in_seq. apply H. lia.
Qed.

Lemma byte_high x i : is_byte x -> 8 <= i -> Z.testbit x i = false.
Proof. intros Hx Hi. unfold is_byte in Hx. destruct (decide (x = 0)) as [->|]; [apply Z.bits_0|]. apply Z.bits_above_log2; [lia|]. apply Z.log2_lt_pow2; [lia|]. apply Z.lt_le_trans with (2 ^ 8); [lia|]. apply Z.pow_le_mono_r; lia. Qed.

(** One byte under a mask of [j] ones. *)
Lemma byte_match x y j : is_byte x -> is_byte y -> (j <= 8)%nat -> Z.land x (cidr 8 j) = Z.land y (cidr 8 j) <-> bits 8 j x = bits 8 j y.
Proof.
  intros Hx Hy Hj. rewrite bits_eq. split.
  - intros H i Hi. apply (f_equal (fun v => Z.testbit v (Z.of_nat 8 - 1 - Z.of_nat i))) in H. rewrite !Z.land_spec, cidr_testbit in H by lia.
    destruct (Z.leb_spec (Z.of_nat 8 - Z.of_nat j) (Z.of_nat 8 - 1 - Z.of_nat i)); [|lia]. by rewrite !andb_true_r in H.
  - intros H. apply Z.bits_inj'. intros n Hn. rewrite !Z.land_spec. destruct (decide (8 <= n)); [rewrite (byte_high x), (byte_high y) by done; done|].
    rewrite cidr_testbit by lia. destruct (Z.leb_spec (Z.of_nat 8 - Z.of_nat j) n); [|by rewrite !andb_false_r].
    specialize (H (Z.to_nat (7 - n)) ltac:(lia)). replace (Z.of_nat 8 - 1 - Z.of_nat (Z.to_nat (7 - n))) with n in H by lia. by rewrite H.
Qed.

(** The bytes of [net] are zero behind the mask. *)
Fixpoint masked (net mask : list Z) : Prop :=
  match net, mask with
  | y :: net, m :: mask => Z.land y m = y /\ masked net mask
  | _, _ => True
  end.

Lemma match6_ok a : forall net k, length net = length a -> bytes_ok a -> bytes_ok net -> masked net (cidr128 (length a) k) ->
  match6 a (cidr128 (length a) k) net = true <-> take k (bits128 a) = take k (bits128 net).
Proof.
  induction a as [|x a IH]; intros net k Hl Ha Hn Hm; (destruct net as [|y net]; [try done|]); cbn [length] in Hl; try lia.
  cbn [length cidr128 masked match6] in *. apply Forall_cons_1 in Ha as [Hx Ha]. apply Forall_cons_1 in Hn as [Hy Hn]. destruct Hm as [Hm1 Hm].
  set (j := Nat.min 8 k) in *. specialize (IH net (k - 8)%nat ltac:(lia) Ha Hn Hm).
  assert (Hhead : Z.land x (cidr 8 j) = y <-> bits 8 j x = bits 8 j y) by (rewrite <- Hm1 at 1; apply byte_match; (done || lia)).
  assert (Htake : forall u l, take k (bits128 (u :: l)) = bits 8 j u ++ take (k - 8) (bits128 l)).
  { intros u l. unfold bits128. cbn [map concat]. rewrite take_app, bits_length. f_equal. destruct (decide (k <= 8)%nat).
    - rewrite bits_take by done. f_equal. lia.
    - rewrite take_ge by (rewrite bits_length; lia). f_equal. lia. }
  rewrite !Htake. destruct (Z.eqb_spec (Z.land x (cidr 8 j)) y) as [He|He]; cbn [negb].
  - rewrite IH. apply Hhead in He. rewrite He. split; [by intros ->|]. intros H. by apply app_inv_head in H.
  - split; [done|]. intros H. exfalso. apply He, Hhead. apply (f_equal (take j)) in H. by rewrite !take_app_le, !take_ge in H by (rewrite bits_length; lia).
Qed.

Lemma mask_byte j : 0 <= j <= 8 -> u8 (Z.shiftl 0xff (8 - j)) = cidr 8 (Z.to_nat j).
Proof.
  intros Hj. assert (H : forallb (fun j => u8 (Z.shiftl 0xff (8 - j)) =? cidr 8 (Z.to_nat j)) [0; 1; 2; 3; 4; 5; 6; 7; 8] = true) by (by vm_compute).
  rewrite forallb_forall in H. apply Z.eqb_eq, H. cbn. lia.
Qed.

Lemma land_idem a m : Z.land (Z.land a m) m = Z.land a m.
Proof. by rewrite <- Z.land_assoc, Z.land_diag. Qed.

Lemma land_is_byte a m : is_byte a -> 0 <= m -> is_byte (Z.land a m).
Proof. intros Ha Hm. unfold is_byte in *. rewrite Z.land_comm. apply (land_lt_pow2 m a 8); lia. Qed.

Lemma cidr_nonneg w n : 0 <= cidr w n.
Proof. unfold cidr. rewrite Z.shiftl_nonneg. rewrite Z.ones_equiv. pose proof (Z.pow_pos_nonneg 2 (Z.of_nat n)). lia. Qed.

(** The loop of ngx_ptocidr: the mask has the given number of ones, and the address loses the
    other bits. *)
Lemma mask6_ok addr : forall shift rc a m rc', 0 <= shift -> bytes_ok addr -> mask6 addr shift rc = (a, m, rc') ->
  m = cidr128 (length addr) (Z.to_nat shift) /\ length a = length addr /\ bytes_ok a /\ masked a m
  /\ take (Z.to_nat shift) (bits128 a) = take (Z.to_nat shift) (bits128 addr).
Proof.
  induction addr as [|x addr IH]; intros shift rc a m rc' Hs Hb H; cbn [mask6] in H; [simplify_eq; by split_and!|].
  apply Forall_cons_1 in Hb as [Hx Hb]. set (s := if 8 <? shift then 8 else shift) in *.
  assert (Hsr : 0 <= s <= 8 /\ Z.to_nat s = Nat.min 8 (Z.to_nat shift) /\ Z.to_nat (shift - s) = (Z.to_nat shift - 8)%nat /\ 0 <= shift - s)
    by (subst s; destruct (Z.ltb_spec 8 shift); lia). destruct Hsr as (Hs8 & Hsn & Hsd & Hs0). rewrite mask_byte in H by lia.
  destruct (mask6 addr (shift - s) _) as [[l ms] rc0] eqn:HR. apply IH in HR as (Hm & Hl & Hbl & Hmk & Ht); [|done|done]. simplify_eq.
  rewrite Hsd in *. rewrite Hsn. cbn [length cidr128 masked]. split_and!; [done|lia|constructor; [apply land_is_byte; [done|apply cidr_nonneg]|done]|apply land_idem|done|].
  unfold bits128 in *. cbn [map concat]. rewrite !take_app, !bits_length, Ht. f_equal.
  pose proof (proj1 (byte_match (Z.land x (cidr 8 (Nat.min 8 (Z.to_nat shift)))) x (Nat.min 8 (Z.to_nat shift))
    (land_is_byte _ _ Hx (cidr_nonneg _ _)) Hx ltac:(lia)) (land_idem _ _)) as He.
  destruct (decide (Z.to_nat shift <= 8)%nat).
  - rewrite !bits_take by done. by replace (Nat.min 8 (Z.to_nat shift)) with (Z.to_nat shift) in He |- * by lia.
  - rewrite !take_ge by (rewrite bits_length; lia). by replace (Nat.min 8 (Z.to_nat shift)) with 8%nat in He |- * by lia.
Qed.

(** ** IPv4 addresses as four bytes *)

Lemma land_shift n x y a b : 0 <= n -> 0 <= a < 2 ^ n -> 0 <= b < 2 ^ n -> Z.land (x * 2 ^ n + a) (y * 2 ^ n + b) = Z.land x y * 2 ^ n + Z.land a b.
Proof.
  intros Hn Ha Hb. assert (Hl : 0 <= Z.land a b < 2 ^ n) by (apply land_lt_pow2; lia). rewrite <- !lor_shiftl_add by done.
  assert (Hhigh : forall v i, 0 <= v < 2 ^ n -> n <= i -> Z.testbit v i = false).
  { intros v i Hv Hi. rewrite <- (Z.mod_small v (2 ^ n)) by done. by apply Z.mod_pow2_bits_high. }
  apply Z.bits_inj'. intros i Hi. rewrite Z.land_spec, !Z.lor_spec, !Z.shiftl_spec, !Z.land_spec by done. destruct (decide (i < n)).
  - rewrite !(Z.testbit_neg_r _ (i - n)) by lia. done.
  - rewrite (Hhigh a), (Hhigh b) by lia. by rewrite !orb_false_r.
Qed.

Lemma land_le4 a b c d m0 m1 m2 m3 : is_byte a -> is_byte b -> is_byte c -> is_byte d -> is_byte m0 -> is_byte m1 -> is_byte m2 -> is_byte m3 ->
  Z.land (le4 a b c d) (le4 m0 m1 m2 m3) = le4 (Z.land a m0) (Z.land b m1) (Z.land c m2) (Z.land d m3).
Proof.
  unfold is_byte. intros Ha Hb Hc Hd H0 H1 H2 H3.
  assert (Hf : forall a b c d, le4 a b c d = ((d * 2 ^ 8 + c) * 2 ^ 8 + b) * 2 ^ 8 + a) by (intros; unfold le4; lia).
  rewrite !Hf, !land_shift by lia. done.
Qed.

Lemma le4_inj a b c d a' b' c' d' : is_byte a -> is_byte b -> is_byte c -> is_byte d -> is_byte a' -> is_byte b' -> is_byte c' -> is_byte d' ->
  le4 a b c d = le4 a' b' c' d' -> [a; b; c; d] = [a'; b'; c'; d'].
Proof. unfold is_byte, le4. intros. repeat f_equal; lia. Qed.

Lemma bytes4_ok x : bytes_ok (bytes4 x).
Proof. unfold bytes4. repeat constructor; apply land_byte. Qed.

(** The test of an IPv4 address is the test of its bytes. *)
Lemma match4 a m net : in_u 32 a -> in_u 32 m -> in_u 32 net -> (Z.land a m =? net) = match6 (bytes4 a) (bytes4 m) (bytes4 net).
Proof.
  intros (a0 & a1 & a2 & a3 & -> & Ha0 & Ha1 & Ha2 & Ha3)%le4_bytes (m0 & m1 & m2 & m3 & -> & Hm0 & Hm1 & Hm2 & Hm3)%le4_bytes
    (n0 & n1 & n2 & n3 & -> & Hn0 & Hn1 & Hn2 & Hn3)%le4_bytes.
  rewrite land_le4, !bytes4_le4 by done. cbn [match6].
  assert (Hb : forall x m, is_byte x -> is_byte m -> is_byte (Z.land x m)) by (intros x m Hx [Hm _]; by apply land_is_byte).
  pose proof (Hb _ _ Ha0 Hm0) as H0. pose proof (Hb _ _ Ha1 Hm1) as H1. pose proof (Hb _ _ Ha2 Hm2) as H2. pose proof (Hb _ _ Ha3 Hm3) as H3.
  destruct (Z.eqb_spec (le4 (Z.land a0 m0) (Z.land a1 m1) (Z.land a2 m2) (Z.land a3 m3)) (le4 n0 n1 n2 n3)) as [He|He].
  - apply le4_inj in He; try done. injection He as -> -> -> ->. by rewrite !Z.eqb_refl.
  - destruct (Z.eqb_spec (Z.land a0 m0) n0) as [E0|]; [|done]. destruct (Z.eqb_spec (Z.land a1 m1) n1) as [E1|]; [|done].
    destruct (Z.eqb_spec (Z.land a2 m2) n2) as [E2|]; [|done]. destruct (Z.eqb_spec (Z.land a3 m3) n3) as [E3|]; [|done]. exfalso. apply He. congruence.
Qed.

(** The mask that ngx_ptocidr computes. *)
Definition mask4 (shift : Z) : Z := if negb (shift =? 0) then htonl (u32 (Z.shiftl 0xffffffff (32 - shift))) else 0.

Lemma mask4_ok shift : 0 <= shift <= 32 -> in_u 32 (mask4 shift) /\ bytes4 (mask4 shift) = cidr128 4 (Z.to_nat shift).
Proof.
  intros Hs. assert (H : all_below 33 (fun s => (0 <=? mask4 s) && (mask4 s <? 2 ^ 32) && bool_decide (bytes4 (mask4 s) = cidr128 4 (Z.to_nat s))) = true) by (by vm_compute).
  pose proof (all_below_spec 33 _ H shift ltac:(lia)) as Hc. cbn beta in Hc. apply andb_prop in Hc as [Hc Hd%bool_decide_eq_true]. zbool. unfold in_u. split; [lia|done].
Qed.

Lemma masked_land a : forall m, masked (zip_with Z.land a m) m.
Proof. induction a as [|x a IH]; intros [|y m]; cbn; try done. split; [apply land_idem|apply IH]. Qed.

Lemma bytes4_land a m : in_u 32 a -> in_u 32 m -> bytes4 (Z.land a m) = zip_with Z.land (bytes4 a) (bytes4 m).
Proof.
  intros (a0 & a1 & a2 & a3 & -> & Ha0 & Ha1 & Ha2 & Ha3)%le4_bytes (m0 & m1 & m2 & m3 & -> & Hm0 & Hm1 & Hm2 & Hm3)%le4_bytes.
  assert (Hb : forall x m, is_byte x -> is_byte m -> is_byte (Z.land x m)) by (intros x m Hx [Hm _]; by apply land_is_byte).
  rewrite land_le4, !bytes4_le4 by auto. done.
Qed.

Lemma in_u_land a m : in_u 32 a -> in_u 32 m -> in_u 32 (Z.land a m).
Proof. unfold in_u. intros Ha Hm. apply land_lt_pow2; lia. Qed.

Lemma masked_self net mask : length net = length mask -> masked net mask -> zip_with Z.land net mask = net.
Proof. revert mask. induction net as [|y net IH]; intros [|m mask]; cbn; try done. intros Hl [Hy Hm]. f_equal; [done|]. apply IH; [lia|done]. Qed.

(** Masking keeps the first bits. *)
Lemma take_masked a : forall k, bytes_ok a -> take k (bits128 (zip_with Z.land a (cidr128 (length a) k))) = take k (bits128 a).
Proof.
  intros k Ha. pose proof (match6_ok a (zip_with Z.land a (cidr128 (length a) k)) k) as H. symmetry. apply H; try done.
  - rewrite length_zip_with_l_eq; [done|]. clear. revert k. induction a as [|x a IH]; intros k; cbn; [done|]. by rewrite <- IH.
  - clear H. revert k. induction Ha as [|x a Hx Ha IH]; intros k; cbn; [constructor|]. constructor; [apply land_is_byte; [done|apply cidr_nonneg]|apply IH].
  - apply masked_land.
  - clear. revert k. induction a as [|x a IH]; intros k; cbn [length cidr128 match6 zip_with]; [done|]. by rewrite Z.eqb_refl, IH.
Qed.

Lemma cidr128_length m : forall k, length (cidr128 m k) = m.
Proof. induction m as [|m IH]; intros k; cbn; [done|]. by rewrite IH. Qed.

(** ** What a network is *)

(** The address before "/", of which family it is and its bytes, and the number behind. *)
Definition network (text old : list Z) (v6 : bool) (net : list Z) (k : nat) : Prop :=
  let '(addr, mask) := match ngx_strlchr text (ch("/")) with Some (a, m) => (a, Some m) | None => (text, None) end in
  (if v6 then ngx_inet_addr addr = INADDR_NONE /\ ngx_inet6_addr addr old = Some (Some net) /\ (k <= 128)%nat
   else ngx_inet_addr addr <> INADDR_NONE /\ net = bytes4 (ngx_inet_addr addr) /\ (k <= 32)%nat)
  /\ match mask with None => k = if v6 then 128%nat else 32%nat | Some m => ngx_atoi m = Z.of_nat k end.

(** The bytes of a client's address; an IPv4 address may come mapped. *)
Definition client (sa : sockaddr) : option (bool * list Z) :=
  match sa with
  | sockaddr_in a _ => Some (false, bytes4 a)
  | sockaddr_in6 a _ => Some (if v4mapped a then (false, drop 12 a) else (true, a))
  | sockaddr_un _ => None
  end.

Definition sockaddr_wf (sa : sockaddr) : Prop :=
  match sa with
  | sockaddr_in a _ => in_u 32 a
  | sockaddr_in6 a _ => length a = 16%nat /\ bytes_ok a
  | sockaddr_un _ => True
  end.

(** The address begins with the first [k] bits of the network. *)
Definition belongs (sa : sockaddr) (v6 : bool) (net : list Z) (k : nat) : Prop :=
  exists b, client sa = Some (v6, b) /\ take k (bits128 b) = take k (bits128 net).

(** ** Matching *)

Lemma mapped_bytes a pt : length a = 16%nat -> bytes_ok a -> v4mapped a = true ->
  exists x, match_addr (sockaddr_in6 a pt) = sockaddr_in x pt /\ in_u 32 x /\ bytes4 x = drop 12 a.
Proof.
  intros Hl Hb Hm. unfold match_addr. rewrite Hm. rewrite <- (take_drop 12 a) in Hb. apply Forall_app in Hb as [_ Hb].
  assert (Hn : forall i, nth (12 + i) a 0 = nth i (drop 12 a) 0) by (intros i; rewrite nth_skipn; f_equal; lia).
  rewrite (Hn 0%nat : nth 12 a 0 = _), (Hn 1%nat : nth 13 a 0 = _), (Hn 2%nat : nth 14 a 0 = _), (Hn 3%nat : nth 15 a 0 = _).
  assert (Hd : length (drop 12 a) = 4%nat) by (rewrite length_drop; lia). clear -Hb Hd. destruct (drop 12 a) as [|p [|q [|r [|s [|]]]]]; cbn in Hd; try lia.
  apply Forall_cons_1 in Hb as [Hp Hb]. apply Forall_cons_1 in Hb as [Hq Hb]. apply Forall_cons_1 in Hb as [Hr Hb]. apply Forall_cons_1 in Hb as [Hs _].
  cbn [nth]. assert (Hv : u32 (Z.shiftl p 24 + Z.shiftl q 16 + Z.shiftl r 8 + s) = ((p * 256 + q) * 256 + r) * 256 + s).
  { unfold is_byte, wrap in *. bits_to_arith. zlia. }
  rewrite Hv, (proj1 (htonl_le4 p q r s Hp Hq Hr Hs)). exists (le4 p q r s). split_and!; [done|unfold in_u, le4, is_byte in *; lia|by apply bytes4_le4].
Qed.

(** The address that ngx_cidr_match compares, as bytes. *)
Lemma match_addr_client sa : sockaddr_wf sa ->
  match match_addr sa with
  | sockaddr_in a _ => in_u 32 a /\ client sa = Some (false, bytes4 a)
  | sockaddr_in6 a _ => length a = 16%nat /\ bytes_ok a /\ client sa = Some (true, a)
  | sockaddr_un _ => client sa = None
  end.
Proof.
  intros Hwf. destruct sa as [a pt|a pt|]; cbn [sockaddr_wf client] in *; [done| |done]. destruct Hwf as [Hl Hb].
  destruct (v4mapped a) eqn:Hm.
  - destruct (mapped_bytes a pt Hl Hb Hm) as (x & -> & Hx & <-). done.
  - unfold match_addr. rewrite Hm. done.
Qed.

(** A network that ngx_ptocidr has read. *)
Definition cidr_for (c : ngx_cidr_t) (v6 : bool) (net : list Z) (k : nat) : Prop :=
  match c with
  | cidr_in a m =>
      v6 = false /\ in_u 32 a /\ in_u 32 m /\ bytes4 m = cidr128 4 k /\ masked (bytes4 a) (bytes4 m) /\ take k (bits128 (bytes4 a)) = take k (bits128 net)
  | cidr_in6 a m =>
      v6 = true /\ length a = 16%nat /\ bytes_ok a /\ m = cidr128 16 k /\ masked a m /\ take k (bits128 a) = take k (bits128 net)
  | cidr_unix => False
  end.

Lemma match_one_ok sa c v6 net k : sockaddr_wf sa -> cidr_for c v6 net k -> match_one (match_addr sa) c = true <-> belongs sa v6 net k.
Proof.
  intros Hwf Hc. pose proof (match_addr_client sa Hwf) as Hcl. unfold belongs.
  destruct (match_addr sa) as [a pt|a pt|], c as [ca cm|ca cm|]; cbn [cidr_for match_one] in *; try done.
  - destruct Hc as (-> & Hca & Hcm & Hbm & Hms & Ht), Hcl as [Ha ->]. rewrite match4 by done. rewrite Hbm in *.
    pose proof (match6_ok (bytes4 a) (bytes4 ca) k eq_refl (bytes4_ok _) (bytes4_ok _) Hms) as H. change (length (bytes4 a)) with 4%nat in H. rewrite H, Ht.
    split; [intros Hm; by exists (bytes4 a)|]. by intros (b & [= <-] & Hb).
  - destruct Hc as (-> & _), Hcl as [? ->]. split; [done|]. by intros (b & ? & _).
  - destruct Hc as (-> & _), Hcl as (? & ? & ->). split; [done|]. by intros (b & ? & _).
  - destruct Hc as (-> & Hl' & Hb' & -> & Hms & Ht), Hcl as (Hl & Hb & ->). pose proof (match6_ok a ca k ltac:(lia) Hb Hb') as H. rewrite Hl in H. rewrite (H Hms), Ht.
    split; [intros Hm; by exists a|]. by intros (b & [= <-] & Hbb).
  - rewrite Hcl. split; [done|]. by intros (b & ? & _).
  - rewrite Hcl. split; [done|]. by intros (b & ? & _).
Qed.

(** ** Reading a network *)

Lemma atoi_range m : ngx_atoi m = NGX_ERROR \/ 0 <= ngx_atoi m.
Proof.
  assert (H : ngx_atoi m = decimal_spec NGX_MAX_INT_T_VALUE m) by (by apply ato_spec). rewrite H. unfold decimal_spec.
  destruct (negb _ && _ && _) eqn:E; [|by left]. right. zbool. by apply (dec_value_mono 0).
Qed.

Lemma masked_full a : bytes_ok a -> masked a (replicate (length a) 0xff).
Proof. induction 1 as [|x a Hx Ha IH]; cbn; [done|]. split; [|done]. unfold is_byte in Hx. replace (Z.land x 255) with (x mod 256) by (by bits_to_arith). zlia. Qed.

Lemma cidr_for_in a k : in_u 32 a -> 0 <= k <= 32 -> cidr_for (cidr_in (Z.land a (mask4 k)) (mask4 k)) false (bytes4 a) (Z.to_nat k).
Proof.
  intros Ha Hk. destruct (mask4_ok k Hk) as [Hm Hb]. cbn [cidr_for]. rewrite bytes4_land, Hb by done. split_and!; try done; [by apply in_u_land|apply masked_land|].
  change 4%nat with (length (bytes4 a)). apply take_masked, bytes4_ok.
Qed.

(** ngx_ptocidr has a result whatever the text is, and the network it stores is that of the
    text. *)
Lemma ptocidr_ok text old : length old = 16%nat -> bytes_ok old -> exists r, ngx_ptocidr text old = Some r
  /\ forall rc c, r = Some (rc, c) -> exists v6 net k, network text old v6 net k /\ cidr_for c v6 net k.
Proof.
  intros Hol Hob. unfold ngx_ptocidr, network. destruct (match ngx_strlchr text 47 with Some (a, m) => (a, Some m) | None => (text, None) end) as [addr mask].
  pose proof (inet_addr_range addr) as Hr. destruct (Z.eqb_spec (ngx_inet_addr addr) INADDR_NONE) as [He|He]; cbn [negb].
  - destruct (inet6_addr_safe addr old Hol Hob) as (r & Hr6 & Hb6). rewrite Hr6. cbn [mbind option_bind]. destruct r as [a6|]; [|by exists None].
    destruct (Hb6 a6 eq_refl) as [Hl6 Hby6]. destruct mask as [m|].
    + destruct (atoi_range m) as [->|Hge]; [by exists None|]. destruct (Z.eqb_spec (ngx_atoi m) NGX_ERROR) as [Hx|_]; [unfold NGX_ERROR in Hx; lia|].
      destruct (Z.ltb_spec 128 (ngx_atoi m)); [by exists None|]. destruct (mask6 a6 (ngx_atoi m) NGX_OK) as [[a mk] rc] eqn:HM.
      apply mask6_ok in HM as (Hmk & Hla & Hba & Hms & Ht); [|done|done]. eexists. split; [done|]. intros ? ? [= <- <-].
      exists true, a6, (Z.to_nat (ngx_atoi m)). rewrite Hl6 in *. split; [split_and!; try done; lia|]. cbn [cidr_for]. done.
    + eexists. split; [done|]. intros ? ? [= <- <-]. exists true, a6, 128%nat. split; [done|]. cbn [cidr_for].
      pose proof (masked_full a6 Hby6) as HM. rewrite Hl6 in HM. done.
  - destruct mask as [m|].
    + destruct (atoi_range m) as [->|Hge]; [by exists None|]. destruct (Z.eqb_spec (ngx_atoi m) NGX_ERROR) as [Hx|_]; [unfold NGX_ERROR in Hx; lia|].
      destruct (Z.ltb_spec 32 (ngx_atoi m)); [by exists None|]. change (if negb (ngx_atoi m =? 0) then _ else 0) with (mask4 (ngx_atoi m)).
      pose proof (cidr_for_in _ (ngx_atoi m) Hr ltac:(lia)) as HC.
      destruct (Z.eqb_spec (ngx_inet_addr addr) (Z.land (ngx_inet_addr addr) (mask4 (ngx_atoi m)))) as [Heq|_]; [rewrite <- Heq in HC|];
        (eexists; split; [done|]; intros ? ? [= <- <-]; eexists false, _, _; split; [|exact HC]; split_and!; try done; lia).
    + pose proof (cidr_for_in _ 32 Hr ltac:(lia)) as HC. change (mask4 32) with 0xffffffff in HC.
      assert (Hland : Z.land (ngx_inet_addr addr) 0xffffffff = ngx_inet_addr addr).
      { unfold in_u in Hr. change 0xffffffff with (2 ^ 32 - 1). rewrite land_mask by lia. by apply Z.mod_small. }
      rewrite Hland in HC. eexists. split; [done|]. intros ? ? [= <- <-]. eexists false, _, _. split; [|exact HC]. done.
Qed.

Lemma network_unique text old v6 net k v6' net' k' : network text old v6 net k -> network text old v6' net' k' -> v6 = v6' /\ net = net' /\ k = k'.
Proof.
  unfold network. destruct (match ngx_strlchr text 47 with Some (a, m) => (a, Some m) | None => (text, None) end) as [addr mask].
  intros [H1 H2] [H1' H2']. assert (v6 = v6') as <- by (destruct v6, v6'; naive_solver).
  assert (k = k') as <- by (destruct mask; [lia|congruence]). split_and!; [done| |done]. destruct v6; destruct_and!; congruence.
Qed.

Lemma match_loop_ok sa cs : match_loop sa cs = NGX_OK <-> Exists (fun c => match_one sa c = true) cs.
Proof.
  induction cs as [|c cs IH]; cbn [match_loop]; [split; [done|]; by intros ?%Exists_nil|]. rewrite Exists_cons, <- IH.
  destruct (match_one sa c) eqn:E; [by split; [left|]|]. split; [by right|]. by intros [?|?].
Qed.
Lemma match_loop_rc sa cs : match_loop sa cs = NGX_OK \/ match_loop sa cs = NGX_DECLINED.
Proof. induction cs as [|c cs IH]; cbn; [by right|]. destruct (match_one sa c); [by left|done]. Qed.

(** C23. Access lists: when the networks [cs] have been read by ngx_ptocidr from the texts [ts],
    ngx_cidr_match accepts a client exactly if one of the texts is a network address/k of the
    client's family and the client's address begins with the first k bits of the address; an
    IPv6 client with a mapped IPv4 address counts as IPv4.  Otherwise the result is
    NGX_DECLINED. *)
Theorem cidr_match_correct (sa : sockaddr) (old : list Z) (ts : list (list Z)) (cs : list ngx_cidr_t)
  (Hsa : sockaddr_wf sa) (Hlen : length old = 16%nat) (Hbytes : bytes_ok old)
  (Hread : Forall2 (fun t c => exists rc, ngx_ptocidr t old = Some (Some (rc, c))) ts cs) :
  (ngx_cidr_match sa cs = NGX_OK <-> Exists (fun t => exists v6 net k, network t old v6 net k /\ belongs sa v6 net k) ts)
  /\ (ngx_cidr_match sa cs = NGX_OK \/ ngx_cidr_match sa cs = NGX_DECLINED).
Proof.
  split; [|apply match_loop_rc]. unfold ngx_cidr_match. rewrite match_loop_ok.
  assert (Hone : forall t c, (exists rc, ngx_ptocidr t old = Some (Some (rc, c))) ->
    match_one (match_addr sa) c = true <-> exists v6 net k, network t old v6 net k /\ belongs sa v6 net k).
  { intros t c [rc Hp]. destruct (ptocidr_ok t old Hlen Hbytes) as (r & Hr & HR). rewrite Hp in Hr. simplify_eq.
    destruct (HR rc c eq_refl) as (v6 & net & k & HN & HC). rewrite (match_one_ok sa c v6 net k Hsa HC). split; [by eauto 6|].
    intros (v6' & net' & k' & HN' & HB). by destruct (network_unique t old v6 net k v6' net' k' HN HN') as (-> & -> & ->). }
  induction Hread as [|t c ts cs Htc _ IH]; [split; by intros ?%Exists_nil|]. rewrite !Exists_cons, IH, (Hone t c Htc). done.
Qed.

Lemma cidr_match_correct_witness :
  ngx_cidr_match (sockaddr_in 0x0302010a 0) [cidr_in6 (0xfe :: 0x80 :: replicate 14 0) (cidr128 16 10); cidr_in 0x0a 0xff] = NGX_OK
  <-> Exists (fun t => exists v6 net k, network t (replicate 16 0) v6 net k /\ belongs (sockaddr_in 0x0302010a 0) v6 net k) [str("fe80::/10"); str("10.1.2.3/8")].
Proof.
  apply (cidr_match_correct (sockaddr_in 0x0302010a 0) (replicate 16 0)); [by_evaluation|done|by_evaluation|].
  constructor; [eexists; vm_compute; reflexivity|]. constructor; [eexists; vm_compute; reflexivity|]. constructor.
Defined.

End Cidr.
