(* ===== verification/Pool.v ===== *)
(** * Memory pools: core/ngx_palloc.c, core/ngx_palloc.h

    A pool is a list of blocks from which small pieces are cut one after the other, a list
    of large pieces that come from the system one by one, and a list of cleanup handlers;
    everything is given back at once.  The entries of the cleanup list are themselves pieces
    of the pool, and they are in memory here: the list is a pointer and a map from addresses
    to entries, and what is written over an entry, or freed, is not an entry any more.

    The system's allocator is an argument: from the number of calls so far, the regions that
    are in use, the alignment and the size it finds an address, or 0 for NULL.  Its hypothesis
    is what posix_memalign and malloc promise: the region is new, aligned and inside the
    address space.  Addresses and sizes are those of a 64-bit machine. *)

From S2P Require Import Prelude.

Module Pool.

(** ** The system *)

(** An address and a size. *)
Definition region : Type := Z * Z.

(** ngx_pool_cleanup_t; a handler is a number, [None] is NULL. *)
Record entry := Entry { handler : option nat; cdata : Z; cnext : Z }.
Definition SIZEOF_POOL_CLEANUP : Z := 24.

(** The regions in use, and the cleanup entries that are in memory, by address. *)
Record world := World { heap : list region; tick : nat; entries : gmap Z entry }.

Definition disjoint (r s : region) : Prop := r.1 + r.2 <= s.1 \/ s.1 + s.2 <= r.1.
#[export] Instance disjoint_dec r s : Decision (disjoint r s).
Proof. unfold disjoint. apply _. Defined.

(** Something else is written to [r], or it is given back. *)
Definition wipe (r : region) (w : world) : world :=
  World (heap w) (tick w) (filter (fun x => disjoint r (x.1, SIZEOF_POOL_CLEANUP)) (entries w)).

(** An entry is written to the address [c]. *)
Definition put_entry (c : Z) (e : entry) (w : world) : world :=
  let w := wipe (c, SIZEOF_POOL_CLEANUP) w in World (heap w) (tick w) (<[c := e]> (entries w)).

Definition allocator : Type := nat -> list region -> Z -> Z -> Z.

(** What the system promises. *)
Class AllocatorLaws (os : allocator) : Prop := {
  os_fresh : forall t h align size, 0 <= size -> os t h align size <> 0 -> Forall (disjoint (os t h align size, size)) h;
  os_unique : forall t h align size, os t h align size <> 0 -> os t h align size ∉ map fst h;
  os_aligned : forall t h align size, 0 < align -> os t h align size mod align = 0;
  os_range : forall t h align size, 0 <= os t h align size /\ (os t h align size <> 0 -> os t h align size + size <= 2 ^ 63);
}.

(** free: the region is in use, or the pointer is NULL. *)
Fixpoint release (p : Z) (h : list region) : option (region * list region) :=
  match h with
  | [] => None
  | r :: h => if r.1 =? p then Some (r, h) else '(r', h') ← release p h; Some (r', r :: h')
  end.

Definition ngx_free (p : Z) (w : world) : option world :=
  if p =? 0 then Some w else '(r, h) ← release p (heap w); Some (wipe r (World h (tick w) (entries w))).

(** ** The pool *)

Definition SIZEOF_POOL : Z := 80.
Definition SIZEOF_POOL_DATA : Z := 32.
Definition SIZEOF_POOL_LARGE : Z := 16.
Definition NGX_POOL_ALIGNMENT : Z := 16.
Definition NGX_ALIGNMENT : Z := 8.
Definition NGX_MAX_ALLOC_FROM_POOL : Z := 4095.
(** ngx_align(sizeof(ngx_pool_t) + 2 * sizeof(ngx_pool_large_t), NGX_POOL_ALIGNMENT) *)
Definition NGX_MIN_POOL_SIZE : Z := 112.

(** ngx_pool_data_t, at the address [base]; the next block is the next one of the list. *)
Record block := Block { base : Z; last : Z; bend : Z; failed : Z }.
(** ngx_pool_large_t, at the address [lnode] *)
Record large := Large { lnode : Z; lalloc : Z }.

(** ngx_pool_t: the first block is the one that holds the pool; [current] is a place in the
    list; [cleanup] is a pointer, 0 is NULL. *)
Record pool := Pool { blocks : list block; pmax : Z; current : nat; larges : list large; cleanup : Z }.

Definition set_blocks (bs : list block) (P : pool) : pool := Pool bs (pmax P) (current P) (larges P) (cleanup P).
Definition set_larges (ls : list large) (P : pool) : pool := Pool (blocks P) (pmax P) (current P) ls (cleanup P).
Definition set_cleanup (c : Z) (P : pool) : pool := Pool (blocks P) (pmax P) (current P) (larges P) c.
Definition set_last (m : Z) (b : block) : block := Block (base b) m (bend b) (failed b).

Definition ngx_align_ptr (p a : Z) : Z := Z.land (u64 (p + (a - 1))) (Z.lnot (a - 1)).

Section operations.
Context (os : allocator).

(** ngx_memalign, and ngx_alloc with the alignment of malloc *)
Definition ngx_memalign (align size : Z) (w : world) : Z * world :=
  let m := os (tick w) (heap w) align size in
  (m, World (if m =? 0 then heap w else (m, size) :: heap w) (S (tick w)) (entries w)).
Definition ngx_alloc (size : Z) (w : world) : Z * world := ngx_memalign 16 size w.

Definition ngx_create_pool (size : Z) (w : world) : option pool * world :=
  let '(p, w) := ngx_memalign NGX_POOL_ALIGNMENT size w in
  if p =? 0 then (None, w)
  else
    let left := size - SIZEOF_POOL in
    (Some (Pool [Block p (p + SIZEOF_POOL) (p + size) 0]
                (if left <? NGX_MAX_ALLOC_FROM_POOL then left else NGX_MAX_ALLOC_FROM_POOL) 0 [] 0), w).

(** do ... while (p): the first block that has room *)
Fixpoint small_loop (bs : list block) (size : Z) (align : bool) : option (Z * list block) :=
  match bs with
  | [] => None
  | b :: bs =>
      let m := if align then ngx_align_ptr (last b) NGX_ALIGNMENT else last b in
      if size <=? u64 (bend b - m) then Some (m, set_last (m + size) b :: bs)
      else '(m, bs) ← small_loop bs size align; Some (m, b :: bs)
  end.

(** for (p = pool->current; p->d.next; p = p->d.next): the blocks from place [i] on *)
Fixpoint bump (bs : list block) (i cur : nat) : list block * nat :=
  match bs with
  | b :: (_ :: _) as rest =>
      let cur := if 4 <? failed b then S i else cur in
      let '(rest, cur) := bump rest (S i) cur in
      (Block (base b) (last b) (bend b) (failed b + 1) :: rest, cur)
  | _ => (bs, cur)
  end.

Definition ngx_palloc_block (P : pool) (size : Z) (w : world) : option (Z * pool * world) :=
  f ← head (blocks P);
  let psize := bend f - base f in
  let '(m, w) := ngx_memalign NGX_POOL_ALIGNMENT psize w in
  if m =? 0 then Some (0, P, w)
  else
    let p := ngx_align_ptr (m + SIZEOF_POOL_DATA) NGX_ALIGNMENT in
    let new := Block m (p + size) (m + psize) 0 in
    let '(bs, cur) := bump (drop (current P) (blocks P)) (current P) (current P) in
    Some (p, Pool (take (current P) (blocks P) ++ bs ++ [new]) (pmax P) cur (larges P) (cleanup P), w).

Definition ngx_palloc_small (P : pool) (size : Z) (align : bool) (w : world) : option (Z * pool * world) :=
  match small_loop (drop (current P) (blocks P)) size align with
  | Some (m, bs) => Some (m, set_blocks (take (current P) (blocks P) ++ bs) P, w)
  | None => ngx_palloc_block P size w
  end.

(** The first of the first [n] entries that is NULL gets the piece. *)
Fixpoint reuse (n : nat) (ls : list large) (p : Z) : option (list large) :=
  match n, ls with
  | S n, l :: ls =>
      if lalloc l =? 0 then Some (Large (lnode l) p :: ls)
      else ls ← reuse n ls p; Some (l :: ls)
  | _, _ => None
  end.

(** The end of ngx_palloc_large and ngx_pmemalign: a new entry of the list. *)
Definition add_large (P : pool) (p : Z) (w : world) : option (Z * pool * world) :=
  '(l, P, w) ← ngx_palloc_small P SIZEOF_POOL_LARGE true w;
  if l =? 0 then w ← ngx_free p w; Some (0, P, w)
  else Some (p, set_larges (Large l p :: larges P) P, wipe (l, SIZEOF_POOL_LARGE) w).

Definition ngx_palloc_large (P : pool) (size : Z) (w : world) : option (Z * pool * world) :=
  let '(p, w) := ngx_alloc size w in
  if p =? 0 then Some (0, P, w)
  else
    match reuse 5 (larges P) p with
    | Some ls => Some (p, set_larges ls P, w)
    | None => add_large P p w
    end.

Definition ngx_pmemalign (P : pool) (size align : Z) (w : world) : option (Z * pool * world) :=
  let '(p, w) := ngx_memalign align size w in
  if p =? 0 then Some (0, P, w) else add_large P p w.

Definition ngx_palloc (P : pool) (size : Z) (w : world) : option (Z * pool * world) :=
  if size <=? pmax P then ngx_palloc_small P size true w else ngx_palloc_large P size w.

Definition ngx_pnalloc (P : pool) (size : Z) (w : world) : option (Z * pool * world) :=
  if size <=? pmax P then ngx_palloc_small P size false w else ngx_palloc_large P size w.

Fixpoint pfree_loop (ls : list large) (p : Z) : option (list large) :=
  match ls with
  | [] => None
  | l :: ls => if p =? lalloc l then Some (Large (lnode l) 0 :: ls) else ls ← pfree_loop ls p; Some (l :: ls)
  end.

Definition ngx_pfree (P : pool) (p : Z) (w : world) : option (Z * pool * world) :=
  match pfree_loop (larges P) p with
  | Some ls => w ← ngx_free p w; Some (NGX_OK, set_larges ls P, w)
  | None => Some (NGX_DECLINED, P, w)
  end.

(** A cleanup entry without a handler; the caller sets it.  When there is no memory for the
    data, c->data has been set to NULL and the piece is not linked. *)
Definition ngx_pool_cleanup_add (P : pool) (size : Z) (w : world) : option (option Z * pool * world) :=
  '(c, P, w) ← ngx_palloc P SIZEOF_POOL_CLEANUP w;
  if c =? 0 then Some (None, P, w)
  else if negb (size =? 0) then
    '(d, P, w) ← ngx_palloc P size w;
    if d =? 0 then Some (None, P, wipe (c, SIZEOF_POOL_CLEANUP) w)
    else Some (Some c, set_cleanup c P, put_entry c (Entry None d (cleanup P)) w)
  else Some (Some c, set_cleanup c P, put_entry c (Entry None 0 (cleanup P)) w).

(** for (l = pool->large; l; l = l->next) if (l->alloc) ngx_free(l->alloc) *)
Fixpoint free_larges (ls : list large) (w : world) : option world :=
  match ls with
  | [] => Some w
  | l :: ls => w ← (if negb (lalloc l =? 0) then ngx_free (lalloc l) w else Some w); free_larges ls w
  end.

Fixpoint free_blocks (bs : list block) (w : world) : option world :=
  match bs with
  | [] => Some w
  | b :: bs => w ← ngx_free (base b) w; free_blocks bs w
  end.

Definition ngx_reset_pool (P : pool) (w : world) : option (pool * world) :=
  w ← free_larges (larges P) w;
  Some (Pool (map (fun b => Block (base b) (base b + SIZEOF_POOL) (bend b) 0) (blocks P)) (pmax P) 0 [] (cleanup P), w).

(** for (c = pool->cleanup; c; c = c->next): the handlers that are run, with their data.  An
    address without an entry cannot be read. *)
Fixpoint run_cleanups (fuel : nat) (c : Z) (w : world) : option (list (nat * Z)) :=
  match fuel with
  | O => None
  | S fuel =>
      if c =? 0 then Some []
      else
        e ← entries w !! c;
        calls ← run_cleanups fuel (cnext e) w;
        Some (match handler e with Some h => (h, cdata e) :: calls | None => calls end)
  end.

(** The handlers that are run, and the memory afterwards.  A list that ends has at most as
    many entries as there are in memory. *)
Definition ngx_destroy_pool (P : pool) (w : world) : option (list (nat * Z) * world) :=
  calls ← run_cleanups (S (size (entries w))) (cleanup P) w;
  w ← free_larges (larges P) w;
  w ← free_blocks (blocks P) w;
  Some (calls, w).

End operations.

(** A system that never reuses addresses. *)
Definition bump_os : allocator := fun t h align size =>
  let top := foldr (fun r a => Z.max (Z.max r.1 (r.1 + r.2)) a) 4095 h in
  let m := (top + align) / align * align in
  if (0 <? align) && (m + size <=? 2 ^ 63) then m else 0.

Definition demo : option (list Z * list region) :=
  let '(P, w) := ngx_create_pool bump_os 256 (World [] 0 ∅) in
  P ← P;
  '(a, P, w) ← ngx_palloc bump_os P 100 w;
  '(b, P, w) ← ngx_pnalloc bump_os P 3 w;
  '(c, P, w) ← ngx_palloc bump_os P 80 w;
  '(d, P, w) ← ngx_palloc bump_os P 5000 w;
  '(r, P, w) ← ngx_pfree P d w;
  '(_, w') ← ngx_destroy_pool P w;
  Some ([a; b; c; d; r], heap w').

Example pool_ex : demo = Some ([4176; 4276; 4400; 4640; NGX_OK], []).
Proof. vm_compute. reflexivity. Qed.

(** ** Regions *)

Lemma disjoint_sym r s : disjoint r s -> disjoint s r.
Proof. unfold disjoint. tauto. Qed.

(** [r] lies inside [s]. *)
Definition inside (r s : region) : Prop := s.1 <= r.1 /\ 0 <= r.2 /\ r.1 + r.2 <= s.1 + s.2.

Lemma disjoint_inside r s r' s' : disjoint r s -> inside r' r -> inside s' s -> disjoint r' s'.
Proof. unfold disjoint, inside. lia. Qed.

(** No two regions overlap. *)
Fixpoint apart (l : list region) : Prop :=
  match l with [] => True | r :: l => Forall (disjoint r) l /\ apart l end.

Lemma apart_app l k : apart (l ++ k) <-> apart l /\ apart k /\ Forall (fun r => Forall (disjoint r) k) l.
Proof.
  induction l as [|r l IH]; cbn; [split; [intros; split_and!; try done; constructor|tauto]|]. rewrite Forall_app, Forall_cons_iff, IH. tauto.
Qed.

Lemma apart_perm l k : l ≡ₚ k -> apart l -> apart k.
Proof.
  induction 1 as [|r l k Hp IH|r s l|l k j _ IH1 _ IH2]; cbn; [done| | |tauto].
  - intros [H1 H2]. split; [by rewrite <- Hp|by apply IH].
  - intros [[Hd%disjoint_sym H1]%Forall_cons_1 [H2 H3]]. by rewrite Forall_cons_iff.
Qed.
#[export] Instance apart_proper : Proper ((≡ₚ) ==> iff) apart.
Proof. intros l k H. split; apply apart_perm; [done|by symmetry]. Qed.

Lemma apart_lookup l : apart l -> forall i j r s, i <> j -> l !! i = Some r -> l !! j = Some s -> disjoint r s.
Proof.
  induction l as [|x l IH]; intros H [|i] [|j] r s Hij Hi Hj; cbn in *; simplify_eq; try done; destruct H as [H1 H2].
  - by apply (Forall_lookup_1 _ _ _ _ H1 Hj).
  - by apply disjoint_sym, (Forall_lookup_1 _ _ _ _ H1 Hi).
  - eapply (IH H2 i j); (done || congruence).
Qed.

Lemma release_ok p n h : (p, n) ∈ h -> NoDup (map fst h) -> exists h', release p h = Some ((p, n), h') /\ h ≡ₚ (p, n) :: h'.
Proof.
  induction h as [|[q k] h IH]; [set_solver|]. cbn [map fst]. intros Hin [Hq Hn]%list.NoDup_cons. cbn [release fst].
  destruct (Z.eqb_spec q p) as [->|Hne].
  - exists h. apply elem_of_cons in Hin as [[= ->]|Hin]; [done|]. exfalso. apply Hq. apply list_elem_of_fmap. by exists (p, n).
  - apply elem_of_cons in Hin as [[= ? ?]|Hin]; [congruence|]. destruct (IH Hin Hn) as (h' & -> & Hp). eexists. split; [done|]. rewrite Hp. apply Permutation_swap.
Qed.

Lemma align_ptr_ok p : 0 <= p <= 2 ^ 63 -> p <= ngx_align_ptr p NGX_ALIGNMENT < p + 8 /\ ngx_align_ptr p NGX_ALIGNMENT mod 8 = 0.
Proof.
  intros Hp. unfold ngx_align_ptr, NGX_ALIGNMENT. rewrite wrap_small by (unfold in_u; lia). change (8 - 1) with (Z.ones 3).
  rewrite <- Z.ldiff_land, Z.ldiff_ones_r, Z.shiftr_div_pow2, Z.shiftl_mul_pow2 by lia. change (Z.ones 3) with 7. change (2 ^ 3) with 8. zlia.
Qed.

(** ** The invariant *)

(** The bytes at the beginning of a block that hold the structure of the pool. *)
Definition hdr (i : nat) : Z := match i with O => SIZEOF_POOL | _ => SIZEOF_POOL_DATA end.

Definition breg (b : block) : region := (base b, bend b - base b).

Definition block_ok (ps : Z) (i : nat) (b : block) : Prop :=
  0 < base b /\ base b mod 16 = 0 /\ base b + hdr i <= last b <= bend b /\ bend b = base b + ps /\ bend b <= 2 ^ 63.

(** A piece that was cut from a block, behind its header. *)
Definition in_block (bs : list block) (r : region) : Prop :=
  exists i b, bs !! i = Some b /\ base b + hdr i <= r.1 /\ 0 <= r.2 /\ r.1 + r.2 <= last b.

(** [small] are the pieces of blocks, [big] the pieces of the system, [other] the memory of
    the process that does not belong to the pool. *)
Record inv0 (bs : list block) (mx : Z) (cur : nat) (w : world) (small big other : list region) : Prop := {
  i_size : exists ps, ps mod 8 = 0 /\ SIZEOF_POOL <= ps /\ 0 <= mx <= ps - SIZEOF_POOL /\ forall i b, bs !! i = Some b -> block_ok ps i b;
  i_cur : (cur < length bs)%nat;
  i_heap : heap w ≡ₚ map breg bs ++ big ++ other;
  i_nodup : NoDup (map fst (heap w));
  i_apart : apart (heap w);
  i_in : Forall (in_block bs) small;
  i_small : apart small;
  i_big : Forall (fun r => 0 < r.1 /\ 0 <= r.2) big;
}.

Lemma breg_apart bs mx cur w small big other i j b b' : inv0 bs mx cur w small big other -> i <> j -> bs !! i = Some b -> bs !! j = Some b' ->
  disjoint (breg b) (breg b').
Proof.
  intros H Hij Hi Hj. pose proof (i_apart _ _ _ _ _ _ _ H) as Ha. rewrite (i_heap _ _ _ _ _ _ _ H) in Ha. apply apart_app in Ha as (Ha & _ & _).
  eapply (apart_lookup _ Ha i j); [done|by rewrite list_lookup_fmap, Hi|by rewrite list_lookup_fmap, Hj].
Qed.

(** A piece cut from block [i]. *)
Lemma inv_cut bs mx cur w small big other i b m size : inv0 bs mx cur w small big other -> bs !! i = Some b -> last b <= m -> 0 <= size -> m + size <= bend b ->
  inv0 (<[i := set_last (m + size) b]> bs) mx cur w ((m, size) :: small) big other.
Proof.
  intros H Hi Hm Hs Hb. pose proof H as [(ps & Hps & Hps80 & Hmx & Hok) Hcur Hheap Hnd Hap Hin Hsm Hbig]. pose proof (Hok i b Hi) as (Hb0 & Hb16 & Hbl & Hbe & Hb63).
  pose proof (lookup_lt_Some _ _ _ Hi) as Hlt.
  constructor; try done.
  - exists ps. split_and!; try done; try lia. intros j c Hj. destruct (decide (i = j)) as [<-|Hij].
    + rewrite list_lookup_insert_eq in Hj by done. simplify_eq. unfold block_ok, set_last. cbn. lia.
    + rewrite list_lookup_insert_ne in Hj by done. by apply Hok.
  - by rewrite length_insert.
  - rewrite Hheap. apply Permutation_app; [|done]. assert (He : map breg (<[i := set_last (m + size) b]> bs) = map breg bs); [|by rewrite He].
    transitivity (<[i := breg b]> (map breg bs)); [exact (list_fmap_insert breg bs i (set_last (m + size) b))|]. apply list_insert_id. by rewrite list_lookup_fmap, Hi.
  - constructor.
    + exists i, (set_last (m + size) b). rewrite list_lookup_insert_eq by done. cbn. split_and!; (done || lia).
    + eapply Forall_impl; [|exact Hin]. intros r (j & c & Hj & Hr). destruct (decide (i = j)) as [<-|Hij].
      * simplify_eq. exists i, (set_last (m + size) b). rewrite list_lookup_insert_eq by done. cbn. split_and!; (done || lia).
      * exists j, c. by rewrite list_lookup_insert_ne.
  - split; [|done]. eapply Forall_impl; [|exact Hin]. intros r (j & c & Hj & Hr1 & Hr2 & Hr3). destruct (decide (i = j)) as [<-|Hij].
    + simplify_eq. right. cbn. lia.
    + pose proof (Hok j c Hj) as (? & ? & ? & ? & ?). eapply disjoint_inside; [exact (breg_apart _ _ _ _ _ _ _ i j b c H Hij Hi Hj)|unfold inside, breg; cbn..].
      * assert (0 <= hdr i) by (destruct i; cbn; unfold SIZEOF_POOL, SIZEOF_POOL_DATA; lia). lia.
      * assert (0 <= hdr j) by (destruct j; cbn; unfold SIZEOF_POOL, SIZEOF_POOL_DATA; lia). lia.
Qed.

(** Only the places of the blocks matter. *)
Definition same_place (b b' : block) : Prop := base b = base b' /\ last b = last b' /\ bend b = bend b'.

Lemma same_place_refl bs : Forall2 same_place bs bs.
Proof. by induction bs; constructor. Qed.

Lemma inv_same bs bs' mx cur cur' w small big other : inv0 bs mx cur w small big other -> Forall2 same_place bs bs' -> (cur' < length bs')%nat ->
  inv0 bs' mx cur' w small big other.
Proof.
  intros [(ps & Hps & Hps80 & Hmx & Hok) Hcur Hheap Hnd Hap Hin Hsm Hbig] Hf Hc.
  assert (Hback : forall i b', bs' !! i = Some b' -> exists b, bs !! i = Some b /\ same_place b b') by (intros i b' Hi; by apply (Forall2_lookup_r _ _ _ _ _ Hf Hi)).
  constructor; try done.
  - exists ps. split_and!; try done; try lia. intros i b' Hi. destruct (Hback i b' Hi) as (b & Hb & H1 & H2 & H3). pose proof (Hok i b Hb) as Hbo.
    unfold block_ok in *. rewrite <- H1, <- H2, <- H3. done.
  - rewrite Hheap. apply Permutation_app; [|done]. enough (He : map breg bs = map breg bs') by by rewrite He.
    clear -Hf. induction Hf as [|b b' bs bs' (H1 & H2 & H3) _ IH]; cbn; [done|]. unfold breg at 1 3. by rewrite H1, H3, IH.
  - eapply Forall_impl; [|exact Hin]. intros r (i & b & Hi & Hr). destruct (Forall2_lookup_l _ _ _ _ _ Hf Hi) as (b' & Hb' & H1 & H2 & H3).
    exists i, b'. by rewrite <- H1, <- H2.
Qed.

(** ** Allocation *)

Section proofs.
Context (os : allocator) `{!AllocatorLaws os}.

(** The system has refused a request. *)
Definition refused : Prop := exists t h a s, os t h a s = 0.

(** Memory from the system. *)
Lemma memalign_ok align size w : 0 <= size -> NoDup (map fst (heap w)) -> apart (heap w) -> exists m w', ngx_memalign os align size w = (m, w')
  /\ (m = 0 /\ refused /\ heap w' = heap w
      \/ 0 < m /\ (0 < align -> m mod align = 0) /\ m + size <= 2 ^ 63 /\ heap w' = (m, size) :: heap w /\ NoDup (map fst (heap w')) /\ apart (heap w'))
  /\ entries w' = entries w.
Proof.
  intros Hs Hn Ha. unfold ngx_memalign. set (m := os (tick w) (heap w) align size). eexists m, _. split; [done|]. split; [|done]. cbn [heap].
  destruct (Z.eqb_spec m 0) as [Hm|Hm]; [left; rewrite Hm; split_and!; [done|by eexists _, _, _, _|done]|right]. pose proof (os_range (tick w) (heap w) align size) as [Hr1 Hr2]. fold m in Hr1, Hr2. specialize (Hr2 Hm).
  split_and!; [lia|intros; by apply os_aligned|lia|done| |].
  - cbn [map fst]. apply list.NoDup_cons. split; [|done]. by apply os_unique.
  - split; [|done]. by apply os_fresh.
Qed.

Lemma inv_large bs mx cur w w' small big other r : inv0 bs mx cur w small big other -> heap w' = r :: heap w -> NoDup (map fst (heap w')) -> apart (heap w') ->
  0 < r.1 /\ 0 <= r.2 -> inv0 bs mx cur w' small (r :: big) other.
Proof.
  intros [Hs Hcur Hheap Hnd Hap Hin Hsm Hbig] Hw Hn Ha Hr. constructor; try done; [|by constructor]. rewrite Hw, Hheap. cbn [app]. by rewrite Permutation_middle.
Qed.

Lemma inv_world bs mx cur w w' small big other : inv0 bs mx cur w small big other -> heap w' = heap w -> inv0 bs mx cur w' small big other.
Proof. intros [] Hw. constructor; rewrite ?Hw; done. Qed.

(** A new block, with its header. *)
Lemma inv_block bs mx cur w w' small big other f m : inv0 bs mx cur w small big other -> head bs = Some f ->
  0 < m -> m mod 16 = 0 -> m + (bend f - base f) <= 2 ^ 63 -> heap w' = (m, bend f - base f) :: heap w -> NoDup (map fst (heap w')) -> apart (heap w') ->
  inv0 (bs ++ [Block m (m + SIZEOF_POOL_DATA) (m + (bend f - base f)) 0]) mx cur w' small big other.
Proof.
  intros [(ps & Hps & Hps80 & Hmx & Hok) Hcur Hheap Hnd Hap Hin Hsm Hbig] Hf Hm Hm16 Hm63 Hw Hn Ha.
  assert (Hpf : bend f - base f = ps). { destruct bs as [|f' bs]; [done|]. cbn in Hf. simplify_eq. pose proof (Hok 0%nat f eq_refl) as (_ & _ & _ & ? & _). lia. }
  rewrite Hpf in *. constructor; try done.
  - exists ps. split_and!; try done; try lia. intros i b Hi. apply lookup_app_Some in Hi as [Hi|[Hi1 Hi2]]; [by apply Hok|].
    destruct (i - length bs)%nat eqn:Hil; cbn in Hi2; [simplify_eq|done]. assert (Hh : hdr i = SIZEOF_POOL_DATA) by (destruct i; [destruct bs; cbn in *; lia|done]).
    unfold block_ok. cbn. rewrite Hh. unfold SIZEOF_POOL, SIZEOF_POOL_DATA in *. lia.
  - rewrite length_app. lia.
  - rewrite Hw, Hheap, map_app. cbn [map].
    assert (Hbr : breg (Block m (m + SIZEOF_POOL_DATA) (m + ps) 0) = (m, ps)) by (unfold breg; cbn; f_equal; lia). rewrite Hbr.
    rewrite <- app_assoc. cbn [app]. apply Permutation_middle.
  - eapply Forall_impl; [|exact Hin]. intros r (i & b & Hi & Hr). exists i, b. split; [by apply lookup_app_l_Some|done].
Qed.

Lemma small_loop_ok size align : 0 <= size -> forall bs m bs', (forall b, b ∈ bs -> 0 <= last b <= bend b /\ bend b mod 8 = 0 /\ bend b <= 2 ^ 63) ->
  small_loop bs size align = Some (m, bs') ->
  exists k b, bs !! k = Some b /\ bs' = <[k := set_last (m + size) b]> bs /\ last b <= m /\ m + size <= bend b /\ (align = true -> m mod 8 = 0).
Proof.
  intros Hs. induction bs as [|b bs IH]; intros m bs' Hok H; [done|]. cbn [small_loop] in H. destruct (Hok b) as (Hl & He & Hb); [by left|].
  set (q := if align then ngx_align_ptr (last b) NGX_ALIGNMENT else last b) in *.
  assert (Hq : last b <= q <= bend b /\ (align = true -> q mod 8 = 0)).
  { subst q. destruct align; [|split; [lia|done]]. destruct (align_ptr_ok (last b)) as [H1 H2]; [lia|]. split; [|done]. zlia. }
  destruct Hq as [Hq Hqa]. unfold wrap in H. rewrite Z.mod_small in H by lia. destruct (Z.leb_spec size (bend b - q)).
  - simplify_eq. exists 0%nat, b. split_and!; (done || lia).
  - destruct (small_loop bs size align) as [[m' bs'']|] eqn:E; [|done]. cbn in H. simplify_eq.
    destruct (IH m bs'' (fun b Hb => Hok b (list_elem_of_further _ _ _ Hb)) eq_refl) as (k & c & Hk & -> & Hr). by exists (S k), c.
Qed.

Lemma bump_same bs : forall i cur, Forall2 same_place bs (bump bs i cur).1 /\ ((bump bs i cur).2 = cur \/ (i < (bump bs i cur).2 < i + length bs)%nat).
Proof.
  induction bs as [|b bs IH]; intros i cur; [by split; [constructor|left]|]. destruct bs as [|c bs]; [split; [by constructor|by left]|].
  change (bump (b :: c :: bs) i cur) with (let '(rest, cur') := bump (c :: bs) (S i) (if 4 <? failed b then S i else cur) in
    (Block (base b) (last b) (bend b) (failed b + 1) :: rest, cur')).
  specialize (IH (S i) (if 4 <? failed b then S i else cur)). destruct (bump (c :: bs) (S i) _) as [rest cur'] eqn:E. cbn [fst snd] in *.
  destruct IH as [IH1 IH2]. split; [by constructor|]. cbn [length] in *. destruct (4 <? failed b); lia.
Qed.

(** The pieces are aligned when asked for. *)
Definition aligned (align : bool) (m : Z) : Prop := align = true -> m mod 8 = 0.

Lemma palloc_small_ok P size align w small big other : inv0 (blocks P) (pmax P) (current P) w small big other -> 0 <= size <= Z.max (pmax P) 48 ->
  exists m P' w', ngx_palloc_small os P size align w = Some (m, P', w') /\ larges P' = larges P /\ cleanup P' = cleanup P /\ pmax P' = pmax P /\ entries w' = entries w
  /\ (m = 0 /\ refused /\ inv0 (blocks P') (pmax P') (current P') w' small big other
      \/ 0 < m /\ aligned align m /\ inv0 (blocks P') (pmax P') (current P') w' ((m, size) :: small) big other).
Proof.
  intros H Hsz. pose proof H as [(ps & Hps & Hps80 & Hmx & Hok) Hcur Hheap Hnd Hap Hin Hsm Hbig]. unfold ngx_palloc_small.
  destruct (small_loop (drop (current P) (blocks P)) size align) as [[m bs']|] eqn:E.
  - apply small_loop_ok in E as (k & b & Hk & -> & Hl & Hm & Ha); [|lia|].
    + rewrite lookup_drop in Hk. eexists m, _, w. split; [done|]. do 4 (split; [done|]). right. cbn [blocks pmax current set_blocks].
      pose proof (Hok _ _ Hk) as (? & _ & ? & _). assert (0 <= hdr (current P + k)) by (destruct (current P + k)%nat; cbn; unfold SIZEOF_POOL, SIZEOF_POOL_DATA; lia).
      split_and!; [lia|done|]. pose proof (inv_cut _ _ _ _ _ _ _ _ b m size H Hk Hl ltac:(lia) Hm) as HI.
      assert (He : take (current P) (blocks P) ++ <[k := set_last (m + size) b]> (drop (current P) (blocks P)) = <[(current P + k)%nat := set_last (m + size) b]> (blocks P)).
      { rewrite <- (take_drop (current P) (blocks P)) at 3. rewrite insert_app_r_alt by (rewrite length_take; lia). f_equal. f_equal. rewrite length_take. lia. }
      by rewrite He.
    + intros b' Hb'. apply list_elem_of_lookup in Hb' as [i Hi]. rewrite lookup_drop in Hi. pose proof (Hok _ _ Hi) as (? & ? & ? & ? & ?).
      assert (0 <= hdr (current P + i)) by (destruct (current P + i)%nat; cbn; unfold SIZEOF_POOL, SIZEOF_POOL_DATA; lia). split_and!; try lia. zlia.
  - unfold ngx_palloc_block. destruct (head (blocks P)) as [f|] eqn:Hf; [|destruct (blocks P); cbn in *; [lia|done]]. cbn [mbind option_bind].
    assert (Hpf : bend f - base f = ps). { destruct (blocks P) as [|f' bs]; [done|]. cbn in Hf. simplify_eq. pose proof (Hok 0%nat f eq_refl) as (_ & _ & _ & ? & _). lia. }
    unfold SIZEOF_POOL, SIZEOF_POOL_DATA in *. destruct (memalign_ok NGX_POOL_ALIGNMENT (bend f - base f) w) as (m & w' & -> & HR & He); [lia|done|done|].
    destruct HR as [(-> & Href & Hw)|(Hm & Hm16 & Hm63 & Hw & Hn & Ha)].
    + eexists 0, P, w'. do 5 (split; [done|]). left. split_and!; [done|done|by eapply inv_world].
    + destruct (Z.eqb_spec m 0); [lia|]. destruct (align_ptr_ok (m + 32)) as [Hp1 Hp2]; [lia|].
      assert (Hal : ngx_align_ptr (m + 32) NGX_ALIGNMENT = m + 32) by (unfold NGX_POOL_ALIGNMENT in Hm16; specialize (Hm16 ltac:(lia)); zlia). rewrite Hal in *.
      pose proof (bump_same (drop (current P) (blocks P)) (current P) (current P)) as [Hb1 Hb2].
      destruct (bump (drop (current P) (blocks P)) (current P) (current P)) as [bs cur] eqn:HB. cbn [fst snd] in *. rewrite length_drop in Hb2.
      eexists _, _, w'. split; [done|]. do 4 (split; [done|]). right. cbn [blocks pmax current]. split_and!; [lia|by intros _|].
      pose proof (inv_block _ _ _ _ w' _ _ _ f m H Hf Hm ltac:(by apply Hm16) Hm63 Hw Hn Ha) as HI.
      pose proof (inv_cut _ _ _ _ _ _ _ (length (blocks P)) (Block m (m + 32) (m + (bend f - base f)) 0) (m + 32) size HI ltac:(by apply list_lookup_middle) ltac:(cbn; lia) ltac:(lia) ltac:(cbn; lia)) as HC.
      replace (length (blocks P)) with (length (blocks P) + 0)%nat in HC by lia. rewrite insert_app_r in HC.
      eapply inv_same; [exact HC| |rewrite !length_app, length_take; apply Forall2_length in Hb1; rewrite length_drop in Hb1; cbn [length]; lia].
      rewrite <- (take_drop (current P) (blocks P)) at 1. rewrite <- app_assoc. apply Forall2_app; [apply same_place_refl|apply Forall2_app; [done|by repeat constructor]].
Qed.
End proofs.


(** ** Nothing overlaps *)

Definition headers (bs : list block) : list region := imap (fun i b => (base b, hdr i)) bs.

Lemma apart_intro l : (forall i j r s, (i < j)%nat -> l !! i = Some r -> l !! j = Some s -> disjoint r s) -> apart l.
Proof.
  induction l as [|r l IH]; intros H; cbn; [done|]. split.
  - apply Forall_lookup_2. intros j s Hj. apply (H 0%nat (S j)); [lia|done|done].
  - apply IH. intros i j r' s' Hij Hi Hj. apply (H (S i) (S j)); [lia|done|done].
Qed.

Lemma inv0_apart bs mx cur w small big other : inv0 bs mx cur w small big other -> apart (small ++ headers bs ++ big ++ other).
Proof.
  intros H. pose proof H as [(ps & _ & _ & _ & Hok) _ Hheap _ Hap Hin Hsm _]. rewrite Hheap in Hap. apply apart_app in Hap as (_ & Hbo & Hcross).
  assert (Hh0 : forall i, 0 <= hdr i) by (intros [|i]; cbn; unfold SIZEOF_POOL, SIZEOF_POOL_DATA; lia).
  assert (Hout : forall i b r, bs !! i = Some b -> inside r (breg b) -> Forall (disjoint r) (big ++ other)).
  { intros i b r Hi Hr. rewrite list.Forall_forall. intros s Hs. assert (Hd : disjoint (breg b) s).
    { assert (Hbi : breg b ∈ map breg bs) by (apply list_elem_of_fmap; exists b; split; [done|by eapply list_elem_of_lookup_2]).
      rewrite list.Forall_forall in Hcross. specialize (Hcross _ Hbi). rewrite list.Forall_forall in Hcross. by apply Hcross. }
    unfold disjoint, inside in *. lia. }
  assert (Hhd : forall i r, headers bs !! i = Some r -> exists b, bs !! i = Some b /\ r = (base b, hdr i) /\ inside r (breg b)).
  { intros i r Hi. unfold headers in Hi. rewrite list_lookup_imap in Hi. destruct (bs !! i) as [b|] eqn:Hb; [|done]. cbn in Hi. simplify_eq. exists b.
    pose proof (Hok i b Hb) as (? & _ & ? & _). pose proof (Hh0 i). unfold inside, breg. cbn. split_and!; (done || lia). }
  apply apart_app. split_and!; [done| |].
  - apply apart_app. split_and!; [|done|].
    + apply apart_intro. intros i j r s Hij Hi Hj. destruct (Hhd i r Hi) as (b & Hb & _ & Hr), (Hhd j s Hj) as (c & Hc & _ & Hs).
      eapply disjoint_inside; [exact (breg_apart _ _ _ _ _ _ _ i j b c H ltac:(lia) Hb Hc)|done|done].
    + apply Forall_lookup_2. intros i r Hi. destruct (Hhd i r Hi) as (b & Hb & _ & Hr). by eapply Hout.
  - eapply Forall_impl; [|exact Hin]. intros r (i & b & Hi & Hr1 & Hr2 & Hr3). pose proof (Hok i b Hi) as (? & _ & ? & _). pose proof (Hh0 i).
    assert (Hr : inside r (breg b)) by (unfold inside, breg; cbn; lia). apply Forall_app. split; [|by eapply Hout].
    apply Forall_lookup_2. intros j s Hj. destruct (Hhd j s Hj) as (c & Hc & -> & Hs). destruct (decide (i = j)) as [<-|Hij].
    + simplify_eq. right. cbn. lia.
    + eapply disjoint_inside; [exact (breg_apart _ _ _ _ _ _ _ i j b c H Hij Hi Hc)|done|done].
Qed.

(** ** The pool and what its users hold *)

Definition node (l : large) : region := (lnode l, SIZEOF_POOL_LARGE).
(** The pieces of the system that the list of large pieces knows. *)
Definition allocs (ls : list large) : list Z := filter (fun a => a <> 0) (map lalloc ls).

(** The memory of cleanup entries, given with their addresses. *)
Definition places (es : list (Z * entry)) : list region := map (fun x => (x.1, SIZEOF_POOL_CLEANUP)) es.
Definition stored (w : world) (ps : list region) (es : list (Z * entry)) : Prop :=
  places es ⊆ ps /\ Forall (fun x => entries w !! x.1 = Some x.2) es.

Definition inv (P : pool) (w : world) (clients big other : list region) : Prop :=
  inv0 (blocks P) (pmax P) (current P) w (clients ++ map node (larges P)) big other /\ allocs (larges P) ≡ₚ map fst big.

(** The users of the pool hold the pieces [live]; [ps] are other pieces of blocks, and the
    entries [es] are in them; [other] is memory that is not the pool's. *)
Definition owns (P : pool) (w : world) (ps : list region) (es : list (Z * entry)) (live other : list region) : Prop :=
  exists clients big, inv P w (ps ++ clients) big other /\ live ≡ₚ clients ++ big /\ stored w ps es.

Lemma inv0_perm bs mx cur w small small' big big' other : small ≡ₚ small' -> big ≡ₚ big' -> inv0 bs mx cur w small big other -> inv0 bs mx cur w small' big' other.
Proof. intros Hp Hp' []. constructor; rewrite <- ?Hp, <- ?Hp'; done. Qed.

Lemma stored_wipe r w ps es : stored w ps es -> Forall (disjoint r) ps -> stored (wipe r w) ps es.
Proof.
  unfold stored. rewrite !list.Forall_forall. intros [Hsub Hs] Hd. split; [done|]. intros x Hx. cbn. apply map_lookup_filter_Some. split; [by apply Hs|].
  apply Hd, Hsub, list_elem_of_fmap. by exists x.
Qed.

Lemma stored_same w w' ps es : entries w' = entries w -> stored w ps es -> stored w' ps es.
Proof. intros E. unfold stored. by rewrite E. Qed.

(** A piece of the system is given back; the entries in blocks are not touched. *)
Lemma inv_free bs mx cur w ps es small r big other : inv0 bs mx cur w (ps ++ small) (r :: big) other -> stored w ps es ->
  exists w', ngx_free r.1 w = Some w' /\ inv0 bs mx cur w' (ps ++ small) big other /\ stored w' ps es.
Proof.
  intros H He. pose proof (inv0_apart _ _ _ _ _ _ _ H) as Hdis. destruct H as [Hs Hcur Hheap Hnd Hap Hin Hsm Hbig].
  apply Forall_cons_1 in Hbig as [[Hr _] Hbig]. unfold ngx_free. destruct (Z.eqb_spec r.1 0); [lia|].
  destruct (release_ok r.1 r.2 (heap w)) as (h & -> & Hp); [rewrite Hheap; destruct r; set_solver|done|]. cbn [mbind option_bind]. eexists. split; [done|].
  assert (Hh : h ≡ₚ map breg bs ++ big ++ other).
  { apply (Permutation_cons_inv (a := r)). destruct r as [a b]. cbn in Hp. rewrite <- Hp, Hheap. cbn [app]. symmetry. apply Permutation_middle. }
  rewrite Hp in Hnd, Hap. cbn [map fst] in Hnd. apply list.NoDup_cons in Hnd as [_ Hnd]. destruct Hap as [_ Hap]. split; [by constructor|].
  apply stored_wipe; [done|]. rewrite <- surjective_pairing. rewrite <- app_assoc in Hdis. apply apart_app in Hdis as (_ & _ & Hdis).
  rewrite list.Forall_forall in Hdis |- *. intros x Hx. specialize (Hdis x Hx). rewrite list.Forall_forall in Hdis. apply disjoint_sym, Hdis. set_solver.
Qed.

Lemma reuse_ok p : p <> 0 -> forall n ls ls', reuse n ls p = Some ls' -> map node ls' = map node ls /\ allocs ls' ≡ₚ p :: allocs ls.
Proof.
  intros Hp. induction n as [|n IH]; intros [|l ls] ls' H; try done. cbn [reuse] in H. destruct (Z.eqb_spec (lalloc l) 0) as [H0|H0].
  - simplify_eq. split; [done|]. unfold allocs. cbn [map]. rewrite filter_cons_True, filter_cons_False by (cbn; congruence). done.
  - destruct (reuse n ls p) as [ls''|] eqn:E; [|done]. cbn in H. simplify_eq. destruct (IH _ _ E) as [H1 H2]. cbn [map]. split; [by rewrite H1|].
    unfold allocs in *. cbn [map]. rewrite !filter_cons_True by done. rewrite H2. apply Permutation_swap.
Qed.

Lemma pfree_loop_ok p ls : match pfree_loop ls p with
  | Some ls' => map node ls' = map node ls /\ (p = 0 /\ allocs ls' = allocs ls \/ p <> 0 /\ allocs ls ≡ₚ p :: allocs ls')
  | None => p ∉ map lalloc ls
  end.
Proof.
  induction ls as [|l ls IH]; cbn [pfree_loop]; [set_solver|]. destruct (Z.eqb_spec p (lalloc l)) as [->|Hne].
  - split; [done|]. unfold allocs. cbn [map lalloc]. rewrite (filter_cons_False _ 0) by congruence.
    destruct (decide (lalloc l = 0)); [left|right]; (split; [done|]); [by rewrite filter_cons_False by congruence|by rewrite filter_cons_True].
  - destruct (pfree_loop ls p) as [ls'|]; cbn [mbind option_bind map]; [|set_solver]. destruct IH as [H1 H2]. split; [by rewrite H1|]. unfold allocs in *. cbn [map].
    destruct H2 as [[-> H2]|[Hp H2]]; [left|right]; (split; [done|]).
    + destruct (decide (lalloc l = 0)); [by rewrite !filter_cons_False by congruence|by rewrite !filter_cons_True, H2].
    + destruct (decide (lalloc l = 0)); [by rewrite !filter_cons_False by congruence|]. rewrite !filter_cons_True, H2 by done. apply Permutation_swap.
Qed.

Section clients.
Context (os : allocator) `{!AllocatorLaws os}.

(** The result of an allocation: a new piece, or NULL because the system refused. *)
Definition allocated (P' : pool) (w' : world) (ps : list region) (es : list (Z * entry)) (live other : list region) (m size align : Z) : Prop :=
  m = 0 /\ refused os /\ owns P' w' ps es live other \/ 0 < m /\ m mod align = 0 /\ owns P' w' ps es ((m, size) :: live) other.

Lemma add_large_ok P w ps es clients big other p size align : inv0 (blocks P) (pmax P) (current P) w ((ps ++ clients) ++ map node (larges P)) ((p, size) :: big) other ->
  stored w ps es -> allocs (larges P) ≡ₚ map fst big -> p <> 0 -> p mod align = 0 -> exists m P' w', add_large os P p w = Some (m, P', w') /\ cleanup P' = cleanup P
  /\ allocated P' w' ps es (clients ++ big) other m size align.
Proof.
  intros H Hst Hal Hp Ha. unfold add_large. destruct (palloc_small_ok os P SIZEOF_POOL_LARGE true w _ _ _ H) as (l & P1 & w1 & -> & Hlg & Hcl & Hmx & He & HR);
    [unfold SIZEOF_POOL_LARGE; lia|]. cbn [mbind option_bind]. apply (stored_same _ w1) in Hst; [|done]. destruct HR as [(-> & Hr & HI)|(Hl & _ & HI)].
  - rewrite <- app_assoc in HI. destruct (inv_free _ _ _ _ _ _ _ _ _ _ HI Hst) as (w2 & Hw2 & HI2 & Hst2). cbn [fst] in Hw2. cbn [Z.eqb]. rewrite Hw2. cbn [mbind option_bind].
    eexists 0, P1, w2. split; [done|]. split; [done|]. left. split_and!; [done|done|]. exists clients, big. split_and!; [|done|done].
    split; rewrite Hlg; [by rewrite <- app_assoc|done].
  - destruct (Z.eqb_spec l 0); [lia|]. eexists p, _, _. split; [done|]. split; [done|]. right.
    assert (Hpos : 0 < p). { pose proof (i_big _ _ _ _ _ _ _ HI) as Hb. by apply Forall_cons_1 in Hb as [[? _] _]. }
    split_and!; [done|done|]. exists clients, ((p, size) :: big). split_and!; [|by rewrite <- Permutation_middle|].
    + split; cbn [blocks pmax current larges set_larges].
      * apply (inv_world _ _ _ w1); [|done]. eapply inv0_perm; [|reflexivity|exact HI]. rewrite Hlg. cbn [map]. apply Permutation_middle.
      * unfold allocs in *. cbn [map lalloc fst]. rewrite filter_cons_True, Hlg by done. by rewrite Hal.
    + apply stored_wipe; [done|]. pose proof (i_small _ _ _ _ _ _ _ HI) as [Hd _]. rewrite <- app_assoc in Hd. by apply Forall_app in Hd as [? _].
Qed.

Lemma inv0_alloc bs mx cur w small big other align size : inv0 bs mx cur w small big other -> 0 <= size -> exists p w', ngx_memalign os align size w = (p, w')
  /\ entries w' = entries w
  /\ (p = 0 /\ refused os /\ inv0 bs mx cur w' small big other
      \/ p <> 0 /\ (0 < align -> p mod align = 0) /\ inv0 bs mx cur w' small ((p, size) :: big) other).
Proof.
  intros H Hs. destruct (memalign_ok os align size w Hs (i_nodup _ _ _ _ _ _ _ H) (i_apart _ _ _ _ _ _ _ H)) as (p & w' & -> & HR & He). exists p, w'. do 2 (split; [done|]).
  destruct HR as [(-> & Hr & Hw)|(Hp & Ha & _ & Hw & Hn & Hap)]; [left; split_and!; [done|done|by eapply inv_world]|right].
  split_and!; [lia|done|]. eapply inv_large; [exact H|done|done|done|cbn; lia].
Qed.

Lemma allocated_perm P w ps es live live' other m size align : live ≡ₚ live' -> allocated P w ps es live other m size align -> allocated P w ps es live' other m size align.
Proof.
  intros Hp [(? & ? & (c & b & ? & Hb & ?))|(? & ? & (c & b & ? & Hb & ?))]; [left|right]; split_and!; try done; exists c, b; split_and!; try done; by rewrite <- Hp.
Qed.

Lemma palloc_large_ok P w ps es live other size : owns P w ps es live other -> 0 <= size -> exists m P' w', ngx_palloc_large os P size w = Some (m, P', w')
  /\ cleanup P' = cleanup P /\ allocated P' w' ps es live other m size 8.
Proof.
  intros (clients & big & [H Hal] & Hl & Hst) Hs. unfold ngx_palloc_large, ngx_alloc. destruct (inv0_alloc _ _ _ _ _ _ _ 16 size H Hs) as (p & w1 & -> & He & HR).
  apply (stored_same _ w1) in Hst; [|done]. destruct HR as [(-> & Hr & HI)|(Hp & Ha & HI)]; cbn [Z.eqb].
  - eexists 0, P, w1. do 2 (split; [done|]). left. split_and!; [done|done|]. by exists clients, big.
  - destruct (Z.eqb_spec p 0); [done|]. assert (Ha8 : p mod 8 = 0) by (specialize (Ha ltac:(lia)); zlia).
    destruct (reuse 5 (larges P) p) as [ls|] eqn:E.
    + apply reuse_ok in E as [H1 H2]; [|done]. eexists p, _, w1. do 2 (split; [done|]). right.
      assert (Hpos : 0 < p). { pose proof (i_big _ _ _ _ _ _ _ HI) as Hb. by apply Forall_cons_1 in Hb as [[? _] _]. }
      split_and!; [done|done|]. exists clients, ((p, size) :: big). split_and!; [|by rewrite Hl, <- Permutation_middle|done]. split; cbn [blocks pmax current larges set_larges].
      * by rewrite H1.
      * by rewrite H2, Hal.
    + destruct (add_large_ok P w1 ps es clients big other p size 8 HI Hst Hal Hp Ha8) as (m & P' & w' & -> & Hc & HA). exists m, P', w'. split_and!; try done.
      eapply allocated_perm; [symmetry; exact Hl|done].
Qed.

Lemma palloc_piece P w ps es live other size align : owns P w ps es live other -> 0 <= size <= Z.max (pmax P) 48 -> exists m P' w',
  ngx_palloc_small os P size align w = Some (m, P', w') /\ cleanup P' = cleanup P /\ allocated P' w' ps es live other m size (if align then 8 else 1).
Proof.
  intros (clients & big & [H Hal] & Hl & Hst) Hs. destruct (palloc_small_ok os P size align w _ _ _ H Hs) as (m & P' & w' & -> & Hlg & Hcl & Hmx & He & HR).
  exists m, P', w'. do 2 (split; [done|]). apply (stored_same _ w') in Hst; [|done]. destruct HR as [(-> & Hr & HI)|(Hm & Ha & HI)]; [left|right].
  - split_and!; [done|done|]. exists clients, big. split_and!; [|done|done]. split; rewrite Hlg; done.
  - split_and!; [done|destruct align; [by apply Ha|apply Z.mod_1_r]|]. exists ((m, size) :: clients), big. split_and!; [|by rewrite Hl|done]. split; rewrite Hlg; [|done].
    eapply inv0_perm; [|reflexivity|exact HI]. rewrite <- !app_assoc. cbn [app]. apply Permutation_middle.
Qed.

(** A piece that the pool keeps for itself. *)
Lemma palloc_entry P w ps es live other size : owns P w ps es live other -> 0 <= size <= pmax P -> exists m P' w',
  ngx_palloc os P size w = Some (m, P', w') /\ cleanup P' = cleanup P /\ pmax P' = pmax P
  /\ (m = 0 /\ owns P' w' ps es live other \/ 0 < m /\ owns P' w' ((m, size) :: ps) es live other).
Proof.
  intros (clients & big & [H Hal] & Hl & Hst) Hs. unfold ngx_palloc. destruct (Z.leb_spec size (pmax P)); [|lia].
  destruct (palloc_small_ok os P size true w _ _ _ H ltac:(lia)) as (m & P' & w' & -> & Hlg & Hcl & Hmx & He & HR).
  exists m, P', w'. do 3 (split; [done|]). apply (stored_same _ w') in Hst; [|done]. destruct HR as [(-> & Hr & HI)|(Hm & Ha & HI)]; [left|right].
  - split; [done|]. exists clients, big. split_and!; [|done|done]. split; rewrite Hlg; done.
  - split; [done|]. exists clients, big. split_and!; [split; rewrite Hlg; done|done|]. destruct Hst as [Hsub Hst]. split; [|done]. set_solver.
Qed.

Lemma palloc_ok P w ps es live other size : owns P w ps es live other -> 0 <= size -> exists m P' w', ngx_palloc os P size w = Some (m, P', w')
  /\ cleanup P' = cleanup P /\ allocated P' w' ps es live other m size 8.
Proof.
  intros H Hs. unfold ngx_palloc. destruct (Z.leb_spec size (pmax P)); [by apply (palloc_piece P w ps es live other size true); [|lia]|by apply palloc_large_ok].
Qed.

Lemma pnalloc_ok P w ps es live other size : owns P w ps es live other -> 0 <= size -> exists m P' w', ngx_pnalloc os P size w = Some (m, P', w')
  /\ cleanup P' = cleanup P /\ allocated P' w' ps es live other m size 1.
Proof.
  intros H Hs. unfold ngx_pnalloc. destruct (Z.leb_spec size (pmax P)); [by apply (palloc_piece P w ps es live other size false); [|lia]|].
  destruct (palloc_large_ok P w ps es live other size H Hs) as (m & P' & w' & ? & ? & HA). exists m, P', w'. do 2 (split; [done|]).
  destruct HA as [?|(? & _ & ?)]; [by left|right]. split_and!; [done|apply Z.mod_1_r|done].
Qed.

Lemma pmemalign_ok P w ps es live other size align : owns P w ps es live other -> 0 <= size -> 0 < align -> exists m P' w', ngx_pmemalign os P size align w = Some (m, P', w')
  /\ cleanup P' = cleanup P /\ allocated P' w' ps es live other m size align.
Proof.
  intros (clients & big & [H Hal] & Hl & Hst) Hs Halign. unfold ngx_pmemalign. destruct (inv0_alloc _ _ _ _ _ _ _ align size H Hs) as (p & w1 & -> & He & HR).
  apply (stored_same _ w1) in Hst; [|done]. destruct HR as [(-> & Hr & HI)|(Hp & Ha & HI)]; cbn [Z.eqb].
  - eexists 0, P, w1. do 2 (split; [done|]). left. split_and!; [done|done|]. by exists clients, big.
  - destruct (Z.eqb_spec p 0); [done|]. destruct (add_large_ok P w1 ps es clients big other p size align HI Hst Hal Hp (Ha Halign)) as (m & P' & w' & -> & Hc & HA).
    exists m, P', w'. split_and!; try done. eapply allocated_perm; [symmetry; exact Hl|done].
Qed.
End clients.


(** ** Giving memory back *)

Lemma fst_elem (l : list region) p : p ∈ map fst l -> exists n, (p, n) ∈ l.
Proof. intros H. apply list_elem_of_fmap in H as [[a n] [-> H]]. by exists n. Qed.

Lemma pfree_ok P w ps es live other p : owns P w ps es live other -> exists rc P' w', ngx_pfree P p w = Some (rc, P', w') /\ cleanup P' = cleanup P
  /\ (rc = NGX_DECLINED /\ P' = P /\ w' = w /\ p ∉ map lalloc (larges P) \/ rc = NGX_OK /\ p = 0 /\ owns P' w' ps es live other
      \/ rc = NGX_OK /\ p <> 0 /\ exists n live', live ≡ₚ (p, n) :: live' /\ owns P' w' ps es live' other).
Proof.
  intros (clients & big & [H Hal] & Hl & Hst). unfold ngx_pfree. pose proof (pfree_loop_ok p (larges P)) as HL.
  destruct (pfree_loop (larges P) p) as [ls'|]; [|eexists _, _, _; split; [done|]; split; [done|]; by left].
  destruct HL as [Hn [[-> Ha]|[Hp Ha]]].
  - cbn. eexists _, _, _. do 2 (split; [done|]). right. left. split_and!; [done|done|]. exists clients, big. split_and!; [|done|done]. split; cbn [blocks pmax current larges set_larges].
    + by rewrite Hn.
    + by rewrite Ha.
  - destruct (fst_elem big p) as [n Hin]; [rewrite <- Hal, Ha; by left|]. apply list_elem_of_split in Hin as (b1 & b2 & Hb).
    assert (Hbp : big ≡ₚ (p, n) :: b1 ++ b2) by (rewrite Hb; symmetry; apply Permutation_middle).
    assert (HI : inv0 (blocks P) (pmax P) (current P) w (ps ++ clients ++ map node (larges P)) ((p, n) :: b1 ++ b2) other)
      by (eapply inv0_perm; [by rewrite app_assoc|exact Hbp|exact H]).
    destruct (inv_free _ _ _ _ _ _ _ _ _ _ HI Hst) as (w' & Hw & HI' & Hst'). cbn [fst] in Hw. rewrite Hw. cbn [mbind option_bind]. eexists _, _, w'. do 2 (split; [done|]).
    right. right. split_and!; [done|done|]. exists n, (clients ++ b1 ++ b2). split; [rewrite Hl, Hbp; symmetry; apply Permutation_middle|].
    exists clients, (b1 ++ b2). split_and!; [|done|done]. split; cbn [blocks pmax current larges set_larges]; [by rewrite Hn, <- app_assoc|].
    apply (Permutation_cons_inv (a := p)). rewrite <- Ha, Hal, Hbp. done.
Qed.

Lemma free_larges_ok ls : forall bs mx cur w ps es small big other, inv0 bs mx cur w (ps ++ small) big other -> stored w ps es -> allocs ls ≡ₚ map fst big ->
  exists w', free_larges ls w = Some w' /\ inv0 bs mx cur w' (ps ++ small) [] other /\ stored w' ps es.
Proof.
  induction ls as [|l ls IH]; intros bs mx cur w ps es small big other H Hst Ha; cbn [free_larges].
  - destruct big; [by exists w|]. apply Permutation_nil_l in Ha. done.
  - unfold allocs in Ha. cbn [map] in Ha. destruct (Z.eqb_spec (lalloc l) 0) as [H0|H0]; cbn [negb mbind option_bind].
    + rewrite filter_cons_False in Ha by congruence. by apply (IH _ _ _ _ _ _ _ big).
    + rewrite filter_cons_True in Ha by done. destruct (fst_elem big (lalloc l)) as [n Hin]; [rewrite <- Ha; by left|].
      apply list_elem_of_split in Hin as (b1 & b2 & Hb). assert (Hbp : big ≡ₚ (lalloc l, n) :: b1 ++ b2) by (rewrite Hb; symmetry; apply Permutation_middle).
      destruct (inv_free bs mx cur w ps es small (lalloc l, n) (b1 ++ b2) other) as (w' & Hw & HI' & Hst'); [eapply inv0_perm; [reflexivity|exact Hbp|done]|done|].
      cbn [fst] in Hw. rewrite Hw. cbn [mbind option_bind]. apply (IH _ _ _ _ _ _ _ _ _ HI' Hst'). apply (Permutation_cons_inv (a := lalloc l)). rewrite Ha, Hbp. done.
Qed.

Lemma free_blocks_ok bs : forall w other, heap w ≡ₚ map breg bs ++ other -> NoDup (map fst (heap w)) -> (forall b, b ∈ bs -> 0 < base b) ->
  exists w', free_blocks bs w = Some w' /\ heap w' ≡ₚ other.
Proof.
  induction bs as [|b bs IH]; intros w other Hh Hn Hb; cbn [free_blocks]; [by exists w|]. cbn [map app] in Hh.
  unfold ngx_free. destruct (Z.eqb_spec (base b) 0) as [H0|_]; [specialize (Hb b ltac:(by left)); lia|].
  destruct (release_ok (base b) (bend b - base b) (heap w)) as (h & -> & Hp); [rewrite Hh; by left|done|]. cbn [mbind option_bind].
  apply IH; cbn [heap]; [|rewrite Hp in Hn; cbn [map] in Hn; by apply list.NoDup_cons in Hn as [_ ?]|intros c Hc; apply Hb; by right].
  apply (Permutation_cons_inv (a := breg b)). by rewrite <- Hp.
Qed.

Lemma reset_ok P w ps es live other : owns P w ps es live other ->
  exists P' w', ngx_reset_pool P w = Some (P', w') /\ cleanup P' = cleanup P /\ owns P' w' [] [] [] other.
Proof.
  intros (clients & big & [H Hal] & Hl & Hst). unfold ngx_reset_pool. rewrite <- app_assoc in H. destruct (free_larges_ok _ _ _ _ _ _ _ _ _ _ H Hst Hal) as (w' & -> & HI & _).
  cbn [mbind option_bind]. eexists _, w'. do 2 (split; [done|]). exists [], []. split_and!; [|done|by split]. split; [|done]. cbn [blocks pmax current larges map app].
  destruct HI as [(sz & Hps & Hps80 & Hmx & Hok) Hcur Hheap Hnd Hap Hin Hsm Hbig]. constructor; try done.
  - exists sz. split_and!; try done; try lia. intros i b Hi. rewrite list_lookup_fmap in Hi. destruct (blocks P !! i) as [c|] eqn:Hc; [|done]. cbn in Hi. simplify_eq.
    pose proof (Hok i c Hc) as (? & ? & ? & ? & ?). assert (hdr i <= SIZEOF_POOL) by (destruct i; cbn; unfold SIZEOF_POOL, SIZEOF_POOL_DATA; lia). unfold block_ok. cbn. lia.
  - rewrite length_map. lia.
  - rewrite Hheap. rewrite map_map. done.
Qed.

(** All memory is given back when the cleanup list can be walked. *)
Lemma destroy_ok P w ps es live other : owns P w ps es live other ->
  match run_cleanups (S (size (entries w))) (cleanup P) w with
  | Some calls => exists w', ngx_destroy_pool P w = Some (calls, w') /\ heap w' ≡ₚ other
  | None => ngx_destroy_pool P w = None
  end.
Proof.
  intros (clients & big & [H Hal] & Hl & Hst). unfold ngx_destroy_pool. destruct (run_cleanups _ _ w) as [calls|]; [|done]. cbn [mbind option_bind].
  rewrite <- app_assoc in H. destruct (free_larges_ok _ _ _ _ _ _ _ _ _ _ H Hst Hal) as (w1 & -> & HI & _). cbn [mbind option_bind].
  pose proof HI as [(sz & _ & _ & _ & Hok) _ Hheap Hnd _ _ _ _]. destruct (free_blocks_ok (blocks P) w1 other Hheap Hnd) as (w2 & -> & Hw2).
  - intros b Hb. apply list_elem_of_lookup in Hb as [i Hi]. by destruct (Hok i b Hi) as (? & _).
  - by exists w2.
Qed.

Lemma pool_create_ok os `{!AllocatorLaws os} size w : SIZEOF_POOL <= size -> size mod 8 = 0 -> NoDup (map fst (heap w)) -> apart (heap w) ->
  exists r w', ngx_create_pool os size w = (r, w')
  /\ match r with
     | None => refused os
     | Some P => cleanup P = 0 /\ pmax P = Z.min (size - SIZEOF_POOL) NGX_MAX_ALLOC_FROM_POOL /\ owns P w' [] [] [] (heap w)
     end.
Proof.
  intros Hs Hs8 Hn Ha. unfold ngx_create_pool. destruct (memalign_ok os NGX_POOL_ALIGNMENT size w) as (p & w' & -> & HR & _); [unfold SIZEOF_POOL in Hs; lia|done|done|].
  destruct HR as [(-> & Hr & Hw)|(Hp & Hp16 & Hp63 & Hw & Hn' & Ha')]; [by exists None, w'|]. destruct (Z.eqb_spec p 0); [lia|].
  eexists (Some _), w'. split; [done|]. split; [done|]. split; [cbn; destruct (Z.ltb_spec (size - SIZEOF_POOL) NGX_MAX_ALLOC_FROM_POOL); lia|].
  exists [], []. split_and!; [|done|by split]. split; [|done]. cbn [blocks pmax current larges map app].
  specialize (Hp16 ltac:(done)). unfold SIZEOF_POOL, NGX_MAX_ALLOC_FROM_POOL, NGX_POOL_ALIGNMENT in *. constructor; try done.
  - exists size. unfold SIZEOF_POOL. split_and!; try done; try (destruct (Z.ltb_spec (size - 80) 4095); lia).
    intros [|i] b Hi; [|by destruct i]. cbn in Hi. simplify_eq. unfold block_ok. cbn. unfold SIZEOF_POOL. lia.
  - cbn. lia.
  - rewrite Hw. cbn [map app]. unfold breg. cbn [base bend]. by replace (p + size - p) with size by lia.
Qed.

(** The pieces that are in use, the structures of the pool and the rest of the memory. *)
Lemma owns_apart P w ps es live other : owns P w ps es live other -> apart (ps ++ live ++ map node (larges P) ++ headers (blocks P) ++ other).
Proof.
  intros (clients & big & [H _] & Hl & _). apply inv0_apart in H. eapply apart_perm; [|exact H]. rewrite Hl. rewrite <- !app_assoc. do 2 apply Permutation_app_head.
  rewrite !(app_assoc _ _ other). rewrite (app_assoc big), (Permutation_app_comm big (map node (larges P))). rewrite <- !app_assoc. apply Permutation_app_head.
  rewrite !(app_assoc _ _ other). apply Permutation_app_tail, Permutation_app_comm.
Qed.

Lemma owns_perm P w ps es live live' other : live ≡ₚ live' -> owns P w ps es live other -> owns P w ps es live' other.
Proof. intros Hp (c & b & H & Hl & Hst). exists c, b. split_and!; [done| |done]. by rewrite <- Hp. Qed.

Lemma owns_wipe P w ps es live other r : Forall (disjoint r) ps -> owns P w ps es live other -> owns P (wipe r w) ps es live other.
Proof.
  intros Hd (c & b & [H Ha] & Hl & Hst). exists c, b. split_and!; [split; [|done]|done|by apply stored_wipe]. by apply (inv_world _ _ _ w).
Qed.

(** ** The cleanup list *)

(** The list that starts at [c]. *)
Fixpoint linked (c : Z) (es : list (Z * entry)) : Prop :=
  match es with [] => c = 0 | (a, e) :: es => c = a /\ a <> 0 /\ linked (cnext e) es end.

Definition call_of (hd : option nat * Z) : option (nat * Z) := h ← hd.1; Some (h, hd.2).
Definition registered (es : list (Z * entry)) : list (option nat * Z) := map (fun x => (handler x.2, cdata x.2)) es.

Lemma run_linked w es : Forall (fun x => entries w !! x.1 = Some x.2) es -> forall fuel c, linked c es -> (length es < fuel)%nat ->
  run_cleanups fuel c w = Some (omap call_of (registered es)).
Proof.
  induction 1 as [|[a e] es He Hes IH]; intros [|fuel] c Hl Hf; cbn [length] in Hf; try lia; cbn [run_cleanups].
  - cbn in Hl. by rewrite Hl.
  - destruct Hl as (-> & Hne & Hl). destruct (Z.eqb_spec a 0); [done|]. cbn in He. rewrite He. cbn [mbind option_bind].
    rewrite (IH fuel (cnext e)) by (done || lia). cbn. by destruct (handler e).
Qed.

Lemma places_nodup es : apart (places es) -> NoDup (map fst es).
Proof.
  induction es as [|[a e] es IH]; intros H; [constructor|]. destruct H as [Hd H]. cbn. apply list.NoDup_cons. split; [|by apply IH].
  intros Hin%list_elem_of_fmap. destruct Hin as ([b e'] & -> & Hin). rewrite list.Forall_forall in Hd.
  specialize (Hd (b, SIZEOF_POOL_CLEANUP) ltac:(apply list_elem_of_fmap; by exists (b, e'))). unfold disjoint, SIZEOF_POOL_CLEANUP in Hd. cbn in Hd. lia.
Qed.

(** There are at least as many entries in memory as in the list. *)
Lemma stored_size w es : Forall (fun x => entries w !! x.1 = Some x.2) es -> NoDup (map fst es) -> (length es <= size (entries w))%nat.
Proof.
  intros Hs Hn. rewrite <- size_dom. rewrite <- (length_map fst es), <- (size_list_to_set (C := gset Z) (map fst es) Hn). apply subseteq_size.
  intros a Ha%elem_of_list_to_set. apply list_elem_of_fmap in Ha as ([b e] & -> & Hin). rewrite list.Forall_forall in Hs. apply elem_of_dom. exists e. by apply (Hs (b, e)).
Qed.

Lemma destroy_linked P w es live other : owns P w (places es) es live other -> linked (cleanup P) es ->
  exists w', ngx_destroy_pool P w = Some (omap call_of (registered es), w') /\ heap w' ≡ₚ other.
Proof.
  intros H Hl. pose proof (destroy_ok _ _ _ _ _ _ H) as Hd. pose proof (owns_apart _ _ _ _ _ _ H) as (Hp & _)%apart_app.
  destruct H as (_ & _ & _ & _ & _ & Hst). rewrite (run_linked w es Hst) in Hd; [done|done|]. pose proof (stored_size w es Hst (places_nodup es Hp)). lia.
Qed.

(** ** Sequences of operations *)

Inductive op :=
| OpPalloc (size : Z) | OpPnalloc (size : Z) | OpPmemalign (size align : Z)
| OpPfree (p : Z) | OpCleanup (size : Z) (h : option nat) | OpReset.

#[export] Instance op_eq_dec : EqDecision op.
Proof. solve_decision. Defined.

Definition op_ok (o : op) : Prop :=
  match o with
  | OpPalloc n | OpPnalloc n | OpCleanup n _ => 0 <= n
  | OpPmemalign n a => 0 <= n /\ 0 < a
  | _ => True
  end.

(** A piece that was handed out, if it was; its user may write to it. *)
Definition got (m size : Z) (live : list region) : list region := if m =? 0 then live else (m, size) :: live.
Definition written (m size : Z) (w : world) : world := if m =? 0 then w else wipe (m, size) w.

(** c->handler = h *)
Definition set_handler (c : Z) (h : option nat) (w : world) : world :=
  World (heap w) (tick w) (alter (fun e => Entry h (cdata e) (cnext e)) c (entries w)).

(** The pool, the memory, the pieces the users hold, and what they have registered for the
    cleanup, the latest first. *)
Definition state : Type := pool * world * list region * list (option nat * Z).

(** An operation: the users write to the pieces they get, and set the handler of a cleanup
    entry. *)
Definition exec (os : allocator) (o : op) (s : state) : option state :=
  let '(P, w, live, regs) := s in
  match o with
  | OpPalloc n => '(m, P, w) ← ngx_palloc os P n w; Some (P, written m n w, got m n live, regs)
  | OpPnalloc n => '(m, P, w) ← ngx_pnalloc os P n w; Some (P, written m n w, got m n live, regs)
  | OpPmemalign n a => '(m, P, w) ← ngx_pmemalign os P n a w; Some (P, written m n w, got m n live, regs)
  | OpPfree p => '(rc, P, w) ← ngx_pfree P p w; Some (P, w, if rc =? NGX_OK then filter (fun r => r.1 <> p) live else live, regs)
  | OpCleanup n h =>
      '(c, P, w) ← ngx_pool_cleanup_add os P n w;
      match c with
      | None => Some (P, w, live, regs)
      | Some c =>
          e ← entries w !! c;
          Some (P, written (cdata e) n (set_handler c h w), got (cdata e) n live, (h, cdata e) :: regs)
      end
  | OpReset => '(P, w) ← ngx_reset_pool P w; Some (P, w, [], regs)
  end.

Fixpoint execs (os : allocator) (os' : list op) (s : state) : option state :=
  match os' with [] => Some s | o :: os' => s ← exec os o s; execs os os' s end.

(** The pool is reset after a cleanup entry was added. *)
Fixpoint late_reset (seen : bool) (ops : list op) : bool :=
  match ops with
  | [] => false
  | OpCleanup _ _ :: ops => late_reset true ops
  | OpReset :: ops => seen || late_reset seen ops
  | _ :: ops => late_reset seen ops
  end.

(** The limit for small pieces does not change. *)
Section pmax.
Context (os : allocator).

Ltac pmax_step :=
  match goal with
  | H : (_ ≫= _) = Some _ |- _ => apply bind_Some in H as (? & ? & H)
  | H : (let (_, _) := ?x in _) = Some _ |- _ => destruct x
  | H : (if ?c then _ else _) = Some _ |- _ => destruct c
  | H : match ?x with Some _ => _ | None => _ end = Some _ |- _ => destruct x
  | H : Some _ = Some _ |- _ => injection H as <- <- <-
  | x : (_ * _)%type |- _ => destruct x
  end.

Lemma small_pmax P n a w m P' w' : ngx_palloc_small os P n a w = Some (m, P', w') -> pmax P' = pmax P.
Proof. intros H. unfold ngx_palloc_small, ngx_palloc_block in H. repeat pmax_step; done. Qed.

Lemma add_large_pmax P p w m P' w' : add_large os P p w = Some (m, P', w') -> pmax P' = pmax P.
Proof. intros H. unfold add_large in H. apply bind_Some in H as ([[l P1] w1] & H1 & H). apply small_pmax in H1. rewrite <- H1. clear H1. repeat pmax_step; done. Qed.

Lemma palloc_pmax P n w m P' w' : ngx_palloc os P n w = Some (m, P', w') \/ ngx_pnalloc os P n w = Some (m, P', w') -> pmax P' = pmax P.
Proof.
  unfold ngx_palloc, ngx_pnalloc, ngx_palloc_large. destruct (n <=? pmax P); [intros [H|H]; by eapply small_pmax|].
  assert (H : forall r : option (Z * pool * world), (r = Some (m, P', w') \/ r = Some (m, P', w')) -> r = Some (m, P', w')) by tauto. intros H0%H.
  destruct (ngx_alloc os n w) as [p w1]. destruct (p =? 0); [by injection H0 as _ <- _|].
  destruct (reuse 5 (larges P) p); [by injection H0 as _ <- _|by eapply add_large_pmax].
Qed.

Lemma pmemalign_pmax P n a w m P' w' : ngx_pmemalign os P n a w = Some (m, P', w') -> pmax P' = pmax P.
Proof.
  unfold ngx_pmemalign. destruct (ngx_memalign os a n w) as [p w1]. destruct (p =? 0); [by intros [= _ <- _]|by apply add_large_pmax].
Qed.

Lemma pfree_pmax P p w rc P' w' : ngx_pfree P p w = Some (rc, P', w') -> pmax P' = pmax P.
Proof.
  unfold ngx_pfree. destruct (pfree_loop (larges P) p); [|by intros [= _ <- _]]. intros H. apply bind_Some in H as (w1 & _ & [= _ <- _]). done.
Qed.

Lemma reset_pmax P w P' w' : ngx_reset_pool P w = Some (P', w') -> pmax P' = pmax P.
Proof. unfold ngx_reset_pool. intros H. apply bind_Some in H as (w1 & _ & [= <- _]). done. Qed.
End pmax.

(** The users hold at least [live], and [es] are the cleanup entries of the pool. *)
Definition holds (P : pool) (w : world) (es : list (Z * entry)) (live other : list region) : Prop :=
  SIZEOF_POOL_CLEANUP <= pmax P /\ exists extra, owns P w (places es) es (live ++ extra) other.

Section sequences.
Context (os : allocator) `{!AllocatorLaws os}.

Lemma allocated_got P w es live extra other m size align : allocated os P w (places es) es (live ++ extra) other m size align ->
  owns P (written m size w) (places es) es (got m size live ++ extra) other.
Proof.
  unfold got, written. intros [(-> & _ & H)|(Hm & _ & H)]; [done|]. destruct (Z.eqb_spec m 0); [lia|]. apply owns_wipe; [|done].
  apply owns_apart in H as (_ & _ & H)%apart_app. rewrite list.Forall_forall in H |- *. intros r Hr. specialize (H r Hr). by apply Forall_cons_1 in H as [?%disjoint_sym _].
Qed.

(** An entry is written to a piece that was kept for it. *)
Lemma owns_put P w es live other c e : owns P w ((c, SIZEOF_POOL_CLEANUP) :: places es) es live other ->
  owns (set_cleanup c P) (put_entry c e w) (places ((c, e) :: es)) ((c, e) :: es) live other.
Proof.
  intros H. pose proof (owns_apart _ _ _ _ _ _ H) as [Hd _]. apply Forall_app in Hd as [Hd _]. destruct H as (cl & big & [H Ha] & Hl & Hsub & Hst).
  exists cl, big. split_and!; [split; [by apply (inv_world _ _ _ w)|done]|done|]. split; [done|]. constructor; cbn; [apply lookup_insert_eq|].
  rewrite list.Forall_forall in Hst |- *. intros [a e'] Hx. rewrite list.Forall_forall in Hd. specialize (Hd (a, SIZEOF_POOL_CLEANUP) ltac:(apply list_elem_of_fmap; by exists (a, e'))).
  cbn. rewrite lookup_insert_ne by (intros ->; unfold disjoint, SIZEOF_POOL_CLEANUP in Hd; cbn in Hd; lia).
  apply map_lookup_filter_Some. split; [by apply (Hst (a, e'))|done].
Qed.

(** A piece that was kept is not used. *)
Lemma owns_unused P w es live other r : owns P w (r :: places es) es live other -> owns P (wipe r w) (places es) es (r :: live) other.
Proof.
  intros H. pose proof (owns_apart _ _ _ _ _ _ H) as [Hd _]. apply Forall_app in Hd as [Hd _]. apply owns_wipe; [done|].
  destruct H as (cl & big & [H Ha] & Hl & _ & Hst). exists (r :: cl), big. split_and!; [split; [|done]|by rewrite Hl|by split].
  eapply inv0_perm; [|reflexivity|exact H]. rewrite <- !app_assoc. cbn [app]. apply Permutation_middle.
Qed.

Lemma owns_handler P w es live other c e h : owns P w (places ((c, e) :: es)) ((c, e) :: es) live other ->
  owns P (set_handler c h w) (places ((c, Entry h (cdata e) (cnext e)) :: es)) ((c, Entry h (cdata e) (cnext e)) :: es) live other.
Proof.
  intros H. pose proof (owns_apart _ _ _ _ _ _ H) as (Hp%places_nodup & _)%apart_app. cbn [map fst] in Hp. apply list.NoDup_cons in Hp as [Hc _].
  destruct H as (cl & big & [H Ha] & Hl & Hsub & Hst). exists cl, big. split_and!; [split; [by apply (inv_world _ _ _ w)|done]|done|]. split; [done|].
  apply Forall_cons_1 in Hst as [He Hst]. constructor; cbn in *; [by rewrite lookup_alter_eq, He|].
  rewrite list.Forall_forall in Hst |- *. intros x Hx. rewrite lookup_alter_ne; [by apply Hst|]. intros ->. apply Hc, list_elem_of_fmap. by exists x.
Qed.

Lemma cleanup_add_ok P w es live other size : owns P w (places es) es live other -> SIZEOF_POOL_CLEANUP <= pmax P -> 0 <= size ->
  exists c P' w', ngx_pool_cleanup_add os P size w = Some (c, P', w') /\ pmax P' = pmax P
  /\ match c with
     | None => cleanup P' = cleanup P /\ exists extra, owns P' w' (places es) es (extra ++ live) other
     | Some c => exists d, let e := Entry None d (cleanup P) in cleanup P' = c /\ c <> 0
         /\ owns P' w' (places ((c, e) :: es)) ((c, e) :: es) (if d =? 0 then live else (d, size) :: live) other
     end.
Proof.
  intros H Hmx Hs. unfold ngx_pool_cleanup_add. destruct (palloc_entry os P w _ es live other SIZEOF_POOL_CLEANUP H) as (c & P1 & w1 & -> & Hc1 & Hm1 & HA); [done|].
  cbn [mbind option_bind]. destruct HA as [(-> & HO)|(Hc & HO)]; [eexists _, _, _; split; [done|]; split; [done|]; split; [done|]; by exists []|].
  destruct (Z.eqb_spec c 0); [lia|]. destruct (Z.eqb_spec size 0) as [->|Hn]; cbn [negb].
  - eexists _, _, _. split; [done|]. split; [done|]. exists 0. cbn zeta. split_and!; [done|done|]. rewrite <- Hc1. by apply owns_put.
  - destruct (palloc_ok os P1 w1 _ es _ other size HO Hs) as (d & P2 & w2 & E2 & Hc2 & HA2). pose proof (palloc_pmax os P1 size w1 d P2 w2 (or_introl E2)) as Hm2.
    rewrite E2. cbn [mbind option_bind]. destruct (Z.eqb_spec d 0) as [->|Hd].
    + eexists _, _, _. split; [done|]. split; [congruence|]. split; [congruence|]. destruct HA2 as [(_ & _ & HO2)|(? & _)]; [|lia].
      exists [(c, SIZEOF_POOL_CLEANUP)]. by apply owns_unused.
    + eexists _, _, _. split; [done|]. split; [cbn; congruence|]. exists d. cbn zeta. split_and!; [done|done|]. rewrite (proj2 (Z.eqb_neq d 0) Hd).
      destruct HA2 as [(? & _)|(_ & _ & HO2)]; [done|]. rewrite <- Hc1, <- Hc2. by apply owns_put.
Qed.

Lemma filter_live p n (live extra live0 : list region) : live ++ extra ≡ₚ (p, n) :: live0 ->
  exists extra', live0 ≡ₚ filter (fun r => r.1 <> p) live ++ extra'.
Proof.
  intros Hp. assert (Hf : filter (fun r => r.1 <> p) live ++ filter (fun r => r.1 <> p) extra ≡ₚ filter (fun r : region => r.1 <> p) live0).
  { rewrite <- list.filter_app, Hp. by rewrite filter_cons_False by (cbn; congruence). }
  exists (filter (fun r => r.1 <> p) extra ++ filter (fun r => ~ r.1 <> p) live0). rewrite app_assoc, Hf. symmetry. apply filter_app_complement.
Qed.

(** The list stays linked, and has what was registered. *)
Definition intact (P : pool) (es : list (Z * entry)) (regs : list (option nat * Z)) : Prop := linked (cleanup P) es /\ registered es = regs.

Lemma alloc_step P es live regs other m size align P' w' : cleanup P' = cleanup P -> pmax P' = pmax P -> SIZEOF_POOL_CLEANUP <= pmax P ->
  (exists extra, allocated os P' w' (places es) es (live ++ extra) other m size align) ->
  holds P' (written m size w') es (got m size live) other /\ (intact P es regs -> intact P' es regs).
Proof.
  intros Hc Hp Hmx [extra HA]. unfold holds, intact. rewrite Hc, Hp. split; [|done]. split; [done|]. exists extra. by eapply allocated_got.
Qed.

Lemma exec_ok o P w es live regs other : op_ok o -> holds P w es live other ->
  exists P' w' es' live' regs', exec os o (P, w, live, regs) = Some (P', w', live', regs') /\ holds P' w' es' live' other
  /\ (o = OpReset -> es = [] -> intact P es regs -> es' = [] /\ intact P' es' regs')
  /\ (o <> OpReset -> intact P es regs -> intact P' es' regs' /\ ((forall n h, o <> OpCleanup n h) -> es' = es)).
Proof.
  intros Ho [Hmx [extra H]]. destruct o as [n|n|n a|p|n h|]; cbn [exec op_ok] in *.
  - destruct (palloc_ok os P w _ es _ other n H Ho) as (m & P' & w' & E & Hc & HA). pose proof (palloc_pmax os P n w m P' w' (or_introl E)) as Hp. rewrite E. cbn.
    destruct (alloc_step P es live regs other m n 8 P' w' Hc Hp Hmx (ex_intro _ extra HA)) as [H1 H2]. eexists _, _, es, _, _. split; [done|]. by split_and!; auto.
  - destruct (pnalloc_ok os P w _ es _ other n H Ho) as (m & P' & w' & E & Hc & HA). pose proof (palloc_pmax os P n w m P' w' (or_intror E)) as Hp. rewrite E. cbn.
    destruct (alloc_step P es live regs other m n 1 P' w' Hc Hp Hmx (ex_intro _ extra HA)) as [H1 H2]. eexists _, _, es, _, _. split; [done|]. by split_and!; auto.
  - destruct (pmemalign_ok os P w _ es _ other n a H) as (m & P' & w' & E & Hc & HA); [lia|lia|]. pose proof (pmemalign_pmax os P n a w m P' w' E) as Hp. rewrite E. cbn.
    destruct (alloc_step P es live regs other m n a P' w' Hc Hp Hmx (ex_intro _ extra HA)) as [H1 H2]. eexists _, _, es, _, _. split; [done|]. by split_and!; auto.
  - destruct (pfree_ok P w _ es _ other p H) as (rc & P' & w' & E & Hc & HR). pose proof (pfree_pmax P p w rc P' w' E) as Hp. rewrite E. cbn [mbind option_bind].
    eexists _, _, es, _, _. split; [done|]. split; [|unfold intact; rewrite Hc; by split_and!; auto]. split; [congruence|].
    destruct HR as [(-> & -> & -> & _)|[(-> & -> & HO)|(-> & Hp0 & n & live0 & Hl & HO)]]; cbn [NGX_DECLINED NGX_OK Z.eqb].
    + by exists extra.
    + exists (filter (fun r => ~ r.1 <> 0) live ++ extra). eapply owns_perm; [|exact HO]. rewrite app_assoc. apply Permutation_app_tail. symmetry. apply filter_app_complement.
    + destruct (filter_live p n live extra live0 Hl) as [extra' He]. exists extra'. by eapply owns_perm.
  - destruct (cleanup_add_ok P w es _ other n H Hmx Ho) as (c & P' & w' & -> & Hp & HR). cbn [mbind option_bind]. destruct c as [c|].
    + destruct HR as (d & Hc & Hc0 & HO). assert (He : entries w' !! c = Some (Entry None d (cleanup P))).
      { destruct HO as (_ & _ & _ & _ & _ & Hst). by apply Forall_cons_1 in Hst as [? _]. }
      rewrite He. cbn [mbind option_bind cdata]. apply (owns_handler _ _ _ _ _ _ _ h) in HO. cbn [cdata cnext] in HO.
      eexists _, _, ((c, Entry h d (cleanup P)) :: es), _, _. split; [done|]. split_and!; [split; [congruence|]| |].
      * exists extra. unfold got, written. destruct (d =? 0); [done|]. apply owns_wipe; [|exact HO].
        apply owns_apart in HO as (_ & _ & HO)%apart_app. rewrite list.Forall_forall in HO |- *. intros r Hr. specialize (HO r Hr). by apply Forall_cons_1 in HO as [?%disjoint_sym _].
      * done.
      * intros _ [Hl <-]. split; [|intros Hno; by destruct (Hno n h)]. split; [|done]. cbn. rewrite Hc. done.
    + destruct HR as (Hc & ex & HO). eexists _, _, es, _, _. split; [done|]. split; [|unfold intact; rewrite Hc; by split_and!; auto].
      split; [congruence|]. exists (ex ++ extra). eapply owns_perm; [|exact HO]. rewrite !app_assoc. apply Permutation_app_tail, Permutation_app_comm.
  - destruct (reset_ok P w _ es _ other H) as (P' & w' & E & Hc & HO). pose proof (reset_pmax P w P' w' E) as Hp. rewrite E. cbn. eexists _, _, [], _, _. split; [done|].
    split_and!; [split; [congruence|by exists []]| |done]. intros _ -> Hi. split; [done|]. unfold intact in *. by rewrite Hc.
Qed.

Lemma execs_ok ops : forall P w es live regs other, Forall op_ok ops -> holds P w es live other ->
  exists P' w' es' live' regs', execs os ops (P, w, live, regs) = Some (P', w', live', regs') /\ holds P' w' es' live' other
  /\ (forall seen, (seen = false -> es = []) -> late_reset seen ops = false -> intact P es regs -> intact P' es' regs').
Proof.
  induction ops as [|o ops IH]; intros P w es live regs other Ho H; cbn [execs]; [by eexists _, _, es, _, _|]. apply Forall_cons_1 in Ho as [Ho Hos].
  destruct (exec_ok o P w es live regs other Ho H) as (P1 & w1 & es1 & live1 & regs1 & -> & H1 & Hres & Hoth). cbn [mbind option_bind].
  destruct (IH P1 w1 es1 live1 regs1 other Hos H1) as (P' & w' & es' & live' & regs' & E & H' & Hi). eexists _, _, es', _, _. split; [exact E|]. split; [done|].
  intros seen Hseen Hlate HI. destruct (decide (o = OpReset)) as [->|Hne].
  - cbn in Hlate. apply orb_false_elim in Hlate as [-> Hlate]. destruct (Hres eq_refl (Hseen eq_refl) HI) as [-> HI']. by apply (Hi false).
  - destruct (Hoth Hne HI) as [HI' Hsame]. destruct o as [n|n|n a|p|n h|]; cbn in Hlate; try done.
    1-4: apply (Hi seen); [intros Hs; rewrite Hsame by done; by apply Hseen|done|done].
    by apply (Hi true).
Qed.
End sequences.

Lemma holds_apart P w es live other : holds P w es live other -> apart (places es ++ live ++ map node (larges P) ++ headers (blocks P) ++ other).
Proof.
  intros [_ [extra H]]. apply owns_apart in H. apply (apart_perm _ (extra ++ places es ++ live ++ map node (larges P) ++ headers (blocks P) ++ other)) in H.
  - by apply apart_app in H as (_ & ? & _).
  - rewrite (Permutation_app_comm live extra), <- (app_assoc extra). apply Permutation_app_swap_app.
Qed.

(** ** Properties *)

(** C24. Memory pools are safe, with their cleanup entries in the memory of the pool.  After
    ngx_create_pool, with a size of at least NGX_MIN_POOL_SIZE that is a multiple of eight,
    and any sequence of ngx_palloc, ngx_pnalloc, ngx_pmemalign, ngx_pfree (of any pointer),
    ngx_pool_cleanup_add and ngx_reset_pool, in which the users write to the pieces they
    get: the pieces that the users hold overlap neither each other nor the headers of the
    blocks nor the list of large pieces nor memory that was in use before; no operation
    frees memory that it does not own; and if ngx_destroy_pool comes to its end, it has
    given back all memory of the pool, every region once.  If moreover the pool is not reset
    after a cleanup entry was added ([late_reset]; ngx_reset_pool keeps the list but gives
    its memory away), then the entries of the cleanup list overlap none of these pieces and
    structures either and are in memory as they were written, and ngx_destroy_pool comes
    to its end and runs exactly the handlers that were registered, with their data, the
    latest first. *)
Theorem pool_safe (os : allocator) `{!AllocatorLaws os} (size : Z) (w w1 : world) (P : pool) (ops : list op)
  (Hsize : NGX_MIN_POOL_SIZE <= size) (Halign : size mod 8 = 0) (Hnodup : NoDup (map fst (heap w))) (Hheap : apart (heap w))
  (Hcreate : ngx_create_pool os size w = (Some P, w1)) (Hops : Forall op_ok ops) :
  exists P' w' live regs, execs os ops (P, w1, [], []) = Some (P', w', live, regs)
  /\ apart (live ++ map node (larges P') ++ headers (blocks P') ++ heap w)
  /\ (forall calls w2, ngx_destroy_pool P' w' = Some (calls, w2) -> heap w2 ≡ₚ heap w)
  /\ (late_reset false ops = false -> exists es w2,
       apart (places es ++ live ++ map node (larges P') ++ headers (blocks P') ++ heap w)
       /\ linked (cleanup P') es /\ Forall (fun x => entries w' !! x.1 = Some x.2) es /\ registered es = regs
       /\ ngx_destroy_pool P' w' = Some (omap call_of regs, w2) /\ heap w2 ≡ₚ heap w).
Proof.
  unfold NGX_MIN_POOL_SIZE in Hsize. destruct (pool_create_ok os size w ltac:(unfold SIZEOF_POOL; lia) Halign Hnodup Hheap) as (r & w1' & Hc & Hr).
  rewrite Hcreate in Hc. simplify_eq. destruct Hr as (Hc0 & Hmx & HO).
  assert (Hcreated : holds P w1' [] [] (heap w)).
  { split; [rewrite Hmx; unfold SIZEOF_POOL, SIZEOF_POOL_CLEANUP, NGX_MAX_ALLOC_FROM_POOL; lia|]. exists []. exact HO. }
  destruct (execs_ok os ops P w1' [] [] [] (heap w) Hops Hcreated) as (P' & w' & es & live & regs & He & HH & Hi).
  exists P', w', live, regs. split; [done|]. pose proof (holds_apart _ _ _ _ _ HH) as Ha. destruct HH as [_ [extra HO']]. split_and!.
  - by apply apart_app in Ha as (_ & ? & _).
  - intros calls w2 Hd. pose proof (destroy_ok _ _ _ _ _ _ HO') as Hk. destruct (run_cleanups _ _ w') as [calls'|]; [|congruence].
    destruct Hk as (w3 & Hk & Hw3). rewrite Hd in Hk. by injection Hk as _ <-.
  - intros Hlate. destruct (Hi false ltac:(done) Hlate ltac:(by split)) as [Hl <-]. destruct (destroy_linked _ _ _ _ _ HO' Hl) as (w2 & Hd & Hw2).
    exists es, w2. split_and!; try done. by destruct HO' as (_ & _ & _ & _ & _ & ?).
Qed.

(** A system for the witness: addresses are never used again. *)
Lemma top_bound h : Forall (fun r => Z.max r.1 (r.1 + r.2) <= foldr (fun r a => Z.max (Z.max r.1 (r.1 + r.2)) a) 4095 h) h
  /\ 4095 <= foldr (fun r a => Z.max (Z.max r.1 (r.1 + r.2)) a) 4095 h.
Proof.
  induction h as [|r h [IH1 IH2]]; cbn [foldr]; [split; [constructor|lia]|]. split; [|lia]. constructor; [lia|]. eapply Forall_impl; [|exact IH1]. cbn. intros. lia.
Qed.

Lemma bump_os_above t h align size : bump_os t h align size <> 0 -> foldr (fun r a => Z.max (Z.max r.1 (r.1 + r.2)) a) 4095 h < bump_os t h align size.
Proof.
  unfold bump_os. destruct ((0 <? align) && _) eqn:E; [|done]. intros _. zbool. set (top := foldr _ _ _). pose proof (Z.mod_pos_bound (top + align) align ltac:(lia)).
  pose proof (Z.div_mod (top + align) align ltac:(lia)). lia.
Qed.

#[export] Instance bump_os_laws : AllocatorLaws bump_os.
Proof.
  constructor; intros t h align size.
  - intros Hs H%bump_os_above. destruct (top_bound h) as [Ht _]. eapply Forall_impl; [|exact Ht]. intros r Hr. right. cbn in *. lia.
  - intros H%bump_os_above Hin. destruct (top_bound h) as [Ht _]. apply fst_elem in Hin as [n Hin]. rewrite list.Forall_forall in Ht. specialize (Ht _ Hin). cbn in Ht. lia.
  - intros Ha. unfold bump_os. destruct ((0 <? align) && _); [apply Z.mod_mul; lia|apply Z.mod_0_l; lia].
  - destruct (decide (bump_os t h align size = 0)) as [->|Hne]; [lia|]. pose proof (bump_os_above t h align size Hne). destruct (top_bound h) as [_ Ht].
    split; [lia|]. intros _. unfold bump_os in *. destruct ((0 <? align) && _) eqn:E; [zbool; lia|done].
Qed.

Definition demo_ops : list op :=
  [OpPalloc 100; OpReset; OpPnalloc 3; OpCleanup 0 (Some 7%nat); OpPalloc 80; OpPalloc 5000; OpPmemalign 64 4096; OpCleanup 8 (Some 9%nat); OpPfree 0x1000].

Lemma pool_safe_witness : exists P w1 P' w' live d, ngx_create_pool bump_os 256 (World [(4096, 100)] 0 ∅) = (Some P, w1)
  /\ execs bump_os demo_ops (P, w1, [], []) = Some (P', w', live, [(Some 9%nat, d); (Some 7%nat, 0)])
  /\ apart (live ++ map node (larges P') ++ headers (blocks P') ++ [(4096, 100)])
  /\ exists w2, ngx_destroy_pool P' w' = Some ([(9%nat, d); (7%nat, 0)], w2) /\ heap w2 ≡ₚ [(4096, 100)].
Proof.
  destruct (ngx_create_pool bump_os 256 (World [(4096, 100)] 0 ∅)) as [[P|] w1] eqn:Hc; [|exfalso; revert Hc; vm_compute; discriminate].
  destruct (pool_safe bump_os 256 (World [(4096, 100)] 0 ∅) w1 P demo_ops) as (P' & w' & live & regs & H1 & H2 & _ & H3).
  - unfold NGX_MIN_POOL_SIZE. lia.
  - done.
  - by_evaluation.
  - by_evaluation || (cbn; split; [constructor|done]).
  - exact Hc.
  - repeat constructor; cbn; lia.
  - destruct (H3 eq_refl) as (es & w2 & _ & _ & _ & _ & H4 & H5).
    assert (Hr : exists d, regs = [(Some 9%nat, d); (Some 7%nat, 0)]) by (vm_compute in Hc; injection Hc as <- <-; vm_compute in H1; injection H1 as _ _ _ <-; by eexists).
    destruct Hr as [d ->]. exists P, w1, P', w', live, d. split; [reflexivity|]. split; [exact H1|]. split; [exact H2|]. exists w2. split; [exact H4|exact H5].
Defined.

(** An allocation from a pool: ngx_palloc returns a piece of the size asked for that is
    aligned to the word and does not overlap the pieces in use, ngx_pnalloc one without
    alignment, ngx_pmemalign one with the alignment asked for; the result is NULL only if the
    system refused memory, and then nothing is lost: the users hold what they held before. *)
Theorem pool_allocation (os : allocator) `{!AllocatorLaws os} (P : pool) (w : world) (ps : list region) (es : list (Z * entry)) (live other : list region) (size align : Z)
  (Hown : owns P w ps es live other) (Hsize : 0 <= size) (Halign : 0 < align) :
  (exists m P' w', ngx_palloc os P size w = Some (m, P', w') /\ allocated os P' w' ps es live other m size NGX_ALIGNMENT)
  /\ (exists m P' w', ngx_pnalloc os P size w = Some (m, P', w') /\ allocated os P' w' ps es live other m size 1)
  /\ (exists m P' w', ngx_pmemalign os P size align w = Some (m, P', w') /\ allocated os P' w' ps es live other m size align)
  /\ apart (ps ++ live ++ map node (larges P) ++ headers (blocks P) ++ other).
Proof.
  split_and!; [| | |by eapply owns_apart].
  - destruct (palloc_ok os P w ps es live other size Hown Hsize) as (m & P' & w' & H1 & _ & H2). by exists m, P', w'.
  - destruct (pnalloc_ok os P w ps es live other size Hown Hsize) as (m & P' & w' & H1 & _ & H2). by exists m, P', w'.
  - destruct (pmemalign_ok os P w ps es live other size align Hown Hsize Halign) as (m & P' & w' & H1 & _ & H2). by exists m, P', w'.
Qed.

(** ngx_reset_pool leaves the cleanup entries in the list but not their memory: the next
    piece is at the address of the entry, and after its user has written to it
    ngx_destroy_pool reads what is not an entry. *)
Example reset_keeps_cleanup :
  (let '(P, w) := ngx_create_pool bump_os 256 (World [] 0 ∅) in
   P ← P;
   '(P, w, live, _) ← execs bump_os [OpCleanup 0 (Some 1%nat); OpReset; OpPalloc 100] (P, w, [], []);
   Some (live, cleanup P, ngx_destroy_pool P w)) = Some ([(4176, 100)], 4176, None).
Proof. vm_compute. reflexivity. Qed.

(** The next cleanup entry is at the same address, too: its next pointer is its own address,
    and the loop of ngx_destroy_pool does not end. *)
Example reset_cleanup_cycle :
  (let '(P, w) := ngx_create_pool bump_os 256 (World [] 0 ∅) in
   P ← P;
   '(P, w, _, _) ← execs bump_os [OpCleanup 0 (Some 1%nat); OpReset; OpCleanup 0 (Some 2%nat)] (P, w, [], []);
   e ← entries w !! cleanup P;
   Some (cleanup P, cnext e, ngx_destroy_pool P w)) = Some (4176, 4176, None).
Proof. vm_compute. reflexivity. Qed.

(** A pool whose size is not a multiple of eight can return a piece behind its end. *)
Example odd_size_overflow :
  (let '(P, w) := ngx_create_pool bump_os 100 (World [] 0 ∅) in
   P ← P;
   '(a, P, w) ← ngx_pnalloc bump_os P 18 w;
   '(b, P, w) ← ngx_palloc bump_os P 16 w;
   Some (a + 18 <=? 4096 + 100, b, b + 16 <=? 4096 + 100)) = Some (true, 4200, false).
Proof. vm_compute. reflexivity. Qed.

End Pool.
