(* ===== verification/HttpStatusLine.v ===== *)
(** * The status line parser: ngx_http_parse_status_line of
    src/http/ngx_http_parse.c

    The parser of the first line of an upstream's response, in the shape of the
    request line parser: a definition per [case], [sl_step] for the switch,
    [sl_loop] for the loop, and the code at [done].  The version goes into the
    request, the rest into the ngx_http_status_t of the caller, which starts as
    [new_status]. *)

From S2P Require Import Prelude NgxNumber HttpRequestLine.

Module StatusLine.

Inductive sl_state :=
| sw_start | sw_H | sw_HT | sw_HTT | sw_HTTP | sw_first_major_digit | sw_major_digit
| sw_first_minor_digit | sw_minor_digit | sw_status | sw_space_after_status | sw_status_text
| sw_almost_done.

(** ngx_http_status_t; [end_] is the field [end]. *)
Record status := MkStatus {
  st_http_version : Z;
  code : Z;
  count : Z;
  line_start : ptr;
  start : ptr;
  end_ : ptr;
}.

Definition set_line_start (p : ptr) (t : status) : status :=
  let '(MkStatus v c n _ s e) := t in MkStatus v c n p s e.
Definition set_code (c : Z) (t : status) : status :=
  let '(MkStatus v _ n l s e) := t in MkStatus v c n l s e.
Definition set_count (n : Z) (t : status) : status :=
  let '(MkStatus v c _ l s e) := t in MkStatus v c n l s e.
Definition set_start (p : ptr) (t : status) : status :=
  let '(MkStatus v c n l _ e) := t in MkStatus v c n l p e.
Definition set_end (p : ptr) (t : status) : status :=
  let '(MkStatus v c n l s _) := t in MkStatus v c n l s p.
Definition set_version (v : Z) (t : status) : status :=
  let '(MkStatus _ c n l s e) := t in MkStatus v c n l s e.

Definition new_status : status := MkStatus 0 0 0 None None None.

(** One iteration: [break], [goto done] or [return NGX_ERROR]. *)
Inductive s_outcome :=
| SNext (s : sl_state) (r : request) (t : status)
| SDone (r : request) (t : status)
| SError (r : request) (t : status).

(** A state that waits for one byte. *)
Definition expect_byte (x : Z) (s : sl_state) (r : request) (t : status) (c : Z) : s_outcome :=
  if c =? x then SNext s r t else SError r t.

Definition sst_start (r : request) (t : status) (p c : Z) : s_outcome :=
  expect_byte ch("H") sw_H r (set_line_start (Some p) t) c.

(** the first digit of major HTTP version *)
Definition sst_first_major_digit (r : request) (t : status) (c : Z) : s_outcome :=
  if (c <? ch("1")) || (ch("9") <? c) then SError r t
  else SNext sw_major_digit (set_http_major (c - ch("0")) r) t.

(** the major HTTP version or dot *)
Definition sst_major_digit (r : request) (t : status) (c : Z) : s_outcome :=
  if c =? ch(".") then SNext sw_first_minor_digit r t
  else if (c <? ch("0")) || (ch("9") <? c) then SError r t
  else if 99 <? http_major r then SError r t
  else SNext sw_major_digit (set_http_major (http_major r * 10 + (c - ch("0"))) r) t.

(** the first digit of minor HTTP version *)
Definition sst_first_minor_digit (r : request) (t : status) (c : Z) : s_outcome :=
  if (c <? ch("0")) || (ch("9") <? c) then SError r t
  else SNext sw_minor_digit (set_http_minor (c - ch("0")) r) t.

(** the minor HTTP version or the end of the request line *)
Definition sst_minor_digit (r : request) (t : status) (c : Z) : s_outcome :=
  if c =? ch(" ") then SNext sw_status r t
  else if (c <? ch("0")) || (ch("9") <? c) then SError r t
  else if 99 <? http_minor r then SError r t
  else SNext sw_minor_digit (set_http_minor (http_minor r * 10 + (c - ch("0"))) r) t.

(** HTTP status code *)
Definition sst_status (r : request) (t : status) (p c : Z) : s_outcome :=
  if c =? ch(" ") then SNext sw_status r t
  else if (c <? ch("0")) || (ch("9") <? c) then SError r t
  else
    let t := set_code (u64 (code t * 10 + (c - ch("0")))) t in
    let t := set_count (u64 (count t + 1)) t in
    if count t =? 3 then SNext sw_space_after_status r (set_start (Some (p - 2)) t)
    else SNext sw_status r t.

(** space or end of line *)
Definition sst_space_after_status (r : request) (t : status) (c : Z) : s_outcome :=
  if c =? ch(" ") then SNext sw_status_text r t
  else if c =? ch(".") then SNext sw_status_text r t
  else if c =? CR then SNext sw_almost_done r t
  else if c =? LF then SDone r t
  else SError r t.

(** any text until end of line *)
Definition sst_status_text (r : request) (t : status) (c : Z) : s_outcome :=
  if c =? CR then SNext sw_almost_done r t
  else if c =? LF then SDone r t
  else SNext sw_status_text r t.

(** end of status line *)
Definition sst_almost_done (r : request) (t : status) (p c : Z) : s_outcome :=
  let t := set_end (Some (p - 1)) t in
  if c =? LF then SDone r t else SError r t.

Definition sl_step (s : sl_state) (r : request) (t : status) (p c : Z) : s_outcome :=
  match s with
  | sw_start => sst_start r t p c
  | sw_H => expect_byte ch("T") sw_HT r t c
  | sw_HT => expect_byte ch("T") sw_HTT r t c
  | sw_HTT => expect_byte ch("P") sw_HTTP r t c
  | sw_HTTP => expect_byte ch("/") sw_first_major_digit r t c
  | sw_first_major_digit => sst_first_major_digit r t c
  | sw_major_digit => sst_major_digit r t c
  | sw_first_minor_digit => sst_first_minor_digit r t c
  | sw_minor_digit => sst_minor_digit r t c
  | sw_status => sst_status r t p c
  | sw_space_after_status => sst_space_after_status r t c
  | sw_status_text => sst_status_text r t c
  | sw_almost_done => sst_almost_done r t p c
  end.

(** The result of a call: the return code, [r->state], the request, the status
    and [b->pos]. *)
Abbreviation result := (Z * sl_state * request * status * Z)%type.

(** The code after the label [done]. *)
Definition sl_done (r : request) (t : status) (p : Z) : result :=
  let t := if bool_decide (end_ t = None) then set_end (Some p) t else t in
  let t := set_version (http_major r * 1000 + http_minor r) t in
  (NGX_OK, sw_start, r, t, p + 1).

Fixpoint sl_loop (s0 : sl_state) (p0 : Z) (s : sl_state) (r : request) (t : status) (p : Z)
    (rest : list Z) : result :=
  match rest with
  | [] => (NGX_AGAIN, s, r, t, p)
  | c :: rest' =>
      match sl_step s r t p c with
      | SNext s' r' t' => sl_loop s0 p0 s' r' t' (p + 1) rest'
      | SDone r' t' => sl_done r' t' p
      | SError r' t' => (NGX_ERROR, s0, r', t', p0)
      end
  end.

Definition ngx_http_parse_status_line (buf : list Z) (s : sl_state) (r : request) (t : status)
    (pos last : Z) : result :=
  sl_loop s pos s r t pos (drop (Z.to_nat pos) (take (Z.to_nat last) buf)).

Example parse_200 :
  let buf := str("HTTP/1.1 200 OK") ++ [CR; LF] in
  let '(rc, _, _, t, pos) := ngx_http_parse_status_line buf sw_start new_request new_status 0 17 in
  (rc, pos, t) = (NGX_OK, 17, MkStatus 1001 200 3 (Some 0) (Some 9) (Some 15)).
Proof. vm_compute. reflexivity. Qed.

(** The digits of the code may be apart; [start] then points into the code. *)
Example spaced_code :
  let buf := str("HTTP/1.1 2 0 0 OK") ++ [CR; LF] in
  let '(rc, _, _, t, pos) := ngx_http_parse_status_line buf sw_start new_request new_status 0 19 in
  (rc, pos, t) = (NGX_OK, 19, MkStatus 1001 200 3 (Some 0) (Some 11) (Some 17)).
Proof. vm_compute. reflexivity. Qed.

(** ** The grammar of status lines *)

(** The parts of a status line: the digits of the version, the code with the
    spaces around its digits, the text, and whether the line ends in CR LF. *)
Record line := MkLine {
  major : list Z;
  minor : list Z;
  code_text : list Z;
  text : list Z;
  has_cr : bool;
}.

Definition prefix_text (l : line) : list Z :=
  str("HTTP/") ++ major l ++ [ch(".")] ++ minor l ++ [ch(" ")] ++ code_text l ++ text l.
Definition line_end (l : line) : list Z := if has_cr l then [CR; LF] else [LF].
Definition render (l : line) : list Z := prefix_text l ++ line_end l.

Definition code_digits (l : list Z) : list Z := List.filter is_digit l.

Definition code_char (c : Z) : bool := is_digit c || (c =? ch(" ")).
Definition text_char (c : Z) : bool := negb (c =? CR) && negb (c =? LF).

(** A version part has a value of at most three digits; the major one does not
    start with a zero.  The code has three digits, the last one at its end. *)
Definition major_ok (l : list Z) : bool :=
  match l with
  | [] => false
  | c :: _ => negb (c =? ch("0")) && forallb is_digit l && (dec_value 0 l <=? 999)
  end.
Definition minor_ok (l : list Z) : bool :=
  match l with
  | [] => false
  | _ => forallb is_digit l && (dec_value 0 l <=? 999)
  end.
Definition code_ok (l : list Z) : bool :=
  forallb code_char l && (length (code_digits l) =? 3)%nat
  && is_digit (List.last l 0).
Definition text_ok (l : list Z) : bool :=
  match l with
  | [] => true
  | c :: l' => ((c =? ch(" ")) || (c =? ch("."))) && forallb text_char l'
  end.

Definition well_formed (l : line) : bool :=
  major_ok (major l) && minor_ok (minor l) && code_ok (code_text l) && text_ok (text l).

(** What the parser is to report for a line at offset [pos]. *)
Definition line_status (l : line) (pos : Z) : status :=
  MkStatus (dec_value 0 (major l) * 1000 + dec_value 0 (minor l))
    (dec_value 0 (code_digits (code_text l))) 3 (Some pos)
    (Some (pos + Z.of_nat (length (str("HTTP/") ++ major l ++ [ch(".")] ++ minor l ++ [ch(" ")]
                                   ++ code_text l)) - 3))
    (Some (pos + Z.of_nat (length (prefix_text l)))).

Definition line_request (l : line) (r : request) : request :=
  set_http_minor (dec_value 0 (minor l)) (set_http_major (dec_value 0 (major l)) r).

(** ** The loop on the parts of a well-formed line *)

Lemma digit_bounds c : is_digit c = true <-> ch("0") <= c <= ch("9").
Proof. unfold is_digit. split; intros H; zbool; [lia|]. apply andb_true_intro. lia. Qed.

Lemma not_digit_test c : is_digit c = negb ((c <? ch("0")) || (ch("9") <? c)).
Proof. unfold is_digit. by rewrite negb_orb, !Z.leb_antisym. Qed.

Ltac digit_hyp H := let B := fresh "B" in pose proof (proj1 (digit_bounds _) H) as B.

Lemma step_major r t p c :
  is_digit c = true -> 0 <= http_major r -> http_major r * 10 + (c - ch("0")) <= 999 ->
  sl_step sw_major_digit r t p c
  = SNext sw_major_digit (set_http_major (http_major r * 10 + (c - ch("0"))) r) t.
Proof.
  intros Hd H0 Hm. digit_hyp Hd. cbn [sl_step]. unfold sst_major_digit.
  rewrite not_digit_test in Hd. apply negb_true_iff in Hd. rewrite Hd.
  rewrite (proj2 (Z.eqb_neq c 46)), (proj2 (Z.ltb_ge 99 _)) by lia. done.
Qed.

Lemma step_minor r t p c :
  is_digit c = true -> 0 <= http_minor r -> http_minor r * 10 + (c - ch("0")) <= 999 ->
  sl_step sw_minor_digit r t p c
  = SNext sw_minor_digit (set_http_minor (http_minor r * 10 + (c - ch("0"))) r) t.
Proof.
  intros Hd H0 Hm. digit_hyp Hd. cbn [sl_step]. unfold sst_minor_digit.
  rewrite not_digit_test in Hd. apply negb_true_iff in Hd. rewrite Hd.
  rewrite (proj2 (Z.eqb_neq c 32)), (proj2 (Z.ltb_ge 99 _)) by lia. done.
Qed.

Lemma loop_major s0 p0 r t p l rest :
  forallb is_digit l = true -> 0 <= http_major r -> dec_value (http_major r) l <= 999 ->
  sl_loop s0 p0 sw_major_digit r t p (l ++ rest)
  = sl_loop s0 p0 sw_major_digit (set_http_major (dec_value (http_major r) l) r) t
      (p + Z.of_nat (length l)) rest.
Proof.
  revert r p. induction l as [|c l IH]; intros r p Hd H0 Hm; cbn [app forallb dec_value length] in *.
  - rewrite Z.add_0_r. by destruct r.
  - apply andb_prop in Hd as [Hc Hd]. digit_hyp Hc. cbn [sl_loop].
    pose proof (dec_value_mono (http_major r * 10 + (c - 48)) l ltac:(lia) Hd).
    rewrite step_major by (done || lia).
    rewrite IH; [|done|destruct r; cbn in *; lia|destruct r; cbn in *; lia].
    replace (p + 1 + Z.of_nat (length l)) with (p + Z.of_nat (S (length l))) by lia.
    by destruct r.
Qed.

Lemma loop_minor s0 p0 r t p l rest :
  forallb is_digit l = true -> 0 <= http_minor r -> dec_value (http_minor r) l <= 999 ->
  sl_loop s0 p0 sw_minor_digit r t p (l ++ rest)
  = sl_loop s0 p0 sw_minor_digit (set_http_minor (dec_value (http_minor r) l) r) t
      (p + Z.of_nat (length l)) rest.
Proof.
  revert r p. induction l as [|c l IH]; intros r p Hd H0 Hm; cbn [app forallb dec_value length] in *.
  - rewrite Z.add_0_r. by destruct r.
  - apply andb_prop in Hd as [Hc Hd]. digit_hyp Hc. cbn [sl_loop].
    pose proof (dec_value_mono (http_minor r * 10 + (c - 48)) l ltac:(lia) Hd).
    rewrite step_minor by (done || lia).
    rewrite IH; [|done|destruct r; cbn in *; lia|destruct r; cbn in *; lia].
    replace (p + 1 + Z.of_nat (length l)) with (p + Z.of_nat (S (length l))) by lia.
    by destruct r.
Qed.

(** The code, read from [n] digits of value [v] on. *)
Definition code_status (t : status) (v n : Z) : status := set_count n (set_code v t).

Lemma loop_code s0 p0 r t p v n l rest :
  forallb code_char l = true -> is_digit (List.last l 0) = true ->
  0 <= n -> n + Z.of_nat (length (code_digits l)) = 3 -> 0 <= v < 10 ^ n ->
  sl_loop s0 p0 sw_status r (code_status t v n) p (l ++ rest)
  = sl_loop s0 p0 sw_space_after_status r
      (set_start (Some (p + Z.of_nat (length l) - 3)) (code_status t (dec_value v (code_digits l)) 3))
      (p + Z.of_nat (length l)) rest.
Proof.
  revert p v n. induction l as [|c l IH]; intros p v n Hd Hl Hn H3 Hv; [done|].
  cbn [app forallb length] in *. apply andb_prop in Hd as [Hc Hd].
  cbn [sl_loop sl_step]. unfold sst_status.
  assert (Hlen : forall q, q + 1 + Z.of_nat (length l) = q + Z.of_nat (S (length l))) by lia.
  destruct (Z.eqb_spec c 32) as [->|Hs].
  - change (code_digits (32 :: l)) with (code_digits l) in *.
    destruct l as [|c' l]; [cbn in Hl; done|]. rewrite IH by done. by rewrite !Hlen.
  - assert (Hdig : is_digit c = true).
    { unfold code_char in Hc. rewrite (proj2 (Z.eqb_neq c 32)) in Hc by lia.
      by rewrite orb_false_r in Hc. }
    digit_hyp Hdig. pose proof Hdig as Hd'. rewrite not_digit_test in Hd'. apply negb_true_iff in Hd'.
    rewrite Hd'.
    assert (Ecd : code_digits (c :: l) = c :: code_digits l)
      by (unfold code_digits; cbn [List.filter]; by rewrite Hdig).
    rewrite Ecd in *. cbn [length dec_value] in *.
    assert (Hn3 : n = 0 \/ n = 1 \/ n = 2) by lia.
    assert (Hv3 : 0 <= v < 100) by (destruct Hn3 as [->|[->| ->]]; cbn in Hv; lia).
    destruct t as [tv tc tn tl ts te]. cbn [code_status set_count set_code code count].
    rewrite !wrap_small by (unfold in_u; lia).
    destruct (Z.eqb_spec (n + 1) 3) as [E|E].
    + assert (l = []) as ->.
      { assert (Hz : length (code_digits l) = 0%nat) by lia.
        apply length_zero_iff_nil in Hz. destruct l as [|c' l]; [done|]. exfalso.
        change (List.last (c :: c' :: l) 0) with (List.last (c' :: l) 0) in Hl.
        assert (In (List.last (c' :: l) 0) (code_digits (c' :: l))) as Hin.
        { apply filter_In. split; [|done].
          destruct (exists_last (l := c' :: l)) as (l1 & x & Ex); [done|]. rewrite Ex, List.last_last.
          apply in_app_iff. right. by left. }
        by rewrite Hz in Hin. }
      cbn [code_digits List.filter app length dec_value]. rewrite E.
      replace (p + Z.of_nat 1 - 3) with (p - 2) by lia.
      by replace (p + Z.of_nat 1) with (p + 1) by lia.
    + destruct l as [|c' l]; [cbn in H3; lia|].
      replace (MkStatus tv (v * 10 + (c - 48)) (n + 1) tl ts te)
        with (code_status (MkStatus tv tc tn tl ts te) (v * 10 + (c - 48)) (n + 1)) by done.
      rewrite IH; [by rewrite !Hlen|done|done|lia|lia|].
      rewrite Z.pow_add_r by lia. destruct Hn3 as [->|[->| ->]]; cbn in *; lia.
Qed.

Lemma loop_text s0 p0 r t p l rest :
  forallb text_char l = true ->
  sl_loop s0 p0 sw_status_text r t p (l ++ rest)
  = sl_loop s0 p0 sw_status_text r t (p + Z.of_nat (length l)) rest.
Proof.
  revert p. induction l as [|c l IH]; intros p Hd; cbn [app forallb length] in *.
  - by rewrite Z.add_0_r.
  - apply andb_prop in Hd as [Hc Hd]. unfold text_char in Hc. apply andb_prop in Hc as [H1 H2].
    apply negb_true_iff in H1, H2. cbn [sl_loop sl_step]. unfold sst_status_text. rewrite H1, H2.
    rewrite IH by done. f_equal. lia.
Qed.

(** The end of the line, after the code or the text. *)
Lemma loop_eol s0 p0 s r t p l rest :
  s = sw_space_after_status \/ s = sw_status_text -> end_ t = None ->
  sl_loop s0 p0 s r t p (line_end l ++ rest)
  = (NGX_OK, sw_start, r,
     set_version (http_major r * 1000 + http_minor r) (set_end (Some p) t),
     p + Z.of_nat (length (line_end l))).
Proof.
  intros Hs He. unfold line_end.
  destruct t as [tv tc tn tl ts te]. cbn in He. subst te.
  destruct (has_cr l), Hs as [-> | ->]; cbn -[Z.add Z.sub Z.mul]; unfold sl_done;
    cbn -[Z.add Z.sub Z.mul];
    rewrite ?Z.add_simpl_r; f_equal; lia.
Qed.

Lemma loop_tail s0 p0 r t p l rest :
  text_ok (text l) = true -> end_ t = None ->
  sl_loop s0 p0 sw_space_after_status r t p (text l ++ line_end l ++ rest)
  = (NGX_OK, sw_start, r,
     set_version (http_major r * 1000 + http_minor r)
       (set_end (Some (p + Z.of_nat (length (text l)))) t),
     p + Z.of_nat (length (text l ++ line_end l))).
Proof.
  intros Ht He. rewrite length_app. destruct (text l) as [|c x] eqn:E.
  - cbn [app length]. rewrite loop_eol by tauto. by rewrite !Z.add_0_r.
  - cbn [text_ok] in Ht. apply andb_prop in Ht as [Hc Hx]. cbn [app sl_loop sl_step].
    assert (sst_space_after_status r t c = SNext sw_status_text r t) as ->
      by (unfold sst_space_after_status; apply orb_prop in Hc as [-> | ->]; [done|by case_if]).
    rewrite loop_text, loop_eol by tauto. cbn [length].
    replace (p + 1 + Z.of_nat (length x)) with (p + Z.of_nat (S (length x))) by lia.
    f_equal. lia.
Qed.

Lemma dec_value_first c l : dec_value 0 (c :: l) = dec_value (c - ch("0")) l.
Proof. reflexivity. Qed.

Lemma loop_http s0 p0 r t p rest :
  sl_loop s0 p0 sw_start r t p (str("HTTP/") ++ rest)
  = sl_loop s0 p0 sw_first_major_digit r (set_line_start (Some p) t) (p + 5) rest.
Proof.
  cbn -[Z.add]. by replace (p + 1 + 1 + 1 + 1 + 1) with (p + 5) by lia.
Qed.

(** A well-formed line is accepted, with the values it carries. *)
Lemma loop_complete s0 p0 l r p rest :
  well_formed l = true ->
  sl_loop s0 p0 sw_start r new_status p (render l ++ rest)
  = (NGX_OK, sw_start, line_request l r, line_status l p, p + Z.of_nat (length (render l))).
Proof.
  unfold well_formed. intros H. apply andb_prop in H as [H Ht]. apply andb_prop in H as [H Hcd].
  apply andb_prop in H as [Hmaj Hmin].
  unfold line_status, line_request, render, prefix_text. destruct l as [maj mn cd tx cr]. cbn [major minor code_text text] in *.
  rewrite <- !app_assoc, loop_http.
  destruct maj as [|c maj]; [done|]. cbn [major_ok forallb] in Hmaj.
  apply andb_prop in Hmaj as [Hmaj Hv]. apply andb_prop in Hmaj as [H0 Hd]. apply andb_prop in Hd as [Hc Hd].
  apply negb_true_iff, Z.eqb_neq in H0. apply Z.leb_le in Hv. rewrite dec_value_first in *. digit_hyp Hc.
  cbn [app sl_loop sl_step]. unfold sst_first_major_digit.
  rewrite (proj2 (Z.ltb_ge c 49)), (proj2 (Z.ltb_ge 57 c)) by lia. cbn [orb].
  assert (Em : forall v, http_major (set_http_major v r) = v) by (by destruct r).
  rewrite loop_major; rewrite ?Em; [|done|lia|lia].
  cbn [app sl_loop sl_step]. unfold sst_major_digit at 1. cbn [Z.eqb Pos.eqb].
  destruct mn as [|d mn]; [done|]. cbn [minor_ok forallb] in Hmin.
  apply andb_prop in Hmin as [Hmin Hv']. apply andb_prop in Hmin as [Hd1 Hd2].
  apply Z.leb_le in Hv'. rewrite dec_value_first in *. digit_hyp Hd1.
  cbn [app sl_loop sl_step]. unfold sst_first_minor_digit.
  rewrite (proj2 (Z.ltb_ge d 48)), (proj2 (Z.ltb_ge 57 d)) by lia. cbn [orb].
  assert (En : forall v r, http_minor (set_http_minor v r) = v) by (by intros v []).
  rewrite loop_minor; rewrite ?En; [|done|lia|lia].
  cbn [app sl_loop sl_step]. unfold sst_minor_digit at 1. cbn [Z.eqb Pos.eqb].
  unfold code_ok in Hcd. apply andb_prop in Hcd as [Hcd Hl]. apply andb_prop in Hcd as [Hcc Hn].
  apply Nat.eqb_eq in Hn.
  change (set_line_start (Some p) new_status)
    with (code_status (MkStatus 0 0 0 (Some p) None None) 0 0).
  rewrite loop_code by (done || lia).
  rewrite (loop_tail _ _ _ _ _ (MkLine (c :: maj) (d :: mn) cd tx cr)) by done.
  assert (Er : forall a b v w, set_http_minor v (set_http_minor w (set_http_major a (set_http_major b r)))
    = set_http_minor v (set_http_major a r)) by (by destruct r). rewrite Er.
  assert (Ea : forall a b, http_major (set_http_minor a (set_http_major b r)) = b) by (by destruct r).
  rewrite Ea, En. cbn [code_status set_version set_end set_start set_count set_code dec_value text].
  repeat first [rewrite length_app | progress cbn [length]].
  f_equal; [|lia]. do 2 f_equal; [f_equal; lia..].
Qed.

(** ** What the states have read *)

Definition version_text (maj mn : list Z) : list Z := str("HTTP/") ++ maj ++ [ch(".")] ++ mn.

(** The bytes [l] read so far, in each state. *)
Definition sl_inv (s : sl_state) (r : request) (t : status) (l : list Z) : Prop :=
  match s with
  | sw_start => l = [] /\ count t = 0
  | sw_H => l = str("H") /\ count t = 0
  | sw_HT => l = str("HT") /\ count t = 0
  | sw_HTT => l = str("HTT") /\ count t = 0
  | sw_HTTP => l = str("HTTP") /\ count t = 0
  | sw_first_major_digit => l = str("HTTP/") /\ count t = 0
  | sw_major_digit => exists maj, l = str("HTTP/") ++ maj /\ count t = 0 /\
      major_ok maj = true /\ http_major r = dec_value 0 maj
  | sw_first_minor_digit => exists maj, l = str("HTTP/") ++ maj ++ [ch(".")] /\ count t = 0 /\
      major_ok maj = true
  | sw_minor_digit => exists maj mn, l = version_text maj mn /\ count t = 0 /\
      major_ok maj = true /\ minor_ok mn = true /\ http_minor r = dec_value 0 mn
  | sw_status => exists maj mn cd, l = version_text maj mn ++ [ch(" ")] ++ cd /\
      major_ok maj = true /\ minor_ok mn = true /\ forallb code_char cd = true /\
      count t = Z.of_nat (length (code_digits cd)) /\ count t < 3
  | sw_space_after_status => exists maj mn cd, l = version_text maj mn ++ [ch(" ")] ++ cd /\
      major_ok maj = true /\ minor_ok mn = true /\ code_ok cd = true
  | sw_status_text => exists ln, l = prefix_text ln /\ well_formed ln = true /\ text ln <> []
  | sw_almost_done => exists ln, l = prefix_text ln ++ [CR] /\ well_formed ln = true
  end.

Definition sl_good (l : list Z) (o : s_outcome) : Prop :=
  match o with
  | SNext s r t => sl_inv s r t l
  | SDone r t => exists ln, well_formed ln = true /\ l = render ln
  | SError r t => True
  end.

Lemma digit_of_tests c : (c <? ch("0")) || (ch("9") <? c) = false -> is_digit c = true.
Proof. intros H. rewrite not_digit_test. by rewrite H. Qed.

Lemma digits_snoc l c :
  forallb is_digit l = true -> is_digit c = true -> dec_value 0 l <= 99 ->
  forallb is_digit (l ++ [c]) && (dec_value 0 (l ++ [c]) <=? 999) = true.
Proof.
  intros Hl Hc Hv. digit_hyp Hc. rewrite forallb_app, dec_value_app, Hl. cbn [forallb dec_value].
  rewrite Hc. cbn [andb]. apply Z.leb_le. lia.
Qed.

Lemma major_snoc l c :
  major_ok l = true -> is_digit c = true -> dec_value 0 l <= 99 -> major_ok (l ++ [c]) = true.
Proof.
  destruct l as [|d l]; [done|]. unfold major_ok. intros H Hc Hv. cbn [app].
  apply andb_prop in H as [H _]. apply andb_prop in H as [H Hd].
  rewrite <- andb_assoc, H. by apply (digits_snoc (d :: l)).
Qed.

Lemma minor_snoc l c :
  minor_ok l = true -> is_digit c = true -> dec_value 0 l <= 99 -> minor_ok (l ++ [c]) = true.
Proof.
  destruct l as [|d l]; [done|]. unfold minor_ok. intros H Hc Hv. cbn [app].
  apply andb_prop in H as [Hd _]. by apply (digits_snoc (d :: l)).
Qed.

Lemma wf_line maj mn cd tx cr :
  major_ok maj = true -> minor_ok mn = true -> code_ok cd = true -> text_ok tx = true ->
  well_formed (MkLine maj mn cd tx cr) = true.
Proof. intros H1 H2 H3 H4. unfold well_formed. cbn. by rewrite H1, H2, H3, H4. Qed.

Lemma wf_inv ln :
  well_formed ln = true ->
  major_ok (major ln) = true /\ minor_ok (minor ln) = true /\ code_ok (code_text ln) = true /\
  text_ok (text ln) = true.
Proof. unfold well_formed. intros H. repeat (apply andb_prop in H as [H ?]). done. Qed.

Lemma prefix_text_parts maj mn cd tx cr :
  prefix_text (MkLine maj mn cd tx cr) = version_text maj mn ++ [ch(" ")] ++ cd ++ tx.
Proof. unfold prefix_text, version_text. cbn [major minor code_text text]. by rewrite <- !app_assoc. Qed.

Lemma status_good r t p c l :
  sl_inv sw_status r t l -> sl_good (l ++ [c]) (sst_status r t p c).
Proof.
  intros (maj & mn & cd & -> & H1 & H2 & Hcd & Hn & Hlt). unfold sst_status.
  destruct (Z.eqb_spec c 32) as [->|Hs].
  - exists maj, mn, (cd ++ [32]). rewrite <- !app_assoc, forallb_app, Hcd.
    unfold code_digits in *. rewrite List.filter_app, app_nil_r. done.
  - case_if; [done|]. apply digit_of_tests in E.
    assert (Hcd' : forallb code_char (cd ++ [c]) = true)
      by (rewrite forallb_app, Hcd; cbn; unfold code_char; by rewrite E).
    assert (Hn' : length (code_digits (cd ++ [c])) = S (length (code_digits cd)))
      by (unfold code_digits; rewrite List.filter_app, length_app; cbn [List.filter]; rewrite E; cbn; lia).
    destruct t as [tv tc tn tl ts te]. cbn [count code set_count set_code] in *.
    rewrite (wrap_small 64 (tn + 1)) by (unfold in_u; lia).
    destruct (Z.eqb_spec (tn + 1) 3) as [E3|E3]; exists maj, mn, (cd ++ [c]); rewrite <- !app_assoc.
    + split_and!; try done. unfold code_ok. rewrite Hcd', Hn', List.last_last, E.
      assert (S (length (code_digits cd)) = 3%nat) as -> by lia. done.
    + split_and!; try done; cbn [count]; lia.
Qed.

Lemma text_good s r t c l :
  s = sw_space_after_status \/ s = sw_status_text -> sl_inv s r t l ->
  sl_good (l ++ [c]) (sl_step s r t 0 c).
Proof.
  intros [-> | ->]; cbn [sl_inv sl_step].
  - intros (maj & mn & cd & -> & H1 & H2 & H3). unfold sst_space_after_status.
    assert (Hl : forall x, text_ok x = true ->
      exists ln, well_formed ln = true /\ text ln = x /\ has_cr ln = false /\
        (version_text maj mn ++ [ch(" ")] ++ cd) ++ x = prefix_text ln).
    { intros x Hx. exists (MkLine maj mn cd x false). rewrite prefix_text_parts, <- !app_assoc.
      split_and!; try done. by apply wf_line. }
    destruct (Z.eqb_spec c 32) as [->|]; [|destruct (Z.eqb_spec c 46) as [->|];
      [|destruct (Z.eqb_spec c CR) as [->|]; [|destruct (Z.eqb_spec c LF) as [->|]; [|done]]]].
    1,2: edestruct Hl as (ln & Hw & Ht & _ & E); [|exists ln; split_and!; [exact E|done|by rewrite Ht]]; done.
    all: destruct (Hl [] eq_refl) as (ln & Hw & Ht & Hcr & E); rewrite app_nil_r in E; rewrite E.
    + by exists ln.
    + exists ln. split; [done|]. unfold render, line_end. by rewrite Hcr.
  - intros ([maj mn cd tx cr] & -> & Hw & Ht). apply wf_inv in Hw as (H1 & H2 & H3 & H4).
    cbn [major minor code_text text] in *. unfold sst_status_text.
    destruct (Z.eqb_spec c CR) as [->|Hcr]; [|destruct (Z.eqb_spec c LF) as [->|Hlf]].
    + exists (MkLine maj mn cd tx cr). split; [done|]. by apply wf_line.
    + exists (MkLine maj mn cd tx false). split; [by apply wf_line|].
      unfold render, line_end. by rewrite !prefix_text_parts.
    + exists (MkLine maj mn cd (tx ++ [c]) cr). rewrite !prefix_text_parts, <- !app_assoc.
      split_and!; [done| |by destruct tx]. apply wf_line; try done.
      destruct tx as [|x tx]; [done|]. cbn [app text_ok] in *. apply andb_prop in H4 as [-> H4].
      rewrite forallb_app, H4. cbn [andb forallb]. unfold text_char.
      by rewrite (proj2 (Z.eqb_neq _ _) Hcr), (proj2 (Z.eqb_neq _ _) Hlf).
Qed.

Lemma version_good s r t p c l :
  (s = sw_first_major_digit \/ s = sw_major_digit \/ s = sw_first_minor_digit \/ s = sw_minor_digit) ->
  sl_inv s r t l -> sl_good (l ++ [c]) (sl_step s r t p c).
Proof.
  assert (Em : forall v, http_major (set_http_major v r) = v) by (by destruct r).
  assert (En : forall v, http_minor (set_http_minor v r) = v) by (by destruct r).
  intros [->|[->|[->| ->]]]; cbn [sl_inv sl_step].
  - intros [-> Ht]. unfold sst_first_major_digit. case_if; [done|]. zbool.
    exists [c]. rewrite Em. split_and!; try done. cbn -[Z.leb]. unfold is_digit.
    rewrite (proj2 (Z.eqb_neq c 48)), !(proj2 (Z.leb_le _ _)) by lia. done.
  - intros (maj & -> & Ht & Hm & Hv). unfold sst_major_digit.
    destruct (Z.eqb_spec c 46) as [->|]; [exists maj; by rewrite <- !app_assoc|].
    case_if; [done|]. case_if; [done|]. apply digit_of_tests in E. zbool.
    exists (maj ++ [c]). rewrite Em, dec_value_app, <- app_assoc, Hv. split_and!; try done.
    apply major_snoc; [done..|lia].
  - intros (maj & -> & Ht & Hm). unfold sst_first_minor_digit. case_if; [done|]. zbool.
    exists maj, [c]. rewrite En. unfold version_text. rewrite <- !app_assoc. split_and!; try done.
    cbn -[Z.leb]. unfold is_digit. rewrite !(proj2 (Z.leb_le _ _)) by lia. done.
  - intros (maj & mn & -> & Ht & Hm & Hn & Hv). unfold sst_minor_digit.
    destruct (Z.eqb_spec c 32) as [->|];
      [exists maj, mn, []; rewrite Ht; split_and!; done|].
    case_if; [done|]. case_if; [done|]. apply digit_of_tests in E. zbool.
    exists maj, (mn ++ [c]). rewrite En, dec_value_app, Hv. unfold version_text.
    rewrite <- !app_assoc. split_and!; try done. apply minor_snoc; [done..|lia].
Qed.

Lemma sl_step_good s r t p c l : sl_inv s r t l -> sl_good (l ++ [c]) (sl_step s r t p c).
Proof.
  assert (Hex : forall x s' t', (sl_inv s' r t' (l ++ [x])) -> sl_good (l ++ [c]) (expect_byte x s' r t' c))
    by (intros x s' t' H; unfold expect_byte; destruct (Z.eqb_spec c x) as [->|]; done).
  destruct s; intros H.
  1: { apply Hex. destruct H as [-> H]. by destruct t. }
  1-4: apply Hex; by destruct H as [-> H].
  1-4: apply version_good; tauto.
  - by apply status_good.
  - by apply (text_good sw_space_after_status); [left|].
  - by apply (text_good sw_status_text); [right|].
  - destruct H as ([maj mn cd tx cr] & -> & Hw). cbn [sl_step]. unfold sst_almost_done.
    destruct (Z.eqb_spec c LF) as [->|]; [|done]. exists (MkLine maj mn cd tx true).
    split; [done|]. unfold render, line_end. by rewrite <- app_assoc, !prefix_text_parts.
Qed.

(** Every state can still complete the line. *)
Lemma sl_inv_viable s r t l :
  sl_inv s r t l -> exists ln more, well_formed ln = true /\ render ln = l ++ more /\ more <> [].
Proof.
  assert (Hv : forall maj mn cd tx more, major_ok maj = true -> minor_ok mn = true ->
    code_ok cd = true -> text_ok tx = true ->
    l ++ more = version_text maj mn ++ [ch(" ")] ++ cd ++ tx ++ [LF] -> more <> [] ->
    exists ln more, well_formed ln = true /\ render ln = l ++ more /\ more <> []).
  { intros maj mn cd tx more H1 H2 H3 H4 E Hm. exists (MkLine maj mn cd tx false), more.
    split; [by apply wf_line|]. unfold render. rewrite prefix_text_parts, E.
    by rewrite <- !app_assoc. }
  intros H. destruct s; cbn [sl_inv] in H.
  1-6: destruct H as [-> _]; by eapply (Hv str("1") str("0") str("200") []).
  - destruct H as (maj & -> & _ & Hm & _).
    apply (Hv maj str("0") str("200") [] (str(".0 200") ++ [LF])); try done.
    unfold version_text. by rewrite <- !app_assoc.
  - destruct H as (maj & -> & _ & Hm).
    apply (Hv maj str("0") str("200") [] (str("0 200") ++ [LF])); try done.
    unfold version_text. by rewrite <- !app_assoc.
  - destruct H as (maj & mn & -> & _ & Hm & Hn & _).
    by apply (Hv maj mn str("200") [] (str(" 200") ++ [LF])).
  - destruct H as (maj & mn & cd & -> & Hm & Hn & Hc & E & Hlt).
    set (k := (3 - length (code_digits cd))%nat).
    apply (Hv maj mn (cd ++ replicate k ch("0")) [] (replicate k ch("0") ++ [LF])); try done.
    + assert (Hf : List.filter is_digit (replicate k 48) = replicate k 48)
        by (generalize k; intros n; induction n; cbn; congruence).
      unfold code_ok, code_digits in *. rewrite forallb_app, List.filter_app, length_app, Hc, Hf, length_replicate.
      assert (Hk : exists k', k = S k') by (exists (k - 1)%nat; lia). destruct Hk as [k' Hk].
      replace (length (List.filter is_digit cd) + k)%nat with 3%nat by lia.
      rewrite Hk, replicate_S_end, app_assoc, List.last_last. cbn.
      rewrite forallb_app. assert (forallb code_char (replicate k' 48) = true) as ->; [|done].
      generalize k'. intros n. by induction n.
    + by rewrite <- !app_assoc.
    + by destruct k.
  - destruct H as (maj & mn & cd & -> & Hm & Hn & Hc).
    apply (Hv maj mn cd [] [LF]); try done. by rewrite <- !app_assoc.
  - destruct H as ([maj mn cd tx cr] & -> & Hw & _). apply wf_inv in Hw as (?&?&?&?).
    apply (Hv maj mn cd tx [LF]); try done. by rewrite prefix_text_parts, <- !app_assoc.
  - destruct H as ([maj mn cd tx cr] & -> & Hw). exists (MkLine maj mn cd tx true), [LF].
    split_and!; try done. unfold render. by rewrite !prefix_text_parts, <- !app_assoc.
Qed.

(** ** The loop, and a sequence of calls *)

Lemma sl_loop_inv s0 p0 s r t p l rest :
  sl_inv s r t l ->
  let '(rc, s', r', t', p') := sl_loop s0 p0 s r t p rest in
  (rc = NGX_OK /\ exists ln rest', well_formed ln = true /\ l ++ rest = render ln ++ rest') \/
  (rc = NGX_AGAIN /\ sl_inv s' r' t' (l ++ rest)) \/ rc = NGX_ERROR.
Proof.
  revert s r t p l. induction rest as [|c rest IH]; intros s r t p l H; cbn [sl_loop].
  - right. left. by rewrite app_nil_r.
  - pose proof (sl_step_good s r t p c l H) as Hg. destruct (sl_step s r t p c) as [s' r' t'|r' t'|r' t'].
    + specialize (IH s' r' t' (p + 1) _ Hg). by rewrite <- app_assoc in IH.
    + destruct Hg as (ln & Hw & E). unfold sl_done. left. split; [done|]. exists ln, rest.
      by rewrite <- E, <- app_assoc.
    + tauto.
Qed.

(** Two results that differ at most in what an error leaves behind. *)
Definition same_result (a b : result) : Prop :=
  let '(rc, s, r, t, p) := a in
  let '(rc', s', r', t', p') := b in
  rc = rc' /\ r = r' /\ t = t' /\ (rc <> NGX_ERROR -> s = s' /\ p = p').

Lemma sl_loop_app s0 p0 s r t p l1 l2 :
  let '(rc, s1, r1, t1, p1) := sl_loop s0 p0 s r t p l1 in
  sl_loop s0 p0 s r t p (l1 ++ l2)
  = (if rc =? NGX_AGAIN then sl_loop s0 p0 s1 r1 t1 p1 l2 else (rc, s1, r1, t1, p1)) /\
  (rc = NGX_AGAIN -> p1 = p + Z.of_nat (length l1)) /\
  (rc = NGX_OK -> p1 <= p + Z.of_nat (length l1)).
Proof.
  revert s r t p. induction l1 as [|c l1 IH]; intros s r t p; cbn [app sl_loop].
  - split_and!; [done|cbn; lia|done].
  - destruct (sl_step s r t p c) as [s' r' t'|r' t'|r' t'].
    + specialize (IH s' r' t' (p + 1)). destruct (sl_loop s0 p0 s' r' t' (p + 1) l1) as [[[[rc s1] r1] t1] p1].
      destruct IH as (-> & H1 & H2). cbn [length]. split_and!; [done|intros H..];
        [apply H1 in H|apply H2 in H]; lia.
    + unfold sl_done. split_and!; [done..|]. cbn [length]. lia.
    + by split_and!.
Qed.

Lemma sl_loop_entry s0 p0 s0' p0' s r t p l :
  same_result (sl_loop s0 p0 s r t p l) (sl_loop s0' p0' s r t p l).
Proof.
  revert s r t p. induction l as [|c l IH]; intros s r t p; cbn [sl_loop]; [done|].
  destruct (sl_step s r t p c); [done|by unfold sl_done|done].
Qed.

(** The calls of a caller that repeats the parse as the end of the buffer moves
    to each of [lasts], as long as the parser asks for more. *)
Fixpoint status_line_reads (buf : list Z) (s : sl_state) (r : request) (t : status) (pos : Z)
    (lasts : list Z) : result :=
  match lasts with
  | [] => (NGX_AGAIN, s, r, t, pos)
  | last :: lasts' =>
      let '(rc, s', r', t', pos') := ngx_http_parse_status_line buf s r t pos last in
      if rc =? NGX_AGAIN then status_line_reads buf s' r' t' pos' lasts'
      else (rc, s', r', t', pos')
  end.

Fixpoint growing (p : Z) (l : list Z) : Prop :=
  match l with
  | [] => True
  | x :: l' => p <= x /\ growing x l'
  end.

Definition slice (buf : list Z) (a b : Z) : list Z := drop (Z.to_nat a) (take (Z.to_nat b) buf).

Lemma slice_split (buf : list Z) a b c :
  0 <= a <= b -> b <= c -> c <= Z.of_nat (length buf) ->
  slice buf a c = slice buf a b ++ slice buf b c /\ length (slice buf a b) = Z.to_nat (b - a).
Proof.
  intros Hab Hbc Hc. unfold slice. split.
  - rewrite <- (take_drop (Z.to_nat b) (take (Z.to_nat c) buf)) at 1. rewrite take_take, Nat.min_l by lia.
    by rewrite drop_app_le by (rewrite length_take; lia).
  - rewrite length_drop, length_take. lia.
Qed.

Lemma last_cons_default (x : Z) l p : List.last (x :: l) p = List.last l x.
Proof.
  revert x p. induction l as [|y l IH]; intros x p; [done|].
  change (List.last (x :: y :: l) p) with (List.last (y :: l) p). by rewrite !IH.
Qed.

Lemma growing_last p l : growing p l -> p <= List.last l p.
Proof.
  revert p. induction l as [|x l IH]; intros p H; [cbn; lia|]. destruct H as [H1 H2].
  apply IH in H2. rewrite last_cons_default. lia.
Qed.

Lemma reads_loop buf s0 p0 s r t pos lasts :
  0 <= pos -> growing pos lasts -> List.last lasts pos <= Z.of_nat (length buf) ->
  same_result (status_line_reads buf s r t pos lasts)
    (sl_loop s0 p0 s r t pos (slice buf pos (List.last lasts pos))).
Proof.
  revert s r t pos. induction lasts as [|x lasts IH]; intros s r t pos H0 Hg Hl.
  - cbn. destruct (slice_split buf pos pos pos ltac:(lia) ltac:(lia) Hl) as [_ Hs].
    rewrite Z.sub_diag in Hs. by apply length_zero_iff_nil in Hs as ->.
  - rewrite last_cons_default in *. destruct Hg as [Hx Hg]. pose proof (growing_last x lasts Hg) as Hge.
    destruct (slice_split buf pos x (List.last lasts x) ltac:(lia) Hge Hl) as [-> Hlen].
    cbn [status_line_reads]. unfold ngx_http_parse_status_line. fold (slice buf pos x).
    pose proof (sl_loop_entry s pos s0 p0 s r t pos (slice buf pos x)) as He.
    pose proof (sl_loop_app s0 p0 s r t pos (slice buf pos x) (slice buf x (List.last lasts x))) as Ha.
    destruct (sl_loop s pos s r t pos (slice buf pos x)) as [[[[rc s1] r1] t1] p1].
    destruct (sl_loop s0 p0 s r t pos (slice buf pos x)) as [[[[rc' s2] r2] t2] p2].
    destruct He as (<- & <- & <- & He). destruct Ha as (-> & Hp & _).
    destruct (Z.eqb_spec rc NGX_AGAIN) as [->|Hrc]; [|done].
    destruct (He ltac:(done)) as [<- <-]. rewrite Hlen in Hp. rewrite Hp by done.
    replace (pos + Z.of_nat (Z.to_nat (x - pos))) with x by lia. apply IH; [lia|done|lia].
Qed.

(** C8. However the bytes of a response arrive, ngx_http_parse_status_line
    accepts exactly the inputs that begin with a status line: "HTTP/", a major
    and a minor version of up to three significant digits, a code of three digits, an optional text
    after a space or a dot, and LF or CR LF.  It then reports the version, the
    code, where the line, the last three bytes of the code and the end of the text are, and consumes
    exactly the line.  It asks for more bytes exactly when the input is the
    beginning of such a line, so an error is reported with the first byte that
    cannot be continued. *)
Theorem status_line_correct (buf : list Z) (r : request) (pos : Z) (lasts : list Z)
    (Hpos : 0 <= pos) (Hg : growing pos lasts) (Hl : List.last lasts pos <= Z.of_nat (length buf)) :
  let input := slice buf pos (List.last lasts pos) in
  let '(rc, s', r', t', pos') := status_line_reads buf sw_start r new_status pos lasts in
  (forall ln rest, well_formed ln = true -> input = render ln ++ rest ->
     rc = NGX_OK /\ r' = line_request ln r /\ t' = line_status ln pos /\
     pos' = pos + Z.of_nat (length (render ln))) /\
  (rc = NGX_OK -> exists ln rest, well_formed ln = true /\ input = render ln ++ rest) /\
  (rc = NGX_AGAIN <->
     exists ln more, well_formed ln = true /\ render ln = input ++ more /\ more <> []) /\
  (rc = NGX_OK \/ rc = NGX_AGAIN \/ rc = NGX_ERROR).
Proof.
  cbv zeta. pose proof (reads_loop buf sw_start pos sw_start r new_status pos lasts Hpos Hg Hl) as Hs.
  set (input := slice buf pos (List.last lasts pos)) in *.
  pose proof (sl_loop_inv sw_start pos sw_start r new_status pos [] input ltac:(done)) as Hi.
  destruct (status_line_reads buf sw_start r new_status pos lasts) as [[[[rc s1] r1] t1] p1].
  assert (Hc : forall ln rest more, well_formed ln = true -> input ++ more = render ln ++ rest ->
    sl_loop sw_start pos sw_start r new_status pos (input ++ more)
    = (NGX_OK, sw_start, line_request ln r, line_status ln pos, pos + Z.of_nat (length (render ln))))
    by (intros ln rest more Hw ->; by apply loop_complete).
  destruct (sl_loop sw_start pos sw_start r new_status pos input) as [[[[rc' s2] r2] t2] p2] eqn:E.
  destruct Hs as (<- & <- & <- & Hs). cbn [app] in Hi. split_and!.
  - intros ln rest Hw Ei. specialize (Hc ln rest [] Hw). rewrite app_nil_r in Hc.
    specialize (Hc Ei). rewrite E in Hc. simplify_eq. destruct Hs as [_ ->]; done.
  - intros ->. destruct Hi as [[_ Hi]|[[? _]|?]]; done.
  - split.
    + intros ->. destruct Hi as [[? _]|[[_ Hi]|?]]; try done. by eapply sl_inv_viable.
    + intros (ln & more & Hw & Er & Hm). specialize (Hc ln [] more Hw).
      rewrite app_nil_r in Hc. specialize (Hc (eq_sym Er)).
      pose proof (sl_loop_app sw_start pos sw_start r new_status pos input more) as Ha.
      rewrite E, Hc in Ha. destruct Ha as (Ha & _ & Hle).
      destruct (Z.eqb_spec rc NGX_AGAIN); [done|]. simplify_eq. specialize (Hle eq_refl).
      rewrite Er, length_app in Hle. destruct more; [done|]. cbn in Hle. lia.
  - destruct Hi as [[? _]|[[? _]|?]]; tauto.
Qed.

Lemma status_line_correct_witness :
  let buf := str("HTTP/1.1 404 Not Found") ++ [CR; LF] in
  let '(rc, _, _, t, pos) := status_line_reads buf sw_start new_request new_status 0 [3; 11; 24] in
  rc = NGX_OK /\ t = MkStatus 1001 404 3 (Some 0) (Some 9) (Some 22) /\ pos = 24.
Proof.
  cbv zeta.
  pose proof (status_line_correct (str("HTTP/1.1 404 Not Found") ++ [CR; LF]) new_request 0 [3; 11; 24]
    ltac:(lia) ltac:(cbn; lia) ltac:(cbn; lia)) as H.
  cbv zeta in H. revert H.
  destruct (status_line_reads _ _ _ _ _ _) as [[[[rc s'] r'] t'] p']. intros (H & _).
  destruct (H (MkLine str("1") str("1") str("404") str(" Not Found") true) [] eq_refl eq_refl)
    as (-> & _ & -> & ->). done.
Defined.

End StatusLine.
