(* ===== verification/HttpUri.v ===== *)
(** * URIs from other places than the request line: ngx_http_parse_uri,
    ngx_http_parse_unsafe_uri and ngx_http_split_args of src/http/ngx_http_parse.c

    [ngx_http_parse_uri] examines the path of an HTTP/2 request,
    [ngx_http_parse_unsafe_uri] the target of an internal redirection, an SSI
    include or a DAV copy.  A pointer into the URI is an offset in the first, and
    the list of the bytes from it on in the others. *)

From S2P Require Import Prelude HttpRequestLine Escape.

Module Uri.

(** ** ngx_http_parse_uri *)

Inductive pu_state := pu_start | pu_after_slash_in_uri | pu_check_uri | pu_uri.

(** One byte: the next state and request, or [return NGX_ERROR] with the request
    as it is then. *)
Definition pu_bad (c : Z) : bool := (c <=? 0x20) || (c =? 0x7f).

(** check "/.", "//", "%" in URI *)
Definition pst_after_slash_in_uri (r : request) (p c : Z) : option (pu_state * request) :=
  if is_usual c then Some (pu_check_uri, r)
  else if c =? ch(".") then Some (pu_uri, set_complex_uri true r)
  else if c =? ch("%") then Some (pu_uri, set_quoted_uri true r)
  else if c =? ch("/") then Some (pu_uri, set_complex_uri true r)
  else if c =? ch("?") then Some (pu_uri, set_args_start (Some (p + 1)) r)
  else if c =? ch("#") then Some (pu_uri, set_complex_uri true r)
  else if c =? ch("+") then Some (pu_after_slash_in_uri, set_plus_in_uri true r)
  else if pu_bad c then None
  else Some (pu_check_uri, r).

(** check "/", "%" in URI *)
Definition pst_check_uri (r : request) (p c : Z) : option (pu_state * request) :=
  if is_usual c then Some (pu_check_uri, r)
  else if c =? ch("/") then Some (pu_after_slash_in_uri, set_uri_ext None r)
  else if c =? ch(".") then Some (pu_check_uri, set_uri_ext (Some (p + 1)) r)
  else if c =? ch("%") then Some (pu_uri, set_quoted_uri true r)
  else if c =? ch("?") then Some (pu_uri, set_args_start (Some (p + 1)) r)
  else if c =? ch("#") then Some (pu_uri, set_complex_uri true r)
  else if c =? ch("+") then Some (pu_check_uri, set_plus_in_uri true r)
  else if pu_bad c then None
  else Some (pu_check_uri, r).

(** URI *)
Definition pst_uri (r : request) (c : Z) : option (pu_state * request) :=
  if is_usual c then Some (pu_uri, r)
  else if c =? ch("#") then Some (pu_uri, set_complex_uri true r)
  else if pu_bad c then None
  else Some (pu_uri, r).

Definition pu_step (s : pu_state) (r : request) (p c : Z) : option (pu_state * request) :=
  match s with
  | pu_start => if negb (c =? ch("/")) then None else Some (pu_after_slash_in_uri, r)
  | pu_after_slash_in_uri => pst_after_slash_in_uri r p c
  | pu_check_uri => pst_check_uri r p c
  | pu_uri => pst_uri r c
  end.

Fixpoint pu_loop (s : pu_state) (r : request) (p : Z) (rest : list Z) : Z * request :=
  match rest with
  | [] => (NGX_OK, r)
  | c :: rest' =>
      match pu_step s r p c with
      | Some (s', r') => pu_loop s' r' (p + 1) rest'
      | None => (NGX_ERROR, r)
      end
  end.

(** The URI is at [r->uri_start .. r->uri_end] of [buf]. *)
Definition ngx_http_parse_uri (buf : list Z) (r : request) : Z * request :=
  let us := default 0 (uri_start r) in
  let ue := default 0 (uri_end r) in
  pu_loop pu_start r us (drop (Z.to_nat us) (take (Z.to_nat ue) buf)).

(** ** ngx_http_split_args *)

(** ngx_strlchr: the bytes from the first [c] on. *)
Fixpoint ngx_strlchr (l : list Z) (c : Z) : option (list Z) :=
  match l with
  | [] => None
  | x :: l' => if x =? c then Some l else ngx_strlchr l' c
  end.

(** The new [uri] and [args]. *)
Definition ngx_http_split_args (uri : list Z) : list Z * list Z :=
  match ngx_strlchr uri ch("?") with
  | Some p => (take (length uri - length p) uri, drop 1 p)
  | None => (uri, [])
  end.

(** ** ngx_http_parse_unsafe_uri *)

Definition ngx_path_separator (c : Z) : bool := c =? ch("/").

(** The test at the start of both passes: ".." or "../". *)
Definition starts_dotdot (p : list Z) : bool :=
  (arr 0 p 0 =? ch(".")) && (1 <? length p)%nat && (arr 0 p 1 =? ch("."))
  && ((length p =? 2)%nat || ngx_path_separator (arr 0 p 2)).

(** The test inside both loops, after [ch = *p++], with [len] as it was before:
    "/../" or "/..". *)
Definition slash_dotdot (c : Z) (p : list Z) (len : nat) : bool :=
  ngx_path_separator c && (2 <? len)%nat && (arr 0 p 0 =? ch(".")) && (arr 0 p 1 =? ch("."))
  && ((len =? 3)%nat || ngx_path_separator (arr 0 p 2)).

(** How the first loop ends. *)
Inductive scan_end :=
| Unsafe
| ScanEnd (quoted : bool)
| ScanArgs (quoted : bool) (args : list Z) (len : nat).

Fixpoint unsafe_loop (quoted : bool) (l : list Z) : scan_end :=
  match l with
  | [] => ScanEnd quoted
  | c :: p =>
      if c =? ch("%") then unsafe_loop true p
      else if is_usual c then unsafe_loop quoted p
      else if c =? ch("?") then ScanArgs quoted p (length l)
      else if c =? 0 then Unsafe
      else if slash_dotdot c p (length l) then Unsafe
      else unsafe_loop quoted p
  end.

(** The loop over the decoded URI; true is [goto unsafe]. *)
Fixpoint decoded_loop (l : list Z) : bool :=
  match l with
  | [] => false
  | c :: p =>
      if c =? 0 then true
      else if slash_dotdot c p (length l) then true
      else decoded_loop p
  end.

Section UnsafeUri.
(** Whether ngx_pnalloc gives memory. *)
Context (memory : bool).

(** [if (quoted) ...] *)
Definition unsafe_quoted (quoted : bool) (uri args : list Z) : Z * list Z * list Z :=
  if quoted then
    if negb memory then (NGX_ERROR, uri, args)
    else
      let uri := fst (ngx_unescape_uri 0 uri) in
      if starts_dotdot uri then (NGX_ERROR, uri, args)
      else if decoded_loop uri then (NGX_ERROR, uri, args)
      else (NGX_OK, uri, args)
  else (NGX_OK, uri, args).

(** The return code and the new [uri] and [args]. *)
Definition ngx_http_parse_unsafe_uri (uri args : list Z) : Z * list Z * list Z :=
  if (length uri =? 0)%nat || (arr 0 uri 0 =? ch("?")) then (NGX_ERROR, uri, args)
  else if starts_dotdot uri then (NGX_ERROR, uri, args)
  else
    match unsafe_loop false uri with
    | Unsafe => (NGX_ERROR, uri, args)
    | ScanEnd quoted => unsafe_quoted quoted uri args
    | ScanArgs quoted args' len => unsafe_quoted quoted (take (length uri - len) uri) args'
    end.

End UnsafeUri.

Example unsafe_plain : ngx_http_parse_unsafe_uri true str("/a%2Fb?x=1") []
  = (NGX_OK, str("/a/b"), str("x=1")).
Proof. vm_compute. reflexivity. Qed.

(** A parent reference in front of the arguments is not detected, nor are an empty
    path and a question mark that appear by decoding. *)
Example unsafe_gap :
  ngx_http_parse_unsafe_uri true str("/..?x") [] = (NGX_OK, str("/.."), str("x")) /\
  ngx_http_parse_unsafe_uri true str("..?x") [] = (NGX_OK, str(".."), str("x")) /\
  ngx_http_parse_unsafe_uri true str("%") [] = (NGX_OK, [], []) /\
  ngx_http_parse_unsafe_uri true str("%3Fx") [] = (NGX_OK, str("?x"), []).
Proof. vm_compute. done. Qed.

(** ** Segments *)

Fixpoint split_on (sep : Z) (l : list Z) : list (list Z) :=
  match l with
  | [] => [[]]
  | c :: l' =>
      if c =? sep then [] :: split_on sep l'
      else match split_on sep l' with
           | s :: ss => (c :: s) :: ss
           | [] => [[c]]
           end
  end.

Definition dotdot : list Z := str("..").

Lemma split_on_cons sep l : exists s ss, split_on sep l = s :: ss.
Proof.
  induction l as [|c l (s & ss & E)]; cbn; [eauto|]. rewrite E. case_if; eauto.
Qed.

(** The path in front of the first question mark, and the rest. *)
Fixpoint path_of (l : list Z) : list Z :=
  match l with
  | [] => []
  | c :: l' => if c =? ch("?") then [] else c :: path_of l'
  end.

(** The segments that are followed by a slash or by the end of the whole URI. *)
Fixpoint closed_segments (l : list Z) : list (list Z) :=
  match l with
  | [] => [[]]
  | c :: l' =>
      if c =? ch("?") then []
      else if c =? ch("/") then [] :: closed_segments l'
      else match closed_segments l' with
           | s :: ss => (c :: s) :: ss
           | [] => []
           end
  end.

Lemma closed_segments_spec l :
  closed_segments l
  = if bool_decide (ch("?") ∈ l) then removelast (split_on ch("/") (path_of l))
    else split_on ch("/") (path_of l).
Proof.
  induction l as [|c l IH]; [done|]. cbn [closed_segments path_of].
  destruct (Z.eqb_spec c 63) as [->|Hq].
  - by rewrite bool_decide_eq_true_2 by (apply elem_of_cons; auto).
  - rewrite (bool_decide_ext (63 ∈ c :: l) (63 ∈ l)) by (rewrite elem_of_cons; naive_solver).
    cbn [split_on]. rewrite IH. destruct (split_on_cons 47 (path_of l)) as (s & ss & E). rewrite E.
    destruct (Z.eqb_spec c 47) as [->|Hs], (bool_decide (63 ∈ l)); try done.
    destruct ss; done.
Qed.

(** The first segment is [..]: the test at the start. *)
Ltac dotdot_cases :=
  unfold starts_dotdot, ngx_path_separator, dotdot, arr;
  change (Z.to_nat 0) with 0%nat; change (Z.to_nat 1) with 1%nat; change (Z.to_nat 2) with 2%nat.

Lemma starts_dotdot_closed l :
  starts_dotdot l = true <-> exists ss, closed_segments l = dotdot :: ss.
Proof.
  dotdot_cases. destruct l as [|a [|b [|c l]]]; cbn; rewrite ?andb_false_r, ?andb_true_r; split.
  1,3: done.
  3,5: intros H; zbool; subst; cbn; by eexists.
  all: intros [ss H]; try done.
  3: destruct (closed_segments l).
  all: repeat case_if_in H; by simplify_eq/=.
Qed.

Lemma starts_dotdot_split l :
  starts_dotdot l = true <-> exists ss, split_on ch("/") l = dotdot :: ss.
Proof.
  dotdot_cases. destruct l as [|a [|b [|c l]]]; cbn; rewrite ?andb_false_r, ?andb_true_r; split.
  1,3: done.
  3,5: intros H; zbool; subst; cbn; by eexists.
  all: intros [ss H]; try done.
  3: destruct (split_on 47 l).
  all: repeat case_if_in H; by simplify_eq/=.
Qed.

Lemma closed_no_args l : ch("?") ∉ l -> closed_segments l = split_on ch("/") l.
Proof.
  intros H. rewrite closed_segments_spec, bool_decide_eq_false_2 by done. f_equal.
  induction l as [|c l IH]; [done|]. apply not_elem_of_cons in H as [H1 H2]. cbn.
  rewrite (proj2 (Z.eqb_neq c 63)) by done. by rewrite IH.
Qed.

Lemma slash_dotdot_spec c p : slash_dotdot c p (S (length p)) = (c =? ch("/")) && starts_dotdot p.
Proof.
  unfold slash_dotdot, starts_dotdot, ngx_path_separator.
  destruct (c =? 47); [|done]. cbn [andb].
  change (2 <? S (length p))%nat with (1 <? length p)%nat.
  change (S (length p) =? 3)%nat with (length p =? 2)%nat.
  destruct (1 <? length p)%nat; cbn [andb]; [by rewrite andb_true_r|by rewrite andb_false_r].
Qed.

(** The test at a slash looks for [..] among the segments after the first. *)
Lemma elem_of_segments (x : list Z) (l : list (list Z)) :
  x ∈ l <-> (exists ss, l = x :: ss) \/ x ∈ tail l.
Proof.
  destruct l as [|s ss]; cbn [tail].
  - split; [by intros ?%elem_of_nil|]. intros [[ss ?]|?%elem_of_nil]; done.
  - rewrite elem_of_cons. split; [intros [->|?]; eauto|]. intros [[ss' ?]|?]; [simplify_eq|]; auto.
Qed.

Lemma tail_closed c p :
  c <> ch("?") ->
  dotdot ∈ tail (closed_segments (c :: p)) <->
  (c =? ch("/")) && starts_dotdot p = true \/ dotdot ∈ tail (closed_segments p).
Proof.
  intros Hq. cbn [closed_segments]. rewrite (proj2 (Z.eqb_neq c 63)) by done.
  destruct (Z.eqb_spec c 47) as [->|Hc]; cbn [andb].
  - rewrite starts_dotdot_closed. apply elem_of_segments.
  - destruct (closed_segments p) as [|s ss]; cbn [tail]; naive_solver.
Qed.

Lemma tail_split c p :
  dotdot ∈ tail (split_on ch("/") (c :: p)) <->
  (c =? ch("/")) && starts_dotdot p = true \/ dotdot ∈ tail (split_on ch("/") p).
Proof.
  cbn [split_on]. destruct (Z.eqb_spec c 47) as [->|Hc]; cbn [andb].
  - rewrite starts_dotdot_split. apply elem_of_segments.
  - destruct (split_on_cons 47 p) as (s & ss & ->). cbn [tail]. naive_solver.
Qed.

(** What a pass finds wrong with a path, and how it ends. *)
Definition path_bad (l : list Z) : Prop :=
  0 ∈ path_of l \/ dotdot ∈ tail (closed_segments l).

Definition scan_ok (q : bool) (l : list Z) (x : scan_end) : Prop :=
  match x with
  | Unsafe => path_bad l
  | ScanEnd q' => ch("?") ∉ l /\ path_of l = l /\ ~ path_bad l /\
      q' = q || bool_decide (ch("%") ∈ path_of l)
  | ScanArgs q' args len => l = path_of l ++ ch("?") :: args /\ len = S (length args) /\
      ~ path_bad l /\ q' = q || bool_decide (ch("%") ∈ path_of l)
  end.

(** A byte that is not at fault. *)
Lemma scan_ok_cons q c p x :
  c <> ch("?") -> c <> 0 -> (c =? ch("/")) && starts_dotdot p = false ->
  scan_ok (q || (c =? ch("%"))) p x -> scan_ok q (c :: p) x.
Proof.
  intros Hq Hz Hd. pose proof (tail_closed c p Hq) as Ht. rewrite Hd in Ht.
  assert (Ep : path_of (c :: p) = c :: path_of p) by (cbn; by rewrite (proj2 (Z.eqb_neq c 63))).
  assert (Eq : forall b, b = q || (c =? 37) || bool_decide (37 ∈ path_of p) ->
    b = q || bool_decide (37 ∈ c :: path_of p)).
  { intros b ->. rewrite <- orb_assoc. f_equal. destruct (Z.eqb_spec c 37) as [->|]; cbn.
    - symmetry. apply bool_decide_eq_true_2, elem_of_cons; auto.
    - apply bool_decide_ext. rewrite elem_of_cons. naive_solver. }
  assert (Hb : path_bad (c :: p) <-> path_bad p).
  { unfold path_bad. rewrite Ep, Ht, elem_of_cons. naive_solver. }
  destruct x; cbn [scan_ok]; rewrite ?Hb, ?Ep.
  - done.
  - intros (H1 & E & H2 & H3). rewrite not_elem_of_cons. split_and!; try done; [congruence|by apply Eq].
  - intros (E & H1 & H2 & H3). split_and!; try done; [|by apply Eq]. rewrite E at 1. done.
Qed.

Lemma scan_spec q l : scan_ok q l (unsafe_loop q l).
Proof.
  revert q. induction l as [|c p IH]; intros q; cbn [unsafe_loop].
  - split_and!; [apply not_elem_of_nil|done| |by rewrite orb_false_r].
    intros [?%elem_of_nil|?%elem_of_nil]; done.
  - specialize (IH (q || (c =? 37))).
    destruct (Z.eqb_spec c 37) as [->|H37].
    { rewrite orb_true_r in IH. apply scan_ok_cons; try done. by rewrite orb_true_r. }
    rewrite orb_false_r in IH. cbn [length]. rewrite slash_dotdot_spec.
    assert (Hok : c <> 63 -> c <> 0 -> (c =? 47) && starts_dotdot p = false ->
      scan_ok q (c :: p) (unsafe_loop q p))
      by (intros; apply scan_ok_cons; [done..|]; by rewrite (proj2 (Z.eqb_neq c 37)), orb_false_r).
    destruct (is_usual c) eqn:Eu.
    { assert (c <> 63 /\ c <> 0 /\ c <> 47) as (H1 & H2 & H3)
        by (split_and!; intros ->; vm_compute in Eu; done).
      apply Hok; try done. by rewrite (proj2 (Z.eqb_neq c 47)). }
    destruct (Z.eqb_spec c 63) as [->|H63].
    { cbn. split_and!; [done|done| |by rewrite orb_false_r].
      intros [?%elem_of_nil|?%elem_of_nil]; done. }
    assert (Ep : path_of (c :: p) = c :: path_of p) by (cbn; by rewrite (proj2 (Z.eqb_neq c 63))).
    destruct (Z.eqb_spec c 0) as [->|H0]; [left; rewrite Ep; apply elem_of_cons; auto|].
    case_if; [|by apply Hok].
    right. apply tail_closed; [done|]. by left.
Qed.

Lemma decoded_loop_spec l :
  decoded_loop l = true <-> 0 ∈ l \/ dotdot ∈ tail (split_on ch("/") l).
Proof.
  induction l as [|c p IH]; cbn [decoded_loop].
  - split; [done|]. intros [?%elem_of_nil|?%elem_of_nil]; done.
  - cbn [length]. rewrite slash_dotdot_spec, elem_of_cons, tail_split.
    destruct (Z.eqb_spec c 0) as [->|H0]; [split; auto|].
    case_if; [split; auto|]. rewrite IH. naive_solver.
Qed.

(** The decoded path is clean. *)
Lemma decoded_spec l :
  starts_dotdot l || decoded_loop l = false <-> 0 ∉ l /\ dotdot ∉ split_on ch("/") l.
Proof.
  rewrite (elem_of_segments dotdot), <- starts_dotdot_split.
  pose proof (decoded_loop_spec l). destruct (starts_dotdot l), (decoded_loop l); cbn; naive_solver.
Qed.

Lemma split_args_correct l :
  ngx_http_split_args l = (path_of l, drop (S (length (path_of l))) l).
Proof.
  unfold ngx_http_split_args.
  assert (H : match ngx_strlchr l 63 with
    | Some p => exists a, p = 63 :: a /\ l = path_of l ++ p | None => path_of l = l end).
  { induction l as [|c l IH]; cbn; [done|]. destruct (Z.eqb_spec c 63) as [->|]; [by exists l|].
    destruct (ngx_strlchr l 63); [destruct IH as (a & ? & ?); exists a; split; [done|]; cbn; congruence|congruence]. }
  destruct (ngx_strlchr l 63) as [p|].
  - destruct H as (a & -> & E). revert E. generalize (path_of l). intros x ->. cbn [drop].
    rewrite length_app, Nat.add_sub, take_app_length. f_equal. by induction x.
  - rewrite H. by rewrite drop_ge by lia.
Qed.

Lemma take_path l args :
  l = path_of l ++ ch("?") :: args ->
  take (length l - S (length args)) l = path_of l /\ ch("?") ∈ l /\
  drop (S (length (path_of l))) l = args.
Proof.
  generalize (path_of l). intros x ->. split_and!.
  - rewrite length_app. cbn [length].
    replace (length x + S (length args) - S (length args))%nat with (length x) by lia.
    apply take_app_length.
  - apply elem_of_app. right. apply elem_of_cons. auto.
  - by induction x.
Qed.

(** The second pass, over a path that the first has found clean. *)
Lemma quoted_spec memory quoted path (args : list Z) :
  let d := fst (ngx_unescape_uri 0 path) in
  let '(rc, uri', args') := unsafe_quoted memory quoted path args in
  args' = args /\ (rc = NGX_OK \/ rc = NGX_ERROR) /\
  (rc = NGX_OK <-> (quoted = true -> memory = true /\ 0 ∉ d /\ dotdot ∉ split_on ch("/") d)) /\
  (rc = NGX_OK -> uri' = if quoted then d else path).
Proof.
  cbv zeta. unfold unsafe_quoted. destruct quoted; [|naive_solver].
  destruct memory; cbn [negb]; [|naive_solver].
  set (d := fst (ngx_unescape_uri 0 path)). pose proof (decoded_spec d) as Hd.
  destruct (starts_dotdot d || decoded_loop d) eqn:Eb.
  - assert ((if starts_dotdot d then (NGX_ERROR, d, args)
      else if decoded_loop d then (NGX_ERROR, d, args) else (NGX_OK, d, args)) = (NGX_ERROR, d, args)) as ->
      by (destruct (starts_dotdot d); [done|]; cbn in Eb; by rewrite Eb).
    split_and!; [done|tauto| |done]. split; [done|]. intros H.
    destruct (H eq_refl) as (_ & H1). by apply Hd in H1.
  - apply orb_false_elim in Eb as [-> ->]. destruct (proj1 Hd eq_refl) as [H1 H2].
    by split_and!; [|left| |].
Qed.

(** C6. ngx_http_parse_unsafe_uri accepts a URI exactly if it is not empty, does
    not begin with a question mark, its path holds no NUL byte and no segment
    [..] that a slash or the end of the URI follows, and, if the path has a
    percent sign, memory is there and the decoded path holds no NUL byte and no
    segment [..] at all.  The result is the decoded path and, behind the first
    question mark, the arguments.  So an accepted path has no NUL byte, and it
    has no segment [..] either if it was decoded or had no arguments. *)
Theorem unsafe_uri_correct (memory : bool) (uri args : list Z) :
  let path := path_of uri in
  let decoded := fst (ngx_unescape_uri 0 path) in
  let quoted := bool_decide (ch("%") ∈ path) in
  let has_args := bool_decide (ch("?") ∈ uri) in
  let '(rc, uri', args') := ngx_http_parse_unsafe_uri memory uri args in
  (rc = NGX_OK \/ rc = NGX_ERROR) /\
  (rc = NGX_OK <->
     path <> [] /\ 0 ∉ path /\
     dotdot ∉ (if has_args then removelast (split_on ch("/") path) else split_on ch("/") path) /\
     (quoted = true -> memory = true /\ 0 ∉ decoded /\ dotdot ∉ split_on ch("/") decoded)) /\
  (rc = NGX_OK ->
     uri' = (if quoted then decoded else path) /\
     args' = (if has_args then drop (S (length path)) uri else args) /\
     0 ∉ uri' /\ (quoted = true \/ has_args = false -> dotdot ∉ split_on ch("/") uri')).
Proof.
  cbv zeta. set (path := path_of uri). set (quoted := bool_decide (37 ∈ path)).
  rewrite <- closed_segments_spec. unfold ngx_http_parse_unsafe_uri.
  assert (Hne : (length uri =? 0)%nat || (arr 0 uri 0 =? 63) = bool_decide (path = [])).
  { unfold path. destruct uri as [|c l]; [done|].
    change (arr 0 (c :: l) 0) with c. cbn [length Nat.eqb orb path_of].
    destruct (c =? 63); symmetry; [by apply bool_decide_eq_true|by apply bool_decide_eq_false]. }
  rewrite Hne. case_bool_decide as Ep.
  { split_and!; [tauto| |done]. split; [done|]. by intros [? _]. }
  pose proof (elem_of_segments dotdot (closed_segments uri)) as Hseg. rewrite <- starts_dotdot_closed in Hseg.
  destruct (starts_dotdot uri).
  { split_and!; [tauto| |done]. split; [done|]. intros (_ & _ & H & _). naive_solver. }
  pose proof (scan_spec false uri) as Hs. unfold path_bad in Hs. fold path in Hs.
  assert (Hc : ~ (0 ∈ path \/ dotdot ∈ tail (closed_segments uri)) <-> 0 ∉ path /\ dotdot ∉ closed_segments uri)
    by (rewrite Hseg; split; [intros H; split; [tauto|intros [?|?]; [done|tauto]]|tauto]).
  destruct (unsafe_loop false uri) as [|q'|q' args' len]; cbn [scan_ok orb] in Hs.
  { split_and!; [tauto| |done]. split; [done|]. intros (_ & H1 & H2 & _). tauto. }
  - destruct Hs as (Hn & Hp & Hb & ->). fold path in Hp. fold path. fold quoted.
    replace (unsafe_quoted memory quoted uri args) with (unsafe_quoted memory quoted path args)
      by (by rewrite Hp).
    pose proof (quoted_spec memory quoted path args) as Hq. cbv zeta in Hq.
    destruct (unsafe_quoted memory quoted path args) as [[rc uri'] args1].
    rewrite (bool_decide_eq_false_2 (63 ∈ uri)) by done. apply Hc in Hb as [Hb1 Hb2].
    destruct Hq as (-> & H1 & H2 & H3). split_and!; [done|rewrite H2; tauto|].
    intros Hrc. rewrite (H3 Hrc). pose proof (proj1 H2 Hrc) as Hd. rewrite closed_no_args in Hb2 by done.
    destruct quoted; [destruct (Hd eq_refl) as (_ & ? & ?)|rewrite <- Hp in Hb2]; done.
  - destruct Hs as (E & -> & Hb & ->).
    destruct (take_path uri args' E) as (-> & Hin & Hdrop). fold path in Hdrop. fold path. fold quoted.
    pose proof (quoted_spec memory quoted path args') as Hq. cbv zeta in Hq.
    destruct (unsafe_quoted memory quoted path args') as [[rc uri'] args1].
    rewrite (bool_decide_eq_true_2 (63 ∈ uri)) by done. rewrite Hdrop. apply Hc in Hb as [Hb1 Hb2].
    destruct Hq as (-> & H1 & H2 & H3). split_and!; [done|rewrite H2; tauto|].
    intros Hrc. rewrite (H3 Hrc). pose proof (proj1 H2 Hrc) as Hd.
    destruct quoted; [destruct (Hd eq_refl) as (_ & ? & ?); done|]. split_and!; try done. by intros [?|?].
Qed.

(** ** The URI of an HTTP/2 request and of a request line *)

(** The state of the request line parser in the same place. *)
Definition rl_of (s : pu_state) : rl_state :=
  match s with
  | pu_start => sw_spaces_before_uri
  | pu_after_slash_in_uri => sw_after_slash_in_uri
  | pu_check_uri => sw_check_uri
  | pu_uri => sw_uri
  end.

Lemma pu_step_bad s r p c : is_byte c -> is_uri_char c = false -> pu_step s r p c = None.
Proof.
  intros Hb Hc. destruct (is_usual c) eqn:Eu; [by rewrite usual_is_uri_char in Hc|].
  assert (Hn : forall x, is_uri_char x = true -> (c =? x) = false)
    by (intros x Hx; apply Z.eqb_neq; congruence).
  assert (Hbad : pu_bad c = true).
  { unfold pu_bad. unfold is_uri_char in Hc. destruct (Z.leb_spec c 32); [done|].
    rewrite (proj2 (Z.ltb_lt 32 c)) in Hc by lia. by destruct (c =? 127). }
  destruct s; cbn [pu_step]; unfold pst_after_slash_in_uri, pst_check_uri, pst_uri;
    rewrite ?Eu, ?Hbad, ?Hn by done; done.
Qed.

Lemma pu_step_rl pc buf s r p c :
  is_uri_char c = true -> (s = pu_start -> c = ch("/") /\ uri_start r = Some p) ->
  exists s' r', pu_step s r p c = Some (s', r') /\ rl_step pc buf (rl_of s) r p c = Next (rl_of s') r' /\
    s' <> pu_start.
Proof.
  intros Hc Hs. unfold is_uri_char in Hc.
  assert (c <> 32 /\ c <> CR /\ c <> LF) as (H1 & H2 & H3) by (unfold CR, LF; zbool; lia).
  apply Z.eqb_neq in H1, H2, H3.
  assert (H4 : (c <? 32) || (c =? 127) = false).
  { zbool. apply orb_false_intro; [apply Z.ltb_ge; lia|by apply Z.eqb_neq]. }
  assert (H5 : pu_bad c = false).
  { zbool. apply orb_false_intro; [apply Z.leb_gt; lia|by apply Z.eqb_neq]. }
  destruct s.
  { destruct (Hs eq_refl) as [-> Hu]. exists pu_after_slash_in_uri, r. split_and!; try done.
    cbn. f_equal. destruct r. cbn in *. by subst. }
  all: cbn [pu_step rl_of rl_step]; unfold pst_after_slash_in_uri, pst_check_uri, pst_uri; unfold_states;
    rewrite H1, H2, H3, H4, H5; repeat case_if; do 2 eexists; by split_and!.
Qed.

Lemma pu_loop_rl pc buf s0 p0 s r p u rest :
  bytes_ok u -> (s = pu_start -> exists u', u = ch("/") :: u' /\ uri_start r = Some p) ->
  let '(rc, r') := pu_loop s r p u in
  (rc = NGX_OK \/ rc = NGX_ERROR) /\
  (rc = NGX_OK <-> forallb is_uri_char u = true) /\
  (rc = NGX_OK -> exists s', uri_state s' = true /\
    rl_loop pc buf s0 p0 (rl_of s) r p (u ++ rest)
    = rl_loop pc buf s0 p0 s' r' (p + Z.of_nat (length u)) rest).
Proof.
  revert s r p. induction u as [|c u IH]; intros s r p Hb Hs; cbn [pu_loop forallb].
  - split_and!; [tauto|done|]. intros _. exists (rl_of s). rewrite Z.add_0_r. split; [|done].
    destruct s; try done. by destruct (Hs eq_refl) as (u' & ? & _).
  - apply Forall_cons_1 in Hb as [Hc Hb]. destruct (is_uri_char c) eqn:Ec.
    + destruct (pu_step_rl pc buf s r p c Ec) as (s' & r' & E1 & E2 & Hn);
        [intros ->; destruct (Hs eq_refl) as (? & ? & ?); by simplify_eq|].
      rewrite E1. specialize (IH s' r' (p + 1) Hb ltac:(done)).
      destruct (pu_loop s' r' (p + 1) u) as [rc r'']. destruct IH as (H1 & H2 & H3). split_and!; [done..|].
      intros Hrc. destruct (H3 Hrc) as (s2 & Hs2 & E). exists s2. split; [done|].
      cbn [app rl_loop]. rewrite E2, E. f_equal. cbn [length]. lia.
    + rewrite pu_step_bad by done. by split_and!; [right|..].
Qed.

(** C7. ngx_http_parse_uri accepts a non-empty path exactly if it begins with a
    slash and all its bytes are allowed in a URI, and it then sets the flags and
    marks of the request that the request line parser sets on reading the same
    bytes as its target: an HTTP/2 path and an HTTP/1 target are judged alike. *)
Theorem parse_uri_correct (pc : bool) (buf : list Z) (r : request) (us : Z) (u : list Z)
    (Hs : uri_start r = Some us) (He : uri_end r = Some (us + Z.of_nat (length u)))
    (Hu : drop (Z.to_nat us) (take (Z.to_nat (us + Z.of_nat (length u))) buf) = u)
    (Hb : bytes_ok u) (Hne : u <> []) :
  let '(rc, r') := ngx_http_parse_uri buf r in
  (rc = NGX_OK \/ rc = NGX_ERROR) /\
  (rc = NGX_OK <-> head u = Some ch("/") /\ forallb is_uri_char u = true) /\
  (rc = NGX_OK -> forall s0 p0 rest, exists s', uri_state s' = true /\
     rl_loop pc buf s0 p0 sw_spaces_before_uri r us (u ++ rest)
     = rl_loop pc buf s0 p0 s' r' (us + Z.of_nat (length u)) rest).
Proof.
  unfold ngx_http_parse_uri. rewrite Hs, He. cbn [default]. unfold default. cbn. rewrite Hu.
  destruct u as [|c u]; [done|]. destruct (Z.eqb_spec c 47) as [->|Hc].
  - pose proof (fun s0 p0 rest => pu_loop_rl pc buf s0 p0 pu_start r us (47 :: u) rest Hb
      ltac:(intros _; by exists u)) as H.
    destruct (pu_loop pu_start r us (47 :: u)) as [rc r'] eqn:E.
    destruct (H sw_start 0 []) as (H1 & H2 & _). split_and!; [done| |].
    + rewrite H2. naive_solver.
    + intros Hrc s0 p0 rest. by apply H.
  - cbn [pu_loop pu_step]. rewrite (proj2 (Z.eqb_neq c 47)) by done. cbn.
    split_and!; [tauto| |done]. split; [done|]. intros [? _]. by simplify_eq.
Qed.

Lemma parse_uri_correct_witness :
  let u := str("/a+b/c.html?x=1") in
  let r := set_uri_end (Some 15) (set_uri_start (Some 0) new_request) in
  let '(rc, r') := ngx_http_parse_uri u r in
  (rc = NGX_OK <-> head u = Some ch("/") /\ forallb is_uri_char u = true) /\
  rc = NGX_OK /\ (uri_ext r', args_start r', plus_in_uri r') = (Some 7, Some 12, true).
Proof.
  cbv zeta.
  pose proof (parse_uri_correct false str("/a+b/c.html?x=1")
    (set_uri_end (Some 15) (set_uri_start (Some 0) new_request)) 0 str("/a+b/c.html?x=1")
    eq_refl eq_refl eq_refl ltac:(by_evaluation) ltac:(done)) as H.
  destruct (ngx_http_parse_uri str("/a+b/c.html?x=1")
    (set_uri_end (Some 15) (set_uri_start (Some 0) new_request))) as [rc r'] eqn:E.
  destruct H as (_ & H & _). split; [exact H|]. vm_compute in E. by simplify_eq.
Defined.

End Uri.
