(* ===== verification/HttpParams.v ===== *)
(** * Looking up parameters: ngx_http_arg, ngx_http_parse_multi_header_lines,
    ngx_http_parse_cookie_lines and ngx_http_parse_set_cookie_lines of
    src/http/ngx_http_parse.c, with ngx_strncasecmp and ngx_strlcasestrn of
    src/core/ngx_string.c

    Pointers are offsets into the bytes of the memory the string lies in, which go
    on behind its end; a read outside them has no result. *)

From S2P Require Import Prelude HttpUri.
Import Uri.

Module Params.

(** ** String functions *)

(** The conversion in both functions, and the macro ngx_tolower. *)
Definition ngx_tolower (c : Z) : Z :=
  if (ch("A") <=? c) && (c <=? ch("Z")) then Z.lor c 0x20 else c.

Fixpoint ngx_strncasecmp (s1 s2 : list Z) (n : nat) {struct n} : option Z :=
  match n with
  | O => Some 0
  | S n' =>
      match s1, s2 with
      | c1 :: s1', c2 :: s2' =>
          let c1 := ngx_tolower c1 in
          let c2 := ngx_tolower c2 in
          if c1 =? c2 then
            if negb (c1 =? 0) then ngx_strncasecmp s1' s2' n' else Some 0
          else Some (c1 - c2)
      | _, _ => None
      end
  end.

(** The two nested loops, [l] being the memory from [s1] on and [last] already
    reduced by [n]; the result is [NULL] or an offset. *)
Fixpoint strlcasestrn_loop (c2 : Z) (s2 : list Z) (n : nat) (s1 last : Z) (l : list Z)
    : option (option Z) :=
  if last <=? s1 then Some None
  else
    match l with
    | [] => None
    | c :: l' =>
        if negb (ngx_tolower c =? c2) then strlcasestrn_loop c2 s2 n (s1 + 1) last l'
        else
          d ← ngx_strncasecmp l' s2 n;
          if negb (d =? 0) then strlcasestrn_loop c2 s2 n (s1 + 1) last l'
          else Some (Some s1)
    end.

Definition ngx_strlcasestrn (mem : list Z) (s1 last : Z) (s2 : list Z) (n : nat)
    : option (option Z) :=
  c2 ← head s2;
  strlcasestrn_loop (ngx_tolower c2) (tail s2) n s1 (last - Z.of_nat n) (drop (Z.to_nat s1) mem).

(** ** ngx_http_arg *)

(** The loop over [p]; [last] is the end of the arguments.  The result is the
    return code and [value] as an offset and a length. *)
Fixpoint arg_loop (fuel : nat) (args name : list Z) (last p : Z) : option (Z * (Z * Z)) :=
  match fuel with
  | O => None
  | S fuel' =>
      if negb (p <? last) then Some (NGX_DECLINED, (0, 0))
      else
        let len := Z.of_nat (length name) in
        o ← ngx_strlcasestrn args p (last - 1) name (length name - 1);
        match o with
        | None => Some (NGX_DECLINED, (0, 0))
        | Some p =>
            b ← (if p =? 0 then Some true
                 else c ← args !! Z.to_nat (p - 1); Some (c =? ch("&")));
            e ← (if b : bool then c ← args !! Z.to_nat (p + len); Some (c =? ch("=")) else Some false);
            if e : bool then
              let data := p + len + 1 in
              let pe := match ngx_strlchr (drop (Z.to_nat p) args) ch("&") with
                        | Some l => last - Z.of_nat (length l)
                        | None => last
                        end in
              Some (NGX_OK, (data, u64 (pe - data)))
            else arg_loop fuel' args name last (p + 1)
        end
  end.

Definition ngx_http_arg (args name : list Z) : option (Z * (Z * Z)) :=
  if (length args =? 0)%nat then Some (NGX_DECLINED, (0, 0))
  else arg_loop (S (length args)) args name (Z.of_nat (length args)) 0.

Example arg_second : ngx_http_arg str("aid=7&ID=42&x") str("id") = Some (NGX_OK, (9, 2)).
Proof. vm_compute. reflexivity. Qed.

(** ** Header values *)

(** ngx_table_elt_t: the value as the memory from [value.data] on and [value.len]. *)
Record elt := MkElt { data : list Z; len : Z }.

(** [while (start < end && P( *start)) start++], from [start] in [mem]. *)
Fixpoint count_while (P : Z -> bool) (l : list Z) : Z :=
  match l with
  | [] => 0
  | c :: l' => if P c then 1 + count_while P l' else 0
  end.

Definition upto (mem : list Z) (start end_ : Z) : list Z :=
  drop (Z.to_nat start) (take (Z.to_nat end_) mem).

Definition skip_while (P : Z -> bool) (mem : list Z) (end_ start : Z) : Z :=
  start + count_while P (upto mem start end_).

Abbreviation skip_blanks := (skip_while (Z.eqb ch(" "))).

(** The code at [skip]: past the next separator, and spaces. *)
Definition skip_field (sep : Z) (mem : list Z) (end_ start : Z) : Z :=
  let s := skip_while (fun c => negb (c =? sep)) mem end_ start in
  let s := if s <? end_ then s + 1 else s in
  skip_blanks mem end_ s.

(** The value behind "=": spaces, and the bytes in front of the separator. *)
Definition take_value (sep : Z) (mem : list Z) (end_ start : Z) : Z * Z :=
  let start := skip_blanks mem end_ start in
  let last := skip_while (fun c => negb (c =? sep)) mem end_ start in
  (start, u64 (last - start)).

(** The loop over one value.  [want] is [value != NULL]; the result is whether
    the header is returned, with [value] as an offset and a length. *)
Fixpoint field_loop (fuel : nat) (mem : list Z) (end_ : Z) (name : list Z) (want : bool) (sep : Z)
    (start : Z) : option (option (Z * Z)) :=
  match fuel with
  | O => None
  | S fuel' =>
      let skip s := field_loop fuel' mem end_ name want sep (skip_field sep mem end_ s) in
      if negb (start <? end_) then Some None
      else
        d ← ngx_strncasecmp (drop (Z.to_nat start) mem) name (length name);
        if negb (d =? 0) then skip start
        else
          let start := skip_blanks mem end_ (start + Z.of_nat (length name)) in
          if negb want then
            if start =? end_ then Some (Some (0, 0))
            else
              c ← mem !! Z.to_nat start;
              if c =? sep then Some (Some (0, 0)) else skip start
          else if start =? end_ then skip start
          else
            c ← mem !! Z.to_nat start;
            let start := start + 1 in
            if negb (c =? ch("=")) then skip start
            else Some (Some (take_value sep mem end_ start))
  end.

(** The loop over the headers of one name: the number of the header returned. *)
Fixpoint ngx_http_parse_multi_header_lines_internal (headers : list elt) (name : list Z)
    (want : bool) (sep : Z) : option (option (nat * (Z * Z))) :=
  match headers with
  | [] => Some None
  | h :: rest =>
      let next :=
        o ← ngx_http_parse_multi_header_lines_internal rest name want sep;
        Some (match o with Some (i, v) => Some (S i, v) | None => None end) in
      if len h <? Z.of_nat (length name) then next
      else
        o ← field_loop (S (Z.to_nat (len h))) (data h) (len h) name want sep 0;
        match o with
        | Some v => Some (Some (O, v))
        | None => next
        end
  end.

Definition ngx_http_parse_multi_header_lines (headers : list elt) (name : list Z) (want : bool) :=
  ngx_http_parse_multi_header_lines_internal headers name want ch(",").

Definition ngx_http_parse_cookie_lines (headers : list elt) (name : list Z) (want : bool) :=
  ngx_http_parse_multi_header_lines_internal headers name want ch(";").

Fixpoint ngx_http_parse_set_cookie_lines (headers : list elt) (name : list Z)
    : option (option (nat * (Z * Z))) :=
  match headers with
  | [] => Some None
  | h :: rest =>
      let next :=
        o ← ngx_http_parse_set_cookie_lines rest name;
        Some (match o with Some (i, v) => Some (S i, v) | None => None end) in
      if len h <=? Z.of_nat (length name) then next
      else
        d ← ngx_strncasecmp (data h) name (length name);
        if negb (d =? 0) then next
        else
          let start := skip_blanks (data h) (len h) (Z.of_nat (length name)) in
          if start =? len h then next
          else
            c ← data h !! Z.to_nat start;
            if negb (c =? ch("=")) then next
            else Some (Some (O, take_value ch(";") (data h) (len h) (start + 1)))
  end.

(** A header value as it is in memory, with the NUL byte that ends it. *)
Definition header_of (v : list Z) : elt := MkElt (v ++ [0]) (Z.of_nat (length v)).

Example cookie_found :
  ngx_http_parse_cookie_lines [header_of str("a=1; SID = xyz; c")] str("sid") true
  = Some (Some (0%nat, (11, 3))).
Proof. vm_compute. reflexivity. Qed.

(** A field that is just the name makes the next field be skipped. *)
Example bare_name_hides :
  ngx_http_parse_cookie_lines [header_of str("sid; sid=xyz")] str("sid") true = Some None.
Proof. vm_compute. reflexivity. Qed.

(** Run the first computation of a sequence. *)
Ltac bind_some :=
  match goal with |- context [mbind ?f (Some ?x)] => change (mbind f (Some x)) with (f x) end;
  cbv beta.

(** ** Comparison without case *)

Fixpoint ci_prefix (x l : list Z) : bool :=
  match x, l with
  | [], _ => true
  | a :: x', b :: l' => (ngx_tolower b =? ngx_tolower a) && ci_prefix x' l'
  | _, _ => false
  end.

Lemma tolower_zero c : ngx_tolower c = 0 <-> c = 0.
Proof.
  unfold ngx_tolower. case_if; [|done]. zbool. split; [|lia]. intros Hz.
  apply Z.lor_eq_0_iff in Hz. lia.
Qed.

(** ngx_strncasecmp finds out whether [v] begins with [x] if [x] has no NUL byte
    and [v] is long enough or followed by a NUL byte. *)
Lemma strncasecmp_spec x v rest :
  0 ∉ x -> (length x <= length v)%nat \/ head rest = Some 0 ->
  exists d, ngx_strncasecmp (v ++ rest) x (length x) = Some d /\ (d =? 0) = ci_prefix x v.
Proof.
  revert v. induction x as [|a x IH]; intros v Hx Hv; [by exists 0|].
  apply not_elem_of_cons in Hx as [Ha Hx].
  assert (Ha' : ngx_tolower a <> 0) by (rewrite tolower_zero; congruence).
  destruct v as [|b v]; cbn [app length ngx_strncasecmp ci_prefix].
  - destruct Hv as [Hv|Hv]; [cbn in Hv; lia|]. destruct rest as [|z rest]; [done|].
    cbn in Hv. simplify_eq. change (ngx_tolower 0) with 0.
    rewrite (proj2 (Z.eqb_neq 0 _)) by done. eexists. split; [done|]. apply Z.eqb_neq. lia.
  - destruct (Z.eqb_spec (ngx_tolower b) (ngx_tolower a)) as [E|E].
    + rewrite E, (proj2 (Z.eqb_neq _ 0)) by done. cbn [negb andb]. apply IH; [done|].
      destruct Hv as [Hv|Hv]; [left; cbn in Hv; lia|by right].
    + eexists. split; [done|]. apply Z.eqb_neq. lia.
Qed.

Lemma ci_prefix_length x l : ci_prefix x l = true -> (length x <= length l)%nat.
Proof.
  revert l. induction x as [|a x IH]; intros [|b l] H; cbn in *; try lia; try done.
  apply andb_prop in H as [_ H]. apply IH in H. lia.
Qed.

Lemma ci_prefix_app x y l :
  ci_prefix (x ++ y) l = ci_prefix x l && ci_prefix y (drop (length x) l).
Proof.
  revert l. induction x as [|a x IH]; intros l; cbn; [done|].
  destruct l as [|b l]; [done|]. rewrite IH. apply andb_assoc.
Qed.

(** ** Specification of ngx_http_arg *)

(** The value of the first argument [name=value] of a list. *)
Fixpoint find_arg (name : list Z) (fields : list (list Z)) : option (list Z) :=
  match fields with
  | [] => None
  | f :: fields' =>
      if ci_prefix (name ++ [ch("=")]) f then Some (drop (S (length name)) f)
      else find_arg name fields'
  end.

(** [v] are the [n] bytes at [d] of [l]. *)
Definition slice_is (l : list Z) (d n : Z) (v : list Z) : Prop :=
  0 <= d /\ n = Z.of_nat (length v) /\ d + n <= Z.of_nat (length l) /\
  take (Z.to_nat n) (drop (Z.to_nat d) l) = v.

(** The function reports [o]. *)
Definition arg_result (args : list Z) (o : option (list Z)) (res : option (Z * (Z * Z))) : Prop :=
  match o with
  | Some v => exists d n, res = Some (NGX_OK, (d, n)) /\ slice_is args d n v
  | None => res = Some (NGX_DECLINED, (0, 0))
  end.

Section Arg.
Context (name : list Z) (Hne : name <> []) (Hamp : ch("&") ∉ name) (Hnul : 0 ∉ name).

Fixpoint before (sep : Z) (l : list Z) : list Z :=
  match l with
  | [] => []
  | c :: l' => if c =? sep then [] else c :: before sep l'
  end.

(** The same, on the bytes from a place on; [b] tells that an argument starts here. *)
Fixpoint find_from (b : bool) (l : list Z) : option (list Z) :=
  match l with
  | [] => None
  | c :: l' =>
      if b && ci_prefix (name ++ [ch("=")]) l then Some (before ch("&") (drop (S (length name)) l))
      else find_from (c =? ch("&")) l'
  end.

Lemma tolower_sep a sep : a <> sep -> negb ((ch("a") <=? sep) && (sep <=? ch("z"))) = true ->
  negb ((ch("A") <=? sep) && (sep <=? ch("Z"))) = true -> ngx_tolower sep <> ngx_tolower a.
Proof.
  intros Ha H1 H2 E. unfold ngx_tolower in E. apply negb_true_iff in H2. rewrite H2 in E.
  case_if_in E; [|congruence]. zbool. apply negb_true_iff in H1.
  assert (Hl : forall c, 65 <= c <= 90 -> 97 <= Z.lor c 32 <= 122).
  { intros c Hc. assert (Hall : forallb (fun c => (97 <=? Z.lor (Z.of_nat c) 32) && (Z.lor (Z.of_nat c) 32 <=? 122))
      (seq 65 26) = true) by (vm_compute; reflexivity).
    rewrite forallb_forall in Hall. specialize (Hall (Z.to_nat c)).
    rewrite Z2Nat.id in Hall by lia. assert (Hin : In (Z.to_nat c) (seq 65 26)) by (apply in_seq; lia).
    apply Hall in Hin. zbool. lia. }
  specialize (Hl a ltac:(lia)). rewrite <- E in Hl.
  rewrite !(proj2 (Z.leb_le _ _)) in H1 by lia. done.
Qed.

(** A name without the separator is found in the first field or not at all. *)
Lemma ci_prefix_before sep x l :
  sep ∉ x -> negb ((ch("a") <=? sep) && (sep <=? ch("z"))) = true ->
  negb ((ch("A") <=? sep) && (sep <=? ch("Z"))) = true ->
  ci_prefix x l = ci_prefix x (before sep l) /\
  (ci_prefix x l = true -> before sep (drop (length x) l) = drop (length x) (before sep l)).
Proof.
  intros Hx H1 H2. revert l. induction x as [|a x IH]; intros l; [done|].
  apply not_elem_of_cons in Hx as [Ha Hx]. specialize (IH Hx).
  destruct l as [|b l]; [done|]. cbn [before]. destruct (Z.eqb_spec b sep) as [->|Hb]; cbn [ci_prefix].
  - rewrite (proj2 (Z.eqb_neq _ _)) by (by apply tolower_sep). done.
  - destruct (IH l) as [-> H]. split; [done|]. intros E. apply andb_prop in E as [_ E]. cbn.
    by apply H.
Qed.

Lemma split_head sep l : exists ss, split_on sep l = before sep l :: ss.
Proof.
  induction l as [|c l [ss IH]]; cbn; [by exists []|]. rewrite IH. case_if; by eexists.
Qed.

Lemma find_from_split l :
  find_from true l = find_arg name (split_on ch("&") l) /\
  find_from false l = find_arg name (tail (split_on ch("&") l)).
Proof.
  assert (Hx : 38 ∉ name ++ [61]) by (rewrite elem_of_app, list_elem_of_singleton; naive_solver).
  assert (Hnil : ci_prefix (name ++ [61]) [] = false) by (by destruct name).
  induction l as [|c l [IH1 IH2]]; [by cbn; rewrite Hnil|].
  destruct (ci_prefix_before 38 (name ++ [61]) (c :: l) Hx eq_refl eq_refl) as [E1 E2].
  destruct (split_head 38 l) as [ss Es].
  cbn [find_from split_on]. cbn [before] in E1, E2. rewrite length_app in E2. cbn [length] in E2.
  rewrite Nat.add_1_r in E2.
  destruct (Z.eqb_spec c 38) as [->|Hc]; cbn [andb tail find_arg].
  - rewrite Hnil in *. rewrite E1. done.
  - rewrite Es in *. cbn [tail find_arg] in *. rewrite <- E1. split; [|done].
    case_if; [|done]. f_equal. by apply E2.
Qed.

Lemma find_from_short b l : (length l <= length name)%nat -> find_from b l = None.
Proof.
  revert b. induction l as [|c l IH]; intros b Hl; [done|]. cbn [find_from].
  assert (ci_prefix (name ++ [61]) (c :: l) = false) as ->.
  { apply not_true_is_false. intros H%ci_prefix_length. rewrite length_app in H. cbn in *. lia. }
  rewrite andb_false_r. apply IH. cbn in Hl. lia.
Qed.

(** Whether an argument starts behind [l]. *)
Definition boundary (b : bool) (l : list Z) : bool :=
  match l with
  | [] => b
  | _ => List.last l 0 =? ch("&")
  end.

Lemma boundary_cons b c l : boundary b (c :: l) = boundary (c =? ch("&")) l.
Proof. by destruct l. Qed.

Lemma boundary_app b l1 l2 : boundary b (l1 ++ l2) = boundary (boundary b l1) l2.
Proof.
  revert b. induction l1 as [|c l1 IH]; intros b; [done|]. cbn [app]. by rewrite !boundary_cons.
Qed.

(** ngx_strlcasestrn goes to the first place where the name stands and is not at
    the very end; no argument of the name is passed over. *)
Lemma strlcasestrn_spec l s1 :
  exists o,
    strlcasestrn_loop (ngx_tolower (hd 0 name)) (tail name) (length name - 1) s1
      (s1 + Z.of_nat (length l) - Z.of_nat (length name)) l = Some o /\
    match o with
    | None => forall b, find_from b l = None
    | Some q => exists l1 l2, l = l1 ++ l2 /\ q = s1 + Z.of_nat (length l1) /\
        ci_prefix name l2 = true /\ (length name < length l2)%nat /\
        forall b, find_from b l = find_from (boundary b l1) l2
    end.
Proof.
  revert s1. induction l as [|c l IH]; intros s1; cbn [strlcasestrn_loop].
  - rewrite (proj2 (Z.leb_le _ _)) by (cbn; lia). by exists None.
  - destruct (Z.leb_spec (s1 + Z.of_nat (length (c :: l)) - Z.of_nat (length name)) s1) as [H|H].
    { exists None. split; [done|]. intros b. apply find_from_short. cbn [length] in *. lia. }
    assert (Hskip : ci_prefix name (c :: l) = false -> exists o,
      strlcasestrn_loop (ngx_tolower (hd 0 name)) (tail name) (length name - 1) (s1 + 1)
        (s1 + Z.of_nat (length (c :: l)) - Z.of_nat (length name)) l = Some o /\
      match o with
      | None => forall b, find_from b (c :: l) = None
      | Some q => exists l1 l2, c :: l = l1 ++ l2 /\ q = s1 + Z.of_nat (length l1) /\
          ci_prefix name l2 = true /\ (length name < length l2)%nat /\
          forall b, find_from b (c :: l) = find_from (boundary b l1) l2
      end).
    { intros Hn. destruct (IH (s1 + 1)) as (o & Ho & Hs). exists o.
      assert (Hf : forall b, find_from b (c :: l) = find_from (c =? 38) l).
      { intros b. cbn [find_from]. by rewrite ci_prefix_app, Hn, andb_false_r. }
      split; [rewrite <- Ho; f_equal; cbn [length]; lia|].
      destruct o as [q|]; [|intros b; by rewrite Hf].
      destruct Hs as (l1 & l2 & -> & -> & H1 & H2 & H3). exists (c :: l1), l2.
      split_and!; [done|cbn [length]; lia|done|done|].
      intros b. by rewrite Hf, H3, boundary_cons. }
    destruct name as [|x xs] eqn:En; [done|]. cbn [hd tail length Nat.sub] in *. rewrite Nat.sub_0_r in *.
    apply not_elem_of_cons in Hnul as [_ Hnul'].
    destruct (strncasecmp_spec xs l [] Hnul' ltac:(left; lia)) as (d & Hd & Ed).
    rewrite app_nil_r in Hd. cbn [ci_prefix] in Hskip.
    destruct (ngx_tolower c =? ngx_tolower x) eqn:Ec; cbn [negb andb] in *; [|by apply Hskip].
    rewrite Hd. cbn [mbind option_bind]. rewrite Ed.
    destruct (ci_prefix xs l) eqn:Ep; cbn [negb]; [|by apply Hskip].
    exists (Some s1). split; [done|]. exists [], (c :: l). split_and!; try done; [cbn; lia| |cbn; lia].
    cbn. by rewrite Ec, Ep.
Qed.

Lemma tolower_eq c : (ngx_tolower c =? ngx_tolower ch("=")) = (c =? ch("=")).
Proof.
  destruct (Z.eqb_spec c 61) as [->|Hc]; [done|]. apply Z.eqb_neq. intros E. symmetry in E. revert E.
  by apply tolower_sep.
Qed.

Lemma boundary_read pre l :
  (if Z.of_nat (length pre) =? 0 then Some true
   else c ← (pre ++ l) !! Z.to_nat (Z.of_nat (length pre) - 1); Some (c =? ch("&")))
  = Some (boundary true pre).
Proof.
  destruct pre as [|a pre]; [done|]. destruct (exists_last (l := a :: pre)) as (x & c & ->); [done|].
  rewrite length_app. cbn [length]. rewrite (proj2 (Z.eqb_neq _ _)) by lia.
  replace (Z.to_nat (Z.of_nat (length x + 1) - 1)) with (length x) by lia.
  rewrite <- app_assoc. cbn [app]. rewrite list_lookup_middle by done. cbn. f_equal. by rewrite boundary_app.
Qed.

Lemma before_strlchr c l :
  match ngx_strlchr l c with
  | Some r => length l = (length (before c l) + length r)%nat
  | None => before c l = l
  end.
Proof.
  induction l as [|x l IH]; [done|]. cbn. destruct (x =? c); [done|].
  destruct (ngx_strlchr l c); cbn; [lia|by rewrite IH].
Qed.

Lemma before_prefix c l : take (length (before c l)) l = before c l /\ (length (before c l) <= length l)%nat.
Proof.
  induction l as [|x l [IH1 IH2]]; [done|]. cbn. case_if; cbn; [split; [done|lia]|].
  rewrite IH1. split; [done|lia].
Qed.

(** The result for an argument found at the end of [pre]. *)
Lemma arg_value pre l :
  let args := pre ++ l in
  let data := Z.of_nat (length pre) + Z.of_nat (length name) + 1 in
  let pe := match ngx_strlchr l ch("&") with
            | Some r => Z.of_nat (length args) - Z.of_nat (length r)
            | None => Z.of_nat (length args)
            end in
  Z.of_nat (length args) < 2 ^ 63 -> ci_prefix (name ++ [ch("=")]) l = true ->
  let v := before ch("&") (drop (S (length name)) l) in
  slice_is args data (u64 (pe - data)) v.
Proof.
  cbv zeta. intros Hlen Hp.
  assert (Hx : 38 ∉ name ++ [61]) by (rewrite elem_of_app, list_elem_of_singleton; naive_solver).
  destruct (ci_prefix_before 38 (name ++ [61]) l Hx eq_refl eq_refl) as [E1 E2].
  specialize (E2 Hp). rewrite E1 in Hp. apply ci_prefix_length in Hp.
  rewrite length_app in E2, Hp. cbn [length] in E2, Hp. rewrite Nat.add_1_r in E2, Hp.
  destruct (before_prefix 38 l) as [_ Hle].
  pose proof (before_prefix 38 (drop (S (length name)) l)) as [Ht _].
  set (v := before 38 (drop (S (length name)) l)) in *.
  assert (Hv : length (before 38 l) = (S (length name) + length v)%nat).
  { rewrite E2, length_drop. lia. }
  rewrite length_app in *.
  assert (Hpe : match ngx_strlchr l 38 with
      | Some r => Z.of_nat (length pre + length l) - Z.of_nat (length r)
      | None => Z.of_nat (length pre + length l) end
      = Z.of_nat (length pre) + Z.of_nat (length (before 38 l))).
  { pose proof (before_strlchr 38 l) as Hs. destruct (ngx_strlchr l 38); [lia|]. rewrite Hs. lia. }
  rewrite Hpe, wrap_small by (unfold in_u; lia).
  split_and!; [lia|lia|rewrite length_app; lia|].
  rewrite <- Ht. f_equal; [lia|]. rewrite drop_app_ge by lia. f_equal. lia.
Qed.

(** The loop finds what [find_from] finds. *)
Lemma arg_loop_spec fuel pre l :
  let args := pre ++ l in
  Z.of_nat (length args) < 2 ^ 63 -> (length l < fuel)%nat ->
  arg_result args (find_from (boundary true pre) l)
    (arg_loop fuel args name (Z.of_nat (length args)) (Z.of_nat (length pre))).
Proof.
  cbv zeta. revert pre l. induction fuel as [|fuel IH]; intros pre l Hlen Hf; [lia|]. cbn [arg_loop].
  destruct (Z.ltb_spec (Z.of_nat (length pre)) (Z.of_nat (length (pre ++ l)))) as [Hp|Hp]; cbn [negb].
  2:{ rewrite length_app in Hp. destruct l; [done|cbn in Hp; lia]. }
  unfold ngx_strlcasestrn. rewrite Nat2Z.id, drop_app_length.
  destruct (strlcasestrn_spec l (Z.of_nat (length pre))) as (o & Ho & Hs).
  assert (Hh : head name = Some (hd 0 name)) by (by destruct name).
  rewrite Hh. bind_some.
  replace (Z.of_nat (length (pre ++ l)) - 1 - Z.of_nat (length name - 1))
    with (Z.of_nat (length pre) + Z.of_nat (length l) - Z.of_nat (length name))
    by (rewrite length_app; destruct name; [done|cbn [length]; lia]).
  rewrite Ho. bind_some. destruct o as [q|]; [|by rewrite Hs].
  destruct Hs as (l1 & l2 & -> & -> & Hn & Hl2 & Hff). rewrite Hff, <- boundary_app.
  rewrite app_assoc in *.
  replace (Z.of_nat (length pre) + Z.of_nat (length l1)) with (Z.of_nat (length (pre ++ l1)))
    by (rewrite length_app; lia).
  rewrite length_app in Hf. clear Hff. set (pre' := pre ++ l1) in *. rewrite boundary_read. bind_some.
  destruct l2 as [|c l2]; [cbn in Hl2; lia|].
  assert (Hnext : find_from (boundary true pre') (c :: l2) = find_from (boundary true (pre' ++ [c])) l2 ->
    arg_result (pre' ++ c :: l2) (find_from (boundary true pre') (c :: l2))
      (arg_loop fuel (pre' ++ c :: l2) name (Z.of_nat (length (pre' ++ c :: l2))) (Z.of_nat (length pre') + 1))).
  { intros ->. specialize (IH (pre' ++ [c]) l2). rewrite <- app_assoc in IH. cbn [app] in IH.
    rewrite (length_app pre' [c]), Nat2Z.inj_add in IH. change (Z.of_nat (length [c])) with 1 in IH.
    apply IH; [done|cbn in Hf; lia]. }
  destruct (boundary true pre') eqn:Eb.
  2:{ bind_some. apply Hnext. by rewrite boundary_app. }
  destruct (lookup_lt_is_Some_2 (c :: l2) (length name) Hl2) as [e He].
  replace (Z.to_nat (Z.of_nat (length pre') + Z.of_nat (length name))) with (length pre' + length name)%nat by lia.
  rewrite lookup_app_r, Nat.add_comm, Nat.add_sub, He by lia. bind_some. bind_some.
  assert (Hci : ci_prefix (name ++ [61]) (c :: l2) = (e =? 61)).
  { rewrite ci_prefix_app, Hn. rewrite (drop_S _ e) by done. cbn [ci_prefix andb].
    by rewrite tolower_eq, andb_true_r. }
  destruct (e =? 61) eqn:Ee.
  - cbn [find_from andb]. rewrite Hci. rewrite Nat2Z.id, drop_app_length.
    do 2 eexists. split; [done|]. by apply (arg_value pre' (c :: l2)).
  - apply Hnext. cbn [find_from andb]. by rewrite Hci, boundary_app.
Qed.

End Arg.

(** C9. ngx_http_arg looks at the parts of the query between ampersands and
    returns what follows the equals sign in the first part that begins with the
    name, whatever the case of its letters, and an equals sign; it declines when
    there is none.  It reads no byte outside the query. *)
Theorem http_arg_correct (args name : list Z) (Hne : name <> []) (Hamp : ch("&") ∉ name)
    (Hnul : 0 ∉ name) (Hlen : Z.of_nat (length args) < 2 ^ 63) :
  arg_result args (find_arg name (split_on ch("&") args)) (ngx_http_arg args name).
Proof.
  rewrite <- (proj1 (find_from_split name Hne Hamp Hnul args)). unfold ngx_http_arg.
  destruct (length args =? 0)%nat eqn:E.
  { apply Nat.eqb_eq, length_zero_iff_nil in E as ->. done. }
  apply (arg_loop_spec name Hne Hamp Hnul (S (length args)) [] args Hlen). lia.
Qed.

Lemma http_arg_correct_witness :
  find_arg str("id") (split_on ch("&") str("aid=7&ID=42&x")) = Some str("42") /\
  exists d n, ngx_http_arg str("aid=7&ID=42&x") str("id") = Some (NGX_OK, (d, n)) /\
    slice_is str("aid=7&ID=42&x") d n str("42").
Proof.
  split; [vm_compute; reflexivity|].
  assert (Hx : ch("&") ∉ str("id")) by by_evaluation.
  assert (H0 : 0 ∉ str("id")) by by_evaluation.
  exact (http_arg_correct str("aid=7&ID=42&x") str("id") ltac:(done) Hx H0 ltac:(cbn; lia)).
Defined.

(** ** Specification of the header lookups *)

Fixpoint ltrim (l : list Z) : list Z :=
  match l with
  | [] => []
  | c :: l' => if c =? ch(" ") then ltrim l' else l
  end.

(** The fields of a value, without the spaces in front of them. *)
Definition field_list (sep : Z) (v : list Z) : list (list Z) :=
  match split_on sep v with
  | [] => []
  | f :: fs => f :: map ltrim fs
  end.

(** The first field with the name: the text behind its equals sign if a value is
    [want]ed, and otherwise the field must have the name only.  If a value is
    wanted, a field with the name only makes the next field be ignored. *)
Fixpoint find_field (name : list Z) (want : bool) (fs : list (list Z)) : option (list Z) :=
  match fs with
  | [] => None
  | f :: rest =>
      if negb (ci_prefix name f) then find_field name want rest
      else
        match ltrim (drop (length name) f) with
        | [] =>
            if want then match rest with [] => None | _ :: rest' => find_field name want rest' end
            else Some []
        | c :: v => if want && (c =? ch("=")) then Some (ltrim v) else find_field name want rest
        end
  end.

(** The first header in which the field is found. *)
Fixpoint find_header {A} (f : list Z -> option A) (headers : list (list Z)) : option (nat * A) :=
  match headers with
  | [] => None
  | v :: rest =>
      match f v with
      | Some x => Some (O, x)
      | None => '(i, x) ← find_header f rest; Some (S i, x)
      end
  end.

Section Fields.
Context (name : list Z) (sep : Z) (Hne : name <> []) (Hsep : sep ∉ name) (Hnul : 0 ∉ name).
Context (Hs : sep = ch(",") \/ sep = ch(";")).

Lemma Hsep1 : negb ((ch("a") <=? sep) && (sep <=? ch("z"))) = true.
Proof. by destruct Hs as [-> | ->]. Qed.
Lemma Hsep2 : negb ((ch("A") <=? sep) && (sep <=? ch("Z"))) = true.
Proof. by destruct Hs as [-> | ->]. Qed.
Lemma Hsep3 : sep <> ch(" ") /\ sep <> ch("=").
Proof. by destruct Hs as [-> | ->]. Qed.

(** Past the next separator and spaces. *)
Fixpoint skipf (l : list Z) : list Z :=
  match l with
  | [] => []
  | c :: l' => if c =? sep then ltrim l' else skipf l'
  end.

Lemma before_ltrim l : before sep (ltrim l) = ltrim (before sep l).
Proof.
  induction l as [|c l IH]; [done|]. cbn. destruct (Z.eqb_spec c 32) as [->|Hc].
  - rewrite (proj2 (Z.eqb_neq 32 sep)) by (symmetry; apply Hsep3). cbn. done.
  - cbn. destruct (c =? sep); [done|]. cbn. by rewrite (proj2 (Z.eqb_neq c 32)).
Qed.

Lemma tail_split_cons c l : c <> sep -> tail (split_on sep (c :: l)) = tail (split_on sep l).
Proof.
  intros Hc. cbn [split_on]. rewrite (proj2 (Z.eqb_neq c sep)) by done.
  by destruct (split_head sep l) as [ss ->].
Qed.

Lemma tail_split_ltrim l : tail (split_on sep (ltrim l)) = tail (split_on sep l).
Proof.
  induction l as [|c l IH]; [done|]. cbn [ltrim]. destruct (Z.eqb_spec c 32) as [->|Hc]; [|done].
  rewrite tail_split_cons; [done|]. symmetry. apply Hsep3.
Qed.

Lemma tail_split_name x l :
  sep ∉ x -> ci_prefix x l = true -> tail (split_on sep (drop (length x) l)) = tail (split_on sep l).
Proof.
  revert l. induction x as [|a x IH]; intros l Hx Hp; [done|].
  apply not_elem_of_cons in Hx as [Ha Hx]. destruct l as [|b l]; [done|]. cbn [ci_prefix] in Hp.
  apply andb_prop in Hp as [Hb Hp]. apply Z.eqb_eq in Hb. cbn [length drop].
  rewrite tail_split_cons; [by apply IH|]. intros ->.
  by apply (tolower_sep a sep (not_eq_sym Ha) Hsep1 Hsep2).
Qed.

Lemma fields_split l : exists ss, split_on sep l = before sep l :: ss /\ field_list sep l = before sep l :: map ltrim ss.
Proof. destruct (split_head sep l) as [ss E]. exists ss. unfold field_list. by rewrite E. Qed.

Lemma find_field_nil want : find_field name want [[]] = None.
Proof. cbn. by destruct name. Qed.

(** After a skip the search goes on with the next field. *)
Lemma find_skipf want l :
  find_field name want (field_list sep (skipf l)) = find_field name want (map ltrim (tail (split_on sep l))).
Proof.
  induction l as [|c l IH]; cbn [skipf]; [apply find_field_nil|].
  destruct (Z.eqb_spec c sep) as [->|Hc].
  - cbn [split_on]. rewrite Z.eqb_refl. cbn [tail].
    destruct (fields_split (ltrim l)) as (ss & E1 & ->). pose proof (tail_split_ltrim l) as Ht.
    destruct (split_head sep l) as [ss' E2]. rewrite E1, E2 in Ht. cbn in Ht. subst.
    rewrite E2. cbn [map]. by rewrite before_ltrim.
  - by rewrite tail_split_cons.
Qed.

(** One field of the search, on the bytes from its start on. *)
Lemma find_field_step want l :
  find_field name want (field_list sep l)
  = if negb (ci_prefix name l) then find_field name want (field_list sep (skipf l))
    else
      match ltrim (drop (length name) l) with
      | [] => if want then None else Some []
      | c :: l' =>
          if want then
            if c =? ch("=") then Some (before sep (ltrim l'))
            else find_field name want (field_list sep (skipf l'))
          else if c =? sep then Some [] else find_field name want (field_list sep (skipf (c :: l')))
      end.
Proof.
  destruct (fields_split l) as (ss & E & ->).
  destruct (ci_prefix_before sep name l Hsep Hsep1 Hsep2) as [E1 E2].
  cbn [find_field]. rewrite <- E1. destruct (ci_prefix name l) eqn:Ep; cbn [negb].
  2:{ by rewrite find_skipf, E. }
  rewrite <- (E2 eq_refl), <- before_ltrim.
  pose proof (tail_split_name name l Hsep Ep) as Ht. rewrite E in Ht. cbn [tail] in Ht.
  rewrite <- tail_split_ltrim in Ht.
  destruct (ltrim (drop (length name) l)) as [|c l'].
  { cbn in Ht. subst ss. cbn. done. }
  cbn [before]. rewrite !find_skipf. destruct (Z.eqb_spec c sep) as [->|Hc].
  - cbn [split_on] in *. rewrite Z.eqb_refl in *. cbn [tail] in Ht. subst ss. destruct want; [|done].
    destruct (split_head sep l') as [ss ->]. cbn [map tail].
    by rewrite (proj2 (Z.eqb_neq sep 61)) by apply Hsep3.
  - rewrite tail_split_cons in * by done. subst ss. destruct want; cbn [andb]; [|done].
    destruct (c =? 61); [|done]. by rewrite before_ltrim.
Qed.

Lemma ltrim_length x : (length (ltrim x) <= length x)%nat.
Proof. induction x as [|c x IH]; cbn; [lia|]. case_if; cbn; lia. Qed.

Lemma skipf_length l : (length (skipf l) <= length l - 1)%nat.
Proof.
  induction l as [|c l IH]; [cbn; lia|]. cbn [skipf length]. pose proof (ltrim_length l). case_if; lia.
Qed.

Lemma find_field_short want l : (length l < length name)%nat -> find_field name want (field_list sep l) = None.
Proof.
  remember (length l) as n eqn:En. revert l En. induction n as [n IH] using (well_founded_induction lt_wf).
  intros l -> Hl. rewrite find_field_step.
  destruct (ci_prefix name l) eqn:E; [apply ci_prefix_length in E; lia|]. cbn [negb].
  pose proof (skipf_length l) as Hk. destruct l as [|c l]; [apply find_field_nil|].
  cbn [length] in *. eapply IH; [|done|]; lia.
Qed.

(** The first field only. *)
Lemma find_first_step l :
  find_field name true [before sep l]
  = if negb (ci_prefix name l) then None
    else
      match ltrim (drop (length name) l) with
      | [] => None
      | c :: l' => if c =? ch("=") then Some (before sep (ltrim l')) else None
      end.
Proof.
  destruct (ci_prefix_before sep name l Hsep Hsep1 Hsep2) as [E1 E2].
  cbn [find_field]. rewrite <- E1. destruct (ci_prefix name l) eqn:Ep; cbn [negb]; [|done].
  rewrite <- (E2 eq_refl), <- before_ltrim.
  destruct (ltrim (drop (length name) l)) as [|c l']; [done|]. cbn [before].
  destruct (Z.eqb_spec c sep) as [->|Hc].
  - by rewrite (proj2 (Z.eqb_neq sep 61)) by apply Hsep3.
  - cbn [andb]. by rewrite before_ltrim.
Qed.

(** ** Offsets and the bytes behind them *)

Context (v more : list Z).
Abbreviation mem := (v ++ more).
Abbreviation vlen := (Z.of_nat (length v)).

(** [l] are the bytes from [start] to the end of the value. *)
Definition at_suffix (start : Z) (l : list Z) : Prop :=
  0 <= start <= vlen /\ l = drop (Z.to_nat start) v.

Lemma at_length start l : at_suffix start l -> Z.of_nat (length l) = vlen - start.
Proof. intros [H ->]. rewrite length_drop. lia. Qed.

Lemma at_drop start l k :
  at_suffix start l -> (k <= length l)%nat -> at_suffix (start + Z.of_nat k) (drop k l).
Proof.
  intros H Hk. apply at_length in H as Hl. destruct H as [H ->]. split; [lia|].
  rewrite drop_drop. f_equal. lia.
Qed.

Lemma at_upto start l : at_suffix start l -> upto mem start vlen = l.
Proof. intros [H ->]. unfold upto. by rewrite Nat2Z.id, take_app_length. Qed.

Lemma at_mem start l : at_suffix start l -> drop (Z.to_nat start) mem = l ++ more.
Proof. intros [H ->]. apply drop_app_le. lia. Qed.

Lemma at_read start c l : at_suffix start (c :: l) -> mem !! Z.to_nat start = Some c.
Proof.
  intros H. apply at_mem in H. rewrite <- (Nat.add_0_r (Z.to_nat start)), <- lookup_drop. by rewrite H.
Qed.

Lemma at_spaces start l : at_suffix start l -> at_suffix (skip_blanks mem vlen start) (ltrim l).
Proof.
  intros H. unfold skip_while. rewrite (at_upto start l H). revert start H.
  induction l as [|c l IH]; intros start H; cbn [count_while ltrim].
  - by rewrite Z.add_0_r.
  - rewrite Z.eqb_sym. destruct (32 =? c) eqn:E; rewrite Z.eqb_sym, E; [|by rewrite Z.add_0_r].
    rewrite Z.add_assoc. apply IH. apply (at_drop start (c :: l) 1 H). cbn. lia.
Qed.

Lemma count_before l : count_while (fun c => negb (c =? sep)) l = Z.of_nat (length (before sep l)).
Proof. induction l as [|c l IH]; [done|]. cbn. destruct (c =? sep); cbn; [done|]. rewrite IH. lia. Qed.

Lemma drop_before l :
  match drop (length (before sep l)) l with
  | [] => length (before sep l) = length l /\ skipf l = []
  | c :: l' => c = sep /\ skipf l = ltrim l'
  end.
Proof.
  induction l as [|c l IH]; [done|]. cbn. destruct (Z.eqb_spec c sep) as [->|]; [done|]. cbn.
  destruct (drop (length (before sep l)) l); [destruct IH; split; congruence|done].
Qed.

Lemma at_skip start l : at_suffix start l -> at_suffix (skip_field sep mem vlen start) (skipf l).
Proof.
  intros H. unfold skip_field. unfold skip_while at 2 3 4. rewrite (at_upto start l H), count_before.
  pose proof (before_prefix sep l) as [_ Hle].
  pose proof (at_drop start l (length (before sep l)) H Hle) as H1.
  pose proof (at_length _ _ H) as Hl. pose proof (drop_before l) as Hd.
  destruct (drop (length (before sep l)) l) as [|c l'] eqn:E.
  - destruct Hd as [Hd ->]. rewrite (proj2 (Z.ltb_ge _ _)) by lia. by apply (at_spaces _ []).
  - destruct Hd as [_ ->]. apply at_length in H1 as Hl'. cbn [length] in Hl'.
    rewrite (proj2 (Z.ltb_lt _ _)) by lia. apply at_spaces.
    apply (at_drop _ (c :: l') 1 H1). cbn. lia.
Qed.

Lemma at_value start l :
  vlen < 2 ^ 63 -> at_suffix start l ->
  let '(d, n) := take_value sep mem vlen start in slice_is v d n (before sep (ltrim l)).
Proof.
  intros Hlen H. unfold take_value. pose proof (at_spaces start l H) as H1.
  set (start' := skip_blanks mem vlen start) in *. unfold skip_while. rewrite (at_upto start' _ H1), count_before.
  pose proof (at_length _ _ H1) as Hl. destruct (before_prefix sep (ltrim l)) as [Ht Hle].
  destruct H1 as [H1 E]. replace (start' + Z.of_nat (length (before sep (ltrim l))) - start')
    with (Z.of_nat (length (before sep (ltrim l)))) by lia.
  rewrite wrap_small by (unfold in_u; lia). split_and!; [lia|done|lia|]. by rewrite Nat2Z.id, <- E.
Qed.

(** What the functions report for a value. *)
Definition field_result (o : option (list Z)) (res : option (option (Z * Z))) : Prop :=
  match o with
  | Some x => exists d n, res = Some (Some (d, n)) /\ slice_is v d n x
  | None => res = Some None
  end.

Lemma field_loop_spec fuel want start l :
  vlen < 2 ^ 63 -> head more = Some 0 -> at_suffix start l -> (length l < fuel)%nat ->
  field_result (find_field name want (field_list sep l))
    (field_loop fuel mem vlen name want sep start).
Proof.
  intros Hlen Hm. revert start l. induction fuel as [|fuel IH]; intros start l Hat Hf; [lia|].
  cbn [field_loop].
  assert (Hskip : forall s x, at_suffix s x -> (length x <= length l)%nat -> l <> [] ->
    field_result (find_field name want (field_list sep (skipf x)))
      (field_loop fuel mem vlen name want sep (skip_field sep mem vlen s))).
  { intros s x Hx Hle Hnil. apply IH; [by apply at_skip|]. pose proof (skipf_length x).
    destruct l; [done|]. cbn in *. lia. }
  pose proof (at_length _ _ Hat) as Hl.
  destruct (Z.ltb_spec start vlen) as [Hlt|Hge]; cbn [negb].
  2:{ destruct l; [|cbn in Hl; lia]. unfold field_list. cbn [split_on map]. by rewrite find_field_nil. }
  assert (Hnil : l <> []) by (intros ->; cbn in Hl; lia).
  rewrite (at_mem start l Hat).
  destruct (strncasecmp_spec name l more Hnul ltac:(by right)) as (d & Hd & Ed).
  rewrite Hd. bind_some. rewrite Ed, find_field_step.
  destruct (ci_prefix name l) eqn:Ep; cbn [negb]; [|by apply Hskip].
  pose proof (ci_prefix_length _ _ Ep) as Hple.
  pose proof (at_spaces _ _ (at_drop start l (length name) Hat Hple)) as H2.
  set (start' := skip_blanks mem vlen (start + Z.of_nat (length name))) in *.
  pose proof (at_length _ _ H2) as Hl2. pose proof (ltrim_length (drop (length name) l)) as Hll.
  rewrite length_drop in Hll. set (l2 := ltrim (drop (length name) l)) in *.
  destruct l2 as [|c l2'] eqn:E2; cbn [length] in Hl2, Hll.
  - rewrite (proj2 (Z.eqb_eq start' vlen)) by lia. destruct want; cbn [negb].
    + apply (Hskip start' []) in H2; [|cbn; lia|done]. cbn [skipf] in H2. unfold field_list in H2. cbn [split_on map] in H2.
      by rewrite find_field_nil in H2.
    + exists 0, 0. split; [done|]. split_and!; done || lia.
  - rewrite (proj2 (Z.eqb_neq start' vlen)) by lia. rewrite (at_read _ _ _ H2). bind_some. bind_some.
    pose proof (at_drop start' (c :: l2') 1 H2 ltac:(cbn; lia)) as H3. rewrite skipn_cons, drop_0 in H3.
    change (Z.of_nat 1) with 1 in H3. destruct want; cbn [negb].
    + destruct (c =? 61); cbn [negb]; [|apply (Hskip _ _ H3); [lia|done]].
      pose proof (at_value _ _ Hlen H3) as Hv.
      destruct (take_value sep mem vlen (start' + 1)) as [d' n']. by exists d', n'.
    + destruct (c =? sep); [|apply (Hskip _ _ H2); [cbn; lia|done]].
      exists 0, 0. split; [done|]. split_and!; done || lia.
Qed.

End Fields.

(** ** The headers of a request or response *)

Definition lookup_result (values : list (list Z)) (o : option (nat * list Z))
    (res : option (option (nat * (Z * Z)))) : Prop :=
  match o with
  | Some (i, x) => exists d n v, res = Some (Some (i, (d, n))) /\ values !! i = Some v /\ slice_is v d n x
  | None => res = Some None
  end.

Lemma lookup_result_cons v values o res :
  lookup_result values o res ->
  lookup_result (v :: values) ('(i, x) ← o; Some (S i, x))
    (r ← res; Some (match r with Some (i, w) => Some (S i, w) | None => None end)).
Proof.
  destruct o as [[i x]|]; cbn.
  - intros (d & n & v' & -> & Hv & Hs). cbn. by exists d, n, v'.
  - by intros ->.
Qed.

(** A header whose value is [v], with the NUL byte that follows it. *)
Definition header_is (h : elt) (v : list Z) : Prop :=
  (exists more, data h = v ++ 0 :: more) /\ len h = Z.of_nat (length v) /\ len h < 2 ^ 63.

Lemma multi_lines_spec headers values name want sep :
  name <> [] -> 0 ∉ name -> sep ∉ name -> sep = ch(",") \/ sep = ch(";") ->
  Forall2 header_is headers values ->
  lookup_result values (find_header (fun v => find_field name want (field_list sep v)) values)
    (ngx_http_parse_multi_header_lines_internal headers name want sep).
Proof.
  intros Hne Hnul Hsep Hs. induction 1 as [|h v headers values Hh _ IH]; [done|].
  cbn [find_header ngx_http_parse_multi_header_lines_internal].
  apply (lookup_result_cons v) in IH. destruct Hh as ((more & Hd) & Hl & Hlen).
  destruct (Z.ltb_spec (len h) (Z.of_nat (length name))) as [Hlt|Hge].
  { rewrite (find_field_short name sep Hne Hsep Hnul Hs) by lia. done. }
  rewrite Hd, Hl in *. rewrite Nat2Z.id.
  pose proof (field_loop_spec name sep Hne Hsep Hnul Hs v (0 :: more) (S (length v)) want 0 v
    Hlen eq_refl) as Hf.
  specialize (Hf ltac:(split; [lia|done]) ltac:(lia)).
  destruct (find_field name want (field_list sep v)) as [x|]; cbn [field_result] in Hf.
  - destruct Hf as (d & n & -> & Hsl). exists d, n, v. done.
  - rewrite Hf. done.
Qed.

Lemma set_cookie_spec headers values name :
  name <> [] -> 0 ∉ name -> ch(";") ∉ name -> Forall2 header_is headers values ->
  lookup_result values (find_header (fun v => find_field name true [before ch(";") v]) values)
    (ngx_http_parse_set_cookie_lines headers name).
Proof.
  intros Hne Hnul Hsep. induction 1 as [|h v headers values Hh _ IH]; [done|].
  cbn [find_header ngx_http_parse_set_cookie_lines].
  apply (lookup_result_cons v) in IH. destruct Hh as ((more & Hd) & Hl & Hlen).
  rewrite (find_first_step name 59) by (done || tauto).
  destruct (Z.leb_spec (len h) (Z.of_nat (length name))) as [Hle|Hgt].
  { destruct (ci_prefix name v) eqn:Ep; [|done]. apply ci_prefix_length in Ep.
    cbn [negb]. rewrite drop_ge by lia. done. }
  rewrite Hd, Hl in *.
  destruct (strncasecmp_spec name v (0 :: more) Hnul ltac:(by right)) as (d & -> & Ed).
  bind_some. rewrite Ed. destruct (ci_prefix name v) eqn:Ep; cbn [negb]; [|done].
  assert (H0 : at_suffix v (Z.of_nat (length name)) (drop (length name) v)) by (split; [lia|by rewrite Nat2Z.id]).
  pose proof (at_spaces v (0 :: more) _ _ H0) as H2.
  set (start := skip_while _ _ _ _) in *. pose proof (at_length v _ _ H2) as Hl2.
  destruct (ltrim (drop (length name) v)) as [|c l'] eqn:E; cbn [length] in Hl2.
  { rewrite (proj2 (Z.eqb_eq start _)) by lia. done. }
  rewrite (proj2 (Z.eqb_neq start _)) by lia. rewrite (at_read v (0 :: more) _ _ _ H2). bind_some.
  destruct (c =? 61); cbn [negb]; [|done].
  pose proof (at_drop v start (c :: l') 1 H2 ltac:(cbn; lia)) as H3. rewrite skipn_cons, drop_0 in H3.
  pose proof (at_value 59 v (0 :: more) _ _ Hlen H3) as Hv. change (Z.of_nat 1) with 1 in Hv.
  destruct (take_value _ _ _ _) as [d' n']. by exists d', n', v.
Qed.

(** C10. The lookups in the values of repeated headers find, in the first header
    that has it, the first field with the given name, whatever the case of its
    letters.  Fields are separated by commas or, in Cookie headers, by
    semicolons; a Set-Cookie header has the name in its first field.  They return
    the text behind the equals sign of the field, without the spaces around the
    sign, or look for a field that is just the name if no value is asked for.  Of a
    field that is just the name, when a value is asked for, they skip the next
    field too.  They read no further than the NUL byte behind a value. *)
Theorem header_lookup_correct (headers : list elt) (values : list (list Z)) (name : list Z)
    (Hh : Forall2 header_is headers values) (Hne : name <> []) (Hnul : 0 ∉ name)
    (Hcomma : ch(",") ∉ name) (Hsemi : ch(";") ∉ name) :
  (forall want,
     lookup_result values (find_header (fun v => find_field name want (field_list ch(",") v)) values)
       (ngx_http_parse_multi_header_lines headers name want) /\
     lookup_result values (find_header (fun v => find_field name want (field_list ch(";") v)) values)
       (ngx_http_parse_cookie_lines headers name want)) /\
  lookup_result values (find_header (fun v => find_field name true [before ch(";") v]) values)
    (ngx_http_parse_set_cookie_lines headers name).
Proof.
  split; [intros want; split; apply multi_lines_spec; tauto|]. by apply set_cookie_spec.
Qed.

Lemma header_lookup_correct_witness :
  let headers := [header_of str("a=1"); header_of str("b; SID = xyz; c")] in
  let values := [str("a=1"); str("b; SID = xyz; c")] in
  find_header (fun v => find_field str("sid") true (field_list ch(";") v)) values = Some (1%nat, str("xyz")) /\
  lookup_result values (Some (1%nat, str("xyz"))) (ngx_http_parse_cookie_lines headers str("sid") true).
Proof.
  cbv zeta. split; [vm_compute; reflexivity|].
  assert (Hh : Forall2 header_is [header_of str("a=1"); header_of str("b; SID = xyz; c")]
    [str("a=1"); str("b; SID = xyz; c")])
    by (repeat constructor; exists []; reflexivity).
  exact (proj2 (proj1 (header_lookup_correct _ _ str("sid") Hh ltac:(done) ltac:(by_evaluation)
    ltac:(by_evaluation) ltac:(by_evaluation)) true)).
Defined.

End Params.
