(* ===== verification/Digest.v ===== *)
(** * Buffered hashing: what ngx_md5_update, ngx_md5_final (src/core/ngx_md5.c),
    ngx_sha1_update and ngx_sha1_final (src/core/ngx_sha1.c) share

    The two files have the same code for collecting the bytes of a message into
    blocks of 64 and for the padding; they differ in the compression of a block, in
    the byte order of the length and in the output.  The class [BlockDigest] is that
    interface; [digest_correct] is proved against it once: however a message is cut
    into pieces, the result is that of the padded message. *)

From S2P Require Import Prelude.

Class BlockDigest := {
  dstate : Type;
  dinit : dstate;
  (** one iteration of the loop of ngx_md5_body or ngx_sha1_body *)
  compress : dstate -> list Z -> dstate;
  (** the bytes 56 to 63 of the last block *)
  encode_length : Z -> list Z;
  output : dstate -> list Z;
  encode_length_length : forall n, length (encode_length n) = 8%nat;
}.

Section Digest.
Context `{BlockDigest}.

(** ngx_md5_t, ngx_sha1_t *)
Record ctx := MkCtx { bytes : Z; st : dstate; buffer : list Z }.

(** ngx_memcpy(&buffer[at], data, size); ngx_memzero is a copy of zeros. *)
Definition copy_to (at_ : nat) (data : list Z) (buf : list Z) : list Z :=
  take at_ buf ++ data ++ drop (at_ + length data) buf.

(** The loop of ngx_md5_body and ngx_sha1_body, over [n] blocks of [p]. *)
Fixpoint blocks (n : nat) (s : dstate) (p : list Z) : dstate :=
  match n with
  | O => s
  | S n' => blocks n' (compress s (take 64 p)) (drop 64 p)
  end.

(** [size] is a multiple of 64 and not zero; the result has the pointer returned. *)
Definition hash_body (s : dstate) (data : list Z) (size : Z) : dstate * list Z :=
  (blocks (Z.to_nat (size / 64)) s data, drop (Z.to_nat size) data).

Definition digest_init (buf : list Z) : ctx := MkCtx 0 dinit buf.

(** The code from [if (size >= 64)] on. *)
Definition update_blocks (c : ctx) (data : list Z) : ctx :=
  let size := Z.of_nat (length data) in
  let '(s, data) :=
    if 64 <=? size then hash_body (st c) data (size - Z.land size 0x3f) else (st c, data) in
  MkCtx (bytes c) s (copy_to 0 data (buffer c)).

Definition digest_update (c : ctx) (data : list Z) : ctx :=
  let size := Z.of_nat (length data) in
  let used := Z.land (bytes c) 0x3f in
  let c := MkCtx (u64 (bytes c + size)) (st c) (buffer c) in
  if negb (used =? 0) then
    let free := 64 - used in
    if size <? free then MkCtx (bytes c) (st c) (copy_to (Z.to_nat used) data (buffer c))
    else
      let buf := copy_to (Z.to_nat used) (take (Z.to_nat free) data) (buffer c) in
      let data := drop (Z.to_nat free) data in
      update_blocks (MkCtx (bytes c) (fst (hash_body (st c) buf 64)) buf) data
  else update_blocks c data.

Definition digest_final (c : ctx) : list Z :=
  let used := Z.to_nat (Z.land (bytes c) 0x3f) in
  let buf := copy_to used [0x80] (buffer c) in
  let used := S used in
  let free := (64 - used)%nat in
  let '(s, buf, used, free) :=
    if (free <? 8)%nat then
      let buf := copy_to used (replicate free 0) buf in
      (fst (hash_body (st c) buf 64), buf, 0%nat, 64%nat)
    else (st c, buf, used, free) in
  let buf := copy_to used (replicate (free - 8) 0) buf in
  let buf := copy_to 56 (encode_length (u64 (Z.shiftl (bytes c) 3))) buf in
  output (fst (hash_body s buf 64)).

(** ** The specification *)

(** A one bit, zero bits up to eight bytes short of a block, the length in bits. *)
Definition pad (m : list Z) : list Z :=
  m ++ 0x80 :: replicate (Z.to_nat ((55 - Z.of_nat (length m)) mod 64)) 0
  ++ encode_length (8 * Z.of_nat (length m) mod 2 ^ 64).

Definition digest_spec (m : list Z) : list Z :=
  output (blocks (length (pad m) / 64) dinit (pad m)).

(** ** Blocks *)

Lemma blocks_add a b s p : blocks (a + b) s p = blocks b (blocks a s p) (drop (64 * a) p).
Proof.
  revert s p. induction a as [|a IH]; intros s p; [done|]. cbn [Nat.add blocks].
  rewrite IH, drop_drop. do 2 f_equal. lia.
Qed.

Lemma blocks_app a s p q : (64 * a <= length p)%nat -> blocks a s (p ++ q) = blocks a s p.
Proof.
  revert s p. induction a as [|a IH]; intros s p Hl; [done|]. cbn [blocks].
  rewrite take_app_le, drop_app_le by lia. apply IH. rewrite length_drop. lia.
Qed.

Lemma blocks_one s p : length p = 64%nat -> blocks 1 s p = compress s p.
Proof. intros Hl. cbn [blocks]. by rewrite take_ge by lia. Qed.

Lemma copy_to_length k data buf :
  (k + length data <= length buf)%nat -> length (copy_to k data buf) = length buf.
Proof. intros Hl. unfold copy_to. rewrite !length_app, length_take, length_drop. lia. Qed.

Lemma take_copy_to k data buf :
  (k + length data <= length buf)%nat ->
  take (k + length data) (copy_to k data buf) = take k buf ++ data.
Proof.
  intros Hl. unfold copy_to. rewrite app_assoc, take_app_le by (rewrite length_app, length_take; lia).
  apply take_ge. rewrite length_app, length_take. lia.
Qed.

(** ** The invariant: a context that has taken in [m] *)

Definition absorbed (c : ctx) (m : list Z) : Prop :=
  bytes c = u64 (Z.of_nat (length m)) /\ length (buffer c) = 64%nat /\
  st c = blocks (length m / 64) dinit m /\
  take (length m mod 64) (buffer c) = drop (64 * (length m / 64)) m.

Lemma land_63 n : Z.land (u64 (Z.of_nat n)) 0x3f = Z.of_nat (n mod 64).
Proof.
  change 0x3f with (2 ^ 6 - 1). rewrite land_mask by lia. unfold wrap.
  rewrite Z.mod_mod_divide by (by exists (2 ^ 58)). by rewrite Nat2Z.inj_mod.
Qed.

(** Whole blocks go through the compression, the rest into the buffer. *)
Lemma update_blocks_absorbed c m data :
  bytes c = u64 (Z.of_nat (length (m ++ data))) -> length (buffer c) = 64%nat ->
  (length m mod 64 = 0)%nat -> st c = blocks (length m / 64) dinit m ->
  absorbed (update_blocks c data) (m ++ data).
Proof.
  intros Hb Hl Hm Hs. unfold update_blocks.
  set (q := (length data / 64)%nat).
  assert (Hq : (length (m ++ data) / 64 = length m / 64 + q)%nat /\
    (length (m ++ data) mod 64 = length data mod 64)%nat /\ (64 * (length m / 64) = length m)%nat).
  { rewrite length_app. pose proof (Nat.div_mod_eq (length m) 64).
    replace (length m + length data)%nat with (length data + length m / 64 * 64)%nat by lia.
    rewrite Nat.div_add, Nat.Div0.mod_add by lia. unfold q. lia. }
  destruct Hq as (Hq1 & Hq2 & Hq3).
  assert (Hst : blocks (length (m ++ data) / 64) dinit (m ++ data) = blocks q (st c) data).
  { rewrite Hq1, blocks_add, Hq3, drop_app_length, blocks_app by lia. by rewrite Hs. }
  assert (Hrest : drop (64 * (length (m ++ data) / 64)) (m ++ data) = drop (64 * q) data).
  { rewrite Hq1, drop_app_ge by lia. f_equal. lia. }
  pose proof (Nat.div_mod_eq (length data) 64) as Hdm. fold q in Hdm.
  pose proof (Nat.mod_upper_bound (length data) 64 ltac:(lia)) as Hub.
  assert (Hr : length (drop (64 * q) data) = (length data mod 64)%nat) by (rewrite length_drop; lia).
  assert (Hcase : (if 64 <=? Z.of_nat (length data)
     then hash_body (st c) data (Z.of_nat (length data) - Z.land (Z.of_nat (length data)) 0x3f)
     else (st c, data)) = (blocks q (st c) data, drop (64 * q) data)).
  { destruct (Z.leb_spec 64 (Z.of_nat (length data))).
    - change 0x3f with (2 ^ 6 - 1). rewrite land_mask by lia. change (2 ^ 6) with (Z.of_nat 64).
      rewrite <- Nat2Z.inj_mod. unfold hash_body.
      replace (Z.of_nat (length data) - Z.of_nat (length data mod 64)) with (Z.of_nat q * 64) by lia.
      rewrite Z.div_mul, Nat2Z.id by lia. do 2 f_equal. lia.
    - assert (q = 0%nat) as -> by (apply Nat.div_small; lia). done. }
  rewrite Hcase. split_and!; cbn [bytes st buffer]; [done| |done|].
  - rewrite copy_to_length; lia.
  - rewrite Hrest, Hq2, <- Hr. by apply (take_copy_to 0); lia.
Qed.

Lemma update_absorbed c m data : absorbed c m -> absorbed (digest_update c data) (m ++ data).
Proof.
  intros (Hb & Hl & Hs & Ht). unfold digest_update. rewrite Hb, land_63.
  pose proof (Nat.div_mod_eq (length m) 64) as Hdm.
  pose proof (Nat.mod_upper_bound (length m) 64 ltac:(lia)) as Hub.
  set (used := (length m mod 64)%nat) in *.
  assert (Hb' : u64 (u64 (Z.of_nat (length m)) + Z.of_nat (length data)) = u64 (Z.of_nat (length (m ++ data))))
    by (unfold wrap; rewrite Zplus_mod_idemp_l, length_app; f_equal; lia).
  cbn [bytes st buffer]. rewrite Hb'.
  destruct (Z.eqb_spec (Z.of_nat used) 0) as [E|E]; cbn [negb].
  { apply update_blocks_absorbed; try done. fold used. lia. }
  assert (Htl : length (drop (64 * (length m / 64)) m) = used) by (rewrite length_drop; lia).
  destruct (Z.ltb_spec (Z.of_nat (length data)) (64 - Z.of_nat used)) as [Hlt|Hge].
  - assert (Hd : (length (m ++ data) / 64 = length m / 64)%nat)
      by (rewrite length_app; symmetry; apply (Nat.div_unique _ 64 _ (used + length data)); lia).
    assert (Hm : (length (m ++ data) mod 64 = used + length data)%nat)
      by (rewrite length_app; symmetry; apply (Nat.mod_unique _ 64 (length m / 64)); lia).
    split_and!; cbn [bytes st buffer]; [done| | |]; rewrite ?Nat2Z.id.
    + rewrite copy_to_length; lia.
    + by rewrite Hd, blocks_app by lia.
    + rewrite Hm, Hd, take_copy_to, Ht, drop_app_le by lia. done.
  - replace (Z.to_nat (64 - Z.of_nat used)) with (64 - used)%nat by lia. rewrite Nat2Z.id.
    set (d1 := take (64 - used) data). set (d2 := drop (64 - used) data).
    assert (Hd1 : length d1 = (64 - used)%nat) by (unfold d1; rewrite length_take; lia).
    assert (Hbuf : copy_to used d1 (buffer c) = drop (64 * (length m / 64)) m ++ d1).
    { rewrite <- Ht, <- take_copy_to by lia. symmetry. apply take_ge. rewrite copy_to_length; lia. }
    assert (Hm1 : length (m ++ d1) = (64 * (length m / 64 + 1))%nat) by (rewrite length_app; lia).
    assert (Hdiv : (length (m ++ d1) / 64 = length m / 64 + 1)%nat)
      by (rewrite Hm1, Nat.mul_comm; apply Nat.div_mul; lia).
    replace (m ++ data) with ((m ++ d1) ++ d2) by (unfold d1, d2; by rewrite <- app_assoc, take_drop).
    apply update_blocks_absorbed; cbn [bytes st buffer].
    + done.
    + rewrite copy_to_length; lia.
    + rewrite Hm1, Nat.mul_comm. apply Nat.Div0.mod_mul.
    + rewrite Hdiv, blocks_add, blocks_app, <- Hs, drop_app_le by lia. rewrite <- Hbuf. done.
Qed.

(** ** The padding *)

Lemma copy_to_end k data buf :
  length buf = 64%nat -> (k + length data = 64)%nat -> copy_to k data buf = take k buf ++ data.
Proof. intros Hl Hk. unfold copy_to. rewrite drop_ge by lia. by rewrite app_nil_r. Qed.

Lemma take_copy_short k j data buf :
  (j <= k)%nat -> (k <= length buf)%nat -> take j (copy_to k data buf) = take j buf.
Proof.
  intros Hj Hk. unfold copy_to. rewrite take_app_le by (rewrite length_take; lia).
  rewrite take_take. f_equal. lia.
Qed.

(** The last block: [x] in front, zeros, the length. *)
Lemma last_block x k z buf (len8 : list Z) :
  length buf = 64%nat -> length len8 = 8%nat -> take k buf = x -> length x = k -> (k + z = 56)%nat ->
  copy_to 56 len8 (copy_to k (replicate z 0) buf) = x ++ replicate z 0 ++ len8.
Proof.
  intros Hl H8 Hx Hk Hz. rewrite copy_to_end; [|rewrite copy_to_length; rewrite ?length_replicate; lia|lia].
  replace 56%nat with (k + length (replicate z 0%Z))%nat at 1 by (rewrite length_replicate; lia).
  rewrite take_copy_to by (rewrite length_replicate; lia). by rewrite Hx, <- app_assoc.
Qed.

(** The blocks of a message that is a multiple of the block and one or two blocks more. *)
Lemma digest_blocks m x :
  (length (m ++ x) mod 64 = 0)%nat -> (64 <= length (drop (64 * (length m / 64)) m ++ x))%nat ->
  blocks (length (m ++ x) / 64) dinit (m ++ x)
  = blocks (length (drop (64 * (length m / 64)) m ++ x) / 64) (blocks (length m / 64) dinit m)
      (drop (64 * (length m / 64)) m ++ x).
Proof.
  intros Hm Hx. pose proof (Nat.div_mod_eq (length m) 64) as Hdm.
  pose proof (Nat.mod_upper_bound (length m) 64 ltac:(lia)) as Hub.
  rewrite <- (blocks_app (length m / 64) dinit m x) by lia.
  rewrite <- (drop_app_le m x) by lia. rewrite <- blocks_add. f_equal.
  rewrite length_drop, !length_app in *.
  replace (length m + length x)%nat
    with (length m + length x - 64 * (length m / 64) + (length m / 64) * 64)%nat at 1 by lia.
  rewrite Nat.div_add by lia. lia.
Qed.

Lemma length_in_bits n : u64 (Z.shiftl (u64 n) 3) = (8 * n) mod 2 ^ 64.
Proof.
  rewrite Z.shiftl_mul_pow2 by lia. unfold wrap. rewrite Zmult_mod_idemp_l. f_equal. lia.
Qed.

(** The number of zero bytes. *)
Lemma pad_zeros n :
  Z.to_nat ((55 - Z.of_nat n) mod 64)
  = if (n mod 64 <? 56)%nat then (55 - n mod 64)%nat else (119 - n mod 64)%nat.
Proof.
  pose proof (Nat.div_mod_eq n 64). pose proof (Nat.mod_upper_bound n 64 ltac:(lia)).
  destruct (Nat.ltb_spec (n mod 64) 56).
  - rewrite <- (Z.mod_unique (55 - Z.of_nat n) 64 (- Z.of_nat (n / 64)) (55 - Z.of_nat (n mod 64))); lia.
  - rewrite <- (Z.mod_unique (55 - Z.of_nat n) 64 (- Z.of_nat (n / 64) - 1) (119 - Z.of_nat (n mod 64))); lia.
Qed.

Lemma final_correct c m : absorbed c m -> digest_final c = digest_spec m.
Proof.
  intros (Hb & Hl & Hs & Ht). unfold digest_final, digest_spec, pad.
  rewrite Hb, land_63, Nat2Z.id, length_in_bits, pad_zeros.
  pose proof (Nat.div_mod_eq (length m) 64) as Hdm.
  pose proof (Nat.mod_upper_bound (length m) 64 ltac:(lia)) as Hub.
  set (len8 := encode_length _). assert (H8 : length len8 = 8%nat) by apply encode_length_length.
  set (used := (length m mod 64)%nat) in *. set (r := drop (64 * (length m / 64)) m) in *.
  assert (Hr : length r = used) by (unfold r; rewrite length_drop; lia).
  assert (H1 : take (S used) (copy_to used [128] (buffer c)) = r ++ [128]).
  { rewrite <- Ht, <- take_copy_to by (cbn [length]; lia). f_equal. cbn [length]. lia. }
  assert (Hl1 : length (copy_to used [128] (buffer c)) = 64%nat) by (rewrite copy_to_length; cbn [length]; lia).
  assert (Hr1 : length (r ++ [128]) = S used) by (rewrite length_app; cbn [length]; lia).
  set (buf1 := copy_to used [128] (buffer c)) in *. unfold hash_body. cbn [fst].
  change (Z.to_nat (64 / 64)) with 1%nat. f_equal.
  assert (Hmod : forall z, (used + z + 9 = 64 \/ used + z + 9 = 128)%nat ->
    blocks (length (m ++ 128 :: replicate z 0 ++ len8) / 64) dinit (m ++ 128 :: replicate z 0 ++ len8)
    = blocks ((used + z + 9) / 64) (st c) (r ++ [128] ++ replicate z 0 ++ len8)).
  { intros z Hz.
    assert (Hlx : length (128 :: replicate z 0 ++ len8) = (z + 9)%nat)
      by (cbn [length]; rewrite length_app, length_replicate; lia).
    rewrite digest_blocks, <- Hs; fold r; cbn [app].
    - do 2 f_equal. rewrite length_app, Hlx. lia.
    - rewrite length_app, Hlx, Hdm.
      replace (64 * (length m / 64) + used + (z + 9))%nat with (used + z + 9 + length m / 64 * 64)%nat by lia.
      rewrite Nat.Div0.mod_add. destruct Hz as [-> | ->]; done.
    - rewrite length_app, Hlx. lia. }
  destruct (Nat.ltb_spec (64 - S used) 8) as [Hlt|Hge]; [assert (E : (used <? 56)%nat = false) by (apply Nat.ltb_ge; lia)
    |assert (E : (used <? 56)%nat = true) by (apply Nat.ltb_lt; lia)]; rewrite E, Hmod by lia.
  - replace (used + (119 - used) + 9)%nat with 128%nat by lia. change (128 / 64)%nat with (1 + 1)%nat.
    set (z1 := (64 - S used)%nat).
    assert (Hb2 : copy_to (S used) (replicate z1 0) buf1 = r ++ [128] ++ replicate z1 0).
    { rewrite copy_to_end, H1 by (rewrite ?length_replicate; lia). by rewrite <- app_assoc. }
    rewrite Hb2. set (x1 := r ++ [128] ++ replicate z1 0).
    assert (Hx1 : length x1 = 64%nat) by (unfold x1; rewrite !length_app, length_replicate; cbn [length]; lia).
    rewrite (last_block [] 0 (64 - 8)) by (done || lia). cbn [app].
    replace (119 - used)%nat with (z1 + 56)%nat by lia. rewrite replicate_add.
    replace (r ++ 128 :: (replicate z1 0 ++ replicate 56 0) ++ len8)
      with (x1 ++ replicate 56 0 ++ len8) by (unfold x1; by rewrite <- !app_assoc).
    rewrite blocks_add, (blocks_app 1 (st c) x1) by lia. by rewrite drop_app_length' by lia.
  - replace (used + (55 - used) + 9)%nat with 64%nat by lia. change (64 / 64)%nat with 1%nat.
    rewrite (last_block (r ++ [128]) (S used) (64 - S used - 8)) by (done || lia).
    replace (64 - S used - 8)%nat with (55 - used)%nat by lia. by rewrite <- app_assoc.
Qed.

Lemma init_absorbed buf : length buf = 64%nat -> absorbed (digest_init buf) [].
Proof. by intros Hl. Qed.

(** However a message is cut into pieces, the digest is that of the padded
    message, whatever was in the buffer before. *)
Lemma digest_correct buf (pieces : list (list Z)) :
  length buf = 64%nat ->
  digest_final (fold_left digest_update pieces (digest_init buf)) = digest_spec (concat pieces).
Proof.
  intros Hl. apply final_correct.
  assert (Hg : forall c m, absorbed c m -> absorbed (fold_left digest_update pieces c) (m ++ concat pieces)).
  { induction pieces as [|p pieces IH]; intros c m Hc; cbn [fold_left concat]; [by rewrite app_nil_r|].
    rewrite app_assoc. by apply IH, update_absorbed. }
  by apply (Hg _ []), init_absorbed.
Qed.

End Digest.

(** ** Words of 32 bits *)

(** ~ on uint32_t *)
Definition not32 (z : Z) : Z := u32 (Z.lnot z).

(** x rotated left by s bits. *)
Definition rotl (x s : Z) : Z := (x * 2 ^ s) mod 2 ^ 32 + x / 2 ^ (32 - s).

Definition word_ok (x : Z) : Prop := in_u 32 x.

Lemma word_high x i : word_ok x -> 32 <= i -> Z.testbit x i = false.
Proof.
  intros Hx Hi. rewrite <- (Z.mod_small x (2 ^ 32)) by exact Hx. apply Z.mod_pow2_bits_high. lia.
Qed.

Lemma not32_bit x i : 0 <= i -> Z.testbit (not32 x) i = (i <? 32) && negb (Z.testbit x i).
Proof.
  intros Hi. unfold not32, wrap. destruct (Z.ltb_spec i 32).
  - rewrite Z.mod_pow2_bits_low, Z.lnot_spec by lia. done.
  - by rewrite Z.mod_pow2_bits_high by lia.
Qed.

Ltac word_bits :=
  apply Z.bits_inj'; intros i Hi;
  rewrite ?Z.lor_spec, ?Z.lxor_spec, ?Z.land_spec, ?Z.lor_spec, ?Z.lxor_spec, ?Z.land_spec, ?not32_bit by done.

Lemma word_wrap x : word_ok (u32 x).
Proof. by apply wrap_range. Qed.

(** A rotation written with two shifts. *)
Lemma rotate_rotl a s :
  word_ok a -> 0 < s < 32 -> Z.lor (u32 (Z.shiftl a s)) (Z.shiftr a (32 - s)) = rotl a s.
Proof.
  intros Ha Hs.
  unfold rotl. rewrite <- Z.shiftl_mul_pow2, <- Z.shiftr_div_pow2 by lia. fold (wrap 32 (Z.shiftl a s)).
  assert (E : u32 (Z.shiftl a s) = Z.shiftl (a mod 2 ^ (32 - s)) s).
  { rewrite !Z.shiftl_mul_pow2 by lia. unfold wrap.
    replace (2 ^ 32) with (2 ^ (32 - s) * 2 ^ s) by (rewrite <- Z.pow_add_r by lia; f_equal; lia).
    apply Z.mul_mod_distr_r; lia. }
  rewrite E, lor_shiftl_add, <- Z.shiftl_mul_pow2; [done|lia|lia|].
  rewrite Z.shiftr_div_pow2 by lia. unfold word_ok, in_u in Ha. split; [apply Z.div_pos; lia|].
  apply Z.div_lt_upper_bound; [lia|]. rewrite <- Z.pow_add_r by lia.
  replace (32 - s + s) with 32 by lia. lia.
Qed.

Lemma nth_byte p : bytes_ok p -> forall i, 0 <= nth i p 0 < 256.
Proof.
  intros Hp i. destruct (nth_in_or_default i p 0) as [Hin| ->]; [|lia].
  rewrite List.Forall_forall in Hp. by apply Hp.
Qed.

Lemma word_of_bits x : (forall i, 32 <= i -> Z.testbit x i = false) -> word_ok x.
Proof.
  intros Hx. replace x with (u32 x); [apply word_wrap|]. unfold wrap. apply Z.bits_inj'. intros i Hi.
  destruct (Z.ltb_spec i 32); [by rewrite Z.mod_pow2_bits_low by lia|].
  rewrite Z.mod_pow2_bits_high by lia. by rewrite Hx.
Qed.

Lemma lxor_word x y : word_ok x -> word_ok y -> word_ok (Z.lxor x y).
Proof. intros Hx Hy. apply word_of_bits. intros i Hi. by rewrite Z.lxor_spec, !word_high. Qed.

Lemma rotl_word a s : word_ok a -> 0 < s < 32 -> word_ok (rotl a s).
Proof.
  intros Ha Hs. rewrite <- rotate_rotl by done. apply word_of_bits. intros i Hi.
  rewrite Z.lor_spec, Z.shiftr_spec, (word_high a) by (done || lia).
  by rewrite word_high by (apply word_wrap || done).
Qed.
