(* ===== verification/Md5.v ===== *)
(** * MD5: src/core/ngx_md5.c, ngx_md5.h

    The 64 invocations of the macro STEP are a table that [run_step] executes on the
    four registers; buffering and padding are those of [Digest].  The reference is
    the algorithm of RFC 1321: auxiliary functions, schedule and sine table are
    written independently of the code. *)

From S2P Require Import Prelude Digest.

Module Md5.

(** The basic MD5 functions. *)
Definition F (x y z : Z) : Z := Z.lxor z (Z.land x (Z.lxor y z)).
Definition G (x y z : Z) : Z := Z.lxor y (Z.land z (Z.lxor x y)).
Definition H (x y z : Z) : Z := Z.lxor (Z.lxor x y) z.
Definition I (x y z : Z) : Z := Z.lxor y (Z.lor x (not32 z)).

Inductive fn := fF | fG | fH | fI.
Definition apply_fn (f : fn) : Z -> Z -> Z -> Z :=
  match f with fF => F | fG => G | fH => H | fI => I end.

(** Which registers the macro gets as its a, b, c and d. *)
Inductive order := abcd | dabc | cdab | bcda.
Definition regs : Type := Z * Z * Z * Z.

Definition view (o : order) (r : regs) : regs :=
  let '(a, b, c, d) := r in
  match o with
  | abcd => (a, b, c, d) | dabc => (d, a, b, c) | cdab => (c, d, a, b) | bcda => (b, c, d, a)
  end.

(** The registers with a new value of the macro's a. *)
Definition assign (o : order) (x : Z) (r : regs) : regs :=
  let '(a, b, c, d) := r in
  match o with
  | abcd => (x, b, c, d) | dabc => (a, b, c, x) | cdab => (a, b, x, d) | bcda => (a, x, c, d)
  end.

Definition STEP (f : fn) (o : order) (x t s : Z) (r : regs) : regs :=
  let '(a, b, c, d) := view o r in
  let a := u32 (a + (apply_fn f b c d + x + t)) in
  let a := Z.lor (u32 (Z.shiftl a s)) (Z.shiftr (Z.land a 0xffffffff) (32 - s)) in
  let a := u32 (a + b) in
  assign o a r.

(** SET and GET: a word of the block. *)
Definition SET (p : list Z) (n : nat) : Z :=
  let b i := nth (n * 4 + i) p 0 in
  Z.lor (Z.lor (Z.lor (b 0%nat) (Z.shiftl (b 1%nat) 8)) (Z.shiftl (b 2%nat) 16)) (Z.shiftl (b 3%nat) 24).

Abbreviation step := (fn * order * nat * Z * Z)%type.

(** Round 1 *)
Definition round1 : list step :=
  [ (fF, abcd, 0%nat, 0xd76aa478, 7); (fF, dabc, 1%nat, 0xe8c7b756, 12);
    (fF, cdab, 2%nat, 0x242070db, 17); (fF, bcda, 3%nat, 0xc1bdceee, 22);
    (fF, abcd, 4%nat, 0xf57c0faf, 7); (fF, dabc, 5%nat, 0x4787c62a, 12);
    (fF, cdab, 6%nat, 0xa8304613, 17); (fF, bcda, 7%nat, 0xfd469501, 22);
    (fF, abcd, 8%nat, 0x698098d8, 7); (fF, dabc, 9%nat, 0x8b44f7af, 12);
    (fF, cdab, 10%nat, 0xffff5bb1, 17); (fF, bcda, 11%nat, 0x895cd7be, 22);
    (fF, abcd, 12%nat, 0x6b901122, 7); (fF, dabc, 13%nat, 0xfd987193, 12);
    (fF, cdab, 14%nat, 0xa679438e, 17); (fF, bcda, 15%nat, 0x49b40821, 22) ].

(** Round 2 *)
Definition round2 : list step :=
  [ (fG, abcd, 1%nat, 0xf61e2562, 5); (fG, dabc, 6%nat, 0xc040b340, 9);
    (fG, cdab, 11%nat, 0x265e5a51, 14); (fG, bcda, 0%nat, 0xe9b6c7aa, 20);
    (fG, abcd, 5%nat, 0xd62f105d, 5); (fG, dabc, 10%nat, 0x02441453, 9);
    (fG, cdab, 15%nat, 0xd8a1e681, 14); (fG, bcda, 4%nat, 0xe7d3fbc8, 20);
    (fG, abcd, 9%nat, 0x21e1cde6, 5); (fG, dabc, 14%nat, 0xc33707d6, 9);
    (fG, cdab, 3%nat, 0xf4d50d87, 14); (fG, bcda, 8%nat, 0x455a14ed, 20);
    (fG, abcd, 13%nat, 0xa9e3e905, 5); (fG, dabc, 2%nat, 0xfcefa3f8, 9);
    (fG, cdab, 7%nat, 0x676f02d9, 14); (fG, bcda, 12%nat, 0x8d2a4c8a, 20) ].

(** Round 3 *)
Definition round3 : list step :=
  [ (fH, abcd, 5%nat, 0xfffa3942, 4); (fH, dabc, 8%nat, 0x8771f681, 11);
    (fH, cdab, 11%nat, 0x6d9d6122, 16); (fH, bcda, 14%nat, 0xfde5380c, 23);
    (fH, abcd, 1%nat, 0xa4beea44, 4); (fH, dabc, 4%nat, 0x4bdecfa9, 11);
    (fH, cdab, 7%nat, 0xf6bb4b60, 16); (fH, bcda, 10%nat, 0xbebfbc70, 23);
    (fH, abcd, 13%nat, 0x289b7ec6, 4); (fH, dabc, 0%nat, 0xeaa127fa, 11);
    (fH, cdab, 3%nat, 0xd4ef3085, 16); (fH, bcda, 6%nat, 0x04881d05, 23);
    (fH, abcd, 9%nat, 0xd9d4d039, 4); (fH, dabc, 12%nat, 0xe6db99e5, 11);
    (fH, cdab, 15%nat, 0x1fa27cf8, 16); (fH, bcda, 2%nat, 0xc4ac5665, 23) ].

(** Round 4 *)
Definition round4 : list step :=
  [ (fI, abcd, 0%nat, 0xf4292244, 6); (fI, dabc, 7%nat, 0x432aff97, 10);
    (fI, cdab, 14%nat, 0xab9423a7, 15); (fI, bcda, 5%nat, 0xfc93a039, 21);
    (fI, abcd, 12%nat, 0x655b59c3, 6); (fI, dabc, 3%nat, 0x8f0ccc92, 10);
    (fI, cdab, 10%nat, 0xffeff47d, 15); (fI, bcda, 1%nat, 0x85845dd1, 21);
    (fI, abcd, 8%nat, 0x6fa87e4f, 6); (fI, dabc, 15%nat, 0xfe2ce6e0, 10);
    (fI, cdab, 6%nat, 0xa3014314, 15); (fI, bcda, 13%nat, 0x4e0811a1, 21);
    (fI, abcd, 4%nat, 0xf7537e82, 6); (fI, dabc, 11%nat, 0xbd3af235, 10);
    (fI, cdab, 2%nat, 0x2ad7d2bb, 15); (fI, bcda, 9%nat, 0xeb86d391, 21) ].

Definition run_step (p : list Z) (r : regs) (s : step) : regs :=
  let '(f, o, k, t, n) := s in STEP f o (SET p k) t n r.

(** One iteration of the loop of ngx_md5_body. *)
Definition md5_block (r : regs) (p : list Z) : regs :=
  let '(saved_a, saved_b, saved_c, saved_d) := r in
  let '(a, b, c, d) := fold_left (run_step p) (round1 ++ round2 ++ round3 ++ round4) r in
  (u32 (a + saved_a), u32 (b + saved_b), u32 (c + saved_c), u32 (d + saved_d)).

Definition le_bytes (n : nat) (x : Z) : list Z :=
  map (fun i => u8 (Z.shiftr x (8 * Z.of_nat i))) (seq 0 n).

Definition md5_result (r : regs) : list Z :=
  let '(a, b, c, d) := r in le_bytes 4 a ++ le_bytes 4 b ++ le_bytes 4 c ++ le_bytes 4 d.

#[global] Instance md5 : BlockDigest := {|
  dstate := regs;
  dinit := (0x67452301, 0xefcdab89, 0x98badcfe, 0x10325476);
  compress := md5_block;
  encode_length := le_bytes 8;
  output := md5_result;
  encode_length_length := fun n => eq_refl;
|}.

Definition ngx_md5_init : list Z -> ctx := digest_init.
Definition ngx_md5_update : ctx -> list Z -> ctx := digest_update.
Definition ngx_md5_final : ctx -> list Z := digest_final.

(** The test suite of RFC 1321. *)
Definition md5_hex (m : list Z) : list Z :=
  flat_map (fun x => [nth (Z.to_nat (x / 16)) str("0123456789abcdef") 0;
                      nth (Z.to_nat (x mod 16)) str("0123456789abcdef") 0])
    (ngx_md5_final (ngx_md5_update (ngx_md5_init (replicate 64 7)) m)).

Example md5_empty : md5_hex [] = str("d41d8cd98f00b204e9800998ecf8427e").
Proof. vm_compute. reflexivity. Qed.

Example md5_abc : md5_hex str("abc") = str("900150983cd24fb0d6963f7d28e17f72").
Proof. vm_compute. reflexivity. Qed.

(** ** RFC 1321 *)

Definition rfc_F (x y z : Z) : Z := Z.lor (Z.land x y) (Z.land (not32 x) z).
Definition rfc_G (x y z : Z) : Z := Z.lor (Z.land x z) (Z.land y (not32 z)).
Definition rfc_H (x y z : Z) : Z := Z.lxor x (Z.lxor y z).
Definition rfc_I (x y z : Z) : Z := Z.lxor y (Z.lor x (not32 z)).

(** The sum of the first [n] terms of the sine series of [x], starting with
    [term], in units of 2 ^ -256. *)
Fixpoint sine_sum (n : nat) (k : Z) (x term : Z) : Z :=
  match n with
  | O => 0
  | S n' => term - sine_sum n' (k + 2) x (term * x * x / ((k + 1) * (k + 2)))
  end.

(** T[i]: the integer part of 2 ^ 32 times abs(sin(i + 1)). *)
Definition T (i : nat) : Z :=
  let x := Z.of_nat i + 1 in Z.abs (sine_sum 130 1 x (x * 2 ^ 256)) / 2 ^ (256 - 32).

Definition rfc_fn (i : nat) : fn :=
  match (i / 16)%nat with 0%nat => fF | 1%nat => fG | 2%nat => fH | _ => fI end.
Definition rfc_apply (f : fn) : Z -> Z -> Z -> Z :=
  match f with fF => rfc_F | fG => rfc_G | fH => rfc_H | fI => rfc_I end.
Definition rfc_index (i : nat) : nat :=
  match rfc_fn i with
  | fF => i mod 16 | fG => (5 * i + 1) mod 16 | fH => (3 * i + 5) mod 16 | fI => (7 * i) mod 16
  end.
Definition rfc_shift (i : nat) : Z :=
  nth (i mod 4)
    (match rfc_fn i with
     | fF => [7; 12; 17; 22] | fG => [5; 9; 14; 20] | fH => [4; 11; 16; 23] | fI => [6; 10; 15; 21]
     end) 0.

Definition word (p : list Z) (n : nat) : Z :=
  nth (n * 4) p 0 + 256 * nth (n * 4 + 1) p 0 + 65536 * nth (n * 4 + 2) p 0
  + 16777216 * nth (n * 4 + 3) p 0.

(** Operation [i]; the registers are renamed after each one. *)
Definition rfc_step (p : list Z) (r : regs) (i : nat) : regs :=
  let '(a, b, c, d) := r in
  let sum := (a + rfc_apply (rfc_fn i) b c d + word p (rfc_index i) + T i) mod 2 ^ 32 in
  (d, (b + rotl sum (rfc_shift i)) mod 2 ^ 32, b, c).

Definition rfc_block (r : regs) (p : list Z) : regs :=
  let '(aa, bb, cc, dd) := r in
  let '(a, b, c, d) := fold_left (rfc_step p) (seq 0 64) r in
  ((a + aa) mod 2 ^ 32, (b + bb) mod 2 ^ 32, (c + cc) mod 2 ^ 32, (d + dd) mod 2 ^ 32).

Definition little_endian (n : nat) (x : Z) : list Z :=
  map (fun i => x / 256 ^ Z.of_nat i mod 256) (seq 0 n).

Definition rfc1321 : BlockDigest := {|
  dstate := regs;
  dinit := (0x67452301, 0xefcdab89, 0x98badcfe, 0x10325476);
  compress := rfc_block;
  encode_length := little_endian 8;
  output := fun r => let '(a, b, c, d) := r in
    little_endian 4 a ++ little_endian 4 b ++ little_endian 4 c ++ little_endian 4 d;
  encode_length_length := fun n => eq_refl;
|}.

(** The message digest of RFC 1321. *)
Definition md5_rfc : list Z -> list Z := @digest_spec rfc1321.

Definition order_of (i : nat) : order :=
  match (i mod 4)%nat with 0%nat => abcd | 1%nat => dabc | 2%nat => cdab | _ => bcda end.

(** The table of the code is the schedule of the RFC. *)
Lemma md5_schedule :
  round1 ++ round2 ++ round3 ++ round4
  = map (fun i => (rfc_fn i, order_of i, rfc_index i, T i, rfc_shift i)) (seq 0 64).
Proof. vm_compute. reflexivity. Qed.

(** ** The steps *)

(** The optimised functions are those of the RFC. *)
Lemma apply_fn_rfc f x y z : word_ok y -> word_ok z -> apply_fn f x y z = rfc_apply f x y z.
Proof.
  intros Hy Hz. destruct f; cbn [apply_fn rfc_apply]; unfold F, G, H, rfc_F, rfc_G, rfc_H; [| |by rewrite Z.lxor_assoc|done].
  all: word_bits; destruct (Z.ltb_spec i 32) as [Hl|Hl]; cbn [andb].
  1,3: by destruct (Z.testbit x i), (Z.testbit y i), (Z.testbit z i).
  - rewrite (word_high z) by done. by destruct (Z.testbit x i), (Z.testbit y i).
  - rewrite (word_high y) by done. by destruct (Z.testbit x i), (Z.testbit z i).
Qed.

Lemma rotate_rfc a s :
  word_ok a -> 0 < s < 32 ->
  Z.lor (u32 (Z.shiftl a s)) (Z.shiftr (Z.land a 0xffffffff) (32 - s)) = rotl a s.
Proof.
  intros Ha Hs. change 0xffffffff with (2 ^ 32 - 1). rewrite land_mask, Z.mod_small by (done || lia).
  by apply rotate_rotl.
Qed.

Lemma SET_word p n : bytes_ok p -> SET p n = word p n.
Proof.
  intros Hp. pose proof (nth_byte p Hp) as Hb.
  unfold SET, word. rewrite Nat.add_0_r.
  pose proof (Hb (n * 4)%nat). pose proof (Hb (n * 4 + 1)%nat).
  pose proof (Hb (n * 4 + 2)%nat). pose proof (Hb (n * 4 + 3)%nat).
  rewrite (Z.lor_comm _ (Z.shiftl _ 8)), lor_shiftl_add by lia.
  rewrite (Z.lor_comm _ (Z.shiftl _ 16)), lor_shiftl_add by lia.
  rewrite (Z.lor_comm _ (Z.shiftl _ 24)), lor_shiftl_add by lia. lia.
Qed.

(** ** The loop *)

Definition regs_ok (r : regs) : Prop :=
  let '(a, b, c, d) := r in word_ok a /\ word_ok b /\ word_ok c /\ word_ok d.

Definition next_order (o : order) : order :=
  match o with abcd => dabc | dabc => cdab | cdab => bcda | bcda => abcd end.

Lemma step_rfc p r f o k t s :
  regs_ok r -> bytes_ok p -> 0 < s < 32 ->
  regs_ok (run_step p r (f, o, k, t, s)) /\
  view (next_order o) (run_step p r (f, o, k, t, s))
  = (let '(a, b, c, d) := view o r in
     let sum := (a + rfc_apply f b c d + word p k + t) mod 2 ^ 32 in
     (d, (b + rotl sum s) mod 2 ^ 32, b, c)).
Proof.
  intros Hr Hp Hs. destruct r as [[[a b] c] d]. destruct Hr as (Ha & Hb & Hc & Hd).
  cbn [run_step]. unfold STEP. rewrite SET_word by done.
  assert (E : forall x y z w, word_ok y -> word_ok z -> word_ok w ->
    u32 (Z.lor (u32 (Z.shiftl (u32 (x + (apply_fn f y z w + word p k + t))) s))
           (Z.shiftr (Z.land (u32 (x + (apply_fn f y z w + word p k + t))) 0xffffffff) (32 - s)) + y)
    = (y + rotl ((x + rfc_apply f y z w + word p k + t) mod 2 ^ 32) s) mod 2 ^ 32).
  { intros x y z w Hy Hz Hw. rewrite rotate_rfc by (apply word_wrap || done).
    rewrite apply_fn_rfc by done. rewrite Z.add_comm. unfold wrap.
    do 3 f_equal. f_equal. lia. }
  destruct o; cbn [view assign next_order]; (split; [split_and!; try done; apply word_wrap|]); by rewrite E.
Qed.

Lemma schedule_ok i : (i < 64)%nat -> order_of (S i) = next_order (order_of i) /\ 0 < rfc_shift i < 32.
Proof.
  intros Hi. assert (Hin : In i (seq 0 64)) by (apply in_seq; lia). split.
  - assert (Hm : map (fun i => order_of (S i)) (seq 0 64) = map (fun i => next_order (order_of i)) (seq 0 64))
      by (vm_compute; reflexivity).
    by apply (ext_in_map Hm).
  - assert (Hs : forallb (fun i => (0 <? rfc_shift i) && (rfc_shift i <? 32)) (seq 0 64) = true)
      by (vm_compute; reflexivity).
    rewrite forallb_forall in Hs. specialize (Hs i Hin). zbool. lia.
Qed.

Lemma rounds_rfc p n start r :
  (start + n <= 64)%nat -> regs_ok r -> bytes_ok p ->
  let r' := fold_left (run_step p)
    (map (fun i => (rfc_fn i, order_of i, rfc_index i, T i, rfc_shift i)) (seq start n)) r in
  regs_ok r' /\
  view (order_of (start + n)) r' = fold_left (rfc_step p) (seq start n) (view (order_of start) r).
Proof.
  cbv zeta. revert start r. induction n as [|n IH]; intros start r Hn Hr Hp.
  - by rewrite Nat.add_0_r.
  - cbn [seq map fold_left]. destruct (schedule_ok start ltac:(lia)) as [Ho Hs].
    destruct (step_rfc p r (rfc_fn start) (order_of start) (rfc_index start) (T start) (rfc_shift start) Hr Hp Hs)
      as [H1 H2].
    destruct (IH (S start) _ ltac:(lia) H1 Hp) as [H3 H4]. split; [exact H3|].
    replace (start + S n)%nat with (S start + n)%nat by lia. rewrite H4, Ho. f_equal. exact H2.
Qed.

Lemma block_rfc r p : regs_ok r -> bytes_ok p -> md5_block r p = rfc_block r p /\ regs_ok (md5_block r p).
Proof.
  intros Hr Hp. destruct (rounds_rfc p 64 0 r ltac:(lia) Hr Hp) as [_ H]. revert H.
  unfold md5_block, rfc_block. rewrite md5_schedule. change (order_of (0 + 64)) with abcd.
  change (order_of 0) with abcd. destruct r as [[[a b] c] d].
  cbv zeta. generalize (fold_left (run_step p)
    (map (fun i => (rfc_fn i, order_of i, rfc_index i, T i, rfc_shift i)) (seq 0 64)) (a, b, c, d)).
  intros [[[a' b'] c'] d'] H. cbn [view] in H. rewrite <- H.
  split; [done|]. split_and!; apply word_wrap.
Qed.

Lemma le_bytes_rfc n x : le_bytes n x = little_endian n x.
Proof.
  unfold le_bytes, little_endian. apply map_ext. intros i. unfold wrap.
  rewrite Z.shiftr_div_pow2, Z.pow_mul_r by lia. done.
Qed.

Lemma little_endian_bytes n x : bytes_ok (little_endian n x).
Proof.
  unfold little_endian. apply Forall_map, Forall_true. intros i. cbn. apply Z.mod_pos_bound. lia.
Qed.

Lemma blocks_rfc n r p :
  regs_ok r -> bytes_ok p -> @blocks md5 n r p = @blocks rfc1321 n r p.
Proof.
  revert r p. induction n as [|n IH]; intros r p Hr Hp; [done|]. cbn [blocks].
  destruct (block_rfc r (take 64 p) Hr ltac:(by apply Forall_take)) as [E Hk].
  change (@compress md5) with md5_block. change (@compress rfc1321) with rfc_block. rewrite <- E.
  apply IH; [done|by apply Forall_drop].
Qed.

(** C26. ngx_md5_init, any sequence of calls of ngx_md5_update and ngx_md5_final
    compute the message digest of RFC 1321 of all bytes given, however they are
    cut into pieces and whatever the buffer held before.  The optimised auxiliary
    functions, the 64 unrolled steps with their register renaming, and the table of
    constants, which the RFC defines by the sine, agree with the RFC. *)
Theorem md5_correct (buf : list Z) (pieces : list (list Z)) (Hbuf : length buf = 64%nat)
    (Hb : Forall bytes_ok pieces) :
  ngx_md5_final (fold_left ngx_md5_update pieces (ngx_md5_init buf)) = md5_rfc (concat pieces).
Proof.
  unfold ngx_md5_final, ngx_md5_update, ngx_md5_init. rewrite digest_correct by done.
  assert (Hm : bytes_ok (concat pieces)) by (induction Hb; cbn; [done|by apply Forall_app]).
  unfold md5_rfc, digest_spec.
  assert (Epad : @pad md5 (concat pieces) = @pad rfc1321 (concat pieces)).
  { unfold pad. cbn [encode_length md5 rfc1321]. by rewrite le_bytes_rfc. }
  rewrite Epad. set (p := @pad rfc1321 (concat pieces)).
  assert (Hp : bytes_ok p).
  { apply Forall_app. split; [done|]. constructor; [done|]. apply Forall_app. split.
    - by apply Forall_replicate.
    - apply little_endian_bytes. }
  cbn [dinit md5 output]. rewrite blocks_rfc by done.
  change (@dinit rfc1321) with (@dinit md5). cbn [dinit md5]. destruct (@blocks rfc1321 _ _ p) as [[[a b] c] d].
  cbn [output rfc1321 md5_result]. by rewrite !le_bytes_rfc.
Qed.

Lemma md5_correct_witness :
  ngx_md5_final (fold_left ngx_md5_update [str("a"); str("bc")] (ngx_md5_init (replicate 64 0)))
  = md5_rfc str("abc").
Proof.
  exact (md5_correct (replicate 64 0) [str("a"); str("bc")] eq_refl ltac:(by_evaluation)).
Defined.

End Md5.
