(* ===== verification/Sha1.v ===== *)
(** * SHA-1: src/core/ngx_sha1.c, ngx_sha1.h

    The 80 invocations of the macro STEP are a table; buffering and padding are those
    of [Digest].  The reference is the algorithm of FIPS 180-4. *)

From S2P Require Import Prelude Digest.

Module Sha1.

(** Helper functions. *)
Definition ROTATE (bits word : Z) : Z := Z.lor (u32 (Z.shiftl word bits)) (Z.shiftr word (32 - bits)).
Definition F1 (b c d : Z) : Z := Z.lor (Z.land b c) (Z.land (not32 b) d).
Definition F2 (b c d : Z) : Z := Z.lxor (Z.lxor b c) d.
Definition F3 (b c d : Z) : Z := Z.lor (Z.lor (Z.land b c) (Z.land b d)) (Z.land c d).

Inductive fn := fF1 | fF2 | fF3.
Definition apply_fn (f : fn) : Z -> Z -> Z -> Z :=
  match f with fF1 => F1 | fF2 => F2 | fF3 => F3 end.

Definition regs : Type := Z * Z * Z * Z * Z.

Definition STEP (f : fn) (w t : Z) (r : regs) : regs :=
  let '(a, b, c, d, e) := r in
  let temp := u32 (ROTATE 5 a + apply_fn f b c d + e + w + t) in
  (temp, a, ROTATE 30 b, c, d).

(** GET: a word of the block. *)
Definition GET (p : list Z) (n : nat) : Z :=
  let b i := nth (n * 4 + i) p 0 in
  Z.lor (Z.lor (Z.lor (b 3%nat) (Z.shiftl (b 2%nat) 8)) (Z.shiftl (b 1%nat) 16)) (Z.shiftl (b 0%nat) 24).

(** The second loop over [words], for [n] more elements. *)
Fixpoint expand (n : nat) (words : list Z) : list Z :=
  match n with
  | O => words
  | S n' =>
      let i := length words in
      let w k := nth (i - k) words 0 in
      expand n' (words ++ [ROTATE 1 (Z.lxor (Z.lxor (Z.lxor (w 3%nat) (w 8%nat)) (w 14%nat)) (w 16%nat))])
  end.

Definition load_words (p : list Z) : list Z := expand 64 (map (GET p) (seq 0 16)).

Abbreviation step := (fn * nat * Z)%type.

Definition rounds1 : list step :=
  [ (fF1, 0%nat, 0x5a827999); (fF1, 1%nat, 0x5a827999); (fF1, 2%nat, 0x5a827999); (fF1, 3%nat, 0x5a827999);
    (fF1, 4%nat, 0x5a827999); (fF1, 5%nat, 0x5a827999); (fF1, 6%nat, 0x5a827999); (fF1, 7%nat, 0x5a827999);
    (fF1, 8%nat, 0x5a827999); (fF1, 9%nat, 0x5a827999); (fF1, 10%nat, 0x5a827999); (fF1, 11%nat, 0x5a827999);
    (fF1, 12%nat, 0x5a827999); (fF1, 13%nat, 0x5a827999); (fF1, 14%nat, 0x5a827999); (fF1, 15%nat, 0x5a827999);
    (fF1, 16%nat, 0x5a827999); (fF1, 17%nat, 0x5a827999); (fF1, 18%nat, 0x5a827999); (fF1, 19%nat, 0x5a827999) ].
Definition rounds2 : list step :=
  [ (fF2, 20%nat, 0x6ed9eba1); (fF2, 21%nat, 0x6ed9eba1); (fF2, 22%nat, 0x6ed9eba1); (fF2, 23%nat, 0x6ed9eba1);
    (fF2, 24%nat, 0x6ed9eba1); (fF2, 25%nat, 0x6ed9eba1); (fF2, 26%nat, 0x6ed9eba1); (fF2, 27%nat, 0x6ed9eba1);
    (fF2, 28%nat, 0x6ed9eba1); (fF2, 29%nat, 0x6ed9eba1); (fF2, 30%nat, 0x6ed9eba1); (fF2, 31%nat, 0x6ed9eba1);
    (fF2, 32%nat, 0x6ed9eba1); (fF2, 33%nat, 0x6ed9eba1); (fF2, 34%nat, 0x6ed9eba1); (fF2, 35%nat, 0x6ed9eba1);
    (fF2, 36%nat, 0x6ed9eba1); (fF2, 37%nat, 0x6ed9eba1); (fF2, 38%nat, 0x6ed9eba1); (fF2, 39%nat, 0x6ed9eba1) ].
Definition rounds3 : list step :=
  [ (fF3, 40%nat, 0x8f1bbcdc); (fF3, 41%nat, 0x8f1bbcdc); (fF3, 42%nat, 0x8f1bbcdc); (fF3, 43%nat, 0x8f1bbcdc);
    (fF3, 44%nat, 0x8f1bbcdc); (fF3, 45%nat, 0x8f1bbcdc); (fF3, 46%nat, 0x8f1bbcdc); (fF3, 47%nat, 0x8f1bbcdc);
    (fF3, 48%nat, 0x8f1bbcdc); (fF3, 49%nat, 0x8f1bbcdc); (fF3, 50%nat, 0x8f1bbcdc); (fF3, 51%nat, 0x8f1bbcdc);
    (fF3, 52%nat, 0x8f1bbcdc); (fF3, 53%nat, 0x8f1bbcdc); (fF3, 54%nat, 0x8f1bbcdc); (fF3, 55%nat, 0x8f1bbcdc);
    (fF3, 56%nat, 0x8f1bbcdc); (fF3, 57%nat, 0x8f1bbcdc); (fF3, 58%nat, 0x8f1bbcdc); (fF3, 59%nat, 0x8f1bbcdc) ].
Definition rounds4 : list step :=
  [ (fF2, 60%nat, 0xca62c1d6); (fF2, 61%nat, 0xca62c1d6); (fF2, 62%nat, 0xca62c1d6); (fF2, 63%nat, 0xca62c1d6);
    (fF2, 64%nat, 0xca62c1d6); (fF2, 65%nat, 0xca62c1d6); (fF2, 66%nat, 0xca62c1d6); (fF2, 67%nat, 0xca62c1d6);
    (fF2, 68%nat, 0xca62c1d6); (fF2, 69%nat, 0xca62c1d6); (fF2, 70%nat, 0xca62c1d6); (fF2, 71%nat, 0xca62c1d6);
    (fF2, 72%nat, 0xca62c1d6); (fF2, 73%nat, 0xca62c1d6); (fF2, 74%nat, 0xca62c1d6); (fF2, 75%nat, 0xca62c1d6);
    (fF2, 76%nat, 0xca62c1d6); (fF2, 77%nat, 0xca62c1d6); (fF2, 78%nat, 0xca62c1d6); (fF2, 79%nat, 0xca62c1d6) ].

Definition run_step (words : list Z) (r : regs) (s : step) : regs :=
  let '(f, i, t) := s in STEP f (nth i words 0) t r.

(** One iteration of the loop of ngx_sha1_body. *)
Definition sha1_block (r : regs) (p : list Z) : regs :=
  let '(saved_a, saved_b, saved_c, saved_d, saved_e) := r in
  let words := load_words p in
  let '(a, b, c, d, e) := fold_left (run_step words) (rounds1 ++ rounds2 ++ rounds3 ++ rounds4) r in
  (u32 (a + saved_a), u32 (b + saved_b), u32 (c + saved_c), u32 (d + saved_d), u32 (e + saved_e)).

Definition be_bytes (n : nat) (x : Z) : list Z :=
  map (fun i => u8 (Z.shiftr x (8 * Z.of_nat (n - 1 - i)))) (seq 0 n).

Definition sha1_result (r : regs) : list Z :=
  let '(a, b, c, d, e) := r in
  be_bytes 4 a ++ be_bytes 4 b ++ be_bytes 4 c ++ be_bytes 4 d ++ be_bytes 4 e.

#[global] Instance sha1 : BlockDigest := {|
  dstate := regs;
  dinit := (0x67452301, 0xefcdab89, 0x98badcfe, 0x10325476, 0xc3d2e1f0);
  compress := sha1_block;
  encode_length := be_bytes 8;
  output := sha1_result;
  encode_length_length := fun n => eq_refl;
|}.

Definition ngx_sha1_init : list Z -> ctx := digest_init.
Definition ngx_sha1_update : ctx -> list Z -> ctx := digest_update.
Definition ngx_sha1_final : ctx -> list Z := digest_final.

(** The example of FIPS 180. *)
Example sha1_abc :
  ngx_sha1_final (ngx_sha1_update (ngx_sha1_init (replicate 64 7)) str("abc"))
  = [0xa9; 0x99; 0x3e; 0x36; 0x47; 0x06; 0x81; 0x6a; 0xba; 0x3e; 0x25; 0x71; 0x78; 0x50; 0xc2; 0x6c;
     0x9c; 0xd0; 0xd8; 0x9d].
Proof. vm_compute. reflexivity. Qed.

(** ** FIPS 180-4 *)

Definition Ch (x y z : Z) : Z := Z.lxor (Z.land x y) (Z.land (not32 x) z).
Definition Parity (x y z : Z) : Z := Z.lxor x (Z.lxor y z).
Definition Maj (x y z : Z) : Z := Z.lxor (Z.land x y) (Z.lxor (Z.land x z) (Z.land y z)).

Definition fips_fn (t : nat) : fn :=
  match (t / 20)%nat with 0%nat => fF1 | 2%nat => fF3 | _ => fF2 end.
Definition fips_apply (f : fn) : Z -> Z -> Z -> Z :=
  match f with fF1 => Ch | fF2 => Parity | fF3 => Maj end.
Definition K (t : nat) : Z :=
  match (t / 20)%nat with
  | 0%nat => 0x5a827999 | 1%nat => 0x6ed9eba1 | 2%nat => 0x8f1bbcdc | _ => 0xca62c1d6
  end.

Definition word (p : list Z) (n : nat) : Z :=
  16777216 * nth (n * 4) p 0 + 65536 * nth (n * 4 + 1) p 0 + 256 * nth (n * 4 + 2) p 0
  + nth (n * 4 + 3) p 0.

(** The message schedule W_t; [fuel] exceeds [t]. *)
Fixpoint schedule (fuel : nat) (p : list Z) (t : nat) : Z :=
  match fuel with
  | O => 0
  | S fuel' =>
      if (t <? 16)%nat then word p t
      else rotl (Z.lxor (Z.lxor (Z.lxor (schedule fuel' p (t - 3)) (schedule fuel' p (t - 8)))
                           (schedule fuel' p (t - 14))) (schedule fuel' p (t - 16))) 1
  end.
Definition W (p : list Z) (t : nat) : Z := schedule (S t) p t.

Definition fips_step (p : list Z) (r : regs) (t : nat) : regs :=
  let '(a, b, c, d, e) := r in
  ((rotl a 5 + fips_apply (fips_fn t) b c d + e + K t + W p t) mod 2 ^ 32, a, rotl b 30, c, d).

Definition fips_block (r : regs) (p : list Z) : regs :=
  let '(h0, h1, h2, h3, h4) := r in
  let '(a, b, c, d, e) := fold_left (fips_step p) (seq 0 80) r in
  ((a + h0) mod 2 ^ 32, (b + h1) mod 2 ^ 32, (c + h2) mod 2 ^ 32, (d + h3) mod 2 ^ 32, (e + h4) mod 2 ^ 32).

Definition big_endian (n : nat) (x : Z) : list Z :=
  map (fun i => x / 256 ^ Z.of_nat (n - 1 - i) mod 256) (seq 0 n).

Definition fips180 : BlockDigest := {|
  dstate := regs;
  dinit := (0x67452301, 0xefcdab89, 0x98badcfe, 0x10325476, 0xc3d2e1f0);
  compress := fips_block;
  encode_length := big_endian 8;
  output := fun r => let '(a, b, c, d, e) := r in
    big_endian 4 a ++ big_endian 4 b ++ big_endian 4 c ++ big_endian 4 d ++ big_endian 4 e;
  encode_length_length := fun n => eq_refl;
|}.

(** The message digest of FIPS 180-4. *)
Definition sha1_fips : list Z -> list Z := @digest_spec fips180.

Lemma sha1_schedule :
  rounds1 ++ rounds2 ++ rounds3 ++ rounds4 = map (fun t => (fips_fn t, t, K t)) (seq 0 80).
Proof. vm_compute. reflexivity. Qed.

(** ** The steps *)

Lemma apply_fn_fips f x y z : word_ok z -> apply_fn f x y z = fips_apply f x y z.
Proof.
  intros Hz. destruct f; cbn [apply_fn fips_apply]; unfold F1, F2, F3, Ch, Parity, Maj; [|by rewrite Z.lxor_assoc|].
  - word_bits. destruct (Z.ltb_spec i 32) as [Hl|Hl]; cbn [andb];
      by destruct (Z.testbit x i), (Z.testbit y i), (Z.testbit z i).
  - word_bits. by destruct (Z.testbit x i), (Z.testbit y i), (Z.testbit z i).
Qed.

Lemma ROTATE_rotl s a : word_ok a -> 0 < s < 32 -> ROTATE s a = rotl a s.
Proof. apply rotate_rotl. Qed.

Lemma GET_word p n : bytes_ok p -> GET p n = word p n /\ word_ok (word p n).
Proof.
  intros Hp. pose proof (nth_byte p Hp) as Hb. unfold GET, word. rewrite Nat.add_0_r.
  pose proof (Hb (n * 4)%nat). pose proof (Hb (n * 4 + 1)%nat).
  pose proof (Hb (n * 4 + 2)%nat). pose proof (Hb (n * 4 + 3)%nat).
  rewrite (Z.lor_comm _ (Z.shiftl _ 8)), lor_shiftl_add by lia.
  rewrite (Z.lor_comm _ (Z.shiftl _ 16)), lor_shiftl_add by lia.
  rewrite (Z.lor_comm _ (Z.shiftl _ 24)), lor_shiftl_add by lia.
  unfold word_ok, in_u. lia.
Qed.

(** ** The message schedule *)

Lemma schedule_fuel fuel p t : (t < fuel)%nat -> schedule fuel p t = W p t.
Proof.
  unfold W. revert fuel. induction t as [t IH] using (well_founded_induction lt_wf). intros fuel Hf.
  destruct fuel as [|fuel]; [lia|]. cbn [schedule]. destruct (Nat.ltb_spec t 16); [done|].
  assert (E : forall k, (0 < k <= t)%nat -> schedule fuel p (t - k) = schedule t p (t - k))
    by (intros k Hk; rewrite (IH (t - k)%nat ltac:(lia) fuel ltac:(lia)); symmetry; apply IH; lia).
  by rewrite !E by lia.
Qed.

Lemma W_first p t : (t < 16)%nat -> W p t = word p t.
Proof. intros Ht. unfold W. cbn [schedule]. by rewrite (proj2 (Nat.ltb_lt t 16)). Qed.

Lemma W_next p t :
  (16 <= t)%nat ->
  W p t = rotl (Z.lxor (Z.lxor (Z.lxor (W p (t - 3)) (W p (t - 8))) (W p (t - 14))) (W p (t - 16))) 1.
Proof.
  intros Ht. unfold W at 1. cbn [schedule]. rewrite (proj2 (Nat.ltb_ge t 16)) by lia.
  by rewrite !schedule_fuel by lia.
Qed.

Lemma W_word p t : bytes_ok p -> word_ok (W p t).
Proof.
  intros Hp. induction t as [t IH] using (well_founded_induction lt_wf).
  destruct (Nat.lt_ge_cases t 16); [rewrite W_first by done; by apply GET_word|].
  rewrite W_next by done. apply rotl_word; [|lia]. repeat apply lxor_word; apply IH; lia.
Qed.

Lemma expand_W p n words :
  bytes_ok p -> (16 <= length words)%nat -> (forall t, (t < length words)%nat -> nth t words 0 = W p t) ->
  forall t, (t < length words + n)%nat -> nth t (expand n words) 0 = W p t.
Proof.
  intros Hp. revert words. induction n as [|n IH]; intros words Hl Hw t Ht; cbn [expand]; [apply Hw; lia|].
  apply IH; [rewrite length_app; lia| |rewrite length_app; cbn; lia].
  intros k Hk. rewrite length_app in Hk. cbn in Hk. destruct (Nat.lt_ge_cases k (length words)).
  - rewrite app_nth1 by done. by apply Hw.
  - replace k with (length words) by lia. rewrite nth_middle, !Hw by lia.
    rewrite ROTATE_rotl; [by rewrite <- W_next|repeat apply lxor_word; by apply W_word|lia].
Qed.

Lemma load_words_W p t : bytes_ok p -> (t < 80)%nat -> nth t (load_words p) 0 = W p t.
Proof.
  intros Hp Ht. unfold load_words.
  apply (expand_W p 64 (map (GET p) (seq 0 16))); rewrite ?length_map, ?length_seq; [done|lia| |lia].
  intros k Hk. rewrite W_first by done.
  rewrite (nth_indep _ 0 (GET p 0)) by (by rewrite length_map, length_seq).
  rewrite map_nth, seq_nth by done. by apply GET_word.
Qed.

(** ** The loop *)

Definition regs_ok (r : regs) : Prop :=
  let '(a, b, c, d, e) := r in word_ok a /\ word_ok b /\ word_ok c /\ word_ok d /\ word_ok e.

Lemma step_fips p r t :
  regs_ok r -> bytes_ok p -> (t < 80)%nat ->
  run_step (load_words p) r (fips_fn t, t, K t) = fips_step p r t /\ regs_ok (fips_step p r t).
Proof.
  intros Hr Hp Ht. destruct r as [[[[a b] c] d] e]. destruct Hr as (Ha & Hb & Hc & Hd & He).
  cbn [run_step fips_step]. unfold STEP. rewrite load_words_W, !ROTATE_rotl, apply_fn_fips by (done || lia).
  split.
  - unfold wrap. do 4 f_equal. f_equal. lia.
  - split_and!; try done; [apply word_wrap|by apply rotl_word].
Qed.

Lemma rounds_fips p n start r :
  (start + n <= 80)%nat -> regs_ok r -> bytes_ok p ->
  fold_left (run_step (load_words p)) (map (fun t => (fips_fn t, t, K t)) (seq start n)) r
  = fold_left (fips_step p) (seq start n) r.
Proof.
  revert start r. induction n as [|n IH]; intros start r Hn Hr Hp; [done|].
  cbn [seq map fold_left]. destruct (step_fips p r start Hr Hp ltac:(lia)) as [-> H].
  apply IH; [lia|done|done].
Qed.

Lemma block_fips r p : regs_ok r -> bytes_ok p -> sha1_block r p = fips_block r p /\ regs_ok (sha1_block r p).
Proof.
  intros Hr Hp. unfold sha1_block, fips_block. rewrite sha1_schedule.
  destruct r as [[[[a b] c] d] e]. rewrite rounds_fips by (done || lia).
  destruct (fold_left _ _ _) as [[[[a' b'] c'] d'] e']. split; [done|]. split_and!; apply word_wrap.
Qed.

Lemma be_bytes_fips n x : be_bytes n x = big_endian n x.
Proof.
  unfold be_bytes, big_endian. apply map_ext. intros i. unfold wrap.
  rewrite Z.shiftr_div_pow2, Z.pow_mul_r by lia. done.
Qed.

Lemma big_endian_bytes n x : bytes_ok (big_endian n x).
Proof.
  unfold big_endian. apply Forall_map, Forall_true. intros i. cbn. apply Z.mod_pos_bound. lia.
Qed.

Lemma blocks_fips n r p : regs_ok r -> bytes_ok p -> @blocks sha1 n r p = @blocks fips180 n r p.
Proof.
  revert r p. induction n as [|n IH]; intros r p Hr Hp; [done|]. cbn [blocks].
  destruct (block_fips r (take 64 p) Hr ltac:(by apply Forall_take)) as [E Hk].
  change (@compress sha1) with sha1_block. change (@compress fips180) with fips_block. rewrite <- E.
  apply IH; [done|by apply Forall_drop].
Qed.

(** C27. ngx_sha1_init, any sequence of calls of ngx_sha1_update and ngx_sha1_final
    compute the message digest of FIPS 180-4 of all bytes given, however they are
    cut into pieces and whatever the buffer held before.  The length of the message
    enters modulo 2 ^ 64 bits, as the code counts it. *)
Theorem sha1_correct (buf : list Z) (pieces : list (list Z)) (Hbuf : length buf = 64%nat)
    (Hb : Forall bytes_ok pieces) :
  ngx_sha1_final (fold_left ngx_sha1_update pieces (ngx_sha1_init buf)) = sha1_fips (concat pieces).
Proof.
  unfold ngx_sha1_final, ngx_sha1_update, ngx_sha1_init. rewrite digest_correct by done.
  assert (Hm : bytes_ok (concat pieces)) by (induction Hb; cbn; [done|by apply Forall_app]).
  unfold sha1_fips, digest_spec.
  assert (Epad : @pad sha1 (concat pieces) = @pad fips180 (concat pieces)).
  { unfold pad. cbn [encode_length sha1 fips180]. by rewrite be_bytes_fips. }
  rewrite Epad. set (p := @pad fips180 (concat pieces)).
  assert (Hp : bytes_ok p).
  { apply Forall_app. split; [done|]. constructor; [done|]. apply Forall_app. split.
    - by apply Forall_replicate.
    - apply big_endian_bytes. }
  cbn [dinit sha1 output]. rewrite blocks_fips by done.
  change (@dinit fips180) with (@dinit sha1). cbn [dinit sha1].
  destruct (@blocks fips180 _ _ p) as [[[[a b] c] d] e].
  cbn [output fips180 sha1_result]. by rewrite !be_bytes_fips.
Qed.

Lemma sha1_correct_witness :
  ngx_sha1_final (fold_left ngx_sha1_update [str("a"); str("bc")] (ngx_sha1_init (replicate 64 0)))
  = sha1_fips str("abc").
Proof.
  exact (sha1_correct (replicate 64 0) [str("a"); str("bc")] eq_refl ltac:(by_evaluation)).
Defined.

End Sha1.
