(* ===== verification/Queue.v ===== *)
(** * Queues: src/core/ngx_queue.h, ngx_queue.c

    A queue is a ring of nodes linked in both directions through a head.  The model
    works on the links in memory, one map per field, with a macro of ngx_queue.h per
    definition; reading a field that was never written has no result.  The local
    variable [tail] of ngx_queue_sort lives at the stack address [sp].  The
    abstraction [queue m h l] says that [l] are the nodes behind the head [h]. *)


From Stdlib Require Import Sorting.Sorted.
From S2P Require Import Prelude.

Module Queue.

Record mem := Mem { prev : gmap Z Z; next : gmap Z Z }.

(** ngx_queue_prev, ngx_queue_last *)
Definition ngx_queue_prev (m : mem) (q : Z) : option Z := prev m !! q.
(** ngx_queue_next, ngx_queue_head *)
Definition ngx_queue_next (m : mem) (q : Z) : option Z := next m !! q.

(** (q)->prev = v and (q)->next = v *)
Definition set_prev (q v : Z) (m : mem) : mem := Mem (<[q := v]> (prev m)) (next m).
Definition set_next (q v : Z) (m : mem) : mem := Mem (prev m) (<[q := v]> (next m)).

Definition ngx_queue_init (q : Z) (m : mem) : mem := set_next q q (set_prev q q m).

Definition ngx_queue_empty (h : Z) (m : mem) : option bool :=
  p ← prev m !! h; Some (h =? p).

(** ngx_queue_insert_head, ngx_queue_insert_after *)
Definition ngx_queue_insert_head (h x : Z) (m : mem) : option mem :=
  n ← next m !! h;
  let m := set_next x n m in
  let m := set_prev n x m in
  let m := set_prev x h m in
  Some (set_next h x m).

(** ngx_queue_insert_tail, ngx_queue_insert_before *)
Definition ngx_queue_insert_tail (h x : Z) (m : mem) : option mem :=
  p ← prev m !! h;
  let m := set_prev x p m in
  let m := set_next p x m in
  let m := set_next x h m in
  Some (set_prev h x m).

Section Ops.
(** NGX_DEBUG: whether a removed node is cleared. *)
Context (debug : bool).

Definition ngx_queue_remove (x : Z) (m : mem) : option mem :=
  n ← next m !! x;
  p ← prev m !! x;
  let m := set_prev n p m in
  p ← prev m !! x;
  n ← next m !! x;
  let m := set_next p n m in
  if debug then Some (set_next x 0 (set_prev x 0 m)) else Some m.

Definition ngx_queue_split (h q n : Z) (m : mem) : option mem :=
  p ← prev m !! h;
  let m := set_prev n p m in
  let m := set_next p n m in
  let m := set_next n q m in
  p ← prev m !! q;
  let m := set_prev h p m in
  let m := set_next p h m in
  Some (set_prev q n m).

Definition ngx_queue_add (h n : Z) (m : mem) : option mem :=
  p ← prev m !! h;
  f ← next m !! n;
  let m := set_next p f m in
  f ← next m !! n;
  p ← prev m !! h;
  let m := set_prev f p m in
  p ← prev m !! n;
  let m := set_prev h p m in
  Some (set_next p h m).

(** The loop of ngx_queue_middle. *)
Fixpoint middle_loop (fuel : nat) (m : mem) (q middle nxt : Z) : option Z :=
  match fuel with
  | O => None
  | S fuel' =>
      middle ← next m !! middle;
      nxt ← next m !! nxt;
      l ← prev m !! q;
      if nxt =? l then Some middle
      else
        nxt ← next m !! nxt;
        if nxt =? l then Some middle
        else middle_loop fuel' m q middle nxt
  end.

Definition ngx_queue_middle (fuel : nat) (m : mem) (q : Z) : option Z :=
  middle ← next m !! q;
  l ← prev m !! q;
  if middle =? l then Some middle
  else middle_loop fuel m q middle middle.

(** The comparison is a function of the two nodes. *)
Context (cmp : Z -> Z -> Z).

Fixpoint merge_loop (fuel : nat) (q tail q1 q2 : Z) (m : mem) : option mem :=
  match fuel with
  | O => None
  | S fuel' =>
      if q1 =? q then ngx_queue_add q tail m
      else if q2 =? tail then Some m
      else if cmp q1 q2 <=? 0 then
        q1 ← next m !! q1;
        merge_loop fuel' q tail q1 q2 m
      else
        m ← ngx_queue_remove q2 m;
        m ← ngx_queue_insert_tail q1 q2 m;
        q2 ← next m !! tail;
        merge_loop fuel' q tail q1 q2 m
  end.

Definition ngx_queue_merge (fuel : nat) (q tail : Z) (m : mem) : option mem :=
  q1 ← next m !! q;
  q2 ← next m !! tail;
  merge_loop fuel q tail q1 q2 m.

(** [fuel] bounds the depth and the length of the loops. *)
Fixpoint ngx_queue_sort (fuel : nat) (q sp : Z) (m : mem) : option mem :=
  match fuel with
  | O => None
  | S fuel' =>
      f ← next m !! q;
      l ← prev m !! q;
      if f =? l then Some m
      else
        mid ← ngx_queue_middle fuel m q;
        let tail := sp in
        m ← ngx_queue_split q mid tail m;
        m ← ngx_queue_sort fuel' q (sp + 1) m;
        m ← ngx_queue_sort fuel' tail (sp + 1) m;
        ngx_queue_merge fuel q tail m
  end.

End Ops.

(** ** The abstraction *)

Definition link (m : mem) (x y : Z) : Prop := next m !! x = Some y /\ prev m !! y = Some x.

(** From [x] through the nodes [l] to [y]. *)
Fixpoint seg (m : mem) (x : Z) (l : list Z) (y : Z) : Prop :=
  match l with
  | [] => link m x y
  | a :: l' => link m x a /\ seg m a l' y
  end.

Definition queue (m : mem) (h : Z) (l : list Z) : Prop := seg m h l h /\ NoDup (h :: l).

(** The nodes of a queue in order, from memory. *)
Fixpoint nodes (fuel : nat) (m : mem) (h q : Z) : list Z :=
  match fuel with
  | O => []
  | S fuel' =>
      match next m !! q with
      | Some n => if n =? h then [] else n :: nodes fuel' m h n
      | None => []
      end
  end.

Definition of_list (h : Z) (l : list Z) : option mem :=
  foldl (fun m x => m ← m; ngx_queue_insert_tail h x m) (Some (ngx_queue_init h (Mem ∅ ∅))) l.

Example sort_example :
  (m ← of_list 1 [30; 10; 21; 20; 11];
   m ← ngx_queue_sort true (fun a b => a / 10 - b / 10) 10 1 100 m;
   Some (nodes 10 m 1 1))
  = Some [10; 11; 21; 20; 30].
Proof. vm_compute. reflexivity. Qed.

(** ** Segments *)

Lemma seg_app m x l1 a l2 y : seg m x (l1 ++ a :: l2) y <-> seg m x l1 a /\ seg m a l2 y.
Proof. revert x. induction l1 as [|b l1 IH]; intros x; cbn; [done|]. rewrite IH. tauto. Qed.

(** A segment depends on the next fields of all but its end, and the prev
    fields of all but its start. *)
Lemma seg_frame m m' x l y :
  (forall z, z ∈ x :: l -> next m' !! z = next m !! z) ->
  (forall z, z ∈ l ++ [y] -> prev m' !! z = prev m !! z) ->
  seg m x l y -> seg m' x l y.
Proof.
  revert x. induction l as [|a l IH]; intros x Hn Hp; cbn.
  - intros [H1 H2]. split; [rewrite Hn|rewrite Hp]; set_solver.
  - intros [[H1 H2] H3]. split; [split; [rewrite Hn|rewrite Hp]; set_solver|].
    apply IH; [set_solver|set_solver|done].
Qed.

Lemma last_cons (a x : Z) l : List.last (a :: l) x = List.last l a.
Proof. revert a x. induction l as [|b l IH]; intros a x; [done|]. cbn [List.last] in *. by rewrite !IH. Qed.

Lemma seg_prev m x l y : seg m x l y -> link m (List.last l x) y.
Proof.
  revert x. induction l as [|a l IH]; intros x; [done|]. intros [_ H]. rewrite last_cons. by apply IH.
Qed.

Lemma seg_first m x l y : seg m x l y -> link m x (hd y l).
Proof. destruct l; [done|]. by intros [H _]. Qed.

Lemma last_in (x : Z) l : List.last l x ∈ x :: l.
Proof.
  revert x. induction l as [|a l IH]; intros x; [set_solver|]. rewrite last_cons. specialize (IH a). set_solver.
Qed.

Lemma hd_in (y : Z) l : hd y l ∈ y :: l.
Proof. destruct l; set_solver. Qed.

(** The end of a segment moves to another node. *)
Lemma seg_retarget m m' x l y z :
  NoDup (x :: l) -> z ∉ l -> seg m x l y ->
  (forall w, w ∈ x :: l -> w <> List.last l x -> next m' !! w = next m !! w) ->
  (forall w, w ∈ l -> prev m' !! w = prev m !! w) ->
  link m' (List.last l x) z -> seg m' x l z.
Proof.
  revert x. induction l as [|a l IH]; intros x Hnd Hz Hs Hn Hp Hl; [done|].
  rewrite last_cons in *. destruct Hs as [[H1 H2] H3]. apply list.NoDup_cons in Hnd as [Hx Hnd]. split.
  - split; [|rewrite Hp by set_solver; done]. rewrite Hn; [done|set_solver|].
    intros E. pose proof (last_in a l). set_solver.
  - apply IH; try done; [set_solver| |]; intros; [apply Hn|apply Hp]; set_solver.
Qed.

(** [m'] differs from [m] only in the fields of the nodes of [s]. *)
Definition same_out (s : list Z) (m m' : mem) : Prop :=
  forall z, z ∉ s -> next m' !! z = next m !! z /\ prev m' !! z = prev m !! z.

Lemma same_out_mono s s' m m' : s ⊆ s' -> same_out s m m' -> same_out s' m m'.
Proof. intros Hs H z Hz. apply H. set_solver. Qed.

Lemma same_out_trans s m1 m2 m3 : same_out s m1 m2 -> same_out s m2 m3 -> same_out s m1 m3.
Proof. intros H1 H2 z Hz. destruct (H1 z Hz) as [<- <-]. by apply H2. Qed.

Lemma queue_frame s m m' h l :
  same_out s m m' -> (forall z, z ∈ h :: l -> z ∉ s) -> queue m h l -> queue m' h l.
Proof.
  intros Ho Hd [Hs Hn]. split; [|done]. eapply seg_frame; [| |exact Hs]; intros z Hz; apply Ho, Hd; set_solver.
Qed.

(** Evaluate lookups in updated memories; addresses are distinct by [set_solver]. *)
Ltac mem_simpl :=
  repeat (cbn [prev next set_prev set_next];
    first [rewrite lookup_insert_eq | rewrite lookup_insert_ne by set_solver]).

Ltac open_nodup :=
  repeat match goal with
  | H : NoDup (_ ++ _) |- _ => apply list.NoDup_app in H as (? & ? & ?)
  | H : NoDup (_ :: _) |- _ => apply list.NoDup_cons in H as [? ?]
  end.

Ltac same_out_tac := intros z Hz; split; mem_simpl; done.

(** A node is put in front of the end of a segment. *)
Lemma insert_seg m u a q x :
  seg m u a q -> NoDup (u :: a) -> q ∉ a -> x ∉ q :: u :: a ->
  exists m', ngx_queue_insert_tail q x m = Some m' /\ seg m' u (a ++ [x]) q /\
    (forall z, z ∉ x :: u :: a -> next m' !! z = next m !! z) /\
    (forall z, z ∉ [x; q] -> prev m' !! z = prev m !! z).
Proof.
  intros Hs Hnd Hq Hx. destruct (seg_prev _ _ _ _ Hs) as [E1 E2].
  unfold ngx_queue_insert_tail. rewrite E2. pose proof (last_in u a) as Hp.
  set (p := List.last a u) in *. eexists. split; [reflexivity|]. split_and!.
  - apply seg_app. split; [|split; by mem_simpl].
    eapply seg_retarget; [done|set_solver|exact Hs| | |].
    + intros w Hw Hwp. fold p in Hwp. by mem_simpl.
    + intros w Hw. by mem_simpl.
    + fold p. split; by mem_simpl.
  - intros z Hz. by mem_simpl.
  - intros z Hz. by mem_simpl.
Qed.

(** ngx_queue_insert_tail *)
Lemma insert_tail_spec m h l x :
  queue m h l -> x ∉ h :: l ->
  exists m', ngx_queue_insert_tail h x m = Some m' /\ queue m' h (l ++ [x]) /\ same_out (x :: h :: l) m m'.
Proof.
  intros [Hs Hnd] Hx. pose proof Hnd as Hnd'. apply list.NoDup_cons in Hnd' as [Hh Hl].
  destruct (insert_seg m h l h x Hs Hnd Hh ltac:(set_solver)) as (m' & -> & Hs' & H1 & H2).
  exists m'. split_and!; [done| |]. 
  - split; [done|]. rewrite app_comm_cons. apply list.NoDup_app. split_and!; [done|set_solver|apply list.NoDup_singleton].
  - intros z Hz. split; [apply H1|apply H2]; set_solver.
Qed.

(** ngx_queue_insert_before, in front of another node *)
Lemma insert_before_spec m h a q b x :
  queue m h (a ++ q :: b) -> x ∉ h :: a ++ q :: b ->
  exists m', ngx_queue_insert_tail q x m = Some m' /\ queue m' h (a ++ x :: q :: b) /\
    same_out (x :: h :: a ++ q :: b) m m'.
Proof.
  intros [Hs Hnd] Hx. apply seg_app in Hs as [Hs1 Hs2].
  assert (HN : NoDup (h :: a ++ x :: q :: b)).
  { assert (E : h :: a ++ x :: q :: b ≡ₚ x :: h :: a ++ q :: b) by (rewrite <- Permutation_middle; apply perm_swap).
    rewrite E. by apply list.NoDup_cons. }
  revert HN. open_nodup. intros HN.
  destruct (insert_seg m h a q x Hs1) as (m' & -> & Hs' & H1' & H2');
    [apply list.NoDup_cons; split; [set_solver|done]|set_solver|set_solver|].
  exists m'. split_and!; [done| |].
  - split; [|done].
    change (x :: q :: b) with ([x] ++ q :: b). rewrite app_assoc. apply seg_app. split; [done|].
    eapply seg_frame; [| |exact Hs2]; intros z Hz; [apply H1'|apply H2']; set_solver.
  - intros z Hz. split; [apply H1'|apply H2']; set_solver.
Qed.

(** ngx_queue_insert_head *)
Lemma insert_head_spec m h l x :
  queue m h l -> x ∉ h :: l ->
  exists m', ngx_queue_insert_head h x m = Some m' /\ queue m' h (x :: l) /\ same_out (x :: h :: l) m m'.
Proof.
  intros [Hs Hnd] Hx. destruct (seg_first _ _ _ _ Hs) as [E1 E2].
  unfold ngx_queue_insert_head. rewrite E1. eexists. split; [reflexivity|].
  assert (HN : NoDup (h :: x :: l)).
  { apply list.NoDup_cons in Hnd as [? ?]. repeat (apply list.NoDup_cons; split); set_solver. }
  revert HN. open_nodup. intros HN. split.
  - split; [|done]. destruct l as [|a l]; cbn [hd seg] in *.
    + split_and!; split; by mem_simpl.
    + destruct Hs as [_ Hs]. open_nodup. split_and!; [split; by mem_simpl|split; by mem_simpl|].
      eapply seg_frame; [| |exact Hs]; intros z Hz; by mem_simpl.
  - pose proof (hd_in h l). intros z Hz. split; by mem_simpl.
Qed.

Lemma ne_in (x z : Z) (l : list Z) : x ∉ l -> z ∈ l -> x <> z.
Proof. by intros H1 H2 ->. Qed.

(** What is distinct in a ring with the nodes [a], [x] and [b]. *)
Lemma ring_distinct (h : Z) a x b :
  NoDup (h :: a ++ x :: b) ->
  NoDup (h :: a) /\ NoDup (h :: b) /\ NoDup (h :: a ++ b) /\ NoDup (x :: b) /\
  x ∉ h :: a /\ x ∉ b ++ [h] /\ List.last a h ∉ x :: b /\ hd h b ∉ x :: a.
Proof.
  intros Hnd. pose proof (last_in h a) as Hp. pose proof (hd_in h b) as Hn.
  assert (H1 : NoDup (h :: a ++ b)).
  { rewrite app_comm_cons in Hnd |- *. eapply sublist_NoDup; [exact Hnd|].
    apply sublist_app; [done|]. by apply sublist_cons. }
  assert (H2 : NoDup (h :: b)).
  { eapply sublist_NoDup; [exact H1|]. apply sublist_skip. by apply sublist_inserts_l. }
  assert (H3 : NoDup (h :: a)).
  { eapply sublist_NoDup; [exact H1|]. apply sublist_skip. by apply sublist_inserts_r. }
  apply list.NoDup_cons in Hnd as [Hh Hnd]. apply list.NoDup_app in Hnd as (_ & Hd & Hx).
  pose proof Hx as Hx'. apply list.NoDup_cons in Hx' as [Hxb _].
  assert (Hxa : x ∉ a) by (intros Hin; apply (Hd x Hin), elem_of_cons; by left).
  assert (Hdb : forall z, z ∈ a -> z ∉ b) by (intros z Hz Hin; apply (Hd z Hz), elem_of_cons; by right).
  rewrite elem_of_app, elem_of_cons in Hh. rewrite elem_of_cons in Hp, Hn.
  split_and!; try done; rewrite ?elem_of_app, ?elem_of_cons, ?elem_of_nil.
  - naive_solver.
  - naive_solver.
  - intros [E|E]; destruct Hp as [Hp|Hp]; [| | |by apply (Hdb _ Hp)].
    + apply Hh. right. left. congruence.
    + by rewrite E in Hp.
    + apply Hh. right. right. by rewrite Hp in E.
  - intros [E|E]; destruct Hn as [Hn|Hn]; [| | |by apply (Hdb _ E)].
    + apply Hh. right. left. congruence.
    + by rewrite E in Hn.
    + apply Hh. left. by rewrite Hn in E.
Qed.

(** [m'] is [m] with [p] and [n] linked, up to the fields of [x]. *)
Lemma unlink_seg m m' h a x b :
  let p := List.last a h in let n := hd h b in
  NoDup (h :: a ++ x :: b) -> seg m h a x -> seg m x b h ->
  (forall z, z <> x -> next m' !! z = <[p := n]> (next m) !! z) ->
  (forall z, z <> x -> prev m' !! z = <[n := p]> (prev m) !! z) ->
  seg m' h (a ++ b) h.
Proof.
  intros p n Hnd Hs1 Hs2 Hnext Hprev.
  destruct (ring_distinct h a x b Hnd) as (N1 & N2 & _ & N3 & D1 & D2 & D3 & D4). fold p n in D3, D4.
  assert (Hpx : p <> x) by (intros E; rewrite E in D3; by apply D3, elem_of_cons; left).
  assert (Hnx : n <> x) by (intros E; rewrite E in D4; by apply D4, elem_of_cons; left).
  assert (Hseg : seg m' h a n).
  { eapply seg_retarget; [done|intros Hin; by apply D4, elem_of_cons; right|exact Hs1| | |].
    - intros w Hw Hwp. rewrite Hnext by (intros ->; done). by rewrite lookup_insert_ne by (intros <-; done).
    - intros w Hw. rewrite Hprev by (intros ->; apply D1, elem_of_cons; by right).
      rewrite lookup_insert_ne; [done|]. apply (ne_in n w _ D4), elem_of_cons. by right.
    - fold p. split; [rewrite Hnext by done|rewrite Hprev by done]; by rewrite lookup_insert_eq. }
  destruct b as [|n' b]; cbn [hd] in *; subst n; [by rewrite app_nil_r|].
  apply seg_app. split; [done|]. destruct Hs2 as [_ Hs2].
  eapply seg_frame; [| |exact Hs2]; intros z Hz.
  - rewrite Hnext by (intros ->; apply D2, elem_of_app; by left).
    rewrite lookup_insert_ne; [done|]. apply (ne_in p z _ D3), elem_of_cons. by right.
  - rewrite Hprev by (intros ->; apply D2; cbn; apply elem_of_cons; by right).
    rewrite lookup_insert_ne; [done|]. intros ->. apply elem_of_app in Hz as [Hz|Hz].
    + apply list.NoDup_cons in N3 as [_ N3]. by apply list.NoDup_cons in N3 as [? _].
    + apply list_elem_of_singleton in Hz as ->. apply list.NoDup_cons in N2 as [N2 _]. apply N2, elem_of_cons. by left.
Qed.

(** ngx_queue_remove *)
Lemma remove_spec debug m h a x b :
  queue m h (a ++ x :: b) ->
  exists m', ngx_queue_remove debug x m = Some m' /\ queue m' h (a ++ b) /\
    same_out (h :: a ++ x :: b) m m'.
Proof.
  intros [Hs Hnd]. apply seg_app in Hs as [Hs1 Hs2].
  destruct (seg_prev _ _ _ _ Hs1) as [E1 E2]. destruct (seg_first _ _ _ _ Hs2) as [E3 E4].
  destruct (ring_distinct h a x b Hnd) as (_ & _ & HN & _ & _ & _ & D3 & D4).
  pose proof (last_in h a) as Hp. pose proof (hd_in h b) as Hn.
  set (p := List.last a h) in *. set (n := hd h b) in *.
  assert (Hpx : p <> x) by (intros E; rewrite E in D3; by apply D3, elem_of_cons; left).
  assert (Hnx : n <> x) by (intros E; rewrite E in D4; by apply D4, elem_of_cons; left).
  set (m1 := set_next p n (set_prev n p m)).
  set (m' := if debug then set_next x 0 (set_prev x 0 m1) else m1). exists m'.
  assert (Hnext : forall z, z <> x -> next m' !! z = <[p := n]> (next m) !! z)
    by (intros z Hz; unfold m'; destruct debug; [|done]; cbn; by rewrite (lookup_insert_ne _ x z)).
  assert (Hprev : forall z, z <> x -> prev m' !! z = <[n := p]> (prev m) !! z)
    by (intros z Hz; unfold m'; destruct debug; [|done]; cbn; by rewrite (lookup_insert_ne _ x z)).
  split_and!.
  - unfold ngx_queue_remove. rewrite E3. cbn [mbind option_bind]. rewrite E2. cbn [mbind option_bind].
    cbn [prev next set_prev]. rewrite lookup_insert_ne by done. rewrite E2, E3. cbn [mbind option_bind].
    unfold m', m1. by destruct debug.
  - split; [|done]. by apply (unlink_seg m m' h a x b).
  - intros z Hz. assert (z <> x) by set_solver. assert (p <> z) by set_solver. assert (n <> z) by set_solver.
    rewrite Hnext, Hprev by done. by rewrite !lookup_insert_ne.
Qed.

(** ngx_queue_split *)
Lemma split_spec m h a q b n :
  queue m h (a ++ q :: b) -> n ∉ h :: a ++ q :: b ->
  exists m', ngx_queue_split h q n m = Some m' /\ queue m' h a /\ queue m' n (q :: b) /\
    same_out (n :: h :: a ++ q :: b) m m'.
Proof.
  intros [Hs Hnd] Hn. apply seg_app in Hs as [Hs1 Hs2].
  destruct (seg_prev _ _ _ _ Hs1) as [E1 E2]. destruct (seg_prev _ _ _ _ Hs2) as [E3 E4].
  destruct (ring_distinct h a q b Hnd) as (N1 & N2 & _ & N3 & D1 & D2 & D3 & D4).
  pose proof (last_in h a) as Hpa. pose proof (last_in q b) as Hp.
  set (pa := List.last a h) in *. set (p := List.last b q) in *.
  rewrite elem_of_cons, elem_of_app, elem_of_cons in Hn.
  assert (Hd : forall z, z ∈ h :: a -> z ∉ q :: b).
  { rewrite app_comm_cons in Hnd. apply list.NoDup_app in Hnd as (_ & Hd & _). exact Hd. }
  assert (Hna : forall z, z ∈ h :: a -> z <> n) by (intros z Hz ->; apply elem_of_cons in Hz; naive_solver).
  assert (Hnb : forall z, z ∈ q :: b -> z <> n) by (intros z Hz ->; apply elem_of_cons in Hz; naive_solver).
  assert (Hqin : q ∈ q :: b) by (apply elem_of_cons; by left).
  assert (Hhin : h ∈ h :: a) by (apply elem_of_cons; by left).
  assert (Hpp : p <> pa) by (intros E; rewrite E in Hp; by apply (Hd pa)).
  assert (Hqh : q <> h) by (intros ->; by apply (Hd h)).
  clear Hn. unfold ngx_queue_split. rewrite E4. cbn [mbind option_bind].
  cbn [prev next set_prev set_next]. rewrite lookup_insert_ne, E2 by (apply not_eq_sym, Hnb; done).
  eexists. split; [reflexivity|]. split_and!.
  - split; [|done].
    eapply seg_retarget; [done|by apply list.NoDup_cons in N1 as [? _]|exact Hs1| | |]; fold pa; cbn.
    + intros w Hw Hwp. rewrite !lookup_insert_ne; [done|..]; try (apply not_eq_sym, Hna; done); try congruence.
      intros ->. by apply (Hd w).
    + intros w Hw. assert (w ∈ h :: a) by (apply elem_of_cons; by right).
      rewrite !lookup_insert_ne; [done|..]; try (apply not_eq_sym, Hna; done).
      * intros ->. apply list.NoDup_cons in N1 as [N1 _]. done.
      * intros ->. by apply (Hd w).
    + split; cbn; [by rewrite lookup_insert_eq|]. by rewrite lookup_insert_ne, lookup_insert_eq by done.
  - split; [|apply list.NoDup_cons; split; [|done]; intros Hin; by apply (Hnb n)]. split.
    + split; cbn; [|by rewrite lookup_insert_eq].
      rewrite lookup_insert_ne by (by apply Hna). by rewrite lookup_insert_eq.
    + eapply seg_retarget; [done|intros Hin; apply (Hnb n); [apply elem_of_cons; by right|done]|exact Hs2| | |]; fold p; cbn.
      * intros w Hw Hwp. rewrite !lookup_insert_ne; [done|..]; try (apply not_eq_sym, Hnb; done); try congruence.
      * intros w Hw. assert (w ∈ q :: b) by (apply elem_of_cons; by right).
        rewrite !lookup_insert_ne; [done|..]; try (apply not_eq_sym, Hnb; done).
        -- intros <-. by apply (Hd h).
        -- intros ->. apply list.NoDup_cons in N3 as [N3 _]. done.
      * split; cbn; [rewrite 2!lookup_insert_ne, lookup_insert_eq; [done|..]; try done; by apply not_eq_sym, Hnb|].
        rewrite 2!lookup_insert_ne, lookup_insert_eq; [done|by apply Hna|by apply Hnb].
  - intros z Hz. rewrite !elem_of_cons, elem_of_app, elem_of_cons in Hz. rewrite elem_of_cons in Hpa, Hp.
    assert (z <> n /\ z <> h /\ z <> q /\ z <> pa /\ z <> p) as (? & ? & ? & ? & ?).
    { split_and!; intros ->; apply Hz; tauto. }
    cbn. by rewrite !lookup_insert_ne.
Qed.

(** ngx_queue_add; the head [n] of the second queue is left behind *)
Lemma queue_add_spec m h n l1 l2 :
  queue m h l1 -> queue m n l2 -> (forall z, z ∈ h :: l1 -> z ∉ n :: l2) ->
  exists m', ngx_queue_add h n m = Some m' /\ queue m' h (l1 ++ l2) /\
    same_out (h :: l1 ++ n :: l2) m m'.
Proof.
  intros [Hs1 N1] [Hs2 N2] Hd.
  destruct (seg_prev _ _ _ _ Hs1) as [E1 E2]. destruct (seg_first _ _ _ _ Hs2) as [E3 E4].
  destruct (seg_prev _ _ _ _ Hs2) as [E5 E6].
  pose proof (last_in h l1) as Hp. pose proof (hd_in n l2) as Hf. pose proof (last_in n l2) as Hp2.
  assert (Hh : h ∈ h :: l1) by (apply elem_of_cons; by left).
  assert (Hn : n ∈ n :: l2) by (apply elem_of_cons; by left).
  assert (Hne : forall x y, x ∈ h :: l1 -> y ∈ n :: l2 -> x <> y) by (intros x y Hx Hy ->; by apply (Hd y)).
  assert (HN : NoDup (h :: l1 ++ l2)).
  { rewrite app_comm_cons. apply list.NoDup_app. split_and!; [done| |by apply list.NoDup_cons in N2 as [_ ?]].
    intros z Hz Hin. apply (Hd z Hz), elem_of_cons. by right. }
  set (p := List.last l1 h) in *. set (f := hd n l2) in *. set (p2 := List.last l2 n) in *.
  assert (Hout : forall p' z, (p' = p \/ p' = p2) -> z ∉ h :: l1 ++ n :: l2 -> z <> h /\ z <> n /\ z <> p /\ z <> f /\ z <> p').
  { intros p' z Hp' Hz. rewrite app_comm_cons, elem_of_app in Hz.
    split_and!; intros ->; apply Hz; destruct Hp' as [->| ->]; tauto. }
  unfold ngx_queue_add. rewrite E2. cbn [mbind option_bind]. rewrite E3. cbn [mbind option_bind].
  cbn [prev next set_prev set_next]. rewrite lookup_insert_ne by (by apply Hne). rewrite E3. cbn [mbind option_bind].
  rewrite E2. cbn [mbind option_bind prev next set_prev set_next].
  assert (Hpn : exists p', <[f := p]> (prev m) !! n = Some p' /\ (p' = p \/ p' = p2) /\
    (l2 = [] -> p' = p) /\ (l2 <> [] -> p' = p2)).
  { destruct l2 as [|x l2].
    - exists p. split; [apply lookup_insert_eq|]. naive_solver.
    - exists p2. split; [|naive_solver]. rewrite lookup_insert_ne; [done|]. subst f. cbn.
      intros ->. apply list.NoDup_cons in N2 as [N2 _]. apply N2, elem_of_cons. by left. }
  destruct Hpn as (p' & -> & Hp' & Hp'1 & Hp'2). cbn [mbind option_bind]. eexists. split; [reflexivity|].
  split; [split; [|done]|].
  - assert (Hw : forall w, w ∈ h :: l1 -> w <> p -> w <> p').
    { intros w Hw Hwp. destruct Hp' as [->| ->]; [done|]. by apply Hne. }
    assert (Hl1 : forall w, w ∈ l1 -> w <> h /\ w <> f).
    { intros w Hw1. assert (w ∈ h :: l1) by (apply elem_of_cons; by right).
      split; [|by apply Hne]. intros ->. apply list.NoDup_cons in N1 as [N1 _]. done. }
    assert (Hseg : forall z, z ∉ l1 -> <[p' := h]> (<[p := f]> (next m)) !! p = Some z ->
      <[h := p']> (<[f := p]> (prev m)) !! z = Some p ->
      seg (Mem (<[h := p']> (<[f := p]> (prev m))) (<[p' := h]> (<[p := f]> (next m)))) h l1 z).
    { intros z Hz Hz1 Hz2. eapply seg_retarget; [done|done|exact Hs1| | |]; fold p; cbn.
      - intros w Hw1 Hw2. specialize (Hw w Hw1 Hw2). by rewrite !lookup_insert_ne.
      - intros w Hw1. destruct (Hl1 w Hw1). by rewrite !lookup_insert_ne.
      - done. }
    destruct l2 as [|x l2].
    + rewrite app_nil_r, (Hp'1 eq_refl) in *. apply Hseg; [by apply list.NoDup_cons in N1 as [? _]|..];
        by rewrite lookup_insert_eq.
    + rewrite (Hp'2 ltac:(done)) in *. apply seg_app.
      assert (Hpp : p2 <> p) by (apply not_eq_sym, Hne; done). subst f. cbn [hd] in *.
      assert (Hxh : h <> x) by (by apply Hne).
      split.
      * apply Hseg.
        -- intros Hin. apply (Hne x x); [apply elem_of_cons; by right|done|done].
        -- by rewrite lookup_insert_ne, lookup_insert_eq.
        -- by rewrite lookup_insert_ne, lookup_insert_eq.
      * destruct Hs2 as [_ Hs2]. apply list.NoDup_cons in N2 as [_ N2].
        assert (Ep2 : p2 = List.last l2 x) by apply last_cons.
        eapply seg_retarget; [done| |exact Hs2| | |]; rewrite <- ?Ep2; cbn.
        -- intros Hin. apply (Hne h h); [done| |done]. apply elem_of_cons. right. apply elem_of_cons. by right.
        -- intros w Hw1 Hw2. rewrite !lookup_insert_ne; [done|..]; [|done].
           apply Hne; [done|]. apply elem_of_cons. by right.
        -- intros w Hw1. assert (w ∈ n :: x :: l2) by (apply elem_of_cons; right; apply elem_of_cons; by right).
           rewrite !lookup_insert_ne; [done| |by apply Hne]. intros ->. by apply list.NoDup_cons in N2 as [? _].
        -- split; cbn; by rewrite lookup_insert_eq.
  - intros z Hz. destruct (Hout p' z Hp' Hz) as (? & ? & ? & ? & ?). cbn. by rewrite !lookup_insert_ne.
Qed.

(** ** ngx_queue_middle *)

Lemma seg_next_at m x l y k a : seg m x l y -> (x :: l) !! k = Some a -> next m !! a = (l ++ [y]) !! k.
Proof.
  revert x k. induction l as [|b l IH]; intros x k Hs Hk.
  - destruct k as [|[|k]]; cbn in *; [simplify_eq; apply Hs|done..].
  - destruct Hs as [[Hs _] Hr]. destruct k as [|k]; cbn in *; [by simplify_eq|]. by apply (IH b).
Qed.

Lemma queue_next m h l k a b :
  queue m h l -> l !! k = Some a -> l !! S k = Some b -> next m !! a = Some b.
Proof.
  intros [Hs _] Ha Hb. rewrite (seg_next_at m h l h (S k) a Hs Ha).
  rewrite lookup_app_l; [done|]. by apply lookup_lt_Some in Hb.
Qed.

Lemma queue_last m h l : queue m h l -> l <> [] -> prev m !! h = l !! (length l - 1)%nat.
Proof.
  intros [Hs _] Hne. apply seg_prev in Hs as [_ ->]. destruct (exists_last Hne) as (l' & x & ->).
  rewrite List.last_last, length_app, Nat.add_sub. by rewrite list_lookup_middle by done.
Qed.

Lemma lookup_eqb (l : list Z) i j a b :
  NoDup l -> l !! i = Some a -> l !! j = Some b -> (a =? b) = (i =? j)%nat.
Proof.
  intros Hn Hi Hj. destruct (Nat.eqb_spec i j) as [->|E].
  - simplify_eq. apply Z.eqb_refl.
  - apply Z.eqb_neq. intros ->. by apply E, (NoDup_lookup l i j b).
Qed.

Lemma middle_loop_spec m h l fuel i mid nx :
  queue m h l -> l !! i = Some mid -> l !! (2 * i)%nat = Some nx -> (2 * i + 1 < length l)%nat ->
  (length l <= 2 * i + 2 * fuel)%nat ->
  middle_loop fuel m h mid nx = l !! (length l / 2)%nat.
Proof.
  intros Hq. pose proof Hq as [_ Hn]. apply list.NoDup_cons in Hn as [_ Hn].
  revert i mid nx. induction fuel as [|fuel IH]; intros i mid nx Hi H2 Hl Hf; [lia|].
  destruct (lookup_lt_is_Some_2 l (S i)) as [mid' Hmid]; [lia|].
  destruct (lookup_lt_is_Some_2 l (S (2 * i))) as [n1 Hn1]; [lia|].
  destruct (lookup_lt_is_Some_2 l (length l - 1)) as [la Hla]; [lia|].
  assert (Hne : l <> []) by (intros ->; cbn in Hl; lia).
  cbn [middle_loop]. rewrite (queue_next m h l i mid mid' Hq Hi Hmid). cbn [mbind option_bind].
  rewrite (queue_next m h l (2 * i) nx n1 Hq H2 Hn1). cbn [mbind option_bind].
  rewrite (queue_last m h l Hq Hne), Hla. cbn [mbind option_bind].
  rewrite (lookup_eqb l (S (2 * i)) (length l - 1) n1 la Hn Hn1 Hla).
  assert (Hhalf : (length l = 2 * i + 2 \/ length l = 2 * i + 3)%nat -> (length l / 2 = S i)%nat).
  { intros H. symmetry. apply (Nat.div_unique _ 2 _ (length l - 2 * i - 2)); lia. }
  destruct (Nat.eqb_spec (S (2 * i)) (length l - 1)); [by rewrite Hhalf by lia|].
  destruct (lookup_lt_is_Some_2 l (S (S (2 * i)))) as [n2 Hn2]; [lia|].
  rewrite (queue_next m h l _ n1 n2 Hq Hn1 Hn2). cbn [mbind option_bind].
  rewrite (lookup_eqb l (S (S (2 * i))) (length l - 1) n2 la Hn Hn2 Hla).
  destruct (Nat.eqb_spec (S (S (2 * i))) (length l - 1)); [by rewrite Hhalf by lia|].
  apply (IH (S i)); [done| |lia|lia]. by replace (2 * S i)%nat with (S (S (2 * i))) by lia.
Qed.

Lemma middle_spec m h l fuel :
  queue m h l -> l <> [] -> (length l <= fuel)%nat ->
  ngx_queue_middle fuel m h = l !! (length l / 2)%nat.
Proof.
  intros Hq Hne Hf. pose proof Hq as [Hs Hn]. apply list.NoDup_cons in Hn as [_ Hn].
  destruct l as [|x l]; [done|]. unfold ngx_queue_middle.
  destruct Hs as [[-> _] _]. cbn [mbind option_bind]. rewrite (queue_last m h _ Hq Hne).
  destruct (lookup_lt_is_Some_2 (x :: l) (length (x :: l) - 1)) as [la Hla]; [cbn; lia|].
  rewrite Hla. cbn [mbind option_bind]. rewrite (lookup_eqb (x :: l) 0 _ x la Hn eq_refl Hla).
  destruct (Nat.eqb_spec 0 (length (x :: l) - 1)) as [E|E].
  - cbn in E. destruct l; [done|cbn in E; lia].
  - apply (middle_loop_spec m h (x :: l) fuel 0); try done; cbn [length] in *; lia.
Qed.

(** ** Merging and sorting as functions on lists *)

Section Sort.
Context (debug : bool) (cmp : Z -> Z -> Z).

Fixpoint merge (l1 : list Z) : list Z -> list Z :=
  match l1 with
  | [] => fun l2 => l2
  | a :: l1' =>
      fix go (l2 : list Z) : list Z :=
        match l2 with
        | [] => l1
        | b :: l2' => if cmp a b <=? 0 then a :: merge l1' l2 else b :: go l2'
        end
  end.

Fixpoint msort (fuel : nat) (l : list Z) : list Z :=
  match fuel with
  | O => l
  | S fuel' =>
      if (length l <=? 1)%nat then l
      else merge (msort fuel' (take (length l / 2) l)) (msort fuel' (drop (length l / 2) l))
  end.

Lemma merge_nil_r l : merge l [] = l.
Proof. by destruct l. Qed.

Lemma merge_cons a l1 b l2 :
  merge (a :: l1) (b :: l2) = if cmp a b <=? 0 then a :: merge l1 (b :: l2) else b :: merge (a :: l1) l2.
Proof. done. Qed.

Lemma merge_perm l1 l2 : merge l1 l2 ≡ₚ l1 ++ l2.
Proof.
  revert l2. induction l1 as [|a l1 IH]; intros l2; [done|].
  induction l2 as [|b l2 IH2]; [by rewrite merge_nil_r, app_nil_r|].
  rewrite merge_cons. case_if; [by rewrite IH|]. rewrite IH2. by rewrite <- Permutation_middle.
Qed.

Lemma msort_perm fuel l : msort fuel l ≡ₚ l.
Proof.
  revert l. induction fuel as [|fuel IH]; intros l; [done|]. cbn [msort]. case_if; [done|].
  by rewrite merge_perm, !IH, take_drop.
Qed.

(** The loop, from [q1] in the first queue and the head of the second on. *)
Lemma merge_loop_spec fuel m q tail d r1 l2 :
  queue m q (d ++ r1) -> queue m tail l2 -> (forall z, z ∈ q :: d ++ r1 -> z ∉ tail :: l2) ->
  (length r1 + length l2 < fuel)%nat ->
  exists m', merge_loop debug cmp fuel q tail (hd q r1) (hd tail l2) m = Some m' /\
    queue m' q (d ++ merge r1 l2) /\ same_out (q :: d ++ r1 ++ tail :: l2) m m'.
Proof.
  revert m d r1 l2. induction fuel as [|fuel IH]; intros m d r1 l2 Hq1 Hq2 Hd Hf; [lia|].
  pose proof Hq1 as [Hs1 Hn1]. pose proof Hq2 as [Hs2 Hn2]. cbn [merge_loop].
  destruct r1 as [|a r1]; cbn [hd].
  { rewrite Z.eqb_refl. destruct (queue_add_spec m q tail (d ++ []) l2 Hq1 Hq2 Hd) as (m' & -> & H1 & H2).
    exists m'. rewrite app_nil_r in *. split_and!; done. }
  assert (Hain : a ∈ q :: d ++ a :: r1) by set_solver.
  assert (Haq : a <> q) by (intros ->; apply list.NoDup_cons in Hn1 as [Hn1 _]; set_solver).
  rewrite (proj2 (Z.eqb_neq a q)) by done. destruct l2 as [|b l2]; cbn [hd].
  { rewrite Z.eqb_refl. exists m. rewrite merge_nil_r. split_and!; done. }
  assert (Hbt : b <> tail) by (intros ->; apply list.NoDup_cons in Hn2 as [Hn2 _]; set_solver).
  rewrite (proj2 (Z.eqb_neq b tail)) by done. rewrite merge_cons.
  destruct (cmp a b <=? 0).
  - assert (Hnext : next m !! a = Some (hd q r1)).
    { apply seg_app in Hs1 as [_ Hs1]. by apply seg_first in Hs1 as [? _]. }
    rewrite Hnext. cbn [mbind option_bind].
    destruct (IH m (d ++ [a]) r1 (b :: l2)) as (m' & E & H1 & H2);
      [by rewrite <- app_assoc|done|by rewrite <- app_assoc|cbn in *; lia|].
    exists m'. rewrite <- !app_assoc in *. split_and!; done.
  - destruct (remove_spec debug m tail [] b l2 Hq2) as (m1 & -> & Hr1 & Hr2). cbn [mbind option_bind app] in *.
    assert (Hq1' : queue m1 q (d ++ a :: r1)) by (eapply queue_frame; [exact Hr2| |done]; exact Hd).
    assert (Hb : b ∉ q :: d ++ a :: r1) by (intros Hin; apply (Hd b Hin); set_solver).
    destruct (insert_before_spec m1 q d a r1 b Hq1' Hb) as (m2 & -> & Hi1 & Hi2). cbn [mbind option_bind].
    assert (Hq2' : queue m2 tail l2).
    { eapply queue_frame; [exact Hi2| |done]. intros z Hz Hin.
      apply elem_of_cons in Hin as [->|Hin].
      - apply list.NoDup_cons in Hn2 as [_ Hn2]. apply list.NoDup_cons in Hn2 as [Hn2 _]. set_solver.
      - apply (Hd z Hin). set_solver. }
    assert (Hnext : next m2 !! tail = Some (hd tail l2)).
    { destruct Hq2' as [Hs _]. by apply seg_first in Hs as [? _]. }
    rewrite Hnext. cbn [mbind option_bind].
    destruct (IH m2 (d ++ [b]) (a :: r1) l2) as (m' & E & H1 & H2); [by rewrite <- app_assoc|done| |cbn in *; lia|].
    + intros z Hz Hin. rewrite <- app_assoc in Hz.
      assert (Hz' : z = b \/ z ∈ q :: d ++ a :: r1) by (clear - Hz; set_solver).
      destruct Hz' as [->|Hz']; [|apply (Hd z Hz'); set_solver].
      apply list.NoDup_cons in Hn2 as [_ Hn2]. apply list.NoDup_cons in Hn2 as [Hn2 _]. set_solver.
    + exists m'. rewrite <- !app_assoc in *. split_and!; [done|done|].
      eapply same_out_trans; [eapply same_out_mono; [|exact Hr2]|eapply same_out_trans;
        [eapply same_out_mono; [|exact Hi2]|eapply same_out_mono; [|exact H2]]]; clear; set_solver.
Qed.

(** A queue of two or more nodes is cut in the middle; both parts are not empty. *)
Lemma cut_spec fuel m q sp l :
  queue m q l -> sp ∉ q :: l -> (1 < length l <= fuel)%nat ->
  exists la a mid b m1, next m !! q = Some (hd q l) /\ prev m !! q = Some la /\ (hd q l =? la) = false /\
    ngx_queue_middle fuel m q = Some mid /\ ngx_queue_split q mid sp m = Some m1 /\
    l = a ++ mid :: b /\ take (length l / 2) l = a /\ drop (length l / 2) l = mid :: b /\ a <> [] /\
    queue m1 q a /\ queue m1 sp (mid :: b) /\ same_out (sp :: q :: l) m m1.
Proof.
  intros Hq Hsp Hl. pose proof Hq as [Hs Hn].
  assert (Hne : l <> []) by (intros ->; cbn in Hl; lia).
  destruct (lookup_lt_is_Some_2 l (length l - 1)) as [la Hla]; [lia|].
  assert (Hk : (0 < length l / 2 < length l)%nat) by (split; [apply Nat.div_str_pos; lia|apply Nat.div_lt; lia]).
  set (k := (length l / 2)%nat) in *.
  destruct (lookup_lt_is_Some_2 l k) as [mid Hmid]; [lia|].
  assert (El : l = take k l ++ mid :: drop (S k) l) by (by rewrite take_drop_middle).
  pose proof Hq as Hq0. rewrite El in Hq0. pose proof Hsp as Hsp0. rewrite El in Hsp0.
  destruct (split_spec m q _ mid _ sp Hq0 Hsp0) as (m1 & E1 & Hq1 & Hq2 & Ho1). rewrite <- El in Ho1.
  exists la, (take k l), mid, (drop (S k) l), m1. split_and!; try done.
  - by apply seg_first in Hs as [-> _].
  - by rewrite (queue_last m q l Hq Hne).
  - destruct l as [|x l]; [done|]. apply list.NoDup_cons in Hn as [_ Hn]. cbn [hd].
    rewrite (lookup_eqb (x :: l) 0 _ x la Hn eq_refl Hla). apply Nat.eqb_neq. cbn [length] in *. lia.
  - rewrite (middle_spec m q l fuel Hq Hne) by lia. exact Hmid.
  - by apply drop_S.
  - intros E. assert (Hz : length (take k l) = 0%nat) by (by rewrite E). rewrite length_take in Hz. lia.
Qed.

(** ngx_queue_sort computes [msort]; it touches the nodes of the queue and the
    stack from [sp] on. *)
Lemma sort_spec fuel m q sp l :
  queue m q l -> (forall z, z ∈ q :: l -> z < sp) -> (length l < fuel)%nat ->
  exists m', ngx_queue_sort debug cmp fuel q sp m = Some m' /\ queue m' q (msort fuel l) /\
    (forall z, z ∉ q :: l -> z < sp -> next m' !! z = next m !! z /\ prev m' !! z = prev m !! z).
Proof.
  revert m q sp l. induction fuel as [|fuel IH]; intros m q sp l Hq Hsp Hf; [lia|].
  pose proof Hq as [Hs Hn]. cbn [ngx_queue_sort msort].
  destruct (Nat.leb_spec (length l) 1) as [Hle|Hgt].
  { exists m. destruct (seg_first _ _ _ _ Hs) as [-> _]. destruct (seg_prev _ _ _ _ Hs) as [_ ->].
    cbn [mbind option_bind]. destruct l as [|x [|y l]]; [| |cbn in Hle; lia]; cbn [hd List.last]; by rewrite Z.eqb_refl. }
  assert (Hsp' : sp ∉ q :: l) by (intros Hin; apply Hsp in Hin; lia).
  destruct (cut_spec (S fuel) m q sp l Hq Hsp' ltac:(lia))
    as (la & a & mid & b & m1 & -> & -> & Hfl & -> & Esp & El & -> & -> & Hane & Hq1 & Hq2 & Ho1).
  cbn [mbind option_bind]. rewrite Hfl, Esp. cbn [mbind option_bind]. clear Hfl Esp. subst l.
  rewrite length_app in Hf. cbn [length] in Hf.
  assert (Hla1 : (0 < length a)%nat) by (destruct a; [done|cbn; lia]).
  assert (Hd : forall z, z ∈ q :: a -> z ∉ mid :: b).
  { rewrite app_comm_cons in Hn. by apply list.NoDup_app in Hn as (_ & Hd & _). }
  destruct (IH m1 q (sp + 1) a Hq1) as (m2 & -> & Hq1' & Ho2); [|lia|].
  { intros z Hz. assert (z < sp); [|lia]. apply Hsp. rewrite app_comm_cons, elem_of_app. by left. }
  cbn [mbind option_bind].
  assert (Hsb : forall z, z ∈ sp :: mid :: b -> z ∉ q :: a /\ z < sp + 1).
  { intros z Hz. apply elem_of_cons in Hz as [->|Hz].
    - split; [|lia]. intros Hin. apply Hsp'. rewrite app_comm_cons, elem_of_app. by left.
    - split; [intros Hin; by apply (Hd z)|]. assert (z < sp); [|lia]. apply Hsp.
      rewrite app_comm_cons, elem_of_app. by right. }
  assert (Hq2' : queue m2 sp (mid :: b)).
  { destruct Hq2 as [Hs2 Hn2]. split; [|done]. eapply seg_frame; [| |exact Hs2]; intros z Hz;
      (apply Ho2; apply Hsb; clear - Hz; set_solver). }
  destruct (IH m2 sp (sp + 1) (mid :: b) Hq2') as (m3 & -> & Hq2'' & Ho3); [|cbn [length]; lia|].
  { intros z Hz. by apply Hsb. }
  cbn [mbind option_bind].
  assert (Ea : forall z, z ∈ q :: msort fuel a <-> z ∈ q :: a) by (intros z; by rewrite msort_perm).
  assert (Eb : forall z, z ∈ sp :: msort fuel (mid :: b) <-> z ∈ sp :: mid :: b) by (intros z; by rewrite msort_perm).
  assert (Hq1'' : queue m3 q (msort fuel a)).
  { destruct Hq1' as [Hs1 Hn1]. split; [|done].
    assert (Hz1 : forall z, z ∈ q :: msort fuel a -> z ∉ sp :: mid :: b /\ z < sp + 1).
    { intros z Hz. apply Ea in Hz. split; [intros Hin; by apply Hsb in Hin as [? _]|].
      assert (z < sp); [|lia]. apply Hsp. rewrite app_comm_cons, elem_of_app. by left. }
    eapply seg_frame; [| |exact Hs1]; intros z Hz; (apply Ho3; apply Hz1; clear - Hz; set_solver). }
  unfold ngx_queue_merge. pose proof Hq1'' as [Hs1 _]. pose proof Hq2'' as [Hs2 _].
  destruct (seg_first _ _ _ _ Hs1) as [-> _]. destruct (seg_first _ _ _ _ Hs2) as [-> _]. cbn [mbind option_bind].
  destruct (merge_loop_spec (S fuel) m3 q sp [] (msort fuel a) (msort fuel (mid :: b)) Hq1'' Hq2'')
    as (m' & E & Hq' & Ho4).
  { intros z Hz Hin. apply Ea in Hz. apply Eb in Hin. by apply Hsb in Hin as [? _]. }
  { rewrite !msort_perm. cbn [length]. lia. }
  exists m'. split; [done|]. split; [done|]. intros z Hz Hzs.
  assert (Hza : z ∉ q :: a) by (intros Hin; apply Hz; rewrite app_comm_cons, elem_of_app; by left).
  assert (Hzb : z ∉ mid :: b) by (intros Hin; apply Hz; rewrite app_comm_cons, elem_of_app; by right).
  assert (Hzb' : z ∉ sp :: mid :: b) by (intros [->|Hin]%elem_of_cons; [lia|done]).
  destruct (Ho4 z) as [-> ->].
  { cbn [app]. rewrite app_comm_cons, elem_of_app. intros [Hin|Hin]; [by apply Ea in Hin|by apply Eb in Hin]. }
  destruct (Ho3 z Hzb' ltac:(lia)) as [-> ->]. destruct (Ho2 z Hza ltac:(lia)) as [-> ->].
  apply Ho1. intros [->|Hin]%elem_of_cons; [lia|done].
Qed.

(** ** The result is sorted, and equal elements keep their order *)

Definition le (a b : Z) : Prop := cmp a b <= 0.
Definition equiv (a b : Z) : bool := (cmp a b <=? 0) && (cmp b a <=? 0).

Context (Htotal : forall a b, le a b \/ le b a) (Htrans : forall a b c, le a b -> le b c -> le a c).

Lemma merge_sorted l1 l2 : StronglySorted le l1 -> StronglySorted le l2 -> StronglySorted le (merge l1 l2).
Proof.
  revert l2. induction l1 as [|a l1 IH]; intros l2 H1 H2; [done|].
  induction l2 as [|b l2 IH2]; [by rewrite merge_nil_r|]. rewrite merge_cons.
  pose proof H1 as H1'. pose proof H2 as H2'.
  apply StronglySorted_inv in H1' as [Hs1 Ha]. apply StronglySorted_inv in H2' as [Hs2 Hb].
  destruct (Z.leb_spec (cmp a b) 0) as [Hab|Hab].
  - constructor; [by apply IH|]. rewrite merge_perm. apply Forall_app. split; [done|].
    constructor; [done|]. revert Hb. apply Forall_impl. intros c Hc. by apply (Htrans a b c).
  - assert (Hba : le b a) by (destruct (Htotal a b) as [H|H]; [unfold le in H; lia|done]).
    constructor; [by apply IH2|]. rewrite merge_perm. apply Forall_app. split; [|done].
    constructor; [done|]. revert Ha. apply Forall_impl. intros c Hc. by apply (Htrans b a c).
Qed.

Lemma merge_stable l1 l2 x :
  StronglySorted le l1 ->
  List.filter (equiv x) (merge l1 l2) = List.filter (equiv x) l1 ++ List.filter (equiv x) l2.
Proof.
  revert l2. induction l1 as [|a l1 IH]; intros l2 H1; [done|].
  induction l2 as [|b l2 IH2]; [by rewrite merge_nil_r, app_nil_r|]. rewrite merge_cons.
  pose proof H1 as H1'. apply StronglySorted_inv in H1' as [Hs1 Ha].
  destruct (Z.leb_spec (cmp a b) 0) as [Hab|Hab].
  - cbn [List.filter] in *. rewrite IH by done. by destruct (equiv x a).
  - cbn [List.filter] in IH2 |- *. rewrite IH2.
    destruct (equiv x b) eqn:Eb; [|done].
    assert (Hno : forall c, le a c -> equiv x c = false).
    { intros c Hc. apply not_true_is_false. intros Ec. unfold equiv in *. zbool.
      assert (le a b); [|unfold le in *; lia]. apply (Htrans a c b Hc), (Htrans c x b); unfold le; lia. }
    rewrite Hno by (destruct (Htotal a a); done).
    assert (List.filter (equiv x) l1 = []) as ->; [|done].
    clear - Ha Hno. induction Ha as [|c l1 Hc Ha IH]; [done|]. cbn. by rewrite Hno.
Qed.

Lemma msort_sorted fuel l : (length l <= fuel)%nat -> StronglySorted le (msort fuel l).
Proof.
  revert l. induction fuel as [|fuel IH]; intros l Hf; cbn [msort].
  - destruct l; [constructor|cbn in Hf; lia].
  - destruct (Nat.leb_spec (length l) 1).
    + destruct l as [|x [|y l]]; [constructor|repeat constructor|cbn in *; lia].
    + assert (0 < length l / 2 < length l)%nat by (split; [apply Nat.div_str_pos; lia|apply Nat.div_lt; lia]).
      apply merge_sorted; apply IH; rewrite ?length_take, ?length_drop; lia.
Qed.

Lemma msort_stable fuel l x :
  (length l <= fuel)%nat -> List.filter (equiv x) (msort fuel l) = List.filter (equiv x) l.
Proof.
  revert l. induction fuel as [|fuel IH]; intros l Hf; cbn [msort]; [done|].
  destruct (Nat.leb_spec (length l) 1); [done|].
  assert (0 < length l / 2 < length l)%nat by (split; [apply Nat.div_str_pos; lia|apply Nat.div_lt; lia]).
  rewrite merge_stable by (apply msort_sorted; rewrite length_take; lia).
  rewrite !IH by (rewrite ?length_take, ?length_drop; lia).
  rewrite <- List.filter_app. by rewrite take_drop.
Qed.

End Sort.

(** C25. ngx_queue_sort, on a queue linked in memory and with a comparison that is
    a total preorder, ends and leaves the same nodes linked in both directions in
    ascending order; nodes that compare equal keep their order.  It changes no
    link outside the queue and its own stack, however deep it recurses. *)
Theorem queue_sort_correct (debug : bool) (cmp : Z -> Z -> Z) (m : mem) (q sp : Z) (l : list Z)
    (Hq : queue m q l) (Hsp : forall z, z ∈ q :: l -> z < sp)
    (Htotal : forall a b, cmp a b <= 0 \/ cmp b a <= 0)
    (Htrans : forall a b c, cmp a b <= 0 -> cmp b c <= 0 -> cmp a c <= 0) :
  exists m' l', ngx_queue_sort debug cmp (S (length l)) q sp m = Some m' /\ queue m' q l' /\
    l' ≡ₚ l /\ StronglySorted (fun a b => cmp a b <= 0) l' /\
    (forall x, List.filter (equiv cmp x) l' = List.filter (equiv cmp x) l) /\
    (forall z, z ∉ q :: l -> z < sp -> next m' !! z = next m !! z /\ prev m' !! z = prev m !! z).
Proof.
  destruct (sort_spec debug cmp (S (length l)) m q sp l Hq Hsp ltac:(lia)) as (m' & E & Hq' & Ho).
  exists m', (msort cmp (S (length l)) l). split_and!; try done.
  - apply msort_perm.
  - apply msort_sorted; [done|done|lia].
  - intros x. apply msort_stable; [done|done|lia].
Qed.

(** The operations of a queue do what they do to the list of its nodes:
    initialisation makes it empty, the test for emptiness is right, the two
    insertions add at the head and at the tail, an insertion before a node and a
    removal change the list in that place, ngx_queue_middle returns the element
    in the middle, splitting and adding cut and join the lists.  All links stay
    consistent in both directions and nothing outside the queues changes. *)
Theorem queue_operations_correct (debug : bool) (m : mem) (h : Z) :
  queue (ngx_queue_init h m) h [] /\
  (forall l, queue m h l ->
     ngx_queue_empty h m = Some (bool_decide (l = [])) /\
     (l <> [] -> ngx_queue_middle (length l) m h = l !! (length l / 2)%nat) /\
     (forall x, x ∉ h :: l ->
        (exists m', ngx_queue_insert_head h x m = Some m' /\ queue m' h (x :: l) /\ same_out (x :: h :: l) m m') /\
        (exists m', ngx_queue_insert_tail h x m = Some m' /\ queue m' h (l ++ [x]) /\ same_out (x :: h :: l) m m'))) /\
  (forall a q b, queue m h (a ++ q :: b) ->
     (exists m', ngx_queue_remove debug q m = Some m' /\ queue m' h (a ++ b) /\ same_out (h :: a ++ q :: b) m m') /\
     (forall x, x ∉ h :: a ++ q :: b ->
        (exists m', ngx_queue_insert_tail q x m = Some m' /\ queue m' h (a ++ x :: q :: b) /\
           same_out (x :: h :: a ++ q :: b) m m') /\
        (exists m', ngx_queue_split h q x m = Some m' /\ queue m' h a /\ queue m' x (q :: b) /\
           same_out (x :: h :: a ++ q :: b) m m'))) /\
  (forall n l1 l2, queue m h l1 -> queue m n l2 -> (forall z, z ∈ h :: l1 -> z ∉ n :: l2) ->
     exists m', ngx_queue_add h n m = Some m' /\ queue m' h (l1 ++ l2) /\ same_out (h :: l1 ++ n :: l2) m m').
Proof.
  split_and!.
  - split; [split; apply lookup_insert_eq|apply list.NoDup_singleton].
  - intros l Hq. split_and!; [|intros Hne; by apply middle_spec|].
    + pose proof Hq as [Hs Hn]. unfold ngx_queue_empty. destruct (seg_prev _ _ _ _ Hs) as [_ ->].
      cbn [mbind option_bind]. f_equal. destruct l as [|x l]; [by rewrite Z.eqb_refl|].
      rewrite bool_decide_eq_false_2 by done. apply Z.eqb_neq. rewrite last_cons.
      apply list.NoDup_cons in Hn as [Hn _]. intros E. apply Hn. rewrite E. apply last_in.
    + intros x Hx. split; [by apply insert_head_spec|by apply insert_tail_spec].
  - intros a q b Hq. split; [by apply remove_spec|]. intros x Hx.
    split; [by apply insert_before_spec|by apply split_spec].
  - intros n l1 l2 H1 H2 Hd. by apply queue_add_spec.
Qed.

Lemma queue_operations_correct_witness :
  exists m', ngx_queue_insert_tail 1 5 (ngx_queue_init 1 (Mem ∅ ∅)) = Some m' /\ queue m' 1 [5].
Proof.
  destruct (proj1 (proj2 (queue_operations_correct false (ngx_queue_init 1 (Mem ∅ ∅)) 1)) []
    (proj1 (queue_operations_correct false (Mem ∅ ∅) 1))) as (_ & _ & H).
  destruct (H 5 ltac:(by_evaluation)) as [_ (m' & E & Hq & _)]. by exists m'.
Defined.

(** Three nodes, two of them equal in the comparison. *)
Lemma queue_sort_correct_witness :
  exists m m' l', of_list 1 [30; 11; 10] = Some m /\
    ngx_queue_sort false (fun a b => a / 10 - b / 10) 4 1 100 m = Some m' /\
    queue m' 1 l' /\ l' ≡ₚ [30; 11; 10].
Proof.
  assert (Hm : exists m, of_list 1 [30; 11; 10] = Some m /\ queue m 1 [30; 11; 10]).
  { eexists. split; [vm_compute; reflexivity|]. split; [cbn; repeat split; vm_compute; reflexivity|].
    by_evaluation. }
  destruct Hm as (m & Em & Hq).
  destruct (queue_sort_correct false (fun a b => a / 10 - b / 10) m 1 100 [30; 11; 10] Hq)
    as (m' & l' & E & Hq' & Hp & _); [|lia|lia|by exists m, m', l'].
  intros z Hz. rewrite !elem_of_cons, elem_of_nil in Hz. lia.
Defined.

End Queue.
