(* ===== verification/LimitReq.v ===== *)
(** * Limiting the rate of requests: src/http/modules/ngx_http_limit_req_module.c

    A zone of shared memory has a node for each key (a client address, say) with its
    leaky bucket: [excess] thousandths of a request that had not drained at the moment
    [last].  The nodes are in a red-black tree ordered by hash and key, and in a queue
    ordered by the last lookup.  A request passes several zones: it reserves the nodes of
    all but the last with a reference count, and is then charged to all of them.

    The tree and the queue are those of [RbTree] and [Queue], on the same addresses: a
    node is a structure whose parts are in three maps.  The zone's own structure
    ngx_http_limit_req_shctx_t, at the address [sh], has the sentinel of the tree and the
    head of the queue.  The slab allocator is an interface, the class [Slab]. *)

From stdpp Require Import sorting.
From S2P Require Import Prelude NgxNumber Crc32 RbTree RbTreeShape RbTreeInsert RbTreeDelete RbTreeSpec Queue.

Module LimitReq.

(** ngx_slab_alloc_locked and ngx_slab_free_locked *)
Class Slab (A : Type) := {
  slab_alloc : Z -> A -> option nat * A;
  slab_free : nat -> A -> A;
}.

(** What the pool has handed out. *)
Class SlabLaws (A : Type) `{!Slab A} := {
  live : A -> gset nat;
  slab_alloc_some size a p a' : slab_alloc size a = (Some p, a') -> p ∉ live a /\ live a' = {[p]} ∪ live a;
  slab_alloc_none size a a' : slab_alloc size a = (None, a') -> live a' = live a;
  slab_free_live p a : p ∈ live a -> live (slab_free p a) = live a ∖ {[p]};
}.

(** ngx_http_limit_req_node_t, without the links *)
Record lr_node := LrNode { lr_len : Z; lr_data : list Z; lr_last : Z; lr_excess : Z; lr_count : Z }.

Definition set_bucket (last excess : Z) (lr : lr_node) : lr_node :=
  LrNode (lr_len lr) (lr_data lr) last excess (lr_count lr).
Definition set_count (count : Z) (lr : lr_node) : lr_node :=
  LrNode (lr_len lr) (lr_data lr) (lr_last lr) (lr_excess lr) count.

(** memcmp of [n] bytes: the first difference *)
Fixpoint ngx_memcmp (n : nat) (s1 s2 : list Z) : Z :=
  match n, s1, s2 with
  | S n', a :: s1', b :: s2' => if a =? b then ngx_memcmp n' s1' s2' else a - b
  | _, _, _ => 0
  end.

Definition ngx_memn2cmp (s1 s2 : list Z) (n1 n2 : Z) : Z :=
  let '(n, z) := if n1 <=? n2 then (n1, -1) else (n2, 1) in
  let m := ngx_memcmp (Z.to_nat n) s1 s2 in
  if negb (m =? 0) || (n1 =? n2) then m else z.

Section Zone.
Context {A : Type} `{!Slab A}.
(** NGX_DEBUG, and the address of the zone's structure *)
Context (debug : bool) (sh : nat).

(** The shared memory. *)
Record zone := Zone { rbtree : state; lru : Queue.mem; nodes : gmap nat lr_node; shpool : A }.

Definition queue_head : Z := Z.of_nat sh.

(** The comparison of ngx_http_limit_req_rbtree_insert_value *)
Definition lr_less (ns : gmap nat lr_node) (a b : nat * Z) : bool :=
  if snd a <? snd b then true
  else if snd a >? snd b then false
  else
    match ns !! fst a, ns !! fst b with
    | Some lrn, Some lrnt => ngx_memn2cmp (lr_data lrn) (lr_data lrnt) (lr_len lrn) (lr_len lrnt) <? 0
    | _, _ => false
    end.

(** The milliseconds since [last], as ngx_http_limit_req_lookup and _account take them. *)
Definition elapsed (now last : Z) : Z :=
  let ms := i64 (now - last) in
  if ms <? -60000 then 1 else if ms <? 0 then 0 else ms.

(** lr->excess - ctx->rate * ms / 1000 + 1000, not below zero *)
Definition charged (rate ms excess : Z) : Z :=
  let excess := i64 (excess - u64 (rate * ms) / 1000 + 1000) in
  if excess <? 0 then 0 else excess.

(** The walk down the tree in ngx_http_limit_req_lookup *)
Fixpoint find_node (fuel : nat) (hash : Z) (key_ : list Z) (node : nat) (z : zone) : option (option nat) :=
  match fuel with
  | O => None
  | S fuel =>
      if (node =? sh)%nat then Some None
      else
        n ← rd node (rbtree z);
        if hash <? key n then find_node fuel hash key_ (left n) z
        else if hash >? key n then find_node fuel hash key_ (right n) z
        else
          lr ← nodes z !! node;
          let rc := ngx_memn2cmp key_ (lr_data lr) (Z.of_nat (length key_)) (lr_len lr) in
          if rc =? 0 then Some (Some node)
          else find_node fuel hash key_ (if rc <? 0 then left n else right n) z
  end.

(** The pages of a freed node are not accessible. *)
Definition free_node (p : nat) (z : zone) : zone :=
  Zone (MkState (delete p (mem (rbtree z))) (root (rbtree z)))
    (Queue.Mem (delete (Z.of_nat p) (Queue.prev (lru z))) (delete (Z.of_nat p) (Queue.next (lru z))))
    (delete p (nodes z)) (slab_free p (shpool z)).

(** ngx_http_limit_req_expire *)
Fixpoint expire_loop (fuel : nat) (now rate n : Z) (z : zone) : option zone :=
  match fuel with
  | O => None
  | S fuel =>
      if n <? 3 then
        empty ← Queue.ngx_queue_empty queue_head (lru z);
        if (empty : bool) then Some z
        else
          q ← Queue.ngx_queue_prev (lru z) queue_head;
          let p := Z.to_nat q in
          lr ← nodes z !! p;
          if negb (lr_count lr =? 0) then Some z
          else
            let ms := ngx_abs (i64 (now - lr_last lr)) in
            let excess := i64 (lr_excess lr - u64 (rate * ms) / 1000) in
            if negb (n =? 0) && ((ms <? 60000) || (excess >? 0)) then Some z
            else
              m ← Queue.ngx_queue_remove debug q (lru z);
              t ← ngx_rbtree_delete sh p (rbtree z);
              expire_loop fuel now rate (n + 1) (free_node p (Zone t m (nodes z) (shpool z)))
      else Some z
  end.

Definition ngx_http_limit_req_expire (now rate n : Z) (z : zone) : option zone := expire_loop 4 now rate n z.

(** The size of a node with its key. *)
Definition node_size (key_ : list Z) : Z := 32 + 48 + Z.of_nat (length key_).

(** The allocation in ngx_http_limit_req_lookup *)
Definition alloc_node (now rate : Z) (key_ : list Z) (z : zone) : option (option nat * zone) :=
  z ← ngx_http_limit_req_expire now rate 1 z;
  match slab_alloc (node_size key_) (shpool z) with
  | (Some p, a) => Some (Some p, Zone (rbtree z) (lru z) (nodes z) a)
  | (None, a) =>
      z ← ngx_http_limit_req_expire now rate 0 (Zone (rbtree z) (lru z) (nodes z) a);
      let '(p, a) := slab_alloc (node_size key_) (shpool z) in
      Some (p, Zone (rbtree z) (lru z) (nodes z) a)
  end.

(** What follows the allocation.  The fields of the new tree node other than the key
    are written by the insertion before anything reads them. *)
Definition add_node (hash : Z) (key_ : list Z) (lr : lr_node) (p : nat) (z : zone) : option zone :=
  let ns := <[p := lr]> (nodes z) in
  let t := MkState (<[p := Node hash 0 0 0 false]> (mem (rbtree z))) (root (rbtree z)) in
  t ← ngx_rbtree_insert sh (lr_less ns) p t;
  m ← Queue.ngx_queue_insert_head queue_head (Z.of_nat p) (lru z);
  Some (Zone t m ns (shpool z)).

(** ngx_http_limit_req_lookup: the return code, *ep, ctx->node when it is set, the zone *)
Definition ngx_http_limit_req_lookup (now rate burst hash : Z) (key_ : list Z) (account : bool) (z : zone)
    : option (Z * Z * option nat * zone) :=
  found ← find_node (S (size (mem (rbtree z)))) hash key_ (root (rbtree z)) z;
  match found with
  | Some p =>
      m ← Queue.ngx_queue_remove debug (Z.of_nat p) (lru z);
      m ← Queue.ngx_queue_insert_head queue_head (Z.of_nat p) m;
      lr ← nodes z !! p;
      let z := Zone (rbtree z) m (nodes z) (shpool z) in
      let ms := elapsed now (lr_last lr) in
      let excess := charged rate ms (lr_excess lr) in
      if excess >? burst then Some (NGX_BUSY, excess, None, z)
      else if account then
        let lr := set_bucket (if negb (ms =? 0) then now else lr_last lr) excess lr in
        Some (NGX_OK, excess, None, Zone (rbtree z) (lru z) (<[p := lr]> (nodes z)) (shpool z))
      else
        let lr := set_count (u64 (lr_count lr + 1)) lr in
        Some (NGX_AGAIN, excess, Some p, Zone (rbtree z) (lru z) (<[p := lr]> (nodes z)) (shpool z))
  | None =>
      '(p, z) ← alloc_node now rate key_ z;
      match p with
      | None => Some (NGX_ERROR, 0, None, z)
      | Some p =>
          let len := u16 (Z.of_nat (length key_)) in
          if account then
            z ← add_node hash key_ (LrNode len key_ now 0 0) p z;
            Some (NGX_OK, 0, None, z)
          else
            z ← add_node hash key_ (LrNode len key_ 0 0 1) p z;
            Some (NGX_AGAIN, 0, Some p, z)
      end
  end.

(** The charge of a reserved node in ngx_http_limit_req_account *)
Definition account_node (now rate : Z) (p : nat) (z : zone) : option (Z * zone) :=
  lr ← nodes z !! p;
  let ms := elapsed now (lr_last lr) in
  let excess := charged rate ms (lr_excess lr) in
  let lr := set_bucket (if negb (ms =? 0) then now else lr_last lr) excess lr in
  let lr := set_count (u64 (lr_count lr - 1)) lr in
  Some (excess, Zone (rbtree z) (lru z) (<[p := lr]> (nodes z)) (shpool z)).

(** The release in ngx_http_limit_req_unlock *)
Definition unlock_node (p : nat) (z : zone) : option zone :=
  lr ← nodes z !! p;
  Some (Zone (rbtree z) (lru z) (<[p := set_count (u64 (lr_count lr - 1)) lr]> (nodes z)) (shpool z)).

(** The end of ngx_http_limit_req_init_zone: ngx_rbtree_init and ngx_queue_init.  The
    structure of the zone has been allocated. *)
Definition ngx_http_limit_req_init_zone (a : A) : zone :=
  Zone (MkState {[sh := Node 0 0 0 0 false]} sh) (Queue.ngx_queue_init queue_head (Queue.Mem ∅ ∅)) ∅ a.

End Zone.

Arguments zone A : clear implicits.

(** ** The order of the keys *)

(** Shorter first when one is the beginning of the other. *)
Fixpoint lex (s1 s2 : list Z) : comparison :=
  match s1, s2 with
  | [], [] => Eq
  | [], _ => Lt
  | _, [] => Gt
  | a :: s1', b :: s2' => match a ?= b with Eq => lex s1' s2' | c => c end
  end.

Lemma memcmp_lex s1 s2 :
  let m := ngx_memcmp (length s1 `min` length s2) s1 s2 in
  lex s1 s2 = match m ?= 0 with Eq => (length s1 ?= length s2)%nat | c => c end.
Proof.
  revert s2. induction s1 as [|a s1 IH]; intros [|b s2]; try done. cbn [length Nat.min ngx_memcmp lex].
  destruct (Z.eqb_spec a b) as [->|Hne]; [rewrite Z.compare_refl; apply IH|].
  destruct (Z.compare_spec a b), (Z.compare_spec (a - b) 0); try lia; done.
Qed.

(** ngx_memn2cmp of whole strings *)
Lemma memn2cmp_lex s1 s2 :
  (ngx_memn2cmp s1 s2 (Z.of_nat (length s1)) (Z.of_nat (length s2)) ?= 0) = lex s1 s2.
Proof.
  rewrite memcmp_lex. unfold ngx_memn2cmp.
  destruct (Z.leb_spec (Z.of_nat (length s1)) (Z.of_nat (length s2))); rewrite Nat2Z.id.
  - rewrite Nat.min_l by lia. set (m := ngx_memcmp _ _ _). destruct (Z.eqb_spec m 0) as [->|Hm]; cbn [negb orb Z.compare].
    + destruct (Z.eqb_spec (Z.of_nat (length s1)) (Z.of_nat (length s2))), (Nat.compare_spec (length s1) (length s2)); lia || done.
    + destruct (Z.compare_spec m 0); done || lia.
  - rewrite Nat.min_r by lia. set (m := ngx_memcmp _ _ _). destruct (Z.eqb_spec m 0) as [->|Hm]; cbn [negb orb Z.compare].
    + destruct (Z.eqb_spec (Z.of_nat (length s1)) (Z.of_nat (length s2))), (Nat.compare_spec (length s1) (length s2)); lia || done.
    + destruct (Z.compare_spec m 0); done || lia.
Qed.

Lemma lex_eq s1 s2 : lex s1 s2 = Eq <-> s1 = s2.
Proof.
  revert s2. induction s1 as [|a s1 IH]; intros [|b s2]; try done. cbn.
  destruct (Z.compare_spec a b) as [->|Hab|Hab]; [rewrite IH; split; congruence|split; [done|intros [= ->]; lia]..].
Qed.

Lemma lex_opp s1 s2 : lex s2 s1 = CompOpp (lex s1 s2).
Proof.
  revert s2. induction s1 as [|a s1 IH]; intros [|b s2]; try done. cbn. rewrite (Z.compare_antisym a b).
  destruct (a ?= b); cbn; [apply IH|done|done].
Qed.

Lemma lex_trans s1 s2 s3 : lex s1 s2 = Lt -> lex s2 s3 = Lt -> lex s1 s3 = Lt.
Proof.
  revert s2 s3. induction s1 as [|a s1 IH]; intros [|b s2] [|c s3]; try done. cbn.
  destruct (Z.compare_spec a b), (Z.compare_spec b c), (Z.compare_spec a c); try done; try lia. apply IH.
Qed.

(** Hash and key. *)
Definition kcmp (a b : Z * list Z) : comparison :=
  match fst a ?= fst b with Eq => lex (snd a) (snd b) | c => c end.

Lemma kcmp_eq a b : kcmp a b = Eq <-> a = b.
Proof.
  destruct a as [h1 s1], b as [h2 s2]. unfold kcmp. cbn.
  destruct (Z.compare_spec h1 h2) as [->|?|?]; [rewrite lex_eq; split; congruence|split; [done|intros [= -> _]; lia]..].
Qed.

Lemma kcmp_opp a b : kcmp b a = CompOpp (kcmp a b).
Proof. unfold kcmp. rewrite (Z.compare_antisym (fst a)). destruct (fst a ?= fst b); cbn; [apply lex_opp|done|done]. Qed.

Lemma kcmp_trans a b c : kcmp a b = Lt -> kcmp b c = Lt -> kcmp a c = Lt.
Proof.
  unfold kcmp. destruct (Z.compare_spec (fst a) (fst b)), (Z.compare_spec (fst b) (fst c)), (Z.compare_spec (fst a) (fst c));
    try done; try lia. apply lex_trans.
Qed.

Lemma kcmp_gt a b : kcmp a b = Gt -> kcmp b a = Lt.
Proof. intros H. by rewrite kcmp_opp, H. Qed.

Definition klt (a b : Z * list Z) : bool := match kcmp a b with Lt => true | _ => false end.

Lemma klt_spec a b : klt a b = true <-> kcmp a b = Lt.
Proof. unfold klt. by destruct (kcmp a b). Qed.

(** The rank of an element among [l]: how many are below it. *)
Definition rank {X} (k : X -> Z * list Z) (l : list X) (x : X) : Z := Z.of_nat (length (List.filter (fun y => klt (k y) (k x)) l)).

Lemma filter_length_le {X} (f g : X -> bool) l :
  (forall y, y ∈ l -> f y = true -> g y = true) -> (length (List.filter f l) <= length (List.filter g l))%nat.
Proof.
  induction l as [|x l IH]; intros H; [done|]. cbn. specialize (IH ltac:(intros; apply H; set_solver)).
  destruct (f x) eqn:Hf; [rewrite (H x) by (done || by left); cbn; lia|]. destruct (g x); cbn; lia.
Qed.

Lemma filter_length_lt {X} (f g : X -> bool) l x :
  (forall y, y ∈ l -> f y = true -> g y = true) -> x ∈ l -> f x = false -> g x = true ->
  (length (List.filter f l) < length (List.filter g l))%nat.
Proof.
  induction l as [|y l IH]; intros H Hx Hf Hg; [set_solver|]. cbn.
  assert (Hl := filter_length_le f g l ltac:(intros; apply H; set_solver)).
  apply elem_of_cons in Hx as [<-|Hx]; [rewrite Hf, Hg; cbn; lia|].
  specialize (IH ltac:(intros; apply H; set_solver) Hx Hf Hg).
  destruct (f y) eqn:Hy; [rewrite (H y) by (done || by left); cbn; lia|]. destruct (g y); cbn; lia.
Qed.

Lemma rank_spec {X} (k : X -> Z * list Z) l a b : a ∈ l -> klt (k a) (k b) = (rank k l a <? rank k l b).
Proof.
  intros Ha. unfold rank. destruct (klt (k a) (k b)) eqn:H; symmetry.
  - apply Z.ltb_lt. apply Nat2Z.inj_lt. apply klt_spec in H. apply (filter_length_lt _ _ _ a); try done.
    + intros y _ Hy. apply klt_spec in Hy. apply klt_spec. by eapply kcmp_trans.
    + unfold klt. by rewrite (proj2 (kcmp_eq (k a) (k a)) eq_refl).
    + by apply klt_spec.
  - apply Z.ltb_ge. apply Nat2Z.inj_le. apply filter_length_le. intros y _ Hy. apply klt_spec in Hy. apply klt_spec.
    unfold klt in H. destruct (kcmp (k a) (k b)) eqn:E; [apply kcmp_eq in E; by rewrite E|done|].
    eapply kcmp_trans; [exact Hy|]. by apply kcmp_gt.
Qed.

(** ** The invariant of a zone *)

(** Hash and key of a node of the tree. *)
Definition ekey (ns : gmap nat lr_node) (e : nat * Z) : Z * list Z :=
  (snd e, default [] (lr_data <$> ns !! fst e)).

Definition elt (ns : gmap nat lr_node) (a b : nat * Z) : Prop := kcmp (ekey ns a) (ekey ns b) = Lt.

Definition lr_ok (lr : lr_node) : Prop := lr_len lr = Z.of_nat (length (lr_data lr)).

Section Inv.
Context {A : Type} `{SL : SlabLaws A}.
Context (debug : bool) (sh : nat).

(** The tree holds the nodes [l] with their hashes, the queue the nodes [q]. *)
Record zinv (z : zone A) (l : list (nat * Z)) (q : list nat) : Prop := {
  zi_tree : is_tree sh (rbtree z) l;
  zi_sorted : StronglySorted (elt (nodes z)) l;
  zi_queue : Queue.queue (lru z) (Z.of_nat sh) (map Z.of_nat q);
  zi_perm : map fst l ≡ₚ q;
  zi_nodes : dom (nodes z) = list_to_set q;
  zi_wf : map_Forall (fun _ lr => lr_ok lr) (nodes z);
  zi_live : {[sh]} ∪ dom (nodes z) ⊆ live (shpool z);
}.

Lemma lr_less_klt ns a b x y :
  ns !! fst a = Some x -> ns !! fst b = Some y -> lr_ok x -> lr_ok y ->
  lr_less ns a b = klt (ekey ns a) (ekey ns b).
Proof.
  intros Ha Hb Hx Hy. unfold lr_less, klt, kcmp, ekey. cbn [fst snd]. rewrite Ha, Hb. cbn. rewrite Hx, Hy.
  rewrite Z.gtb_ltb, !Z.ltb_compare, (Z.compare_antisym (snd a)).
  destruct (snd a ?= snd b); cbn; try done.
  rewrite <- memn2cmp_lex. by destruct (_ ?= 0).
Qed.

Lemma zi_node z l q p k : zinv z l q -> (p, k) ∈ l -> exists lr, nodes z !! p = Some lr /\ lr_ok lr.
Proof.
  intros H Hp. assert (Hd : p ∈ dom (nodes z)).
  { rewrite (zi_nodes _ _ _ H), elem_of_list_to_set, <- (zi_perm _ _ _ H). by apply (list_elem_of_fmap_2 fst) in Hp. }
  apply elem_of_dom in Hd as [lr Hlr]. exists lr. split; [done|]. by apply (zi_wf _ _ _ H) in Hlr.
Qed.

Lemma zi_tree_node z l q p : zinv z l q -> p ∈ dom (nodes z) -> exists k, (p, k) ∈ l.
Proof.
  intros H. rewrite (zi_nodes _ _ _ H), elem_of_list_to_set, <- (zi_perm _ _ _ H).
  intros ([p' k] & -> & Hin)%list_elem_of_fmap. by exists k.
Qed.

Lemma zi_sh z l q : zinv z l q -> sh ∉ q.
Proof. intros H. destruct (is_tree_NoDup _ _ _ (zi_tree _ _ _ H)) as [_ Hs]. by rewrite (zi_perm _ _ _ H) in Hs. Qed.

(** Elements with the same hash and key are the same. *)
Lemma sorted_unique ns l a b : StronglySorted (elt ns) l -> a ∈ l -> b ∈ l -> ekey ns a = ekey ns b -> a = b.
Proof.
  induction l as [|x l IH]; [set_solver|]. intros [Hx Hl]%StronglySorted_cons Ha Hb E. rewrite list.Forall_forall in Hx.
  assert (Hirr : forall y, y ∈ l -> ekey ns x <> ekey ns y).
  { intros y Hy Exy. specialize (Hx y Hy). unfold elt in Hx. rewrite Exy in Hx.
    by rewrite (proj2 (kcmp_eq _ _) eq_refl) in Hx. }
  apply elem_of_cons in Ha as [->|Ha], Hb as [->|Hb]; [done|exfalso; by eapply Hirr|exfalso; by eapply Hirr|auto].
Qed.

(** ** The walk down the tree *)

Lemma kcmp_irrefl x y : kcmp x y = Lt -> x <> y.
Proof. intros H ->. by rewrite (proj2 (kcmp_eq _ _) eq_refl) in H. Qed.

(** A key below a node is not above it, and the other way round. *)
Lemma absent_below ns lo e up x :
  (forall y, y ∈ up -> elt ns e y) -> kcmp x (ekey ns e) = Lt -> (forall y, y ∈ lo -> ekey ns y <> x) ->
  forall y, y ∈ lo ++ e :: up -> ekey ns y <> x.
Proof.
  intros Hup Hx Hlo y [Hy|[->|Hy]%elem_of_cons]%elem_of_app; [by apply Hlo|by apply not_eq_sym, kcmp_irrefl|].
  apply not_eq_sym, kcmp_irrefl. by eapply kcmp_trans; [|apply Hup].
Qed.

Lemma absent_above ns lo e up x :
  (forall y, y ∈ lo -> elt ns y e) -> kcmp (ekey ns e) x = Lt -> (forall y, y ∈ up -> ekey ns y <> x) ->
  forall y, y ∈ lo ++ e :: up -> ekey ns y <> x.
Proof.
  intros Hlo Hx Hup y [Hy|[->|Hy]%elem_of_cons]%elem_of_app; [|by apply kcmp_irrefl|by apply Hup].
  apply kcmp_irrefl. by eapply kcmp_trans; [apply Hlo|].
Qed.

Lemma find_node_ok (z : zone A) hash key_ fuel : forall rp ctx t,
  (height t < fuel)%nat -> good sh (rbtree z) rp ctx t -> StronglySorted (elt (nodes z)) (elems t) ->
  (forall p k, (p, k) ∈ elems t -> exists lr, nodes z !! p = Some lr /\ lr_ok lr) ->
  exists r, find_node sh fuel hash key_ (ptr sh t) z = Some r /\
    match r with
    | Some p => (p, hash) ∈ elems t /\ ekey (nodes z) (p, hash) = (hash, key_)
    | None => forall e, e ∈ elems t -> ekey (nodes z) e <> (hash, key_)
    end.
Proof.
  induction fuel as [|fuel IH]; intros rp ctx t Hf G Hs Hn; [lia|]. cbn [find_node].
  destruct t as [|c tl p k tr]; cbn [ptr].
  { rewrite Nat.eqb_refl. exists None. split; [done|]. intros e He. by apply elem_of_nil in He. }
  destruct (good_disjoint _ _ _ _ _ G) as (_ & _ & _ & Hsh & _). cbn [ids] in Hsh.
  destruct (Nat.eqb_spec p sh) as [->|_]; [exfalso; apply Hsh; set_solver|].
  destruct (g_rep _ _ _ _ _ G) as (Hp & _). unfold rd. rewrite Hp. cbn [mbind option_bind key left right].
  cbn [elems] in *. apply StronglySorted_app in Hs as (Hlow & Hsl & [Hup Hsr]%StronglySorted_cons).
  cbn [height] in Hf. pose proof (go_down sh _ _ L _ _ _ _ _ _ G) as Gl. pose proof (go_down sh _ _ R _ _ _ _ _ _ G) as Gr.
  destruct (IH _ _ tl ltac:(lia) Gl Hsl ltac:(intros p0 k0 Hin; apply (Hn p0 k0); set_solver)) as (rl & El & Rl).
  destruct (IH _ _ tr ltac:(lia) Gr Hsr ltac:(intros p0 k0 Hin; apply (Hn p0 k0); set_solver)) as (rr & Er & Rr).
  destruct (Hn p k ltac:(set_solver)) as (lr & Hlr & Hok). rewrite list.Forall_forall in Hup.
  assert (Hgo : forall r, (r = rl /\ kcmp (hash, key_) (ekey (nodes z) (p, k)) = Lt
                        \/ r = rr /\ kcmp (ekey (nodes z) (p, k)) (hash, key_) = Lt) ->
    match r with
    | Some p0 => (p0, hash) ∈ elems tl ++ (p, k) :: elems tr /\ ekey (nodes z) (p0, hash) = (hash, key_)
    | None => forall e, e ∈ elems tl ++ (p, k) :: elems tr -> ekey (nodes z) e <> (hash, key_)
    end).
  { intros r [[-> Hlt]|[-> Hlt]]; [destruct rl as [x|]|destruct rr as [x|]].
    - destruct Rl. split; [set_solver|done].
    - by apply absent_below.
    - destruct Rr. split; [set_solver|done].
    - apply absent_above; [|done|done]. intros y Hy. apply Hlow; [done|by left]. }
  assert (Hek : ekey (nodes z) (p, k) = (k, lr_data lr)) by (unfold ekey; cbn; by rewrite Hlr). rewrite Hek in Hgo.
  destruct (Z.ltb_spec hash k).
  { exists rl. split; [done|]. apply Hgo. left. split; [done|]. unfold kcmp. cbn. by destruct (Z.compare_spec hash k); try lia. }
  rewrite Z.gtb_ltb. destruct (Z.ltb_spec k hash).
  { exists rr. split; [done|]. apply Hgo. right. split; [done|]. unfold kcmp. cbn. by destruct (Z.compare_spec k hash); try lia. }
  assert (hash = k) as -> by lia. rewrite Hlr. cbn [mbind option_bind].
  pose proof (memn2cmp_lex key_ (lr_data lr)) as Hc. rewrite <- Hok in Hc. set (rc := ngx_memn2cmp _ _ _ _) in *.
  destruct (Z.eqb_spec rc 0) as [Hz|Hz].
  { exists (Some p). split; [done|]. rewrite Hek. split; [set_solver|]. f_equal. symmetry. apply lex_eq. by rewrite <- Hc, Hz. }
  destruct (Z.ltb_spec rc 0).
  - exists rl. split; [done|]. apply Hgo. left. split; [done|]. unfold kcmp. cbn. rewrite Z.compare_refl, <- Hc.
    destruct (Z.compare_spec rc 0); done || lia.
  - exists rr. split; [done|]. apply Hgo. right. split; [done|]. unfold kcmp. cbn. rewrite Z.compare_refl, lex_opp, <- Hc.
    destruct (Z.compare_spec rc 0); done || lia.
Qed.

Lemma find_hash_ok (z : zone A) l q hash key_ : zinv z l q -> exists r,
  find_node sh (S (size (mem (rbtree z)))) hash key_ (root (rbtree z)) z = Some r /\
  match r with
  | Some p => (p, hash) ∈ l /\ exists lr, nodes z !! p = Some lr /\ lr_data lr = key_
  | None => forall e, e ∈ l -> ekey (nodes z) e <> (hash, key_)
  end.
Proof.
  intros H. pose proof (zi_tree _ _ _ H) as (rp & t & h & G & _ & _ & El).
  pose proof (g_ctx _ _ _ _ _ G) as Hr. cbn in Hr. rewrite Hr.
  pose proof (good_size _ _ _ _ _ G) as Hz. cbn in Hz. pose proof (height_ids t).
  destruct (find_node_ok z hash key_ (S (size (mem (rbtree z)))) rp [] t) as (r & -> & R); [lia|done| | |].
  - rewrite El. apply (zi_sorted _ _ _ H).
  - rewrite El. intros p k Hin. by apply (zi_node _ _ _ _ _ H Hin).
  - rewrite El in R. exists r. split; [done|]. destruct r as [p|]; [|done]. destruct R as [Hp Hk]. split; [done|].
    destruct (zi_node _ _ _ _ _ H Hp) as (lr & Hlr & _). exists lr. split; [done|]. unfold ekey in Hk. cbn in Hk.
    rewrite Hlr in Hk. by injection Hk.
Qed.

(** ** Changes of the zone *)

Lemma ekey_same ns ns' e : lr_data <$> ns' !! fst e = lr_data <$> ns !! fst e -> ekey ns' e = ekey ns e.
Proof. intros H. unfold ekey. by rewrite H. Qed.

Lemma sorted_same ns ns' l :
  (forall e, e ∈ l -> ekey ns' e = ekey ns e) -> StronglySorted (elt ns) l -> StronglySorted (elt ns') l.
Proof.
  induction l as [|x l IH]; intros H Hs; [constructor|]. apply StronglySorted_cons in Hs as [Hx Hs].
  apply StronglySorted_cons. split; [|apply IH; [set_solver|done]]. rewrite list.Forall_forall in *.
  intros y Hy. unfold elt. rewrite !H by set_solver. by apply Hx.
Qed.

(** New values in the bucket of a node. *)
Lemma set_node_ok z l q p lr lr' :
  zinv z l q -> nodes z !! p = Some lr -> lr_data lr' = lr_data lr -> lr_len lr' = lr_len lr ->
  zinv (Zone (rbtree z) (lru z) (<[p := lr']> (nodes z)) (shpool z)) l q.
Proof.
  intros H Hp Hd Hl. pose proof (zi_wf _ _ _ H p lr Hp) as Hok.
  assert (Hdom : dom (<[p := lr']> (nodes z)) = dom (nodes z)) by (apply dom_insert_lookup_L; by eexists).
  destruct H as [H1 H2 H3 H4 H5 H6 H7]. constructor; cbn; rewrite ?Hdom; try done.
  - eapply sorted_same; [|exact H2]. intros e _. apply ekey_same.
    destruct (decide (p = fst e)) as [->|]; [rewrite lookup_insert_eq, Hp; cbn; by rewrite Hd|by rewrite lookup_insert_ne].
  - apply map_Forall_insert_2; [|done]. unfold lr_ok in *. by rewrite Hl, Hd.
Qed.

(** A node is moved to the head of the queue. *)
Lemma touch_ok z l q p lr :
  zinv z l q -> nodes z !! p = Some lr -> exists m1 m2 q',
  Queue.ngx_queue_remove debug (Z.of_nat p) (lru z) = Some m1 /\
  Queue.ngx_queue_insert_head (queue_head sh) (Z.of_nat p) m1 = Some m2 /\
  q' ≡ₚ q /\ zinv (Zone (rbtree z) m2 (nodes z) (shpool z)) l q'.
Proof.
  intros H Hp. assert (Hin : p ∈ q).
  { apply (elem_of_list_to_set (C := gset nat)). rewrite <- (zi_nodes _ _ _ H). apply elem_of_dom. by eexists. }
  apply list_elem_of_split in Hin as (a & b & ->). pose proof (zi_queue _ _ _ H) as Hq. rewrite map_app in Hq. cbn [map] in Hq.
  destruct (Queue.remove_spec debug _ _ _ _ _ Hq) as (m1 & E1 & Hq1 & _).
  destruct (Queue.insert_head_spec m1 _ _ (Z.of_nat p) Hq1) as (m2 & E2 & Hq2 & _).
  { destruct Hq as [_ Hn]. apply list.NoDup_cons in Hn as [Hsh Hn]. apply list.NoDup_app in Hn as (Ha & Hab & [Hb _]%list.NoDup_cons).
    set_solver. }
  exists m1, m2, (p :: a ++ b). split_and!; [done|done|by rewrite Permutation_middle|].
  assert (Hperm : p :: a ++ b ≡ₚ a ++ p :: b) by by rewrite Permutation_middle.
  destruct H as [H1 H2 H3 H4 H5 H6 H7]. constructor; cbn [rbtree lru nodes shpool]; try done.
  - cbn [map]. by rewrite map_app.
  - by rewrite Hperm.
  - rewrite H5. by apply (list_to_set_perm_L (C := gset nat)).
Qed.

Lemma NoDup_split_remove (l1 : list (nat * Z)) p k l2 x :
  NoDup (map fst (l1 ++ (p, k) :: l2)) -> x ∈ l1 ++ l2 -> fst x <> p.
Proof.
  rewrite map_app. cbn. intros (_ & H1 & [H2 _]%list.NoDup_cons)%list.NoDup_app Hx E. subst p.
  apply elem_of_app in Hx as [Hx|Hx]; apply (list_elem_of_fmap_2 fst) in Hx; [by apply (H1 (fst x)); [|left]|done].
Qed.

(** The last node of the queue is removed and freed. *)
Lemma evict_ok z l q p lr :
  zinv z l (q ++ [p]) -> nodes z !! p = Some lr -> exists m t l',
  Queue.ngx_queue_remove debug (Z.of_nat p) (lru z) = Some m /\ ngx_rbtree_delete sh p (rbtree z) = Some t /\
  l' ⊆ l /\ zinv (free_node p (Zone t m (nodes z) (shpool z))) l' q.
Proof.
  intros H Hp. destruct (zi_tree_node _ _ _ p H) as (k & Hk); [apply elem_of_dom; by eexists|].
  apply list_elem_of_split in Hk as (l1 & l2 & ->).
  pose proof (is_tree_NoDup _ _ _ (zi_tree _ _ _ H)) as [Hnd Hsl].
  destruct (delete_ok _ _ _ _ _ _ (zi_tree _ _ _ H)) as (t & Et & Ht & _).
  pose proof (zi_queue _ _ _ H) as Hq. rewrite map_app in Hq. cbn [map] in Hq.
  destruct (Queue.remove_spec debug _ _ _ _ _ Hq) as (m & Em & Hqm & _). rewrite app_nil_r in Hqm.
  assert (Hpne : forall x, x ∈ l1 ++ l2 -> fst x <> p) by (intros x; by apply (NoDup_split_remove _ _ k)).
  assert (Hperm : map fst (l1 ++ l2) ≡ₚ q).
  { pose proof (zi_perm _ _ _ H) as Hpm. rewrite !map_app in *. cbn [map fst] in Hpm.
    rewrite <- Permutation_middle, (Permutation_app_comm q) in Hpm. by apply Permutation_cons_inv in Hpm. }
  assert (Hpq : p ∉ q) by (rewrite <- Hperm; intros (x & E & Hx)%list_elem_of_fmap; by apply (Hpne x Hx)).
  assert (Hpsh : p <> sh) by (intros ->; apply Hsl; rewrite map_app; cbn; set_solver).
  exists m, t, (l1 ++ l2). split_and!; [done|done|set_solver|].
  destruct H as [H1 H2 H3 H4 H5 H6 H7]. constructor; cbn [free_node rbtree lru nodes shpool].
  - destruct Ht as (rp & u & h & G & B & C & El). exists rp, u, h. split_and!; try done.
    eapply good_same; [exact G|done|]. cbn. intros x Hx. rewrite lookup_delete_ne; [done|]. intros <-.
    apply elem_of_cons in Hx as [->|Hx]; [done|]. rewrite <- elems_ids, El in Hx.
    apply list_elem_of_fmap in Hx as (y & E & Hy). by apply (Hpne y Hy).
  - apply StronglySorted_app in H2 as (Hlow & Hs1 & [Hup Hs2]%StronglySorted_cons).
    apply (sorted_same (nodes z)); [|apply StronglySorted_app; split_and!; [|done|done]].
    + intros e He. apply ekey_same. rewrite lookup_delete_ne; [done|]. by apply not_eq_sym, Hpne.
    + intros x y Hx Hy. apply Hlow; [done|by right].
  - apply (Queue.queue_frame [Z.of_nat p] m); [|intros y Hy; set_solver|done].
    intros y Hy. cbn. rewrite !lookup_delete_ne by set_solver. done.
  - done.
  - rewrite dom_delete_L, H5, list_to_set_app_L. cbn. set_solver.
  - by apply map_Forall_delete.
  - rewrite slab_free_live by (apply H7, elem_of_union; right; apply elem_of_dom; by eexists).
    rewrite dom_delete_L. set_solver.
Qed.

(** A node may be expired: nothing is left of its bucket after a minute. *)
Definition stale (now rate : Z) (lr : lr_node) : Prop :=
  let ms := ngx_abs (i64 (now - lr_last lr)) in
  60000 <= ms /\ i64 (lr_excess lr - u64 (rate * ms) / 1000) <= 0.

(** What ngx_http_limit_req_expire removes. *)
Definition expired_to (now rate n : Z) (ns ns' : gmap nat lr_node) : Prop :=
  (forall p lr, ns' !! p = Some lr -> ns !! p = Some lr) /\
  (forall p lr, ns !! p = Some lr -> ns' !! p = None -> lr_count lr = 0 /\ (n = 0 \/ stale now rate lr)).

Lemma expired_refl now rate n ns : expired_to now rate n ns ns.
Proof. split; [done|]. intros p lr -> [=]. Qed.

(** The queue is empty or has a last node. *)
Lemma queue_last_node z l q : zinv z l q ->
  (q = [] /\ Queue.ngx_queue_empty (queue_head sh) (lru z) = Some true) \/
  (exists q' p lr, q = q' ++ [p] /\ Queue.ngx_queue_empty (queue_head sh) (lru z) = Some false
     /\ Queue.ngx_queue_prev (lru z) (queue_head sh) = Some (Z.of_nat p) /\ nodes z !! p = Some lr).
Proof.
  intros H. pose proof (zi_queue _ _ _ H) as [Hs Hn]. destruct (Queue.seg_prev _ _ _ _ Hs) as [_ E].
  unfold Queue.ngx_queue_empty, Queue.ngx_queue_prev, queue_head in *. rewrite E. cbn [mbind option_bind].
  destruct q as [|p q' _] using rev_ind; [left; cbn; by rewrite Z.eqb_refl|right]. rewrite map_app in *. cbn [map] in *.
  rewrite List.last_last in *. assert (Hp : p ∈ dom (nodes z)) by (rewrite (zi_nodes _ _ _ H); set_solver).
  apply elem_of_dom in Hp as [lr Hlr]. exists q', p, lr. split_and!; try done. f_equal. apply Z.eqb_neq. intros E'.
  apply list.NoDup_cons in Hn as [Hn _]. set_solver.
Qed.

Lemma expire_loop_ok now rate fuel : forall n z l q,
  0 <= n -> (0 < fuel)%nat -> 3 - n < Z.of_nat fuel -> zinv z l q -> exists z' l' q',
  expire_loop debug sh fuel now rate n z = Some z' /\ zinv z' l' q' /\ l' ⊆ l /\
  expired_to now rate n (nodes z) (nodes z') /\ live (shpool z') ⊆ live (shpool z).
Proof.
  induction fuel as [|fuel IH]; intros n z l q Hn0 Hpos Hf H; [lia|].
  assert (Hstop : exists z' l' q', Some z = Some z' /\ zinv z' l' q' /\ l' ⊆ l /\
    expired_to now rate n (nodes z) (nodes z') /\ live (shpool z') ⊆ live (shpool z))
    by (exists z, l, q; auto using expired_refl).
  cbn [expire_loop]. destruct (Z.ltb_spec n 3) as [Hn|Hn]; [|done].
  destruct (queue_last_node z l q H) as [[-> ->]|(q' & p & lr & -> & -> & -> & Hlr)]; cbn [mbind option_bind]; [done|].
  rewrite Nat2Z.id, Hlr. cbn [mbind option_bind]. destruct (Z.eqb_spec (lr_count lr) 0) as [Hc|Hc]; [|done]. cbn [negb].
  set (ms := ngx_abs _). set (ex := i64 _). destruct (negb (n =? 0) && _) eqn:Hcond; [done|].
  destruct (evict_ok z l q' p lr H Hlr) as (m & t & l' & -> & -> & Hl' & H'). cbn [mbind option_bind].
  destruct (IH (n + 1) _ l' q' ltac:(lia) ltac:(lia) ltac:(lia) H') as (z' & l2 & q2 & -> & Hz' & Hl2 & [X1 X2] & Hlive).
  cbn [free_node nodes shpool] in X1, X2, Hlive. exists z', l2, q2. split_and!; [done|done|set_solver| |].
  - assert (Hst : n = 0 \/ stale now rate lr).
    { destruct (Z.eqb_spec n 0) as [->|_]; [by left|right]. cbn [negb andb] in Hcond. apply orb_false_elim in Hcond as [C1 C2].
      unfold stale. fold ms. fold ex. rewrite Z.gtb_ltb in C2. zbool. lia. }
    split; [intros x y Hx; apply X1 in Hx; by apply lookup_delete_Some in Hx as [_ ?]|].
    intros x y Hx Hx'. destruct (decide (x = p)) as [->|Hne]; [by simplify_eq|].
    destruct (X2 x y) as [Hy1 Hy2]; [by rewrite lookup_delete_ne|done|]. split; [done|]. destruct Hy2 as [Hy2|Hy2]; [lia|by right].
  - rewrite slab_free_live in Hlive; [set_solver|]. apply (zi_live _ _ _ H), elem_of_union. right. apply elem_of_dom. by eexists.
Qed.

(** ** A new node *)

Lemma sorted_insert ns less e l :
  StronglySorted (elt ns) l -> (forall x, x ∈ l -> less e x = klt (ekey ns e) (ekey ns x)) ->
  (forall x, x ∈ l -> ekey ns x <> ekey ns e) -> StronglySorted (elt ns) (insert_list less e l).
Proof.
  induction l as [|x l IH]; intros Hs Hl Hne; cbn; [by repeat constructor|].
  apply StronglySorted_cons in Hs as [Hx Hs]. rewrite Hl by by left.
  destruct (klt (ekey ns e) (ekey ns x)) eqn:Hlt.
  - apply klt_spec in Hlt. apply StronglySorted_cons. split; [|by apply StronglySorted_cons].
    constructor; [done|]. rewrite list.Forall_forall in *. intros y Hy. by eapply kcmp_trans; [|apply Hx].
  - apply StronglySorted_cons. split; [|apply IH; [done|intros; apply Hl; by right|intros; apply Hne; by right]].
    rewrite insert_list_perm. constructor; [|done]. unfold elt. unfold klt in Hlt.
    destruct (kcmp (ekey ns e) (ekey ns x)) eqn:E; [|done|by apply kcmp_gt].
    apply kcmp_eq in E. exfalso. by apply (Hne x); [left|].
Qed.

Lemma ordered_more ns e l : StronglySorted (elt ns) l -> ordered (rank (ekey ns) (e :: l)) l.
Proof.
  assert (Hgen : forall L l, l ⊆ L -> StronglySorted (elt ns) l -> ordered (rank (ekey ns) L) l).
  { clear. intros L l. induction l as [|x l IH]; intros Hl Hs; [constructor|]. apply StronglySorted_cons in Hs as [Hx Hs].
    apply StronglySorted_cons. split; [|apply IH; [set_solver|done]]. rewrite list.Forall_forall in *. intros y Hy.
    specialize (Hx y Hy). apply klt_spec in Hx. rewrite (rank_spec _ L) in Hx by set_solver. zbool. lia. }
  apply Hgen. set_solver.
Qed.

Lemma add_node_ok z l q hash key_ lr p :
  zinv z l q -> p ∉ q -> p <> sh -> p ∈ live (shpool z) -> lr_ok lr -> lr_data lr = key_ ->
  (forall e, e ∈ l -> ekey (nodes z) e <> (hash, key_)) ->
  exists z' l', add_node sh hash key_ lr p z = Some z' /\ zinv z' l' (p :: q) /\ l' ≡ₚ (p, hash) :: l /\
    nodes z' = <[p := lr]> (nodes z) /\ shpool z' = shpool z.
Proof.
  intros H Hpq Hpsh Hlive Hok Hd Hnew. unfold add_node. set (ns := <[p := lr]> (nodes z)).
  assert (Hpl : p ∉ map fst l) by by rewrite (zi_perm _ _ _ H).
  assert (Hsame : forall e, e ∈ l -> ekey ns e = ekey (nodes z) e).
  { intros e He. apply ekey_same. unfold ns. rewrite lookup_insert_ne; [done|]. intros ->. apply Hpl. by apply (list_elem_of_fmap_2 fst). }
  assert (Hpe : ekey ns (p, hash) = (hash, key_)) by (unfold ekey, ns; cbn; by rewrite lookup_insert_eq; cbn; rewrite Hd).
  assert (Hsort : StronglySorted (elt ns) l) by (eapply sorted_same; [exact Hsame|apply (zi_sorted _ _ _ H)]).
  assert (Hnode : forall e, e ∈ (p, hash) :: l -> exists x, ns !! fst e = Some x /\ lr_ok x).
  { intros [x k] [[= -> ->]|Hx]%elem_of_cons; cbn; [exists lr; unfold ns; by rewrite lookup_insert_eq|].
    destruct (zi_node _ _ _ _ _ H Hx) as (y & Hy & Hyok). exists y. split; [|done]. unfold ns. rewrite lookup_insert_ne; [done|].
    intros ->. apply Hpl. by apply (list_elem_of_fmap_2 fst) in Hx. }
  assert (Hless : forall a b, a ∈ (p, hash) :: l -> b ∈ (p, hash) :: l -> lr_less ns a b = klt (ekey ns a) (ekey ns b)).
  { intros a b Ha Hb. destruct (Hnode a Ha) as (x & Hx & Hxo), (Hnode b Hb) as (y & Hy & Hyo). by eapply lr_less_klt. }
  set (st := MkState (<[p:=Node hash 0 0 0 false]> (mem (rbtree z))) (root (rbtree z))).
  assert (Ht : is_tree sh st l).
  { pose proof (zi_tree _ _ _ H) as (rp & u & h & G & B & C & El). exists rp, u, h. split_and!; try done.
    eapply good_same; [exact G|done|]. cbn. intros x Hx. rewrite lookup_insert_ne; [done|]. intros <-.
    apply elem_of_cons in Hx as [->|Hx]; [done|]. by rewrite <- elems_ids, El in Hx. }
  destruct (insert_ok sh (lr_less ns) (rank (ekey ns) ((p, hash) :: l)) st l p (Node hash 0 0 0 false) Ht) as (t & Et & Htree & _).
  { unfold st. cbn. by rewrite lookup_insert_eq. }
  { done. }
  { done. }
  { by apply ordered_more. }
  { intros a b Ha Hb. cbn [key] in *. rewrite Hless by done. by apply rank_spec. }
  rewrite Et. cbn [mbind option_bind key] in *.
  destruct (Queue.insert_head_spec (lru z) _ _ (Z.of_nat p) (zi_queue _ _ _ H)) as (m & Em & Hqm & _).
  { intros [E|(x & E & Hx)%list_elem_of_fmap]%elem_of_cons; [lia|]. by assert (x = p) as -> by lia. }
  unfold queue_head. rewrite Em. cbn [mbind option_bind].
  exists (Zone t m ns (shpool z)), (insert_list (lr_less ns) (p, hash) l). pose proof (insert_list_perm (lr_less ns) (p, hash) l) as Hperm.
  split_and!; try done. destruct H as [H1 H2 H3 H4 H5 H6 H7]. constructor; cbn [rbtree lru nodes shpool]; try done.
  - apply sorted_insert; [done| |].
    + intros x Hx. apply Hless; set_solver.
    + intros x Hx. rewrite Hsame, Hpe by done. by apply Hnew.
  - rewrite Hperm. cbn. by rewrite H4.
  - unfold ns. rewrite dom_insert_L, H5. done.
  - by apply map_Forall_insert_2.
  - unfold ns. rewrite dom_insert_L. set_solver.
Qed.

(** The allocation after the expiry of old nodes fails, and the lookup has to make room
    with ngx_http_limit_req_expire(ctx, 0). *)
Definition zone_full (now rate : Z) (key_ : list Z) (z : zone A) : bool :=
  match ngx_http_limit_req_expire debug sh now rate 1 z with
  | Some z => match fst (slab_alloc (node_size key_) (shpool z)) with None => true | Some _ => false end
  | None => false
  end.

Lemma alloc_node_ok now rate key_ z l q :
  zinv z l q -> exists p z' l' q', alloc_node debug sh now rate key_ z = Some (p, z') /\ zinv z' l' q' /\ l' ⊆ l /\
    expired_to now rate 0 (nodes z) (nodes z') /\
    (zone_full now rate key_ z = false -> is_Some p /\ expired_to now rate 1 (nodes z) (nodes z')) /\
    match p with Some p => p ∉ q' /\ p <> sh /\ p ∈ live (shpool z') | None => True end.
Proof.
  intros H. unfold alloc_node, zone_full, ngx_http_limit_req_expire.
  destruct (expire_loop_ok now rate 4 1 z l q ltac:(lia) ltac:(lia) ltac:(lia) H) as (z1 & l1 & q1 & -> & H1 & Hl1 & X1 & _). cbn [mbind option_bind].
  assert (X1' : expired_to now rate 0 (nodes z) (nodes z1)).
  { destruct X1 as [X Y]. split; [done|]. intros p lr Hp Hp'. destruct (Y p lr Hp Hp'). split; [done|by left]. }
  assert (Hnew : forall z l q, zinv z l q -> forall p a, p ∉ live (shpool z) -> live a = {[p]} ∪ live (shpool z) ->
    zinv (Zone (rbtree z) (lru z) (nodes z) a) l q /\ p ∉ q /\ p <> sh /\ p ∈ live a).
  { clear. intros z l q [H1 H2 H3 H4 H5 H6 H7] p a Hp Ha. split_and!.
    - constructor; try done. cbn. rewrite Ha. set_solver.
    - intros Hq. apply Hp, H7. rewrite H5. set_solver.
    - intros ->. apply Hp, H7. set_solver.
    - rewrite Ha. set_solver. }
  assert (Hold : forall z l q, zinv z l q -> forall a, live a = live (shpool z) -> zinv (Zone (rbtree z) (lru z) (nodes z) a) l q).
  { clear. intros z l q [H1 H2 H3 H4 H5 H6 H7] a Ha. constructor; try done. cbn. by rewrite Ha. }
  destruct (slab_alloc (node_size key_) (shpool z1)) as [[p|] a] eqn:Ea.
  - apply slab_alloc_some in Ea as [Hp Ha]. destruct (Hnew _ _ _ H1 p a Hp Ha) as (H2 & ? & ? & ?).
    exists (Some p), (Zone (rbtree z1) (lru z1) (nodes z1) a), l1, q1. split_and!; try done; by eexists.
  - cbn [fst]. apply slab_alloc_none in Ea. pose proof (Hold _ _ _ H1 a Ea) as H1'.
    destruct (expire_loop_ok now rate 4 0 _ l1 q1 ltac:(lia) ltac:(lia) ltac:(lia) H1') as (z2 & l2 & q2 & -> & H2 & Hl2 & X2 & _). cbn [mbind option_bind nodes] in *.
    assert (X : expired_to now rate 0 (nodes z) (nodes z2)).
    { destruct X1' as [A1 B1], X2 as [A2 B2]. split; [auto|]. intros p lr Hp Hp'.
      destruct (nodes z1 !! p) as [lr1|] eqn:E1; [|by apply (B1 p)]. rewrite (A1 _ _ E1) in Hp. simplify_eq. by apply (B2 p). }
    destruct (slab_alloc (node_size key_) (shpool z2)) as [[p|] a2] eqn:Ea2.
    + apply slab_alloc_some in Ea2 as [Hp Ha]. destruct (Hnew _ _ _ H2 p a2 Hp Ha) as (H3 & ? & ? & ?).
      exists (Some p), (Zone (rbtree z2) (lru z2) (nodes z2) a2), l2, q2. split_and!; try done; set_solver.
    + apply slab_alloc_none in Ea2.
      exists None, (Zone (rbtree z2) (lru z2) (nodes z2) a2), l2, q2. split_and!; try done; first [by apply Hold | set_solver].
Qed.

(** ** The lookup *)

(** The node of a hash and key. *)
Definition has (z : zone A) (l : list (nat * Z)) (hash : Z) (key_ : list Z) (p : nat) (lr : lr_node) : Prop :=
  (p, hash) ∈ l /\ nodes z !! p = Some lr /\ lr_data lr = key_.

Definition absent (z : zone A) (l : list (nat * Z)) (hash : Z) (key_ : list Z) : Prop :=
  forall e, e ∈ l -> ekey (nodes z) e <> (hash, key_).

(** The cases of a lookup: return code, excess, reserved node, nodes after it. *)
Inductive looked_up (now rate burst hash : Z) (key_ : list Z) (account : bool) (z : zone A) (l : list (nat * Z))
    : Z -> Z -> option nat -> zone A -> list (nat * Z) -> Prop :=
| LBusy p lr z' :
    has z l hash key_ p lr -> burst < charged rate (elapsed now (lr_last lr)) (lr_excess lr) ->
    nodes z' = nodes z ->
    looked_up now rate burst hash key_ account z l NGX_BUSY (charged rate (elapsed now (lr_last lr)) (lr_excess lr)) None z' l
| LCharged p lr z' :
    has z l hash key_ p lr -> charged rate (elapsed now (lr_last lr)) (lr_excess lr) <= burst -> account = true ->
    nodes z' = <[p := set_bucket (if negb (elapsed now (lr_last lr) =? 0) then now else lr_last lr)
                        (charged rate (elapsed now (lr_last lr)) (lr_excess lr)) lr]> (nodes z) ->
    looked_up now rate burst hash key_ account z l NGX_OK (charged rate (elapsed now (lr_last lr)) (lr_excess lr)) None z' l
| LReserved p lr z' :
    has z l hash key_ p lr -> charged rate (elapsed now (lr_last lr)) (lr_excess lr) <= burst -> account = false ->
    nodes z' = <[p := set_count (u64 (lr_count lr + 1)) lr]> (nodes z) ->
    looked_up now rate burst hash key_ account z l NGX_AGAIN (charged rate (elapsed now (lr_last lr)) (lr_excess lr)) (Some p) z' l
| LFull z' l' :
    absent z l hash key_ -> expired_to now rate 0 (nodes z) (nodes z') -> l' ⊆ l ->
    zone_full now rate key_ z = true ->
    looked_up now rate burst hash key_ account z l NGX_ERROR 0 None z' l'
| LNew p ns rc node z' l1 l' :
    absent z l hash key_ -> expired_to now rate 0 (nodes z) ns ->
    (zone_full now rate key_ z = false -> expired_to now rate 1 (nodes z) ns) ->
    p ∉ dom ns -> l1 ⊆ l -> map fst l1 ⊆ elements (dom ns) -> l' ≡ₚ (p, hash) :: l1 ->
    rc = (if account then NGX_OK else NGX_AGAIN) -> node = (if account then None else Some p) ->
    nodes z' = <[p := LrNode (Z.of_nat (length key_)) key_ (if account then now else 0) 0 (if account then 0 else 1)]> ns ->
    looked_up now rate burst hash key_ account z l rc 0 node z' l'.

Lemma lookup_ok now rate burst hash key_ account z l q :
  zinv z l q -> Z.of_nat (length key_) <= 65535 -> exists rc ex node z' l' q',
  ngx_http_limit_req_lookup debug sh now rate burst hash key_ account z = Some (rc, ex, node, z') /\
  zinv z' l' q' /\ looked_up now rate burst hash key_ account z l rc ex node z' l'.
Proof.
  intros H Hlen. unfold ngx_http_limit_req_lookup. destruct (find_hash_ok z l q hash key_ H) as ([p|] & -> & R); cbn [mbind option_bind].
  - destruct R as (Hp & lr & Hlr & Hd). assert (Hhas : has z l hash key_ p lr) by done.
    destruct (touch_ok z l q p lr H Hlr) as (m1 & m2 & q' & -> & E2 & _ & H'). cbn [mbind option_bind]. rewrite E2.
    cbn [mbind option_bind]. rewrite Hlr. cbn [mbind option_bind rbtree lru nodes shpool].
    set (ms := elapsed now (lr_last lr)). set (ex := charged rate ms (lr_excess lr)). rewrite Z.gtb_ltb.
    destruct (Z.ltb_spec burst ex) as [Hb|Hb]; [|destruct account].
    + do 6 eexists. split_and!; [done|exact H'|]. by eapply LBusy.
    + do 6 eexists. split_and!; [done|by apply (set_node_ok _ _ _ _ lr _ H')|]. by eapply LCharged.
    + do 6 eexists. split_and!; [done|by apply (set_node_ok _ _ _ _ lr _ H')|]. by eapply LReserved.
  - destruct (alloc_node_ok now rate key_ z l q H) as (p & z1 & l1 & q1 & -> & H1 & Hl1 & X0 & Xr & Hp). cbn [mbind option_bind].
    destruct p as [p|].
    + destruct Hp as (Hpq & Hpsh & Hlive). rewrite wrap_small by (unfold in_u; lia).
      assert (Hpd : p ∉ dom (nodes z1)) by (rewrite (zi_nodes _ _ _ H1); set_solver).
      assert (Hl1d : map fst l1 ⊆ elements (dom (nodes z1))).
      { intros x Hx. rewrite (zi_perm _ _ _ H1) in Hx. rewrite (zi_nodes _ _ _ H1). set_solver. }
      assert (Habs : absent z1 l1 hash key_).
      { intros e He. destruct (zi_node _ _ _ (fst e) (snd e) H1) as (lr & Hlr & _); [by destruct e|].
        rewrite (ekey_same (nodes z)) by (rewrite Hlr, (proj1 X0 _ _ Hlr); done). apply R. set_solver. }
      assert (Hadd : forall last count, exists z' l', add_node sh hash key_ (LrNode (Z.of_nat (length key_)) key_ last 0 count) p z1 = Some z'
        /\ zinv z' l' (p :: q1) /\ l' ≡ₚ (p, hash) :: l1 /\ nodes z' = <[p := LrNode (Z.of_nat (length key_)) key_ last 0 count]> (nodes z1)).
      { intros last count. destruct (add_node_ok z1 l1 q1 hash key_ (LrNode (Z.of_nat (length key_)) key_ last 0 count) p H1)
          as (z' & l' & ? & ? & ? & ? & _); try done. by exists z', l'. }
      destruct account; [destruct (Hadd now 0) as (z' & l' & -> & Hz' & Hl' & Hn)|destruct (Hadd 0 1) as (z' & l' & -> & Hz' & Hl' & Hn)];
        cbn [mbind option_bind]; do 6 eexists; (split_and!; [done|exact Hz'|]); eapply (LNew _ _ _ _ _ _ _ _ p (nodes z1)); try done.
      all: intros Hroom; by apply Xr.
    + exists NGX_ERROR, 0, None, z1, l1, q1. split_and!; try done. eapply LFull; try done.
      destruct (zone_full now rate key_ z); [done|]. by destruct (Xr eq_refl) as [[x [=]] _].
Qed.

(** ** Workers that share a zone *)

(** The zone, and the ctx->node of the workers that have reserved a node. *)
Record sys := Sys { shared : zone A; hold : gmap nat nat }.

Definition NGX_MAX_PROCESSES : nat := 1024.

(** The sections of a worker under the mutex of the zone. *)
Inductive step : sys -> sys -> Prop :=
| step_lookup s w now rate burst hash key_ account rc ex node z' :
    (w < NGX_MAX_PROCESSES)%nat -> hold s !! w = None -> Z.of_nat (length key_) <= 65535 ->
    ngx_http_limit_req_lookup debug sh now rate burst hash key_ account (shared s) = Some (rc, ex, node, z') ->
    step s (Sys z' (match node with Some p => <[w := p]> (hold s) | None => hold s end))
| step_account s w p now rate ex z' :
    hold s !! w = Some p -> account_node now rate p (shared s) = Some (ex, z') ->
    step s (Sys z' (delete w (hold s)))
| step_unlock s w p z' :
    hold s !! w = Some p -> unlock_node p (shared s) = Some z' ->
    step s (Sys z' (delete w (hold s))).

(** How many workers have reserved a node. *)
Definition holders (h : gmap nat nat) (p : nat) : Z := Z.of_nat (size (filter (fun wp => snd wp = p) h)).

Lemma holders_insert h w p x : h !! w = None -> holders (<[w := p]> h) x = holders h x + if decide (x = p) then 1 else 0.
Proof.
  intros Hw. unfold holders. destruct (decide (x = p)) as [->|Hne].
  - rewrite map_filter_insert_True by done. rewrite map_size_insert_None; [lia|]. apply map_lookup_filter_None. by left.
  - rewrite map_filter_insert_False by (cbn; congruence). rewrite delete_id by done. lia.
Qed.

Lemma holders_delete h w p x : h !! w = Some p -> holders h x = holders (delete w h) x + if decide (x = p) then 1 else 0.
Proof.
  intros Hw. rewrite <- (holders_insert (delete w h) w p x) by apply lookup_delete_eq.
  by rewrite insert_delete_id.
Qed.

Lemma holders_zero h p : holders h p = 0 <-> forall w, h !! w <> Some p.
Proof.
  unfold holders. split.
  - intros H w. apply (map_filter_empty_not_lookup (fun wp => snd wp = p)); [|done]. apply map_size_empty_inv. lia.
  - intros H. assert (E : filter (fun wp : nat * nat => snd wp = p) h = ∅); [|by rewrite E].
    apply map_empty. intros w. apply map_lookup_filter_None. right. intros x Hx E. cbn in E. subst x. by apply (H w).
Qed.

Lemma holders_bound h p : (forall w, w ∈ dom h -> (w < NGX_MAX_PROCESSES)%nat) -> 0 <= holders h p <= 1024.
Proof.
  intros H. unfold holders. split; [lia|].
  assert (Hsub : dom (filter (fun wp : nat * nat => snd wp = p) h) ⊆ (set_seq 0 NGX_MAX_PROCESSES : gset nat)).
  { intros w Hw. apply elem_of_set_seq. apply (subseteq_dom (D := gset nat) _ h) in Hw; [apply H in Hw; lia|].
    apply map_filter_subseteq. }
  apply subseteq_size in Hsub. rewrite size_dom, size_set_seq in Hsub. change 1024 with (Z.of_nat NGX_MAX_PROCESSES). lia.
Qed.

(** The reference counts are right, and nobody refers to a node that has been freed. *)
Record sinv (s : sys) : Prop := {
  si_zone : exists l q, zinv (shared s) l q;
  si_count : forall p lr, nodes (shared s) !! p = Some lr -> lr_count lr = holders (hold s) p;
  si_held : forall w p, hold s !! w = Some p -> p ∈ dom (nodes (shared s));
  si_workers : forall w, w ∈ dom (hold s) -> (w < NGX_MAX_PROCESSES)%nat;
}.

Lemma sinv_counts_small s p lr : sinv s -> nodes (shared s) !! p = Some lr -> 0 <= lr_count lr <= 1024.
Proof. intros H Hp. rewrite (si_count _ H _ _ Hp). apply holders_bound, (si_workers _ H). Qed.

Lemma sinv_lookup s w now rate burst hash key_ account rc ex node z' l l' q' :
  sinv s -> (w < NGX_MAX_PROCESSES)%nat -> hold s !! w = None -> zinv z' l' q' ->
  looked_up now rate burst hash key_ account (shared s) l rc ex node z' l' ->
  sinv (Sys z' (match node with Some p => <[w := p]> (hold s) | None => hold s end)).
Proof.
  intros H Hw Hnone Hz' L. pose proof (sinv_counts_small s) as Hsmall.
  assert (Hex : forall ns, expired_to now rate 0 (nodes (shared s)) ns ->
    (forall p lr, ns !! p = Some lr -> lr_count lr = holders (hold s) p) /\ (forall w p, hold s !! w = Some p -> p ∈ dom ns)).
  { intros ns [X1 X2]. split; [intros p lr Hp; apply (si_count _ H), X1, Hp|]. intros w' p Hp.
    pose proof (si_held _ H _ _ Hp) as [lr Hlr]%elem_of_dom. apply elem_of_dom. destruct (ns !! p) as [x|] eqn:E; [by eexists|].
    destruct (X2 _ _ Hlr E) as [Hc _]. rewrite (si_count _ H _ _ Hlr), holders_zero in Hc. by destruct (Hc w'). }
  assert (Hzone : exists l q, zinv z' l q) by by eexists _, _.
  destruct L as [p lr z' _ _ Hn|p lr z' [Hin [Hp _]] _ _ Hn|p lr z' [Hin [Hp _]] _ _ Hn|z' l' _ X _ _|p ns rc node z' l1 l' _ X _ Hpd _ _ _ -> -> Hn].
  - constructor; cbn; [done|rewrite Hn; apply H|rewrite Hn; apply H|apply H].
  - constructor; cbn; [done|rewrite Hn|rewrite Hn|apply H].
    + intros x y Hx. destruct (decide (x = p)) as [->|]; [rewrite lookup_insert_eq in Hx; simplify_eq; cbn; by apply (si_count _ H)|].
      rewrite lookup_insert_ne in Hx by done. by apply (si_count _ H).
    + intros w' x Hx. rewrite dom_insert. apply elem_of_union. right. by eapply (si_held _ H).
  - constructor; cbn; [done|rewrite Hn|rewrite Hn|].
    + intros x y Hx. rewrite holders_insert by done. destruct (decide (x = p)) as [->|]; [rewrite lookup_insert_eq in Hx; simplify_eq; cbn|].
      * pose proof (Hsmall _ _ H Hp). rewrite wrap_small by (unfold in_u; lia). rewrite (si_count _ H _ _ Hp). done.
      * rewrite lookup_insert_ne in Hx by done. rewrite (si_count _ H _ _ Hx). lia.
    + intros w' x Hx. rewrite dom_insert. apply elem_of_union. apply lookup_insert_Some in Hx as [[_ <-]|[_ Hx]]; [left; set_solver|right].
      by eapply (si_held _ H).
    + intros w' Hw'. rewrite dom_insert in Hw'. apply elem_of_union in Hw' as [Hw'|Hw']; [set_solver|by apply (si_workers _ H)].
  - destruct (Hex _ X). constructor; cbn; [done|done|done|apply H].
  - destruct (Hex _ X) as [Hc Hh].
    assert (Hp0 : holders (hold s) p = 0) by (apply holders_zero; intros w' Hw'; by apply Hpd, (Hh w')).
    assert (Hheld : forall w x, hold s !! w = Some x -> x ∈ dom (nodes z')).
    { intros w' x Hx. rewrite Hn, dom_insert. apply elem_of_union. right. by apply (Hh w'). }
    destruct account; constructor; cbn; try done; try apply H.
    + rewrite Hn. intros x y [[<- <-]|[_ Hx]]%lookup_insert_Some; [done|auto].
    + rewrite Hn. intros x y Hx. rewrite holders_insert by done. apply lookup_insert_Some in Hx as [[<- <-]|[Hne Hx]]; cbn.
      * rewrite Hp0, decide_True by done. done.
      * rewrite decide_False by done. rewrite (Hc _ _ Hx). lia.
    + intros w' x [[_ <-]|[_ Hx]]%lookup_insert_Some; [rewrite Hn, dom_insert; set_solver|by eapply Hheld].
    + intros w' Hw'. rewrite dom_insert in Hw'. apply elem_of_union in Hw' as [Hw'|Hw']; [set_solver|by apply (si_workers _ H)].
Qed.

(** A worker gives its reservation back, with any values in the bucket. *)
Lemma sinv_release s w p lr last ex :
  sinv s -> hold s !! w = Some p -> nodes (shared s) !! p = Some lr ->
  sinv (Sys (Zone (rbtree (shared s)) (lru (shared s))
               (<[p := set_count (u64 (lr_count lr - 1)) (set_bucket last ex lr)]> (nodes (shared s))) (shpool (shared s)))
          (delete w (hold s))).
Proof.
  intros H Hw Hp. destruct (si_zone _ H) as (l & q & Hz). pose proof (sinv_counts_small s p lr H Hp) as Hsmall.
  pose proof (si_count _ H _ _ Hp) as Hc. rewrite (holders_delete _ w p) in Hc by done. rewrite decide_True in Hc by done.
  assert (0 <= holders (delete w (hold s)) p) by (unfold holders; lia).
  constructor; cbn.
  - exists l, q. by apply (set_node_ok _ _ _ _ lr).
  - intros x y Hx. destruct (decide (x = p)) as [->|Hne].
    + rewrite lookup_insert_eq in Hx. simplify_eq. cbn. rewrite wrap_small by (unfold in_u; lia). lia.
    + rewrite lookup_insert_ne in Hx by done. rewrite (si_count _ H _ _ Hx), (holders_delete _ w p) by done. rewrite decide_False by done. lia.
  - intros w' x [_ Hx]%lookup_delete_Some. rewrite dom_insert. apply elem_of_union. right. by eapply (si_held _ H).
  - intros w' Hw'. apply (si_workers _ H). rewrite dom_delete in Hw'. set_solver.
Qed.

Lemma set_bucket_same lr : set_bucket (lr_last lr) (lr_excess lr) lr = lr.
Proof. by destruct lr. Qed.

Lemma step_sinv s s' : step s s' -> sinv s -> sinv s'.
Proof.
  intros Hs H. destruct (si_zone _ H) as (l & q & Hz).
  destruct Hs as [s w now rate burst hash key_ account rc ex node z' Hw Hn Hlen E|s w p now rate ex z' Hw E|s w p z' Hw E].
  - destruct (lookup_ok now rate burst hash key_ account _ _ _ Hz Hlen) as (rc' & ex' & node' & z'' & l' & q' & E' & Hz' & L).
    rewrite E in E'. simplify_eq. by eapply sinv_lookup.
  - pose proof (si_held _ H _ _ Hw) as [lr Hlr]%elem_of_dom. unfold account_node in E. rewrite Hlr in E. cbn in E. simplify_eq.
    by apply sinv_release.
  - pose proof (si_held _ H _ _ Hw) as [lr Hlr]%elem_of_dom. unfold unlock_node in E. rewrite Hlr in E. cbn in E. simplify_eq.
    rewrite <- (set_bucket_same lr) at 2. by apply sinv_release.
Qed.

Lemma init_sinv a : sh ∈ live a -> sinv (Sys (ngx_http_limit_req_init_zone sh a) ∅).
Proof.
  intros Ha. constructor; cbn; [|done|done|intros w Hw; by rewrite dom_empty in Hw]. exists [], []. constructor; cbn; try done.
  - exists 0%nat, E, 0%nat. split_and!; [|done|done|done]. constructor; cbn; [done|done|apply NoDup_nil_2|apply not_elem_of_nil|].
    eexists. by rewrite lookup_singleton_eq.
  - constructor.
  - split; [split; cbn; apply lookup_insert_eq|apply list.NoDup_singleton].
  - set_solver.
Qed.

End Inv.

(** C28. Workers that look up, charge and release nodes of a zone in any order, each
    section under the mutex: the tree and the queue hold the same nodes, one for each
    key; the reference count of a node is the number of workers that have reserved it;
    and no worker refers to a freed node, so that every lookup, charge and release
    reads and writes only memory of the zone.  This holds for any slab allocator that
    hands out unused addresses, also when memory runs out. *)
Theorem limit_req_zone_safe `{SL : SlabLaws A} (debug : bool) (sh : nat) (a : A) (s : sys)
    (Ha : sh ∈ live a) (Hr : rtc (step debug sh) (Sys (ngx_http_limit_req_init_zone sh a) ∅) s) :
  (exists l q, zinv sh (shared s) l q) /\
  (forall p lr, nodes (shared s) !! p = Some lr -> lr_count lr = holders (hold s) p) /\
  (forall w, hold s !! w = None -> forall now rate burst hash key_ account, Z.of_nat (length key_) <= 65535 ->
     is_Some (ngx_http_limit_req_lookup debug sh now rate burst hash key_ account (shared s))) /\
  (forall w p, hold s !! w = Some p -> forall now rate,
     is_Some (account_node now rate p (shared s)) /\ is_Some (unlock_node p (shared s))).
Proof.
  assert (H : sinv sh s).
  { remember (Sys (ngx_http_limit_req_init_zone sh a) ∅) as s0 eqn:E0. assert (H0 : sinv sh s0) by (subst; by apply init_sinv).
    clear E0. induction Hr as [s|s1 s2 s3 Hs _ IH]; [done|]. apply IH. by eapply step_sinv. }
  split_and!; [apply H|apply H| |].
  - intros w Hw now rate burst hash key_ account Hlen. destruct (si_zone _ _ H) as (l & q & Hz).
    destruct (lookup_ok debug sh now rate burst hash key_ account _ _ _ Hz Hlen) as (? & ? & ? & ? & ? & ? & -> & _). by eexists.
  - intros w p Hw now rate. pose proof (si_held _ _ H _ _ Hw) as [lr Hlr]%elem_of_dom.
    unfold account_node, unlock_node. rewrite Hlr. cbn. split; by eexists.
Qed.

(** An allocator for the examples: it takes the address above all those in use. *)
Definition next_address (a : gset nat) : nat := S (max_list (elements a)).

#[global] Instance demo_slab : Slab (gset nat) := {
  slab_alloc size a := (Some (next_address a), {[next_address a]} ∪ a);
  slab_free p a := a ∖ {[p]};
}.

Lemma next_address_new a : next_address a ∉ a.
Proof. intros H. apply elem_of_elements, max_list_elem_of_le in H. unfold next_address in H. lia. Qed.

#[global] Instance demo_slab_laws : SlabLaws (gset nat).
Proof.
  refine {| live := id |}.
  - intros size a p a' [= <- <-]. split; [apply next_address_new|done].
  - intros size a a' [=].
  - done.
Defined.

Definition demo_zone : zone (gset nat) := ngx_http_limit_req_init_zone 1 {[1%nat]}.

(** One request a second is allowed, and two in advance. *)
Definition demo_lookup (now : Z) (key_ : list Z) (account : bool) (z : zone (gset nat)) :=
  ngx_http_limit_req_lookup false 1 now 1000 2000 (ngx_crc32_short key_) key_ account z.

(** Four requests at once: the fourth exceeds the burst.  Two seconds later there is room again;
    the node of another key is removed after its minute. *)
Example lookup_ex :
  (let key_ := str("10.0.0.1") in
   '(r1, _, _, z) ← demo_lookup 5000 str("other") true demo_zone;
   '(r2, _, _, z) ← demo_lookup 90000 key_ true z;
   '(r3, e3, _, z) ← demo_lookup 90000 key_ true z;
   '(r4, e4, _, z) ← demo_lookup 90000 key_ true z;
   '(r5, e5, _, z) ← demo_lookup 90000 key_ true z;
   '(r6, e6, _, z) ← demo_lookup 92000 key_ true z;
   Some ([r1; r2; r3; r4; r5; r6], [e3; e4; e5; e6], elements (dom (nodes z))))
  = Some ([NGX_OK; NGX_OK; NGX_OK; NGX_OK; NGX_BUSY; NGX_OK], [1000; 2000; 3000; 1000], [2%nat]).
Proof. vm_compute. reflexivity. Qed.

(** A worker has reserved a node. *)
Lemma limit_req_zone_safe_witness : exists s : sys (A := gset nat),
  hold s !! 7%nat = Some 2%nat /\ is_Some (unlock_node 2 (shared s)).
Proof.
  destruct (demo_lookup 5000 str("10.0.0.1") false demo_zone) as [[[[rc ex] node] z]|] eqn:E; [|vm_compute in E; discriminate].
  assert (Hn : node = Some 2%nat) by (vm_compute in E; congruence). subst node.
  exists (Sys z (<[7%nat := 2%nat]> ∅)). split; [done|].
  destruct (limit_req_zone_safe false 1 ({[1%nat]} : gset nat) (Sys z (<[7%nat := 2%nat]> ∅))) as (_ & _ & _ & H).
  - by_evaluation.
  - eapply rtc_l; [|apply rtc_refl]. eapply (step_lookup false 1 (Sys demo_zone ∅) 7 5000 1000 2000 _ _ false rc ex (Some 2%nat) z);
      [by_evaluation|done| |exact E]. by_evaluation.
  - apply (H 7%nat 2%nat eq_refl 0 0).
Defined.

End LimitReq.
