(* ===== verification/LimitReqRate.v ===== *)
(** * Limiting the rate of requests: how many are let through

    A sequence of requests with any keys passes one zone of [LimitReq].  The bucket of one
    key is followed through charges, refusals, removal by the expiry of old nodes, removal
    by force when the zone is full, and new creation, with an account of the requests let
    through. *)

From stdpp Require Import sorting.
From S2P Require Import Prelude RbTree RbTreeShape RbTreeInsert RbTreeDelete RbTreeSpec Queue LimitReq.

Module LimitReqRate.
Import LimitReq.

Section Rate.
Context {A : Type} `{SL : SlabLaws A}.
Context (debug : bool) (sh : nat) (rate burst : Z) (hash : Z) (key_ : list Z).

(** A request: the moment, the hash and the key. *)
Abbreviation request := (Z * Z * list Z)%type.

(** Requests that pass one zone, with the return codes. *)
Fixpoint run_requests (rs : list request) (z : zone A) : option (list Z * zone A) :=
  match rs with
  | [] => Some ([], z)
  | (now, h, k) :: rs' =>
      '(rc, _, _, z) ← ngx_http_limit_req_lookup debug sh now rate burst h k true z;
      '(rcs, z) ← run_requests rs' z;
      Some (rc :: rcs, z)
  end.

(** How many of the requests with our hash and key are let through. *)
Fixpoint admitted (rs : list request) (rcs : list Z) : Z :=
  match rs, rcs with
  | (_, h, k) :: rs', rc :: rcs' =>
      (if bool_decide ((h, k) = (hash, key_)) && (rc =? NGX_OK) then 1 else 0) + admitted rs' rcs'
  | _, _ => 0
  end.

(** The key has a node. *)
Definition key_found (z : zone A) : bool :=
  match find_node sh (S (size (mem (rbtree z)))) hash key_ (root (rbtree z)) z with Some (Some _) => true | _ => false end.

(** How often the node of the key was evicted: by a request that found no room in the zone
    and removed it with ngx_http_limit_req_expire(ctx, 0). *)
Fixpoint evictions (rs : list request) (z : zone A) : Z :=
  match rs with
  | [] => 0
  | (now, h, k) :: rs' =>
      match ngx_http_limit_req_lookup debug sh now rate burst h k true z with
      | Some (_, _, _, z') =>
          (if zone_full debug sh now rate k z && key_found z && negb (key_found z') then 1 else 0) + evictions rs' z'
      | None => 0
      end
  end.

(** The bucket of the key: its moment and excess, if it has a node. *)
Definition bucket (z : zone A) (l : list (nat * Z)) (b : option (Z * Z)) : Prop :=
  match b with
  | Some (last, ex) => exists p lr, has z l hash key_ p lr /\ lr_last lr = last /\ lr_excess lr = ex
  | None => absent z l hash key_
  end.

Lemma bucket_found (z : zone A) l q : zinv sh z l q -> exists b, bucket z l b /\ key_found z = bool_decide (is_Some b).
Proof.
  intros H. unfold key_found. destruct (find_hash_ok sh z l q hash key_ H) as ([p|] & -> & R); [|by exists None].
  destruct R as (Hp & lr & Hlr & Hd). exists (Some (lr_last lr, lr_excess lr)). split; [exists p, lr; by split_and!|done].
Qed.

Lemma has_key (z : zone A) l h k p lr : has z l h k p lr -> (p, h) ∈ l /\ ekey (nodes z) (p, h) = (h, k).
Proof. intros (Hp & Hlr & <-). split; [done|]. unfold ekey. cbn. by rewrite Hlr. Qed.

Lemma has_not_absent (z : zone A) l h k p lr : has z l h k p lr -> ~ absent z l h k.
Proof. intros [Hp E]%has_key H. by apply (H _ Hp). Qed.

Lemma has_unique (z : zone A) l q h k p lr p' lr' : zinv sh z l q -> has z l h k p lr -> has z l h k p' lr' -> p = p' /\ lr = lr'.
Proof.
  intros H H1 H2. destruct (has_key _ _ _ _ _ _ H1) as [Hp E1], (has_key _ _ _ _ _ _ H2) as [Hp' E2].
  pose proof (sorted_unique _ _ _ _ (zi_sorted _ _ _ _ H) Hp Hp' ltac:(congruence)) as [= ->].
  destruct H1 as (_ & H1 & _), H2 as (_ & H2 & _). by simplify_eq.
Qed.

Lemma bucket_unique (z : zone A) l q b b' : zinv sh z l q -> bucket z l b -> bucket z l b' -> b = b'.
Proof.
  intros H. destruct b as [[last ex]|], b' as [[last' ex']|]; cbn; try done.
  - intros (p & lr & Hh & <- & <-) (p' & lr' & Hh' & <- & <-). by destruct (has_unique _ _ _ _ _ _ _ _ _ H Hh Hh') as [-> ->].
  - intros (p & lr & Hh & _) Ha. by apply has_not_absent in Hh.
  - intros Ha (p & lr & Hh & _). by apply has_not_absent in Hh.
Qed.

Lemma found_bucket (z : zone A) l q b : zinv sh z l q -> bucket z l b -> key_found z = bool_decide (is_Some b).
Proof. intros H Hb. destruct (bucket_found z l q H) as (b' & Hb' & ->). by rewrite (bucket_unique z l q b b' H Hb Hb'). Qed.

(** What a request does to the bucket of the key; [full]: it found no room in the zone. *)
Inductive bucket_step (now : Z) (full : bool) : bool -> Z -> option (Z * Z) -> option (Z * Z) -> Prop :=
| BBusy last ex : bucket_step now full true NGX_BUSY (Some (last, ex)) (Some (last, ex))
| BCharge last ex :
    charged rate (elapsed now last) ex <= burst ->
    bucket_step now full true NGX_OK (Some (last, ex))
      (Some (if negb (elapsed now last =? 0) then now else last, charged rate (elapsed now last) ex))
| BNew : bucket_step now full true NGX_OK None (Some (now, 0))
| BOther rc b : bucket_step now full false rc b b
| BExpired rc last ex len count :
    stale now rate (LrNode len key_ last ex count) -> bucket_step now full false rc (Some (last, ex)) None
| BEvicted rc last ex : full = true -> bucket_step now full false rc (Some (last, ex)) None
| BError : bucket_step now full true NGX_ERROR None None.

Lemma ekey_insert_ne (ns : gmap nat lr_node) p lr e : p <> fst e -> ekey (<[p := lr]> ns) e = ekey ns e.
Proof. intros H. apply ekey_same. by rewrite lookup_insert_ne. Qed.

(** A lookup that changes only values in a bucket. *)
Lemma bucket_update (z : zone A) l q (z' : zone A) p lr lr' h k b :
  zinv sh z l q -> has z l h k p lr -> nodes z' = <[p := lr']> (nodes z) -> lr_data lr' = lr_data lr ->
  bucket z l b ->
  if decide ((h, k) = (hash, key_)) then b = Some (lr_last lr, lr_excess lr) /\ bucket z' l (Some (lr_last lr', lr_excess lr'))
  else bucket z' l b.
Proof.
  intros H Hh Hn Hd Hb. case_decide as Hk.
  - injection Hk as -> ->. split.
    + destruct b as [[last ex]|]; [|by apply has_not_absent in Hh]. destruct Hb as (p' & lr1 & Hh' & <- & <-).
      by destruct (has_unique _ _ _ _ _ _ _ _ _ H Hh Hh') as [-> ->].
    + exists p, lr'. split_and!; try done. destruct Hh as (Hp & Hlr & Hdd). split_and!; [done|by rewrite Hn, lookup_insert_eq|congruence].
  - destruct b as [[last ex]|]; cbn in *.
    + destruct Hb as (p' & lr1 & Hh' & E1 & E2). exists p', lr1. split_and!; try done. destruct Hh' as (Hp' & Hlr' & Hd').
      split_and!; [done| |done]. rewrite Hn, lookup_insert_ne; [done|]. intros ->.
      destruct Hh as (Hp & Hlr & Hdd). simplify_eq. apply Hk. f_equal.
      pose proof (is_tree_NoDup _ _ _ (zi_tree _ _ _ _ H)) as [Hnd _].
      assert (Hinj : (p', h) = (p', hash)); [|by injection Hinj].
      apply list_elem_of_split in Hp as (l1 & l2 & ->). rewrite elem_of_app, elem_of_cons in Hp'.
      destruct Hp' as [Hin|[E|Hin]]; [|done|]; exfalso; eapply (NoDup_split_remove l1 p' h l2 (p', hash)); try done; set_solver.
    + intros e He. rewrite (ekey_same (nodes z)); [by apply Hb|]. rewrite Hn.
      destruct (decide (fst e = p)) as [<-|]; [rewrite lookup_insert_eq|by rewrite lookup_insert_ne].
      destruct Hh as (_ & -> & _). cbn. by rewrite Hd.
Qed.

Lemma bucket_nodes (z z' : zone A) l b : nodes z' = nodes z -> bucket z l b -> bucket z' l b.
Proof. intros E. unfold bucket, has, absent. by rewrite E. Qed.

Lemma same_hash (z : zone A) l q p k1 k2 : zinv sh z l q -> (p, k1) ∈ l -> (p, k2) ∈ l -> k1 = k2.
Proof.
  intros H H1 H2. pose proof (is_tree_NoDup _ _ _ (zi_tree _ _ _ _ H)) as [Hnd _].
  apply list_elem_of_split in H1 as (l1 & l2 & ->). rewrite elem_of_app, elem_of_cons in H2.
  destruct H2 as [Hin|[[= ->]|Hin]]; [|done|]; exfalso; eapply (NoDup_split_remove l1 p k1 l2 (p, k2)); try done; set_solver.
Qed.

(** The node of the key is kept, or it is removed for its age or by force. *)
Lemma bucket_removed now full rc (z : zone A) l b ns :
  bucket z l b -> expired_to now rate 0 (nodes z) ns -> (full = false -> expired_to now rate 1 (nodes z) ns) ->
  match b with
  | None => True
  | Some (last, ex) => (exists p lr, has z l hash key_ p lr /\ lr_last lr = last /\ lr_excess lr = ex /\ ns !! p = Some lr)
      \/ (exists p lr, has z l hash key_ p lr /\ ns !! p = None) /\ bucket_step now full false rc b None
  end.
Proof.
  destruct b as [[last ex]|]; [|done]. intros (p & lr & Hh & E1 & E2) X0 X1. pose proof Hh as (_ & Hlr & Hd). destruct (ns !! p) as [x|] eqn:Ex.
  - left. exists p, lr. pose proof (proj1 X0 _ _ Ex) as Hx. rewrite Hlr in Hx. injection Hx as <-. done.
  - right. split; [by exists p, lr|]. destruct full; [by apply BEvicted|]. destruct (X1 eq_refl) as [_ X2].
    destruct (X2 _ _ Hlr Ex) as [_ [[=]|Hst]]. apply (BExpired _ _ _ _ _ (lr_len lr) (lr_count lr)). by destruct lr; cbn in *; subst.
Qed.

(** Expiry, with no node of the key added: [l1] are the nodes kept. *)
Lemma bucket_kept now full rc (z z' : zone A) l q l1 l' q' ns b :
  zinv sh z l q -> zinv sh z' l' q' -> expired_to now rate 0 (nodes z) ns -> (full = false -> expired_to now rate 1 (nodes z) ns) ->
  l1 ⊆ l -> (forall e, e ∈ l1 -> fst e ∈ dom ns) ->
  (forall p lr, ns !! p = Some lr -> nodes z' !! p = Some lr) ->
  (forall e, e ∈ l' -> e ∈ l1 \/ fst e ∉ dom ns /\ ekey (nodes z') e <> (hash, key_)) ->
  bucket z l b -> exists b', bucket z' l' b' /\ bucket_step now full false rc b b'.
Proof.
  intros H H' X0 X1 Hl1 Hd1 Hn Hl' Hb. pose proof (bucket_removed now full rc z l b ns Hb X0 X1) as Hr.
  assert (Hold : forall e, e ∈ l1 -> ekey (nodes z') e = ekey (nodes z) e /\ e ∈ l /\ is_Some (ns !! fst e)).
  { intros e He. pose proof (Hd1 e He) as [x Hx]%elem_of_dom. split_and!; [|by apply Hl1|by exists x].
    apply ekey_same. by rewrite (Hn _ _ Hx), (proj1 X0 _ _ Hx). }
  assert (Habs : (forall p lr, has z l hash key_ p lr -> ns !! p = None) -> absent z' l' hash key_).
  { intros Hno e He E. destruct (Hl' e He) as [He1|[_ ?]]; [|done]. destruct (Hold e He1) as (E' & Hin & [x Hx]). pose proof (proj1 X0 _ _ Hx) as Hxz.
    assert (Hh : has z l hash key_ (fst e) x).
    { rewrite E' in E. unfold ekey in E. rewrite Hxz in E. cbn in E. injection E as Eh Ed. destruct e as [p h]. cbn in *. subst. by split_and!. }
    rewrite (Hno _ _ Hh) in Hx. done. }
  destruct b as [[last ex]|].
  - destruct Hr as [(p & lr & Hh & E1 & E2 & Hp)|((p & lr & Hh & Hp) & Hs)].
    + exists (Some (last, ex)). split; [|constructor]. exists p, lr. split; [|done]. pose proof Hh as (Hin & Hlr & Hd).
      destruct (zi_tree_node _ _ _ _ p H') as (k' & Hk'); [apply elem_of_dom; exists lr; by apply Hn|].
      destruct (Hl' _ Hk') as [Hk1|[Hne _]]; [|by apply not_elem_of_dom in Hne; cbn in Hne; simplify_eq].
      assert (k' = hash) as -> by (apply (same_hash _ _ _ _ _ _ H (Hl1 _ Hk1) Hin)). split_and!; [done|by apply Hn|done].
    + exists None. split; [|done]. apply Habs. intros p' lr' Hh'. by destruct (has_unique _ _ _ _ _ _ _ _ _ H Hh Hh') as [-> ->].
  - exists None. split; [|constructor]. apply Habs. intros p lr Hh. by apply has_not_absent in Hh.
Qed.

Lemma lookup_bucket now h k (z : zone A) l q rc ex node (z' : zone A) l' q' b :
  zinv sh z l q -> zinv sh z' l' q' -> looked_up debug sh now rate burst h k true z l rc ex node z' l' -> bucket z l b ->
  exists b', bucket z' l' b' /\ bucket_step now (zone_full debug sh now rate k z) (bool_decide ((h, k) = (hash, key_))) rc b b'.
Proof.
  intros H H' L Hb.
  destruct L as [p lr z' Hh Hc Hn|p lr z' Hh Hc _ Hn|p lr z' _ _ [=] _|z' l' Habs X Hl' Hno|p ns rc node z' l1 l' Habs X0 X Hpd Hl1 Hd1 Hl' -> -> Hn].
  - exists b. split; [by eapply bucket_nodes|]. destruct (bool_decide_reflect ((h, k) = (hash, key_))) as [[= -> ->]|]; [|constructor].
    destruct b as [[last ex]|]; [constructor|by apply has_not_absent in Hh].
  - pose proof (bucket_update z l q z' p lr _ h k b H Hh Hn eq_refl Hb) as Hup.
    destruct (bool_decide_reflect ((h, k) = (hash, key_))) as [Hk|Hk].
    + rewrite decide_True in Hup by done. destruct Hup as [-> Hup]. eexists. split; [exact Hup|]. by apply BCharge.
    + rewrite decide_False in Hup by done. exists b. split; [done|constructor].
  - assert (Hdom : forall e, e ∈ l' -> fst e ∈ dom (nodes z')).
    { intros [p x] Hp. destruct (zi_node _ _ _ _ _ _ H' Hp) as (lr & Hlr & _). apply elem_of_dom. by exists lr. }
    rewrite Hno. destruct (bool_decide_reflect ((h, k) = (hash, key_))) as [[= -> ->]|Hk].
    + destruct b as [[last ex]|]; [destruct Hb as (x & y & Hh & _); by apply has_not_absent in Hh|]. exists None. split; [|constructor].
      intros e He. pose proof (Hdom e He) as [x Hx]%elem_of_dom. rewrite (ekey_same (nodes z)) by (by rewrite Hx, (proj1 X _ _ Hx)). by apply Habs, Hl'.
    + apply (bucket_kept now true _ z z' l q l' l' q' (nodes z') b H H' X); try done. intros e He. by left.
  - destruct (bool_decide_reflect ((h, k) = (hash, key_))) as [[= -> ->]|Hk].
    + destruct b as [[last ex]|]; [destruct Hb as (x & y & Hh & _); by apply has_not_absent in Hh|].
      exists (Some (now, 0)). split; [|constructor]. eexists p, _. split; [split_and!; [rewrite Hl'; by left|rewrite Hn; apply lookup_insert_eq|done]|done].
    + apply (bucket_kept now _ _ z z' l q l1 l' q' ns b H H' X0 X Hl1); try done.
      * intros e He. apply elem_of_elements, Hd1. by apply (list_elem_of_fmap_2 fst).
      * intros x lr Hx. rewrite Hn, lookup_insert_ne; [done|]. intros ->. by apply Hpd, elem_of_dom; exists lr.
      * intros e He. rewrite Hl' in He. apply elem_of_cons in He as [->|He]; [right|by left]. split; [done|].
        unfold ekey. cbn. rewrite Hn, lookup_insert_eq. done.
Qed.

(** The evictions that [evictions] counts are those the bucket sees. *)
Definition evicted (full : bool) (b b' : option (Z * Z)) : Z :=
  if full && bool_decide (is_Some b) && negb (bool_decide (is_Some b')) then 1 else 0.

(** ** The account of the bucket over a stretch of time *)

Lemma elapsed_plain now last : 0 <= now - last < 2 ^ 62 -> elapsed now last = now - last.
Proof.
  intros H. unfold elapsed. rewrite i64_small by lia.
  destruct (Z.ltb_spec (now - last) (-60000)); [lia|]. destruct (Z.ltb_spec (now - last) 0); lia.
Qed.

Lemma charged_plain ms ex : 0 <= rate * ms < 2 ^ 63 -> 0 <= ex < 2 ^ 62 -> charged rate ms ex = Z.max 0 (ex - rate * ms / 1000 + 1000).
Proof.
  intros Hr He. unfold charged. rewrite wrap_small by (unfold in_u; lia).
  assert (0 <= rate * ms / 1000 < 2 ^ 63) by zlia. rewrite i64_small by lia.
  destruct (Z.ltb_spec (ex - rate * ms / 1000 + 1000) 0); lia.
Qed.

Context (t0 t1 : Z) (Hrate : 0 <= rate) (Hburst : 0 <= burst < 2 ^ 62).
Context (Hspan : 0 <= t1 - t0 < 2 ^ 62) (Hleak : rate * (t1 - t0) < 2 ^ 63).

(** Values for which the arithmetic of the code is exact until [t1]. *)
Definition exact_bucket (t last ex : Z) : Prop :=
  0 <= ex < 2 ^ 62 /\ last <= t /\ t1 - last < 2 ^ 62 /\ rate * (t1 - last) < 2 ^ 63.

(** [k] requests have been let through until [t], the node was made [s] times and evicted
    [f] times. *)
Definition account_of (k f t : Z) (b : option (Z * Z)) : Prop :=
  0 <= f /\
  match b with Some (last, ex) => exact_bucket t last ex | None => True end /\
  (k = 0 \/ exists s,
     match b with
     | Some (last, ex) => t0 <= last /\ ex <= burst /\
         1000000 * (k - s) <= 1000 * ex + rate * (last - t0) + 1000 * (burst * f) /\ 60000 * (s - 1 - f) <= last - t0
     | None => 1000000 * (k - s) <= rate * (t - t0) + 1000 * (burst * f) /\ 60000 * (s - f) <= t - t0
     end).

Lemma leak_mono a b : a <= b -> rate * a <= rate * b.
Proof. intros H. by apply Z.mul_le_mono_nonneg_l. Qed.

Lemma leak_nonneg a : 0 <= a -> 0 <= rate * a.
Proof. intros H. by apply Z.mul_nonneg_nonneg. Qed.

Lemma exact_now now ex : t0 <= now <= t1 -> 0 <= ex < 2 ^ 62 -> exact_bucket now now ex.
Proof. intros Hn He. unfold exact_bucket. pose proof (leak_mono (t1 - now) (t1 - t0)). split_and!; lia. Qed.

Lemma account_later k f t t' b : t <= t' -> account_of k f t b -> account_of k f t' b.
Proof.
  intros Ht (Hf & He & Hk). split; [done|]. split; [destruct b as [[last ex]|]; [|done]; unfold exact_bucket in *; lia|].
  destruct Hk as [?|[s Hs]]; [by left|right; exists s]. destruct b as [[last ex]|]; [lia|].
  pose proof (leak_mono (t - t0) (t' - t0)). split; lia.
Qed.

(** The bucket after a request that is let through. *)
Lemma exact_charge now last ex :
  exact_bucket now last ex -> now <= t1 ->
  elapsed now last = now - last /\
  charged rate (elapsed now last) ex = Z.max 0 (ex - rate * (now - last) / 1000 + 1000) /\
  (if negb (elapsed now last =? 0) then now else last) = now.
Proof.
  intros (He & Hl & Hs & Hr) Hn. rewrite elapsed_plain by lia. pose proof (leak_nonneg (now - last)). pose proof (leak_mono (now - last) (t1 - last)).
  split_and!; [done|apply charged_plain; lia|].
  destruct (Z.eqb_spec (now - last) 0); cbn; lia.
Qed.

(** The idle time that makes a node stale pays for what is left of its bucket. *)
Lemma stale_pays now last ex len count :
  exact_bucket now last ex -> now <= t1 -> stale now rate (LrNode len key_ last ex count) ->
  60000 <= now - last /\ 1000 * ex <= rate * (now - last).
Proof.
  intros (He & Hl & Hsp & Hr) Hn Hst. unfold stale, ngx_abs in Hst. cbn [lr_last lr_excess] in Hst.
  rewrite (i64_small (now - last)) in Hst by lia. rewrite Z.geb_leb in Hst. destruct (Z.leb_spec 0 (now - last)); [|lia].
  destruct Hst as [Hms Hex]. pose proof (leak_nonneg (now - last)). pose proof (leak_mono (now - last) (t1 - last)).
  rewrite wrap_small in Hex by (unfold in_u; lia). assert (0 <= rate * (now - last) / 1000 < 2 ^ 63) by zlia.
  rewrite i64_small in Hex by lia. pose proof (Z.mul_div_le (rate * (now - last)) 1000 ltac:(lia)). lia.
Qed.

Lemma account_step now full same rc b b' k f :
  t0 <= now <= t1 -> bucket_step now full same rc b b' -> account_of k f now b ->
  account_of (k + if same && (rc =? NGX_OK) then 1 else 0) (f + evicted full b b') now b'.
Proof.
  intros Hn Hs (Hf & He & Hk). pose proof (leak_nonneg (now - t0) ltac:(lia)) as H. pose proof (Z.mul_nonneg_nonneg burst f ltac:(lia) Hf) as Hbf.
  assert (Hcount : 0 <= evicted full b b') by (unfold evicted; destruct (_ && _); lia).
  assert (Hsame : forall x, evicted full b (Some x) = 0) by (intros x; unfold evicted; by rewrite andb_false_r).
  destruct Hs as [last ex|last ex Hc| |rc b|rc last ex len count Hst|rc last ex ->|]; cbn [andb].
  - rewrite Hsame, !Z.add_0_r. by split_and!.
  - rewrite Hsame, Z.add_0_r. cbn. destruct (exact_charge now last ex He ltac:(lia)) as (E1 & E2 & E3). rewrite E3. rewrite E2 in *.
    destruct He as (_ & Hlast & _).
    set (ex' := Z.max 0 _) in *. assert (0 <= ex' < 2 ^ 62) by lia. split; [done|]. split; [by apply exact_now|right].
    assert (Hx : 1000 * ex + 1000000 - rate * (now - last) <= 1000 * ex').
    { unfold ex'. pose proof (Z.mul_div_le (rate * (now - last)) 1000 ltac:(lia)). lia. }
    destruct Hk as [->|(s & Hl & Hb & H1 & H2)]; [exists 1|exists s]; split_and!; lia.
  - rewrite Hsame, Z.add_0_r. cbn. split; [done|]. split; [by apply exact_now|right].
    destruct Hk as [->|(s & H1 & H2)]; [exists 1|exists (s + 1)]; split_and!; lia.
  - assert (E : evicted full b b = 0) by (unfold evicted; by destruct b, full). rewrite E, !Z.add_0_r. by split_and!.
  - rewrite Z.add_0_r. split; [lia|]. split; [done|]. destruct Hk as [->|(s & Hl & Hb & H1 & H2)]; [by left|right; exists s].
    destruct (stale_pays _ _ _ _ _ He ltac:(lia) Hst) as [Hms Hex]. pose proof (Z.mul_nonneg_nonneg burst _ ltac:(lia) Hcount). split; lia.
  - change (evicted true (Some (last, ex)) None) with 1. rewrite Z.add_0_r. split; [lia|]. split; [done|].
    destruct Hk as [->|(s & Hl & Hb & H1 & H2)]; [by left|right; exists s]. destruct He as (_ & Hl1 & _).
    pose proof (leak_mono (last - t0) (now - t0) ltac:(lia)). split; lia.
  - assert (E : evicted full None None = 0) by (unfold evicted; by rewrite andb_false_r). cbn. rewrite E, !Z.add_0_r. by split_and!.
Qed.

(** The requests come in the order of time, between [t] and [t1]. *)
Fixpoint chronological (t : Z) (rs : list request) : Prop :=
  match rs with
  | [] => t <= t1
  | (now, _, k) :: rs' => t <= now /\ Z.of_nat (length k) <= 65535 /\ chronological now rs'
  end.

Lemma chronological_end t rs : chronological t rs -> t <= t1.
Proof. revert t. induction rs as [|[[now h] k] rs IH]; intros t H; [done|]. destruct H as (? & _ & H). apply IH in H. lia. Qed.

Lemma run_account rs : forall z l q b k f t,
  zinv sh z l q -> bucket z l b -> t0 <= t -> chronological t rs -> account_of k f t b ->
  exists rcs z' l' q' b', run_requests rs z = Some (rcs, z') /\ zinv sh z' l' q' /\
    account_of (k + admitted rs rcs) (f + evictions rs z) t1 b'.
Proof.
  induction rs as [|[[now h] ky] rs IH]; intros z l q b k f t H Hb Ht Hc Ha.
  - exists [], z, l, q, b. cbn in *. rewrite !Z.add_0_r. split_and!; try done. by eapply account_later.
  - destruct Hc as (Hnow & Hlen & Hc). cbn [run_requests evictions]. pose proof (chronological_end _ _ Hc).
    destruct (lookup_ok debug sh now rate burst h ky true z l q H Hlen) as (rc & ex & node & z1 & l1 & q1 & -> & H1 & L). cbn [mbind option_bind].
    destruct (lookup_bucket now h ky z l q rc ex node z1 l1 q1 b H H1 L Hb) as (b1 & Hb1 & Hs).
    rewrite (found_bucket z l q b H Hb), (found_bucket z1 l1 q1 b1 H1 Hb1).
    assert (Hn : t0 <= now <= t1) by lia.
    apply (account_later _ _ _ now) in Ha; [|done]. pose proof (account_step _ _ _ _ _ _ _ _ Hn Hs Ha) as Ha1.
    destruct (IH z1 l1 q1 b1 _ _ now H1 Hb1 ltac:(lia) Hc Ha1) as (rcs & z2 & l2 & q2 & b2 & -> & H2 & Ha2). cbn [mbind option_bind].
    exists (rc :: rcs), z2, l2, q2, b2. split_and!; [done|done|]. cbn [admitted]. by rewrite !Z.add_assoc.
Qed.

End Rate.

(** C29. One limit, requests with any keys in the order of time, on a zone of any size and
    filling.  Between [t0] and [t1] at most burst / 1000 + rate (t1 - t0) / 1000000 + 1
    requests with a key are let through, and one more for each full minute, as a node that
    has been idle for a minute is removed and the first request to a new node is free; and
    burst / 1000 + 1 more for each time that the node of the key was evicted because a
    request with another key found no room in the zone ([evictions] counts these on the
    run, it is 0 as long as the zone is not full).  [rate] and [burst] count thousandths of
    a request, times are milliseconds.  This includes all rounding. *)
Theorem limit_req_rate `{SL : SlabLaws A} (debug : bool) (sh : nat) (rate burst hash : Z) (key_ : list Z)
    (t0 t1 : Z) (rs : list (Z * Z * list Z)) (z : zone A) (l : list (nat * Z)) (q : list nat)
    (Hz : zinv sh z l q) (Hrate : 0 <= rate) (Hburst : 0 <= burst < 2 ^ 62)
    (Hspan : 0 <= t1 - t0 < 2 ^ 62) (Hleak : rate * (t1 - t0) < 2 ^ 63)
    (Hstart : forall p lr, has z l hash key_ p lr -> exact_bucket rate t1 t0 (lr_last lr) (lr_excess lr))
    (Hrs : chronological t1 t0 rs) :
  exists rcs z' l' q', run_requests debug sh rate burst rs z = Some (rcs, z') /\ zinv sh z' l' q' /\
    let e := evictions debug sh rate burst hash key_ rs z in
    1000000 * admitted hash key_ rs rcs
      <= 1000 * burst * (1 + e) + rate * (t1 - t0) + 1000000 * (1 + e + (t1 - t0) / 60000).
Proof.
  destruct (bucket_found sh hash key_ z l q Hz) as (b & Hb & _).
  destruct (run_account debug sh rate burst hash key_ t0 t1 Hrate Hburst Hspan Hleak rs z l q b 0 0 t0 Hz Hb)
    as (rcs & z' & l' & q' & b' & E & Hz' & (Hf & He & Ha)); [lia|done| |].
  { split; [lia|]. split; [|by left]. destruct b as [[last ex]|]; [|done]. destruct Hb as (p & lr & Hh & <- & <-). by eapply Hstart. }
  exists rcs, z', l', q'. split_and!; try done. rewrite !Z.add_0_l in *. cbv zeta. set (e := evictions _ _ _ _ _ _ _ _) in *.
  assert (0 <= (t1 - t0) / 60000) by zlia. pose proof (leak_nonneg rate Hrate (t1 - t0) ltac:(lia)).
  pose proof (Z.mul_nonneg_nonneg burst e ltac:(lia) Hf).
  destruct Ha as [->|[s Hs]]; [lia|]. destruct b' as [[last ex]|].
  - destruct Hs as (Hl & Hx & G1 & G2). destruct He as (_ & Hl1 & _).
    assert (s - 1 - e <= (t1 - t0) / 60000) by zlia. pose proof (leak_mono rate Hrate (last - t0) (t1 - t0)). lia.
  - destruct Hs as [G1 G2]. assert (s - e <= (t1 - t0) / 60000) by zlia. lia.
Qed.

(** An allocator with room for the structure of the zone and two nodes. *)
Record small := Small { taken : gset nat }.

#[global] Instance small_slab : Slab small := {
  slab_alloc sz a := if (3 <=? size (taken a))%nat then (None, a)
                     else (Some (next_address (taken a)), Small ({[next_address (taken a)]} ∪ taken a));
  slab_free p a := Small (taken a ∖ {[p]});
}.

#[global] Instance small_slab_laws : SlabLaws small.
Proof.
  refine {| live := taken |}.
  - intros sz a p a'. unfold slab_alloc, small_slab. destruct (3 <=? size (taken a))%nat; [intros [=]|]. intros [= <- <-]. split; [apply next_address_new|done].
  - intros sz a a'. unfold slab_alloc, small_slab. destruct (3 <=? size (taken a))%nat; [by intros [= <-]|intros [=]].
  - done.
Defined.

Definition small_zone : zone small := ngx_http_limit_req_init_zone 1 (Small {[1%nat]}).

(** Requests within three seconds, at one request a second with two in advance: four with
    our key, then two with other keys, which evict its node, then four with our key. *)
Definition demo_requests : list (Z * Z * list Z) :=
  let ours t := (t, 77, str("10.0.0.1")) in
  [ours 5000; ours 5000; ours 5500; ours 5500; (6000, 12, str("a")); (6000, 13, str("b"));
   ours 7000; ours 7000; ours 7000; ours 8000].

(** Seven of the eight are let through, where the rate and the burst alone allow six, as in a zone with room. *)
Example eviction_ex :
  (admitted 77 str("10.0.0.1") demo_requests ∘ fst <$> run_requests false 1 1000 2000 demo_requests small_zone) = Some 7
  /\ (admitted 77 str("10.0.0.1") demo_requests ∘ fst <$> run_requests false 1 1000 2000 demo_requests demo_zone) = Some 6
  /\ evictions false 1 1000 2000 77 str("10.0.0.1") demo_requests small_zone = 1
  /\ evictions false 1 1000 2000 77 str("10.0.0.1") demo_requests demo_zone = 0.
Proof. vm_compute. repeat split. Qed.

Lemma small_zone_inv : exists l q, zinv 1 small_zone l q.
Proof. apply (si_zone _ _ (init_sinv 1 (Small {[1%nat]}) ltac:(by_evaluation))). Qed.

Lemma limit_req_rate_witness : exists rcs z',
  run_requests false 1 1000 2000 demo_requests small_zone = Some (rcs, z') /\
  1000000 * admitted 77 str("10.0.0.1") demo_requests rcs <= 1000 * 2000 * 2 + 1000 * 3000 + 1000000 * 2.
Proof.
  destruct small_zone_inv as (l & q & Hz).
  assert (Hempty : forall p lr, ~ has small_zone l 77 str("10.0.0.1") p lr) by (intros p lr (_ & H & _); done).
  destruct (limit_req_rate false 1 1000 2000 77 str("10.0.0.1") 5000 8000 demo_requests small_zone l q) as (rcs & z' & l' & q' & E & _ & Hb).
  - exact Hz.
  - lia.
  - lia.
  - lia.
  - lia.
  - intros p lr Hh. by apply Hempty in Hh.
  - vm_compute. repeat split; congruence.
  - exists rcs, z'. split; [done|]. cbv zeta in Hb. destruct eviction_ex as (_ & _ & He & _). rewrite He in Hb.
    assert ((8000 - 5000) / 60000 = 0) by reflexivity. lia.
Defined.

End LimitReqRate.
