(* ===== verification/LimitReqHandler.v ===== *)
(** * Limiting the rate of requests: the handler

    ngx_http_limit_req_handler takes a request through all limits of its location, each
    with a zone of [LimitReq] of its own: it reserves a node in all zones but the last,
    and at the end charges or releases the nodes it has reserved.  The values of the
    variables for the request at hand (key, rate and whitelist) are inputs. *)

From stdpp Require Import sorting.
From S2P Require Import Prelude NgxNumber Crc32 RbTree RbTreeShape RbTreeInsert RbTreeDelete RbTreeSpec Queue LimitReq.

Module LimitReqHandler.
Import LimitReq.

Definition NGX_HTTP_LIMIT_REQ_PASSED : Z := 1.
Definition NGX_HTTP_LIMIT_REQ_DELAYED : Z := 2.
Definition NGX_HTTP_LIMIT_REQ_REJECTED : Z := 3.
Definition NGX_HTTP_LIMIT_REQ_DELAYED_DRY_RUN : Z := 4.
Definition NGX_HTTP_LIMIT_REQ_REJECTED_DRY_RUN : Z := 5.

(** ngx_http_limit_req_ip_filter; [None] is a variable that is not configured or not found. *)
Definition ngx_http_limit_req_ip_filter (geo_var_value vv : option (list Z)) : Z :=
  match geo_var_value, vv with
  | Some v, Some x => if (length x =? length v)%nat && (ngx_memcmp (length x) x v =? 0) then NGX_OK else NGX_DECLINED
  | _, _ => NGX_DECLINED
  end.

(** ngx_http_limit_req_rate_value: the new ctx->rate, or [None] for NGX_ERROR.  The rate
    variable is not configured, or not found, or has a value. *)
Definition ngx_http_limit_req_rate_value (rate_var : option (option (list Z))) (ctx_rate : Z) : option Z :=
  match rate_var with
  | None => Some ctx_rate
  | Some None => None
  | Some (Some vv) =>
      if (length vv <=? 3)%nat then None
      else if Z.of_nat (length vv) >? 65535 then None
      else
        let len := (length vv - 3)%nat in
        let p := drop len vv in
        let scale :=
          if ngx_memcmp 3 p str("r/s") =? 0 then 1
          else if ngx_memcmp 3 p str("r/m") =? 0 then 60 else 1 in
        let rate := u64 (ngx_atoi (take len vv)) in
        if rate <=? 0 then None else Some (u64 (rate * 1000) / scale)
  end.

Section Handler.
Context {A : Type} `{!Slab A} (debug : bool) (now : Z).

(** ngx_http_limit_req_limit_t and the ngx_http_limit_req_ctx_t of its zone, with the
    values of the rate variable and of the key for the request *)
Record limit := Limit {
  l_burst : Z; l_delay : Z; forbid_action : list Z;
  l_sh : nat; l_zone : zone A; l_rate : Z; l_node : option nat;
  rate_var : option (option (list Z)); key_value : option (list Z)
}.

Definition set_rate (r : Z) (l : limit) : limit :=
  Limit (l_burst l) (l_delay l) (forbid_action l) (l_sh l) (l_zone l) r (l_node l) (rate_var l) (key_value l).
Definition set_zone (z : zone A) (n : option nat) (l : limit) : limit :=
  Limit (l_burst l) (l_delay l) (forbid_action l) (l_sh l) z (l_rate l) n (rate_var l) (key_value l).

(** ngx_http_limit_req_unlock *)
Fixpoint ngx_http_limit_req_unlock (n : nat) (limits : list limit) : option (list limit) :=
  match n with
  | O => Some limits
  | S n =>
      l ← limits !! n;
      match l_node l with
      | None => ngx_http_limit_req_unlock n limits
      | Some p =>
          z ← unlock_node p (l_zone l);
          ngx_http_limit_req_unlock n (<[n := set_zone z None l]> limits)
      end
  end.

(** (excess - delay) * 1000 / ctx->rate; a division by zero has no result. *)
Definition delay_of (excess delay rate : Z) : option Z :=
  if rate =? 0 then None else Some (u64 (u64 (excess - delay) * 1000) / rate).

(** The loop of ngx_http_limit_req_account: max_delay, *ep, the limits *)
Fixpoint account_loop (n : nat) (max_delay ep : Z) (limits : list limit) : option (Z * Z * list limit) :=
  match n with
  | O => Some (max_delay, ep, limits)
  | S n =>
      l ← limits !! n;
      match l_node l with
      | None => account_loop n max_delay ep limits
      | Some p =>
          '(excess, z) ← account_node now (l_rate l) p (l_zone l);
          let limits := <[n := set_zone z None l]> limits in
          if excess <=? l_delay l then account_loop n max_delay ep limits
          else
            delay ← delay_of excess (l_delay l) (l_rate l);
            if delay >? max_delay then account_loop n delay excess limits
            else account_loop n max_delay ep limits
      end
  end.

(** ngx_http_limit_req_account; [cur] is the index of *limit. *)
Definition ngx_http_limit_req_account (n : nat) (ep : Z) (cur : nat) (limits : list limit)
    : option (Z * Z * list limit) :=
  l ← limits !! cur;
  max_delay ← (if ep <=? l_delay l then Some 0 else delay_of ep (l_delay l) (l_rate l));
  account_loop n max_delay ep limits.

(** How the loop over the limits is left: with an error, or with n, rc and excess. *)
Inductive loop_end := Failed (limits : list limit) | Left (n : nat) (rc excess : Z) (limits : list limit).

(** The loop of ngx_http_limit_req_handler *)
Fixpoint limits_loop (fuel : nat) (n : nat) (rc excess : Z) (limits : list limit) : option loop_end :=
  match fuel with
  | O => None
  | S fuel =>
      if (n <? length limits)%nat then
        l ← limits !! n;
        match ngx_http_limit_req_rate_value (rate_var l) (l_rate l) with
        | None => Some (Failed limits)
        | Some rate =>
            let l := set_rate rate l in
            let limits := <[n := l]> limits in
            match key_value l with
            | None => limits ← ngx_http_limit_req_unlock n limits; Some (Failed limits)
            | Some key_ =>
                if (length key_ =? 0)%nat then limits_loop fuel (S n) rc excess limits
                else if Z.of_nat (length key_) >? 65535 then limits_loop fuel (S n) rc excess limits
                else
                  let hash := ngx_crc32_short key_ in
                  let last := (n =? length limits - 1)%nat in
                  '(rc, excess, node, z) ←
                    ngx_http_limit_req_lookup debug (l_sh l) now rate (l_burst l) hash key_ last (l_zone l);
                  let limits := <[n := set_zone z (match node with Some p => Some p | None => l_node l end) l]> limits in
                  if negb (rc =? NGX_AGAIN) then Some (Left n rc excess limits)
                  else limits_loop fuel (S n) rc excess limits
            end
        end
      else Some (Left n rc excess limits)
  end.

(** What the handler returns: NGX_DECLINED, a status code, NGX_DONE after a redirect to the
    forbid action, or NGX_AGAIN after the write event has been delayed. *)
Inductive outcome := Declined | Status (code : Z) | Forbid (action : list Z) | Delay (delay : Z).

Record conf := Conf { enable : bool; geo_var_value : option (list Z); dry_run : bool; status_code : Z }.

Definition NGX_HTTP_INTERNAL_SERVER_ERROR : Z := 500.

(** ngx_http_limit_req_handler: the outcome, r->main->limit_req_status, the limits *)
Definition ngx_http_limit_req_handler (lrcf : conf) (geo_var : option (list Z)) (limit_req_status : Z) (limits : list limit)
    : option (outcome * Z * list limit) :=
  if negb (limit_req_status =? 0) then Some (Declined, limit_req_status, limits)
  else if negb (enable lrcf) then Some (Declined, limit_req_status, limits)
  else if ngx_http_limit_req_ip_filter (geo_var_value lrcf) geo_var =? NGX_OK then Some (Declined, limit_req_status, limits)
  else
    e ← limits_loop (S (length limits)) 0 NGX_DECLINED 0 limits;
    match e with
    | Failed limits => Some (Status NGX_HTTP_INTERNAL_SERVER_ERROR, limit_req_status, limits)
    | Left n rc excess limits =>
        let cur := if (n <? length limits)%nat then n else (length limits - 1)%nat in
        if rc =? NGX_DECLINED then Some (Declined, limit_req_status, limits)
        else if (rc =? NGX_BUSY) || (rc =? NGX_ERROR) then
          limits ← ngx_http_limit_req_unlock n limits;
          if dry_run lrcf then Some (Declined, NGX_HTTP_LIMIT_REQ_REJECTED_DRY_RUN, limits)
          else
            l ← limits !! cur;
            if (rc =? NGX_ERROR) || (length (forbid_action l) =? 0)%nat then
              Some (Status (status_code lrcf), NGX_HTTP_LIMIT_REQ_REJECTED, limits)
            else Some (Forbid (forbid_action l), limit_req_status, limits)
        else
          let excess := if rc =? NGX_AGAIN then 0 else excess in
          '(delay, _, limits) ← ngx_http_limit_req_account n excess cur limits;
          if delay =? 0 then Some (Declined, NGX_HTTP_LIMIT_REQ_PASSED, limits)
          else if dry_run lrcf then Some (Declined, NGX_HTTP_LIMIT_REQ_DELAYED_DRY_RUN, limits)
          else Some (Delay delay, NGX_HTTP_LIMIT_REQ_DELAYED, limits)
    end.

End Handler.

Arguments limit A : clear implicits.

(** ** What happens to one limit *)

Section Proofs.
Context {A : Type} `{SL : SlabLaws A} (debug : bool) (now : Z).

Definition zone_ok (l : limit A) : Prop := exists es q, zinv (l_sh l) (l_zone l) es q.

(** The nodes of the zone in its maps. *)
Definition lnodes (l : limit A) : gmap nat lr_node := nodes (l_zone l).

(** A limit before a request: nothing is reserved, and the counters have room. *)
Record limit_ok (l : limit A) : Prop := {
  lo_zone : zone_ok l;
  lo_node : l_node l = None;
  lo_count : forall p lr, lnodes l !! p = Some lr -> 0 <= lr_count lr < 2 ^ 64 - 1;
}.

(** The rate of the limit for the request; [None]: it cannot be read. *)
Definition rate_of (l : limit A) : option Z := ngx_http_limit_req_rate_value (rate_var l) (l_rate l).

(** The rate of one of the limits is zero. *)
Definition zero_rate (ls : list (limit A)) : Prop := Exists (fun l => rate_of l = Some 0) ls.

(** The request has a key that is looked up. *)
Definition usable (k : list Z) : bool := negb (length k =? 0)%nat && negb (Z.of_nat (length k) >? 65535).
Definition keyed (l : limit A) : option (list Z) := k ← key_value l; if usable k then Some k else None.

(** The other nodes: none is charged, and none that is reserved is removed. *)
Definition others (p : option nat) (ns ns' : gmap nat lr_node) : Prop :=
  (forall x lr, Some x <> p -> ns' !! x = Some lr -> ns !! x = Some lr) /\
  (forall x lr, Some x <> p -> ns !! x = Some lr -> lr_count lr <> 0 -> ns' !! x = Some lr).

(** Nothing has been charged: all nodes are as before, but for nodes of nobody that have
    been removed and a new node with an empty bucket. *)
Definition released (l l' : limit A) : Prop :=
  zone_ok l' /\ l_node l' = None /\
  (others None (lnodes l) (lnodes l') \/
   exists p lr', others (Some p) (lnodes l) (lnodes l') /\ lnodes l' !! p = Some lr' /\ lr_excess lr' = 0 /\ lr_count lr' = 0 /\
     (forall lr, lnodes l !! p = Some lr -> lr_count lr = 0)).

(** One request has been charged to the node of the key. *)
Definition charged_to (l l' : limit A) (k : list Z) : Prop :=
  exists p lr', others (Some p) (lnodes l) (lnodes l') /\ lnodes l' !! p = Some lr' /\ lr_data lr' = k /\
    ((exists lr, lnodes l !! p = Some lr /\ lr_data lr = k /\ lr_count lr' = lr_count lr /\
        lr_excess lr' = charged (l_rate l') (elapsed now (lr_last lr)) (lr_excess lr)) \/
     (0 <= lr_excess lr' <= 1000 /\ lr_count lr' = 0 /\ (forall lr, lnodes l !! p = Some lr -> lr_count lr = 0))).

Definition was_charged (l l' : limit A) : Prop :=
  zone_ok l' /\ l_node l' = None /\
  match keyed l with None => lnodes l' = lnodes l | Some k => charged_to l l' k end.

(** The node of the key is reserved. *)
Definition reserved (l l' : limit A) (k : list Z) : Prop :=
  exists p lr', l_node l' = Some p /\ others (Some p) (lnodes l) (lnodes l') /\ lnodes l' !! p = Some lr' /\ lr_data lr' = k /\
    1 <= lr_count lr' < 2 ^ 64 /\
    ((exists lr, lnodes l !! p = Some lr /\ lr' = set_count (lr_count lr + 1) lr) \/
     (lr_excess lr' = 0 /\ lr_last lr' = 0 /\ lr_count lr' = 1 /\ (forall lr, lnodes l !! p = Some lr -> lr_count lr = 0))).

(** A limit that the loop has passed: the node of its key, if it has one, is reserved. *)
Definition passed (l l' : limit A) : Prop :=
  zone_ok l' /\ rate_of l = Some (l_rate l') /\
  match keyed l with None => l_node l' = None /\ lnodes l' = lnodes l | Some k => reserved l l' k end.

Lemma others_refl p ns : others p ns ns.
Proof. by split. Qed.

Lemma others_insert p lr ns ns' : others (Some p) ns ns' -> others (Some p) ns (<[p := lr]> ns').
Proof.
  intros [H1 H2]. split; intros x y Hx Hy; [|intros Hc]; assert (p <> x) by congruence.
  - rewrite lookup_insert_ne in Hy by done. by apply H1.
  - rewrite lookup_insert_ne by done. by apply H2.
Qed.

Lemma others_expired rate ns ns' : expired_to now rate 0 ns ns' -> others None ns ns'.
Proof.
  intros [H1 H2]. split; [intros x lr _; apply H1|]. intros x lr _ Hx Hc. destruct (ns' !! x) as [y|] eqn:E.
  - by rewrite <- Hx, <- (H1 _ _ E).
  - by destruct (H2 _ _ Hx E).
Qed.

Lemma others_weaken p ns ns' : others None ns ns' -> others (Some p) ns ns'.
Proof. intros [H1 H2]. split; intros x lr _; [by apply H1|by apply H2]. Qed.

Lemma set_node_zone (l : limit A) p lr lr' :
  zone_ok l -> lnodes l !! p = Some lr -> lr_data lr' = lr_data lr -> lr_len lr' = lr_len lr ->
  zone_ok (set_zone (Zone (rbtree (l_zone l)) (lru (l_zone l)) (<[p := lr']> (nodes (l_zone l))) (shpool (l_zone l))) None l).
Proof. intros (es & q & H) Hp Hd Hl. exists es, q. by apply (set_node_ok _ _ _ _ _ lr). Qed.

(** ngx_http_limit_req_unlock on one limit *)
Lemma release_limit_ok l l' : passed l l' ->
  match l_node l' with
  | None => released l l'
  | Some p => exists z, unlock_node p (l_zone l') = Some z /\ released l (set_zone z None l')
  end.
Proof.
  intros (Hz & _ & H). destruct (keyed l) as [k|].
  - destruct H as (p & lr' & -> & Ho & Hlr & Hd & Hc & Hcase). unfold unlock_node. change (nodes (l_zone l')) with (lnodes l').
    rewrite Hlr. cbn [mbind option_bind]. eexists. split; [done|]. rewrite wrap_small by (unfold in_u; lia).
    split_and!; [by eapply set_node_zone|done|]. unfold lnodes. cbn [set_zone l_zone nodes]. fold (lnodes l) (lnodes l').
    destruct Hcase as [(lr & Hlr0 & ->)|(He & _ & Hone & Hnew)].
    + left. cbn [lr_count set_count]. rewrite Z.add_simpl_r. replace (set_count _ _) with lr by by destruct lr.
      destruct Ho as [H1 H2]. split; intros x y _ Hy; [|intros Hcy]; destruct (decide (x = p)) as [->|Hne].
      * rewrite lookup_insert_eq in Hy. congruence.
      * rewrite lookup_insert_ne in Hy by done. apply H1; [congruence|done].
      * rewrite lookup_insert_eq. congruence.
      * rewrite lookup_insert_ne by done. apply H2; [congruence|done|done].
    + right. exists p. eexists. split_and!; [by apply others_insert|apply lookup_insert_eq|done|cbn; lia|done].
  - destruct H as [H0 Hn]. rewrite H0. split_and!; [done|done|]. left. rewrite Hn. apply others_refl.
Qed.

(** ngx_http_limit_req_account on one limit *)
Lemma charge_ok l l' : passed l l' ->
  match l_node l' with
  | None => was_charged l l'
  | Some p => exists ex z, account_node now (l_rate l') p (l_zone l') = Some (ex, z) /\ was_charged l (set_zone z None l')
  end.
Proof.
  intros (Hz & _ & H). unfold was_charged. destruct (keyed l) as [k|] eqn:Hk.
  - destruct H as (p & lr' & -> & Ho & Hlr & Hd & Hc & Hcase). unfold account_node. change (nodes (l_zone l')) with (lnodes l').
    rewrite Hlr. cbn [mbind option_bind]. do 2 eexists. split; [done|]. cbn [lr_count set_bucket]. rewrite wrap_small by (unfold in_u; lia).
    split_and!; [by eapply set_node_zone|done|]. unfold charged_to, lnodes. cbn [set_zone l_zone nodes l_rate]. fold (lnodes l) (lnodes l').
    exists p. eexists. split_and!; [by apply others_insert|apply lookup_insert_eq|done|].
    destruct Hcase as [(lr & Hlr0 & ->)|(He & Hl & Hone & Hnew)].
    + left. exists lr. split_and!; try done. cbn. lia.
    + right. cbn. rewrite He, Hl, Hone. split_and!; [| |lia|done]; unfold charged.
      all: set (x := u64 _); pose proof (wrap_range 64 (l_rate l' * elapsed now 0) ltac:(lia)) as Hx; fold x in Hx; unfold in_u in Hx.
      all: assert (0 <= x / 1000 < 2 ^ 63) by zlia; rewrite i64_small by lia; destruct (Z.ltb_spec (0 - x / 1000 + 1000) 0); lia.
  - destruct H as [H0 Hn]. rewrite H0. by split_and!.
Qed.

Lemma keyed_usable (l : limit A) k : keyed l = Some k -> key_value l = Some k /\ usable k = true.
Proof. unfold keyed. destruct (key_value l) as [k'|]; cbn; [|done]. destruct (usable k') eqn:E; [by intros [= ->]|done]. Qed.

(** The lookup in one limit *)
Lemma lookup_limit l k r account :
  limit_ok l -> keyed l = Some k -> rate_of l = Some r -> exists rc ex node z,
  ngx_http_limit_req_lookup debug (l_sh l) now r (l_burst l) (ngx_crc32_short k) k account (l_zone l) = Some (rc, ex, node, z) /\
  let l' := set_zone z (match node with Some p => Some p | None => l_node l end) (set_rate r l) in
  (rc = NGX_AGAIN /\ account = false /\ passed l l') \/ (rc = NGX_OK /\ account = true /\ was_charged l l')
  \/ ((rc = NGX_BUSY \/ rc = NGX_ERROR) /\ released l l').
Proof.
  intros [(es & q & Hz) Hnode Hcount] Hk Hr. pose proof (keyed_usable _ _ Hk) as [_ Hu].
  unfold usable in Hu. apply andb_prop in Hu as [_ Hu]. rewrite Z.gtb_ltb in Hu. zbool.
  destruct (lookup_ok debug _ now r (l_burst l) (ngx_crc32_short k) k account _ _ _ Hz Hu) as (rc & ex & node & z' & es' & q' & -> & Hz' & L).
  exists rc, ex, node, z'. split; [done|]. cbv zeta.
  assert (Hok : forall node, zone_ok (set_zone z' node (set_rate r l))) by (intros; by exists es', q').
  assert (Hexp : forall p ns, expired_to now r 0 (lnodes l) ns -> p ∉ dom ns -> forall lr, lnodes l !! p = Some lr -> lr_count lr = 0).
  { intros p ns [_ X] Hp lr Hlr. apply not_elem_of_dom in Hp. by destruct (X _ _ Hlr Hp). }
  destruct L as [p lr z' _ _ Hn|p lr z' (_ & Hlr & Hd) _ -> Hn|p lr z' (_ & Hlr & Hd) _ -> Hn|z' l' _ X _ _|p ns rc node z' l1 l' _ X _ Hpd _ _ _ -> -> Hn];
    cbn [negb].
  - right. right. split; [by left|]. split_and!; [done|done|]. left. unfold lnodes at 2. cbn. rewrite Hn. apply others_refl.
  - right. left. split_and!; try done. unfold was_charged. rewrite Hk. split_and!; [done|done|]. eexists p, _.
    unfold lnodes at 2 3. cbn [set_zone set_rate l_zone l_rate]. rewrite Hn.
    split_and!; [apply others_insert, others_refl|apply lookup_insert_eq|done|]. left. exists lr. by split_and!.
  - left. split_and!; try done. unfold passed. rewrite Hk. split_and!; [done|done|]. eexists p, _.
    unfold lnodes at 2 3. cbn [set_zone set_rate l_zone l_rate l_node]. rewrite Hn. specialize (Hcount _ _ Hlr).
    rewrite wrap_small by (unfold in_u; lia).
    split_and!; [done|apply others_insert, others_refl|apply lookup_insert_eq|done|cbn; lia|cbn; lia|]. left. by exists lr.
  - right. right. split; [by right|]. split_and!; [done|done|]. left. by eapply others_expired.
  - pose proof (others_weaken p _ _ (others_expired _ _ _ X)) as Ho. pose proof (Hexp _ _ X Hpd) as Hcnt. destruct account.
    + right. left. split_and!; try done. unfold was_charged. rewrite Hk. split_and!; [done|done|]. eexists p, _.
      unfold lnodes at 2 3. cbn [set_zone set_rate l_zone]. rewrite Hn.
      split_and!; [by apply others_insert|apply lookup_insert_eq|done|]. right. by split_and!.
    + left. split_and!; try done. unfold passed. rewrite Hk. split_and!; [done|done|]. eexists p, _.
      unfold lnodes at 2 3. cbn [set_zone set_rate l_zone l_node]. rewrite Hn.
      split_and!; [done|by apply others_insert|apply lookup_insert_eq|done|done|done|]. right. by split_and!.
Qed.

(** ** The loops over the limits *)

(** [R i] relates the limits with index [i] in two lists of the same length. *)
Definition pointwise (R : nat -> limit A -> limit A -> Prop) (ls ls' : list (limit A)) : Prop :=
  length ls' = length ls /\ forall i l, ls !! i = Some l -> exists l', ls' !! i = Some l' /\ R i l l'.

Lemma pointwise_at R ls ls' i : pointwise R ls ls' -> (i < length ls)%nat ->
  exists l l', ls !! i = Some l /\ ls' !! i = Some l' /\ R i l l'.
Proof. intros [_ H] Hi. apply lookup_lt_is_Some in Hi as [l Hl]. destruct (H _ _ Hl) as (l' & ? & ?). by exists l, l'. Qed.

Lemma pointwise_set (R R' : nat -> limit A -> limit A -> Prop) ls ls' n x :
  pointwise R ls ls' -> (forall i l l', i <> n -> R i l l' -> R' i l l') -> (forall l, ls !! n = Some l -> R' n l x) ->
  pointwise R' ls (<[n := x]> ls').
Proof.
  intros [Hlen H] Hne Heq. split; [by rewrite length_insert|]. intros i l Hl. destruct (H _ _ Hl) as (l' & Hl' & HR).
  destruct (decide (i = n)) as [->|Hi].
  - exists x. split; [apply list_lookup_insert_eq; by eapply lookup_lt_Some|by apply Heq].
  - exists l'. split; [by rewrite list_lookup_insert_ne by congruence|by apply Hne].
Qed.

Lemma pointwise_mono (R R' : nat -> limit A -> limit A -> Prop) ls ls' :
  (forall i l l', R i l l' -> R' i l l') -> pointwise R ls ls' -> pointwise R' ls ls'.
Proof. intros HR [Hlen H]. split; [done|]. intros i l Hl. destruct (H _ _ Hl) as (l' & ? & ?). eauto. Qed.

(** The first [n] limits have been passed; [R] holds of the others. *)
Definition upto (n : nat) (P R : limit A -> limit A -> Prop) (i : nat) (l l' : limit A) : Prop :=
  if decide (i < n)%nat then P l l' else R l l'.

Lemma unlock_ok R ls : (forall l l', R l l' -> released l l') -> forall n ls',
  (n <= length ls)%nat -> pointwise (upto n passed R) ls ls' ->
  exists ls2, ngx_http_limit_req_unlock n ls' = Some ls2 /\ pointwise (fun _ => released) ls ls2.
Proof.
  intros HR n. revert R HR. induction n as [|n IH]; intros R HR ls' Hn H.
  - exists ls'. split; [done|]. eapply pointwise_mono; [|exact H]. intros i l l' Hl. unfold upto in Hl.
    destruct (decide (i < 0)%nat); [lia|auto].
  - destruct (pointwise_at _ _ _ n H ltac:(lia)) as (l & l' & Hl & Hl' & Hp). cbn. rewrite Hl'. cbn [mbind option_bind].
    unfold upto in Hp. rewrite decide_True in Hp by lia. pose proof (release_limit_ok _ _ Hp) as Hrel.
    assert (Hnext : forall x, released l x -> pointwise (upto n passed released) ls (<[n := x]> ls')).
    { intros x Hx. eapply pointwise_set; [exact H| |].
      - intros i y y' Hi. unfold upto. destruct (decide (i < S n)%nat), (decide (i < n)%nat); try lia; auto.
      - intros y Hy. unfold upto. rewrite decide_False by lia. congruence. }
    destruct (l_node l') as [p|].
    + destruct Hrel as (z & -> & Hrel). cbn [mbind option_bind]. apply (IH released); [done|lia|auto].
    + apply (IH released); [done|lia|]. specialize (Hnext _ Hrel). by rewrite list_insert_id in Hnext.
Qed.

(** The charge of the passed limits; a division by zero needs a rate of zero. *)
Lemma account_ok ls : forall n ls' max ep,
  (n <= length ls)%nat -> (forall i l, ls' !! i = Some l -> l_rate l = 0 -> zero_rate ls) -> pointwise (upto n passed was_charged) ls ls' ->
  match account_loop now n max ep ls' with
  | Some (_, _, ls2) => pointwise (fun _ => was_charged) ls ls2
  | None => zero_rate ls
  end.
Proof.
  induction n as [|n IH]; intros ls' max ep Hn Hrate H.
  - cbn. eapply pointwise_mono; [|exact H]. intros i l l' Hl. unfold upto in Hl.
    destruct (decide (i < 0)%nat); [lia|done].
  - destruct (pointwise_at _ _ _ n H ltac:(lia)) as (l & l' & Hl & Hl' & Hp). cbn [account_loop]. rewrite Hl'. cbn [mbind option_bind].
    unfold upto in Hp. rewrite decide_True in Hp by lia. pose proof (charge_ok _ _ Hp) as Hch.
    assert (Hnext : forall x, was_charged l x -> pointwise (upto n passed was_charged) ls (<[n := x]> ls')).
    { intros x Hx. eapply pointwise_set; [exact H| |].
      - intros i y y' Hi. unfold upto. destruct (decide (i < S n)%nat), (decide (i < n)%nat); try lia; auto.
      - intros y Hy. unfold upto. rewrite decide_False by lia. congruence. }
    destruct (l_node l') as [p|].
    + destruct Hch as (ex & z & -> & Hch). cbn [mbind option_bind]. specialize (Hnext _ Hch).
      assert (Hrate' : forall i x, <[n := set_zone z None l']> ls' !! i = Some x -> l_rate x = 0 -> zero_rate ls).
      { intros i x Hx. apply list_lookup_insert_Some in Hx as [(_ & <- & _)|[_ Hx]]; [cbn|]; by eapply Hrate. }
      destruct (ex <=? l_delay l'); [apply IH; [lia|done|done]|].
      unfold delay_of. destruct (Z.eqb_spec (l_rate l') 0) as [E|_]; [by apply (Hrate _ _ Hl')|]. cbn [mbind option_bind].
      destruct (_ >? max); apply IH; (lia || done).
    + specialize (Hnext _ Hch). rewrite list_insert_id in Hnext by done. apply IH; (lia || done).
Qed.

Lemma released_refl l r : limit_ok l -> released l (set_rate r l).
Proof. intros [Hz Hn _]. split_and!; [exact Hz|exact Hn|]. left. apply others_refl. Qed.

(** A limit that the loop has not reached. *)
Definition untouched (l l' : limit A) : Prop := l' = l /\ limit_ok l.

Lemma untouched_released l l' : untouched l l' -> released l l'.
Proof. intros [-> [Hz Hn _]]. split_and!; [exact Hz|exact Hn|]. left. apply others_refl. Qed.

(** Passed without a lookup. *)
Definition skipped (l l' : limit A) : Prop := passed l l' /\ l_node l' = None.

Lemma skipped_released l l' : skipped l l' -> released l l'.
Proof. intros [H E]. apply release_limit_ok in H. by rewrite E in H. Qed.

(** The return code before the limit [n] is looked at. *)
Definition before_limit (n : nat) (rc : Z) (ls ls' : list (limit A)) : Prop :=
  (rc = NGX_DECLINED /\ pointwise (upto n skipped untouched) ls ls') \/
  (rc = NGX_AGAIN /\ (0 < n)%nat /\ pointwise (upto n passed untouched) ls ls').

Lemma before_passed n rc ls ls' : before_limit n rc ls ls' -> pointwise (upto n passed untouched) ls ls'.
Proof.
  intros [[_ H]|(_ & _ & H)]; [|done]. eapply pointwise_mono; [|exact H]. intros i l l'. unfold upto.
  destruct (decide _); [by intros [? _]|done].
Qed.

(** One more limit, with or without a lookup. *)
Lemma upto_next P R ls ls' n x :
  pointwise (upto n P R) ls ls' -> (forall l, ls !! n = Some l -> P l x) -> pointwise (upto (S n) P R) ls (<[n := x]> ls').
Proof.
  intros H Hx. eapply pointwise_set; [exact H| |].
  - intros i l l' Hi. unfold upto. destruct (decide (i < n)%nat), (decide (i < S n)%nat); try lia; auto.
  - intros l Hl. unfold upto. rewrite decide_True by lia. auto.
Qed.

Lemma upto_last P R Q ls ls' n x :
  (forall l l', R l l' -> Q l l') ->
  pointwise (upto n P R) ls ls' -> (forall l, ls !! n = Some l -> Q l x) -> pointwise (upto n P Q) ls (<[n := x]> ls').
Proof.
  intros HR H Hx. eapply pointwise_set; [exact H| |].
  - intros i l l' Hi. unfold upto. destruct (decide (i < n)%nat); auto.
  - intros l Hl. unfold upto. rewrite decide_False by lia. auto.
Qed.

(** The rate of the limit [n] cannot be read: the limits before it stay reserved. *)
Definition rate_unread (ls ls' : list (limit A)) : Prop :=
  exists n l, ls !! n = Some l /\ rate_of l = None /\ pointwise (upto n passed untouched) ls ls'.

Definition loop_post (ls : list (limit A)) (e : loop_end (A := A)) : Prop :=
  match e with
  | Failed ls' => pointwise (fun _ => released) ls ls' \/ rate_unread ls ls'
  | Left n rc ex ls' =>
      (rc = NGX_DECLINED /\ pointwise (fun _ => released) ls ls') \/
      ((rc = NGX_BUSY \/ rc = NGX_ERROR) /\ (n < length ls)%nat /\ pointwise (upto n passed released) ls ls') \/
      (rc = NGX_OK /\ S n = length ls /\ pointwise (upto n passed (fun l l' => was_charged l l' /\ rate_of l = Some (l_rate l'))) ls ls') \/
      (rc = NGX_AGAIN /\ n = length ls /\ (0 < n)%nat /\ pointwise (fun _ => passed) ls ls')
  end.

Lemma keyed_none (l : limit A) k : key_value l = Some k -> usable k = false -> keyed l = None.
Proof. intros E Hu. unfold keyed. rewrite E. cbn. by rewrite Hu. Qed.

Lemma limits_loop_ok ls fuel : forall n rc ex ls',
  (length ls < fuel + n)%nat -> (n <= length ls)%nat -> before_limit n rc ls ls' ->
  exists e, limits_loop debug now fuel n rc ex ls' = Some e /\ loop_post ls e.
Proof.
  induction fuel as [|fuel IH]; intros n rc ex ls' Hf Hn H; [lia|]. pose proof (before_passed _ _ _ _ H) as Hp.
  assert (Hlen : length ls' = length ls) by apply Hp. cbn [limits_loop]. rewrite Hlen.
  destruct (Nat.ltb_spec n (length ls)) as [Hlt|Hge].
  2:{ eexists. split; [done|]. assert (n = length ls) as -> by lia.
      assert (Hall : forall P R, pointwise (upto (length ls) P R) ls ls' -> pointwise (fun _ => P) ls ls').
      { intros P R [E HP]. split; [done|]. intros i l Hl. destruct (HP _ _ Hl) as (l' & Hl' & Hu). exists l'. split; [done|].
        unfold upto in Hu. rewrite decide_True in Hu; [done|by eapply lookup_lt_Some]. }
      destruct H as [[-> H]|(-> & Hpos & H)]; cbn.
      - left. split; [done|]. apply Hall in H. eapply pointwise_mono; [|exact H]. intros i. apply skipped_released.
      - right. right. right. split_and!; try done. by apply Hall in H. }
  destruct (pointwise_at _ _ _ n Hp Hlt) as (l & l' & Hl & Hl' & Hu). unfold upto in Hu. rewrite decide_False in Hu by lia.
  destruct Hu as [-> Hok]. rewrite Hl'. cbn [mbind option_bind]. change (ngx_http_limit_req_rate_value (rate_var l) (l_rate l)) with (rate_of l).
  destruct (rate_of l) as [r|] eqn:Hr; [|eexists; split; [done|]; right; by exists n, l]. cbn [set_rate key_value].
  destruct (key_value l) as [k|] eqn:Hk.
  2:{ destruct (unlock_ok released ls ltac:(done) n (<[n := set_rate r l]> ls')) as (ls2 & -> & H2); [lia| |].
      - eapply upto_last; [exact untouched_released|exact Hp|]. intros y Hy. assert (y = l) as -> by congruence. by apply released_refl.
      - cbn [mbind option_bind]. exists (Failed ls2). split; [done|by left]. }
  assert (Hskip : usable k = false -> before_limit (S n) rc ls (<[n := set_rate r l]> ls')).
  { intros Hus. assert (Hpx : forall y, ls !! n = Some y -> skipped y (set_rate r l)).
    { intros y Hy. assert (y = l) as -> by congruence. pose proof (lo_node _ Hok) as H0.
      split; [|done]. unfold passed. rewrite (keyed_none l k Hk Hus). split_and!; [apply (lo_zone _ Hok)|done|done|done]. }
    destruct H as [[-> H]|(-> & Hpos & H)]; [left|right]; split_and!; try done; try lia; apply upto_next; try done.
    intros y Hy. by apply Hpx. }
  destruct (length k =? 0)%nat eqn:Hk0.
  { apply IH; [lia|lia|]. apply Hskip. unfold usable. by rewrite Hk0. }
  destruct (Z.of_nat (length k) >? 65535) eqn:Hk1.
  { apply IH; [lia|lia|]. apply Hskip. unfold usable. by rewrite Hk1, andb_false_r. }
  assert (Hkey : keyed l = Some k) by (unfold keyed; rewrite Hk; cbn; unfold usable; by rewrite Hk0, Hk1).
  rewrite length_insert, Hlen.
  change (l_sh (set_rate r l)) with (l_sh l). change (l_burst (set_rate r l)) with (l_burst l).
  change (l_zone (set_rate r l)) with (l_zone l). change (l_node (set_rate r l)) with (l_node l).
  destruct (lookup_limit l k r (n =? length ls - 1)%nat Hok Hkey Hr) as (rc' & ex' & node & z & -> & Hcase).
  cbn [mbind option_bind]. rewrite list_insert_insert_eq. cbv zeta in Hcase.
  set (x := set_zone z _ _) in *. assert (Hx : forall y, ls !! n = Some y -> y = l) by congruence.
  destruct Hcase as [(-> & Hlast & Hpass)|[(-> & Hlast & Hch)|(Hrc & Hrel)]].
  - cbn. apply IH; [lia|lia|]. right. split_and!; [done|lia|]. apply upto_next; [done|]. intros y ->%Hx. done.
  - cbn. eexists. split; [done|]. right. right. left. apply Nat.eqb_eq in Hlast. split_and!; [done|lia|].
    split; [rewrite length_insert; done|]. intros i y Hy. destruct (decide (i = n)) as [->|Hne].
    + exists x. split; [apply list_lookup_insert_eq; lia|]. unfold upto. rewrite decide_False by lia. apply Hx in Hy as ->. done.
    + destruct (proj2 Hp _ _ Hy) as (y' & Hy' & Hu). exists y'. split; [by rewrite list_lookup_insert_ne by congruence|].
      apply lookup_lt_Some in Hy. unfold upto in *. rewrite decide_True in * by lia. done.
  - assert (negb (rc' =? NGX_AGAIN) = true) as -> by (destruct Hrc as [-> | ->]; done). eexists. split; [done|].
    right. left. split_and!; [done|done|]. eapply upto_last; [exact untouched_released|exact Hp|]. intros y ->%Hx. done.
Qed.

(** After the loop all limits are passed or charged, with the rates read. *)
Lemma ready_to_charge ls n rc ls' :
  (rc = NGX_OK /\ S n = length ls /\ pointwise (upto n passed (fun l l' => was_charged l l' /\ rate_of l = Some (l_rate l'))) ls ls') \/
  (rc = NGX_AGAIN /\ n = length ls /\ (0 < n)%nat /\ pointwise (fun _ => passed) ls ls') ->
  pointwise (upto n passed was_charged) ls ls' /\ (forall i l, ls' !! i = Some l -> l_rate l = 0 -> zero_rate ls) /\
  (n <= length ls)%nat /\ (0 < length ls)%nat /\ (rc = NGX_OK \/ rc = NGX_AGAIN).
Proof.
  intros Hrest.
  assert (Hgen : pointwise (upto n passed (fun l l' => was_charged l l' /\ rate_of l = Some (l_rate l'))) ls ls').
  { destruct Hrest as [(_ & _ & H)|(_ & -> & _ & [Hlen H])]; [done|]. split; [done|]. intros i l Hl.
    destruct (H _ _ Hl) as (l' & Hl' & Hu). exists l'. split; [done|]. unfold upto. by rewrite decide_True by (by eapply lookup_lt_Some). }
  assert (Hrates : forall i l, ls' !! i = Some l -> l_rate l = 0 -> zero_rate ls).
  { intros i l Hl Hl0. assert (Hi : (i < length ls)%nat) by (rewrite <- (proj1 Hgen); by eapply lookup_lt_Some).
    destruct (pointwise_at _ _ _ i Hgen Hi) as (y & y' & Hy & Hy' & Hu). rewrite Hl in Hy'. injection Hy' as <-.
    apply list.Exists_exists. exists y. split; [by eapply list_elem_of_lookup_2|]. rewrite <- Hl0.
    unfold upto in Hu. destruct (decide (i < n)%nat); [by destruct Hu as (_ & ? & _)|by destruct Hu]. }
  split_and!; [|exact Hrates|destruct Hrest as [(_ & ? & _)|(_ & ? & ? & _)]; lia..|destruct Hrest as [[-> _]|[-> _]]; auto].
  eapply pointwise_mono; [|exact Hgen]. intros i l l'. unfold upto. destruct (decide _); [done|by intros [? _]].
Qed.

End Proofs.

(** The request has been let through, at once or with a delay. *)
Definition let_through (status : Z) : bool :=
  (status =? NGX_HTTP_LIMIT_REQ_PASSED) || (status =? NGX_HTTP_LIMIT_REQ_DELAYED)
  || (status =? NGX_HTTP_LIMIT_REQ_DELAYED_DRY_RUN).

(** C30. The handler charges a request to all its limits or to none.  Over any number of
    limits, whatever the lookups answer, also when a zone is full or a key cannot be
    computed, no reservation is left and every reference count is what it was before: if
    the request is let through, at once or with a delay, it has been charged once to the
    bucket of its key in every zone for which it has a key; otherwise no bucket has
    changed.  There are two exceptions.  When the rate of a limit is a variable that
    cannot be read, the handler returns the status 500 from the middle of its loop, and
    the nodes of the limits before that one stay reserved ([rate_unread], with the limits
    from there on untouched).  And a division by zero is possible, but only when the rate
    of a limit is zero.  At the start the zones are well-formed, this worker has nothing
    reserved in them and no reference count is at its maximum ([limit_ok]). *)
Theorem limit_req_handler_balanced `{SL : SlabLaws A} (debug : bool) (now : Z) (lrcf : conf) (geo_var : option (list Z))
    (limits : list (limit A)) (Hlimits : Forall limit_ok limits) :
  match ngx_http_limit_req_handler debug now lrcf geo_var 0 limits with
  | None => zero_rate limits
  | Some (out, status, limits') =>
      (out = Status NGX_HTTP_INTERNAL_SERVER_ERROR /\ status = 0 /\ rate_unread limits limits') \/
      (pointwise (fun _ => if let_through status then was_charged now else released) limits limits' /\
       match out with Declined => True | Delay d => let_through status = true /\ d <> 0 | _ => let_through status = false end)
  end.
Proof.
  assert (Hstart : pointwise (upto 0 skipped untouched) limits limits).
  { split; [done|]. intros i l Hl. exists l. split; [done|]. unfold upto. rewrite decide_False by lia. split; [done|].
    rewrite list.Forall_forall in Hlimits. apply Hlimits. by eapply list_elem_of_lookup_2. }
  assert (Hnone : pointwise (fun _ => released) limits limits).
  { eapply pointwise_mono; [|exact Hstart]. intros i l l'. unfold upto. rewrite decide_False by lia. apply untouched_released. }
  unfold ngx_http_limit_req_handler. cbn [Z.eqb negb].
  destruct (negb (enable lrcf)); [by right|].
  destruct (_ =? NGX_OK); [by right|].
  destruct (limits_loop_ok debug now limits (S (length limits)) 0 NGX_DECLINED 0 limits) as (e & -> & He); [lia|lia|by left|].
  cbn [mbind option_bind]. destruct e as [ls'|n rc ex ls']; cbn in He; [destruct He; [by right|by left]|].
  destruct He as [[-> H]|[(Hrc & Hn & H)|Hrest]].
  - by right.
  - assert (E1 : rc =? NGX_DECLINED = false) by (by destruct Hrc as [-> | ->]).
    assert (E2 : (rc =? NGX_BUSY) || (rc =? NGX_ERROR) = true) by (by destruct Hrc as [-> | ->]). rewrite E1, E2.
    destruct (unlock_ok released limits ltac:(done) n ls' ltac:(lia) H) as (ls2 & -> & H2). cbn [mbind option_bind].
    destruct (dry_run lrcf); [by right|].
    assert (Hlen : length ls' = length limits) by apply H. rewrite Hlen, (proj2 (Nat.ltb_lt _ _) Hn).
    destruct (pointwise_at _ _ _ n H2 Hn) as (l & l' & _ & -> & _). cbn [mbind option_bind].
    destruct ((rc =? NGX_ERROR) || (length (forbid_action l') =? 0)%nat); by right.
  - destruct (ready_to_charge _ _ _ _ _ Hrest) as (H & Hrate & Hn & Hpos & Hrc).
    assert (Hlen : length ls' = length limits) by apply H.
    assert (E1 : rc =? NGX_DECLINED = false) by (by destruct Hrc as [-> | ->]).
    assert (E2 : (rc =? NGX_BUSY) || (rc =? NGX_ERROR) = false) by (by destruct Hrc as [-> | ->]). rewrite E1, E2.
    set (cur := if (n <? length ls')%nat then n else (length ls' - 1)%nat). assert (Hcur : (cur < length limits)%nat).
    { unfold cur. rewrite Hlen. destruct (Nat.ltb_spec n (length limits)); lia. }
    set (ex' := if rc =? NGX_AGAIN then 0 else ex). unfold ngx_http_limit_req_account.
    destruct (ls' !! cur) as [lc|] eqn:Hlc; [|apply lookup_ge_None in Hlc; lia]. cbn [mbind option_bind].
    destruct (if ex' <=? l_delay lc then Some 0 else delay_of ex' (l_delay lc) (l_rate lc)) as [max|] eqn:Hmax.
    2:{ destruct (ex' <=? l_delay lc); [done|]. unfold delay_of in Hmax. destruct (Z.eqb_spec (l_rate lc) 0) as [E|_]; [by apply (Hrate _ _ Hlc)|done]. }
    cbn [mbind option_bind]. pose proof (account_ok now limits n ls' max ex' Hn Hrate H) as H2.
    destruct (account_loop now n max ex' ls') as [[[max' ep'] ls2]|]; [|done]. cbn [mbind option_bind].
    destruct (Z.eqb_spec max' 0) as [->|Hd]; [by right|]. destruct (dry_run lrcf); by right.
Qed.

(** ** Examples *)

Definition demo_conf : conf := Conf true None false 503.
Definition demo_limit (rate_var : option (option (list Z))) (key_value : option (list Z)) : limit (gset nat) :=
  Limit 2000 0 [] 1 demo_zone 1000 None rate_var key_value.

Lemma demo_limit_ok v k : limit_ok (demo_limit v k).
Proof.
  constructor; [|done|done].
  apply (si_zone _ _ (init_sinv 1 ({[1%nat]} : gset nat) ltac:(by_evaluation))).
Qed.

(** Two limits, by address and by host; when the rate of the second cannot be read, the
    first stays reserved. *)
Lemma limit_req_handler_balanced_witness :
  (let limits := [demo_limit None (Some str("10.0.0.1")); demo_limit None (Some str("example.org"))] in
   exists out status limits', ngx_http_limit_req_handler false 5000 demo_conf None 0 limits = Some (out, status, limits')
     /\ pointwise (fun _ => if let_through status then was_charged 5000 else released) limits limits') /\
  (let limits := [demo_limit None (Some str("10.0.0.1")); demo_limit (Some None) (Some str("example.org"))] in
   exists status limits', ngx_http_limit_req_handler false 5000 demo_conf None 0 limits = Some (Status 500, status, limits')
     /\ rate_unread limits limits').
Proof.
  split; intros limits; (assert (Hok : Forall limit_ok limits) by (do 2 (apply Forall_cons; [apply demo_limit_ok|]); constructor)).
  - pose proof (limit_req_handler_balanced false 5000 demo_conf None limits Hok) as H.
    destruct (ngx_http_limit_req_handler false 5000 demo_conf None 0 limits) as [[[out st] ls]|] eqn:E; [|vm_compute in E; discriminate].
    exists out, st, ls. split; [done|]. destruct H as [(-> & _)|[H _]]; [vm_compute in E; discriminate|done].
  - pose proof (limit_req_handler_balanced false 5000 demo_conf None limits Hok) as H.
    destruct (ngx_http_limit_req_handler false 5000 demo_conf None 0 limits) as [[[out st] ls]|] eqn:E; [|vm_compute in E; discriminate].
    assert (out = Status 500) as -> by (vm_compute in E; congruence).
    exists st, ls. split; [done|]. destruct H as [(_ & _ & H)|[[_ H] _]]; [done|].
    destruct (H 0%nat _ eq_refl) as (l' & Hl' & Hr). exfalso. revert Hr.
    assert (Hs : let_through st = false /\ l_node <$> ls !! 0%nat = Some (Some 2%nat)) by (vm_compute in E; injection E as <- <-; done).
    destruct Hs as [-> Hs]. rewrite Hl' in Hs. injection Hs as Hs. intros (_ & Hn & _). congruence.
Defined.

(** What the first exception leads to: when the rate of the second limit cannot be read,
    the handler returns and the node of the first zone stays reserved; the next request,
    for which the rate can be read, overwrites the pointer to it, and the reference count
    stays one.  Such a node is never removed. *)
Example rate_error_keeps_reservation :
  let first := demo_limit None (Some str("10.0.0.1")) in
  let second v := demo_limit (Some v) (Some str("example.org")) in
  (r ← ngx_http_limit_req_handler false 5000 demo_conf None 0 [first; second None];
   let '(out1, _, ls1) := r in
   l ← ls1 !! 0%nat;
   r ← ngx_http_limit_req_handler false 9000 demo_conf None 0
         [Limit (l_burst l) (l_delay l) [] (l_sh l) (l_zone l) (l_rate l) (l_node l) None (Some str("10.0.0.1"));
          second (Some str("1r/s"))];
   let '(out2, st2, ls2) := r in
   l2 ← ls2 !! 0%nat;
   lr ← lnodes l2 !! 2%nat;
   Some (out1, l_node l, out2, st2, l_node l2, lr_count lr))
  = Some (Status 500, Some 2%nat, Declined, NGX_HTTP_LIMIT_REQ_PASSED, None, 1).
Proof. vm_compute. reflexivity. Qed.

(** The test for an error of ngx_atoi is on an unsigned number, and the product with 1000
    wraps: a rate that is no number is taken as a very high one, and a rate of zero, by
    which the delay is divided, is possible. *)
Example rate_value_ex :
  ngx_http_limit_req_rate_value (Some (Some str("manyr/s"))) 1000 = Some (2 ^ 64 - 1000)
  /\ ngx_http_limit_req_rate_value (Some (Some str("2305843009213693952r/s"))) 1000 = Some 0
  /\ ngx_http_limit_req_rate_value (Some (Some str("30r/m"))) 1000 = Some 500.
Proof. vm_compute. auto. Qed.

(** The second exception: with that rate the delay of a second request is divided by zero. *)
Example zero_rate_ex :
  let l0 := demo_limit (Some (Some str("2305843009213693952r/s"))) (Some str("10.0.0.1")) in
  ('(out, status, ls) ← ngx_http_limit_req_handler false 5000 demo_conf None 0 [l0];
   Some (out, status, ngx_http_limit_req_handler false 5000 demo_conf None 0 ls))
  = Some (Declined, NGX_HTTP_LIMIT_REQ_PASSED, None).
Proof. vm_compute. reflexivity. Qed.

End LimitReqHandler.
