(* ===== verification/Slab.v ===== *)
(** * The slab allocator of shared memory: src/core/ngx_slab.c, ngx_slab.h

    A pool is an array of page descriptors and the pages they describe.  Free pages are
    in runs, which are linked in the list [free]; a page that serves small pieces is cut
    into chunks of one size, with a bit for each chunk, and is in the list of its size
    (the "slot") while it has a free chunk.  The descriptors [slab], [next] and [prev]
    mean different things for free runs, allocated runs and pages of chunks; the two low
    bits of prev tell them apart.

    A pointer to a descriptor is one of [ptr]; prev is the pointer and the type in its
    low bits.  An access to a descriptor outside of the pool has no result.  Addresses
    are relative to pool->start.  Platform: pages of 4096 bytes, 64 bits; min_shift is 3,
    as ngx_init_zone_pool sets it. *)

From stdpp Require Import functions.
From S2P Require Import Prelude.

Module Slab.

Inductive ptr := Null | Free | Slot (i : nat) | Page (i : nat).

#[global] Instance ptr_eq_dec : EqDecision ptr.
Proof. solve_decision. Defined.

Definition NGX_SLAB_PAGE : Z := 0.
Definition NGX_SLAB_BIG : Z := 1.
Definition NGX_SLAB_EXACT : Z := 2.
Definition NGX_SLAB_SMALL : Z := 3.
Definition NGX_SLAB_PAGE_FREE : Z := 0.
Definition NGX_SLAB_PAGE_BUSY : Z := 0xffffffffffffffff.
Definition NGX_SLAB_PAGE_START : Z := 0x8000000000000000.
Definition NGX_SLAB_SHIFT_MASK : Z := 0xf.
Definition NGX_SLAB_MAP_MASK : Z := 0xffffffff00000000.
Definition NGX_SLAB_MAP_SHIFT : Z := 32.
Definition NGX_SLAB_BUSY : Z := 0xffffffffffffffff.

Definition ngx_pagesize : Z := 4096.
Definition ngx_pagesize_shift : Z := 12.
Definition min_shift : nat := 3.
Definition min_size : Z := 8.

(** ngx_slab_sizes_init *)
Definition ngx_slab_max_size : Z := ngx_pagesize / 2.
Definition ngx_slab_exact_size : Z := ngx_pagesize / (8 * 8).
Fixpoint count_shift (fuel : nat) (n : Z) (shift : nat) : nat :=
  match fuel with
  | O => shift
  | S fuel => let n := Z.shiftr n 1 in if n =? 0 then shift else count_shift fuel n (S shift)
  end.
Definition ngx_slab_exact_shift : nat := count_shift 64 ngx_slab_exact_size 0.

(** ngx_slab_page_t *)
Record node := Node { slab : Z; next : ptr; prev : ptr; ptype : Z }.

Definition set_slab (v : Z) (n : node) : node := Node v (next n) (prev n) (ptype n).
Definition set_next (p : ptr) (n : node) : node := Node (slab n) p (prev n) (ptype n).
Definition set_prev (p : ptr) (t : Z) (n : node) : node := Node (slab n) (next n) p t.
Definition zero_node : node := Node 0 Null Null 0.

(** ngx_slab_stat_t *)
Record stat := Stat { total : Z; used : Z; reqs : Z; fails : Z }.

(** ngx_slab_pool_t: [npages] is last - pages, [limit] is end - start; the descriptors,
    and for pages of small chunks the bitmap at the beginning of the page. *)
Record pool := Pool {
  npages : nat; limit : Z;
  mem : ptr -> node; bitmap : nat -> list Z;
  pfree : Z; stats : nat -> stat
}.

Definition nslots : nat := 9.

Definition valid (s : pool) (p : ptr) : bool :=
  match p with Null => false | Free => true | Slot i => (i <? nslots)%nat | Page i => (i <? npages s)%nat end.

Definition rd (p : ptr) (s : pool) : option node := if valid s p then Some (mem s p) else None.
Definition set_mem (m : ptr -> node) (s : pool) : pool := Pool (npages s) (limit s) m (bitmap s) (pfree s) (stats s).
Definition wr (p : ptr) (f : node -> node) (s : pool) : option pool :=
  if valid s p then Some (set_mem (alter f p (mem s)) s) else None.
Definition set_bitmap (i : nat) (w : list Z) (s : pool) : pool :=
  Pool (npages s) (limit s) (mem s) (<[i := w]> (bitmap s)) (pfree s) (stats s).
Definition set_pfree (v : Z) (s : pool) : pool := Pool (npages s) (limit s) (mem s) (bitmap s) v (stats s).
Definition set_stat (i : nat) (f : stat -> stat) (s : pool) : pool :=
  Pool (npages s) (limit s) (mem s) (bitmap s) (pfree s) (alter f i (stats s)).

Definition inc_reqs (t : stat) : stat := Stat (total t) (used t) (u64 (reqs t + 1)) (fails t).
Definition inc_fails (t : stat) : stat := Stat (total t) (used t) (reqs t) (u64 (fails t + 1)).
Definition add_used (d : Z) (t : stat) : stat := Stat (total t) (u64 (used t + d)) (reqs t) (fails t).
Definition add_total (d : Z) (t : stat) : stat := Stat (u64 (total t + d)) (used t) (reqs t) (fails t).

(** ** Lists of pages *)

(** prev = ngx_slab_page_prev(page); prev->next = page->next; page->next->prev = page->prev; *)
Definition unlink (p : ptr) (s : pool) : option pool :=
  n ← rd p s;
  s ← wr (prev n) (set_next (next n)) s;
  n ← rd p s;
  wr (next n) (set_prev (prev n) (ptype n)) s.

(** The same descriptor in [k] pages from [i] on *)
Fixpoint fill (k i : nat) (v : node) (s : pool) : option pool :=
  match k with
  | O => Some s
  | S k => s ← wr (Page i) (fun _ => v) s; fill k (S i) v s
  end.

(** ** ngx_slab_alloc_pages *)

(** The first run of the free list with enough pages. *)
Fixpoint find_run (fuel : nat) (page : ptr) (pages : Z) (s : pool) : option (option nat) :=
  match fuel with
  | O => None
  | S fuel =>
      match page with
      | Free => Some None
      | Page i =>
          n ← rd page s;
          if slab n >=? pages then Some (Some i) else find_run fuel (next n) pages s
      | _ => None
      end
  end.

(** (ngx_slab_page_t * ) page->prev, which must be aligned *)
Definition cast_prev (n : node) : option ptr := if ptype n =? 0 then Some (prev n) else None.

Definition take_run (i : nat) (pages : Z) (s : pool) : option pool :=
  n ← rd (Page i) s;
  p ← cast_prev n;
  let rest := (i + Z.to_nat pages)%nat in
  s ← (if slab n >? pages then
         s ← wr (Page (i + Z.to_nat (slab n) - 1)) (set_prev (Page rest) 0) s;
         s ← wr (Page rest) (fun _ => Node (slab n - pages) (next n) (prev n) (ptype n)) s;
         s ← wr p (set_next (Page rest)) s;
         wr (next n) (set_prev (Page rest) 0) s
       else
         s ← wr p (set_next (next n)) s;
         wr (next n) (set_prev (prev n) (ptype n)) s);
  s ← wr (Page i) (fun _ => Node (Z.lor pages NGX_SLAB_PAGE_START) Null Null NGX_SLAB_PAGE) s;
  let s := set_pfree (u64 (pfree s - pages)) s in
  fill (Z.to_nat pages - 1) (S i) (Node NGX_SLAB_PAGE_BUSY Null Null NGX_SLAB_PAGE) s.

Definition ngx_slab_alloc_pages (pages : Z) (s : pool) : option (option nat * pool) :=
  h ← rd Free s;
  r ← find_run (S (npages s)) (next h) pages s;
  match r with
  | None => Some (None, s)
  | Some i => s ← take_run i pages s; Some (Some i, s)
  end.

(** ** ngx_slab_free_pages *)

(** Join the run that follows: the new value of pages. *)
Definition join_next (i : nat) (pages : Z) (s : pool) : option (Z * pool) :=
  n ← rd (Page i) s;
  let j := (i + Z.to_nat (slab n))%nat in
  if (j <? npages s)%nat then
    jn ← rd (Page j) s;
    if (ptype jn =? NGX_SLAB_PAGE) && negb (bool_decide (next jn = Null)) then
      s ← wr (Page i) (set_slab (slab n + slab jn)) s;
      s ← unlink (Page j) s;
      s ← wr (Page j) (fun _ => Node NGX_SLAB_PAGE_FREE Null Null NGX_SLAB_PAGE) s;
      Some (pages + slab jn, s)
    else Some (pages, s)
  else Some (pages, s).

(** Join the run in front: the new page and pages. *)
Definition join_prev (i : nat) (pages : Z) (s : pool) : option (nat * Z * pool) :=
  if (0 <? i)%nat then
    jn ← rd (Page (i - 1)) s;
    if ptype jn =? NGX_SLAB_PAGE then
      j ← (if slab jn =? NGX_SLAB_PAGE_FREE then match prev jn with Page j => Some j | _ => None end else Some (i - 1)%nat);
      jn ← rd (Page j) s;
      if negb (bool_decide (next jn = Null)) then
        n ← rd (Page i) s;
        s ← wr (Page j) (set_slab (slab jn + slab n)) s;
        s ← unlink (Page j) s;
        s ← wr (Page i) (fun _ => Node NGX_SLAB_PAGE_FREE Null Null NGX_SLAB_PAGE) s;
        Some (j, pages + slab jn, s)
      else Some (i, pages, s)
    else Some (i, pages, s)
  else Some (i, pages, s).

(** The end of ngx_slab_free_pages: the run becomes the first of the free list. *)
Definition push_run (i : nat) (pages : Z) (s : pool) : option pool :=
  s ← (if negb (pages =? 0) then wr (Page (i + Z.to_nat pages)) (set_prev (Page i) 0) s else Some s);
  h ← rd Free s;
  s ← wr (Page i) (fun n => Node (slab n) (next h) Free 0) s;
  s ← wr (next h) (set_prev (Page i) 0) s;
  wr Free (set_next (Page i)) s.

(** The beginning: the descriptors are cleared; a page of chunks leaves its list. *)
Definition clear_run (i : nat) (pages : Z) (s : pool) : option pool :=
  let s := set_pfree (u64 (pfree s + pages)) s in
  s ← wr (Page i) (set_slab pages) s;
  s ← fill (Z.to_nat (pages - 1)) (S i) zero_node s;
  n ← rd (Page i) s;
  if negb (bool_decide (next n = Null)) then unlink (Page i) s else Some s.

Definition ngx_slab_free_pages (i : nat) (pages : Z) (s : pool) : option pool :=
  s ← clear_run i pages s;
  '(pages, s) ← join_next i (pages - 1) s;
  '(i, pages, s) ← join_prev i pages s;
  push_run i pages s.

(** ** ngx_slab_alloc_locked *)

(** The position of the first zero among the bits [i] to [i + fuel - 1] *)
Fixpoint first_zero (fuel : nat) (i : nat) (w : Z) : option nat :=
  match fuel with
  | O => None
  | S fuel => if Z.testbit w (Z.of_nat i) then first_zero fuel (S i) w else Some i
  end.

Definition nchunks (shift : nat) : nat := Z.to_nat (Z.shiftr ngx_pagesize (Z.of_nat shift)).

(** Words of a bitmap, and chunks that it takes. *)
Definition map_words (shift : nat) : nat := (nchunks shift / 64)%nat.
Definition map_chunks (shift : nat) : nat :=
  let n := (nchunks shift / (2 ^ shift * 8))%nat in if (n =? 0)%nat then 1%nat else n.

(** A page without a free chunk leaves its list. *)
Definition leave_list (i : nat) (type : Z) (s : pool) : option pool :=
  s ← unlink (Page i) s;
  wr (Page i) (fun n => Node (slab n) Null Null type) s.

(** The first word of a bitmap with a zero bit, from the word [n] on *)
Fixpoint find_word (n : nat) (words : list Z) : option (nat * Z) :=
  match words with
  | [] => None
  | w :: words => if negb (w =? NGX_SLAB_BUSY) then Some (n, w) else find_word (S n) words
  end.

(** The branches for a page with a free chunk: the chunk taken.  [None] inside stands for
    the error "page is busy". *)
Definition take_small (i : nat) (s : pool) : option (option (nat * pool)) :=
  let words := bitmap s i in
  match find_word 0 words with
  | None => Some None
  | Some (n, w) =>
      match first_zero 64 0 w with
      | None => Some None
      | Some b =>
          let w := Z.lor w (Z.shiftl 1 (Z.of_nat b)) in
          let words := <[n := w]> words in
          let s := set_bitmap i words s in
          s ← (if (w =? NGX_SLAB_BUSY) && forallb (Z.eqb NGX_SLAB_BUSY) (drop (S n) words)
               then leave_list i NGX_SLAB_SMALL s else Some s);
          Some (Some ((n * 64 + b)%nat, s))
      end
  end.

Definition take_exact (i : nat) (s : pool) : option (option (nat * pool)) :=
  p ← rd (Page i) s;
  match first_zero 64 0 (slab p) with
  | None => Some None
  | Some b =>
      let v := Z.lor (slab p) (Z.shiftl 1 (Z.of_nat b)) in
      s ← wr (Page i) (set_slab v) s;
      s ← (if v =? NGX_SLAB_BUSY then leave_list i NGX_SLAB_EXACT s else Some s);
      Some (Some (b, s))
  end.

Definition take_big (i shift : nat) (s : pool) : option (option (nat * pool)) :=
  p ← rd (Page i) s;
  let mask := Z.shiftl (Z.shiftl 1 (Z.of_nat (nchunks shift)) - 1) NGX_SLAB_MAP_SHIFT in
  match first_zero (nchunks shift) 32 (slab p) with
  | None => Some None
  | Some b =>
      let v := Z.lor (slab p) (Z.shiftl 1 (Z.of_nat b)) in
      s ← wr (Page i) (set_slab v) s;
      s ← (if Z.land v NGX_SLAB_MAP_MASK =? mask then leave_list i NGX_SLAB_BIG s else Some s);
      Some (Some ((b - 32)%nat, s))
  end.

Definition take_from_page (i shift : nat) (s : pool) : option (option (nat * pool)) :=
  if (shift <? ngx_slab_exact_shift)%nat then take_small i s
  else if (shift =? ngx_slab_exact_shift)%nat then take_exact i s
  else take_big i shift s.

(** A new page of chunks: the bits of the bitmap itself and of the chunk requested. *)
Definition small_words (shift : nat) : list Z :=
  let n := map_chunks shift in
  let k := (S n / 64)%nat in
  replicate k NGX_SLAB_BUSY ++ (Z.shiftl 1 (Z.of_nat (S n mod 64)) - 1) :: replicate (map_words shift - k - 1) 0.

(** The new page is the only one of its list. *)
Definition start_list (i slot : nat) (v type : Z) (s : pool) : option pool :=
  s ← wr (Page i) (fun _ => Node v (Slot slot) (Slot slot) type) s;
  wr (Slot slot) (set_next (Page i)) s.

Definition new_page (i shift : nat) (s : pool) : option (nat * pool) :=
  let slot := (shift - min_shift)%nat in
  if (shift <? ngx_slab_exact_shift)%nat then
    let s := set_bitmap i (small_words shift) s in
    s ← start_list i slot (Z.of_nat shift) NGX_SLAB_SMALL s;
    Some (map_chunks shift, set_stat slot (add_total (Z.of_nat (nchunks shift - map_chunks shift))) s)
  else if (shift =? ngx_slab_exact_shift)%nat then
    s ← start_list i slot 1 NGX_SLAB_EXACT s;
    Some (0%nat, set_stat slot (add_total 64) s)
  else
    s ← start_list i slot (Z.lor (Z.shiftl 1 NGX_SLAB_MAP_SHIFT) (Z.of_nat shift)) NGX_SLAB_BIG s;
    Some (0%nat, set_stat slot (add_total (Z.of_nat (nchunks shift))) s).

Definition page_addr (i : nat) : Z := Z.shiftl (Z.of_nat i) ngx_pagesize_shift.
Definition chunk_addr (i j shift : nat) : Z := page_addr i + Z.shiftl (Z.of_nat j) (Z.of_nat shift).

Definition shift_of (size : Z) : nat :=
  if size >? min_size then count_shift 64 (size - 1) 1 else min_shift.

(** The part behind the error: a page is taken for the size. *)
Definition alloc_new_page (shift : nat) (s : pool) : option (option Z * pool) :=
  let slot := (shift - min_shift)%nat in
  '(page, s) ← ngx_slab_alloc_pages 1 s;
  match page with
  | Some i =>
      '(j, s) ← new_page i shift s;
      Some (Some (chunk_addr i j shift), set_stat slot (add_used 1) s)
  | None => Some (None, set_stat slot inc_fails s)
  end.

(** The address returned, [None] for NULL *)
Definition ngx_slab_alloc_locked (size : Z) (s : pool) : option (option Z * pool) :=
  if size >? ngx_slab_max_size then
    '(page, s) ← ngx_slab_alloc_pages (Z.shiftr size ngx_pagesize_shift + if size mod ngx_pagesize =? 0 then 0 else 1) s;
    Some (option_map page_addr page, s)
  else
    let shift := shift_of size in
    let slot := (shift - min_shift)%nat in
    let s := set_stat slot inc_reqs s in
    h ← rd (Slot slot) s;
    p ← rd (next h) s;
    if negb (bool_decide (next p = next h)) then
      match next h with
      | Page i =>
          r ← take_from_page i shift s;
          match r with
          | Some (j, s) => Some (Some (chunk_addr i j shift), set_stat slot (add_used 1) s)
          | None => alloc_new_page shift s
          end
      | _ => None
      end
    else alloc_new_page shift s.

(** ** ngx_slab_free_locked *)

(** A page that was full is put back into its list. *)
Definition enter_list (i slot : nat) (type : Z) (s : pool) : option pool :=
  h ← rd (Slot slot) s;
  s ← wr (Page i) (fun n => Node (slab n) (next h) (Slot slot) type) s;
  s ← wr (Slot slot) (set_next (Page i)) s;
  wr (next h) (set_prev (Page i) type) s.

Definition free_small (i : nat) (p : Z) (s : pool) : option pool :=
  n ← rd (Page i) s;
  let shift := Z.to_nat (Z.land (slab n) NGX_SLAB_SHIFT_MASK) in
  if negb (Z.land p (Z.shiftl 1 (Z.of_nat shift) - 1) =? 0) then Some s
  else
    let j := Z.to_nat (Z.shiftr (Z.land p (ngx_pagesize - 1)) (Z.of_nat shift)) in
    let b := Z.shiftl 1 (Z.of_nat (j mod 64)) in
    w ← bitmap s i !! (j / 64)%nat;
    if Z.land w b =? 0 then Some s
    else
      let slot := (shift - min_shift)%nat in
      s ← (if bool_decide (next n = Null) then enter_list i slot NGX_SLAB_SMALL s else Some s);
      let words := <[(j / 64)%nat := Z.land w (u64 (Z.lnot b))]> (bitmap s i) in
      let s := set_bitmap i words s in
      let n := map_chunks shift in
      let k := (n / 64)%nat in
      let m := Z.shiftl 1 (Z.of_nat (n mod 64)) - 1 in
      w ← words !! k;
      s ← (if negb (Z.land w (u64 (Z.lnot m)) =? 0) then Some s
           else if negb (forallb (Z.eqb 0) (drop (S k) words)) then Some s
           else
             s ← ngx_slab_free_pages i 1 s;
             Some (set_stat slot (add_total (- Z.of_nat (nchunks shift - n))) s));
      Some (set_stat slot (add_used (-1)) s).

Definition free_exact (i : nat) (p : Z) (s : pool) : option pool :=
  n ← rd (Page i) s;
  let b := Z.shiftl 1 (Z.shiftr (Z.land p (ngx_pagesize - 1)) (Z.of_nat ngx_slab_exact_shift)) in
  if negb (Z.land p (ngx_slab_exact_size - 1) =? 0) then Some s
  else if Z.land (slab n) b =? 0 then Some s
  else
    let slot := (ngx_slab_exact_shift - min_shift)%nat in
    s ← (if slab n =? NGX_SLAB_BUSY then enter_list i slot NGX_SLAB_EXACT s else Some s);
    let v := Z.land (slab n) (u64 (Z.lnot b)) in
    s ← wr (Page i) (set_slab v) s;
    s ← (if negb (v =? 0) then Some s
         else
           s ← ngx_slab_free_pages i 1 s;
           Some (set_stat slot (add_total (-64)) s));
    Some (set_stat slot (add_used (-1)) s).

Definition free_big (i : nat) (p : Z) (s : pool) : option pool :=
  n ← rd (Page i) s;
  let shift := Z.to_nat (Z.land (slab n) NGX_SLAB_SHIFT_MASK) in
  if negb (Z.land p (Z.shiftl 1 (Z.of_nat shift) - 1) =? 0) then Some s
  else
    let b := Z.shiftl 1 (Z.shiftr (Z.land p (ngx_pagesize - 1)) (Z.of_nat shift) + NGX_SLAB_MAP_SHIFT) in
    if Z.land (slab n) b =? 0 then Some s
    else
      let slot := (shift - min_shift)%nat in
      s ← (if bool_decide (next n = Null) then enter_list i slot NGX_SLAB_BIG s else Some s);
      let v := Z.land (slab n) (u64 (Z.lnot b)) in
      s ← wr (Page i) (set_slab v) s;
      s ← (if negb (Z.land v NGX_SLAB_MAP_MASK =? 0) then Some s
           else
             s ← ngx_slab_free_pages i 1 s;
             Some (set_stat slot (add_total (- Z.of_nat (nchunks shift))) s));
      Some (set_stat slot (add_used (-1)) s).

Definition free_run (i : nat) (p : Z) (s : pool) : option pool :=
  n ← rd (Page i) s;
  if negb (Z.land p (ngx_pagesize - 1) =? 0) then Some s
  else if Z.land (slab n) NGX_SLAB_PAGE_START =? 0 then Some s
  else if slab n =? NGX_SLAB_PAGE_BUSY then Some s
  else ngx_slab_free_pages i (Z.land (slab n) (u64 (Z.lnot NGX_SLAB_PAGE_START))) s.

Definition ngx_slab_free_locked (p : Z) (s : pool) : option pool :=
  if (p <? 0) || (p >? limit s) then Some s
  else
    let i := Z.to_nat (Z.shiftr p ngx_pagesize_shift) in
    n ← rd (Page i) s;
    if ptype n =? NGX_SLAB_SMALL then free_small i p s
    else if ptype n =? NGX_SLAB_EXACT then free_exact i p s
    else if ptype n =? NGX_SLAB_BIG then free_big i p s
    else free_run i p s.

(** ** ngx_slab_init *)

(** The layout of a pool at [addr] that ends at [end_]: number of pages and pool->start. *)
Definition pool_layout (addr end_ sizeof_pool : Z) : Z * Z :=
  let n := Z.of_nat nslots in
  let p := addr + sizeof_pool in
  let size := u64 (end_ - p - n * (24 + 32)) in
  let p := p + n * 24 + n * 32 in
  let pages := size / (ngx_pagesize + 24) in
  let start := Z.land (p + pages * 24 + (ngx_pagesize - 1)) (u64 (Z.lnot (ngx_pagesize - 1))) in
  let m := i64 (pages - u64 (end_ - start) / ngx_pagesize) in
  (if m >? 0 then pages - m else pages, start).

Definition ngx_slab_init (addr end_ sizeof_pool : Z) : pool :=
  let '(pages, start) := pool_layout addr end_ sizeof_pool in
  let m p :=
    match p with
    | Free => Node 0 (Page 0) Null 0
    | Slot i => Node 0 (Slot i) Null 0
    | Page 0 => Node pages Free Free 0
    | _ => zero_node
    end in
  Pool (Z.to_nat pages) (end_ - start) m (fun _ => []) pages (fun _ => Stat 0 0 0 0).

(** Sixteen pages of shared memory: chunks of three sizes, runs, and all back. *)
Definition demo_pool : pool := ngx_slab_init 0 65536 200.

Fixpoint alloc_all (sizes : list Z) (s : pool) : option (list (option Z) * pool) :=
  match sizes with
  | [] => Some ([], s)
  | z :: sizes => '(p, s) ← ngx_slab_alloc_locked z s; '(ps, s) ← alloc_all sizes s; Some (p :: ps, s)
  end.

Fixpoint free_all (ps : list (option Z)) (s : pool) : option pool :=
  match ps with
  | [] => Some s
  | p :: ps => s ← match p with Some p => ngx_slab_free_locked p s | None => Some s end; free_all ps s
  end.

Example slab_ex :
  (npages demo_pool, pfree demo_pool) = (15%nat, 15) /\
  ('(ps, s) ← alloc_all [100; 8; 64; 5000; 8; 2048; 2048; 2048; 40000] demo_pool;
   s' ← free_all ps s;
   Some (ps, pfree s, pfree s', slab (mem s' (Page 0)), next (mem s' Free)))
  = Some ([Some 0; Some 4160; Some 8192; Some 12288; Some 4168; Some 20480; Some 22528; Some 24576; None],
          8, 15, 15, Page 0).
Proof. vm_compute. auto. Qed.

End Slab.
