(* ===== verification/SlabPages.v ===== *)
(** * The slab allocator: lists and runs of pages

    The pages of a pool are partitioned into blocks: free runs, allocated runs, pages of
    chunks, and for the time of an operation blocks that belong to nobody ([KRaw]).
    Every piece of code that links, splits or joins runs is a step between partitions.
    A block that is in a list while its contents are being changed is [KLinked]. *)

From stdpp Require Import functions.
From S2P Require Import Prelude Slab.

Module SlabPages.
Import Slab.

(** ** Linked lists of descriptors *)

(** From [x] through the pages [l] to [e]; the pages have the type [ty]. *)
Fixpoint dl (m : ptr -> node) (e : ptr) (ty : Z) (x : ptr) (l : list nat) : Prop :=
  match l with
  | [] => next (m x) = e
  | a :: l' => next (m x) = Page a /\ prev (m (Page a)) = x /\ ptype (m (Page a)) = ty /\ dl m e ty (Page a) l'
  end.

Definition lastp (x : ptr) (l : list nat) : ptr := List.last (map Page l) x.
Definition headp (e : ptr) (l : list nat) : ptr := match l with [] => e | a :: _ => Page a end.

Lemma lastp_cons x a l : lastp x (a :: l) = lastp (Page a) l.
Proof. unfold lastp. cbn. destruct l; [done|]. cbn. destruct (map Page l) eqn:E; [done|]. cbn. clear. revert p. induction l0 as [|b l0 IH]; intros p; [done|]. apply IH. Qed.

Lemma lastp_in x l : lastp x l ∈ x :: map Page l.
Proof.
  revert x. induction l as [|a l IH]; intros x; [set_solver|]. rewrite lastp_cons. specialize (IH (Page a)). cbn. set_solver.
Qed.

Lemma dl_next m e ty x l : dl m e ty x l -> next (m (lastp x l)) = e.
Proof. revert x. induction l as [|a l IH]; intros x; [done|]. rewrite lastp_cons. intros (_ & _ & _ & H). by apply IH. Qed.

Lemma dl_head m e ty x l : dl m e ty x l -> next (m x) = headp e l.
Proof. destruct l; [done|]. by intros [? _]. Qed.

Lemma dl_frame m m' e ty x l :
  (forall q, q ∈ x :: map Page l -> next (m' q) = next (m q)) ->
  (forall a, a ∈ l -> prev (m' (Page a)) = prev (m (Page a)) /\ ptype (m' (Page a)) = ptype (m (Page a))) ->
  dl m e ty x l -> dl m' e ty x l.
Proof.
  revert x. induction l as [|a l IH]; intros x Hn Hp; cbn; [rewrite Hn by set_solver; done|].
  intros (H1 & H2 & H3 & H4). rewrite Hn by set_solver. destruct (Hp a ltac:(set_solver)) as [-> ->].
  split_and!; try done. apply IH; [|set_solver|done]. intros q Hq. apply Hn. cbn. set_solver.
Qed.

Lemma dl_same m m' e ty x l : (forall q, q ∈ x :: map Page l -> m' q = m q) -> dl m e ty x l -> dl m' e ty x l.
Proof.
  intros H. apply dl_frame; [intros q Hq; by rewrite H|]. intros a Ha. rewrite H; [done|]. right. by apply (list_elem_of_fmap_2 Page).
Qed.

Lemma dl_app m e ty x l1 a l2 :
  dl m e ty x (l1 ++ a :: l2) <->
  dl m (Page a) ty x l1 /\ prev (m (Page a)) = lastp x l1 /\ ptype (m (Page a)) = ty /\ dl m e ty (Page a) l2.
Proof.
  revert x. induction l1 as [|b l1 IH]; intros x; [done|]. cbn [app dl]. rewrite IH, lastp_cons. tauto.
Qed.

(** The end of a list is set to point elsewhere. *)
Lemma dl_retarget m m' e e' ty x l :
  NoDup (x :: map Page l) ->
  (forall q, q ∈ x :: map Page l -> q <> lastp x l -> next (m' q) = next (m q)) -> next (m' (lastp x l)) = e' ->
  (forall a, a ∈ l -> prev (m' (Page a)) = prev (m (Page a)) /\ ptype (m' (Page a)) = ptype (m (Page a))) ->
  dl m e ty x l -> dl m' e' ty x l.
Proof.
  revert x. induction l as [|a l IH]; intros x Hnd Hn He Hp; cbn [dl]; [done|].
  intros (H1 & H2 & H3 & H4). rewrite lastp_cons in *. pose proof (lastp_in (Page a) l) as Hin.
  apply list.NoDup_cons in Hnd as [Hx Hnd]. cbn [map] in *.
  rewrite Hn by (set_solver || (intros ->; done)). destruct (Hp a ltac:(set_solver)) as [-> ->]. split_and!; try done.
  apply IH; try done; [|set_solver]. intros q Hq. apply Hn. set_solver.
Qed.

Lemma NoDup_pages (l : list nat) : NoDup l -> NoDup (map Page l).
Proof. intros H. apply NoDup_fmap; [|done]. by intros x y [= ->]. Qed.

Lemma page_in a (l : list nat) : Page a ∈ map Page l <-> a ∈ l.
Proof. rewrite list_elem_of_fmap. split; [by intros (x & [= ->] & Hx)|]. intros H. by exists a. Qed.

(** A head is not a page. *)
Definition is_head (h : ptr) : Prop := match h with Free | Slot _ => True | _ => False end.

Lemma head_not_page h (l : list nat) : is_head h -> h ∉ map Page l.
Proof. intros H (x & -> & _)%list_elem_of_fmap. done. Qed.

Lemma head_nodup h (l : list nat) : is_head h -> NoDup l -> NoDup (h :: map Page l).
Proof. intros Hh Hl. apply list.NoDup_cons. split; [by apply head_not_page|by apply NoDup_pages]. Qed.

(** [m'] differs from [m] only in the links of the head [h] and the pages [l]. *)
Definition relinked (h : ptr) (l : list nat) (m m' : ptr -> node) : Prop :=
  (forall q, q ∉ h :: map Page l -> m' q = m q) /\
  (forall a, slab (m' (Page a)) = slab (m (Page a)) /\ ptype (m' (Page a)) = ptype (m (Page a))).

(** Evaluate memories with updates at other places. *)
Ltac alters := unfold alter, fn_alter; repeat case_decide; simplify_eq; cbn; try done; try congruence.

(** What follows an element of a ring is not the element itself, and so on. *)
Lemma ring_facts h l1 a l2 : is_head h -> NoDup (l1 ++ a :: l2) ->
  lastp h l1 <> Page a /\ headp h l2 <> Page a /\
  lastp h l1 ∈ h :: map Page (l1 ++ l2) /\ headp h l2 ∈ h :: map Page (l1 ++ l2) /\
  (forall b, b ∈ l1 -> headp h l2 <> Page b) /\ (forall b, b ∈ l2 -> lastp h l1 <> Page b) /\
  lastp h l1 ∉ map Page l2 /\ headp h l2 ∉ map Page l1 /\ NoDup (l1 ++ l2) /\ a ∉ l1 ++ l2.
Proof.
  intros Hh Hnd. apply list.NoDup_app in Hnd as (N1 & Hd & [Ha N2]%list.NoDup_cons).
  pose proof (lastp_in h l1) as Hl. assert (Hhd : headp h l2 ∈ h :: map Page l2) by (destruct l2; cbn; set_solver).
  assert (Hnp : forall x, h <> Page x) by (intros x ->; done).
  rewrite map_app. rewrite elem_of_cons in Hl, Hhd.
  assert (D1 : forall b, b ∈ l1 -> b ∉ a :: l2) by done.
  split_and!.
  - destruct Hl as [->|Hl]; [done|]. intros E. rewrite E, page_in in Hl. set_solver.
  - destruct Hhd as [->|Hhd]; [done|]. intros E. rewrite E, page_in in Hhd. done.
  - set_solver.
  - set_solver.
  - intros b Hb E. destruct Hhd as [E'|Hhd]; [rewrite E' in E; by apply Hnp in E|]. rewrite E, page_in in Hhd. set_solver.
  - intros b Hb E. destruct Hl as [E'|Hl]; [rewrite E' in E; by apply Hnp in E|]. rewrite E, page_in in Hl. set_solver.
  - intros (b & E & Hb)%list_elem_of_fmap. destruct Hl as [E'|Hl]; [rewrite E' in E; by apply Hnp in E|]. rewrite E, page_in in Hl. set_solver.
  - intros (b & E & Hb)%list_elem_of_fmap. destruct Hhd as [E'|Hhd]; [rewrite E' in E; by apply Hnp in E|]. rewrite E, page_in in Hhd. set_solver.
  - apply list.NoDup_app. split_and!; [done|set_solver|done].
  - set_solver.
Qed.

(** The links around an element are changed to [x] and back from [y]. *)
Lemma dl_remove m h ty l1 a l2 :
  is_head h -> NoDup (l1 ++ a :: l2) -> dl m h ty h (l1 ++ a :: l2) ->
  let m' := alter (set_prev (lastp h l1) ty) (headp h l2) (alter (set_next (headp h l2)) (lastp h l1) m) in
  dl m' h ty h (l1 ++ l2) /\ relinked h (l1 ++ l2) m m'.
Proof.
  intros Hh Hnd H. destruct (ring_facts h l1 a l2 Hh Hnd) as (F1 & F2 & F3 & F4 & F5 & F6 & F7 & F8 & N & Ha).
  apply dl_app in H as (H1 & Hp & Ht & H2). set (pr := lastp h l1) in *. set (nx := headp h l2) in *. intros m'.
  assert (Hnext : forall q, q <> pr -> next (m' q) = next (m q)).
  { intros q Hq. unfold m'. alters. }
  assert (Hnextpr : next (m' pr) = nx).
  { unfold m'. alters. }
  assert (Hprev : forall q, q <> nx -> prev (m' q) = prev (m q) /\ ptype (m' q) = ptype (m q)).
  { intros q Hq. unfold m'. alters. }
  assert (Hprevnx : prev (m' nx) = pr /\ ptype (m' nx) = ty) by (unfold m'; alters).
  split.
  - assert (D1 : dl m' nx ty h l1).
    { eapply dl_retarget; [| | | |exact H1].
      - apply head_nodup; [done|]. by apply list.NoDup_app in N as (? & _ & _).
      - intros q _ Hq. by apply Hnext.
      - done.
      - intros b Hb. apply Hprev. intros E. by apply (F5 b Hb). }
    destruct l2 as [|b l2]; [rewrite app_nil_r; done|]. cbn [headp] in *. apply dl_app. cbn [dl] in H2. destruct H2 as (_ & _ & Htb & H2).
    split_and!; [done|apply Hprevnx|apply Hprevnx|]. apply (dl_frame m); [| |done].
    + intros q Hq. apply Hnext. intros ->. apply F7. by cbn [map].
    + intros c Hc. apply Hprev. intros [= ->]. apply list.NoDup_app in Hnd as (_ & _ & [_ Hnd]%list.NoDup_cons).
      by apply list.NoDup_cons in Hnd as [? _].
  - split.
    + intros q Hq. unfold m'. alters; set_solver.
    + intros b. split; [unfold m'; alters|].
      destruct (decide (nx = Page b)) as [E|E]; [|by apply Hprev]. destruct (Hprevnx) as [_ Hx]. rewrite E in Hx. rewrite <- E, E, Hx.
      destruct l2 as [|c l2]; cbn in *; [unfold nx in E; cbn in E; by rewrite E in Hh|]. unfold nx in E. injection E as <-. by destruct H2 as (_ & _ & -> & _).
Qed.

(** A list behind another first element. *)
Lemma dl_newhead m m' e ty x y l :
  NoDup l -> dl m e ty x l -> next (m' y) = headp e l ->
  (forall a, head l = Some a -> prev (m' (Page a)) = y /\ ptype (m' (Page a)) = ty) ->
  (forall a, a ∈ l -> next (m' (Page a)) = next (m (Page a))) ->
  (forall a, a ∈ l -> head l <> Some a -> prev (m' (Page a)) = prev (m (Page a)) /\ ptype (m' (Page a)) = ptype (m (Page a))) ->
  dl m' e ty y l.
Proof.
  destruct l as [|a l]; [done|]. intros [Ha Hnd]%list.NoDup_cons (_ & _ & _ & H) Hy Hh Hn Hp. cbn [dl headp] in *.
  destruct (Hh a eq_refl) as [E1 E2]. split_and!; try done. apply (dl_frame m); [| |done].
  - intros q [->|(b & -> & Hb)%list_elem_of_fmap]%elem_of_cons; apply Hn; set_solver.
  - intros b Hb. apply Hp; [set_solver|]. intros [= ->]. done.
Qed.

(** An element is replaced by [b]. *)
Lemma dl_replace m m1 h ty l1 a l2 b :
  is_head h -> NoDup (l1 ++ a :: l2) -> b ∉ l1 ++ a :: l2 -> dl m h ty h (l1 ++ a :: l2) ->
  (forall q, q ∈ h :: map Page (l1 ++ l2) -> m1 q = m q) ->
  next (m1 (Page b)) = headp h l2 -> prev (m1 (Page b)) = lastp h l1 -> ptype (m1 (Page b)) = ty ->
  let m' := alter (set_prev (Page b) ty) (headp h l2) (alter (set_next (Page b)) (lastp h l1) m1) in
  dl m' h ty h (l1 ++ b :: l2) /\ relinked h (l1 ++ l2) m1 m'.
Proof.
  intros Hh Hnd Hb H Hm1 B1 B2 B3. destruct (ring_facts h l1 a l2 Hh Hnd) as (F1 & F2 & F3 & F4 & F5 & F6 & F7 & F8 & N & Ha).
  apply dl_app in H as (H1 & Hp & Ht & H2). set (pr := lastp h l1) in *. set (nx := headp h l2) in *. intros m'.
  assert (Hprb : pr <> Page b) by (intros E; rewrite E in F3; apply elem_of_cons in F3 as [<-|F3]; [done|]; rewrite page_in in F3; set_solver).
  assert (Hnxb : nx <> Page b) by (intros E; rewrite E in F4; apply elem_of_cons in F4 as [<-|F4]; [done|]; rewrite page_in in F4; set_solver).
  assert (Hnext : forall q, q <> pr -> next (m' q) = next (m1 q)) by (intros q Hq; unfold m'; alters).
  assert (Hnextpr : next (m' pr) = Page b) by (unfold m'; alters).
  assert (Hprev : forall q, q <> nx -> prev (m' q) = prev (m1 q) /\ ptype (m' q) = ptype (m1 q)) by (intros q Hq; unfold m'; alters).
  assert (Hprevnx : prev (m' nx) = Page b /\ ptype (m' nx) = ty) by (unfold m'; alters).
  assert (Hold : forall c, c ∈ l1 ++ l2 -> m1 (Page c) = m (Page c)) by (intros c Hc; apply Hm1; right; by rewrite page_in).
  split.
  - apply dl_app. split_and!.
    + eapply dl_retarget; [| | | |exact H1].
      * apply head_nodup; [done|]. by apply list.NoDup_app in N as (? & _ & _).
      * intros q Hq Hne. rewrite Hnext by done. rewrite Hm1; [done|]. rewrite map_app. set_solver.
      * done.
      * intros c Hc. destruct (Hprev (Page c)) as [-> ->]; [intros E; by apply (F5 c Hc)|]. rewrite Hold by set_solver. done.
    + destruct (Hprev (Page b)) as [-> _]; done.
    + destruct (Hprev (Page b)) as [_ ->]; done.
    + eapply dl_newhead; [|exact H2| | | |].
      * by apply list.NoDup_app in N as (_ & _ & ?).
      * by rewrite Hnext by done.
      * intros c Hc. destruct l2 as [|c' l2]; [done|]. injection Hc as ->. exact Hprevnx.
      * intros c Hc. rewrite Hnext by (intros E; symmetry in E; by apply (F6 c Hc)). rewrite Hold by set_solver. done.
      * intros c Hc Hne. destruct (Hprev (Page c)) as [-> ->]; [|rewrite Hold by set_solver; done].
        unfold nx. destruct l2 as [|c' l2]; [set_solver|]. cbn in *. congruence.
  - split.
    + intros q Hq. unfold m'. alters; set_solver.
    + intros c. split; [unfold m'; alters|]. destruct (decide (nx = Page c)) as [E|E]; [|by apply Hprev].
      destruct Hprevnx as [_ Hx]. rewrite E in Hx. rewrite Hx. unfold nx in E. destruct l2 as [|c' l2]; cbn in E; [by rewrite E in Hh|].
      injection E as ->. rewrite Hold by set_solver. by destruct H2 as (_ & _ & -> & _).
Qed.

(** An element is put in front. *)
Lemma dl_push m h ty l a :
  is_head h -> NoDup l -> a ∉ l -> dl m h ty h l ->
  let m1 := alter (fun n => Node (slab n) (headp h l) h ty) (Page a) m in
  let m' := alter (set_next (Page a)) h (alter (set_prev (Page a) ty) (headp h l) m1) in
  dl m' h ty h (a :: l) /\ relinked h l m1 m'.
Proof.
  intros Hh Hnd Ha H m1 m'. set (nx := headp h l) in *.
  assert (Hha : h <> Page a) by (intros ->; done).
  assert (Hnxa : nx <> Page a) by (unfold nx; destruct l; cbn; [done|set_solver]).
  assert (Hpage : forall b, b ∈ l -> Page b <> h) by (intros b _ <-; done).
  split.
  - cbn [dl]. split_and!; [unfold m', m1; alters..|]. eapply dl_newhead; [done|exact H| | | |].
    + unfold m', m1. alters.
    + intros b Hb. destruct l as [|b' l]; [done|]. injection Hb as ->. unfold m', m1, nx in *. cbn [headp] in *. alters.
    + intros b Hb. assert (b <> a) by set_solver. specialize (Hpage b Hb). unfold m', m1. alters.
    + intros b Hb Hne. assert (b <> a) by set_solver. specialize (Hpage b Hb).
      assert (nx <> Page b) by (unfold nx; destruct l as [|b' l]; cbn in *; [done|congruence]). unfold m', m1. alters.
  - assert (Hnx : nx ∈ h :: map Page l) by (unfold nx; destruct l; cbn; set_solver). split.
    + intros q Hq. unfold m'. alters; set_solver.
    + intros b. assert (h <> Page b) by (intros ->; done). split; [unfold m'; alters|].
      destruct (decide (nx = Page b)) as [E|E]; [|unfold m'; alters].
      unfold nx in E. destruct l as [|b' l]; cbn in E; [done|]. injection E as ->. cbn in H. destruct H as (_ & _ & Hb & _).
      assert (b <> a) by set_solver. unfold m', m1, nx. cbn [headp]. alters.
Qed.

(** ** The code on lists *)

Lemma set_mem_set_mem m1 m2 s : set_mem m2 (set_mem m1 s) = set_mem m2 s.
Proof. done. Qed.

Lemma set_mem_id s : set_mem (mem s) s = s.
Proof. by destruct s. Qed.

Lemma wr_ok s p f : valid s p = true -> wr p f s = Some (set_mem (alter f p (mem s)) s).
Proof. intros H. unfold wr. by rewrite H. Qed.

Lemma rd_ok s p : valid s p = true -> rd p s = Some (mem s p).
Proof. intros H. unfold rd. by rewrite H. Qed.

Lemma valid_set_mem m s p : valid (set_mem m s) p = valid s p.
Proof. done. Qed.

Lemma valid_in s h l q : valid s h = true -> (forall a, a ∈ l -> (a < npages s)%nat) -> q ∈ h :: map Page l -> valid s q = true.
Proof.
  intros Hh Hl [->|(a & -> & Ha)%list_elem_of_fmap]%elem_of_cons; [done|]. cbn. apply Nat.ltb_lt. auto.
Qed.

Lemma unlink_ok s h ty l1 a l2 :
  is_head h -> valid s h = true -> NoDup (l1 ++ a :: l2) -> (forall b, b ∈ l1 ++ a :: l2 -> (b < npages s)%nat) ->
  dl (mem s) h ty h (l1 ++ a :: l2) -> exists m',
  unlink (Page a) s = Some (set_mem m' s) /\ dl m' h ty h (l1 ++ l2) /\ relinked h (l1 ++ l2) (mem s) m'.
Proof.
  intros Hh Hv Hnd Hlt H. destruct (ring_facts h l1 a l2 Hh Hnd) as (F1 & F2 & F3 & F4 & _ & _ & _ & _ & _ & _).
  pose proof H as (H1 & Hp & Ht & H2)%dl_app. apply dl_head in H2.
  assert (Hva : valid s (Page a) = true) by (cbn; apply Nat.ltb_lt, Hlt; set_solver).
  assert (Hin : forall b, b ∈ l1 ++ l2 -> (b < npages s)%nat) by (intros b Hb; apply Hlt; set_solver).
  unfold unlink. rewrite (rd_ok _ _ Hva). cbn [mbind option_bind]. rewrite Hp, H2.
  rewrite (wr_ok s (lastp h l1)) by by apply (valid_in s h (l1 ++ l2)). cbn [mbind option_bind].
  rewrite rd_ok by done. cbn [mbind option_bind set_mem mem].
  assert (E : alter (set_next (headp h l2)) (lastp h l1) (mem s) (Page a) = mem s (Page a)) by (alters).
  rewrite E, Hp, Ht, H2. rewrite wr_ok by by apply (valid_in s h (l1 ++ l2)).
  eexists. split; [done|]. by apply (dl_remove _ _ _ _ a).
Qed.

Lemma fill_ok k : forall i v s, (i + k <= npages s)%nat -> exists m', fill k i v s = Some (set_mem m' s) /\
  (forall q, m' q = match q with Page j => if decide (i <= j < i + k)%nat then v else mem s q | _ => mem s q end).
Proof.
  induction k as [|k IH]; intros i v s Hk.
  - exists (mem s). rewrite set_mem_id. split; [done|]. intros [| | |j]; try done. by rewrite decide_False by lia.
  - cbn [fill]. rewrite wr_ok by (cbn; apply Nat.ltb_lt; lia). cbn [mbind option_bind].
    destruct (IH (S i) v (set_mem (alter (fun _ => v) (Page i) (mem s)) s)) as (m' & -> & Hm); [cbn; lia|].
    exists m'. split; [done|]. intros q. rewrite Hm. cbn [mem set_mem]. destruct q as [| | |j]; try done.
    destruct (decide (S i <= j < S i + k)%nat), (decide (i <= j < i + S k)%nat); try lia; try done.
    + assert (j = i) as -> by lia. alters.
    + assert (j <> i) by lia. alters.
Qed.

(** ** Blocks *)

Inductive kind := KRaw | KLinked (h : ptr) | KFree | KRun | KChunks (shift : nat) (bits : Z) (listed : bool).
#[global] Instance kind_eq_dec : EqDecision kind.
Proof. solve_decision. Defined.

Record block := Block { bstart : nat; blen : nat; bkind : kind }.

Definition pages_of (b : block) : list nat := seq (bstart b) (blen b).
Definition all_pages (bs : list block) : list nat := concat (map pages_of bs).

Definition type_of (shift : nat) : Z :=
  if (shift <? ngx_slab_exact_shift)%nat then NGX_SLAB_SMALL
  else if (shift =? ngx_slab_exact_shift)%nat then NGX_SLAB_EXACT else NGX_SLAB_BIG.

(** The chunks that the bitmap takes. *)
Definition reserved (shift : nat) : nat := if (shift <? ngx_slab_exact_shift)%nat then map_chunks shift else 0%nat.

Definition full_bits (shift : nat) : Z := 2 ^ Z.of_nat (nchunks shift) - 1.

(** The words of a bitmap. *)
Record words_ok (words : list Z) (bits : Z) : Prop := {
  wo_range : 0 <= bits < 2 ^ Z.of_nat (64 * length words);
  wo_word : Forall (in_u 64) words;
  wo_bit : forall n w b, words !! n = Some w -> (b < 64)%nat -> Z.testbit w (Z.of_nat b) = Z.testbit bits (Z.of_nat (n * 64 + b));
}.

(** How the bits of the chunks are kept. *)
Definition bits_rep (n : node) (words : list Z) (shift : nat) (bits : Z) : Prop :=
  if (shift <? ngx_slab_exact_shift)%nat then
    slab n = Z.of_nat shift /\ length words = map_words shift /\ words_ok words bits
  else if (shift =? ngx_slab_exact_shift)%nat then slab n = bits
  else slab n = bits * 2 ^ 32 + Z.of_nat shift.

Record chunks_ok (n : node) (words : list Z) (shift : nat) (bits : Z) (listed : bool) : Prop := {
  co_shift : (3 <= shift <= 11)%nat;
  co_type : ptype n = type_of shift;
  co_range : 0 <= bits <= full_bits shift;
  co_reserved : forall j, (j < reserved shift)%nat -> Z.testbit bits (Z.of_nat j) = true;
  co_rep : bits_rep n words shift bits;
  co_listed : listed = false -> next n = Null;
}.

Definition run_node (len : nat) : node := Node (Z.lor (Z.of_nat len) NGX_SLAB_PAGE_START) Null Null NGX_SLAB_PAGE.
Definition busy_node : node := Node NGX_SLAB_PAGE_BUSY Null Null NGX_SLAB_PAGE.

(** The descriptors of a block. *)
Definition block_ok (s : pool) (b : block) : Prop :=
  let m p := mem s (Page p) in
  (0 < blen b)%nat /\
  match bkind b with
  | KRaw | KLinked _ => True
  | KFree =>
      slab (m (bstart b)) = Z.of_nat (blen b) /\ ptype (m (bstart b)) = 0 /\
      (forall p, (bstart b < p < bstart b + blen b)%nat -> slab (m p) = 0 /\ ptype (m p) = 0) /\
      ((1 < blen b)%nat -> (bstart b + blen b < npages s)%nat -> prev (m (bstart b + blen b - 1)%nat) = Page (bstart b))
  | KRun =>
      m (bstart b) = run_node (blen b) /\ (forall p, (bstart b < p < bstart b + blen b)%nat -> m p = busy_node)
  | KChunks shift bits listed => blen b = 1%nat /\ chunks_ok (m (bstart b)) (bitmap s (bstart b)) shift bits listed
  end.

(** In the free list; in the list of the slot [k]. *)
Definition is_free (b : block) : bool := match bkind b with KFree | KLinked Free => true | _ => false end.
Definition is_open (k : nat) (b : block) : bool :=
  match bkind b with
  | KChunks shift _ listed => listed && (shift =? k + 3)%nat
  | KLinked (Slot k') => (k' =? k)%nat
  | _ => false
  end.
Definition start_if (f : block -> bool) (b : block) : option nat := if f b then Some (bstart b) else None.
Notation free_start := (start_if is_free).
Notation open_start k := (start_if (is_open k)).

Record inv (s : pool) (bs : list block) (fl : list nat) (sl : nat -> list nat) : Prop := {
  iv_size : Z.of_nat (npages s) < 2 ^ 32;
  iv_part : all_pages bs ≡ₚ seq 0 (npages s);
  iv_block : Forall (block_ok s) bs;
  iv_adj : forall b1 b2, b1 ∈ bs -> b2 ∈ bs -> bkind b1 = KFree -> bkind b2 = KFree -> bstart b2 <> (bstart b1 + blen b1)%nat;
  iv_free : dl (mem s) Free 0 Free fl;
  iv_fl : fl ≡ₚ omap free_start bs;
  iv_slot : forall k, (k < nslots)%nat -> dl (mem s) (Slot k) (type_of (k + 3)) (Slot k) (sl k);
  iv_sl : forall k, (k < nslots)%nat -> sl k ≡ₚ omap (open_start k) bs;
}.

#[global] Instance all_pages_perm : Proper ((≡ₚ) ==> (≡ₚ)) all_pages.
Proof. intros bs bs' H. unfold all_pages. rewrite <- !flat_map_concat_map. by rewrite H. Qed.

Lemma inv_perm s bs bs' fl sl : bs ≡ₚ bs' -> inv s bs fl sl -> inv s bs' fl sl.
Proof.
  intros E [H1 H2 H3 H4 H5 H6 H7 H8]. constructor; try done.
  - by rewrite <- E.
  - by rewrite <- E.
  - intros b1 b2. rewrite <- E. apply H4.
  - by rewrite <- E.
  - intros k Hk. rewrite <- E. by apply H8.
Qed.

Lemma pages_in p b : p ∈ pages_of b <-> (bstart b <= p < bstart b + blen b)%nat.
Proof. unfold pages_of. by rewrite elem_of_seq. Qed.

Lemma all_pages_in p bs : p ∈ all_pages bs <-> exists b, b ∈ bs /\ p ∈ pages_of b.
Proof.
  unfold all_pages. rewrite list_elem_of_In, <- flat_map_concat_map, in_flat_map. by setoid_rewrite list_elem_of_In.
Qed.

Lemma iv_nodup s bs fl sl : inv s bs fl sl -> NoDup (all_pages bs).
Proof. intros H. rewrite (iv_part _ _ _ _ H). apply NoDup_seq. Qed.

Lemma iv_bound s bs fl sl b p : inv s bs fl sl -> b ∈ bs -> p ∈ pages_of b -> (p < npages s)%nat.
Proof.
  intros H Hb Hp. assert (Hin : p ∈ all_pages bs) by (apply all_pages_in; eauto). rewrite (iv_part _ _ _ _ H), elem_of_seq in Hin. lia.
Qed.

Lemma iv_has s bs fl sl p : inv s bs fl sl -> (p < npages s)%nat -> exists b, b ∈ bs /\ p ∈ pages_of b.
Proof. intros H Hp. apply all_pages_in. rewrite (iv_part _ _ _ _ H), elem_of_seq. lia. Qed.

Lemma part_unique bs b1 b2 p : NoDup (all_pages bs) -> b1 ∈ bs -> b2 ∈ bs -> p ∈ pages_of b1 -> p ∈ pages_of b2 -> b1 = b2.
Proof.
  induction bs as [|b bs IH]; [set_solver|]. change (all_pages (b :: bs)) with (pages_of b ++ all_pages bs).
  intros (N1 & D & N2)%list.NoDup_app H1 H2 P1 P2.
  apply elem_of_cons in H1 as [->|H1], H2 as [->|H2]; [done| | |auto]; exfalso.
  - apply (D p P1), all_pages_in. eauto.
  - apply (D p P2), all_pages_in. eauto.
Qed.

Lemma head_disjoint b bs p c : NoDup (all_pages (b :: bs)) -> c ∈ bs -> p ∈ pages_of b -> p ∉ pages_of c.
Proof. change (all_pages (b :: bs)) with (pages_of b ++ all_pages bs). intros (_ & D & _)%list.NoDup_app Hc Hp Hpc. apply (D p Hp), all_pages_in. eauto. Qed.

Lemma iv_len s bs fl sl b : inv s bs fl sl -> b ∈ bs -> (0 < blen b)%nat.
Proof. intros H Hb. pose proof (iv_block _ _ _ _ H) as Hk. rewrite list.Forall_forall in Hk. by destruct (Hk b Hb). Qed.

Lemma start_in b : (0 < blen b)%nat -> bstart b ∈ pages_of b.
Proof. intros H. apply pages_in. lia. Qed.

(** Elements of the lists are starts of blocks. *)
Lemma start_if_in f (bs : list block) p : p ∈ omap (start_if f) bs <-> exists b, b ∈ bs /\ f b = true /\ bstart b = p.
Proof.
  rewrite list_elem_of_omap. unfold start_if. split.
  - intros (b & Hb & E). exists b. destruct (f b); by simplify_eq.
  - intros (b & Hb & Hk & <-). exists b. by rewrite Hk.
Qed.

Lemma omap_cons f b bs :
  omap (start_if f) (b :: bs) = if f b then bstart b :: omap (start_if f) bs else omap (start_if f) bs.
Proof. cbn. unfold start_if at 1. by destruct (f b). Qed.

Lemma open_cons k i bits bs :
  omap (open_start k) (Block i 1 (KChunks (k + 3) bits true) :: bs) = i :: omap (open_start k) bs.
Proof. rewrite omap_cons. unfold is_open at 1. cbn [bkind andb]. by rewrite Nat.eqb_refl. Qed.

Lemma free_open b k : is_free b = true -> is_open k b = false.
Proof. unfold is_free, is_open. destruct (bkind b) as [|[]| | |]; done. Qed.

Lemma open_unique b k k' : is_open k b = true -> is_open k' b = true -> k = k'.
Proof.
  unfold is_open. destruct (bkind b) as [|[]| | |shift bits []]; try done; cbn; intros ?%Nat.eqb_eq ?%Nat.eqb_eq; lia.
Qed.

Lemma omap_nodup f (bs : list block) :
  Forall (fun b => (0 < blen b)%nat) bs -> NoDup (all_pages bs) -> NoDup (omap (start_if f) bs).
Proof.
  induction bs as [|b bs IH]; intros Hl Hn; [constructor|]. inversion Hl as [|? ? Hb Hl']; subst. clear Hl. rename Hl' into Hl.
  change (all_pages (b :: bs)) with (pages_of b ++ all_pages bs) in Hn. apply list.NoDup_app in Hn as (N1 & D & N2). rewrite omap_cons.
  destruct (f b) eqn:E; [|auto]. apply list.NoDup_cons. split; [|auto]. intros (c & Hc & _ & E')%start_if_in.
  apply (D (bstart b)); [by apply start_in|]. apply all_pages_in. exists c. split; [done|].
  rewrite <- E'. apply start_in. rewrite list.Forall_forall in Hl. by apply Hl.
Qed.

Lemma iv_lens s bs fl sl : inv s bs fl sl -> Forall (fun b => (0 < blen b)%nat) bs.
Proof. intros H. apply list.Forall_forall. intros b Hb. by eapply iv_len. Qed.

Lemma fl_nodup s bs fl sl : inv s bs fl sl -> NoDup fl.
Proof. intros H. rewrite (iv_fl _ _ _ _ H). apply omap_nodup; [by eapply iv_lens|by eapply iv_nodup]. Qed.

Lemma sl_nodup s bs fl sl k : inv s bs fl sl -> (k < nslots)%nat -> NoDup (sl k).
Proof. intros H Hk. rewrite (iv_sl _ _ _ _ H) by done. apply omap_nodup; [by eapply iv_lens|by eapply iv_nodup]. Qed.

Lemma start_bound s bs fl sl f p : inv s bs fl sl -> p ∈ omap (start_if f) bs -> (p < npages s)%nat.
Proof. intros H (b & Hb & _ & <-)%start_if_in. eapply iv_bound; [done..|]. by apply start_in; eapply iv_len. Qed.

Lemma fl_bound s bs fl sl p : inv s bs fl sl -> p ∈ fl -> (p < npages s)%nat.
Proof. intros H Hp. rewrite (iv_fl _ _ _ _ H) in Hp. by eapply start_bound. Qed.

Lemma sl_bound s bs fl sl k p : inv s bs fl sl -> (k < nslots)%nat -> p ∈ sl k -> (p < npages s)%nat.
Proof. intros H Hk Hp. rewrite (iv_sl _ _ _ _ H) in Hp by done. by eapply start_bound. Qed.

(** The lists have no page in common. *)
Lemma start_same s bs fl sl f g p : inv s bs fl sl -> p ∈ omap (start_if f) bs -> p ∈ omap (start_if g) bs ->
  exists b, b ∈ bs /\ f b = true /\ g b = true.
Proof.
  intros H (b & Hb & Kb & <-)%start_if_in (b' & Hb' & Kb' & E)%start_if_in.
  assert (b = b') as <-; [|by exists b]. eapply (part_unique bs _ _ (bstart b)); [by eapply iv_nodup|done|done|by apply start_in; eapply iv_len|].
  rewrite <- E. by apply start_in; eapply iv_len.
Qed.

Lemma lists_disjoint s bs fl sl k p : inv s bs fl sl -> (k < nslots)%nat -> p ∈ fl -> p ∉ sl k.
Proof.
  intros H Hk. rewrite (iv_fl _ _ _ _ H), (iv_sl _ _ _ _ H) by done. intros Hp Hp'.
  destruct (start_same _ _ _ _ _ _ p H Hp Hp') as (b & _ & H1 & H2). apply (free_open b k) in H1. congruence.
Qed.

Lemma slots_disjoint s bs fl sl k k' p : inv s bs fl sl -> (k < nslots)%nat -> (k' < nslots)%nat -> k <> k' -> p ∈ sl k -> p ∉ sl k'.
Proof.
  intros H Hk Hk' Hne. rewrite !(iv_sl _ _ _ _ H) by done. intros Hp Hp'.
  destruct (start_same _ _ _ _ _ _ p H Hp Hp') as (b & _ & H1 & H2). by apply Hne, (open_unique b).
Qed.

(** ** Changes that keep the partition *)

(** In a list. *)
Definition open_block (b : block) : Prop :=
  match bkind b with KFree | KLinked _ => True | KChunks _ _ listed => listed = true | _ => False end.

Lemma block_frame s s' b :
  npages s' = npages s -> (forall p, p ∈ pages_of b -> mem s' (Page p) = mem s (Page p)) -> bitmap s' (bstart b) = bitmap s (bstart b) ->
  block_ok s b -> block_ok s' b.
Proof.
  intros Hn Hm Hbm [Hl H]. split; [done|]. destruct (bkind b) as [|h| | |shift bits listed]; [done|done| | |].
  - destruct H as (H1 & H2 & H3 & H4). rewrite Hn, !Hm by (apply pages_in; lia). split_and!; try done.
    intros p Hp. rewrite Hm by (apply pages_in; lia). by apply H3.
  - destruct H as [H1 H2]. rewrite Hm by (apply pages_in; lia). split; [done|]. intros p Hp. rewrite Hm by (apply pages_in; lia). by apply H2.
  - destruct H as [H1 H2]. rewrite Hm by (apply pages_in; lia). by rewrite Hbm.
Qed.

(** Other links at the start of a block that is in a list. *)
Lemma block_relink s m' b :
  open_block b ->
  (forall p, p ∈ pages_of b -> p <> bstart b -> m' (Page p) = mem s (Page p)) ->
  slab (m' (Page (bstart b))) = slab (mem s (Page (bstart b))) -> ptype (m' (Page (bstart b))) = ptype (mem s (Page (bstart b))) ->
  block_ok s b -> block_ok (set_mem m' s) b.
Proof.
  intros Ho Hm Hs Ht [Hl H]. split; [done|]. cbn [set_mem mem bitmap]. unfold open_block in Ho. destruct (bkind b) as [|h| | |shift bits listed]; try done.
  - destruct H as (H1 & H2 & H3 & H4). split_and!; try congruence.
    + intros p Hp. rewrite Hm by (rewrite ?pages_in; lia). by apply H3.
    + intros Hlen Hlast. rewrite Hm by (rewrite ?pages_in; lia). by apply H4.
  - destruct H as [H1 [A1 A2 A3 A4 A5 A6]]. split; [done|]. constructor; try done; [congruence| |congruence]. unfold bits_rep in *. by rewrite Hs.
Qed.

Lemma relink_blocks s m' h T bs :
  NoDup (all_pages bs) -> relinked h T (mem s) m' -> is_head h ->
  (forall t, t ∈ T -> exists b, b ∈ bs /\ bstart b = t /\ open_block b) ->
  Forall (block_ok s) bs -> Forall (block_ok (set_mem m' s)) bs.
Proof.
  intros Hnd [R1 R2] Hh HT Hb. rewrite list.Forall_forall in *. intros b Hin. pose proof (Hb b Hin) as Hok. pose proof (proj1 Hok) as Hl.
  assert (Hsame : forall p, p ∉ T -> m' (Page p) = mem s (Page p)).
  { intros p Hp. apply R1. rewrite elem_of_cons, page_in. intros [<-|?]; done. }
  assert (Huniq : forall p, p ∈ pages_of b -> p ∈ T -> p = bstart b /\ open_block b).
  { intros p Hp (c & Hc & <- & Ho)%HT. assert (c = b) as ->; [|done]. eapply part_unique; [exact Hnd|done|done| |exact Hp].
    apply start_in. by destruct (Hb c Hc). }
  destruct (decide (bstart b ∈ T)) as [Ht|Ht].
  - destruct (Huniq (bstart b) (start_in b Hl) Ht) as [_ Ho]. apply block_relink; [done| |apply R2|apply R2|done].
    intros p Hp Hne. apply Hsame. intros Hpt. by destruct (Huniq p Hp Hpt).
  - apply (block_frame s); [done| |done|done]. intros p Hp. cbn. apply Hsame. intros Hpt. by destruct (Huniq p Hp Hpt) as [-> _].
Qed.

Lemma dl_other h T m m' h' ty T' :
  relinked h T m m' -> h' <> h -> is_head h -> is_head h' -> (forall p, p ∈ T' -> p ∉ T) -> dl m h' ty h' T' -> dl m' h' ty h' T'.
Proof.
  intros [R _] Hne Hh Hh' Hd. apply dl_same. intros q Hq. apply R. intros [->|Hq']%elem_of_cons.
  - apply elem_of_cons in Hq as [->|Hq]; [done|]. by apply (head_not_page h T').
  - apply list_elem_of_fmap in Hq' as (p & -> & Hp). apply elem_of_cons in Hq as [Hq|Hq]; [by rewrite <- Hq in Hh'|].
    rewrite page_in in Hq. by apply (Hd p).
Qed.

Lemma free_is_open b : is_free b = true -> open_block b.
Proof. unfold is_free, open_block. by destruct (bkind b) as [|[]| | |]. Qed.

Lemma slot_is_open k b : is_open k b = true -> open_block b.
Proof. unfold is_open, open_block. by destruct (bkind b) as [|[]| | |? ? []]. Qed.

Lemma fl_open (bs : list block) p : p ∈ omap free_start bs -> exists b, b ∈ bs /\ bstart b = p /\ open_block b.
Proof. intros (b & Hb & Hk & <-)%start_if_in. exists b. split_and!; try done. by apply free_is_open. Qed.

Lemma sl_open k (bs : list block) p : p ∈ omap (open_start k) bs -> exists b, b ∈ bs /\ bstart b = p /\ open_block b.
Proof. intros (b & Hb & Hk & <-)%start_if_in. exists b. split_and!; try done. by apply (slot_is_open k). Qed.

(** A block leaves the free list. *)
Lemma detach_free s j len bs fl sl : inv s (Block j len (KLinked Free) :: bs) fl sl -> exists m' fl',
  unlink (Page j) s = Some (set_mem m' s) /\ inv (set_mem m' s) (Block j len KRaw :: bs) fl' sl /\
  (forall p, p ∉ fl' -> m' (Page p) = mem s (Page p)) /\ fl ≡ₚ j :: fl' /\
  (forall p, slab (m' (Page p)) = slab (mem s (Page p)) /\ ptype (m' (Page p)) = ptype (mem s (Page p))).
Proof.
  intros H. pose proof (iv_fl _ _ _ _ H) as Hfl. rewrite omap_cons in Hfl. cbn [is_free bkind bstart] in Hfl.
  assert (Hj : j ∈ fl) by (rewrite Hfl; set_solver). apply list_elem_of_split in Hj as (l1 & l2 & ->).
  destruct (unlink_ok s Free 0 l1 j l2) as (m' & E & Hd & R); [done|done|by eapply fl_nodup|intros b; by eapply fl_bound|apply (iv_free _ _ _ _ H)|].
  assert (Hperm : l1 ++ l2 ≡ₚ omap free_start bs) by (rewrite <- Permutation_middle in Hfl; by apply Permutation_cons_inv in Hfl).
  exists m', (l1 ++ l2). split_and!; [done| | |by rewrite Permutation_middle|apply R].
  2:{ intros p Hp. apply R. rewrite elem_of_cons, page_in. by intros [[=]|?]. }
  pose proof (iv_nodup _ _ _ _ H) as Hnd. assert (HH := H).
  destruct H as [H1 H2 H3 H4 H5 H6 H7 H8]. constructor; try done.
  - inversion H3 as [|? ? Hb Hbs]; subst. constructor; [by destruct Hb|]. apply (relink_blocks s m' Free (l1 ++ l2)); try done.
    + by apply list.NoDup_app in Hnd as (_ & _ & ?).
    + intros t Ht. rewrite Hperm in Ht. by apply fl_open.
  - intros b1 b2 [->|Hb1]%elem_of_cons [->|Hb2]%elem_of_cons; try done. apply H4; by right.
  - intros k Hk. apply (dl_other Free (l1 ++ l2) (mem s)); try done; [|by apply H7].
    intros p Hp Hp'. apply (lists_disjoint _ _ _ _ k p HH Hk); [set_solver|done].
Qed.

(** A block leaves the list of its slot. *)
Lemma detach_slot s i k bs fl sl :
  (k < nslots)%nat -> inv s (Block i 1 (KLinked (Slot k)) :: bs) fl sl -> exists m' l',
  unlink (Page i) s = Some (set_mem m' s) /\ inv (set_mem m' s) (Block i 1 KRaw :: bs) fl (<[k := l']> sl) /\
  (forall p, p ∉ l' -> m' (Page p) = mem s (Page p)) /\ sl k ≡ₚ i :: l' /\
  (forall p, slab (m' (Page p)) = slab (mem s (Page p)) /\ ptype (m' (Page p)) = ptype (mem s (Page p))).
Proof.
  intros Hk H. pose proof (iv_sl _ _ _ _ H k Hk) as Hsl. rewrite omap_cons in Hsl. cbn [is_open bkind bstart] in Hsl. rewrite Nat.eqb_refl in Hsl.
  assert (Hi : i ∈ sl k) by (rewrite Hsl; set_solver). apply list_elem_of_split in Hi as (l1 & l2 & El). rewrite El in *.
  pose proof (iv_slot _ _ _ _ H k Hk) as Hdl. rewrite El in Hdl.
  destruct (unlink_ok s (Slot k) (type_of (k + 3)) l1 i l2) as (m' & E & Hd & R); [done|by apply Nat.ltb_lt|rewrite <- El; by eapply sl_nodup|rewrite <- El; intros b; by eapply sl_bound|done|].
  assert (Hperm : l1 ++ l2 ≡ₚ omap (open_start k) bs) by (rewrite <- Permutation_middle in Hsl; by apply Permutation_cons_inv in Hsl).
  exists m', (l1 ++ l2). split_and!; [done| | |by rewrite Permutation_middle|apply R].
  2:{ intros p Hp. apply R. rewrite elem_of_cons, page_in. by intros [[=]|?]. }
  pose proof (iv_nodup _ _ _ _ H) as Hnd. assert (HH := H). destruct H as [H1 H2 H3 H4 H5 H6 H7 H8]. constructor; try done.
  - inversion H3 as [|? ? Hb Hbs]; subst. constructor; [by destruct Hb|]. apply (relink_blocks s m' (Slot k) (l1 ++ l2)); try done.
    + by apply list.NoDup_app in Hnd as (_ & _ & ?).
    + intros t Ht. rewrite Hperm in Ht. by eapply sl_open.
  - intros b1 b2 [->|Hb1]%elem_of_cons [->|Hb2]%elem_of_cons; try done. apply H4; by right.
  - apply (dl_other (Slot k) (l1 ++ l2) (mem s)); try done. intros p Hp Hp'. apply (lists_disjoint _ _ _ _ k p HH Hk Hp). rewrite El. set_solver.
  - intros k' Hk'. destruct (decide (k = k')) as [<-|Hne]; [by rewrite fn_lookup_insert|]. rewrite fn_lookup_insert_ne by done.
    apply (dl_other (Slot k) (l1 ++ l2) (mem s)); try done; [congruence| |by apply H7].
    intros p Hp Hp'. apply (slots_disjoint _ _ _ _ k' k p HH Hk' Hk ltac:(done) Hp). rewrite El. set_solver.
  - intros k' Hk'. destruct (decide (k = k')) as [<-|Hne]; [by rewrite fn_lookup_insert|]. rewrite fn_lookup_insert_ne by done.
    rewrite (H8 k') by done. rewrite !omap_cons. cbn [is_open bkind]. by rewrite (proj2 (Nat.eqb_neq k k')) by done.
Qed.

(** ** Changes of one block *)

(** Only the pages of a block, their descriptors and bitmaps, differ. *)
Record touch (i len : nat) (s s' : pool) : Prop := {
  to_n : npages s' = npages s;
  to_mem : forall q, (forall p, (i <= p < i + len)%nat -> q <> Page p) -> mem s' q = mem s q;
  to_bitmap : forall p, ~ (i <= p < i + len)%nat -> bitmap s' p = bitmap s p;
}.

Definition links_kept (i : nat) (s s' : pool) : Prop :=
  next (mem s' (Page i)) = next (mem s (Page i)) /\ prev (mem s' (Page i)) = prev (mem s (Page i)) /\
  ptype (mem s' (Page i)) = ptype (mem s (Page i)).

Lemma listed_head f i len K bs p :
  NoDup (all_pages (Block i len K :: bs)) -> Forall (fun b => (0 < blen b)%nat) bs ->
  p ∈ omap (start_if f) (Block i len K :: bs) -> (i <= p < i + len)%nat -> p = i /\ f (Block i len K) = true.
Proof.
  intros Hnd Hl (b & [->|Hb]%elem_of_cons & Hf & <-)%start_if_in Hp; [done|]. exfalso.
  eapply (head_disjoint _ _ (bstart b) b); [exact Hnd|done|by apply pages_in|]. apply start_in. rewrite list.Forall_forall in Hl. by apply Hl.
Qed.

(** A ring whose pages in the block are at its start. *)
Lemma dl_touch s s' i len h ty T :
  touch i len s s' -> links_kept i s s' \/ i ∉ T -> (forall p, p ∈ T -> (i <= p < i + len)%nat -> p = i) -> is_head h ->
  dl (mem s) h ty h T -> dl (mem s') h ty h T.
Proof.
  intros [_ Hm _] Hk HT Hh. assert (Hc : forall p, p ∈ T ->
    next (mem s' (Page p)) = next (mem s (Page p)) /\ prev (mem s' (Page p)) = prev (mem s (Page p)) /\ ptype (mem s' (Page p)) = ptype (mem s (Page p))).
  { intros p Hp. destruct (decide (i <= p < i + len)%nat) as [Hin|Hout].
    - assert (p = i) as -> by auto. by destruct Hk.
    - rewrite Hm; [done|]. intros p' Hp' [= ->]. done. }
  apply dl_frame; [|intros a Ha; by apply Hc].
  intros q [->|(p & -> & Hp)%list_elem_of_fmap]%elem_of_cons; [|by apply Hc]. rewrite Hm; [done|]. intros p _ ->. done.
Qed.

Lemma blocks_touch s s' i len K bs :
  NoDup (all_pages (Block i len K :: bs)) -> touch i len s s' -> Forall (block_ok s) bs -> Forall (block_ok s') bs.
Proof.
  intros Hnd [Hn Hm Hb] H. rewrite list.Forall_forall in *. intros b Hin. assert (D : forall p, p ∈ pages_of b -> ~ (i <= p < i + len)%nat).
  { intros p Hp Hp'. eapply (head_disjoint _ _ p b); [exact Hnd|done|by apply pages_in|done]. }
  apply (block_frame s); [done| | |by apply H].
  - intros p Hp. apply Hm. intros p' Hp' [= ->]. by apply (D p').
  - apply Hb, D, start_in. by destruct (H b Hin).
Qed.

(** The pages of a block are written, and its kind changed, without a change of the lists. *)
Lemma block_step s s' i len K K' bs fl sl :
  inv s (Block i len K :: bs) fl sl -> touch i len s s' ->
  links_kept i s s' \/ (is_free (Block i len K) = false /\ forall k, (k < nslots)%nat -> is_open k (Block i len K) = false) ->
  is_free (Block i len K') = is_free (Block i len K) -> (forall k, (k < nslots)%nat -> is_open k (Block i len K') = is_open k (Block i len K)) ->
  K' <> KFree -> block_ok s' (Block i len K') -> inv s' (Block i len K' :: bs) fl sl.
Proof.
  intros H Ht Hl E1 E2 Hf Hok. pose proof (iv_nodup _ _ _ _ H) as Hnd. pose proof (iv_lens _ _ _ _ H) as Hlen.
  inversion Hlen as [|? ? _ Hlen']; subst.
  destruct H as [H1 H2 H3 H4 H5 H6 H7 H8]. inversion H3 as [|? ? Hb Hbs]; subst. constructor.
  - by rewrite (to_n _ _ _ _ Ht).
  - by rewrite (to_n _ _ _ _ Ht).
  - constructor; [done|]. by eapply blocks_touch.
  - intros b1 b2 [->|Hb1]%elem_of_cons [->|Hb2]%elem_of_cons; try done. apply H4; by right.
  - eapply dl_touch; [done| | |done|done].
    + destruct Hl as [Hl|[Hl _]]; [by left|]. right. rewrite H6. intros Hi.
      apply listed_head in Hi as [_ Hi]; [congruence|done|done|]. destruct Hok. cbn in *. lia.
    + intros p. rewrite H6. intros Hp Hin. by eapply listed_head in Hp as [? _].
  - rewrite H6, !omap_cons, E1. done.
  - intros k Hk. eapply dl_touch; [done| | |done|by apply H7].
    + destruct Hl as [Hl|[_ Hl]]; [by left|]. right. rewrite H8 by done. intros Hi.
      apply listed_head in Hi as [_ Hi]; [rewrite Hl in Hi by done; congruence|done|done|]. destruct Hok. cbn in *. lia.
    + intros p. rewrite H8 by done. intros Hp Hin. by eapply listed_head in Hp as [? _].
  - intros k Hk. rewrite H8 by done. rewrite !omap_cons, E2 by done. done.
Qed.

Lemma touch_refl i len s : touch i len s s.
Proof. done. Qed.

Lemma touch_trans i len s1 s2 s3 : touch i len s1 s2 -> touch i len s2 s3 -> touch i len s1 s3.
Proof.
  intros [A1 A2 A3] [B1 B2 B3]. constructor; [congruence| |].
  - intros q Hq. rewrite B2, A2 by done. done.
  - intros p Hp. rewrite B3, A3 by done. done.
Qed.

(** Nothing that matters. *)
Lemma inv_other s s' bs fl sl : npages s' = npages s -> mem s' = mem s -> bitmap s' = bitmap s -> inv s bs fl sl -> inv s' bs fl sl.
Proof.
  intros E1 E2 E3 [H1 H2 H3 H4 H5 H6 H7 H8]. constructor; rewrite ?E1, ?E2; try done.
  rewrite list.Forall_forall in *. intros b Hb. apply (block_frame s); [done|intros; by rewrite E2|by rewrite E3|by apply H3].
Qed.

(** A block given up: its contents do not count any more. *)
Lemma weaken s i len K K' bs fl sl :
  inv s (Block i len K :: bs) fl sl ->
  match K' with
  | KRaw => match K with KRaw | KRun => True | KChunks _ _ listed => listed = false | _ => False end
  | KLinked h => match K with KFree => h = Free | KChunks shift _ listed => listed = true /\ h = Slot (shift - 3) /\ (3 <= shift)%nat | KLinked h' => h = h' | _ => False end
  | _ => False
  end -> inv s (Block i len K' :: bs) fl sl.
Proof.
  intros H HK. eapply block_step; [exact H|apply touch_refl|by left| | | |].
  - unfold is_free. cbn [bkind]. by destruct K', K; simplify_eq; destruct_and?; subst.
  - intros k Hk. unfold is_open. cbn [bkind]. destruct K' as [|h| | |a1 b1 l'], K as [|h'| | |shift bits l]; simplify_eq; destruct_and?; subst; try done.
    cbn. destruct (Nat.eqb_spec (shift - 3) k), (Nat.eqb_spec shift (k + 3)); try done; lia.
  - by intros ->.
  - pose proof (iv_len _ _ _ _ _ H ltac:(by left)) as Hl. split; [done|]. by destruct K'.
Qed.

(** Raw blocks next to each other are one. *)
Lemma raw_join s i a b bs fl sl :
  inv s (Block i a KRaw :: Block (i + a) b KRaw :: bs) fl sl -> inv s (Block i (a + b) KRaw :: bs) fl sl.
Proof.
  intros [H1 H2 H3 H4 H5 H6 H7 H8]. constructor; try done.
  - rewrite <- H2. unfold all_pages, pages_of. cbn. by rewrite seq_app, app_assoc.
  - inversion H3 as [|? ? Hb Hbs]; subst. inversion Hbs as [|? ? Hb' Hbs']; subst. constructor; [|done]. destruct Hb as [Hb _]. split; [cbn in *; lia|done].
  - intros b1 b2 [->|Hb1]%elem_of_cons [->|Hb2]%elem_of_cons; try done. apply H4; set_solver.
Qed.

Lemma raw_split s i a b bs fl sl : (0 < a)%nat -> (0 < b)%nat ->
  inv s (Block i (a + b) KRaw :: bs) fl sl -> inv s (Block i a KRaw :: Block (i + a) b KRaw :: bs) fl sl.
Proof.
  intros Ha Hb [H1 H2 H3 H4 H5 H6 H7 H8]. constructor; try done.
  - rewrite <- H2. unfold all_pages, pages_of. cbn. by rewrite seq_app, app_assoc.
  - inversion H3 as [|? ? Hc Hbs]; subst. by repeat constructor.
  - intros b1 b2 [->|[->|Hb1]%elem_of_cons]%elem_of_cons [->|[->|Hb2]%elem_of_cons]%elem_of_cons; try done. apply H4; set_solver.
Qed.

End SlabPages.
