(* ===== verification/SlabRuns.v ===== *)
(** * The slab allocator: runs of pages

    ngx_slab_alloc_pages takes the first run of the free list that is long enough and
    splits it; ngx_slab_free_pages joins a run with the free runs around it.  Both keep
    the partition of the pool, and that no two free runs are next to each other. *)

From stdpp Require Import functions.
From S2P Require Import Prelude Slab SlabPages.

Module SlabRuns.
Import Slab SlabPages.

(** ** Blocks enter lists *)

Lemma attach_blocks s m1 m' h T i len K bs :
  NoDup (all_pages (Block i len K :: bs)) -> touch i len s (set_mem m1 s) -> relinked h T m1 m' -> is_head h ->
  (forall t, t ∈ T -> exists b, b ∈ bs /\ bstart b = t /\ open_block b) ->
  Forall (block_ok s) bs -> Forall (block_ok (set_mem m' s)) bs.
Proof.
  intros Hnd Ht R Hh HT H. apply (relink_blocks (set_mem m1 s) m' h T); try done; [|by eapply blocks_touch].
  by apply list.NoDup_app in Hnd as (_ & _ & ?).
Qed.

Lemma raw_unlisted s i len bs fl sl p : inv s (Block i len KRaw :: bs) fl sl -> (i <= p < i + len)%nat ->
  p ∉ fl /\ (forall k, (k < nslots)%nat -> p ∉ sl k).
Proof.
  intros H Hp. pose proof (iv_nodup _ _ _ _ H) as Hnd. pose proof (iv_lens _ _ _ _ H) as Hl. inversion Hl as [|? ? _ Hl']; subst. split.
  - rewrite (iv_fl _ _ _ _ H). intros Hin. by apply listed_head in Hin as [_ Hin].
  - intros k Hk. rewrite (iv_sl _ _ _ _ H) by done. intros Hin. by apply listed_head in Hin as [_ Hin].
Qed.

(** The lists of other heads after a block has entered one. *)
Lemma dl_attach s m1 m' h T i len bs fl sl h' ty T' :
  inv s (Block i len KRaw :: bs) fl sl -> touch i len s (set_mem m1 s) -> relinked h T m1 m' ->
  h' <> h -> is_head h -> is_head h' -> (forall p, p ∈ T' -> p ∉ T) -> (forall p, p ∈ T' -> ~ (i <= p < i + len)%nat) ->
  dl (mem s) h' ty h' T' -> dl m' h' ty h' T'.
Proof.
  intros H Ht R Hne Hh Hh' Hd Hi HT. apply (dl_other h T m1); try done. change m1 with (mem (set_mem m1 s)).
  eapply dl_touch; [exact Ht| | |done|done].
  - right. intros Hin. apply (Hi i Hin). pose proof (iv_len _ _ _ _ _ H ltac:(by left)). cbn in *. lia.
  - intros p Hp Hin. by apply Hi in Hp.
Qed.

Lemma attach_free s m1 m' i len bs fl sl :
  inv s (Block i len KRaw :: bs) fl sl -> touch i len s (set_mem m1 s) ->
  dl m' Free 0 Free (i :: fl) -> relinked Free fl m1 m' -> inv (set_mem m' s) (Block i len (KLinked Free) :: bs) (i :: fl) sl.
Proof.
  intros H Ht Hd R. pose proof (iv_nodup _ _ _ _ H) as Hnd. assert (HH := H).
  destruct H as [H1 H2 H3 H4 H5 H6 H7 H8]. inversion H3 as [|? ? Hb Hbs]; subst. constructor; try done.
  - constructor; [by destruct Hb|]. eapply attach_blocks; try done. intros t. rewrite H6, omap_cons. apply fl_open.
  - intros b1 b2 [->|Hb1]%elem_of_cons [->|Hb2]%elem_of_cons; try done. apply H4; by right.
  - rewrite omap_cons. cbn [is_free bkind bstart]. by rewrite H6, omap_cons.
  - intros k Hk. eapply dl_attach; try done; [|intros p Hp Hin; by apply (raw_unlisted _ _ _ _ _ _ p HH Hin) in Hp|by apply H7].
    intros p Hp Hp'. by apply (lists_disjoint _ _ _ _ k p HH Hk Hp').
Qed.

Lemma attach_slot s m1 m' i k bs fl sl :
  (k < nslots)%nat -> inv s (Block i 1 KRaw :: bs) fl sl -> touch i 1 s (set_mem m1 s) ->
  dl m' (Slot k) (type_of (k + 3)) (Slot k) (i :: sl k) -> relinked (Slot k) (sl k) m1 m' ->
  inv (set_mem m' s) (Block i 1 (KLinked (Slot k)) :: bs) fl (<[k := i :: sl k]> sl).
Proof.
  intros Hk H Ht Hd R. pose proof (iv_nodup _ _ _ _ H) as Hnd. assert (HH := H).
  destruct H as [H1 H2 H3 H4 H5 H6 H7 H8]. inversion H3 as [|? ? Hb Hbs]; subst. constructor; try done.
  - constructor; [by destruct Hb|]. eapply attach_blocks; try done. intros t. rewrite H8, omap_cons by done. apply sl_open.
  - intros b1 b2 [->|Hb1]%elem_of_cons [->|Hb2]%elem_of_cons; try done. apply H4; by right.
  - eapply dl_attach; try done; [|intros p Hp Hin; by apply (raw_unlisted _ _ _ _ _ _ p HH Hin) in Hp].
    intros p Hp Hp'. by apply (lists_disjoint _ _ _ _ k p HH Hk Hp).
  - intros k' Hk'. destruct (decide (k = k')) as [<-|Hne]; [by rewrite fn_lookup_insert|]. rewrite fn_lookup_insert_ne by done.
    eapply dl_attach; try done; [congruence| |intros p Hp Hin; by apply (raw_unlisted _ _ _ _ _ _ p HH Hin) in Hp|by apply H7].
    intros p Hp Hp'. by apply (slots_disjoint _ _ _ _ k k' p HH Hk Hk').
  - intros k' Hk'. rewrite omap_cons. unfold is_open at 1. cbn [bkind bstart]. destruct (Nat.eqb_spec k k') as [<-|Hne].
    + rewrite fn_lookup_insert. by rewrite H8, omap_cons by done.
    + rewrite fn_lookup_insert_ne by done. by rewrite H8, omap_cons by done.
Qed.

(** A listed block with the contents of a free run. *)
Lemma linked_to_free s i len bs fl sl :
  inv s (Block i len (KLinked Free) :: bs) fl sl -> block_ok s (Block i len KFree) ->
  (forall b, b ∈ bs -> bkind b = KFree -> bstart b <> (i + len)%nat /\ i <> (bstart b + blen b)%nat) ->
  inv s (Block i len KFree :: bs) fl sl.
Proof.
  intros [H1 H2 H3 H4 H5 H6 H7 H8] Hok Ha. constructor; try done.
  - inversion H3 as [|? ? Hb Hbs]; subst. by constructor.
  - intros b1 b2 [->|Hb1]%elem_of_cons [->|Hb2]%elem_of_cons K1 K2; cbn.
    + destruct Hok as [Hok _]. cbn in *. lia.
    + by apply Ha.
    + by apply Ha.
    + apply H4; (done || by right).
Qed.

(** ** Reading and writing the pages of a block *)

Lemma block_valid s bs fl sl b p : inv s bs fl sl -> b ∈ bs -> (bstart b <= p < bstart b + blen b)%nat -> valid s (Page p) = true.
Proof. intros H Hb Hp. apply Nat.ltb_lt. eapply iv_bound; [done..|]. by apply pages_in. Qed.

Lemma touch_write i len s p f : (i <= p < i + len)%nat -> touch i len s (set_mem (alter f (Page p) (mem s)) s).
Proof. intros Hp. constructor; try done. intros q Hq. cbn. unfold alter, fn_alter. case_decide; [|done]. subst. by apply Hq in Hp. Qed.

(** A write to a raw block. *)
Lemma raw_wr s i len bs fl sl p f : inv s (Block i len KRaw :: bs) fl sl -> (i <= p < i + len)%nat ->
  wr (Page p) f s = Some (set_mem (alter f (Page p) (mem s)) s) /\
  inv (set_mem (alter f (Page p) (mem s)) s) (Block i len KRaw :: bs) fl sl.
Proof.
  intros H Hp. split; [apply wr_ok; eapply block_valid; [exact H|by left|done]|].
  eapply block_step; [exact H|by apply touch_write|by right|done|done|done|]. split; [|done]. cbn. lia.
Qed.

Lemma raw_step s s' i len bs fl sl : inv s (Block i len KRaw :: bs) fl sl -> touch i len s s' -> inv s' (Block i len KRaw :: bs) fl sl.
Proof.
  intros H Ht. eapply block_step; [exact H|done|by right|done|done|done|]. split; [|done]. by eapply (iv_len _ _ _ _ _ H); left.
Qed.

Lemma free_next s bs fl sl : inv s bs fl sl -> next (mem s Free) = headp Free fl.
Proof. intros H. by eapply dl_head, iv_free. Qed.

Lemma slot_next s bs fl sl k : inv s bs fl sl -> (k < nslots)%nat -> next (mem s (Slot k)) = headp (Slot k) (sl k).
Proof. intros H Hk. by eapply dl_head, iv_slot. Qed.

Lemma headp_valid s bs fl sl : inv s bs fl sl -> valid s (headp Free fl) = true.
Proof. intros H. destruct fl as [|a fl]; [done|]. cbn. apply Nat.ltb_lt. eapply fl_bound; [done|set_solver]. Qed.

Lemma slotp_valid s bs fl sl k : inv s bs fl sl -> (k < nslots)%nat -> valid s (headp (Slot k) (sl k)) = true.
Proof.
  intros H Hk. destruct (sl k) as [|a l] eqn:E; [by apply Nat.ltb_lt|]. cbn. apply Nat.ltb_lt. eapply sl_bound; [exact H|exact Hk|]. rewrite E. set_solver.
Qed.

(** A page in a list has a successor. *)
Lemma linked_next s bs fl sl b : inv s bs fl sl -> b ∈ bs ->
  is_free b = true \/ (exists k, (k < nslots)%nat /\ is_open k b = true) -> next (mem s (Page (bstart b))) <> Null.
Proof.
  intros H Hb Hl. assert (Hd : forall h ty T, is_head h -> dl (mem s) h ty h T -> bstart b ∈ T -> next (mem s (Page (bstart b))) <> Null).
  { intros h ty T Hh Hd (l1 & l2 & ->)%list_elem_of_split. apply dl_app in Hd as (_ & _ & _ & Hd). apply dl_head in Hd. rewrite Hd.
    destruct l2; [by destruct h|done]. }
  destruct Hl as [Hl|(k & Hk & Hl)].
  - eapply (Hd Free); [done|by eapply iv_free|]. rewrite (iv_fl _ _ _ _ H). apply start_if_in. by exists b.
  - eapply (Hd (Slot k)); [done|by eapply iv_slot|]. rewrite (iv_sl _ _ _ _ H) by done. apply start_if_in. by exists b.
Qed.

(** ** ngx_slab_free_pages *)

(** The descriptors of a run that is about to be free. *)
Definition raw_free (s : pool) (i len : nat) : Prop :=
  slab (mem s (Page i)) = Z.of_nat len /\
  (forall p, (i < p < i + len)%nat -> slab (mem s (Page p)) = 0 /\ ptype (mem s (Page p)) = 0).

Lemma push_run_ok s i len bs fl sl :
  inv s (Block i len KRaw :: bs) fl sl -> raw_free s i len ->
  (forall b, b ∈ bs -> bkind b = KFree -> bstart b <> (i + len)%nat /\ i <> (bstart b + blen b)%nat) ->
  exists m', push_run i (Z.of_nat len - 1) s = Some (set_mem m' s) /\ inv (set_mem m' s) (Block i len KFree :: bs) (i :: fl) sl.
Proof.
  intros H [Hs Hz] Ha. pose proof (iv_len _ _ _ _ _ H ltac:(by left)) as Hl. cbn in Hl.
  set (s1 := if decide (len = 1)%nat then s else set_mem (alter (set_prev (Page i) 0) (Page (i + len - 1)) (mem s)) s).
  assert (E1 : (if negb (Z.of_nat len - 1 =? 0) then wr (Page (i + Z.to_nat (Z.of_nat len - 1))) (set_prev (Page i) 0) s else Some s) = Some s1 /\
    inv s1 (Block i len KRaw :: bs) fl sl).
  { unfold s1. case_decide as Hd; [subst; done|]. rewrite (proj2 (Z.eqb_neq _ _)) by lia. cbn [negb].
    replace (i + Z.to_nat (Z.of_nat len - 1))%nat with (i + len - 1)%nat by lia. apply raw_wr; [done|lia]. }
  destruct E1 as [E1 H1']. unfold push_run. rewrite E1. cbn [mbind option_bind].
  assert (Hr1 : raw_free s1 i len /\ ((1 < len)%nat -> prev (mem s1 (Page (i + len - 1))) = Page i)).
  { unfold s1. case_decide as Hd; [split; [done|lia]|]. split; [|intros _; cbn; alters]. split.
    - cbn. rewrite <- Hs. alters.
    - intros p Hp. destruct (Hz p Hp) as [Z1 Z2]. cbn. alters. }
  destruct Hr1 as [[Hs1 Hz1] Hp1]. assert (Em : set_mem (mem s1) s = s1) by (unfold s1; case_decide; [apply set_mem_id|done]).
  rewrite rd_ok by done. cbn [mbind option_bind]. rewrite (free_next _ _ _ _ H1').
  destruct (raw_wr _ _ _ _ _ _ i (fun n => Node (slab n) (headp Free fl) Free 0) H1' ltac:(lia)) as [-> _]. cbn [mbind option_bind].
  rewrite wr_ok by (rewrite valid_set_mem; by eapply headp_valid). cbn [mbind option_bind]. rewrite wr_ok by done.
  cbn [set_mem mem].
  destruct (raw_unlisted _ _ _ _ _ _ i H1' ltac:(lia)) as [Hni _].
  destruct (dl_push (mem s1) Free 0 fl i) as [D R]; [done|by eapply fl_nodup|done|by eapply iv_free|].
  cbv zeta in D, R. match type of D with dl ?m _ _ _ _ => set (m' := m) in * end. exists m'. split.
  { f_equal. rewrite <- Em. done. }
  assert (I : inv (set_mem m' s1) (Block i len (KLinked Free) :: bs) (i :: fl) sl).
  { eapply attach_free; [exact H1'| |done|exact R]. apply touch_write. lia. }
  replace (set_mem m' s) with (set_mem m' s1) by (rewrite <- Em; done).
  apply linked_to_free; try done. split; [done|]. cbn [bkind bstart blen]. cbn [mem set_mem]. destruct R as [R1 R2].
  assert (Hout : forall p, (i < p < i + len)%nat -> m' (Page p) = mem s1 (Page p)).
  { intros p Hp. rewrite R1; [alters; lia|]. rewrite elem_of_cons, page_in. intros [[=]|Hin].
    by apply (raw_unlisted _ _ _ _ _ _ p H1' ltac:(lia)). }
  split_and!.
  - destruct (R2 i) as [-> _]. rewrite <- Hs1. alters.
  - destruct (R2 i) as [_ ->]. alters.
  - intros p Hp. rewrite Hout by done. by apply Hz1.
  - intros Hlen _. rewrite Hout by lia. by apply Hp1.
Qed.

(** Every block that is not being changed. *)
Definition settled (b : block) : Prop := match bkind b with KRaw | KLinked _ => False | _ => True end.

Lemma clear_run_ok s i len K bs fl sl :
  inv s (Block i len K :: bs) fl sl -> K = KRun \/ (exists k, (k < nslots)%nat /\ K = KLinked (Slot k) /\ len = 1%nat) ->
  exists m' sl', clear_run i (Z.of_nat len) s = Some (set_mem m' (set_pfree (u64 (pfree s + Z.of_nat len)) s)) /\
  inv (set_mem m' s) (Block i len KRaw :: bs) fl sl' /\ raw_free (set_mem m' s) i len.
Proof.
  intros H HK. pose proof (iv_len _ _ _ _ _ H ltac:(by left)) as Hl. cbn in Hl.
  assert (Hv := fun p => block_valid s _ fl sl (Block i len K) p H ltac:(by left)). cbn in Hv.
  unfold clear_run. set (v := u64 (pfree s + Z.of_nat len)). cbn zeta.
  rewrite wr_ok by (apply Hv; lia). cbn [mbind option_bind].
  set (s1 := set_mem (alter (set_slab (Z.of_nat len)) (Page i) (mem (set_pfree v s))) (set_pfree v s)).
  destruct (fill_ok (Z.to_nat (Z.of_nat len - 1)) (S i) zero_node s1) as (m2 & E2 & Hm2).
  { specialize (Hv (i + len - 1)%nat ltac:(lia)). apply Nat.ltb_lt in Hv. cbn. lia. }
  rewrite E2. cbn [mbind option_bind]. rewrite rd_ok by (apply Hv; lia). cbn [mbind option_bind].
  change (set_mem m2 s1) with (set_mem m2 (set_pfree v s)).
  assert (Hi : m2 (Page i) = set_slab (Z.of_nat len) (mem s (Page i))).
  { rewrite Hm2. rewrite decide_False by lia. unfold s1. cbn. unfold alter, fn_alter. by rewrite decide_True. }
  assert (Ht : touch i len s (set_mem m2 s)).
  { constructor; try done. intros q Hq. cbn. rewrite Hm2. destruct q as [| | |p]; try done. assert (Hp : ~ (i <= p < i + len)%nat) by (intros Hp; by apply (Hq p)).
    rewrite decide_False by lia. unfold s1. cbn. unfold alter, fn_alter. rewrite decide_False; [done|]. intros [= ->]. lia. }
  assert (Hr : raw_free (set_mem m2 s) i len).
  { split; [cbn; by rewrite Hi|]. intros p Hp. cbn. rewrite Hm2. by rewrite decide_True by lia. }
  cbn [mem set_mem]. rewrite Hi. cbn [set_slab next]. destruct HK as [->|(k & Hk & -> & ->)].
  - assert (Hnull : next (mem s (Page i)) = Null).
    { destruct H as [_ _ H3 _ _ _ _ _]. inversion H3 as [|? ? Hb _]; subst. destruct Hb as (_ & Hb & _). cbn in Hb. by rewrite Hb. }
    rewrite bool_decide_true by done. exists m2, sl. split_and!; [done| |done]. eapply raw_step; [|done]. by apply (weaken s i len KRun).
  - assert (Hnext : next (mem s (Page i)) <> Null).
    { apply (linked_next s _ fl sl (Block i 1 (KLinked (Slot k))) H ltac:(by left)). right. exists k. split; [done|]. apply Nat.eqb_refl. }
    rewrite bool_decide_false by done. cbn [negb].
    assert (I : inv (set_mem m2 s) (Block i 1 (KLinked (Slot k)) :: bs) fl sl).
    { eapply block_step; [exact H|done|left; cbn; unfold links_kept; cbn; by rewrite Hi|done|done|done|done]. }
    assert (I' : inv (set_mem m2 (set_pfree v s)) (Block i 1 (KLinked (Slot k)) :: bs) fl sl) by by apply (inv_other (set_mem m2 s)).
    destruct (detach_slot _ _ _ _ _ _ Hk I') as (m' & l' & E & I2 & _ & _ & Hs). exists m', (<[k := l']> sl). split_and!.
    + exact E.
    + by apply (inv_other (set_mem m' (set_mem m2 (set_pfree v s)))).
    + split; [|intros p Hp; lia]. cbn. destruct (Hs i) as [-> _]. cbn. by rewrite Hi.
Qed.

(** The neighbours of a block. *)
Lemma next_start s i len K bs fl sl : inv s (Block i len K :: bs) fl sl -> (i + len < npages s)%nat ->
  exists l k bs', bs ≡ₚ Block (i + len) l k :: bs'.
Proof.
  intros H Hlt. pose proof (iv_nodup _ _ _ _ H) as Hnd. pose proof (iv_len _ _ _ _ _ H ltac:(by left)) as Hl. cbn in Hl.
  destruct (iv_has _ _ _ _ _ H Hlt) as (b & [->|Hb]%elem_of_cons & Hp); rewrite pages_in in Hp; [cbn in Hp; lia|].
  destruct (decide (bstart b = i + len)%nat) as [E|Hne].
  - apply elem_of_Permutation in Hb as (bs' & Hb). exists (blen b), (bkind b), bs'. rewrite Hb, <- E. by destruct b.
  - exfalso. apply (head_disjoint _ _ (i + len - 1)%nat b Hnd Hb); rewrite pages_in; cbn; lia.
Qed.

Lemma prev_end s i len K bs fl sl : inv s (Block i len K :: bs) fl sl -> (0 < i)%nat ->
  exists j l k bs', bs ≡ₚ Block j l k :: bs' /\ (j + l = i)%nat /\ (0 < l)%nat.
Proof.
  intros H Hlt. pose proof (iv_nodup _ _ _ _ H) as Hnd. pose proof (iv_len _ _ _ _ _ H ltac:(by left)) as Hl. cbn in Hl.
  assert (Hi : (i - 1 < npages s)%nat) by (pose proof (iv_bound _ _ _ _ _ i H ltac:(by left) ltac:(by apply (start_in (Block i len K)))); lia).
  destruct (iv_has _ _ _ _ _ H Hi) as (b & [->|Hb]%elem_of_cons & Hp); rewrite pages_in in Hp; [cbn in Hp; lia|].
  destruct (decide (bstart b + blen b = i)%nat) as [E|Hne].
  - apply elem_of_Permutation in Hb as (bs' & Hb). exists (bstart b), (blen b), (bkind b), bs'. split; [|lia]. rewrite Hb. by destruct b.
  - exfalso. apply (head_disjoint _ _ i b Hnd Hb); rewrite pages_in; cbn; lia.
Qed.

Lemma type_of_nz shift : type_of shift <> 0.
Proof. unfold type_of. by repeat case_match. Qed.

(** What join_next and join_prev see of a neighbour: it can be joined iff it is free. *)
Lemma neighbour s bs fl sl b : inv s bs fl sl -> b ∈ bs -> settled b ->
  let n := mem s (Page (bstart b)) in
  (ptype n =? NGX_SLAB_PAGE) && negb (bool_decide (next n = Null)) = match bkind b with KFree => true | _ => false end.
Proof.
  intros H Hb Hs n. pose proof (iv_block _ _ _ _ H) as Hk. rewrite list.Forall_forall in Hk. specialize (Hk b Hb) as [_ Hk]. unfold settled in Hs.
  destruct (bkind b) as [| | | |shift bits listed] eqn:E; try done.
  - destruct Hk as (_ & Ht & _). subst n. rewrite Ht. rewrite bool_decide_false; [done|].
    eapply linked_next; [exact H|done|]. left. unfold is_free. by rewrite E.
  - destruct Hk as [Hk _]. subst n. by rewrite Hk.
  - destruct Hk as [_ [_ Ht _ _ _ _]]. subst n. rewrite Ht. apply andb_false_iff. left. apply Z.eqb_neq, type_of_nz.
Qed.

(** The block of a partition that starts at a page. *)
Lemma same_start s bs fl sl b1 b2 : inv s bs fl sl -> b1 ∈ bs -> b2 ∈ bs -> bstart b1 = bstart b2 -> b1 = b2.
Proof.
  intros H H1 H2 E. eapply (part_unique bs _ _ (bstart b1)); [by eapply iv_nodup|done|done| |].
  - apply start_in. by eapply iv_len.
  - rewrite E. apply start_in. by eapply iv_len.
Qed.

Lemma same_end s bs fl sl b1 b2 : inv s bs fl sl -> b1 ∈ bs -> b2 ∈ bs -> (bstart b1 + blen b1 = bstart b2 + blen b2)%nat -> b1 = b2.
Proof.
  intros H H1 H2 E. pose proof (iv_len _ _ _ _ _ H H1). pose proof (iv_len _ _ _ _ _ H H2).
  eapply (part_unique bs _ _ (bstart b1 + blen b1 - 1)%nat); [by eapply iv_nodup|done|done| |]; apply pages_in; lia.
Qed.

(** The joined neighbours, as lists of no or one block. *)
Definition joined (j l : nat) : list block := if (l =? 0)%nat then [] else [Block j l KFree].

Lemma block_ok_in s bs fl sl b : inv s bs fl sl -> b ∈ bs -> block_ok s b.
Proof. intros H Hb. pose proof (iv_block _ _ _ _ H) as Hk. rewrite list.Forall_forall in Hk. by apply Hk. Qed.

Lemma join_next_ok s i len pages bs fl sl :
  inv s (Block i len KRaw :: bs) fl sl -> raw_free s i len -> Forall settled bs ->
  exists m' l bs' fl', join_next i pages s = Some (pages + Z.of_nat l, set_mem m' s) /\
  inv (set_mem m' s) (Block i (len + l) KRaw :: bs') fl' sl /\ raw_free (set_mem m' s) i (len + l) /\
  bs ≡ₚ joined (i + len) l ++ bs' /\ (forall b, b ∈ bs' -> bkind b = KFree -> bstart b <> (i + (len + l))%nat).
Proof.
  intros H [Hs Hz] Hset. pose proof (iv_len _ _ _ _ _ H ltac:(by left)) as Hl. cbn in Hl.
  assert (Hv := block_valid s _ fl sl (Block i len KRaw) i H ltac:(by left) ltac:(cbn; lia)).
  unfold join_next. rewrite (rd_ok _ _ Hv). cbn [mbind option_bind]. rewrite Hs, Nat2Z.id.
  assert (Hno : (forall b, b ∈ bs -> bkind b = KFree -> bstart b <> (i + len)%nat) -> exists m' l bs' fl',
    Some (pages, s) = Some (pages + Z.of_nat l, set_mem m' s) /\
    inv (set_mem m' s) (Block i (len + l) KRaw :: bs') fl' sl /\ raw_free (set_mem m' s) i (len + l) /\
    bs ≡ₚ joined (i + len) l ++ bs' /\ (forall b, b ∈ bs' -> bkind b = KFree -> bstart b <> (i + (len + l))%nat)).
  { intros Hn. exists (mem s), 0%nat, bs, fl. rewrite set_mem_id, Z.add_0_r, Nat.add_0_r. done. }
  destruct (Nat.ltb_spec (i + len) (npages s)) as [Hlt|Hge].
  2:{ apply Hno. intros b Hb _ E. pose proof (iv_bound _ _ _ _ b (bstart b) H ltac:(by right) ltac:(by apply start_in; eapply iv_len; [exact H|right])). lia. }
  destruct (next_start _ _ _ _ _ _ _ H Hlt) as (l & k & bs' & Hp). set (B := Block (i + len) l k) in *.
  assert (HB : B ∈ bs) by (rewrite Hp; by left). assert (Hvj : valid s (Page (i + len)) = true) by by apply Nat.ltb_lt.
  rewrite (rd_ok _ _ Hvj). cbn [mbind option_bind].
  pose proof (neighbour s _ fl sl B H ltac:(by right) ltac:(rewrite list.Forall_forall in Hset; by apply Hset)) as Hn. cbn zeta in Hn. cbn [bstart bkind B] in Hn.
  rewrite Hn. destruct k as [| | | |]; try by (apply Hno; intros b Hb Hk E; assert (b = B) as -> by (by eapply same_start; [exact H|right|right|]); done).
  pose proof (block_ok_in _ _ _ _ B H ltac:(by right)) as HBok. destruct HBok as (Hl0 & B1 & B2 & B3 & B4). cbn [bstart blen bkind B] in *.
  rewrite B1. apply (inv_perm _ _ (Block i len KRaw :: B :: bs')) in H; [|by rewrite Hp].
  destruct (raw_wr _ _ _ _ _ _ i (set_slab (Z.of_nat len + Z.of_nat l)) H ltac:(lia)) as [-> I1]. cbn [mbind option_bind].
  set (s1 := set_mem (alter _ _ _) s) in *. apply (inv_perm _ _ (B :: Block i len KRaw :: bs')) in I1; [|by apply Permutation_swap].
  apply (weaken _ _ _ _ (KLinked Free)) in I1; [|done].
  destruct (detach_free _ _ _ _ _ _ I1) as (m2 & fl2 & E2 & I2 & _ & _ & Hsl). unfold B in E2. cbn [bstart] in E2. rewrite E2. cbn [mbind option_bind].
  destruct (raw_wr _ _ _ _ _ _ (i + len)%nat (fun _ => Node NGX_SLAB_PAGE_FREE Null Null NGX_SLAB_PAGE) I2 ltac:(lia)) as [E3 I3].
  rewrite E3. cbn [mbind option_bind]. apply (inv_perm _ _ (Block i len KRaw :: Block (i + len) l KRaw :: bs')) in I3; [|by apply Permutation_swap].
  apply raw_join in I3. cbn [mem set_mem] in I3 |- *.
  match type of I3 with inv (set_mem ?m _) _ _ _ => set (m3 := m) in * end. exists m3, l, bs', fl2. split_and!; [done|done| | |].
  - split.
    + cbn. unfold m3, alter, fn_alter. rewrite decide_False by (intros [=]; lia). destruct (Hsl i) as [-> _]. cbn. unfold alter, fn_alter. rewrite decide_True by done. cbn. lia.
    + intros p Hp'. cbn. unfold m3, alter, fn_alter. destruct (decide (Page (i + len) = Page p)) as [Hd|Hd]; [split; reflexivity|]. destruct (Hsl p) as [-> ->]. cbn. unfold alter, fn_alter. rewrite decide_False by (intros [=]; lia).
      destruct (decide (p < i + len)%nat) as [?|?]; [apply Hz; lia|]. assert (p <> i + len)%nat by congruence. apply B3. lia.
  - unfold joined. rewrite (proj2 (Nat.eqb_neq _ _)) by lia. done.
  - intros b Hb Hk. rewrite Nat.add_assoc. apply (iv_adj _ _ _ _ H B b); [set_solver|set_solver|done|done].
Qed.

Lemma run_slab_nz len : slab (run_node len) <> 0.
Proof.
  cbn. intros E. assert (T : Z.testbit (Z.lor (Z.of_nat len) NGX_SLAB_PAGE_START) 63 = true) by (rewrite Z.lor_spec; by rewrite orb_true_r).
  rewrite E in T. done.
Qed.

(** The page in front of a block, as join_prev reads it: the start of a free run, or no run that can be joined. *)
Lemma before s bs fl sl b : inv s bs fl sl -> b ∈ bs -> settled b -> (bstart b + blen b < npages s)%nat ->
  let n := mem s (Page (bstart b + blen b - 1)) in
  match bkind b with
  | KFree => ptype n = 0 /\ (if slab n =? NGX_SLAB_PAGE_FREE then prev n = Page (bstart b) else (bstart b + blen b - 1)%nat = bstart b)
  | _ => ptype n <> 0 \/ (slab n <> 0 /\ next n = Null)
  end.
Proof.
  intros H Hb Hs Hlt n. destruct (block_ok_in _ _ _ _ _ H Hb) as [Hl Hk]. unfold settled in Hs.
  destruct (bkind b) as [| | | |shift bits listed] eqn:E; try done.
  - destruct Hk as (K1 & K2 & K3 & K4). destruct (decide (blen b = 1)%nat) as [Hd|Hd].
    + subst n. rewrite Hd, Nat.add_sub in *. rewrite K1, K2. done.
    + destruct (K3 (bstart b + blen b - 1)%nat) as [Z1 Z2]; [lia|]. subst n. rewrite Z1, Z2. split; [done|]. apply K4; lia.
  - destruct Hk as [K1 K2]. right. destruct (decide (blen b = 1)%nat) as [Hd|Hd].
    + subst n. rewrite Hd, Nat.add_sub, K1. split; [apply run_slab_nz|done].
    + subst n. rewrite K2 by lia. done.
  - destruct Hk as [K1 [_ Ht _ _ _ _]]. left. subst n. rewrite K1, Nat.add_sub, Ht. apply type_of_nz.
Qed.

(** A free run takes in the raw block behind it. *)
Lemma join_front s j l i len bs fl sl : (j + l = i)%nat ->
  inv s (Block j l KFree :: Block i len KRaw :: bs) fl sl -> raw_free s i len -> exists s1 s2 m fl',
  wr (Page j) (set_slab (Z.of_nat l + Z.of_nat len)) s = Some s1 /\ unlink (Page j) s1 = Some s2 /\
  wr (Page i) (fun _ => Node NGX_SLAB_PAGE_FREE Null Null NGX_SLAB_PAGE) s2 = Some (set_mem m s) /\
  inv (set_mem m s) (Block j (l + len) KRaw :: bs) fl' sl /\ raw_free (set_mem m s) j (l + len).
Proof.
  intros Ej H [_ Hz]. destruct (block_ok_in _ _ _ _ _ H ltac:(by left)) as (Hl & _ & _ & B3 & _). pose proof (iv_len _ _ _ _ (Block i len KRaw) H ltac:(set_solver)) as Hlen.
  cbn [bstart blen] in Hl, B3, Hlen. assert (Hv := block_valid s _ fl sl _ j H ltac:(by left) ltac:(cbn; lia)).
  apply (weaken _ _ _ _ (KLinked Free)) in H; [|done]. set (g := set_slab (Z.of_nat l + Z.of_nat len)).
  assert (I1 : inv (set_mem (alter g (Page j) (mem s)) s) (Block j l (KLinked Free) :: Block i len KRaw :: bs) fl sl).
  { eapply block_step; [exact H|apply touch_write; lia| |done|done|done|done]. left. unfold links_kept. cbn. unfold alter, fn_alter. by rewrite decide_True. }
  destruct (detach_free _ _ _ _ _ _ I1) as (m2 & fl2 & E2 & I2 & _ & _ & Hsl).
  apply (inv_perm _ _ (Block i len KRaw :: Block j l KRaw :: bs)) in I2; [|by apply Permutation_swap].
  destruct (raw_wr _ _ _ _ _ _ i (fun _ => Node NGX_SLAB_PAGE_FREE Null Null NGX_SLAB_PAGE) I2 ltac:(lia)) as [E3 I3].
  apply (inv_perm _ _ (Block j l KRaw :: Block (j + l) len KRaw :: bs)) in I3; [|rewrite Ej; by apply Permutation_swap].
  apply raw_join in I3. cbn [mem set_mem] in I3. match type of I3 with inv (set_mem ?m _) _ _ _ => set (m3 := m) in * end.
  eexists _, _, m3, fl2. split_and!; [by apply wr_ok|exact E2|exact E3|exact I3|]. split.
  - cbn. unfold m3, alter, fn_alter. rewrite decide_False by (intros [=]; lia). destruct (Hsl j) as [-> _]. cbn. unfold alter, fn_alter. rewrite decide_True by done. cbn. lia.
  - intros p Hp'. cbn. unfold m3, alter, fn_alter. destruct (decide (Page i = Page p)) as [Hd|Hd]; [split; reflexivity|].
    destruct (Hsl p) as [-> ->]. cbn. unfold alter, fn_alter. rewrite decide_False by (intros [=]; lia).
    destruct (decide (p < i)%nat) as [?|?]; [apply B3; lia|]. assert (p <> i)%nat by congruence. apply Hz. lia.
Qed.

Lemma join_prev_ok s i len pages bs fl sl :
  inv s (Block i len KRaw :: bs) fl sl -> raw_free s i len -> Forall settled bs ->
  exists m' j l bs' fl', join_prev i pages s = Some (j, pages + Z.of_nat l, set_mem m' s) /\ (j + l = i)%nat /\
  inv (set_mem m' s) (Block j (l + len) KRaw :: bs') fl' sl /\ raw_free (set_mem m' s) j (l + len) /\
  bs ≡ₚ joined j l ++ bs' /\ (forall b, b ∈ bs' -> bkind b = KFree -> j <> (bstart b + blen b)%nat).
Proof.
  intros H [Hs Hz] Hset. pose proof (iv_len _ _ _ _ _ H ltac:(by left)) as Hl. cbn in Hl.
  assert (Hv := block_valid s _ fl sl (Block i len KRaw) i H ltac:(by left) ltac:(cbn; lia)). unfold join_prev.
  assert (Hno : (forall b, b ∈ bs -> bkind b = KFree -> i <> (bstart b + blen b)%nat) -> exists m' j l bs' fl',
    Some (i, pages, s) = Some (j, pages + Z.of_nat l, set_mem m' s) /\ (j + l = i)%nat /\
    inv (set_mem m' s) (Block j (l + len) KRaw :: bs') fl' sl /\ raw_free (set_mem m' s) j (l + len) /\
    bs ≡ₚ joined j l ++ bs' /\ (forall b, b ∈ bs' -> bkind b = KFree -> j <> (bstart b + blen b)%nat)).
  { intros Hn. exists (mem s), i, 0%nat, bs, fl. rewrite set_mem_id, Z.add_0_r, Nat.add_0_r. done. }
  destruct (Nat.ltb_spec 0 i) as [Hlt|Hge].
  2:{ apply Hno. intros b Hb _ E. pose proof (iv_len _ _ _ _ b H ltac:(by right)). lia. }
  destruct (prev_end _ _ _ _ _ _ _ H Hlt) as (j & l & k & bs' & Hp & Ej & Hl0). set (B := Block j l k) in *.
  assert (HB : B ∈ bs) by (rewrite Hp; by left).
  assert (HvB : forall p, (j <= p < i)%nat -> valid s (Page p) = true) by (intros p Hr; eapply (block_valid s _ fl sl B p); [exact H|by right|unfold B; cbn [bstart blen]; lia]).
  rewrite (rd_ok s (Page (i - 1))) by (apply HvB; lia). cbn [mbind option_bind].
  assert (HBs : settled B) by (rewrite list.Forall_forall in Hset; by apply Hset).
  pose proof (before s _ fl sl B H ltac:(by right) HBs ltac:(unfold B; cbn [bstart blen]; rewrite Ej; by apply Nat.ltb_lt)) as Hn. cbn zeta in Hn. cbn [bstart blen bkind B] in Hn. rewrite Ej in Hn.
  assert (Hother : k <> KFree -> forall b, b ∈ bs -> bkind b = KFree -> i <> (bstart b + blen b)%nat).
  { intros Hk b Hb Hkb E. assert (b = B) as -> by (eapply same_end; [exact H|by right|by right|unfold B; cbn [bstart blen]; lia]). done. }
  destruct (decide (k = KFree)) as [Hk|Hk].
  2:{ assert (Hn' : ptype (mem s (Page (i - 1))) <> 0 \/ (slab (mem s (Page (i - 1))) <> 0 /\ next (mem s (Page (i - 1))) = Null)) by (destruct k; done).
      destruct (Z.eqb_spec (ptype (mem s (Page (i - 1)))) NGX_SLAB_PAGE) as [Ht|]; [|by apply Hno, Hother].
      destruct Hn' as [?|[Hn1 Hn2]]; [done|]. rewrite (proj2 (Z.eqb_neq _ _)) by done. cbn [mbind option_bind].
      rewrite (rd_ok s (Page (i - 1))) by (apply HvB; lia). cbn [mbind option_bind].
      rewrite bool_decide_true by done. by apply Hno, Hother. }
  rewrite Hk in Hn. destruct Hn as [Ht Hj]. rewrite Ht. cbn [NGX_SLAB_PAGE Z.eqb].
  assert (Ejn : (if slab (mem s (Page (i - 1))) =? NGX_SLAB_PAGE_FREE then match prev (mem s (Page (i - 1))) with Page j => Some j | _ => None end else Some (i - 1)%nat) = Some j).
  { destruct (_ =? _); [by rewrite Hj|by rewrite Hj]. }
  rewrite Ejn. cbn [mbind option_bind]. rewrite (rd_ok s (Page j)) by (apply HvB; lia). cbn [mbind option_bind].
  pose proof (neighbour s _ fl sl B H ltac:(by right) HBs) as Hn. cbn zeta in Hn. cbn [bstart bkind B] in Hn. rewrite Hk in Hn.
  apply andb_true_iff in Hn as [_ Hn]. rewrite Hn. rewrite (rd_ok _ _ Hv). cbn [mbind option_bind]. rewrite Hs.
  destruct (block_ok_in _ _ _ _ B H ltac:(by right)) as (_ & HBok). unfold B in HBok. cbn [bstart blen bkind] in HBok. rewrite Hk in HBok.
  destruct HBok as (B1 & B2 & B3 & B4). rewrite B1. subst k.
  apply (inv_perm _ _ (B :: Block i len KRaw :: bs')) in H; [|rewrite Hp; by apply Permutation_swap].
  destruct (join_front s j l i len bs' fl sl Ej H (conj Hs Hz)) as (s1 & s2 & m3 & fl' & E1 & E2 & E3 & I3 & R3).
  rewrite E1. cbn [mbind option_bind]. rewrite E2. cbn [mbind option_bind]. rewrite E3. cbn [mbind option_bind].
  exists m3, j, l, bs', fl'. split_and!; [done|done|done|done| |].
  - unfold joined. rewrite (proj2 (Nat.eqb_neq _ _)) by lia. done.
  - intros b Hb Hkb. apply (iv_adj _ _ _ _ H b B); [set_solver|set_solver|done|done].
Qed.

Lemma settled_perm bs bs' l : bs ≡ₚ l ++ bs' -> Forall settled bs -> Forall settled bs'.
Proof. intros -> H. by apply list.Forall_app in H as [_ ?]. Qed.

Lemma free_pages_ok s i len K bs fl sl :
  inv s (Block i len K :: bs) fl sl -> K = KRun \/ (exists k, (k < nslots)%nat /\ K = KLinked (Slot k) /\ len = 1%nat) -> Forall settled bs ->
  exists m' j a b bs' fl' sl', ngx_slab_free_pages i (Z.of_nat len) s = Some (set_mem m' (set_pfree (u64 (pfree s + Z.of_nat len)) s)) /\
  (j + a = i)%nat /\ inv (set_mem m' s) (Block j (a + (len + b)) KFree :: bs') fl' sl' /\
  bs ≡ₚ joined j a ++ joined (i + len) b ++ bs'.
Proof.
  intros H HK Hset. set (v := u64 (pfree s + Z.of_nat len)).
  assert (Hpf : forall m bs fl sl, inv (set_mem m s) bs fl sl -> inv (set_mem m (set_pfree v s)) bs fl sl) by (intros m ? ? ?; by apply inv_other).
  destruct (clear_run_ok _ _ _ _ _ _ _ H HK) as (m1 & sl1 & E1 & I1 & R1). apply Hpf in I1.
  destruct (join_next_ok _ _ _ (Z.of_nat len - 1) _ _ _ I1 R1 Hset) as (m2 & b & bs2 & fl2 & E2 & I2 & R2 & P2 & A2).
  assert (Hset2 := settled_perm _ _ _ P2 Hset).
  destruct (join_prev_ok _ _ _ (Z.of_nat len - 1 + Z.of_nat b) _ _ _ I2 R2 Hset2) as (m3 & j & a & bs3 & fl3 & E3 & Ej & I3 & R3 & P3 & A3).
  destruct (push_run_ok _ _ _ _ _ _ I3 R3) as (m4 & E4 & I4).
  { intros c Hc Hk. split; [|by apply A3]. replace (j + (a + (len + b)))%nat with (i + (len + b))%nat by lia. apply A2; [|done].
    rewrite P3. set_solver. }
  exists m4, j, a, b, bs3, (j :: fl3), sl1. split_and!; [|done| |].
  - unfold ngx_slab_free_pages. rewrite E1. cbn [mbind option_bind]. fold v. change (set_mem m1 (set_pfree v s)) with (set_mem m1 (set_pfree v s)).
    rewrite E2. cbn [mbind option_bind]. rewrite E3. cbn [mbind option_bind].
    replace (Z.of_nat len - 1 + Z.of_nat b + Z.of_nat a) with (Z.of_nat (a + (len + b)) - 1) by lia. rewrite E4. done.
  - by apply (inv_other (set_mem m4 (set_pfree v s))).
  - rewrite P2, P3. by rewrite !app_assoc, (Permutation_app_comm (joined j a) (joined (i + len) b)).
Qed.

(** ** ngx_slab_alloc_pages *)

Lemma find_run_ok l : forall fuel x pages s, (length l < fuel)%nat -> (forall a, a ∈ l -> (a < npages s)%nat) -> dl (mem s) Free 0 x l ->
  exists r, find_run fuel (headp Free l) pages s = Some r /\
  match r with
  | None => forall a, a ∈ l -> slab (mem s (Page a)) < pages
  | Some a => a ∈ l /\ slab (mem s (Page a)) >= pages
  end.
Proof.
  induction l as [|a l IH]; intros [|fuel] x pages s Hf Hlt Hd; try (cbn in Hf; lia).
  - exists None. split; [done|]. set_solver.
  - cbn [headp find_run]. rewrite rd_ok by (apply Nat.ltb_lt, Hlt; set_solver). cbn [mbind option_bind].
    destruct (Z.geb_spec (slab (mem s (Page a))) pages) as [Hge|Hlt'].
    + exists (Some a). split; [done|]. split; [set_solver|lia].
    + destruct Hd as (_ & _ & _ & Hd). pose proof Hd as Hn%dl_head. rewrite Hn.
      destruct (IH fuel (Page a) pages s) as (r & -> & Hr); [cbn in Hf; lia|set_solver|done|]. exists r. split; [done|].
      destruct r as [b|]; [split; [set_solver|tauto]|]. intros b [->|Hb]%elem_of_cons; [done|auto].
Qed.

Lemma nodup_bound (l : list nat) n : NoDup l -> (forall a, a ∈ l -> (a < n)%nat) -> (length l <= n)%nat.
Proof.
  intros Hn Hl. rewrite <- (length_seq n 0). apply submseteq_length, NoDup_submseteq; [done|].
  intros a Ha. apply elem_of_seq. specialize (Hl a Ha). lia.
Qed.

(** The links of a block in the free list. *)
Lemma free_links s j len K bs fl sl : inv s (Block j len K :: bs) fl sl -> is_free (Block j len K) = true ->
  exists l1 l2, fl = l1 ++ j :: l2 /\ prev (mem s (Page j)) = lastp Free l1 /\ next (mem s (Page j)) = headp Free l2 /\
  ptype (mem s (Page j)) = 0 /\ l1 ++ l2 ≡ₚ omap free_start bs /\ dl (mem s) Free 0 Free (l1 ++ j :: l2).
Proof.
  intros H Hf. pose proof (iv_fl _ _ _ _ H) as Hfl. rewrite omap_cons, Hf in Hfl. cbn [bstart] in Hfl.
  assert (Hj : j ∈ fl) by (rewrite Hfl; set_solver). apply list_elem_of_split in Hj as (l1 & l2 & ->). exists l1, l2.
  pose proof (iv_free _ _ _ _ H) as Hd. assert (Hd' := Hd). apply dl_app in Hd' as (_ & Hp & Ht & Hn). apply dl_head in Hn.
  split_and!; try done. rewrite <- Permutation_middle in Hfl. by apply Permutation_cons_inv in Hfl.
Qed.

(** The whole run leaves the list. *)
Lemma take_whole s i len bs fl sl :
  inv s (Block i len KFree :: bs) fl sl -> let n := mem s (Page i) in exists m' fl',
  (s1 ← wr (prev n) (set_next (next n)) s; wr (next n) (set_prev (prev n) (ptype n)) s1) = Some (set_mem m' s) /\
  inv (set_mem m' s) (Block i len KRaw :: bs) fl' sl.
Proof.
  intros H n. assert (HL := H). apply (weaken _ _ _ _ (KLinked Free)) in HL; [|done].
  destruct (detach_free _ _ _ _ _ _ HL) as (m' & fl' & E & I & _). exists m', fl'. split; [|done]. rewrite <- E. unfold unlink.
  rewrite rd_ok by (eapply block_valid; [exact H|by left|]; cbn; pose proof (iv_len _ _ _ _ _ H ltac:(by left)); cbn in *; lia).
  cbn [mbind option_bind]. fold n. destruct (free_links _ _ _ _ _ _ _ H) as (l1 & l2 & -> & Hp & Hn & Ht & _ & Hd); [done|].
  destruct (ring_facts Free l1 i l2 ltac:(done) (fl_nodup _ _ _ _ H)) as (F1 & _ & F3 & _).
  assert (Hvp : valid s (prev n) = true).
  { unfold n. rewrite Hp. apply (valid_in s Free (l1 ++ l2)); [done| |done]. intros c Hc. eapply fl_bound; [exact H|set_solver]. }
  assert (Hne : prev n <> Page i) by (unfold n; by rewrite Hp). rewrite !(wr_ok s (prev n)) by done. cbn [mbind option_bind].
  rewrite rd_ok by (rewrite valid_set_mem; eapply block_valid; [exact H|by left|]; cbn; pose proof (iv_len _ _ _ _ _ H ltac:(by left)); cbn in *; lia).
  cbn [mbind option_bind set_mem mem]. unfold alter, fn_alter. by rewrite decide_False.
Qed.

(** The rest of a run whose beginning is taken: its descriptors, *)
Lemma rest_block s m1 m' i a b T nx pr : (0 < a)%nat -> (0 < b)%nat -> block_ok s (Block i (a + b) KFree) ->
  m1 = alter (fun _ => Node (Z.of_nat b) nx pr 0) (Page (i + a)) (alter (set_prev (Page (i + a)) 0) (Page (i + (a + b) - 1)) (mem s)) ->
  relinked Free T m1 m' -> (forall c, c ∈ T -> ~ (i <= c < i + (a + b))%nat) -> block_ok (set_mem m' s) (Block (i + a) b KFree).
Proof.
  intros Ha Hb (_ & K1 & K2 & K3 & K4) Hm1 [R1 R2] Hout. cbn [bstart blen bkind] in K1, K2, K3, K4.
  assert (Hin : forall p, (i + a < p < i + (a + b))%nat -> m' (Page p) = m1 (Page p)).
  { intros p Hp'. apply R1. rewrite elem_of_cons, page_in. intros [[=]|Hc]. apply (Hout p Hc). lia. }
  assert (Hrest : m1 (Page (i + a)) = Node (Z.of_nat b) nx pr 0) by (rewrite Hm1; unfold alter, fn_alter; by rewrite decide_True).
  split; [done|]. cbn [bstart blen bkind mem set_mem]. split_and!.
  - destruct (R2 (i + a)%nat) as [-> _]. by rewrite Hrest.
  - destruct (R2 (i + a)%nat) as [_ ->]. by rewrite Hrest.
  - intros p Hp'. rewrite Hin by lia. destruct (K3 p) as [Z1 Z2]; [lia|]. rewrite Hm1. unfold alter, fn_alter. rewrite decide_False by (intros [=]; lia).
    destruct (decide (Page (i + (a + b) - 1) = Page p)) as [Ep|]; [rewrite Ep; split; [exact Z1|reflexivity]|done].
  - intros Hb1 _. rewrite Hin by lia. rewrite Hm1. unfold alter, fn_alter. rewrite decide_False by (intros [=]; lia).
    rewrite decide_True by (f_equal; lia). done.
Qed.

(** and that it is next to no free run. *)
Lemma rest_adjacent s i a b bs fl sl b1 b2 : (0 < a)%nat -> (0 < b)%nat -> inv s (Block i (a + b) KFree :: bs) fl sl ->
  b1 ∈ Block i a KRaw :: Block (i + a) b KFree :: bs -> b2 ∈ Block i a KRaw :: Block (i + a) b KFree :: bs ->
  bkind b1 = KFree -> bkind b2 = KFree -> bstart b2 <> (bstart b1 + blen b1)%nat.
Proof.
  intros Ha Hb H. pose proof (iv_nodup _ _ _ _ H) as Hpn. pose proof (iv_adj _ _ _ _ H) as H4.
  intros [->|[->|Hb1]%elem_of_cons]%elem_of_cons [->|[->|Hb2]%elem_of_cons]%elem_of_cons K1 K2; try done; cbn.
  - lia.
  - rewrite <- Nat.add_assoc. apply (H4 (Block i (a + b) KFree) b2); [set_solver|set_solver|done|done].
  - intros E. pose proof (iv_len _ _ _ _ b1 H ltac:(set_solver)) as Hl. apply (head_disjoint _ _ (i + a - 1)%nat b1 Hpn Hb1); rewrite pages_in; cbn; lia.
  - apply H4; (done || by right).
Qed.

(** The beginning of the run is taken, its rest takes its place in the list. *)
Lemma take_part s i a b bs fl sl : (0 < a)%nat -> (0 < b)%nat ->
  inv s (Block i (a + b) KFree :: bs) fl sl -> let n := mem s (Page i) in exists m' fl',
  (s1 ← wr (Page (i + (a + b) - 1)) (set_prev (Page (i + a)) 0) s;
   s1 ← wr (Page (i + a)) (fun _ => Node (Z.of_nat b) (next n) (prev n) (ptype n)) s1;
   s1 ← wr (prev n) (set_next (Page (i + a))) s1;
   wr (next n) (set_prev (Page (i + a)) 0) s1) = Some (set_mem m' s) /\
  inv (set_mem m' s) (Block i a KRaw :: Block (i + a) b KFree :: bs) fl' sl.
Proof.
  intros Ha Hb H n. assert (Hv := fun p => block_valid s _ fl sl _ p H ltac:(by left)). cbn in Hv.
  destruct (free_links _ _ _ _ _ _ _ H) as (l1 & l2 & -> & Hp & Hn & Ht & Hperm & Hd); [done|]. fold n in Hp, Hn, Ht.
  pose proof (fl_nodup _ _ _ _ H) as Hnd. pose proof (iv_nodup _ _ _ _ H) as Hpn.
  destruct (ring_facts Free l1 i l2 ltac:(done) Hnd) as (_ & _ & F3 & F4 & _ & _ & _ & _ & _ & Hni).
  assert (Hlt : forall c, c ∈ l1 ++ l2 -> (c < npages s)%nat) by (intros c Hc; eapply fl_bound; [exact H|set_solver]).
  assert (Hout : forall c, c ∈ l1 ++ l2 -> ~ (i <= c < i + (a + b))%nat).
  { intros c Hc Hin. assert (c = i) as ->; [|done]. eapply listed_head; [exact Hpn| |rewrite <- (iv_fl _ _ _ _ H); set_solver|done].
    pose proof (iv_lens _ _ _ _ H) as Hl. by inversion Hl. }
  rewrite wr_ok by (apply Hv; lia). cbn [mbind option_bind]. rewrite wr_ok by (rewrite valid_set_mem; apply Hv; lia). cbn [mbind option_bind].
  rewrite Hp, Hn, Ht. rewrite wr_ok by (by apply (valid_in s Free (l1 ++ l2))). cbn [mbind option_bind].
  rewrite wr_ok by (by apply (valid_in s Free (l1 ++ l2))). cbn [set_mem mem].
  set (m1 := alter _ (Page (i + a)) _).
  assert (Hm1 : forall q, (forall p, (i + a <= p < i + (a + b))%nat -> q <> Page p) -> m1 q = mem s q).
  { intros q Hq. unfold m1, alter, fn_alter. rewrite decide_False by (intros <-; by apply (Hq (i + a)%nat); [lia|]).
    rewrite decide_False by (intros <-; by apply (Hq (i + (a + b) - 1)%nat); [lia|]). done. }
  assert (Hring : forall q, q ∈ Free :: map Page (l1 ++ l2) -> m1 q = mem s q).
  { intros q [->|(c & -> & Hc)%list_elem_of_fmap]%elem_of_cons; apply Hm1; [done|]. intros p Hp' [= ->]. apply (Hout p Hc). lia. }
  assert (Hrest : m1 (Page (i + a)) = Node (Z.of_nat b) (headp Free l2) (lastp Free l1) 0).
  { unfold m1, alter, fn_alter. by rewrite decide_True. }
  destruct (dl_replace (mem s) m1 Free 0 l1 i l2 (i + a)) as [D R]; try done; try by rewrite Hrest.
  { intros Hin. assert (Hc : (i + a)%nat ∈ l1 ++ l2 \/ (i + a)%nat = i) by set_solver. destruct Hc as [Hc|]; [apply (Hout _ Hc); lia|lia]. }
  cbv zeta in D, R. match type of D with dl ?m _ _ _ _ => set (m' := m) in * end. exists m', (l1 ++ (i + a)%nat :: l2). split; [done|].
  assert (Hok : block_ok (set_mem m' s) (Block (i + a) b KFree)).
  { apply (rest_block s m1 m' i a b (l1 ++ l2) (headp Free l2) (lastp Free l1)); try done. eapply block_ok_in; [exact H|by left]. }
  assert (HH := H). destruct H as [H1 H2 H3 H4 H5 H6 H7 H8]. inversion H3 as [|? ? Hb0 Hbs]; subst. constructor; try done.
  - rewrite <- H2. unfold all_pages, pages_of. cbn [map concat bstart blen]. by rewrite seq_app, app_assoc.
  - constructor; [done|]. constructor; [done|]. eapply attach_blocks; [exact Hpn| |exact R|done| |done].
    + constructor; try done. intros q Hq. apply Hm1. intros p Hp'. apply Hq. lia.
    + intros t. rewrite Hperm. apply fl_open.
  - intros b1 b2. by apply (rest_adjacent s i a b bs (l1 ++ i :: l2) sl b1 b2).
  - rewrite !omap_cons. cbn [is_free bkind bstart]. by rewrite <- Permutation_middle, Hperm.
  - intros k Hk. apply (dl_other Free (l1 ++ l2) m1); try done.
    + intros p Hp' Hin. apply (lists_disjoint _ _ _ _ k p HH Hk); [set_solver|done].
    + apply (dl_same (mem s)); [|by apply H7]. intros q [->|(c & -> & Hc)%list_elem_of_fmap]%elem_of_cons; apply Hm1; [done|].
      intros p Hp' [= ->]. rewrite (H8 k Hk) in Hc. eapply listed_head in Hc as [_ Hc]; [by rewrite free_open in Hc|done| |cbn; lia].
      pose proof (iv_lens _ _ _ _ HH) as Hl. by inversion Hl.
Qed.

(** The descriptors of an allocated run. *)
Lemma mark_run s i a bs fl sl : inv s (Block i a KRaw :: bs) fl sl -> exists m',
  (s1 ← wr (Page i) (fun _ => Node (Z.lor (Z.of_nat a) NGX_SLAB_PAGE_START) Null Null NGX_SLAB_PAGE) s;
   fill (Z.to_nat (Z.of_nat a) - 1) (S i) (Node NGX_SLAB_PAGE_BUSY Null Null NGX_SLAB_PAGE)
     (set_pfree (u64 (pfree s1 - Z.of_nat a)) s1)) = Some (set_mem m' (set_pfree (u64 (pfree s - Z.of_nat a)) s)) /\
  inv (set_mem m' s) (Block i a KRun :: bs) fl sl.
Proof.
  intros H. pose proof (iv_len _ _ _ _ _ H ltac:(by left)) as Hl. cbn in Hl.
  destruct (raw_wr _ _ _ _ _ _ i (fun _ => run_node a) H ltac:(lia)) as [E _]. unfold run_node in E. rewrite E. cbn [mbind option_bind].
  set (v := u64 _). set (s1 := set_pfree v _). destruct (fill_ok (Z.to_nat (Z.of_nat a) - 1) (S i) busy_node s1) as (m' & E' & Hm').
  { pose proof (iv_bound _ _ _ _ (Block i a KRaw) (i + a - 1)%nat H ltac:(by left) ltac:(apply pages_in; cbn; lia)). cbn. lia. }
  unfold busy_node in E'. rewrite E'. exists m'. split; [done|].
  assert (Hi : m' (Page i) = run_node a) by (rewrite Hm', decide_False by lia; cbn; unfold alter, fn_alter; by rewrite decide_True).
  eapply block_step; [exact H| |by right|done|done|done|].
  - constructor; try done. intros q Hq. cbn. rewrite Hm'. destruct q as [| | |p]; try done.
    assert (Hp : ~ (i <= p < i + a)%nat) by (intros Hp; by apply (Hq p)). rewrite decide_False by lia. cbn. unfold alter, fn_alter.
    rewrite decide_False; [done|]. intros [= ->]. lia.
  - split; [done|]. cbn [bkind bstart blen mem set_mem]. split; [done|]. intros p Hp. rewrite Hm'. by rewrite decide_True by lia.
Qed.

Lemma take_run_ok s i a len bs fl sl : (0 < a <= len)%nat -> inv s (Block i len KFree :: bs) fl sl -> exists m' fl',
  take_run i (Z.of_nat a) s = Some (set_mem m' (set_pfree (u64 (pfree s - Z.of_nat a)) s)) /\
  inv (set_mem m' s) (Block i a KRun :: joined (i + a) (len - a) ++ bs) fl' sl.
Proof.
  intros Ha H. unfold take_run. rewrite rd_ok by (eapply block_valid; [exact H|by left|cbn; lia]). cbn [mbind option_bind].
  destruct (block_ok_in _ _ _ _ _ H ltac:(by left)) as (_ & K1 & K2 & _). cbn [bstart blen bkind] in K1, K2.
  unfold cast_prev. rewrite K2. cbn [Z.eqb mbind option_bind]. rewrite K1, !Nat2Z.id.
  assert (Hfin : forall m fl', inv (set_mem m s) (Block i a KRaw :: joined (i + a) (len - a) ++ bs) fl' sl -> exists m' fl',
    (s1 ← wr (Page i) (fun _ => Node (Z.lor (Z.of_nat a) NGX_SLAB_PAGE_START) Null Null NGX_SLAB_PAGE) (set_mem m s);
     fill (a - 1) (S i) (Node NGX_SLAB_PAGE_BUSY Null Null NGX_SLAB_PAGE) (set_pfree (u64 (pfree s1 - Z.of_nat a)) s1))
    = Some (set_mem m' (set_pfree (u64 (pfree s - Z.of_nat a)) s)) /\
    inv (set_mem m' s) (Block i a KRun :: joined (i + a) (len - a) ++ bs) fl' sl).
  { intros m fl' I. destruct (mark_run _ _ _ _ _ _ I) as (m' & E & I'). rewrite Nat2Z.id in E. exists m', fl'. by rewrite E. }
  destruct (Z.gtb_spec (Z.of_nat len) (Z.of_nat a)) as [Hgt|Hle].
  - replace len with (a + (len - a))%nat in H by lia.
    destruct (take_part s i a (len - a) bs fl sl ltac:(lia) ltac:(lia) H) as (m & fl' & E & I). rewrite <- K2. replace (a + (len - a))%nat with len in E by lia.
    replace (Z.of_nat (len - a)) with (Z.of_nat len - Z.of_nat a) in E by lia. rewrite K2 in E |- *. rewrite E. cbn [mbind option_bind]. apply Hfin with fl'.
    unfold joined. by rewrite (proj2 (Nat.eqb_neq _ _)) by lia.
  - assert (a = len) as -> by lia. destruct (take_whole _ _ _ _ _ _ H) as (m & fl' & E & I). rewrite K2 in E. rewrite E. cbn [mbind option_bind].
    apply Hfin with fl'. by rewrite Nat.sub_diag.
Qed.

Lemma settled_free b : settled b -> is_free b = true -> bkind b = KFree.
Proof. unfold settled, is_free. by destruct (bkind b). Qed.

Lemma alloc_pages_ok s pages bs fl sl : 0 < pages -> inv s bs fl sl -> Forall settled bs ->
  (exists i len bs' m' fl', ngx_slab_alloc_pages pages s = Some (Some i, set_mem m' (set_pfree (u64 (pfree s - pages)) s)) /\
     bs ≡ₚ Block i len KFree :: bs' /\ (Z.to_nat pages <= len)%nat /\
     inv (set_mem m' s) (Block i (Z.to_nat pages) KRun :: joined (i + Z.to_nat pages) (len - Z.to_nat pages) ++ bs') fl' sl) \/
  (ngx_slab_alloc_pages pages s = Some (None, s) /\ Forall (fun b => bkind b = KFree -> Z.of_nat (blen b) < pages) bs).
Proof.
  intros Hpos H Hset. rewrite list.Forall_forall in Hset. unfold ngx_slab_alloc_pages. rewrite rd_ok by done. cbn [mbind option_bind].
  rewrite (free_next _ _ _ _ H).
  assert (Hb : forall a, a ∈ fl -> (a < npages s)%nat) by (intros a; by eapply fl_bound).
  pose proof (nodup_bound fl (npages s) (fl_nodup _ _ _ _ H) Hb) as Hlen.
  destruct (find_run_ok fl (S (npages s)) Free pages s) as (r & -> & Hr); [lia|done|by eapply iv_free|].
  assert (Hfree : forall b, b ∈ bs -> bkind b = KFree -> slab (mem s (Page (bstart b))) = Z.of_nat (blen b)).
  { intros b Hin Hk. destruct (block_ok_in _ _ _ _ _ H Hin) as [_ Hok]. rewrite Hk in Hok. by destruct Hok. }
  cbn [mbind option_bind]. destruct r as [i|].
  - left. destruct Hr as [Hi Hge]. rewrite (iv_fl _ _ _ _ H), start_if_in in Hi. destruct Hi as (b & Hin & Hf & <-).
    apply settled_free in Hf; [|by apply Hset]. rewrite (Hfree b Hin Hf) in Hge. destruct b as [i len k]. cbn in Hf, Hge |- *. subst k.
    apply elem_of_Permutation in Hin as (bs' & Hp). apply (inv_perm _ _ _ _ _ Hp) in H.
    destruct (take_run_ok s i (Z.to_nat pages) len bs' fl sl) as (m' & fl' & E & I); [lia|done|]. rewrite Z2Nat.id in E by lia.
    exists i, len, bs', m', fl'. rewrite E. cbn [mbind option_bind]. split_and!; [done|done|lia|done].
  - right. split; [done|]. apply list.Forall_forall. intros b Hin Hk. rewrite <- (Hfree b Hin Hk). apply Hr.
    rewrite (iv_fl _ _ _ _ H), start_if_in. exists b. split_and!; [done| |done]. unfold is_free. by rewrite Hk.
Qed.

End SlabRuns.
