(* ===== verification/SlabBits.v ===== *)
(** * The slab allocator: bitmaps of chunks

    The bits of the chunks of a page are kept in the words at the beginning of the page,
    in the descriptor, or in the upper half of the descriptor.  Here: what the operations
    on words do to the set of chunks. *)

From S2P Require Import Prelude Slab SlabPages.

Module SlabBits.
Import Slab SlabPages.

(** ** Words *)

Lemma high_bits n bits j : 0 <= n -> 0 <= bits < 2 ^ n -> n <= j -> Z.testbit bits j = false.
Proof. intros Hn Hb Hj. rewrite <- (Z.mod_small bits (2 ^ n)) by done. apply Z.mod_pow2_bits_high. lia. Qed.

Lemma bits_lt n bits : 0 <= n -> 0 <= bits -> (forall j, n <= j -> Z.testbit bits j = false) -> bits < 2 ^ n.
Proof.
  intros Hn H0 H. assert (E : bits = bits mod 2 ^ n).
  { apply Z.bits_inj'. intros j Hj. destruct (Z.ltb_spec j n); [by rewrite Z.mod_pow2_bits_low by lia|].
    rewrite Z.mod_pow2_bits_high by lia. by apply H. }
  rewrite E. apply Z.mod_pos_bound. lia.
Qed.

Lemma ones_bit n j : 0 <= n -> 0 <= j -> Z.testbit (2 ^ n - 1) j = (j <? n).
Proof. intros Hn Hj. replace (2 ^ n - 1) with (Z.ones n) by (rewrite Z.ones_equiv; lia). apply Z.testbit_ones_nonneg; lia. Qed.

Lemma all_ones n bits : 0 <= bits < 2 ^ Z.of_nat n ->
  bits = 2 ^ Z.of_nat n - 1 <-> forall j, (j < n)%nat -> Z.testbit bits (Z.of_nat j) = true.
Proof.
  intros Hb. split.
  - intros -> j Hj. rewrite ones_bit by lia. apply Z.ltb_lt. lia.
  - intros H. apply Z.bits_inj'. intros j Hj. rewrite ones_bit by lia. destruct (Z.ltb_spec j (Z.of_nat n)).
    + rewrite <- (Z2Nat.id j) by done. apply H. lia.
    + by apply (high_bits (Z.of_nat n)); [lia| |].
Qed.

Lemma all_zero n bits : 0 <= bits < 2 ^ Z.of_nat n ->
  bits = 0 <-> forall j, (j < n)%nat -> Z.testbit bits (Z.of_nat j) = false.
Proof.
  intros Hb. split; [intros -> j _; apply Z.testbit_0_l|]. intros H. apply Z.bits_inj'. intros j Hj. rewrite Z.testbit_0_l.
  destruct (Z.ltb_spec j (Z.of_nat n)); [rewrite <- (Z2Nat.id j) by done; apply H; lia|]. by apply (high_bits (Z.of_nat n)); [lia| |].
Qed.

Lemma set_bit a j i : 0 <= j -> Z.testbit (Z.lor a (Z.shiftl 1 j)) i = (j =? i) || Z.testbit a i.
Proof. intros Hj. apply (Z.setbit_eqb a j i Hj). Qed.

Lemma set_range n a j : 0 <= j < n -> 0 <= a < 2 ^ n -> 0 <= Z.lor a (Z.shiftl 1 j) < 2 ^ n.
Proof.
  intros Hj Ha. assert (H0 : 0 <= Z.lor a (Z.shiftl 1 j)) by (apply Z.lor_nonneg; rewrite Z.shiftl_nonneg; lia).
  split; [done|]. apply bits_lt; [lia|done|]. intros i Hi. rewrite set_bit by lia. rewrite (high_bits n) by lia.
  rewrite (proj2 (Z.eqb_neq _ _)) by lia. done.
Qed.

Lemma u64_not_bit b i : 0 <= b -> 0 <= i < 64 -> Z.testbit (u64 (Z.lnot (Z.shiftl 1 b))) i = negb (b =? i).
Proof.
  intros Hb Hi. unfold u64, wrap. rewrite Z.mod_pow2_bits_low by lia. rewrite Z.lnot_spec by lia. f_equal.
  rewrite Z.shiftl_1_l, Z.pow2_bits_eqb by lia. done.
Qed.

Lemma clear_bit a b i : 0 <= b -> in_u 64 a -> 0 <= i -> Z.testbit (Z.land a (u64 (Z.lnot (Z.shiftl 1 b)))) i = Z.testbit a i && negb (b =? i).
Proof.
  intros Hb Ha Hi. rewrite Z.land_spec. destruct (Z.ltb_spec i 64); [by rewrite u64_not_bit by lia|].
  by rewrite (high_bits 64 a) by (unfold in_u in Ha; lia).
Qed.

Lemma clear_range n a x : 0 <= n -> 0 <= a < 2 ^ n -> 0 <= x -> 0 <= Z.land a x < 2 ^ n.
Proof.
  intros Hn Ha Hx. assert (H0 : 0 <= Z.land a x) by (apply Z.land_nonneg; lia). split; [done|]. apply bits_lt; [done|done|].
  intros i Hi. rewrite Z.land_spec, (high_bits n) by lia. done.
Qed.

Lemma test_bit a b : 0 <= b -> (Z.land a (Z.shiftl 1 b) =? 0) = negb (Z.testbit a b).
Proof.
  intros Hb. destruct (Z.testbit a b) eqn:E; cbn.
  - apply Z.eqb_neq. intros H. assert (T : Z.testbit (Z.land a (Z.shiftl 1 b)) b = false) by (rewrite H; apply Z.testbit_0_l).
    rewrite Z.land_spec, E, Z.shiftl_1_l, Z.pow2_bits_true in T by lia. done.
  - apply Z.eqb_eq, Z.bits_inj'. intros i Hi. rewrite Z.land_spec, Z.shiftl_1_l, Z.pow2_bits_eqb, Z.testbit_0_l by lia.
    destruct (Z.eqb_spec b i) as [<-|]; [by rewrite E|by rewrite andb_false_r].
Qed.

(** ** first_zero *)

Lemma first_zero_some fuel : forall i w b, first_zero fuel i w = Some b -> (i <= b < i + fuel)%nat /\ Z.testbit w (Z.of_nat b) = false.
Proof.
  induction fuel as [|fuel IH]; intros i w b; [done|]. cbn [first_zero]. destruct (Z.testbit w (Z.of_nat i)) eqn:E.
  - intros [H1 H2]%IH. split; [lia|done].
  - intros [= <-]. split; [lia|done].
Qed.

Lemma first_zero_none fuel : forall i w, first_zero fuel i w = None -> forall j, (i <= j < i + fuel)%nat -> Z.testbit w (Z.of_nat j) = true.
Proof.
  induction fuel as [|fuel IH]; intros i w; [lia|]. cbn [first_zero]. destruct (Z.testbit w (Z.of_nat i)) eqn:E; [|done].
  intros H j Hj. destruct (decide (j = i)) as [->|]; [done|]. apply (IH (S i)); [done|lia].
Qed.

Lemma busy_ones : NGX_SLAB_BUSY = 2 ^ Z.of_nat 64 - 1.
Proof. reflexivity. Qed.

(** ** Words of a bitmap *)

Lemma forallb_busy words bits : words_ok words bits ->
  forallb (Z.eqb NGX_SLAB_BUSY) words = (bits =? 2 ^ Z.of_nat (64 * length words) - 1).
Proof.
  intros [Hr Hw Hb]. apply eq_bool_prop_intro. rewrite !Is_true_true, forallb_forall, Z.eqb_eq, (all_ones _ _ Hr). rewrite list.Forall_forall in Hw. split.
  - intros H j Hj. assert (Hn : (j / 64 < length words)%nat) by (apply Nat.Div0.div_lt_upper_bound; lia).
    apply lookup_lt_is_Some_2 in Hn as [w Ew]. rewrite (Nat.div_mod_eq j 64), (Nat.mul_comm 64).
    rewrite <- (Hb _ _ _ Ew) by (apply Nat.mod_upper_bound; lia). pose proof (list_elem_of_lookup_2 _ _ _ Ew) as Hin. rewrite list_elem_of_In in Hin.
    specialize (H w Hin). apply Z.eqb_eq in H. rewrite <- H, busy_ones, ones_bit by lia. apply Z.ltb_lt.
    pose proof (Nat.mod_upper_bound j 64). lia.
  - intros H w Hin. apply list_elem_of_In in Hin. assert (Hu := Hw w Hin). apply list_elem_of_lookup in Hin as [n En]. apply Z.eqb_eq. symmetry.
    rewrite busy_ones. apply all_ones; [done|]. intros b Hlt. rewrite (Hb _ _ _ En) by done. apply H. apply lookup_lt_Some in En. lia.
Qed.

Lemma find_word_spec words : forall k,
  match find_word k words with
  | Some (n, w) => (k <= n)%nat /\ words !! (n - k)%nat = Some w /\ w <> NGX_SLAB_BUSY /\ forallb (Z.eqb NGX_SLAB_BUSY) (take (n - k) words) = true
  | None => forallb (Z.eqb NGX_SLAB_BUSY) words = true
  end.
Proof.
  induction words as [|w words IH]; intros k; [done|]. cbn [find_word]. destruct (Z.eqb_spec w NGX_SLAB_BUSY) as [->|Hne]; cbn [negb].
  - specialize (IH (S k)). destruct (find_word (S k) words) as [[n w]|]; [|done]. destruct IH as (H1 & H2 & H3 & H4).
    replace (n - k)%nat with (S (n - S k)) by lia. split_and!; [lia|done|done|done].
  - rewrite Nat.sub_diag. split_and!; (done || lia).
Qed.

(** A bit is set or cleared in one word. *)
Lemma word_update words bits n w b w' bits' : words_ok words bits -> words !! n = Some w -> (b < 64)%nat -> in_u 64 w' ->
  0 <= bits' < 2 ^ Z.of_nat (64 * length words) ->
  (forall i, (i < 64)%nat -> i <> b -> Z.testbit w' (Z.of_nat i) = Z.testbit w (Z.of_nat i)) ->
  (forall j, (j <> n * 64 + b)%nat -> Z.testbit bits' (Z.of_nat j) = Z.testbit bits (Z.of_nat j)) ->
  Z.testbit w' (Z.of_nat b) = Z.testbit bits' (Z.of_nat (n * 64 + b)) -> words_ok (<[n := w']> words) bits'.
Proof.
  intros [Hr Hw Hb] En Hlt Hu Hr' H1 H2 H3. constructor.
  - by rewrite length_insert.
  - by apply list.Forall_insert.
  - intros n' x i Hx Hi. destruct (decide (n' = n)) as [->|Hne].
    + rewrite list_lookup_insert_eq in Hx by by eapply lookup_lt_Some. injection Hx as <-.
      destruct (decide (i = b)) as [->|Hib]; [done|]. rewrite H1, H2 by lia. by apply Hb.
    + rewrite list_lookup_insert_ne in Hx by done. rewrite H2 by nia. by apply Hb.
Qed.

(** take_small: the first zero is set. *)
Lemma take_word words bits : words_ok words bits -> bits <> 2 ^ Z.of_nat (64 * length words) - 1 -> exists n w b,
  find_word 0 words = Some (n, w) /\ first_zero 64 0 w = Some b /\ (n * 64 + b < 64 * length words)%nat /\
  Z.testbit bits (Z.of_nat (n * 64 + b)) = false /\
  let w' := Z.lor w (Z.shiftl 1 (Z.of_nat b)) in let words' := <[n := w']> words in
  let bits' := Z.lor bits (Z.shiftl 1 (Z.of_nat (n * 64 + b))) in
  words_ok words' bits' /\
  (w' =? NGX_SLAB_BUSY) && forallb (Z.eqb NGX_SLAB_BUSY) (drop (S n) words') = (bits' =? 2 ^ Z.of_nat (64 * length words) - 1).
Proof.
  intros H Hne. pose proof (forallb_busy _ _ H) as Hfull. rewrite (proj2 (Z.eqb_neq _ _) Hne) in Hfull.
  pose proof (find_word_spec words 0) as Hf. destruct (find_word 0 words) as [[n w]|]; [|congruence].
  rewrite Nat.sub_0_r in Hf. destruct Hf as (_ & En & Hw & Hpre). exists n, w.
  assert (Hu : in_u 64 w) by (destruct H as [_ Hw' _]; rewrite list.Forall_forall in Hw'; by eapply Hw', list_elem_of_lookup_2).
  destruct (first_zero 64 0 w) as [b|] eqn:Eb.
  2:{ exfalso. apply Hw. rewrite busy_ones. apply all_ones; [done|]. intros j Hj. eapply first_zero_none; [done|lia]. }
  apply first_zero_some in Eb as Eb'. destruct Eb' as [Hb Hz]. exists b. pose proof (lookup_lt_Some _ _ _ En) as Hn.
  assert (Hok : words_ok (<[n := Z.lor w (Z.shiftl 1 (Z.of_nat b))]> words) (Z.lor bits (Z.shiftl 1 (Z.of_nat (n * 64 + b))))).
  { apply (word_update _ bits n w b); try done; try lia.
    - apply set_range; [lia|done].
    - apply set_range; [lia|apply H].
    - intros i Hi Hib. rewrite set_bit by lia. by rewrite (proj2 (Z.eqb_neq _ _)) by lia.
    - intros j Hj. rewrite set_bit by lia. by rewrite (proj2 (Z.eqb_neq _ _)) by lia.
    - rewrite !set_bit by lia. by rewrite !Z.eqb_refl. }
  split_and!; [done|done|lia| |].
  - rewrite <- (wo_bit _ _ H _ _ _ En) by lia. done.
  - cbn zeta. split; [done|]. pose proof (forallb_busy _ _ Hok) as Hf. rewrite length_insert in Hf. rewrite <- Hf.
    symmetry. set (l := <[n := _]> words). rewrite <- (take_drop n l) at 1. rewrite forallb_app. unfold l at 1. rewrite take_insert_ge, Hpre by lia.
    erewrite (drop_S l _ n) by (apply list_lookup_insert_eq; lia). cbn [forallb andb]. by rewrite Z.eqb_sym.
Qed.

(** free_small: a bit is cleared. *)
Lemma clear_word words bits j : words_ok words bits -> (j < 64 * length words)%nat -> exists w,
  words !! (j / 64)%nat = Some w /\ (Z.land w (Z.shiftl 1 (Z.of_nat (j mod 64))) =? 0) = negb (Z.testbit bits (Z.of_nat j)) /\
  words_ok (<[(j / 64)%nat := Z.land w (u64 (Z.lnot (Z.shiftl 1 (Z.of_nat (j mod 64)))))]> words) (Z.clearbit bits (Z.of_nat j)).
Proof.
  intros H Hj. assert (Hn : (j / 64 < length words)%nat) by (apply Nat.Div0.div_lt_upper_bound; lia).
  apply lookup_lt_is_Some_2 in Hn as [w Ew]. exists w. pose proof (Nat.mod_upper_bound j 64 ltac:(lia)) as Hm.
  assert (Ej : (j / 64 * 64 + j mod 64)%nat = j) by (pose proof (Nat.div_mod_eq j 64); lia).
  assert (Hu : in_u 64 w) by (destruct H as [_ Hw' _]; rewrite list.Forall_forall in Hw'; by eapply Hw', list_elem_of_lookup_2).
  split_and!; [done| |].
  - rewrite test_bit by lia. f_equal. rewrite (wo_bit _ _ H _ _ _ Ew) by done. by rewrite Ej.
  - apply (word_update _ bits _ w (j mod 64)); try done.
    + apply clear_range; [lia|done|]. apply (wrap_range 64). lia.
    + assert (H0 : 0 <= Z.clearbit bits (Z.of_nat j)) by (rewrite Z.clearbit_spec'; apply Z.ldiff_nonneg; left; apply H).
      split; [done|]. apply bits_lt; [lia|done|]. intros i Hi. rewrite Z.clearbit_eqb, (high_bits (Z.of_nat (64 * length words))) by (apply H || lia). done.
    + intros i Hi Hib. rewrite clear_bit by (done || lia). rewrite (proj2 (Z.eqb_neq _ _)) by lia. by rewrite andb_true_r.
    + intros i Hi. rewrite Z.clearbit_eqb. rewrite (proj2 (Z.eqb_neq _ _)) by lia. by rewrite andb_true_r.
    + rewrite clear_bit by (done || lia). rewrite Ej, Z.clearbit_eqb, !Z.eqb_refl. by rewrite !andb_false_r.
Qed.

(** Only the bits of the bitmap itself. *)
Lemma words_unused words bits n : words_ok words bits -> (n < 64)%nat -> (0 < length words)%nat -> exists w,
  words !! (n / 64)%nat = Some w /\
  (Z.land w (u64 (Z.lnot (Z.shiftl 1 (Z.of_nat (n mod 64)) - 1))) =? 0) && forallb (Z.eqb 0) (drop (S (n / 64)) words)
  = (Z.shiftr bits (Z.of_nat n) =? 0).
Proof.
  intros H Hn Hl. rewrite Nat.div_small, Nat.mod_small by done. destruct words as [|w words]; [cbn in Hl; lia|]. exists w. split; [done|].
  cbn [drop]. pose proof (wo_word _ _ H) as Hw. inversion Hw as [|? ? Hw0 Hws]; subst. rewrite Z.shiftl_1_l.
  assert (Hbit : forall i, 0 <= i < 64 -> Z.testbit (Z.land w (u64 (Z.lnot (2 ^ Z.of_nat n - 1)))) i = Z.testbit w i && negb (i <? Z.of_nat n)).
  { intros i Hi. rewrite Z.land_spec. f_equal. unfold u64, wrap. rewrite Z.mod_pow2_bits_low, Z.lnot_spec, ones_bit by lia. done. }
  assert (Hr : 0 <= Z.land w (u64 (Z.lnot (2 ^ Z.of_nat n - 1))) < 2 ^ Z.of_nat 64) by (apply clear_range; [lia|done|apply (wrap_range 64); lia]).
  apply eq_bool_prop_intro. rewrite !Is_true_true, andb_true_iff, forallb_forall, !Z.eqb_eq, (all_zero _ _ Hr). split.
  - intros [H1 H2]. apply Z.bits_inj'. intros i Hi. rewrite Z.shiftr_spec, Z.testbit_0_l by done.
    destruct (Z.ltb_spec (i + Z.of_nat n) (Z.of_nat (64 * length (w :: words)))) as [Hlt|Hge]; [|by apply (high_bits (Z.of_nat (64 * length (w :: words)))); [lia|apply H|]].
    set (j := Z.to_nat (i + Z.of_nat n)). replace (i + Z.of_nat n) with (Z.of_nat j) by lia.
    assert (Hj : (j / 64 < length (w :: words))%nat) by (apply Nat.Div0.div_lt_upper_bound; lia).
    apply lookup_lt_is_Some_2 in Hj as [x Ex]. pose proof (Nat.mod_upper_bound j 64 ltac:(lia)) as Hm.
    rewrite (Nat.div_mod_eq j 64), (Nat.mul_comm 64), <- (wo_bit _ _ H _ _ _ Ex) by lia. destruct (j / 64)%nat as [|q] eqn:Eq.
    + injection Ex as <-. specialize (H1 (j mod 64)%nat Hm). rewrite Hbit in H1 by lia.
      rewrite (proj2 (Z.ltb_ge _ _)), andb_true_r in H1; [done|]. pose proof (Nat.div_mod_eq j 64). lia.
    + cbn in Ex. apply list_elem_of_lookup_2 in Ex. rewrite list_elem_of_In in Ex. apply H2, Z.eqb_eq in Ex. rewrite <- Ex. apply Z.testbit_0_l.
  - intros H0. assert (Hz : forall j, (n <= j)%nat -> Z.testbit bits (Z.of_nat j) = false).
    { intros j Hj. replace (Z.of_nat j) with (Z.of_nat (j - n) + Z.of_nat n) by lia. rewrite <- Z.shiftr_spec, H0 by lia. apply Z.testbit_0_l. }
    split.
    + intros j Hj. rewrite Hbit by lia. destruct (Z.ltb_spec (Z.of_nat j) (Z.of_nat n)); [by rewrite andb_false_r|].
      rewrite (wo_bit _ _ H 0 w) by done. rewrite Hz by lia. done.
    + intros x Hin. apply list_elem_of_In in Hin. apply Z.eqb_eq. symmetry. assert (Hx : in_u 64 x) by (rewrite list.Forall_forall in Hws; by apply Hws).
      apply list_elem_of_lookup in Hin as [q Eq]. apply (all_zero 64); [done|]. intros b Hb. rewrite (wo_bit _ _ H (S q) x) by done. apply Hz. lia.
Qed.

(** The bitmap of a new page. *)
Lemma words_new n m : (n < 64)%nat -> words_ok ((2 ^ Z.of_nat n - 1) :: replicate m 0) (2 ^ Z.of_nat n - 1).
Proof.
  intros Hn. assert (Hp : 0 < 2 ^ Z.of_nat n < 2 ^ 64) by (split; [apply Z.pow_pos_nonneg; lia|apply Z.pow_lt_mono_r; lia]). constructor.
  - cbn [length]. rewrite length_replicate. split; [lia|]. apply Z.lt_le_trans with (2 ^ 64); [lia|]. apply Z.pow_le_mono_r; lia.
  - constructor; [unfold in_u; lia|]. apply list.Forall_replicate. unfold in_u. lia.
  - intros [|q] w b Hw Hb.
    + injection Hw as <-. done.
    + cbn in Hw. apply lookup_replicate in Hw as [-> _]. rewrite Z.testbit_0_l, ones_bit by lia. symmetry. apply Z.ltb_ge. lia.
Qed.

(** ** The upper half of a descriptor *)

Lemma upper_bit bits sh i : 0 <= sh < 2 ^ 32 -> 0 <= i -> Z.testbit (bits * 2 ^ 32 + sh) i = if i <? 32 then Z.testbit sh i else Z.testbit bits (i - 32).
Proof.
  intros Hs Hi. rewrite <- lor_shiftl_add, Z.lor_spec, Z.shiftl_spec by lia. destruct (Z.ltb_spec i 32).
  - by rewrite Z.testbit_neg_r by lia.
  - rewrite (high_bits 32 sh) by lia. by rewrite orb_false_r.
Qed.

Section upper.
Context (bits sh : Z) (Hb : 0 <= bits < 2 ^ 32) (Hs : 0 <= sh < 16).

Lemma upper_range : in_u 64 (bits * 2 ^ 32 + sh).
Proof. unfold in_u. lia. Qed.

Lemma upper_get j : 0 <= j -> Z.testbit (bits * 2 ^ 32 + sh) (32 + j) = Z.testbit bits j.
Proof. intros Hj. rewrite upper_bit by lia. rewrite (proj2 (Z.ltb_ge _ _)) by lia. f_equal. lia. Qed.

Lemma upper_set j : 0 <= j -> Z.lor (bits * 2 ^ 32 + sh) (Z.shiftl 1 (32 + j)) = Z.lor bits (Z.shiftl 1 j) * 2 ^ 32 + sh.
Proof.
  intros Hj. apply Z.bits_inj'. intros i Hi. rewrite set_bit, !upper_bit by lia. destruct (Z.ltb_spec i 32).
  - by rewrite (proj2 (Z.eqb_neq _ _)) by lia.
  - rewrite set_bit by lia. f_equal. apply eq_bool_prop_intro. rewrite !Is_true_true, !Z.eqb_eq. lia.
Qed.

Lemma upper_clear j : 0 <= j -> Z.land (bits * 2 ^ 32 + sh) (u64 (Z.lnot (Z.shiftl 1 (32 + j)))) = Z.clearbit bits j * 2 ^ 32 + sh.
Proof.
  intros Hj. apply Z.bits_inj'. intros i Hi. rewrite clear_bit, !upper_bit by (apply upper_range || lia). destruct (Z.ltb_spec i 32).
  - rewrite (proj2 (Z.eqb_neq _ _)) by lia. by rewrite andb_true_r.
  - rewrite Z.clearbit_eqb. do 2 f_equal. apply eq_bool_prop_intro. rewrite !Is_true_true, !Z.eqb_eq. lia.
Qed.

Lemma upper_map : Z.land (bits * 2 ^ 32 + sh) NGX_SLAB_MAP_MASK = bits * 2 ^ 32.
Proof.
  replace NGX_SLAB_MAP_MASK with ((2 ^ 32 - 1) * 2 ^ 32 + 0) by (by vm_compute). replace (bits * 2 ^ 32) with (bits * 2 ^ 32 + 0) at 2 by lia.
  apply Z.bits_inj'. intros i Hi. rewrite Z.land_spec, !upper_bit by lia. destruct (Z.ltb_spec i 32).
  - rewrite Z.testbit_0_l. apply andb_false_r.
  - rewrite ones_bit by lia. destruct (Z.ltb_spec (i - 32) 32); [by rewrite andb_true_r|]. rewrite (high_bits 32 bits) by lia. done.
Qed.

Lemma upper_shift : Z.land (bits * 2 ^ 32 + sh) NGX_SLAB_SHIFT_MASK = sh.
Proof.
  replace NGX_SLAB_SHIFT_MASK with (2 ^ 4 - 1) by (by vm_compute). rewrite land_mask by lia.
  replace (bits * 2 ^ 32 + sh) with (sh + (bits * 2 ^ 28) * 2 ^ 4) by lia. rewrite Z.mod_add by lia. apply Z.mod_small. lia.
Qed.
End upper.

End SlabBits.
