(* ===== verification/SlabChunks.v ===== *)
(** * The slab allocator: pages of chunks

    A chunk is taken from or given back to a page: its bit changes, and the page enters or
    leaves the list of its size.  The three representations of the bits have one
    specification. *)

From stdpp Require Import functions.
From S2P Require Import Prelude Slab SlabPages SlabRuns SlabBits.

Module SlabChunks.
Import Slab SlabPages SlabRuns SlabBits.

(** Everything but the descriptors and the bitmaps. *)
Record frame (s s' : pool) : Prop := {
  fr_n : npages s' = npages s; fr_limit : limit s' = limit s; fr_pfree : pfree s' = pfree s; fr_stats : stats s' = stats s
}.

Lemma frame_refl s : frame s s.
Proof. done. Qed.

Lemma frame_trans s1 s2 s3 : frame s1 s2 -> frame s2 s3 -> frame s1 s3.
Proof. intros [] []. constructor; congruence. Qed.

(** ** Sizes *)

Lemma slot_cases k : (k < nslots)%nat -> k ∈ seq 0 9.
Proof. intros H. apply elem_of_seq. unfold nslots in H. lia. Qed.

(** A fact on every slot, by evaluation. *)
Lemma slot_all (f : nat -> bool) k : forallb f (seq 0 9) = true -> (k < nslots)%nat -> f k = true.
Proof. intros H Hk. rewrite forallb_forall in H. apply H, list_elem_of_In, (slot_cases k Hk). Qed.

Lemma small_sizes k : (k < nslots)%nat -> (k + 3 <? ngx_slab_exact_shift)%nat = true ->
  nchunks (k + 3) = (64 * map_words (k + 3))%nat /\ (0 < map_words (k + 3))%nat /\ (reserved (k + 3) < 64)%nat /\ reserved (k + 3) = map_chunks (k + 3).
Proof.
  intros Hk Hs. pose proof (slot_all (fun k => implb (k + 3 <? ngx_slab_exact_shift)%nat ((nchunks (k + 3) =? 64 * map_words (k + 3)) && (0 <? map_words (k + 3)) &&
    (reserved (k + 3) <? 64) && (reserved (k + 3) =? map_chunks (k + 3)))%nat) k) as H. specialize (H ltac:(vm_compute; reflexivity) Hk). cbv beta in H. rewrite Hs in H. cbn [implb] in H.
  rewrite !andb_true_iff, !Nat.eqb_eq, !Nat.ltb_lt in H. tauto.
Qed.

Lemma big_sizes k : (k < nslots)%nat -> (k + 3 <? ngx_slab_exact_shift)%nat = false -> (k + 3 =? ngx_slab_exact_shift)%nat = false ->
  (0 < nchunks (k + 3) <= 32)%nat /\ reserved (k + 3) = 0%nat.
Proof.
  intros Hk Hs He. unfold reserved. rewrite Hs. split; [|done].
  pose proof (slot_all (fun k => implb (negb (k + 3 <? ngx_slab_exact_shift) && negb (k + 3 =? ngx_slab_exact_shift))%nat ((0 <? nchunks (k + 3)) && (nchunks (k + 3) <=? 32))%nat) k) as H.
  specialize (H ltac:(vm_compute; reflexivity) Hk). cbv beta in H. rewrite Hs, He in H. cbn [implb negb andb] in H. rewrite andb_true_iff, Nat.ltb_lt, Nat.leb_le in H. lia.
Qed.

Lemma usable k : (k < nslots)%nat -> (reserved (k + 3) + 1 < nchunks (k + 3))%nat.
Proof. intros Hk. apply Nat.ltb_lt. apply (slot_all (fun k => reserved (k + 3) + 1 <? nchunks (k + 3))%nat); [by vm_compute|done]. Qed.

Lemma full_bits_pow shift : full_bits shift = 2 ^ Z.of_nat (nchunks shift) - 1.
Proof. done. Qed.

(** ** One page *)

Section page.
Context (s : pool) (i k : nat) (bits : Z) (bs : list block) (fl : list nat) (sl : nat -> list nat).
Context (Hk : (k < nslots)%nat) (H : inv s (Block i 1 (KChunks (k + 3) bits true) :: bs) fl sl).

Lemma page_valid : valid s (Page i) = true.
Proof. eapply block_valid; [exact H|by left|cbn; lia]. Qed.

Lemma page_chunks : chunks_ok (mem s (Page i)) (bitmap s i) (k + 3) bits true.
Proof. by destruct (block_ok_in _ _ _ _ _ H ltac:(by left)) as (_ & _ & ?). Qed.

(** Other contents of the page. *)
Lemma page_update s1 bits' : touch i 1 s s1 -> links_kept i s s1 -> chunks_ok (mem s1 (Page i)) (bitmap s1 i) (k + 3) bits' true ->
  inv s1 (Block i 1 (KChunks (k + 3) bits' true) :: bs) fl sl.
Proof. intros Ht Hl Hc. eapply block_step; [exact H|done|by left|done|done|done|]. split; [cbn; lia|]. by split. Qed.

(** The page leaves its list. *)
Lemma leave_ok : exists s' sl', leave_list i (type_of (k + 3)) s = Some s' /\ frame s s' /\
  inv s' (Block i 1 (KChunks (k + 3) bits false) :: bs) fl sl'.
Proof.
  assert (HL := H). apply (weaken _ _ _ _ (KLinked (Slot k))) in HL; [|split_and!; [done|f_equal; lia|lia]].
  destruct (detach_slot _ _ _ _ _ _ Hk HL) as (m & l & E & I & _ & _ & Hs). unfold leave_list. rewrite E. cbn [mbind option_bind].
  destruct (raw_wr _ _ _ _ _ _ i (fun n => Node (slab n) Null Null (type_of (k + 3))) I ltac:(lia)) as [E2 I2]. rewrite E2.
  eexists _, _. split_and!; [done|done|]. eapply block_step; [exact I2|apply touch_refl|by left|done| |done|].
  - intros k' Hk'. unfold is_open. cbn [bkind]. done.
  - destruct page_chunks as [C1 C2 C3 C4 C5 C6]. split; [cbn; lia|]. split; [done|]. cbn. unfold alter, fn_alter. rewrite decide_True by done.
    constructor; try done. unfold bits_rep in *. cbn. by destruct (Hs i) as [-> _].
Qed.

End page.

Lemma chunks_set n words n' words' shift bits j : chunks_ok n words shift bits true -> (j < nchunks shift)%nat -> ptype n' = ptype n ->
  bits_rep n' words' shift (Z.lor bits (Z.shiftl 1 (Z.of_nat j))) -> chunks_ok n' words' shift (Z.lor bits (Z.shiftl 1 (Z.of_nat j))) true.
Proof.
  intros [C1 C2 C3 C4 C5 C6] Hj Ht Hr. rewrite full_bits_pow in C3. constructor; try done; [congruence| |].
  - rewrite full_bits_pow. pose proof (set_range (Z.of_nat (nchunks shift)) bits (Z.of_nat j)). lia.
  - intros i Hi. rewrite set_bit by lia. by rewrite C4, orb_true_r.
Qed.

(** The end of the three branches: the page leaves the list when it is full. *)
Lemma take_end s s1 i k bits j bs fl sl (full : bool) :
  (k < nslots)%nat -> inv s (Block i 1 (KChunks (k + 3) bits true) :: bs) fl sl -> frame s s1 -> touch i 1 s s1 -> links_kept i s s1 ->
  (j < nchunks (k + 3))%nat -> let bits' := Z.lor bits (Z.shiftl 1 (Z.of_nat j)) in
  bits_rep (mem s1 (Page i)) (bitmap s1 i) (k + 3) bits' -> full = (bits' =? full_bits (k + 3)) -> exists s' sl',
  (if full then leave_list i (type_of (k + 3)) s1 else Some s1) = Some s' /\ frame s s' /\
  inv s' (Block i 1 (KChunks (k + 3) bits' (negb (bits' =? full_bits (k + 3)))) :: bs) fl sl'.
Proof.
  intros Hk H Hf Ht Hl Hj bits' Hr ->.
  assert (I1 : inv s1 (Block i 1 (KChunks (k + 3) bits' true) :: bs) fl sl).
  { apply (page_update s i k bits bs fl sl Hk H s1); [done|done|].
    eapply chunks_set; [by eapply page_chunks|done| |done]. apply Hl. }
  destruct (bits' =? full_bits (k + 3)).
  - destruct (leave_ok s1 i k bits' bs fl sl Hk I1) as (s' & sl' & E & F & I'). exists s', sl'. split_and!; [done|by eapply frame_trans|done].
  - exists s1, sl. done.
Qed.

(** What the branches of ngx_slab_alloc_locked promise for a page that is not full. *)
Definition takes (s : pool) (i k : nat) (bits : Z) (bs : list block) (fl : list nat) (r : option (option (nat * pool))) : Prop :=
  exists j s' sl', r = Some (Some (j, s')) /\ frame s s' /\ (j < nchunks (k + 3))%nat /\ Z.testbit bits (Z.of_nat j) = false /\
  let bits' := Z.lor bits (Z.shiftl 1 (Z.of_nat j)) in
  inv s' (Block i 1 (KChunks (k + 3) bits' (negb (bits' =? full_bits (k + 3)))) :: bs) fl sl'.

Lemma touch_slab i s v : touch i 1 s (set_mem (alter (set_slab v) (Page i) (mem s)) s) /\ links_kept i s (set_mem (alter (set_slab v) (Page i) (mem s)) s) /\
  slab (mem (set_mem (alter (set_slab v) (Page i) (mem s)) s) (Page i)) = v.
Proof.
  split_and!; [apply touch_write; lia| |]; unfold links_kept; cbn; unfold alter, fn_alter; by rewrite decide_True.
Qed.

Lemma touch_bitmap i s words : touch i 1 s (set_bitmap i words s) /\ links_kept i s (set_bitmap i words s) /\ bitmap (set_bitmap i words s) i = words.
Proof.
  split_and!; [|done|cbn; by rewrite fn_lookup_insert]. constructor; try done. intros p Hp. cbn. rewrite fn_lookup_insert_ne; [done|]. lia.
Qed.

Section take.
Context (s : pool) (i k : nat) (bits : Z) (bs : list block) (fl : list nat) (sl : nat -> list nat).
Context (Hk : (k < nslots)%nat) (H : inv s (Block i 1 (KChunks (k + 3) bits true) :: bs) fl sl) (Hfull : bits <> full_bits (k + 3)).

Lemma take_small_ok : (k + 3 <? ngx_slab_exact_shift)%nat = true -> takes s i k bits bs fl (take_small i s).
Proof.
  intros Hs. pose proof (page_chunks _ _ _ _ _ _ _ H) as [_ _ _ _ Hr _]. unfold bits_rep in Hr. rewrite Hs in Hr. destruct Hr as (R1 & R2 & R3).
  destruct (small_sizes k Hk Hs) as (S1 & _). rewrite full_bits_pow, S1, <- R2 in Hfull.
  destruct (take_word _ _ R3 Hfull) as (n & w & b & E1 & E2 & Hj & Hz & R3' & Hc). cbn zeta in R3', Hc.
  set (w' := Z.lor w _) in *. set (words' := <[n := w']> (bitmap s i)) in *.
  destruct (touch_bitmap i s words') as (T1 & T2 & T3).
  destruct (take_end s (set_bitmap i words' s) i k bits (n * 64 + b) bs fl sl
    ((w' =? NGX_SLAB_BUSY) && forallb (Z.eqb NGX_SLAB_BUSY) (drop (S n) words'))) as (s' & sl' & E & F & I); try done.
  - rewrite S1, <- R2. done.
  - unfold bits_rep. rewrite Hs, T3. split_and!; [done| |done]. unfold words'. by rewrite length_insert.
  - rewrite Hc, full_bits_pow, S1, R2. done.
  - exists (n * 64 + b)%nat, s', sl'. split_and!; try done; [|by rewrite S1, <- R2].
    unfold take_small. rewrite E1, E2. fold w'. fold words'. unfold type_of in E. rewrite Hs in E. rewrite E. done.
Qed.

Lemma take_exact_ok : (k + 3 =? ngx_slab_exact_shift)%nat = true -> takes s i k bits bs fl (take_exact i s).
Proof.
  intros He. pose proof (page_chunks _ _ _ _ _ _ _ H) as [_ _ Hb _ Hr _]. apply Nat.eqb_eq in He.
  assert (Hs : (k + 3 <? ngx_slab_exact_shift)%nat = false) by (apply Nat.ltb_ge; lia).
  assert (Hn : nchunks (k + 3) = 64%nat) by (rewrite He; by vm_compute). rewrite full_bits_pow, Hn in Hb, Hfull.
  unfold bits_rep in Hr. rewrite Hs, (proj2 (Nat.eqb_eq _ _) He) in Hr.
  unfold take_exact. rewrite rd_ok by (eapply page_valid; done). cbn [mbind option_bind]. rewrite Hr.
  destruct (first_zero 64 0 bits) as [j|] eqn:Ez.
  2:{ exfalso. apply Hfull. apply all_ones; [lia|]. intros j Hj. eapply first_zero_none; [done|lia]. }
  apply first_zero_some in Ez as [Hj Hz]. rewrite wr_ok by (eapply page_valid; done). cbn [mbind option_bind].
  set (bits' := Z.lor bits _). destruct (touch_slab i s bits') as (T1 & T2 & T3).
  destruct (take_end s (set_mem (alter (set_slab bits') (Page i) (mem s)) s) i k bits j bs fl sl (bits' =? NGX_SLAB_BUSY)) as (s' & sl' & E & F & I); try done.
  - rewrite Hn. lia.
  - unfold bits_rep. by rewrite Hs, (proj2 (Nat.eqb_eq _ _) He).
  - rewrite full_bits_pow, Hn. done.
  - exists j, s', sl'. split_and!; try done; [|rewrite Hn; lia].
    unfold type_of in E. rewrite Hs, (proj2 (Nat.eqb_eq _ _) He) in E. rewrite E. done.
Qed.

Lemma take_big_ok : (k + 3 <? ngx_slab_exact_shift)%nat = false -> (k + 3 =? ngx_slab_exact_shift)%nat = false -> takes s i k bits bs fl (take_big i (k + 3) s).
Proof.
  intros Hs He. pose proof (page_chunks _ _ _ _ _ _ _ H) as [_ _ Hb _ Hr _]. destruct (big_sizes k Hk Hs He) as (Hn & _).
  unfold bits_rep in Hr. rewrite Hs, He in Hr. rewrite full_bits_pow in Hb, Hfull. set (n := nchunks (k + 3)) in *. set (sh := Z.of_nat (k + 3)) in *.
  assert (Hsh : 0 <= sh < 16) by (unfold nslots in Hk; lia).
  assert (Hpow : 2 ^ Z.of_nat n <= 2 ^ 32) by (apply Z.pow_le_mono_r; lia). assert (Hb32 : 0 <= bits < 2 ^ 32) by lia.
  unfold take_big. rewrite rd_ok by (eapply page_valid; done). cbn [mbind option_bind]. rewrite Hr. fold n.
  destruct (first_zero n 32 (bits * 2 ^ 32 + sh)) as [b|] eqn:Ez.
  2:{ exfalso. apply Hfull, all_ones; [lia|]. intros j Hj. rewrite <- (upper_get bits sh) by lia.
      replace (32 + Z.of_nat j) with (Z.of_nat (32 + j)) by lia. eapply first_zero_none; [done|lia]. }
  apply first_zero_some in Ez as [Hj Hz]. set (j := (b - 32)%nat). replace (Z.of_nat b) with (32 + Z.of_nat j) in * by lia.
  rewrite upper_get in Hz by lia. rewrite upper_set by lia. set (bits' := Z.lor bits _).
  assert (Hb' : 0 <= bits' < 2 ^ Z.of_nat n) by (apply set_range; lia). rewrite wr_ok by (eapply page_valid; done). cbn [mbind option_bind].
  rewrite upper_map by lia. set (mask := Z.shiftl _ _). assert (Em : mask = (2 ^ Z.of_nat n - 1) * 2 ^ 32).
  { unfold mask. rewrite !Z.shiftl_mul_pow2 by (try done; lia). rewrite Z.mul_1_l. done. }
  destruct (touch_slab i s (bits' * 2 ^ 32 + sh)) as (T1 & T2 & T3).
  destruct (take_end s (set_mem (alter (set_slab (bits' * 2 ^ 32 + sh)) (Page i) (mem s)) s) i k bits j bs fl sl (bits' * 2 ^ 32 =? mask)) as (s' & sl' & E & F & I); try done.
  - fold n. lia.
  - unfold bits_rep. rewrite Hs, He. done.
  - rewrite Em, full_bits_pow. fold bits'. fold n. apply eq_bool_prop_intro. rewrite !Is_true_true, !Z.eqb_eq. lia.
  - exists j, s', sl'. split_and!; try done; [|fold n; lia]. unfold type_of in E. rewrite Hs, He in E. rewrite E. done.
Qed.

Lemma take_from_page_ok : takes s i k bits bs fl (take_from_page i (k + 3) s).
Proof.
  unfold take_from_page. destruct (k + 3 <? ngx_slab_exact_shift)%nat eqn:Hs; [by apply take_small_ok|].
  destruct (k + 3 =? ngx_slab_exact_shift)%nat eqn:He; [by apply take_exact_ok|by apply take_big_ok].
Qed.

End take.

(** ** A new page of chunks *)

Lemma start_list_ok s i k v bs fl sl :
  (k < nslots)%nat -> sl k = [] -> inv s (Block i 1 KRaw :: bs) fl sl -> exists s', start_list i k v (type_of (k + 3)) s = Some s' /\ frame s s' /\
  inv s' (Block i 1 (KLinked (Slot k)) :: bs) fl (<[k := [i]]> sl) /\ slab (mem s' (Page i)) = v /\ ptype (mem s' (Page i)) = type_of (k + 3) /\ bitmap s' = bitmap s.
Proof.
  intros Hk Hl H. unfold start_list. destruct (raw_wr _ _ _ _ _ _ i (fun _ => Node v (Slot k) (Slot k) (type_of (k + 3))) H ltac:(lia)) as [E _].
  rewrite E. cbn [mbind option_bind]. rewrite wr_ok by by apply Nat.ltb_lt. cbn [mem set_mem]. set (m1 := alter _ (Page i) _). set (m' := alter _ (Slot k) m1).
  eexists. split; [done|]. split; [done|]. split_and!; try (cbn; unfold m', m1, alter, fn_alter; by rewrite decide_False, decide_True by done); [|done].
  change (set_mem m' (set_mem m1 s)) with (set_mem m' s). rewrite <- Hl. eapply (attach_slot s m1 m'); [done|exact H|apply touch_write; lia| |].
  - rewrite Hl. cbn [dl]. split_and!; unfold m', m1; alters.
  - rewrite Hl. split; [|intros a; unfold m'; alters]. intros q Hq. unfold m'. alters. set_solver.
Qed.

(** The bits of a new page: of the bitmap and of the chunk requested. *)
Definition new_bits (shift : nat) : Z := 2 ^ Z.of_nat (S (reserved shift)) - 1.

Lemma new_bits_bit k j : (k < nslots)%nat -> Z.testbit (new_bits (k + 3)) (Z.of_nat j) = (j <=? reserved (k + 3))%nat.
Proof.
  intros Hk. unfold new_bits. rewrite ones_bit by lia. apply eq_bool_prop_intro. rewrite !Is_true_true, Z.ltb_lt, Nat.leb_le. lia.
Qed.

Lemma new_bits_lt k : (k < nslots)%nat -> 0 <= new_bits (k + 3) < full_bits (k + 3).
Proof.
  intros Hk. pose proof (usable k Hk). unfold new_bits, full_bits. split.
  - enough (0 < 2 ^ Z.of_nat (S (reserved (k + 3)))) by lia. apply Z.pow_pos_nonneg; lia.
  - enough (2 ^ Z.of_nat (S (reserved (k + 3))) < 2 ^ Z.of_nat (nchunks (k + 3))) by lia. apply Z.pow_lt_mono_r; lia.
Qed.

(** The value for the descriptor and the bitmap of a new page. *)
Definition new_slab (shift : nat) : Z :=
  if (shift <? ngx_slab_exact_shift)%nat then Z.of_nat shift
  else if (shift =? ngx_slab_exact_shift)%nat then 1 else Z.lor (Z.shiftl 1 NGX_SLAB_MAP_SHIFT) (Z.of_nat shift).

Lemma small_words_eq k : (k < nslots)%nat -> (k + 3 <? ngx_slab_exact_shift)%nat = true ->
  small_words (k + 3) = (2 ^ Z.of_nat (S (reserved (k + 3))) - 1) :: replicate (map_words (k + 3) - 1) 0 /\ (S (reserved (k + 3)) < 64)%nat.
Proof.
  intros Hk Hs. pose proof (slot_all (fun k => implb (k + 3 <? ngx_slab_exact_shift)%nat
    (bool_decide (small_words (k + 3) = (2 ^ Z.of_nat (S (reserved (k + 3))) - 1) :: replicate (map_words (k + 3) - 1) 0) && (S (reserved (k + 3)) <? 64)%nat)) k) as H.
  specialize (H ltac:(vm_compute; reflexivity) Hk). cbv beta in H. rewrite Hs in H. cbn [implb] in H.
  apply andb_true_iff in H as [H1 H2]. apply bool_decide_eq_true in H1. apply Nat.ltb_lt in H2. done.
Qed.

Lemma new_rep n words k : (k < nslots)%nat -> slab n = new_slab (k + 3) -> ((k + 3 <? ngx_slab_exact_shift)%nat = true -> words = small_words (k + 3)) ->
  bits_rep n words (k + 3) (new_bits (k + 3)).
Proof.
  intros Hk Hn Hw. unfold bits_rep, new_slab, new_bits in *. destruct (k + 3 <? ngx_slab_exact_shift)%nat eqn:Hs.
  - destruct (small_words_eq k Hk Hs) as [E Hr]. destruct (small_sizes k Hk Hs) as (_ & Hm & _). rewrite Hw, E by done. split_and!; [done| |by apply words_new].
    cbn [length]. rewrite length_replicate. lia.
  - unfold reserved. rewrite Hs. destruct (k + 3 =? ngx_slab_exact_shift)%nat; [done|]. rewrite Hn.
    rewrite lor_shiftl_add by (unfold nslots in Hk; unfold NGX_SLAB_MAP_SHIFT; lia). done.
Qed.

Lemma new_page_ok s i k bs fl sl : (k < nslots)%nat -> sl k = [] -> inv s (Block i 1 KRun :: bs) fl sl -> exists s' d,
  new_page i (k + 3) s = Some (reserved (k + 3), set_stat k (add_total d) s') /\ frame s s' /\
  inv s' (Block i 1 (KChunks (k + 3) (new_bits (k + 3)) true) :: bs) fl (<[k := [i]]> sl).
Proof.
  intros Hk Hl H. apply (weaken _ _ _ _ KRaw) in H; [|done].
  set (s0 := if (k + 3 <? ngx_slab_exact_shift)%nat then set_bitmap i (small_words (k + 3)) s else s).
  assert (I0 : inv s0 (Block i 1 KRaw :: bs) fl sl).
  { unfold s0. destruct (_ <? _)%nat; [|done]. eapply raw_step; [exact H|]. apply touch_bitmap. }
  destruct (start_list_ok s0 i k (new_slab (k + 3)) bs fl sl Hk Hl I0) as (s' & E & F & I & Es & Et & Eb).
  assert (Hfr : frame s s') by (eapply frame_trans; [|exact F]; unfold s0; by destruct (_ <? _)%nat).
  assert (I' : inv s' (Block i 1 (KChunks (k + 3) (new_bits (k + 3)) true) :: bs) fl (<[k := [i]]> sl)).
  { eapply block_step; [exact I|apply touch_refl|by left|done| |done|].
    - intros k' Hk'. unfold is_open. cbn [bkind]. apply eq_bool_prop_intro. cbn. rewrite !Is_true_true, !Nat.eqb_eq. lia.
    - split; [cbn; lia|]. split; [done|]. cbn [bstart]. pose proof (new_bits_lt k Hk). constructor; try done.
      + unfold nslots in Hk. lia.
      + lia.
      + intros j Hj. rewrite new_bits_bit by done. apply Nat.leb_le. lia.
      + apply new_rep; [done|done|]. intros Hs. rewrite Eb. unfold s0. rewrite Hs. by destruct (touch_bitmap i s (small_words (k + 3))) as (_ & _ & ?). }
  unfold new_page. replace (k + 3 - min_shift)%nat with k by (unfold min_shift; lia). unfold s0, new_slab, type_of in E. unfold reserved.
  destruct (k + 3 <? ngx_slab_exact_shift)%nat; [|destruct (k + 3 =? ngx_slab_exact_shift)%nat]; rewrite E; cbn [mbind option_bind]; eauto.
Qed.

(** ** A chunk is given back *)

(** Memories that are equal everywhere. *)
Lemma relinked_ext h l m1 m2 m2' : (forall q, m2' q = m2 q) -> relinked h l m1 m2 -> relinked h l m1 m2'.
Proof. intros E [R1 R2]. split; [intros q Hq; rewrite E; auto|]. intros a. rewrite !E. apply R2. Qed.

Lemma alter_at (f : node -> node) (p q : ptr) m : alter f p m q = if decide (p = q) then f (m q) else m q.
Proof. unfold alter, fn_alter. by destruct (decide (p = q)) as [->|]. Qed.

Lemma enter_ok s i k bits bs fl sl :
  (k < nslots)%nat -> inv s (Block i 1 (KChunks (k + 3) bits false) :: bs) fl sl -> exists s', enter_list i k (type_of (k + 3)) s = Some s' /\ frame s s' /\
  inv s' (Block i 1 (KChunks (k + 3) bits true) :: bs) fl (<[k := i :: sl k]> sl) /\ slab (mem s' (Page i)) = slab (mem s (Page i)) /\ bitmap s' = bitmap s.
Proof.
  intros Hk H. destruct (block_ok_in _ _ _ _ _ H ltac:(by left)) as (_ & _ & [C1 C2 C3 C4 C5 _]). cbn [bstart] in *.
  apply (weaken _ _ _ _ KRaw) in H; [|done]. set (ty := type_of (k + 3)) in *.
  unfold enter_list. rewrite rd_ok by by apply Nat.ltb_lt. cbn [mbind option_bind]. rewrite (slot_next _ _ _ _ k H Hk).
  destruct (raw_wr _ _ _ _ _ _ i (fun n => Node (slab n) (headp (Slot k) (sl k)) (Slot k) ty) H ltac:(lia)) as [E _].
  rewrite E. cbn [mbind option_bind]. rewrite wr_ok by by apply Nat.ltb_lt. cbn [mbind option_bind mem set_mem].
  rewrite wr_ok by (by eapply (slotp_valid s)). cbn [mem set_mem].
  destruct (raw_unlisted _ _ _ _ _ _ i H ltac:(lia)) as [_ Hni]. specialize (Hni k Hk).
  destruct (dl_push (mem s) (Slot k) ty (sl k) i) as [D R]; [done|by eapply sl_nodup|done|by eapply iv_slot|]. cbv zeta in D, R.
  set (m1 := alter _ (Page i) (mem s)) in *. set (m2 := alter (set_next (Page i)) (Slot k) (alter _ _ m1)) in *. set (m' := alter _ (headp _ _) (alter _ (Slot k) m1)).
  assert (Em : forall q, m' q = m2 q) by (intros q; unfold m', m2; rewrite !alter_at; by destruct (decide (headp _ _ = q)), (decide (Slot k = q))).
  eexists. split; [done|]. split; [done|]. assert (Hslab : slab (m' (Page i)) = slab (mem s (Page i))).
  { rewrite Em. destruct R as [_ R2]. destruct (R2 i) as [-> _]. unfold m1, alter, fn_alter. by rewrite decide_True. }
  split_and!; [|done|done]. cbn [set_mem]. eapply block_step; [eapply (attach_slot s m1 m'); [exact Hk|exact H|apply touch_write; lia| |]|apply touch_refl|by left|done| |done|].
  - by apply (dl_same m2).
  - by eapply relinked_ext.
  - intros k' Hk'. unfold is_open. cbn [bkind andb]. apply eq_bool_prop_intro. rewrite !Is_true_true, !Nat.eqb_eq. lia.
  - split; [cbn; lia|]. split; [done|]. cbn [mem set_mem bstart bitmap]. constructor; try done.
    + rewrite Em. destruct D as (_ & _ & -> & _). done.
    + unfold bits_rep in *. by rewrite Hslab.
Qed.

(** No chunk is in use. *)
Definition unused (shift : nat) (bits : Z) : bool := Z.shiftr bits (Z.of_nat (reserved shift)) =? 0.

Lemma chunks_clear n words n' words' shift bits j : chunks_ok n words shift bits true -> (reserved shift <= j)%nat -> ptype n' = ptype n ->
  bits_rep n' words' shift (Z.clearbit bits (Z.of_nat j)) -> chunks_ok n' words' shift (Z.clearbit bits (Z.of_nat j)) true.
Proof.
  intros [C1 C2 C3 C4 C5 C6] Hj Ht Hr. rewrite full_bits_pow in C3. constructor; try done; [congruence| |].
  - rewrite full_bits_pow. assert (H0 : 0 <= Z.clearbit bits (Z.of_nat j)) by (rewrite Z.clearbit_spec'; apply Z.ldiff_nonneg; lia).
    split; [done|]. apply Z.lt_le_pred. apply bits_lt; [lia|done|]. intros i Hi. rewrite Z.clearbit_eqb, (high_bits (Z.of_nat (nchunks shift))) by lia. done.
  - intros i Hi. rewrite Z.clearbit_eqb, C4 by done. rewrite (proj2 (Z.eqb_neq _ _)) by lia. done.
Qed.

(** What the branches of ngx_slab_free_locked promise for a chunk in use: the page stays, or
    was the last one and is joined with the free runs around it. *)
Definition frees (s : pool) (i k : nat) (bits' : Z) (bs : list block) (r : option pool) : Prop :=
  exists s1, r = Some (set_stat k (add_used (-1)) s1) /\
  if unused (k + 3) bits' then
    exists d s2 m j a b bs' fl sl, s1 = set_stat k (add_total d) (set_mem m (set_pfree (u64 (pfree s + 1)) s2)) /\ frame s s2 /\ (j + a = i)%nat /\
    inv (set_mem m s2) (Block j (a + (1 + b)) KFree :: bs') fl sl /\ bs ≡ₚ joined j a ++ joined (i + 1) b ++ bs'
  else frame s s1 /\ exists fl sl, inv s1 (Block i 1 (KChunks (k + 3) bits' true) :: bs) fl sl.

Lemma free_end s s1 s2 i k bits j bs fl sl (e : bool) d :
  (k < nslots)%nat -> inv s1 (Block i 1 (KChunks (k + 3) bits true) :: bs) fl sl -> Forall settled bs ->
  frame s s1 -> frame s1 s2 -> touch i 1 s1 s2 -> links_kept i s1 s2 -> (reserved (k + 3) <= j)%nat ->
  let bits' := Z.clearbit bits (Z.of_nat j) in
  bits_rep (mem s2 (Page i)) (bitmap s2 i) (k + 3) bits' -> e = unused (k + 3) bits' ->
  frees s i k bits' bs
    (s ← (if e then s ← ngx_slab_free_pages i 1 s2; Some (set_stat k (add_total d) s) else Some s2);
     Some (set_stat k (add_used (-1)) s)).
Proof.
  intros Hk H Hset F1 F2 Ht Hl Hj bits' Hr ->.
  assert (I2 : inv s2 (Block i 1 (KChunks (k + 3) bits' true) :: bs) fl sl).
  { apply (page_update s1 i k bits bs fl sl Hk H s2); [done|done|].
    eapply chunks_clear; [by eapply page_chunks|done| |done]. apply Hl. }
  unfold frees. destruct (unused (k + 3) bits').
  - apply (weaken _ _ _ _ (KLinked (Slot k))) in I2; [|split_and!; [done|f_equal; lia|lia]].
    destruct (free_pages_ok s2 i 1 _ bs fl sl I2) as (m & p & a & b & bs' & fl' & sl' & E & Ep & I & Hp); [right; eauto|done|].
    change (Z.of_nat 1) with 1 in E. rewrite E. cbn [mbind option_bind]. eexists. split; [done|].
    exists d, s2, m, p, a, b, bs', fl', sl'. rewrite (fr_pfree _ _ F2), (fr_pfree _ _ F1). split_and!; try done. by eapply frame_trans.
  - eexists. split; [done|]. split; [by eapply frame_trans|eauto].
Qed.

(** The result of ngx_slab_free_locked for the byte [o] of a page. *)
Definition gives (s : pool) (i k : nat) (bits : Z) (bs : list block) (o : Z) (r : option pool) : Prop :=
  if negb (o mod 2 ^ Z.of_nat (k + 3) =? 0) then r = Some s
  else
    let j := Z.to_nat (o / 2 ^ Z.of_nat (k + 3)) in
    if Z.testbit bits (Z.of_nat j) then (reserved (k + 3) <= j)%nat -> frees s i k (Z.clearbit bits (Z.of_nat j)) bs r else r = Some s.

Lemma page_size k : (k < nslots)%nat -> Z.of_nat (nchunks (k + 3)) * 2 ^ Z.of_nat (k + 3) = 4096.
Proof.
  intros Hk. apply Z.eqb_eq. by apply (slot_all (fun k => Z.of_nat (nchunks (k + 3)) * 2 ^ Z.of_nat (k + 3) =? 4096)).
Qed.

(** The tests of an address on the byte of the page. *)
Lemma addr_bits i o k : (k < nslots)%nat -> 0 <= o < 4096 -> let p := page_addr i + o in
  Z.land p (ngx_pagesize - 1) = o /\ Z.land p (Z.shiftl 1 (Z.of_nat (k + 3)) - 1) = o mod 2 ^ Z.of_nat (k + 3) /\
  Z.shiftr o (Z.of_nat (k + 3)) = Z.of_nat (Z.to_nat (o / 2 ^ Z.of_nat (k + 3))) /\ (Z.to_nat (o / 2 ^ Z.of_nat (k + 3)) < nchunks (k + 3))%nat.
Proof.
  intros Hk Ho p. pose proof (page_size k Hk) as Hs. set (z := 2 ^ Z.of_nat (k + 3)) in *. assert (Hz : 0 < z) by (apply Z.pow_pos_nonneg; lia).
  assert (Ep : p = Z.of_nat i * 4096 + o) by (unfold p, page_addr; rewrite Z.shiftl_mul_pow2 by done; done).
  assert (Hd : 0 <= o / z < Z.of_nat (nchunks (k + 3))) by (split; [apply Z.div_pos; lia|apply Z.div_lt_upper_bound; lia]). split_and!.
  - change (ngx_pagesize - 1) with (2 ^ 12 - 1). rewrite land_mask, Ep by done. rewrite Z.add_comm, Z.mod_add by done. by apply Z.mod_small.
  - rewrite Z.shiftl_1_l, land_mask, Ep, <- Hs by lia. fold z. rewrite Z.mul_assoc, Z.add_comm. apply Z.mod_add. lia.
  - rewrite Z.shiftr_div_pow2 by lia. fold z. lia.
  - lia.
Qed.

Section free.
Context (s : pool) (i k : nat) (bits o : Z) (bs : list block) (fl : list nat) (sl : nat -> list nat).
Let listed := negb (bits =? full_bits (k + 3)).
Context (Hk : (k < nslots)%nat) (H : inv s (Block i 1 (KChunks (k + 3) bits listed) :: bs) fl sl) (Hset : Forall settled bs) (Ho : 0 <= o < 4096).

Lemma free_chunks : chunks_ok (mem s (Page i)) (bitmap s i) (k + 3) bits listed.
Proof. by destruct (block_ok_in _ _ _ _ _ H ltac:(by left)) as (_ & _ & ?). Qed.

Lemma free_valid : valid s (Page i) = true.
Proof. eapply block_valid; [exact H|by left|cbn; lia]. Qed.

(** A page is in no list iff it is full. *)
Lemma listed_next : bool_decide (next (mem s (Page i)) = Null) = negb listed.
Proof.
  destruct free_chunks as [_ _ _ _ _ Hl]. destruct listed eqn:E.
  - apply bool_decide_false. apply (linked_next s _ fl sl _ H ltac:(by left)). right. exists k. split; [done|]. unfold is_open. cbn. apply Nat.eqb_refl.
  - apply bool_decide_true. by apply Hl.
Qed.

Lemma relist : exists s1 sl1, (if negb listed then enter_list i k (type_of (k + 3)) s else Some s) = Some s1 /\ frame s s1 /\
  inv s1 (Block i 1 (KChunks (k + 3) bits true) :: bs) fl sl1 /\ slab (mem s1 (Page i)) = slab (mem s (Page i)) /\ bitmap s1 = bitmap s /\
  valid s1 (Page i) = true.
Proof.
  pose proof free_valid as Hv. generalize H. destruct listed; intros H'; cbn [negb].
  - exists s, sl. done.
  - destruct (enter_ok _ _ _ _ _ _ _ Hk H') as (s1 & E & F & I & Es & Eb). exists s1, (<[k := i :: sl k]> sl). split_and!; try done.
    unfold valid. rewrite (fr_n _ _ F). done.
Qed.

Lemma free_small_ok : (k + 3 <? ngx_slab_exact_shift)%nat = true -> gives s i k bits bs o (free_small i (page_addr i + o) s).
Proof.
  intros Hs. destruct free_chunks as [_ _ _ _ Hr _]. unfold bits_rep in Hr. rewrite Hs in Hr. destruct Hr as (R1 & R2 & R3).
  destruct (small_sizes k Hk Hs) as (S1 & S2 & S3 & S4). destruct (addr_bits i o k Hk Ho) as (A1 & A2 & A3 & A4).
  assert (Hsh : Z.land (Z.of_nat (k + 3)) NGX_SLAB_SHIFT_MASK = Z.of_nat (k + 3)).
  { change NGX_SLAB_SHIFT_MASK with (2 ^ 4 - 1). rewrite land_mask by done. apply Z.mod_small. unfold nslots in Hk. lia. }
  unfold gives, free_small. rewrite rd_ok by apply free_valid. cbn [mbind option_bind]. rewrite R1, Hsh, Nat2Z.id, A2, A1, A3, Nat2Z.id.
  destruct (o mod 2 ^ Z.of_nat (k + 3) =? 0); cbn [negb]; [|done]. set (j := Z.to_nat (o / _)) in *.
  destruct (clear_word _ _ j R3) as (w & Ew & Et & Hok); [rewrite R2, <- S1; done|]. rewrite Ew. cbn [mbind option_bind]. rewrite Et.
  destruct (Z.testbit bits (Z.of_nat j)); [|done]. cbn [negb]. intros Hj. rewrite listed_next. replace (k + 3 - min_shift)%nat with k by (unfold min_shift; lia).
  destruct relist as (s1 & sl1 & E & F & I & Es & Eb & Hv). unfold type_of in E. rewrite Hs in E. rewrite E. cbn [mbind option_bind]. rewrite Eb.
  set (words' := <[(j / 64)%nat := _]> (bitmap s i)) in *. destruct (touch_bitmap i s1 words') as (T1 & T2 & T3).
  assert (Hlen : length words' = map_words (k + 3)) by (unfold words'; by rewrite length_insert).
  destruct (words_unused words' _ (reserved (k + 3)) Hok S3) as (w0 & Ew0 & Eu); [lia|]. rewrite <- S4. rewrite Ew0. cbn [mbind option_bind].
  destruct (free_end s s1 (set_bitmap i words' s1) i k bits j bs fl sl1 (unused (k + 3) (Z.clearbit bits (Z.of_nat j))) (- Z.of_nat (nchunks (k + 3) - reserved (k + 3)))) as (s2 & E2 & P2); try done.
  { unfold bits_rep. rewrite Hs, T3. split_and!; [by rewrite <- R1|done|done]. }
  unfold frees. exists s2. split; [|done]. rewrite <- E2. unfold unused. rewrite <- Eu. destruct (Z.land w0 _ =? 0); [|done]. by destruct (forallb _ _).
Qed.

Lemma free_exact_ok : (k + 3 =? ngx_slab_exact_shift)%nat = true -> gives s i k bits bs o (free_exact i (page_addr i + o) s).
Proof.
  intros He. destruct free_chunks as [_ _ Hb _ Hr _]. apply Nat.eqb_eq in He. assert (Hs : (k + 3 <? ngx_slab_exact_shift)%nat = false) by (apply Nat.ltb_ge; lia).
  assert (Hn : nchunks (k + 3) = 64%nat) by (rewrite He; by vm_compute). rewrite full_bits_pow, Hn in Hb.
  destruct (addr_bits i o k Hk Ho) as (A1 & A2 & A3 & A4). unfold bits_rep in Hr. rewrite Hs, (proj2 (Nat.eqb_eq _ _) He) in Hr.
  unfold gives, free_exact. rewrite rd_ok by apply free_valid. cbn [mbind option_bind]. rewrite <- He.
  change (ngx_slab_exact_size - 1) with (Z.shiftl 1 (Z.of_nat 6) - 1). change 6%nat with ngx_slab_exact_shift. rewrite <- He, A2, A1, A3, Hr.
  destruct (o mod 2 ^ Z.of_nat (k + 3) =? 0); cbn [negb]; [|done]. set (j := Z.to_nat (o / _)) in *. rewrite test_bit by lia.
  destruct (Z.testbit bits (Z.of_nat j)); cbn [negb]; [|done]. intros Hj. replace (k + 3 - min_shift)%nat with k by (unfold min_shift; lia).
  destruct relist as (s1 & sl1 & E & F & I & Es & Eb & Hv). assert (El : (bits =? NGX_SLAB_BUSY) = negb listed) by (unfold listed; by rewrite negb_involutive, full_bits_pow, Hn).
  rewrite El. unfold type_of in E. rewrite Hs, (proj2 (Nat.eqb_eq _ _) He) in E. rewrite E. cbn [mbind option_bind].
  assert (Ec : Z.land bits (u64 (Z.lnot (Z.shiftl 1 (Z.of_nat j)))) = Z.clearbit bits (Z.of_nat j)).
  { apply Z.bits_inj'. intros x Hx. rewrite clear_bit, Z.clearbit_eqb by (unfold in_u; lia). done. }
  rewrite Ec. set (bits' := Z.clearbit _ _). rewrite wr_ok by done. cbn [mbind option_bind]. destruct (touch_slab i s1 bits') as (T1 & T2 & T3).
  destruct (free_end s s1 (set_mem (alter (set_slab bits') (Page i) (mem s1)) s1) i k bits j bs fl sl1 (unused (k + 3) bits') (-64)) as (s2 & E2 & P2); try done.
  { unfold bits_rep. rewrite Hs, (proj2 (Nat.eqb_eq _ _) He). done. }
  unfold frees. exists s2. split; [|done]. rewrite <- E2. unfold unused, reserved. rewrite Hs. change (Z.of_nat 0) with 0. rewrite Z.shiftr_0_r. by destruct (bits' =? 0).
Qed.

Lemma free_big_ok : (k + 3 <? ngx_slab_exact_shift)%nat = false -> (k + 3 =? ngx_slab_exact_shift)%nat = false -> gives s i k bits bs o (free_big i (page_addr i + o) s).
Proof.
  intros Hs He. destruct free_chunks as [_ _ Hb _ Hr _]. destruct (big_sizes k Hk Hs He) as (Hn & _). rewrite full_bits_pow in Hb.
  destruct (addr_bits i o k Hk Ho) as (A1 & A2 & A3 & A4). unfold bits_rep in Hr. rewrite Hs, He in Hr. set (n := nchunks (k + 3)) in *. set (sh := Z.of_nat (k + 3)) in *.
  assert (Hsh : 0 <= sh < 16) by (unfold nslots in Hk; lia). assert (Hpow : 2 ^ Z.of_nat n <= 2 ^ 32) by (apply Z.pow_le_mono_r; lia). assert (Hb32 : 0 <= bits < 2 ^ 32) by lia.
  unfold gives, free_big. rewrite rd_ok by apply free_valid. cbn [mbind option_bind]. rewrite Hr, upper_shift by lia. unfold sh. rewrite Nat2Z.id. fold sh. rewrite A2, A1, A3.
  destruct (o mod 2 ^ sh =? 0); cbn [negb]; [|done]. set (j := Z.to_nat (o / _)) in *. unfold NGX_SLAB_MAP_SHIFT. rewrite (Z.add_comm (Z.of_nat j)).
  rewrite test_bit, upper_get by lia. destruct (Z.testbit bits (Z.of_nat j)); cbn [negb]; [|done]. intros Hj.
  replace (k + 3 - min_shift)%nat with k by (unfold min_shift; lia). rewrite upper_clear by lia. rewrite listed_next.
  destruct relist as (s1 & sl1 & E & F & I & Es & Eb & Hv). unfold type_of in E. rewrite Hs, He in E. rewrite E. cbn [mbind option_bind].
  set (bits' := Z.clearbit _ _). rewrite wr_ok by done. cbn [mbind option_bind]. destruct (touch_slab i s1 (bits' * 2 ^ 32 + sh)) as (T1 & T2 & T3).
  assert (Hb' : 0 <= bits' < 2 ^ 32).
  { assert (H0 : 0 <= bits') by (unfold bits'; rewrite Z.clearbit_spec'; apply Z.ldiff_nonneg; lia). split; [done|]. apply bits_lt; [done|done|].
    intros x Hx. unfold bits'. rewrite Z.clearbit_eqb, (high_bits 32) by lia. done. }
  rewrite upper_map by lia.
  destruct (free_end s s1 (set_mem (alter (set_slab (bits' * 2 ^ 32 + sh)) (Page i) (mem s1)) s1) i k bits j bs fl sl1 (unused (k + 3) bits') (- Z.of_nat n)) as (s2 & E2 & P2); try done.
  { unfold bits_rep. rewrite Hs, He. done. }
  unfold frees. exists s2. split; [|done]. rewrite <- E2. unfold unused, reserved. rewrite Hs. change (Z.of_nat 0) with 0. rewrite Z.shiftr_0_r.
  destruct (Z.eqb_spec (bits' * 2 ^ 32) 0), (Z.eqb_spec bits' 0); (done || lia).
Qed.

End free.

End SlabChunks.
