(* ===== verification/SlabSpec.v ===== *)
(** * The slab allocator: what it promises

    The pieces of a pool in use are read off its partition.  ngx_slab_alloc_locked adds a
    piece that is large enough and overlaps no other, ngx_slab_free_locked removes one,
    and when the last one is gone all pages are one free run again. *)

From stdpp Require Import functions.
From S2P Require Import Prelude Slab SlabPages SlabRuns SlabBits SlabChunks.

Module SlabSpec.
Import Slab SlabPages SlabRuns SlabBits SlabChunks.

(** ** Pieces in use: address and size *)

Definition chunk_indices (shift : nat) (bits : Z) : list nat :=
  List.filter (fun j => Z.testbit bits (Z.of_nat j)) (seq (reserved shift) (nchunks shift - reserved shift)).

Definition pieces_of (b : block) : list (Z * Z) :=
  match bkind b with
  | KRun => [(page_addr (bstart b), Z.of_nat (blen b) * ngx_pagesize)]
  | KChunks shift bits _ => map (fun j => (chunk_addr (bstart b) j shift, 2 ^ Z.of_nat shift)) (chunk_indices shift bits)
  | _ => []
  end.

Definition live (bs : list block) : list (Z * Z) := concat (map pieces_of bs).

Definition free_len (b : block) : Z := match bkind b with KFree => Z.of_nat (blen b) | _ => 0 end.
Definition free_count (bs : list block) : Z := foldr (fun b n => free_len b + n) 0 bs.

(** Between operations: no block is being changed, a page of chunks has a chunk in use, and
    is in the list of its size unless it is full. *)
Definition tidy (b : block) : Prop :=
  match bkind b with
  | KRaw | KLinked _ => False
  | KFree | KRun => True
  | KChunks shift bits listed => listed = negb (bits =? full_bits shift) /\ unused shift bits = false
  end.

Record pool_ok (s : pool) (bs : list block) : Prop := {
  po_inv : exists fl sl, inv s bs fl sl;
  po_tidy : Forall tidy bs;
  po_pfree : pfree s = free_count bs;
  po_limit : Z.of_nat (npages s) * ngx_pagesize <= limit s;
}.

#[global] Instance live_perm : Proper ((≡ₚ) ==> (≡ₚ)) live.
Proof. intros bs bs' H. unfold live. rewrite <- !flat_map_concat_map. by rewrite H. Qed.

#[global] Instance free_count_perm : Proper ((≡ₚ) ==> eq) free_count.
Proof. intros bs bs' H. induction H as [|b bs bs' _ IH|b b' bs|bs1 bs2 bs3 _ IH1 _ IH2]; unfold free_count in *; cbn [foldr]; lia. Qed.

Lemma live_cons b bs : live (b :: bs) = pieces_of b ++ live bs.
Proof. done. Qed.

Lemma live_app bs1 bs2 : live (bs1 ++ bs2) = live bs1 ++ live bs2.
Proof. unfold live. by rewrite map_app, concat_app. Qed.

Lemma free_count_app bs1 bs2 : free_count (bs1 ++ bs2) = free_count bs1 + free_count bs2.
Proof. induction bs1 as [|b bs1 IH]; cbn in *; [done|]. unfold free_count in *. rewrite IH. lia. Qed.

Lemma live_joined j l : live (joined j l) = [].
Proof. unfold joined. by destruct (l =? 0)%nat. Qed.

Lemma free_count_joined j l : free_count (joined j l) = Z.of_nat l.
Proof. unfold joined. destruct (Nat.eqb_spec l 0) as [->|]; cbn; lia. Qed.

Lemma tidy_settled bs : Forall tidy bs -> Forall settled bs.
Proof. intros H. eapply list.Forall_impl; [exact H|]. intros b. unfold tidy, settled. by destruct (bkind b). Qed.

Lemma tidy_joined j l : Forall tidy (joined j l).
Proof. unfold joined. destruct (l =? 0)%nat; by repeat constructor. Qed.

Lemma free_count_bound s bs fl sl : inv s bs fl sl -> 0 <= free_count bs <= Z.of_nat (npages s).
Proof.
  intros H. pose proof (Permutation_length (iv_part _ _ _ _ H)) as Hl. rewrite length_seq in Hl. rewrite <- Hl. clear.
  induction bs as [|b bs IH]; [done|]. cbn [free_count foldr]. fold (free_count bs). change (all_pages (b :: bs)) with (pages_of b ++ all_pages bs).
  rewrite length_app. unfold pages_of at 1. rewrite length_seq. unfold free_len. destruct (bkind b); lia.
Qed.

(** ** Bits and pieces *)

Lemma filter_flip (f g : nat -> bool) (l : list nat) j : NoDup l -> j ∈ l -> f j = false -> g j = true -> (forall x, x <> j -> g x = f x) ->
  List.filter g l ≡ₚ j :: List.filter f l.
Proof.
  intros Hn Hj Ff Fg Hx. induction l as [|x l IH]; [set_solver|]. apply list.NoDup_cons in Hn as [Hx' Hn]. cbn. destruct (decide (x = j)) as [->|Hne].
  - rewrite Ff, Fg. replace (List.filter g l) with (List.filter f l); [done|]. apply filter_ext_in. intros y Hy%list_elem_of_In. symmetry. apply Hx. set_solver.
  - rewrite (Hx x Hne). specialize (IH Hn ltac:(set_solver)). destruct (f x); [|done]. rewrite IH. apply Permutation_swap.
Qed.

Lemma pieces_set i shift bits l l' j : (reserved shift <= j < nchunks shift)%nat -> Z.testbit bits (Z.of_nat j) = false ->
  pieces_of (Block i 1 (KChunks shift (Z.lor bits (Z.shiftl 1 (Z.of_nat j))) l))
  ≡ₚ (chunk_addr i j shift, 2 ^ Z.of_nat shift) :: pieces_of (Block i 1 (KChunks shift bits l')).
Proof.
  intros Hj Hb. unfold pieces_of. cbn [bkind bstart]. unfold chunk_indices. refine (Permutation_map _ (filter_flip (fun x => Z.testbit bits (Z.of_nat x)) _ _ j _ _ _ _ _)); [apply NoDup_seq|apply elem_of_seq; lia|done| |].
  - cbv beta. rewrite set_bit, Z.eqb_refl by lia. done.
  - intros x Hx. cbv beta. rewrite set_bit by lia. by rewrite (proj2 (Z.eqb_neq _ _)) by lia.
Qed.

Lemma pieces_clear i shift bits l l' j : (reserved shift <= j < nchunks shift)%nat -> Z.testbit bits (Z.of_nat j) = true ->
  pieces_of (Block i 1 (KChunks shift bits l))
  ≡ₚ (chunk_addr i j shift, 2 ^ Z.of_nat shift) :: pieces_of (Block i 1 (KChunks shift (Z.clearbit bits (Z.of_nat j)) l')).
Proof.
  intros Hj Hb. unfold pieces_of. cbn [bkind bstart]. unfold chunk_indices. refine (Permutation_map _ (filter_flip (fun x => Z.testbit (Z.clearbit bits (Z.of_nat j)) (Z.of_nat x)) _ _ j _ _ _ _ _)); [apply NoDup_seq|apply elem_of_seq; lia| |done|].
  - cbv beta. rewrite Z.clearbit_eqb, Z.eqb_refl. apply andb_false_r.
  - intros x Hx. cbv beta. rewrite Z.clearbit_eqb. rewrite (proj2 (Z.eqb_neq _ _)) by lia. by rewrite andb_true_r.
Qed.

Lemma unused_bit shift bits j : unused shift bits = true -> (reserved shift <= j)%nat -> Z.testbit bits (Z.of_nat j) = false.
Proof.
  intros E%Z.eqb_eq Hj. replace (Z.of_nat j) with (Z.of_nat (j - reserved shift) + Z.of_nat (reserved shift)) by lia.
  rewrite <- Z.shiftr_spec, E by lia. apply Z.testbit_0_l.
Qed.

Lemma used_bit shift bits : 0 <= bits <= full_bits shift -> unused shift bits = false ->
  exists j, (reserved shift <= j < nchunks shift)%nat /\ Z.testbit bits (Z.of_nat j) = true.
Proof.
  intros Hb Hu. destruct (decide (Exists (fun j => Z.testbit bits (Z.of_nat j) = true) (seq (reserved shift) (nchunks shift - reserved shift)))) as [He|Hn].
  - apply list.Exists_exists in He as (j & Hj%elem_of_seq & Hx). exists j. split; [lia|done].
  - exfalso. assert (unused shift bits = true); [|congruence]. apply Z.eqb_eq, Z.bits_inj'. intros x Hx. rewrite Z.shiftr_spec, Z.testbit_0_l by done.
    destruct (Z.ltb_spec (x + Z.of_nat (reserved shift)) (Z.of_nat (nchunks shift))).
    + apply not_true_is_false. intros Hbit. apply Hn, list.Exists_exists. exists (Z.to_nat (x + Z.of_nat (reserved shift))). split; [apply elem_of_seq; lia|].
      rewrite Z2Nat.id by lia. done.
    + rewrite full_bits_pow in Hb. apply (high_bits (Z.of_nat (nchunks shift))); lia.
Qed.

Lemma filter_nil_all (f : nat -> bool) (l : list nat) : (forall j, j ∈ l -> f j = false) -> List.filter f l = [].
Proof. intros H. induction l as [|j l IH]; [done|]. cbn. rewrite H by set_solver. apply IH. set_solver. Qed.

Lemma unused_pieces i shift bits l : unused shift bits = true -> pieces_of (Block i 1 (KChunks shift bits l)) = [].
Proof.
  intros Hu. unfold pieces_of. cbn. unfold chunk_indices. rewrite filter_nil_all; [done|]. intros j Hj%elem_of_seq. apply (unused_bit shift); [done|lia].
Qed.

Lemma set_used shift bits j : (reserved shift <= j)%nat -> unused shift (Z.lor bits (Z.shiftl 1 (Z.of_nat j))) = false.
Proof.
  intros Hj. apply not_true_is_false. intros Hu. pose proof (unused_bit _ _ j Hu Hj) as Hb. rewrite set_bit, Z.eqb_refl in Hb by lia. done.
Qed.

(** ** Allocation *)

Lemma shift_of_ok size : 0 <= size <= ngx_slab_max_size -> exists k, shift_of size = (k + 3)%nat /\ (k < nslots)%nat /\ size <= 2 ^ Z.of_nat (k + 3).
Proof.
  intros Hs. exists (shift_of size - 3)%nat.
  assert (H : (let n := shift_of size in (3 <=? n) && (n <? 12))%nat && (size <=? 2 ^ Z.of_nat (shift_of size)) = true).
  { apply (all_below_spec 2049 (fun size => (let n := shift_of size in (3 <=? n) && (n <? 12))%nat && (size <=? 2 ^ Z.of_nat (shift_of size)))); [by vm_compute|].
    unfold ngx_slab_max_size, ngx_pagesize in Hs. change (4096 / 2) with 2048 in Hs. lia. }
  cbn zeta in H. rewrite !andb_true_iff, Nat.leb_le, Nat.ltb_lt, Z.leb_le in H. destruct H as [[H1 H2] H3].
  replace (shift_of size - 3 + 3)%nat with (shift_of size) by lia. split_and!; [done|unfold nslots; lia|done].
Qed.

(** ngx_slab_alloc_pages in a pool. *)
Lemma alloc_pages_pool s bs fl sl pages : inv s bs fl sl -> Forall tidy bs -> pfree s = free_count bs -> 0 < pages ->
  (exists i s' bs' fl', ngx_slab_alloc_pages pages s = Some (Some i, s') /\ npages s' = npages s /\ limit s' = limit s /\
     inv s' (Block i (Z.to_nat pages) KRun :: bs') fl' sl /\ Forall tidy bs' /\ pfree s' = free_count bs' /\ live bs ≡ₚ live bs') \/
  (ngx_slab_alloc_pages pages s = Some (None, s) /\ Forall (fun b => bkind b = KFree -> Z.of_nat (blen b) < pages) bs).
Proof.
  intros H Ht Hf Hp. destruct (alloc_pages_ok s pages bs fl sl Hp H (tidy_settled _ Ht)) as [(i & len & bs' & m' & fl' & E & Hb & Hl & I)|?]; [left|by right].
  set (v := u64 (pfree s - pages)) in *. set (rest := joined _ _) in *. exists i, (set_mem m' (set_pfree v s)), (rest ++ bs'), fl'. split_and!; try done.
  - by apply (inv_other (set_mem m' s)).
  - rewrite Hb in Ht. inversion Ht. apply list.Forall_app. split; [apply tidy_joined|done].
  - pose proof (free_count_bound _ _ _ _ I) as Hc. pose proof (iv_size _ _ _ _ I) as Hn. cbn [npages set_mem] in Hc, Hn.
    assert (E2 : free_count bs = free_count (rest ++ bs') + pages).
    { rewrite Hb, free_count_app. unfold rest. rewrite free_count_joined. cbn [free_count foldr]. unfold free_len at 1. cbn [bkind blen]. fold (free_count bs'). lia. }
    cbn [pfree set_mem set_pfree]. unfold v. rewrite Hf, E2. replace (free_count (rest ++ bs') + pages - pages) with (free_count (rest ++ bs')) by lia.
    unfold u64. apply wrap_small. change (free_count (Block i (Z.to_nat pages) KRun :: rest ++ bs')) with (0 + free_count (rest ++ bs')) in Hc. unfold in_u. lia.
  - rewrite Hb, live_app. unfold rest. by rewrite live_joined.
Qed.

(** The result of an allocation: a piece more, or the reason why there is none. *)
Definition allocated (s : pool) (bs : list block) (size : Z) (nomem : Prop) (r : option (option Z * pool)) : Prop :=
  exists q s' bs', r = Some (q, s') /\ pool_ok s' bs' /\ npages s' = npages s /\
  match q with
  | Some p => exists z, live bs' ≡ₚ (p, z) :: live bs /\ size <= z
  | None => bs' = bs /\ nomem
  end.

Lemma alloc_large s bs size : pool_ok s bs -> ngx_slab_max_size < size ->
  allocated s bs size (Forall (fun b => bkind b = KFree -> Z.of_nat (blen b) * ngx_pagesize < size) bs) (ngx_slab_alloc_locked size s).
Proof.
  intros [(fl & sl & H) Ht Hf Hl] Hs. unfold ngx_slab_alloc_locked. rewrite (proj2 (Z.gtb_lt _ _)) by done.
  rewrite Z.shiftr_div_pow2 by done. change (2 ^ ngx_pagesize_shift) with ngx_pagesize. set (pages := _ / _ + _).
  assert (Hp : 0 < pages /\ pages * ngx_pagesize >= size /\ (forall n, n < pages -> n * ngx_pagesize < size)).
  { unfold pages, ngx_slab_max_size, ngx_pagesize in *. change (4096 / 2) with 2048 in Hs. destruct (Z.eqb_spec (size mod 4096) 0); split_and!; zlia. }
  destruct Hp as (Hp & Hge & Hlt). destruct (alloc_pages_pool s bs fl sl pages H Ht Hf Hp) as [(i & s' & bs' & fl' & E & E1 & E2 & I & Ht' & Hf' & Hv)|[E Hno]].
  - rewrite E. cbn [mbind option_bind option_map]. exists (Some (page_addr i)), s', (Block i (Z.to_nat pages) KRun :: bs'). split_and!; [done| |done|].
    + constructor; [eauto|by constructor|done|by rewrite E1, E2].
    + exists (pages * ngx_pagesize). split; [|lia]. rewrite live_cons. unfold pieces_of. cbn [bkind bstart blen]. rewrite Z2Nat.id by lia. by rewrite Hv.
  - rewrite E. cbn [mbind option_bind option_map]. exists None, s, bs. split_and!; [done|by constructor; eauto|done|done|].
    eapply list.Forall_impl; [exact Hno|]. cbv beta. intros b Hb Hk. apply Hlt. auto.
Qed.

Lemma set_stat_ok s bs k f : pool_ok s bs -> pool_ok (set_stat k f s) bs.
Proof. intros [(fl & sl & H) Ht Hf Hl]. constructor; [|done|done|done]. exists fl, sl. by apply (inv_other s). Qed.

(** A page is taken for the size: its list is empty. *)
Lemma alloc_new_ok s bs fl sl k size : inv s bs fl sl -> Forall tidy bs -> pfree s = free_count bs -> Z.of_nat (npages s) * ngx_pagesize <= limit s ->
  (k < nslots)%nat -> sl k = [] -> size <= 2 ^ Z.of_nat (k + 3) ->
  allocated s bs size (Forall (fun b => bkind b <> KFree /\ is_open k b = false) bs) (alloc_new_page (k + 3) s).
Proof.
  intros H Ht Hf Hl Hk Hsl Hz. unfold alloc_new_page. replace (k + 3 - min_shift)%nat with k by (unfold min_shift; lia).
  destruct (alloc_pages_pool s bs fl sl 1 H Ht Hf ltac:(lia)) as [(i & s1 & bs' & fl' & E & E1 & E2 & I & Ht' & Hf' & Hv)|[E Hno]].
  - rewrite E. cbn [mbind option_bind]. change (Z.to_nat 1) with 1%nat in I.
    destruct (new_page_ok s1 i k bs' fl' sl Hk Hsl I) as (s2 & d & E3 & F & I2). rewrite E3. cbn [mbind option_bind].
    exists (Some (chunk_addr i (reserved (k + 3)) (k + 3))). eexists. exists (Block i 1 (KChunks (k + 3) (new_bits (k + 3)) true) :: bs').
    pose proof (usable k Hk) as Hu. pose proof (new_bits_lt k Hk) as Hn. split_and!; [done| | |].
    + apply set_stat_ok, set_stat_ok. constructor; [eauto| |rewrite (fr_pfree _ _ F); done|rewrite (fr_n _ _ F), (fr_limit _ _ F), E1, E2; done].
      constructor; [|done]. cbn. rewrite (proj2 (Z.eqb_neq _ _)) by lia. split; [done|]. apply not_true_is_false. intros Hun.
      apply (unused_bit _ _ (reserved (k + 3))) in Hun; [|done]. rewrite new_bits_bit, Nat.leb_refl in Hun by done. done.
    + cbn. by rewrite (fr_n _ _ F).
    + exists (2 ^ Z.of_nat (k + 3)). split; [|done]. rewrite live_cons, Hv. unfold pieces_of. cbn [bkind bstart]. unfold chunk_indices.
      replace (nchunks (k + 3) - reserved (k + 3))%nat with (S (nchunks (k + 3) - reserved (k + 3) - 1)) by lia. cbn [seq List.filter].
      rewrite new_bits_bit, Nat.leb_refl by done. cbn [map app]. rewrite filter_nil_all; [done|]. intros j Hj%elem_of_seq. rewrite new_bits_bit by done. apply Nat.leb_gt. lia.
  - rewrite E. cbn [mbind option_bind]. eexists None, _, bs. split_and!; [done| |done|done|].
    + apply set_stat_ok. constructor; eauto.
    + rewrite list.Forall_forall in Hno |- *. intros b Hb. split.
      * intros Hkb. specialize (Hno b Hb Hkb). pose proof (iv_len _ _ _ _ _ H Hb). lia.
      * apply not_true_is_false. intros Ho. assert (Hin : bstart b ∈ sl k) by (rewrite (iv_sl _ _ _ _ H k Hk); apply start_if_in; eauto). rewrite Hsl in Hin. set_solver.
Qed.

(** The page at the head of a list has a free chunk. *)
Lemma open_head s bs fl sl k i l : inv s bs fl sl -> Forall tidy bs -> (k < nslots)%nat -> sl k = i :: l ->
  exists bits bs', bs ≡ₚ Block i 1 (KChunks (k + 3) bits true) :: bs' /\ bits <> full_bits (k + 3) /\ next (mem s (Page i)) <> Page i.
Proof.
  intros H Ht Hk El. assert (Hi : i ∈ sl k) by (rewrite El; set_solver). rewrite (iv_sl _ _ _ _ H k Hk), start_if_in in Hi. destruct Hi as (b & Hb & Ho & <-).
  rewrite list.Forall_forall in Ht. pose proof (Ht b Hb) as Htb. destruct (block_ok_in _ _ _ _ _ H Hb) as [_ Hok]. unfold tidy in Htb. unfold is_open in Ho.
  destruct b as [i len kd]. cbn [bkind bstart blen] in *. destruct kd as [| | | |shift bits listed]; try done. destruct Hok as [-> Hok], Htb as [Hl _].
  apply andb_true_iff in Ho as [Hl' Hs%Nat.eqb_eq]. subst shift. rewrite Hl' in *. apply elem_of_Permutation in Hb as (bs' & Hb). exists bits, bs'. split_and!; [done| |].
  - intros E. rewrite E, Z.eqb_refl in Hl. done.
  - pose proof (iv_slot _ _ _ _ H k Hk) as Hd. pose proof (sl_nodup _ _ _ _ k H Hk) as Hn. rewrite El in Hd, Hn. cbn [dl] in Hd. destruct Hd as (_ & _ & _ & Hd).
    apply dl_head in Hd. rewrite Hd. apply list.NoDup_cons in Hn as [Hn _]. destruct l as [|a l]; cbn; [done|]. intros [= ->]. set_solver.
Qed.

Lemma set_stat_inv s bs fl sl k f : inv s bs fl sl -> inv (set_stat k f s) bs fl sl.
Proof. by apply inv_other. Qed.

Lemma alloc_small s bs size : pool_ok s bs -> 0 <= size <= ngx_slab_max_size ->
  allocated s bs size (Forall (fun b => bkind b <> KFree /\ is_open (shift_of size - 3) b = false) bs) (ngx_slab_alloc_locked size s).
Proof.
  intros [(fl & sl & H) Ht Hf Hl] Hs. destruct (shift_of_ok size Hs) as (k & Ek & Hk & Hz). unfold ngx_slab_alloc_locked.
  replace (size >? ngx_slab_max_size) with false by (symmetry; rewrite Z.gtb_ltb; apply Z.ltb_ge; lia).
  rewrite Ek. replace (k + 3 - min_shift)%nat with k by (unfold min_shift; lia). replace (k + 3 - 3)%nat with k by lia.
  set (s0 := set_stat k inc_reqs s). assert (H0 : inv s0 bs fl sl) by by apply set_stat_inv.
  rewrite rd_ok by by apply Nat.ltb_lt. cbn [mbind option_bind]. rewrite (slot_next _ _ _ _ k H0 Hk). rewrite rd_ok by by eapply slotp_valid. cbn [mbind option_bind].
  assert (Hret : forall r P, allocated s0 bs size P r -> allocated s bs size P r) by done.
  destruct (sl k) as [|i l] eqn:El; cbn [headp].
  - rewrite (slot_next _ _ _ _ k H0 Hk), El. rewrite bool_decide_true by done. cbn [negb]. apply Hret. by eapply alloc_new_ok.
  - destruct (open_head _ _ _ _ _ _ _ H0 Ht Hk El) as (bits & bs' & Hb & Hfull & Hne). rewrite bool_decide_false by done. cbn [negb].
    apply (inv_perm _ _ _ _ _ Hb) in H0. destruct (take_from_page_ok s0 i k bits bs' fl sl Hk H0 Hfull) as (j & s1 & sl' & E & F & Hj & Hz' & I).
    cbn zeta in I. set (bits' := Z.lor _ _) in *. rewrite E. cbn [mbind option_bind].
    assert (Hres : (reserved (k + 3) <= j)%nat).
    { destruct (page_chunks _ _ _ _ _ _ _ H0) as [_ _ _ Hr _ _]. destruct (decide (j < reserved (k + 3))%nat) as [Hlt|]; [|lia]. rewrite Hr in Hz'; done. }
    eexists (Some _), _, _. split_and!; [done| | |].
    + apply set_stat_ok. constructor; [eauto| |rewrite (fr_pfree _ _ F)|rewrite (fr_n _ _ F), (fr_limit _ _ F); done].
      * rewrite Hb in Ht. inversion Ht. constructor; [|done]. cbn. split; [done|]. by apply set_used.
      * cbn. rewrite Hf, Hb. done.
    + cbn. by rewrite (fr_n _ _ F).
    + exists (2 ^ Z.of_nat (k + 3)). split; [|done]. rewrite Hb, !live_cons. unfold bits'. rewrite (pieces_set _ _ _ _ true) by done. done.
Qed.

(** ** Deallocation *)

(** A run is free again: the pool after ngx_slab_free_pages. *)
Lemma free_pool s s2 m v i len bs j a b bs' fl sl :
  free_count bs + Z.of_nat len = v -> frame s s2 -> (j + a = i)%nat -> inv (set_mem m s2) (Block j (a + (len + b)) KFree :: bs') fl sl ->
  bs ≡ₚ joined j a ++ joined (i + len) b ++ bs' -> Forall tidy bs -> Z.of_nat (npages s) * ngx_pagesize <= limit s ->
  pool_ok (set_mem m (set_pfree (u64 v) s2)) (Block j (a + (len + b)) KFree :: bs') /\ live bs ≡ₚ live (Block j (a + (len + b)) KFree :: bs').
Proof.
  intros Hv F Ej I Hb Ht Hl. assert (Hc : free_count (Block j (a + (len + b)) KFree :: bs') = v).
  { rewrite <- Hv, Hb, !free_count_app, !free_count_joined. cbn [free_count foldr]. fold (free_count bs'). unfold free_len. cbn [bkind blen]. lia. }
  split.
  - pose proof (free_count_bound _ _ _ _ I) as Hn. pose proof (iv_size _ _ _ _ I) as Hs. rewrite Hc in Hn. constructor.
    + exists fl, sl. by apply (inv_other (set_mem m s2)).
    + rewrite Hb in Ht. apply list.Forall_app in Ht as [_ Ht]. apply list.Forall_app in Ht as [_ Ht]. by constructor.
    + change (u64 v = free_count (Block j (a + (len + b)) KFree :: bs')). rewrite Hc. apply wrap_small. cbn in Hn, Hs. unfold in_u. lia.
    + cbn. by rewrite (fr_n _ _ F), (fr_limit _ _ F).
  - rewrite Hb, !live_app, !live_joined. done.
Qed.

Definition freed (s : pool) (bs : list block) (p z : Z) (r : option pool) : Prop :=
  exists s' bs', r = Some s' /\ pool_ok s' bs' /\ npages s' = npages s /\ live bs ≡ₚ (p, z) :: live bs'.

Lemma frees_ok s i k bits j bs r : (k < nslots)%nat -> pool_ok s (Block i 1 (KChunks (k + 3) bits (negb (bits =? full_bits (k + 3)))) :: bs) ->
  (reserved (k + 3) <= j < nchunks (k + 3))%nat -> Z.testbit bits (Z.of_nat j) = true -> frees s i k (Z.clearbit bits (Z.of_nat j)) bs r ->
  freed s (Block i 1 (KChunks (k + 3) bits (negb (bits =? full_bits (k + 3)))) :: bs) (chunk_addr i j (k + 3)) (2 ^ Z.of_nat (k + 3)) r.
Proof.
  intros Hk [_ Ht Hf Hl] Hj Hb (s1 & Er & Hs1). inversion Ht as [|? ? _ Ht']; subst.
  change (free_count (Block i 1 (KChunks (k + 3) bits (negb (bits =? full_bits (k + 3)))) :: bs)) with (0 + free_count bs) in Hf.
  pose proof (pieces_clear i (k + 3) bits (negb (bits =? full_bits (k + 3))) true j Hj Hb) as Hpc. destruct (unused _ _) eqn:Hu.
  - destruct Hs1 as (d & s2 & m & p & a & b & bs' & fl & sl & -> & F & Ep & I & Hp).
    destruct (free_pool s s2 m (pfree s + 1) i 1 bs p a b bs' fl sl) as [Hok Hv]; try done; [lia|].
    eexists _, _. split; [done|]. split; [apply set_stat_ok, set_stat_ok, Hok|]. split; [cbn; apply F|].
    rewrite live_cons, Hpc, unused_pieces by done. by rewrite Hv.
  - destruct Hs1 as (F & fl & sl & I). eexists _, _. split; [done|]. split; [apply set_stat_ok; constructor; [by exists fl, sl| | |]|].
    + constructor; [|done]. cbn. split; [|done]. rewrite (proj2 (Z.eqb_neq _ _)); [done|]. intros E.
      assert (Hbit : Z.testbit (full_bits (k + 3)) (Z.of_nat j) = true) by (rewrite full_bits_pow, ones_bit by lia; apply Z.ltb_lt; lia).
      rewrite <- E, Z.clearbit_eqb, Z.eqb_refl, andb_false_r in Hbit. done.
    + rewrite (fr_pfree _ _ F), Hf. done.
    + by rewrite (fr_n _ _ F), (fr_limit _ _ F).
    + split; [cbn; apply F|]. by rewrite live_cons, Hpc.
Qed.

Lemma page_addr_mul i : page_addr i = Z.of_nat i * 4096.
Proof. unfold page_addr. by rewrite Z.shiftl_mul_pow2. Qed.

(** The page of an address. *)
Lemma free_locked_page s bs i o : pool_ok s bs -> (i < npages s)%nat -> 0 <= o < 4096 ->
  ngx_slab_free_locked (page_addr i + o) s =
  let n := mem s (Page i) in
  if ptype n =? NGX_SLAB_SMALL then free_small i (page_addr i + o) s
  else if ptype n =? NGX_SLAB_EXACT then free_exact i (page_addr i + o) s
  else if ptype n =? NGX_SLAB_BIG then free_big i (page_addr i + o) s
  else free_run i (page_addr i + o) s.
Proof.
  intros [_ _ _ Hl] Hi Ho. unfold ngx_slab_free_locked. rewrite page_addr_mul. unfold ngx_pagesize in Hl.
  rewrite (proj2 (Z.ltb_ge _ _)) by lia. replace (_ >? _) with false by (symmetry; rewrite Z.gtb_ltb; apply Z.ltb_ge; lia). cbn [orb].
  rewrite Z.shiftr_div_pow2 by done. change (2 ^ ngx_pagesize_shift) with 4096. rewrite Z.add_comm, Z.div_add, Z.div_small by lia.
  rewrite Z.add_0_l, Nat2Z.id, (Z.add_comm o). rewrite rd_ok by by apply Nat.ltb_lt. done.
Qed.

Lemma chunk_gives s i k bits bs o : (k < nslots)%nat -> pool_ok s (Block i 1 (KChunks (k + 3) bits (negb (bits =? full_bits (k + 3)))) :: bs) -> 0 <= o < 4096 ->
  gives s i k bits bs o (ngx_slab_free_locked (page_addr i + o) s).
Proof.
  intros Hk Hok Ho. pose proof Hok as [(fl & sl & H) Ht _ _]. inversion Ht as [|? ? _ Ht']; subst. apply tidy_settled in Ht'.
  pose proof (free_chunks _ _ _ _ _ _ _ H) as [_ Hty _ _ _ _].
  rewrite (free_locked_page _ _ _ _ Hok) by (done || (eapply iv_bound; [exact H|by left|apply pages_in; cbn; lia])). cbn zeta. rewrite Hty. unfold type_of.
  destruct (k + 3 <? ngx_slab_exact_shift)%nat eqn:Hs; [|destruct (k + 3 =? ngx_slab_exact_shift)%nat eqn:He]; cbn [Z.eqb Pos.eqb NGX_SLAB_SMALL NGX_SLAB_EXACT NGX_SLAB_BIG].
  - by eapply free_small_ok.
  - by eapply free_exact_ok.
  - by eapply free_big_ok.
Qed.

(** A chunk in use. *)
Lemma free_chunk s i k bits bs j : (k < nslots)%nat -> pool_ok s (Block i 1 (KChunks (k + 3) bits (negb (bits =? full_bits (k + 3)))) :: bs) ->
  (reserved (k + 3) <= j < nchunks (k + 3))%nat -> Z.testbit bits (Z.of_nat j) = true ->
  freed s (Block i 1 (KChunks (k + 3) bits (negb (bits =? full_bits (k + 3)))) :: bs) (chunk_addr i j (k + 3)) (2 ^ Z.of_nat (k + 3))
    (ngx_slab_free_locked (chunk_addr i j (k + 3)) s).
Proof.
  intros Hk Hok Hj Hb. apply frees_ok; try done. pose proof (page_size k Hk) as Hs. set (z := 2 ^ Z.of_nat (k + 3)) in *.
  assert (Hz : 0 < z) by (apply Z.pow_pos_nonneg; lia). unfold chunk_addr. rewrite Z.shiftl_mul_pow2 by lia. fold z.
  pose proof (chunk_gives s i k bits bs (Z.of_nat j * z) Hk Hok ltac:(nia)) as Hg. unfold gives in Hg. fold z in Hg.
  rewrite Z.mod_mul, Z.div_mul, Nat2Z.id, Hb in Hg by lia. cbn [negb Z.eqb] in Hg. apply Hg. lia.
Qed.

(** The descriptor of an allocated run. *)
Lemma run_slab len : Z.of_nat len < 2 ^ 32 -> let v := slab (run_node len) in
  (Z.land v NGX_SLAB_PAGE_START =? 0) = false /\ (v =? NGX_SLAB_PAGE_BUSY) = false /\ Z.land v (u64 (Z.lnot NGX_SLAB_PAGE_START)) = Z.of_nat len.
Proof.
  intros Hl v. assert (Ev : v = 1 * 2 ^ 63 + Z.of_nat len) by (unfold v; cbn [slab run_node]; rewrite Z.lor_comm; apply (lor_shiftl_add 1 _ 63); lia). split_and!.
  - change NGX_SLAB_PAGE_START with (Z.shiftl 1 63). rewrite test_bit by lia. unfold v. cbn [slab run_node]. by rewrite Z.lor_spec, orb_true_r.
  - apply Z.eqb_neq. unfold NGX_SLAB_PAGE_BUSY. lia.
  - change (u64 (Z.lnot NGX_SLAB_PAGE_START)) with (2 ^ 63 - 1). rewrite land_mask, Ev, Z.add_comm, Z.mod_add by lia. apply Z.mod_small. lia.
Qed.

Lemma run_type s bs fl sl b p : inv s bs fl sl -> b ∈ bs -> p ∈ pages_of b -> bkind b = KFree \/ bkind b = KRun -> ptype (mem s (Page p)) = 0.
Proof.
  intros H Hb Hp Hk. rewrite pages_in in Hp. destruct (block_ok_in _ _ _ _ _ H Hb) as [_ Hok]. destruct Hk as [Hk|Hk]; rewrite Hk in Hok.
  - destruct Hok as (_ & Ht & Hz & _). destruct (decide (p = bstart b)) as [->|]; [done|]. apply Hz. lia.
  - destruct Hok as [Ht Hz]. destruct (decide (p = bstart b)) as [->|]; [by rewrite Ht|]. rewrite Hz by lia. done.
Qed.

(** An allocated run. *)
Lemma free_run_block s i len bs : pool_ok s (Block i len KRun :: bs) ->
  freed s (Block i len KRun :: bs) (page_addr i) (Z.of_nat len * ngx_pagesize) (ngx_slab_free_locked (page_addr i) s).
Proof.
  intros Hok. pose proof Hok as [(fl & sl & H) Ht Hf Hl]. inversion Ht as [|? ? _ Ht']; subst.
  destruct (block_ok_in _ _ _ _ _ H ltac:(by left)) as (Hlen & Hn & _). cbn [bstart blen] in Hlen, Hn.
  assert (Hi : (i < npages s)%nat) by (eapply iv_bound; [exact H|by left|apply pages_in; cbn; lia]).
  assert (Hlt : Z.of_nat len < 2 ^ 32).
  { pose proof (iv_bound _ _ _ _ _ (i + len - 1)%nat H ltac:(by left) ltac:(apply pages_in; cbn; lia)). pose proof (iv_size _ _ _ _ H). lia. }
  replace (page_addr i) with (page_addr i + 0) at 2 by lia. rewrite (free_locked_page _ _ _ _ Hok) by (done || lia). cbn zeta. rewrite Hn. cbn [ptype run_node Z.eqb].
  rewrite Z.add_0_r. unfold free_run. rewrite rd_ok by by apply Nat.ltb_lt. cbn [mbind option_bind].
  destruct (addr_bits i 0 0 ltac:(unfold nslots; lia) ltac:(lia)) as (A1 & _). rewrite Z.add_0_r in A1. rewrite A1. cbn [negb Z.eqb].
  destruct (run_slab len Hlt) as (R1 & R2 & R3). rewrite Hn, R1, R2, R3.
  destruct (free_pages_ok s i len KRun bs fl sl H) as (m & j & a & b & bs' & fl' & sl' & E & Ej & I & Hb); [by left|by apply tidy_settled|].
  destruct (free_pool s s m (pfree s + Z.of_nat len) i len bs j a b bs' fl' sl') as [Hok' Hv]; try done; [rewrite Hf; done|].
  rewrite E. eexists _, _. split_and!; [done|exact Hok'|done|]. rewrite live_cons, Hv. done.
Qed.

Lemma live_in bs q : q ∈ live bs -> exists b bs', bs ≡ₚ b :: bs' /\ q ∈ pieces_of b.
Proof.
  unfold live. rewrite list_elem_of_In, <- flat_map_concat_map, in_flat_map. intros (b & Hb%list_elem_of_In & Hq%list_elem_of_In).
  apply elem_of_Permutation in Hb as (bs' & Hb). eauto.
Qed.

Lemma pool_ok_perm s bs bs' : bs ≡ₚ bs' -> pool_ok s bs -> pool_ok s bs'.
Proof.
  intros E [(fl & sl & H) Ht Hf Hl]. constructor; [exists fl, sl; by eapply inv_perm|by rewrite <- E|by rewrite <- E|done].
Qed.

Lemma chunk_shift s bs i len shift bits listed : pool_ok s bs -> Block i len (KChunks shift bits listed) ∈ bs ->
  exists k, shift = (k + 3)%nat /\ (k < nslots)%nat /\ len = 1%nat /\ listed = negb (bits =? full_bits shift).
Proof.
  intros [(fl & sl & H) Ht _ _] Hb. destruct (block_ok_in _ _ _ _ _ H Hb) as (_ & Hlen & [Hs _ _ _ _ _]). rewrite list.Forall_forall in Ht.
  destruct (Ht _ Hb) as [Hl _]. exists (shift - 3)%nat. unfold nslots. cbn in *. split_and!; [lia|lia|done|done].
Qed.

Lemma free_live s bs p z : pool_ok s bs -> (p, z) ∈ live bs -> freed s bs p z (ngx_slab_free_locked p s).
Proof.
  intros Hok (b & bs' & Hb & Hq)%live_in. assert (Hin : b ∈ bs) by (rewrite Hb; by left). assert (Hok' := pool_ok_perm _ _ _ Hb Hok).
  assert (Hret : freed s (b :: bs') p z (ngx_slab_free_locked p s) -> freed s bs p z (ngx_slab_free_locked p s)).
  { intros (s' & bs'' & E1 & E2 & E3 & E4). exists s', bs''. split_and!; try done. by rewrite Hb. }
  apply Hret. destruct b as [i len [| | | |shift bits listed]]; cbn in Hq; try by apply not_elem_of_nil in Hq.
  - apply list_elem_of_singleton in Hq as [= -> ->]. by apply free_run_block.
  - destruct (chunk_shift _ _ _ _ _ _ _ Hok Hin) as (k & -> & Hk & -> & ->). apply list_elem_of_fmap in Hq as (j & [= -> ->] & Hj).
    unfold chunk_indices in Hj. rewrite list_elem_of_In, filter_In, <- list_elem_of_In, elem_of_seq in Hj. destruct Hj as [Hj Hbit]. apply free_chunk; try done. lia.
Qed.

End SlabSpec.
