(* ===== verification/SlabPool.v ===== *)
(** * The slab allocator: histories of a pool

    The clients of a pool see addresses.  After any sequence of allocations and of
    deallocations of what they hold, the pieces they hold are inside of the pool, and
    overlap neither each other nor the bitmaps; the next operation is defined; and when
    everything is given back the whole pool can be allocated as one run. *)

From stdpp Require Import functions.
From S2P Require Import Prelude Slab SlabPages SlabRuns SlabBits SlabChunks SlabSpec.

Module SlabPool.
Import Slab SlabPages SlabRuns SlabBits SlabChunks SlabSpec.

(** ** Pieces and bitmaps do not overlap *)

Definition apart (q1 q2 : Z * Z) : Prop := q1.1 + q1.2 <= q2.1 \/ q2.1 + q2.2 <= q1.1.

(** The bitmap at the beginning of a page of small chunks. *)
Definition bitmap_of (b : block) : list (Z * Z) :=
  match bkind b with
  | KChunks shift _ _ =>
      if (shift <? ngx_slab_exact_shift)%nat then [(page_addr (bstart b), Z.of_nat (reserved shift) * 2 ^ Z.of_nat shift)] else []
  | _ => []
  end.
Definition areas_of (b : block) : list (Z * Z) := bitmap_of b ++ pieces_of b.
Definition areas (bs : list block) : list (Z * Z) := concat (map areas_of bs).

Lemma apart_sym q1 q2 : apart q1 q2 -> apart q2 q1.
Proof. unfold apart. tauto. Qed.

Lemma pairs_map (f : nat -> Z * Z) (l : list nat) : NoDup l -> (forall x y, x ∈ l -> y ∈ l -> x <> y -> apart (f x) (f y)) -> ForallOrdPairs apart (map f l).
Proof.
  induction l as [|x l IH]; intros Hn Hf; [constructor|]. apply list.NoDup_cons in Hn as [Hx Hn]. constructor.
  - apply list.Forall_fmap, list.Forall_forall. intros y Hy. apply Hf; set_solver.
  - apply IH; [done|]. intros y z Hy Hz. apply Hf; set_solver.
Qed.

Lemma pairs_app (l1 l2 : list (Z * Z)) : ForallOrdPairs apart l1 -> ForallOrdPairs apart l2 -> (forall x y, x ∈ l1 -> y ∈ l2 -> apart x y) -> ForallOrdPairs apart (l1 ++ l2).
Proof.
  intros H1 H2 Hx. induction H1 as [|x l1 Hall H1 IH]; [done|]. cbn. constructor.
  - apply list.Forall_app. split; [done|]. apply list.Forall_forall. intros y Hy. apply Hx; set_solver.
  - apply IH. intros y z Hy Hz. apply Hx; set_solver.
Qed.

Lemma chunk_in shift bits j : j ∈ chunk_indices shift bits <-> (reserved shift <= j < nchunks shift)%nat /\ Z.testbit bits (Z.of_nat j) = true.
Proof. unfold chunk_indices. rewrite list_elem_of_In, filter_In, <- list_elem_of_In, elem_of_seq. split; intros [H1 H2]; (split; [lia|done]). Qed.

Lemma chunk_nodup shift bits : NoDup (chunk_indices shift bits).
Proof. apply NoDup_ListNoDup, List.NoDup_filter, NoDup_ListNoDup, NoDup_seq. Qed.

Lemma chunk_addr_mul i j k : chunk_addr i j (k + 3) = Z.of_nat i * 4096 + Z.of_nat j * 2 ^ Z.of_nat (k + 3).
Proof. unfold chunk_addr. rewrite page_addr_mul, Z.shiftl_mul_pow2 by lia. done. Qed.

(** The areas of a block are in its pages, and apart. *)
Lemma areas_inside s bs b q : pool_ok s bs -> b ∈ bs -> q ∈ areas_of b ->
  page_addr (bstart b) <= q.1 /\ q.1 + q.2 <= page_addr (bstart b + blen b) /\ 0 <= q.2.
Proof.
  intros Hok Hb Hq. rewrite !page_addr_mul. unfold areas_of, bitmap_of, pieces_of in Hq. destruct b as [i len [| | | |shift bits listed]]; cbn [bkind bstart blen] in *; try by apply not_elem_of_nil in Hq.
  - apply list_elem_of_singleton in Hq as ->. cbn [fst snd]. rewrite page_addr_mul. unfold ngx_pagesize. lia.
  - destruct (chunk_shift _ _ _ _ _ _ _ Hok Hb) as (k & -> & Hk & -> & _). pose proof (page_size k Hk) as Hs. pose proof (usable k Hk) as Hu.
    set (z := 2 ^ Z.of_nat (k + 3)) in *. assert (Hz : 0 < z) by (apply Z.pow_pos_nonneg; lia). apply elem_of_app in Hq as [Hq|Hq].
    + destruct (_ <? _)%nat; [|by apply not_elem_of_nil in Hq]. apply list_elem_of_singleton in Hq as ->. cbn [fst snd]. rewrite page_addr_mul. nia.
    + apply list_elem_of_fmap in Hq as (j & -> & [Hj _]%chunk_in). cbn [fst snd]. rewrite chunk_addr_mul. fold z. nia.
Qed.

Lemma areas_block s bs b : pool_ok s bs -> b ∈ bs -> ForallOrdPairs apart (areas_of b).
Proof.
  intros Hok Hb. unfold areas_of, bitmap_of, pieces_of. destruct b as [i len [| | | |shift bits listed]]; cbn [bkind bstart blen]; try by repeat constructor.
  destruct (chunk_shift _ _ _ _ _ _ _ Hok Hb) as (k & -> & Hk & -> & _). set (z := 2 ^ Z.of_nat (k + 3)) in *. assert (Hz : 0 < z) by (apply Z.pow_pos_nonneg; lia).
  apply pairs_app; [destruct (_ <? _)%nat; by repeat constructor| |].
  - apply pairs_map; [apply chunk_nodup|]. intros x y _ _ Hne. unfold apart. cbn [fst snd]. rewrite !chunk_addr_mul. fold z. nia.
  - intros x y Hx Hy. destruct (_ <? _)%nat; [|by apply not_elem_of_nil in Hx]. apply list_elem_of_singleton in Hx as ->.
    apply list_elem_of_fmap in Hy as (j & -> & [Hj _]%chunk_in). left. cbn [fst snd]. rewrite page_addr_mul, chunk_addr_mul. fold z. nia.
Qed.

Lemma blocks_apart bs b c : NoDup (all_pages (b :: bs)) -> (0 < blen b)%nat -> (0 < blen c)%nat -> c ∈ bs ->
  (bstart b + blen b <= bstart c)%nat \/ (bstart c + blen c <= bstart b)%nat.
Proof.
  intros Hn Hb Hc Hin. destruct (decide (bstart b <= bstart c)%nat).
  - left. destruct (decide (bstart b + blen b <= bstart c)%nat); [done|]. exfalso. apply (head_disjoint b bs (bstart c) c Hn Hin); apply pages_in; lia.
  - right. destruct (decide (bstart c + blen c <= bstart b)%nat); [done|]. exfalso. apply (head_disjoint b bs (bstart b) c Hn Hin); apply pages_in; lia.
Qed.

Lemma areas_apart s bs : pool_ok s bs -> ForallOrdPairs apart (areas bs).
Proof.
  intros Hok. pose proof Hok as [(fl & sl & H) _ _ _]. pose proof (iv_nodup _ _ _ _ H) as Hn. pose proof (iv_lens _ _ _ _ H) as Hl.
  assert (Hsub : forall b, b ∈ bs -> b ∈ bs) by done. revert Hsub Hn Hl. generalize bs at 1 3 4 5. intros l. induction l as [|b l IH]; intros Hsub Hn Hl; [constructor|].
  inversion Hl as [|? ? Hb Hl']; subst. unfold areas. cbn [map concat]. apply pairs_app.
  - eapply areas_block; [exact Hok|]. apply Hsub. by left.
  - apply IH; [set_solver| |done]. by apply list.NoDup_app in Hn as (_ & _ & ?).
  - intros x y Hx Hy. fold (areas l) in Hy. unfold areas in Hy. rewrite list_elem_of_In, <- flat_map_concat_map, in_flat_map in Hy.
    destruct Hy as (c & Hc%list_elem_of_In & Hy%list_elem_of_In). rewrite list.Forall_forall in Hl'. specialize (Hl' c Hc).
    destruct (areas_inside _ _ _ _ Hok (Hsub b ltac:(by left)) Hx) as (X1 & X2 & _). destruct (areas_inside _ _ _ _ Hok (Hsub c ltac:(by right)) Hy) as (Y1 & Y2 & _).
    rewrite !page_addr_mul in *. unfold apart. destruct (blocks_apart l b c Hn Hb Hl' Hc); lia.
Qed.

Lemma live_areas bs q : q ∈ live bs -> q ∈ areas bs.
Proof.
  unfold live, areas. rewrite !list_elem_of_In, <- !flat_map_concat_map, !in_flat_map. intros (b & Hb & Hq). exists b. split; [done|].
  unfold areas_of. apply in_or_app. by right.
Qed.

Lemma live_inside s bs q : pool_ok s bs -> q ∈ live bs -> 0 <= q.1 /\ q.1 + q.2 <= Z.of_nat (npages s) * ngx_pagesize.
Proof.
  intros Hok (b & bs' & Hb & Hq)%live_in. assert (Hin : b ∈ bs) by (rewrite Hb; by left). pose proof Hok as [(fl & sl & H) _ _ _].
  destruct (areas_inside _ _ b q Hok Hin) as (H1 & H2 & _); [unfold areas_of; set_solver|]. rewrite !page_addr_mul in *. unfold ngx_pagesize.
  pose proof (iv_len _ _ _ _ _ H Hin). pose proof (iv_bound _ _ _ _ _ (bstart b + blen b - 1)%nat H Hin ltac:(apply pages_in; lia)). lia.
Qed.

(** ** Nothing in use *)

Lemma idle_free s bs b : pool_ok s bs -> live bs = [] -> b ∈ bs -> bkind b = KFree.
Proof.
  intros Hok Hl Hb. pose proof Hok as [(fl & sl & H) Ht _ _]. rewrite list.Forall_forall in Ht. specialize (Ht b Hb). apply elem_of_Permutation in Hb as (bs' & Hp).
  assert (Hn : pieces_of b = []).
  { assert (E : live bs ≡ₚ []) by by rewrite Hl. rewrite Hp, live_cons in E. symmetry in E. apply Permutation_nil in E. by apply app_eq_nil in E as [? _]. }
  destruct (block_ok_in _ _ _ _ b H ltac:(rewrite Hp; by left)) as [_ Hok']. unfold tidy in Ht. unfold pieces_of in Hn.
  destruct (bkind b) as [| | | |shift bits listed]; try done. destruct Hok' as [_ [_ _ Hr _ _ _]], Ht as [_ Hu].
  destruct (used_bit _ _ Hr Hu) as (j & Hj). apply map_eq_nil in Hn. assert (Hin : j ∈ chunk_indices shift bits) by by apply chunk_in. rewrite Hn in Hin. by apply not_elem_of_nil in Hin.
Qed.

Lemma idle_pool s bs : pool_ok s bs -> live bs = [] -> (0 < npages s)%nat -> bs = [Block 0 (npages s) KFree].
Proof.
  intros Hok Hl Hn. pose proof Hok as [(fl & sl & H) _ _ _].
  destruct (iv_has _ _ _ _ 0%nat H Hn) as (b & Hb & Hp). rewrite pages_in in Hp. assert (Hk := idle_free _ _ _ Hok Hl Hb).
  assert (Hs : bstart b = 0%nat) by lia. assert (Hle : (blen b <= npages s)%nat).
  { pose proof (iv_bound _ _ _ _ _ (blen b - 1)%nat H Hb ltac:(apply pages_in; lia)). lia. }
  assert (He : blen b = npages s).
  { destruct (decide (blen b = npages s)) as [|Hne]; [done|]. exfalso. apply elem_of_Permutation in Hb as (bs' & Hb). assert (H' := inv_perm _ _ _ _ _ Hb H).
    destruct b as [i len k]. cbn in *. subst i. destruct (next_start _ _ _ _ _ _ _ H' ltac:(cbn; lia)) as (l & kd & bs'' & Hb'').
    assert (Hkd : kd = KFree) by (apply (idle_free s bs (Block (0 + len) l kd) Hok Hl); rewrite Hb, Hb''; set_solver).
    apply (iv_adj _ _ _ _ H' (Block 0 len k) (Block (0 + len) l kd)); [by left|rewrite Hb''; set_solver|done|done|done]. }
  apply elem_of_Permutation in Hb as (bs' & Hb). destruct bs' as [|c bs'].
  - apply Permutation_singleton_r in Hb. rewrite Hb. destruct b as [i len k]. cbn in *. congruence.
  - exfalso. assert (H' := inv_perm _ _ _ _ _ Hb H). pose proof (iv_nodup _ _ _ _ H') as Hnd. pose proof (iv_len _ _ _ _ c H' ltac:(set_solver)) as Hc.
    apply (head_disjoint _ _ (bstart c) c Hnd); [by left|apply pages_in|by apply start_in].
    pose proof (iv_bound _ _ _ _ c (bstart c) H' ltac:(set_solver) ltac:(by apply start_in)). lia.
Qed.

(** ** A new pool *)

(** The zone has room for a page: ngx_init_zone_pool gets zones of at least eight pages. *)
Definition zone_fits (addr end_ sizeof_pool : Z) : Prop :=
  0 <= addr /\ 0 <= sizeof_pool <= ngx_pagesize /\ 8 * ngx_pagesize <= end_ - addr /\ end_ < 2 ^ 43.

Lemma align_page x : in_u 64 x -> Z.land x (u64 (Z.lnot (ngx_pagesize - 1))) = x - x mod 4096.
Proof.
  intros Hx. change (ngx_pagesize - 1) with (2 ^ 12 - 1). replace (x - x mod 4096) with (Z.shiftl (Z.shiftr x 12) 12).
  2:{ rewrite Z.shiftl_mul_pow2, Z.shiftr_div_pow2 by lia. change (2 ^ 12) with 4096. pose proof (Z.div_mod x 4096). lia. }
  apply Z.bits_inj'. intros i Hi. rewrite Z.land_spec, Z.shiftl_spec by done. destruct (Z.ltb_spec i 12).
  - rewrite (Z.testbit_neg_r _ (i - 12)) by lia. unfold u64, wrap. rewrite Z.mod_pow2_bits_low, Z.lnot_spec, ones_bit by lia.
    rewrite (proj2 (Z.ltb_lt _ _)) by lia. apply andb_false_r.
  - rewrite Z.shiftr_spec by lia. replace (i - 12 + 12) with i by lia. destruct (Z.ltb_spec i 64); [|by rewrite (high_bits 64) by (unfold in_u in Hx; lia)].
    unfold u64, wrap. rewrite Z.mod_pow2_bits_low, Z.lnot_spec, ones_bit by lia. rewrite (proj2 (Z.ltb_ge _ _)) by lia. apply andb_true_r.
Qed.

Lemma layout_ok addr end_ sz : zone_fits addr end_ sz -> let '(pages, start) := pool_layout addr end_ sz in
  0 < pages < 2 ^ 32 /\ addr + sz + 9 * 56 + pages * 24 <= start /\ start + pages * ngx_pagesize <= end_.
Proof.
  intros (Ha & Hsz & He & Hend). unfold pool_layout, nslots. unfold ngx_pagesize in Hsz, He. change (Z.of_nat 9) with 9.
  set (p := addr + sz + 9 * 24 + 9 * 32).
  assert (Eu : u64 (end_ - (addr + sz) - 9 * (24 + 32)) = end_ - p) by (etransitivity; [apply wrap_small; unfold in_u|]; lia). rewrite Eu.
  set (pages := (end_ - p) / (ngx_pagesize + 24)).
  assert (Hp : 1 < pages /\ pages * 4120 <= end_ - p) by (unfold pages, ngx_pagesize; zlia).
  set (x := p + pages * 24 + (ngx_pagesize - 1)). rewrite align_page by (unfold x, in_u, ngx_pagesize; lia). set (start := x - x mod 4096).
  assert (Hst : p + pages * 24 <= start <= p + pages * 24 + 4095) by (unfold start, x, ngx_pagesize; zlia).
  assert (Eu2 : u64 (end_ - start) = end_ - start) by (apply wrap_small; unfold in_u; lia). rewrite Eu2. set (d := (end_ - start) / ngx_pagesize).
  assert (Hd : d * 4096 <= end_ - start < (d + 1) * 4096) by (unfold d, ngx_pagesize; zlia).
  rewrite i64_small by lia. unfold ngx_pagesize. destruct (Z.gtb_spec (pages - d) 0); split_and!; lia.
Qed.

Lemma init_ok addr end_ sz : zone_fits addr end_ sz -> exists n, (0 < n)%nat /\ npages (ngx_slab_init addr end_ sz) = n /\ pool_ok (ngx_slab_init addr end_ sz) [Block 0 n KFree].
Proof.
  intros Hz. pose proof (layout_ok _ _ _ Hz) as Hl. unfold ngx_slab_init. destruct (pool_layout addr end_ sz) as [pages start]. destruct Hl as (Hp & _ & Hend).
  exists (Z.to_nat pages). split; [lia|]. split; [done|]. constructor.
  - exists [0%nat], (fun _ => []). constructor.
    + cbn. lia.
    + cbn [all_pages map concat npages]. unfold pages_of. cbn [bstart blen]. by rewrite app_nil_r.
    + constructor; [|constructor]. split; [cbn; lia|]. cbn [bkind bstart blen mem]. split_and!.
      * cbn. lia.
      * done.
      * intros q Hq. destruct q; [lia|done].
      * cbn. lia.
    + intros b1 b2 ->%list_elem_of_singleton ->%list_elem_of_singleton _ _. cbn. lia.
    + done.
    + done.
    + done.
    + done.
  - by repeat constructor.
  - cbn. unfold free_len. cbn. lia.
  - cbn. lia.
Qed.

(** ** Addresses that are not in use *)

Definition bitmaps (bs : list block) : list (Z * Z) := concat (map bitmap_of bs).

Lemma in_live bs b q : b ∈ bs -> q ∈ pieces_of b -> q ∈ live bs.
Proof. unfold live. rewrite !list_elem_of_In, <- flat_map_concat_map, in_flat_map. eauto. Qed.

(** The addresses of the chunks that a bitmap takes. *)
Definition bitmap_chunks_of (b : block) : list Z :=
  match bkind b with
  | KChunks shift _ _ => map (fun j => chunk_addr (bstart b) j shift) (seq 0 (reserved shift))
  | _ => []
  end.
Definition bitmap_chunks (bs : list block) : list Z := concat (map bitmap_chunks_of bs).

Lemma in_bitmap_chunks bs p : p ∈ bitmap_chunks bs <-> exists b, b ∈ bs /\ p ∈ bitmap_chunks_of b.
Proof.
  unfold bitmap_chunks. rewrite list_elem_of_In, <- flat_map_concat_map, in_flat_map. setoid_rewrite list_elem_of_In. done.
Qed.

(** ** The counters change when a chunk is freed *)

Lemma wr_stats p f s s' : wr p f s = Some s' -> stats s' = stats s.
Proof. unfold wr. destruct (valid s p); [|done]. by intros [= <-]. Qed.

Ltac stats_step :=
  match goal with
  | H : (_ ≫= _) = Some _ |- _ => apply bind_Some in H as (? & ? & H)
  | H : (if ?c then _ else _) = Some _ |- _ => destruct c
  | H : Some _ = Some _ |- _ => injection H as H; try subst
  | H : None = Some _ |- _ => discriminate H
  | H : wr _ _ _ = Some _ |- _ => apply wr_stats in H
  | x : (_ * _)%type |- _ => destruct x
  end.
Ltac stats_done := cbn in *; try subst; cbn in *; congruence.

Lemma unlink_stats p s s' : unlink p s = Some s' -> stats s' = stats s.
Proof. intros H. unfold unlink in H. repeat stats_step. stats_done. Qed.

Lemma fill_stats k : forall i v s s', fill k i v s = Some s' -> stats s' = stats s.
Proof. induction k as [|k IH]; intros i v s s' H; cbn in H; repeat stats_step; [done|]. apply IH in H. stats_done. Qed.

Lemma clear_run_stats i n s s' : clear_run i n s = Some s' -> stats s' = stats s.
Proof.
  intros H. unfold clear_run in H. repeat stats_step.
  all: repeat match goal with H : unlink _ _ = _ |- _ => apply unlink_stats in H | H : fill _ _ _ _ = _ |- _ => apply fill_stats in H end; stats_done.
Qed.

Lemma join_stats i n s : 
  (forall n' s', join_next i n s = Some (n', s') -> stats s' = stats s) /\
  (forall i' n' s', join_prev i n s = Some (i', n', s') -> stats s' = stats s).
Proof.
  split; intros *; intros H; unfold join_next, join_prev in H; repeat stats_step.
  all: repeat match goal with H : unlink _ _ = _ |- _ => apply unlink_stats in H end; stats_done.
Qed.

Lemma push_run_stats i n s s' : push_run i n s = Some s' -> stats s' = stats s.
Proof. intros H. unfold push_run in H. repeat stats_step; stats_done. Qed.

Lemma free_pages_stats i n s s' : ngx_slab_free_pages i n s = Some s' -> stats s' = stats s.
Proof.
  intros H. unfold ngx_slab_free_pages in H. repeat stats_step.
  repeat match goal with
  | H : clear_run _ _ _ = _ |- _ => apply clear_run_stats in H
  | H : join_next _ _ _ = _ |- _ => apply (proj1 (join_stats _ _ _)) in H
  | H : join_prev _ _ _ = _ |- _ => apply (proj2 (join_stats _ _ _)) in H
  | H : push_run _ _ _ = _ |- _ => apply push_run_stats in H
  end. congruence.
Qed.

Lemma enter_list_stats i k t s s' : enter_list i k t s = Some s' -> stats s' = stats s.
Proof. intros H. unfold enter_list in H. repeat stats_step. stats_done. Qed.

(** A chunk counted as given back is not the same pool. *)
Lemma less_used k s s' : used (stats s' k) = used (stats s k) -> set_stat k (add_used (-1)) s' <> s.
Proof.
  intros Hu E. apply (f_equal (fun s => used (stats s k))) in E. cbn in E. rewrite fn_lookup_alter in E. cbn in E. rewrite Hu in E.
  pose proof (wrap_range 64 (used (stats s k) + -1) ltac:(lia)) as Hr. unfold u64, wrap, in_u in *. zlia.
Qed.

Lemma free_bitmap_chunk s bs b p : pool_ok s bs -> b ∈ bs -> p ∈ bitmap_chunks_of b -> ngx_slab_free_locked p s <> Some s.
Proof.
  intros Hok Hb Hp. unfold bitmap_chunks_of in Hp. destruct b as [i len [| | | |shift bits listed]]; cbn [bkind bstart] in Hp; try by apply not_elem_of_nil in Hp.
  apply list_elem_of_fmap in Hp as (j & -> & Hj%elem_of_seq). cbn [Nat.add] in Hj.
  destruct (chunk_shift _ _ _ _ _ _ _ Hok Hb) as (k & -> & Hk & -> & ->). apply elem_of_Permutation in Hb as (bs' & Hb). apply (pool_ok_perm _ _ _ Hb) in Hok.
  pose proof Hok as [(fl & sl & H) _ _ _]. pose proof (free_chunks _ _ _ _ _ _ _ H) as [_ Hty _ Hres Hr _]. pose proof (Hres j ltac:(lia)) as Hbit.
  unfold reserved in Hj. destruct (k + 3 <? ngx_slab_exact_shift)%nat eqn:Hs; [|lia]. unfold bits_rep in Hr. rewrite Hs in Hr. destruct Hr as (R1 & R2 & R3).
  destruct (small_sizes k Hk Hs) as (S1 & S2 & S3 & S4). set (z := 2 ^ Z.of_nat (k + 3)). assert (Hz : 0 < z) by (apply Z.pow_pos_nonneg; lia).
  pose proof (page_size k Hk) as Hps. fold z in Hps. pose proof (usable k Hk) as Hus. unfold reserved in Hus. rewrite Hs in Hus.
  assert (Ho : 0 <= Z.of_nat j * z < 4096) by nia. assert (Ep : chunk_addr i j (k + 3) = page_addr i + Z.of_nat j * z) by (by rewrite chunk_addr_mul, page_addr_mul).
  rewrite Ep, (free_locked_page _ _ _ _ Hok) by (done || (eapply iv_bound; [exact H|by left|apply pages_in; cbn; lia])). cbn zeta. rewrite Hty. unfold type_of. rewrite Hs.
  cbn [Z.eqb Pos.eqb NGX_SLAB_SMALL NGX_SLAB_EXACT NGX_SLAB_BIG]. destruct (addr_bits i _ k Hk Ho) as (A1 & A2 & A3 & A4). fold z in A2, A3, A4.
  assert (Hsh : Z.land (Z.of_nat (k + 3)) NGX_SLAB_SHIFT_MASK = Z.of_nat (k + 3)).
  { change NGX_SLAB_SHIFT_MASK with (2 ^ 4 - 1). rewrite land_mask by done. apply Z.mod_small. unfold nslots in Hk. lia. }
  unfold free_small. rewrite rd_ok by by eapply free_valid. cbn [mbind option_bind]. rewrite R1, Hsh, Nat2Z.id, A2, A1, A3, Nat2Z.id.
  rewrite Z.mod_mul, Z.div_mul by lia. cbn [Z.eqb negb]. rewrite Nat2Z.id.
  destruct (clear_word _ _ j R3) as (w & Ew & Et & _); [rewrite R2, <- S1; lia|]. rewrite Ew. cbn [mbind option_bind]. rewrite Et, Hbit. cbn [negb].
  replace (k + 3 - min_shift)%nat with k by (unfold min_shift; lia). intros E. apply bind_Some in E as (s1 & E1 & E). apply bind_Some in E as (w0 & _ & E). apply bind_Some in E as (s2 & E2 & E). injection E as E.
  revert E. apply less_used. assert (F1 : stats s1 = stats s) by (destruct (bool_decide _); [by eapply enter_list_stats|by injection E1 as <-]). rewrite <- F1. clear F1 E1.
  do 2 (match type of E2 with (if ?c then _ else _) = _ => destruct c end; [by injection E2 as <-|]). apply bind_Some in E2 as (s3 & E2 & E3). injection E3 as <-.
  apply free_pages_stats in E2. cbn. rewrite fn_lookup_alter. cbn. by rewrite E2.
Qed.

Lemma free_other s bs b i o : pool_ok s bs -> b ∈ bs -> i ∈ pages_of b -> 0 <= o < 4096 ->
  (forall z, (page_addr i + o, z) ∉ live bs) -> page_addr i + o ∉ bitmap_chunks bs ->
  ngx_slab_free_locked (page_addr i + o) s = Some s.
Proof.
  intros Hok Hb Hi Ho Hlive Hmap. pose proof Hok as [(fl & sl & H) Ht _ _]. assert (Hlt := iv_bound _ _ _ _ _ _ H Hb Hi).
  destruct (block_ok_in _ _ _ _ _ H Hb) as [_ Hbok]. rewrite list.Forall_forall in Ht. pose proof (Ht b Hb) as Htb. unfold tidy in Htb.
  assert (Hrun : bkind b = KFree \/ bkind b = KRun -> (o = 0 -> let v := slab (mem s (Page i)) in Z.land v NGX_SLAB_PAGE_START = 0 \/ v = NGX_SLAB_PAGE_BUSY) ->
    ngx_slab_free_locked (page_addr i + o) s = Some s).
  { intros Hk Hv. rewrite (free_locked_page _ _ _ _ Hok) by done. cbn zeta. rewrite (run_type _ _ _ _ _ _ H Hb Hi Hk). cbn [Z.eqb NGX_SLAB_SMALL NGX_SLAB_EXACT NGX_SLAB_BIG].
    unfold free_run. rewrite rd_ok by by apply Nat.ltb_lt. cbn [mbind option_bind]. destruct (addr_bits i o 0 ltac:(unfold nslots; lia) Ho) as (A1 & _). rewrite A1.
    destruct (Z.eqb_spec o 0) as [Ho0|]; [|done]. cbn [negb]. destruct (Hv Ho0) as [->| ->]; [done|reflexivity]. }
  assert (Hi' := Hi). rewrite pages_in in Hi'. destruct b as [st len [| | | |shift bits listed]]; cbn [bkind bstart blen] in *; try done.
  - apply Hrun; [by left|]. intros _. set (v := slab (mem s (Page i))). left. apply Z.eqb_eq. change NGX_SLAB_PAGE_START with (Z.shiftl 1 63). rewrite test_bit by lia. destruct Hbok as (B1 & _ & B3 & _).
    pose proof (iv_size _ _ _ _ H). destruct (decide (i = st)) as [->|Hne].
    + unfold v. rewrite B1, (high_bits 32) by (try lia; pose proof (iv_bound _ _ _ _ _ (st + len - 1)%nat H Hb ltac:(apply pages_in; cbn; lia)); lia). done.
    + unfold v. destruct (B3 i) as [-> _]; [lia|]. by rewrite Z.testbit_0_l.
  - apply Hrun; [by right|]. intros ->. set (v := slab (mem s (Page i))). right. destruct Hbok as [_ B2]. destruct (decide (i = st)) as [->|Hne].
    + exfalso. apply (Hlive (Z.of_nat len * ngx_pagesize)). rewrite Z.add_0_r. eapply in_live; [exact Hb|]. by left.
    + unfold v. rewrite B2 by lia. done.
  - destruct (chunk_shift _ _ _ _ _ _ _ Hok Hb) as (k & -> & Hk & -> & ->). assert (i = st) as -> by lia. assert (Hin := Hb).
    apply elem_of_Permutation in Hb as (bs' & Hb). pose proof (chunk_gives s st k bits bs' o Hk (pool_ok_perm _ _ _ Hb Hok) Ho) as Hg. unfold gives in Hg.
    set (z := 2 ^ Z.of_nat (k + 3)) in *. assert (Hz : 0 < z) by (apply Z.pow_pos_nonneg; lia). destruct (Z.eqb_spec (o mod z) 0) as [Hmod|]; [|done]. cbn [negb] in Hg.
    set (j := Z.to_nat (o / z)) in *. assert (Hd : 0 <= o / z) by (apply Z.div_pos; lia). assert (Eo : o = Z.of_nat j * z) by (unfold j; pose proof (Z.div_mod o z); lia).
    destruct (Z.testbit bits (Z.of_nat j)) eqn:Hbit; [|done]. exfalso. destruct (addr_bits st o k Hk Ho) as (_ & _ & _ & Hj). fold z in Hj. fold j in Hj.
    destruct (decide (reserved (k + 3) <= j)%nat) as [Hr|Hr].
    + apply (Hlive z). eapply in_live; [exact Hin|]. cbn. apply list_elem_of_fmap. exists j. split; [|by apply chunk_in].
      rewrite chunk_addr_mul, page_addr_mul, Eo. done.
    + apply Hmap, in_bitmap_chunks. eexists. split; [exact Hin|]. cbn. apply list_elem_of_fmap. exists j.
      split; [|apply elem_of_seq; lia]. rewrite chunk_addr_mul, page_addr_mul, Eo. done.
Qed.

(** ** Histories *)

(** A pool and what its clients hold: addresses and requested sizes. *)
Inductive reach : pool -> list (Z * Z) -> Prop :=
| reach_init addr end_ sz : zone_fits addr end_ sz -> reach (ngx_slab_init addr end_ sz) []
| reach_alloc s L size p s' : reach s L -> 0 <= size < 2 ^ 64 -> ngx_slab_alloc_locked size s = Some (Some p, s') -> reach s' ((p, size) :: L)
| reach_nomem s L size s' : reach s L -> 0 <= size < 2 ^ 64 -> ngx_slab_alloc_locked size s = Some (None, s') -> reach s' L
| reach_free s L L' p size s' : reach s L -> L ≡ₚ (p, size) :: L' -> ngx_slab_free_locked p s = Some s' -> reach s' L'.

(** The pieces of the pool are what was requested, or longer. *)
Definition serves (q r : Z * Z) : Prop := q.1 = r.1 /\ q.2 <= r.2.
Definition held (L : list (Z * Z)) (bs : list block) : Prop := exists l, live bs ≡ₚ l /\ Forall2 serves L l.

Lemma alloc_any s bs size : pool_ok s bs -> 0 <= size -> exists P, allocated s bs size P (ngx_slab_alloc_locked size s).
Proof.
  intros Hok Hs. destruct (decide (size <= ngx_slab_max_size)) as [|Hgt]; eexists; [by apply alloc_small|apply alloc_large; [done|lia]].
Qed.

Lemma reach_pool s L : reach s L -> exists bs, pool_ok s bs /\ held L bs /\ (0 < npages s)%nat.
Proof.
  induction 1 as [addr end_ sz Hz|s L size p s' _ (bs & Hok & (l & Hl & HL) & Hn) Hs E|s L size s' _ (bs & Hok & HL & Hn) Hs E|s L L' p size s' _ (bs & Hok & (l & Hl & HL) & Hn) Hp E].
  - destruct (init_ok _ _ _ Hz) as (n & Hn & En & Hok). exists [Block 0 n KFree]. split; [done|]. split; [by exists []|by rewrite En].
  - destruct (alloc_any s bs size Hok ltac:(lia)) as (P & q & s1 & bs' & E' & Hok' & Hn' & Hq). rewrite E in E'. injection E' as <- <-.
    destruct Hq as (z & Hv & Hz). exists bs'. split_and!; [done| |by rewrite Hn']. exists ((p, z) :: l). split; [by rewrite Hv, Hl|]. by constructor.
  - destruct (alloc_any s bs size Hok ltac:(lia)) as (P & q & s1 & bs' & E' & Hok' & Hn' & Hq). rewrite E in E'. injection E' as <- <-.
    destruct Hq as [-> _]. exists bs. by rewrite Hn'.
  - destruct (Permutation_Forall2 Hp HL) as (l1 & Hl1 & HL1). inversion HL1 as [|? [p' z] ? l2 [Ep Hz] HL2]; subst. cbn in Ep. subst p'.
    destruct (free_live s bs p z Hok) as (s1 & bs' & E' & Hok' & Hn' & Hv); [rewrite Hl, Hl1; by left|]. rewrite E in E'. injection E' as <-.
    exists bs'. split_and!; [done| |by rewrite Hn']. exists l2. split; [|done]. apply (Permutation_cons_inv (a := (p, z))). by rewrite <- Hv, Hl, Hl1.
Qed.

Lemma pairs_inv (l1 l2 : list (Z * Z)) : ForallOrdPairs apart (l1 ++ l2) ->
  ForallOrdPairs apart l1 /\ ForallOrdPairs apart l2 /\ (forall x y, x ∈ l1 -> y ∈ l2 -> apart x y).
Proof.
  induction l1 as [|x l1 IH]; cbn; intros H; [split_and!; [constructor|done|set_solver]|]. inversion H as [|? ? Hx H']; subst. destruct (IH H') as (I1 & I2 & I3).
  apply list.Forall_app in Hx as [X1 X2]. rewrite list.Forall_forall in X2. split_and!; [by constructor|done|]. intros y z [->|Hy]%elem_of_cons Hz; auto.
Qed.

Lemma pairs_perm (l l' : list (Z * Z)) : l ≡ₚ l' -> ForallOrdPairs apart l -> ForallOrdPairs apart l'.
Proof.
  induction 1 as [|x l l' Hp IH|x y l|l1 l2 l3 _ IH1 _ IH2]; intros H; [done| | |auto].
  - inversion H as [|? ? Hx H']; subst. constructor; [by rewrite <- Hp|auto].
  - inversion H as [|? ? Hx H']; subst. inversion H' as [|? ? Hy H'']; subst. inversion Hx as [|? ? Hxy Hx']; subst.
    constructor; [constructor; [by apply apart_sym|done]|by constructor].
Qed.

Lemma areas_split bs : areas bs ≡ₚ bitmaps bs ++ live bs.
Proof.
  induction bs as [|b bs IH]; [done|]. unfold areas, bitmaps, live in *. cbn [map concat]. rewrite IH. unfold areas_of. rewrite <- !app_assoc. apply Permutation_app_head.
  rewrite !app_assoc. apply Permutation_app_tail, Permutation_app_comm.
Qed.

(** Shorter pieces stay apart. *)
Lemma serves_apart M L l : Forall2 serves L l -> ForallOrdPairs apart (M ++ l) -> ForallOrdPairs apart (M ++ L).
Proof.
  intros HL (P1 & P2 & P3)%pairs_inv. apply pairs_app; [done| |].
  - clear P3. induction HL as [|q r L l Hq HL IH]; [constructor|]. inversion P2 as [|? ? Hr P2']; subst. constructor; [|auto].
    clear IH P2 P2'. induction HL as [|q' r' L l Hq' HL IH]; [constructor|]. inversion Hr as [|? ? Hx Hr']; subst. constructor; [|auto].
    destruct Hq as [E1 L1], Hq' as [E2 L2]. unfold apart in *. lia.
  - intros x y Hx Hy. apply list_elem_of_lookup in Hy as [n Hy]. destruct (Forall2_lookup_l _ _ _ _ _ HL Hy) as (r & Hr & [E1 L1]).
    specialize (P3 x r Hx (list_elem_of_lookup_2 _ _ _ Hr)). unfold apart in *. lia.
Qed.

(** ** The properties *)

(** C32. ngx_slab_alloc_locked is defined in every pool and returns a piece that is new, of
    at least the size requested, while all pieces in use stay as they are; it returns NULL
    only when no free run is long enough or, for sizes up to half a page, when there is
    neither a free page nor a page of this size with a free chunk. *)
Theorem slab_alloc_correct (s : pool) (bs : list block) (size : Z) (Hok : pool_ok s bs) (Hs : 0 <= size < 2 ^ 64) :
  allocated s bs size
    (if size >? ngx_slab_max_size then Forall (fun b => bkind b = KFree -> Z.of_nat (blen b) * ngx_pagesize < size) bs
     else Forall (fun b => bkind b <> KFree /\ is_open (shift_of size - 3) b = false) bs)
    (ngx_slab_alloc_locked size s).
Proof.
  destruct (Z.gtb_spec size ngx_slab_max_size); [by apply alloc_large|]. apply alloc_small; [done|lia].
Qed.

(** C34. What ngx_slab_free_locked does with an address that is not a piece in use, anywhere.
    It leaves the pool unchanged for every address outside of the pool, and for every one
    in its pages (a free chunk or page, the middle of a chunk, of a run or of a bitmap),
    with exactly two exceptions.  Between the end of the last page and pool->end, and at
    pool->end itself, which the check p > pool->end lets pass, it reads a descriptor behind
    the last one (the result is undefined).  And the address of a chunk that the bitmap of
    a page takes is accepted as a chunk in use, and the pool is changed. *)
Theorem slab_free_unknown (s : pool) (bs : list block) (p : Z) (Hok : pool_ok s bs) (Hp : forall z, (p, z) ∉ live bs) :
  (Z.of_nat (npages s) * ngx_pagesize <= p <= limit s -> ngx_slab_free_locked p s = None) /\
  (p ∈ bitmap_chunks bs -> ngx_slab_free_locked p s <> Some s) /\
  (~ (Z.of_nat (npages s) * ngx_pagesize <= p <= limit s) -> p ∉ bitmap_chunks bs -> ngx_slab_free_locked p s = Some s).
Proof.
  pose proof Hok as [(fl & sl & H) _ _ _]. unfold ngx_pagesize. split_and!.
  - intros Hr. unfold ngx_slab_free_locked. destruct (Z.ltb_spec p 0); [lia|]. destruct (Z.gtb_spec p (limit s)); [lia|]. cbn [orb].
    rewrite Z.shiftr_div_pow2 by done. change (2 ^ ngx_pagesize_shift) with 4096. unfold rd, valid.
    assert (Hn : (Z.to_nat (p / 4096) <? npages s)%nat = false) by (apply Nat.ltb_ge; zlia). by rewrite Hn.
  - intros (b & Hb & Hc)%in_bitmap_chunks. by eapply free_bitmap_chunk.
  - intros Hr Hm. destruct (decide (0 <= p < Z.of_nat (npages s) * 4096)) as [Hin|Hout].
    + set (i := Z.to_nat (p / 4096)). assert (Ei : Z.of_nat i = p / 4096) by (apply Z2Nat.id, Z.div_pos; lia).
      destruct (iv_has _ _ _ _ i H) as (b & Hb & Hi); [zlia|]. assert (Ep : p = page_addr i + p mod 4096) by (rewrite page_addr_mul, Ei; zlia).
      rewrite Ep in Hp, Hm |- *. eapply free_other; [done|done|done|apply Z.mod_pos_bound; lia|done|done].
    + unfold ngx_slab_free_locked. destruct (Z.ltb_spec p 0); [done|]. by rewrite (proj2 (Z.gtb_lt _ _)) by lia.
Qed.

(** C31. After any history of a pool (creation, allocations that succeed or fail, and
    deallocations of pieces held), the pieces that the clients hold lie in the pages of the
    pool, overlap neither each other nor the bitmaps, and every next allocation and every
    deallocation of a piece held is defined: it reads and writes only descriptors of the pool. *)
Theorem slab_history_safe (s : pool) (L : list (Z * Z)) (H : reach s L) : exists bs,
  pool_ok s bs /\ held L bs /\ ForallOrdPairs apart (bitmaps bs ++ L) /\
  Forall (fun q => 0 <= q.1 /\ q.1 + q.2 <= Z.of_nat (npages s) * ngx_pagesize) L /\
  (forall size, 0 <= size < 2 ^ 64 -> is_Some (ngx_slab_alloc_locked size s)) /\
  (forall q, q ∈ L -> is_Some (ngx_slab_free_locked q.1 s)).
Proof.
  destruct (reach_pool s L H) as (bs & Hok & (l & Hl & HL) & _). exists bs. split_and!; [done|by exists l| | | |].
  - apply (serves_apart _ _ l HL), (pairs_perm (areas bs)); [by rewrite areas_split, Hl|by eapply areas_apart].
  - apply list.Forall_forall. intros q Hq. apply list_elem_of_lookup in Hq as [n Hq]. destruct (Forall2_lookup_l _ _ _ _ _ HL Hq) as (r & Hr & [E1 L1]).
    pose proof (live_inside s bs r Hok) as Hin. rewrite Hl in Hin. specialize (Hin (list_elem_of_lookup_2 _ _ _ Hr)). lia.
  - intros size Hs. destruct (alloc_any s bs size Hok ltac:(lia)) as (P & q & s' & bs' & -> & _). by eexists.
  - intros q Hq. apply list_elem_of_lookup in Hq as [n Hq]. destruct (Forall2_lookup_l _ _ _ _ _ HL Hq) as ([p z] & Hr & [E1 _]). rewrite E1. cbn.
    destruct (free_live s bs p z Hok) as (s' & bs' & -> & _); [rewrite Hl; by eapply list_elem_of_lookup_2|by eexists].
Qed.

(** C33. No memory is lost: when the clients have given everything back, all pages are free
    and joined, and an allocation of any size up to the whole pool succeeds. *)
Theorem slab_no_leak (s : pool) (H : reach s []) :
  pfree s = Z.of_nat (npages s) /\
  forall size, 0 <= size <= Z.of_nat (npages s) * ngx_pagesize -> exists p s', ngx_slab_alloc_locked size s = Some (Some p, s').
Proof.
  destruct (reach_pool s [] H) as (bs & Hok & (l & Hl & HL) & Hn). inversion HL; subst.
  assert (E : bs = [Block 0 (npages s) KFree]) by (apply idle_pool; [done| |done]; symmetry in Hl; by apply Permutation_nil in Hl). split.
  - rewrite (po_pfree _ _ Hok), E. cbn. unfold free_len. cbn. lia.
  - intros size Hs. assert (Hx : exists P, allocated s bs size P (ngx_slab_alloc_locked size s) /\ ~ P).
    { destruct (decide (size <= ngx_slab_max_size)) as [|Hgt]; eexists; (split; [first [apply alloc_small; [done|lia] | apply alloc_large; [done|lia]]|]).
      - rewrite E. intros Hf. inversion Hf as [|? ? [Hk _] _]. by apply Hk.
      - rewrite E. intros Hf. inversion Hf as [|? ? Hk _]. specialize (Hk eq_refl). cbn in Hk. lia. }
    destruct Hx as (P & (q & s' & bs' & Er & _ & _ & Hq) & HP). destruct q as [p|]; [eauto|]. by destruct Hq as [_ ?].
Qed.

(** ** Concrete pools *)

Lemma demo_fits : zone_fits 0 65536 200.
Proof. unfold zone_fits, ngx_pagesize. lia. Qed.

Lemma demo_ok : pool_ok demo_pool [Block 0 15 KFree].
Proof.
  destruct (init_ok 0 65536 200 demo_fits) as (n & _ & En & Hok). change (npages (ngx_slab_init 0 65536 200)) with (npages demo_pool) in En.
  assert (E15 : npages demo_pool = 15%nat) by (vm_compute; reflexivity). rewrite E15 in En. rewrite En. exact Hok.
Qed.

(** 5000 bytes taken from it *)
Definition demo_run : pool := match ngx_slab_alloc_locked 5000 demo_pool with Some (_, s) => s | None => demo_pool end.

Lemma demo_run_eq : ngx_slab_alloc_locked 5000 demo_pool = Some (Some 0, demo_run).
Proof.
  assert (E : option_map fst (ngx_slab_alloc_locked 5000 demo_pool) = Some (Some 0)) by (vm_compute; reflexivity).
  unfold demo_run. destruct (ngx_slab_alloc_locked 5000 demo_pool) as [[q s]|]; [|done]. injection E as E. cbn in E. by rewrite E.
Qed.

Lemma demo_reach : reach demo_run [(0, 5000)].
Proof. eapply (reach_alloc demo_pool []); [apply reach_init, demo_fits|lia|apply demo_run_eq]. Qed.

Lemma slab_alloc_correct_witness : exists P, allocated demo_pool [Block 0 15 KFree] 100 P (ngx_slab_alloc_locked 100 demo_pool).
Proof. eexists. apply (slab_alloc_correct demo_pool [Block 0 15 KFree] 100); [exact demo_ok|lia]. Defined.

Lemma slab_free_unknown_witness :
  ngx_slab_free_locked 4096 demo_pool = Some demo_pool /\ ngx_slab_free_locked 61440 demo_pool = None.
Proof.
  assert (Hl : forall p z, (p, z) ∉ live [Block 0 15 KFree]) by (intros p z Hz; inversion Hz).
  assert (En : npages demo_pool = 15%nat) by (vm_compute; reflexivity). assert (El : limit demo_pool = 61440) by (vm_compute; reflexivity). split.
  - apply (slab_free_unknown demo_pool [Block 0 15 KFree] 4096); [exact demo_ok|apply Hl|rewrite En, El; unfold ngx_pagesize; lia|].
    intros Hc. inversion Hc.
  - apply (slab_free_unknown demo_pool [Block 0 15 KFree] 61440); [exact demo_ok|apply Hl|rewrite En, El; unfold ngx_pagesize; lia].
Defined.

Lemma slab_history_safe_witness : exists bs, pool_ok demo_run bs /\ ForallOrdPairs apart (bitmaps bs ++ [(0, 5000)]).
Proof. destruct (slab_history_safe demo_run [(0, 5000)] demo_reach) as (bs & Hok & _ & Ha & _). exists bs. split; [exact Hok|exact Ha]. Defined.

Lemma slab_no_leak_witness : exists p s', ngx_slab_alloc_locked 61440 demo_pool = Some (Some p, s').
Proof.
  apply (proj2 (slab_no_leak demo_pool (reach_init 0 65536 200 demo_fits))). split; [lia|]. vm_compute. discriminate.
Defined.

(** The address pool->end passes the check of ngx_slab_free_locked, and the descriptor read is
    behind the last one. *)
Example free_at_end : ngx_slab_free_locked (limit demo_pool) demo_pool = None.
Proof. vm_compute. reflexivity. Qed.

(** The address of a bitmap is taken for a chunk in use: it is given to the next request. *)
Example free_bitmap :
  ('(p, s) ← ngx_slab_alloc_locked 8 demo_pool; s ← ngx_slab_free_locked 0 s; '(q, s) ← ngx_slab_alloc_locked 8 s; Some (p, q))
  = Some (Some 64, Some 0).
Proof. vm_compute. reflexivity. Qed.

End SlabPool.
