(* ===== verification/SlabClients.v ===== *)
(** * The slab allocator for its clients

    The addresses in use can be read off the descriptors of a pool.  With them the
    allocator is an instance of the interface that the zones of limit_req are verified
    against: what [LimitReq], [LimitReqRate] and [LimitReqHandler] prove for any allocator
    with these laws holds for this one. *)

From stdpp Require Import functions.
From S2P Require Import Prelude Slab SlabPages SlabRuns SlabBits SlabChunks SlabSpec SlabPool LimitReq.

Module SlabClients.
Import Slab SlabPages SlabRuns SlabBits SlabChunks SlabSpec SlabPool.

(** ** Reading the descriptors *)

(** The bit of a chunk *)
Definition chunk_bit (s : pool) (i shift j : nat) : bool :=
  if (shift <? ngx_slab_exact_shift)%nat then Z.testbit (nth (j / 64) (bitmap s i) 0) (Z.of_nat (j mod 64))
  else if (shift =? ngx_slab_exact_shift)%nat then Z.testbit (slab (mem s (Page i))) (Z.of_nat j)
  else Z.testbit (slab (mem s (Page i))) (32 + Z.of_nat j).

Definition page_pieces (s : pool) (i : nat) : list Z :=
  let n := mem s (Page i) in
  if ptype n =? NGX_SLAB_PAGE then
    if Z.testbit (slab n) 63 && negb (slab n =? NGX_SLAB_PAGE_BUSY) then [page_addr i] else []
  else
    let shift := if ptype n =? NGX_SLAB_EXACT then ngx_slab_exact_shift else Z.to_nat (Z.land (slab n) NGX_SLAB_SHIFT_MASK) in
    map (fun j => chunk_addr i j shift)
      (List.filter (fun j => chunk_bit s i shift j) (seq (reserved shift) (nchunks shift - reserved shift))).

Definition in_use (s : pool) : list Z := concat (map (page_pieces s) (seq 0 (npages s))).

Lemma chunk_bit_ok s i k bits listed j : (k < nslots)%nat -> chunks_ok (mem s (Page i)) (bitmap s i) (k + 3) bits listed -> (j < nchunks (k + 3))%nat ->
  chunk_bit s i (k + 3) j = Z.testbit bits (Z.of_nat j).
Proof.
  intros Hk [_ _ Hb _ Hr _] Hj. unfold chunk_bit, bits_rep in *. rewrite full_bits_pow in Hb. destruct (k + 3 <? ngx_slab_exact_shift)%nat eqn:Hs.
  - destruct Hr as (_ & R2 & R3), (small_sizes k Hk Hs) as (S1 & _). assert (Hn : (j / 64 < length (bitmap s i))%nat) by (apply Nat.Div0.div_lt_upper_bound; lia).
    apply lookup_lt_is_Some_2 in Hn as [w Ew]. pose proof (nth_lookup_Some _ _ 0 _ Ew) as ->. pose proof (Nat.mod_upper_bound j 64 ltac:(lia)) as Hm.
    rewrite (wo_bit _ _ R3 _ _ _ Ew) by done. do 2 f_equal. pose proof (Nat.div_mod_eq j 64). lia.
  - destruct (k + 3 =? ngx_slab_exact_shift)%nat eqn:He; [by rewrite Hr|]. rewrite Hr. destruct (big_sizes k Hk Hs He) as (Hn & _).
    assert (Hpow : 2 ^ Z.of_nat (nchunks (k + 3)) <= 2 ^ 32) by (apply Z.pow_le_mono_r; lia). apply upper_get; [unfold nslots in Hk; lia|lia].
Qed.

Lemma chunk_shift_read s i k bits listed : (k < nslots)%nat -> chunks_ok (mem s (Page i)) (bitmap s i) (k + 3) bits listed ->
  (if ptype (mem s (Page i)) =? NGX_SLAB_EXACT then ngx_slab_exact_shift else Z.to_nat (Z.land (slab (mem s (Page i))) NGX_SLAB_SHIFT_MASK)) = (k + 3)%nat.
Proof.
  intros Hk [_ Ht Hb _ Hr _]. rewrite Ht. unfold type_of, bits_rep in *. destruct (k + 3 <? ngx_slab_exact_shift)%nat eqn:Hs; [|destruct (k + 3 =? ngx_slab_exact_shift)%nat eqn:He]; cbn [Z.eqb Pos.eqb NGX_SLAB_SMALL NGX_SLAB_EXACT NGX_SLAB_BIG].
  - destruct Hr as (-> & _). change NGX_SLAB_SHIFT_MASK with (2 ^ 4 - 1). rewrite land_mask by lia. rewrite Z.mod_small by (unfold nslots in Hk; lia). apply Nat2Z.id.
  - by apply Nat.eqb_eq in He.
  - destruct (big_sizes k Hk Hs He) as (Hn & _). rewrite full_bits_pow in Hb. assert (Hpow : 2 ^ Z.of_nat (nchunks (k + 3)) <= 2 ^ 32) by (apply Z.pow_le_mono_r; lia).
    rewrite Hr, upper_shift by (unfold nslots in Hk; lia). apply Nat2Z.id.
Qed.

Lemma no_pieces s l : (forall p, p ∈ l -> page_pieces s p = []) -> concat (map (page_pieces s) l) = [].
Proof. induction l as [|p l IH]; intros H; [done|]. cbn. rewrite H, IH by set_solver. done. Qed.

Lemma block_pieces s bs b : pool_ok s bs -> b ∈ bs -> concat (map (page_pieces s) (pages_of b)) = map fst (pieces_of b).
Proof.
  intros Hok Hb. pose proof Hok as [(fl & sl & H) Ht _ _]. destruct (block_ok_in _ _ _ _ _ H Hb) as [Hl Hbok]. rewrite list.Forall_forall in Ht. specialize (Ht b Hb).
  pose proof (iv_size _ _ _ _ H) as Hsz. destruct b as [i len [| | | |shift bits listed]]; cbn [bkind bstart blen] in *; try done.
  - apply no_pieces. intros p Hp. unfold page_pieces. rewrite (run_type _ _ _ _ _ _ H Hb Hp) by by left. cbn [Z.eqb NGX_SLAB_PAGE]. rewrite pages_in in Hp. cbn in Hp.
    destruct Hbok as (B1 & _ & B3 & _). assert (Hlen := iv_bound _ _ _ _ _ (i + len - 1)%nat H Hb ltac:(apply pages_in; cbn; lia)). destruct (decide (p = i)) as [->|].
    + rewrite B1, (high_bits 32) by lia. done.
    + destruct (B3 p) as [-> _]; [lia|]. by rewrite Z.testbit_0_l.
  - destruct Hbok as [B1 B2]. assert (Hlen := iv_bound _ _ _ _ _ (i + len - 1)%nat H Hb ltac:(apply pages_in; cbn; lia)). unfold pages_of. cbn [bstart blen].
    destruct len as [|len]; [lia|]. cbn [seq map concat]. rewrite no_pieces.
    + unfold page_pieces. rewrite B1. cbn [ptype run_node]. destruct (run_slab (S len) ltac:(lia)) as (_ & R2 & _). cbn [slab run_node] in *. rewrite R2.
      rewrite Z.lor_spec, orb_true_r. done.
    + intros p Hp%elem_of_seq. unfold page_pieces. rewrite B2 by lia. done.
  - destruct (chunk_shift _ _ _ _ _ _ _ Hok Hb) as (k & -> & Hk & -> & _). destruct Hbok as [_ Hc]. cbn [pages_of bstart blen seq map concat]. rewrite app_nil_r.
    unfold page_pieces. pose proof (co_type _ _ _ _ _ Hc) as Hty. rewrite (proj2 (Z.eqb_neq (ptype _) NGX_SLAB_PAGE)) by (rewrite Hty; apply type_of_nz).
    rewrite (chunk_shift_read _ _ _ _ _ Hk Hc). unfold pieces_of. cbn [bkind bstart]. rewrite map_map. cbn [fst]. f_equal. unfold chunk_indices.
    apply filter_ext_in. intros j Hj%list_elem_of_In%elem_of_seq. apply (chunk_bit_ok _ _ _ _ _ _ Hk Hc). pose proof (usable k Hk). lia.
Qed.

Lemma in_use_ok s bs : pool_ok s bs -> in_use s ≡ₚ map fst (live bs).
Proof.
  intros Hok. pose proof Hok as [(fl & sl & H) _ _ _]. unfold in_use. rewrite <- flat_map_concat_map. rewrite <- (iv_part _ _ _ _ H). rewrite flat_map_concat_map.
  assert (Hb : forall b, b ∈ bs -> concat (map (page_pieces s) (pages_of b)) = map fst (pieces_of b)) by (intros b; by apply block_pieces).
  clear - Hb. induction bs as [|b bs IH]; [done|]. unfold all_pages, live in *. cbn [map concat]. rewrite map_app, concat_app, map_app, Hb by by left.
  apply Permutation_app_head, IH. intros c Hc. apply Hb. by right.
Qed.

(** ** The interface of the clients *)

Lemma piece_size b q : q ∈ pieces_of b -> 0 < q.2 \/ blen b = 0%nat.
Proof.
  destruct b as [i len [| | | |shift bits listed]]; cbn; try by intros ?%not_elem_of_nil.
  - intros ->%list_elem_of_singleton. cbn. unfold ngx_pagesize. lia.
  - intros (j & -> & _)%list_elem_of_fmap. left. cbn. apply Z.pow_pos_nonneg; lia.
Qed.

Lemma live_nodup s bs : pool_ok s bs -> NoDup (map Z.to_nat (map fst (live bs))).
Proof.
  intros Hok. pose proof (areas_apart s bs Hok) as Ha. apply (pairs_perm _ _ (areas_split bs)), pairs_inv in Ha as (_ & Ha & _).
  assert (Hp : Forall (fun q => 0 < q.2 /\ 0 <= q.1) (live bs)).
  { apply list.Forall_forall. intros q Hq. split; [|by eapply live_inside]. apply live_in in Hq as (b & bs' & Hb & Hq). destruct (piece_size b q Hq) as [|Hl]; [done|].
    destruct Hok as [(fl & sl & H) _ _ _]. pose proof (iv_len _ _ _ _ b H ltac:(rewrite Hb; by left)). lia. }
  induction Ha as [|q l Hq Ha IH]; [constructor|]. inversion Hp as [|? ? Hq0 Hp']; subst. cbn [map]. apply list.NoDup_cons. split; [|auto].
  rewrite map_map. intros (r & E & Hr)%list_elem_of_fmap. rewrite list.Forall_forall in Hq, Hp'. specialize (Hq r Hr). specialize (Hp' r Hr). unfold apart in Hq. lia.
Qed.

(** A pool that is well-formed; its blocks are not part of the data. *)
Record zone_pool := ZonePool { zp : pool; zp_ok : exists bs, pool_ok zp bs }.

Lemma alloc_keeps (a : zone_pool) size q s' : ngx_slab_alloc_locked (u64 size) (zp a) = Some (q, s') -> exists bs, pool_ok s' bs.
Proof.
  intros E. destruct (zp_ok a) as [bs Hok]. destruct (alloc_any _ _ (u64 size) Hok) as (P & q' & s1 & bs' & E' & Hok' & _); [apply wrap_range; lia|].
  rewrite E in E'. injection E' as <- <-. eauto.
Qed.

(** An address in use is freed; the clients free no other. *)
Definition owned (p : nat) (a : zone_pool) : Prop := Z.of_nat p ∈ in_use (zp a).

#[global] Instance owned_dec p a : Decision (owned p a).
Proof. unfold owned. apply _. Defined.

Lemma owned_live p (a : zone_pool) bs : pool_ok (zp a) bs -> owned p a -> exists z, (Z.of_nat p, z) ∈ live bs.
Proof. intros Hok Hp. unfold owned in Hp. rewrite (in_use_ok _ _ Hok) in Hp. apply list_elem_of_fmap in Hp as ([p' z] & -> & Hin). by exists z. Qed.

Lemma free_keeps p (a : zone_pool) s' : owned p a -> ngx_slab_free_locked (Z.of_nat p) (zp a) = Some s' -> exists bs, pool_ok s' bs.
Proof.
  intros Hp E. destruct (zp_ok a) as [bs Hok]. destruct (owned_live _ _ _ Hok Hp) as (z & Hin). destruct (free_live _ _ _ _ Hok Hin) as (s1 & bs' & E' & Hok' & _).
  rewrite E in E'. injection E' as <-. eauto.
Qed.

Definition alloc_result (size : Z) (a : zone_pool) (r : option (option Z * pool)) : ngx_slab_alloc_locked (u64 size) (zp a) = r -> option nat * zone_pool :=
  match r with
  | Some (q, s') => fun E => (option_map Z.to_nat q, ZonePool s' (alloc_keeps a size q s' E))
  | None => fun _ => (None, a)
  end.
Definition zone_alloc (size : Z) (a : zone_pool) : option nat * zone_pool := alloc_result size a _ eq_refl.

Definition free_result (p : nat) (a : zone_pool) (Hp : owned p a) (r : option pool) : ngx_slab_free_locked (Z.of_nat p) (zp a) = r -> zone_pool :=
  match r with
  | Some s' => fun E => ZonePool s' (free_keeps p a s' Hp E)
  | None => fun _ => a
  end.
Definition zone_free (p : nat) (a : zone_pool) : zone_pool :=
  match decide (owned p a) with left Hp => free_result p a Hp _ eq_refl | right _ => a end.

#[global] Instance slab_pool : LimitReq.Slab zone_pool := { slab_alloc := zone_alloc; slab_free := zone_free }.

(** They are the functions of the allocator. *)
Lemma alloc_result_eq size a r E q s' : r = Some (q, s') -> fst (alloc_result size a r E) = option_map Z.to_nat q /\ zp (snd (alloc_result size a r E)) = s'.
Proof. intros ->. done. Qed.

Lemma free_result_eq p a Hp r E s' : r = Some s' -> zp (free_result p a Hp r E) = s'.
Proof. intros ->. done. Qed.

Lemma zone_alloc_eq size a : exists q s', ngx_slab_alloc_locked (u64 size) (zp a) = Some (q, s') /\
  fst (zone_alloc size a) = option_map Z.to_nat q /\ zp (snd (zone_alloc size a)) = s'.
Proof.
  destruct (zp_ok a) as [bs Hok]. destruct (alloc_any _ _ (u64 size) Hok) as (P & q & s' & _ & E & _); [apply wrap_range; lia|].
  exists q, s'. split; [done|]. by apply alloc_result_eq.
Qed.

Lemma zone_free_eq p a : owned p a -> ngx_slab_free_locked (Z.of_nat p) (zp a) = Some (zp (zone_free p a)).
Proof.
  intros Hp. destruct (zp_ok a) as [bs Hok]. destruct (owned_live _ _ _ Hok Hp) as (z & Hin). destruct (free_live _ _ _ _ Hok Hin) as (s' & _ & E & _).
  unfold zone_free. destruct (decide (owned p a)) as [Hp'|]; [|done]. by rewrite (free_result_eq _ _ _ _ _ _ E).
Qed.

Definition zone_live (a : zone_pool) : gset nat := list_to_set (map Z.to_nat (in_use (zp a))).

Lemma zone_live_ok a bs : pool_ok (zp a) bs -> zone_live a = list_to_set (map Z.to_nat (map fst (live bs))).
Proof. intros Hok. unfold zone_live. apply leibniz_equiv. by rewrite (in_use_ok _ _ Hok). Qed.

#[global] Instance slab_pool_laws : LimitReq.SlabLaws zone_pool.
Proof.
  refine {| LimitReq.live := zone_live |}.
  - intros size a p a' E. destruct (zone_alloc_eq size a) as (q & s' & E1 & E2 & E3). cbn in E. rewrite E in E2, E3. cbn in E2, E3.
    destruct q as [p0|]; [|done]. injection E2 as ->. destruct (zp_ok a) as [bs Hok].
    destruct (alloc_any _ _ (u64 size) Hok) as (P & q' & s1 & bs' & E4 & Hok' & _ & Hq); [apply wrap_range; lia|].
    rewrite E1 in E4. injection E4 as <- <-. destruct Hq as (z & Hv & _). rewrite <- E3 in Hok'.
    rewrite (zone_live_ok _ _ Hok), (zone_live_ok _ _ Hok'). pose proof (live_nodup _ _ Hok') as Hn. rewrite Hv in Hn. cbn [map] in Hn. apply list.NoDup_cons in Hn as [Hn _]. split.
    + by rewrite elem_of_list_to_set.
    + apply leibniz_equiv. by rewrite Hv.
  - intros size a a' E. destruct (zone_alloc_eq size a) as (q & s' & E1 & E2 & E3). cbn in E. rewrite E in E2, E3. cbn in E2, E3.
    destruct q as [p0|]; [done|]. destruct (zp_ok a) as [bs Hok]. destruct (alloc_any _ _ (u64 size) Hok) as (P & q' & s1 & bs' & E4 & Hok' & _ & Hq); [apply wrap_range; lia|].
    rewrite E1 in E4. injection E4 as <- <-. destruct Hq as [-> _]. rewrite <- E3 in Hok'. by rewrite (zone_live_ok _ _ Hok), (zone_live_ok _ _ Hok').
  - intros p a Hp. destruct (zp_ok a) as [bs Hok]. assert (Hin : owned p a).
    { unfold zone_live in Hp. rewrite elem_of_list_to_set in Hp. apply list_elem_of_fmap in Hp as (x & -> & Hx). unfold owned. rewrite Z2Nat.id; [done|].
      rewrite (in_use_ok _ _ Hok) in Hx. apply list_elem_of_fmap in Hx as (q & -> & Hq). by eapply live_inside. }
    destruct (owned_live _ _ _ Hok Hin) as (z & Hz). destruct (free_live _ _ _ _ Hok Hz) as (s1 & bs' & E & Hok' & _ & Hv). cbn. rewrite (zone_free_eq p a Hin) in E. injection E as <-.
    rewrite (zone_live_ok _ _ Hok), (zone_live_ok _ _ Hok'). pose proof (live_nodup _ _ Hok) as Hn. rewrite Hv in Hn. cbn [map fst] in Hn. rewrite Nat2Z.id in Hn. apply list.NoDup_cons in Hn as [Hn _].
    apply leibniz_equiv. rewrite Hv. cbn [map fst]. rewrite Nat2Z.id. cbn. rewrite <- (elem_of_list_to_set (C := gset nat)) in Hn. set_solver.
Defined.

End SlabClients.
